(* ===== verification/_CoqProject ===== *)
-Q . S2P
Prelude.v
PyFloat.v
PyStr.v
PyTime.v
PyJson.v
Sha256.v
Crypto.v
Models.v
PyModel.v
Replay.v
Policy.v
Safety.v
Evidence.v
Admission.v
Delegation.v
Gateway.v
GatewayTrace.v
GatewayDemo.v
Lab.v
LabDemo.v
PhysicalModels.v
PhysicalControl.v
PhysicalDevice.v
PhysicalLoop.v
PhysicalDemo.v
CapabilityModels.v
DurableReplay.v
SemanticReplay.v
CapabilityPlc.v
PlcRuns.v
PlcDemo.v
CapabilityControl.v
CapabilityLoop.v
CapabilityDemo.v
TrustState.v
TrustRuns.v
Workload.v
WorkloadVerifier.v
WorkloadRuns.v
WorkloadDemo.v
CoordinationModels.v
CoordinationMessages.v
CoordinationVerify.v
CoordinationRecord.v
CoordinationJournal.v
CoordinationRecovery.v
CoordinationOps.v
OtRuntime.v
CoordinationHistory.v
CoordinationRuns.v
CoordinationSystem.v
CoordinationReopen.v
OtRuns.v
OtSystem.v
CoordinationCodec.v
CoordinationDemo.v
OtDemo.v
CapabilityIpc.v
ModbusWire.v
ModbusMessages.v
ModbusMailbox.v
ModbusClient.v
ModbusLink.v
ModbusDemo.v
DegradedModels.v
DegradedGate.v
DegradedStore.v
DegradedContract.v
DegradedDemo.v
