(* ===== verification/Prelude.v ===== *)
(** * Aegis-OT runtime assurance: verification library

    The program authorizes actions that autonomous agents propose for an
    operational-technology plant and carries out the permitted ones.  A proposal
    passes an optional degraded-operation gate and then the gateway's checks
    (identity, delegation, freshness, policy, safety, replay); every decision
    becomes a record of a hash chain.  A permitted proposal is executed on a
    surrogate state (local lab) or translated to a physical command, simulated,
    covered by a signed single-use permit and dispatched by a control device,
    which may be behind a Modbus mailbox.  Separate processes talk over framed
    pipes, remember accepted requests in durable ledgers, authenticate each other
    by short-lived credentials under a signed trust bundle, and coordinate each
    physical effect by signed prepare, commit and query messages that a gateway
    and an OT coordinator retain in durable journals.

    ** Files

    Shared ground:
    - [Prelude]: exceptions, [result], the state monad [M], check tables, the
      frame tactic and the lemmas on them.
    - [PyFloat], [PyStr], [PyTime], [PyJson]: the parts of the language and its
      standard library the source uses: binary64 floats, strings, datetimes, JSON
      printing and parsing.  [Sha256] and [Crypto] ([crypto.py]): executable
      SHA-256 and URL-safe Base64; Ed25519 is the class [Ed25519], whose one law is
      that what a key signs verifies under its public key.
    - [Models] ([models.py]) and [PyModel]: pydantic models as records with their
      construction checks; reading model fields from JSON.

    The authorization path:
    - [Replay] ([replay.py]), [Policy] ([identity.py], [policy.py]), [Safety]
      ([safety.py]), [Evidence] ([evidence.py]), [Delegation] ([delegation.py]):
      one file per check; the source's [Protocol]s are classes.
    - [Admission]: the gate's interface to the gateway.  [Gateway]
      ([gateway.py]): [decide] in full.  [GatewayTrace]: runs of calls.
    - [Lab] ([lab.py], [factory.py]): command adapter and local lab.
    - [DegradedModels], [DegradedGate], [DegradedStore], [DegradedContract]
      ([m5_degraded.py]): leases, reversals, the gate over its [Sources] and
      [StateStore], the file store ([FileDegradedOperationStateStore]) over an
      explicit directory and failing calls, and the proof that the gate meets
      [Admission]'s interface.

    The physical path:
    - [PhysicalModels] ([physical_models.py]), [PhysicalControl] (translator and
      permit issuer of [physical_control.py], resource bindings of
      [pandapower_plant.py]), [PhysicalDevice] (the permit-aware device),
      [PhysicalLoop] (the closed-loop controller).  The plant is the class [Plant].
    - [ModbusWire], [ModbusMessages] ([modbus_wire.py]): headers, payload
      registers, signed messages.  [ModbusMailbox], [ModbusClient]
      ([modbus_device.py]): the register handler and the client.  [ModbusLink]:
      both ends over a reliable connection.

    The capability-separated path, where observer, plant and PLC are processes of
    their own:
    - [CapabilityModels] ([capability_models.py]): requests, signed observations,
      permits and PLC acknowledgments.
    - [SemanticReplay] ([semantic_replay.py]): the PLC's durable reservations and
      the interface [ReplayStore] it implements.
    - [CapabilityPlc] ([CapabilityVirtualPlc] of [capability_plc.py]): the whole of
      [execute] over any [ReplayStore] and any plant ([PlcPlant]).  [PlcRuns]: runs
      of calls, deaths, restarts and foreign changes of the plant.
    - [CapabilityControl] ([capability_control.py] and the result model): permit
      issuer, observation verifier and controller, over the other processes as
      [CapabilityPorts].  [CapabilityLoop]: what a call guarantees whatever they
      answer.  [CapabilityDemo] puts the PLC of [CapabilityPlc] behind the port.

    Between processes:
    - [DurableReplay] ([transport_replay.py], [workload_replay.py]): both ledgers
      as one algorithm with two profiles, over an explicit directory entry, lock
      and failing writes.
    - [CapabilityIpc] ([capability_ipc.py]): frames, pipe client and server ends.

    Workload identity:
    - [TrustState] ([workload_trust_state.py]): the checkpoint of the highest trust
      bundle observed, over an explicit directory, lock and failing calls.
      [TrustRuns]: interleaved processes, deaths and power losses.
    - [Workload], [WorkloadVerifier] ([workload_identity.py]): credentials, bundles,
      bindings and signers; the verifier over the checkpoint.  [WorkloadRuns]:
      interleaved verifications.

    Effect coordination:
    - [CoordinationModels], [CoordinationMessages]
      ([coordination_models.py], the dispatch of [segmented_capability_models.py]):
      states, effect identity and the signed messages.
    - [CoordinationRecord], [CoordinationJournal], [CoordinationOps]
      ([coordination_journal.py]): the record of one effect with its history check,
      the journal's file and lock, and every operation of the gateway's and the
      coordinator's journal.
    - [CoordinationHistory]: what an update of a record keeps.  [CoordinationRuns]:
      the invariant between a writer and the file, kept by every operation.
      [CoordinationSystem]: processes, deaths and restarts.  [CoordinationReopen]:
      what was written loads again.  [CoordinationCodec]: a record form that has
      the laws the theorems ask of pydantic's.
    - [CoordinationVerify] (the [verify_*] methods of [coordination_models.py]):
      messages believed under keys from the workload verifier, through the class
      [CredentialVerifier] that the verifier of [WorkloadVerifier] implements.
    - [CoordinationRecovery] ([coordination_recovery.py]): the retained records
      against the plant's state.
    - [OtRuntime] ([CapabilityOtRuntime] of [segmented_capability_runtime.py]):
      prepare, commit and query of an effect, over the journal, the verifier, the
      recovery check and an environment (clock, plant, anchor, device).  [OtRuns]:
      what each call does to the journal.  [OtSystem]: processes that call, die
      between a commit's admission, the device's answer and its record, and
      restart.

    The files named [*Demo] instantiate every parameter (keys, clock, JSON forms,
    plants, connections) with concrete functions and apply the theorems there.

    ** What the theorems show

    - Gateway: at an aware time a permit is exactly the conjunction of the checks
      ([decide_permit_iff], [gated_permit]; a naive one raises,
      [decide_naive_raises]), a gate that fails denies
      ([gate_refusal_denies]), and over every run nonces are single-use,
      revocation is permanent and the evidence is complete.
    - Components: the ledger refines one that never prunes ([reserve_refines]),
      the validator accepts exactly the valid chains and never more than the root
      grants ([validate_valid_iff], [validate_bounded_by_root]), the kernel is
      sound and total, the chain's head pins its records up to hash collisions,
      what the adapter executes ends within the limits.
    - Degraded gate: the exact admission contract, the grounds of a reversal and
      its permanence over calls of any gates on the same store
      ([reversal_is_permanent], for stores with [StateStoreLaws]: [in_memory_laws],
      [file_store_laws]), and that every evaluation answers.
    - Physical path: [COMPLETED] means that translation, simulation, permit, the
      device's verified acknowledgment and the plant's readback after it are links
      of one chain ([completed_means_established]); the device dispatches only what
      the plant's state and a fresh simulation of this call confirm
      ([dispatch_only_authorized]); each permit, nonce and command reaches the
      plant at most once; what is not dispatched leaves the device untouched; once
      a permit exists every failure is a recorded unknown effect.
    - Modbus: the handler refines the protocol idle, staged, answered; a
      transaction is carried out at most once; a response that is believed is the
      device's signed answer to the octets sent; a failed execution attempted
      COMMIT at most once, and once that call returned only a verified response
      gives an ordinary error ([failed_execution_reported]; when the call raises
      although the device acted, the error is ordinary too, [lost_commit_reply]);
      over a connection that serves requests within Modbus's limits remote
      execution is execution on the device ([remote_execution]); the codecs round-trip at their widths.
    - Capability-separated path: the PLC asks the plant to apply at most once per
      permit, nonce and command across deaths and restarts
      ([plc_dispatches_once]), only for a transaction that passed every check on
      what the plant and the replay store answered in this call, was reserved and
      was unexpired after it ([plc_dispatch_authorized]), and says of each call what happened
      ([plc_acknowledgment_truthful]); accepted observations are genuine, fresh and
      in order ([observations_accepted_in_order]); a call of the loop asks the PLC
      at most once and accounts for it ([plc_asked_at_most_once]); [COMPLETED]
      means two signed artifacts that agree with the permit
      ([capability_completed_established]).
    - Ledgers and pipes: at most one acceptance across restarts and crashes, one
      writer, canonical documents; responses answer their requests with increasing
      counters, and failed requests close the client.
    - Workload identity: over every run no trust bundle is admitted after a later
      or conflicting one; a key is returned only on a current bundle the checkpoint
      remembers, by the current verification for a current, unrevoked credential
      and by the historical one for a credential that was current and unrevoked at
      the retained admission time; a revocation survives in every process; a call is a path of the interleaved phases.
    - Effect coordination: over every run, with deaths, restarts and failing file
      operations, a commit is admitted as new at most once per effect; records
      evolve along the legal transitions and terminal ones are final; an applied
      record holds the device's verified acknowledgment and the signed chain that
      led to it; a closed journal opens again with everything it retained; what it
      hands out is well formed.  Over every run of OT coordinators the device is
      asked at most once per effect ([device_asked_once]), never for an effect
      that was answered as not dispatched ([not_dispatched_never_asked]), and only
      for a commit whose signatures trace back to the workload authority
      ([dispatched_authentic]); an aligned journal is one chain of states up to
      the plant's ([aligned_is_chain]).

    ** Conventions

    A method is a function in [M S]: it returns a value or raises, and keeps what
    it changed before raising.  An exception is its class name and text; messages
    are the source's except where they embed a value's [repr].  The clock and
    [uuid4] are the class [Env], consumed in order through [World], so that
    theorems hold for every clock, one that jumps included.  A lock held around a
    call makes that call one step; another process or thread acts between steps
    (theorems about runs quantify over what it does).  Registers, lengths and
    counters are integers with the source's range checks written out.

    ** Fuel

    [parse_value] recurses with fuel for the length of its input
    ([loads_print] shows that it reads back what was printed); [sha_blocks] takes
    one step per sixteen-word block; [shortest] tries 1 to 17 digits, enough for
    every binary64 number; [decpt_search] starts at a logarithmic estimate at most
    a few places short and has eight steps; the mailbox loops have fuel for one
    register per chunk ([write_chunks_served], [read_chunks_served] show that
    every register is transferred).

    ** Not modelled, and why

    - Third-party code: pydantic's coercions and [model_dump] (classes), Ed25519
      and key generation, the power-flow solver, [pymodbus] and its connection,
      pipes and files as the operating system implements them.
    - Strings beyond U+00FF, years outside 1 to 9999, memory exhaustion; the
      recursion limit, the limit of 4300 digits of an integer's text and pydantic's
      serialization depth: a deep or huge JSON value that raises in the program
      encodes and parses here.
    - Dict fields are association lists or lists in key order: laws about dumps
      (injectivity, reading back) hold of these representatives, and the JSON forms
      of the [*Demo] files are forms of their own, not pydantic's.
    - The file-based sources of the degraded gate: the gate is proved over
      arbitrary [Sources].  Of its file store, a power loss and a file that others
      rewrite or remove (a store that does not require it to exist reads it as the
      initial state).
    - Start-up, bootstrap and shutdown of the device process
      ([modbus_device.py]) and of the observer, plant and PLC processes
      ([capability_observer.py], [capability_plant.py], the factories and pipe
      clients of [capability_plc.py]); their answers are arbitrary in the theorems
      of [CapabilityLoop].
    - Effect coordination: the reconciliation and resolution messages, the external
      anchor of [coordination_anchor.py] (its admission decision is a parameter of
      the OT coordinator), and of [CapabilityOtRuntime] a configuration without
      coordination, [health] and the uncoordinated [execute].  The coordinator's
      lock makes a prepare or query call one step; a commit is three, so that its
      process can die between them.  A constant such as [NaN] in a journal file raises
      an error of the same class with another text; comparing models compares
      their fields, so a value equal to another of a different type is not
      identified with it; the pid check of an inherited lock is the comparison of
      process identifiers; a power loss is modelled for the trust checkpoint, not
      for the journal's file.
    - The components the manifest lists as not modelled: the gateway's side of [segmented_capability_runtime.py],
      plant checkpoints, degraded publication, the fleet model, the independent
      evaluator, the decimal oracle (a later extension), and experiments, HTTP and
      container glue, release tooling. *)
From stdpp Require Export base tactics numbers list gmap sets strings.
From Stdlib Require Export ZArith Lia Ascii.
Delimit Scope char_scope with char.

Set Default Proof Using "Type".

(** ** Exceptions and fallible computations

    A Python exception is its class name and its [str].  [except C] catches [C]
    and the classes derived from it. *)
Record exn := mk_exn { exn_type : string; exn_str : string }.

#[export] Instance exn_eq_dec : EqDecision exn.
Proof. solve_decision. Defined.

(** The direct and indirect bases the source relies on in its handlers. *)
Definition exn_bases (cls : string) : list string :=
  if bool_decide (cls ∈ ["ValidationError"; "CommandTranslationError";
                         "PermitIssuanceError"; "JSONDecodeError"; "UnicodeError"])
  then ["ValueError"; "Exception"]
  else if bool_decide (cls = "UnicodeDecodeError")
  then ["UnicodeError"; "ValueError"; "Exception"]
  else if bool_decide (cls ∈ ["PhysicalSimulationError"; "TransportReplayLedgerError";
                              "WorkloadReplayLedgerError"; "IpcProtocolError";
                              "IpcTransportError"; "IpcOutcomeUnknownError";
                              "PlcServiceError"; "RecursionError"; "ControlDispatchUnknownEffect";
                              "WorkloadTrustSequenceStateError"; "WorkloadIdentityError";
                              "CoordinationJournalError"; "_WriterLockError";
                              "ModbusTransportError"; "ModbusProtocolError";
                              "_ApplicationUnknownEffect"])
  then ["RuntimeError"; "Exception"]
  else if bool_decide (cls = "ModbusUnknownEffectError")
  then ["ControlDispatchUnknownEffect"; "RuntimeError"; "Exception"]
  else if bool_decide (cls ∈ ["WorkloadIdentityUnavailable"; "WorkloadCredentialRejected"])
  then ["WorkloadIdentityError"; "RuntimeError"; "Exception"]
  else if bool_decide (cls = "WorkloadTrustStateUnavailable")
  then ["WorkloadIdentityUnavailable"; "WorkloadIdentityError"; "RuntimeError"; "Exception"]
  else if bool_decide (cls ∈ ["CoordinationCollisionError"; "IllegalCoordinationTransition"])
  then ["CoordinationJournalError"; "RuntimeError"; "Exception"]
  else if bool_decide (cls ∈ ["CapabilityAdmissionRejected"; "CapabilityRuntimeUnavailable"; "EffectCommitIndeterminate"])
  then ["CapabilityRuntimeError"; "RuntimeError"; "Exception"]
  else if bool_decide (cls ∈ ["BrokenPipeError"; "FileNotFoundError"; "ConnectionResetError"; "TimeoutError"])
  then ["OSError"; "Exception"]
  else if bool_decide (cls ∈ ["OverflowError"])
  then ["ArithmeticError"; "Exception"]
  else if bool_decide (cls ∈ ["KeyboardInterrupt"; "SystemExit"])
  then ["BaseException"]
  else ["Exception"].

Definition isinstance_exn (e : exn) (cls : string) : bool :=
  bool_decide (exn_type e = cls) || bool_decide (cls ∈ exn_bases (exn_type e)).

Inductive result (A : Type) :=
  | Ok (a : A)
  | Raise (e : exn).
Arguments Ok {A} a.
Arguments Raise {A} e.

#[export] Instance result_ret : MRet result := @Ok.
#[export] Instance result_bind : MBind result := λ A B k m,
  match m with Ok a => k a | Raise e => Raise e end.
#[export] Instance result_fmap : FMap result := λ A B f m,
  match m with Ok a => Ok (f a) | Raise e => Raise e end.

Definition raise_ {A} (cls msg : string) : result A := Raise (mk_exn cls msg).

(** [if not c: raise cls(msg)] *)
Definition require (c : bool) (cls msg : string) : result unit :=
  if c then Ok tt else raise_ cls msg.

Definition is_Ok {A} (r : result A) : bool :=
  match r with Ok _ => true | Raise _ => false end.

(** ** Stateful computations

    A method mutates the state it runs in and may raise; what it changed before
    raising stays changed, as in Python. *)
Definition M (S A : Type) : Type := S → result A * S.

#[export] Instance M_ret S : MRet (M S) := λ A a s, (Ok a, s).
#[export] Instance M_bind S : MBind (M S) := λ A B k m s,
  match m s with
  | (Ok a, s') => k a s'
  | (Raise e, s') => (Raise e, s')
  end.

Definition get {S} : M S S := λ s, (Ok s, s).
Definition put {S} (s : S) : M S unit := λ _, (Ok tt, s).
Definition modify {S} (f : S → S) : M S unit := λ s, (Ok tt, f s).
Definition lift {S A} (r : result A) : M S A := λ s, (r, s).
Definition throw {S A} (cls msg : string) : M S A := lift (raise_ cls msg).

(** [try: m  except: h]; [h] returns [None] for an exception it does not catch. *)
Definition try_except {S A} (m : M S A) (h : exn → option (M S A)) : M S A := λ s,
  match m s with
  | (Ok a, s') => (Ok a, s')
  | (Raise e, s') => match h e with Some k => k s' | None => (Raise e, s') end
  end.

(** [try: ... except Exception] as a value: what [m] returned or raised; exceptions
    outside [Exception] propagate. *)
Definition attempt {S A} (m : M S A) : M S (result A) := λ s,
  match m s with
  | (Ok a, s') => (Ok (Ok a), s')
  | (Raise e, s') => if isinstance_exn e "Exception" then (Ok (Raise e), s') else (Raise e, s')
  end.

(** Runs a method of an object held in a field of a larger state. *)
Definition zoom {S T A} (getf : S → T) (setf : T → S → S) (m : M T A) : M S A := λ s,
  match m (getf s) with (r, t) => (r, setf t s) end.

(** [and] of conditions: the later ones are evaluated when the earlier ones hold. *)
Fixpoint all_true (l : list (result bool)) : result bool :=
  match l with [] => Ok true | c :: l => b ← c; if (b : bool) then all_true l else Ok false end.
Fixpoint all_hold {S} (l : list (M S bool)) : M S bool :=
  match l with [] => mret true | m :: l => b ← m; if (b : bool) then all_hold l else mret false end.

(** ** Check tables

    The source evaluates tables [(condition, reason)] in two ways: the first
    condition that fails gives the reason, or every one that holds adds it. *)
Fixpoint first_failure (checks : list (bool * string)) : option string :=
  match checks with
  | [] => None
  | (passed, reason) :: rest => if passed then first_failure rest else Some reason
  end.

Definition collect (flags : list (bool * string)) : list string :=
  omap (λ '(flag, reason), if (flag : bool) then Some reason else None) flags.

Fixpoint result_mapM {A B} (f : A → result B) (l : list A) : result (list B) :=
  match l with
  | [] => Ok []
  | x :: l => y ← f x; ys ← result_mapM f l; Ok (y :: ys)
  end.


(** ** Lemmas on results *)
Lemma require_Ok (c : bool) cls msg u : require c cls msg = Ok u ↔ c = true.
Proof. unfold require. destruct c, u; split; done. Qed.

Lemma require_bind {A} (c : bool) cls msg (k : unit → result A) a :
  (u ← require c cls msg; k u) = Ok a ↔ c = true ∧ k tt = Ok a.
Proof. unfold require. destruct c; simpl; naive_solver. Qed.

Lemma result_bind_Ok {A B} (m : result A) (k : A → result B) b :
  (a ← m; k a) = Ok b ↔ ∃ a, m = Ok a ∧ k a = Ok b.
Proof. destruct m; simpl; naive_solver. Qed.

Lemma result_bind_Raise {A B} (m : result A) (k : A → result B) e :
  (a ← m; k a) = Raise e ↔ m = Raise e ∨ ∃ a, m = Ok a ∧ k a = Raise e.
Proof. destruct m; simpl; naive_solver. Qed.

Lemma Ok_inj {A} (a b : A) : Ok a = Ok b → a = b.
Proof. by intros [=]. Qed.

(** Splits boolean conjunctions and reflects decisions in the hypotheses. *)
Ltac bool_split :=
  repeat match goal with
  | H : (_ && _) = true |- _ => apply andb_true_iff in H as [? ?]
  | H : (_ || _) = false |- _ => apply orb_false_iff in H as [? ?]
  | H : negb _ = true |- _ => apply negb_true_iff in H
  | H : negb _ = false |- _ => apply negb_false_iff in H
  | H : bool_decide _ = true |- _ => apply bool_decide_eq_true in H
  | H : bool_decide _ = false |- _ => apply bool_decide_eq_false in H
  | H : (_ <=? _)%Z = true |- _ => apply Z.leb_le in H
  | H : (_ <=? _)%Z = false |- _ => apply Z.leb_gt in H
  | H : (_ <? _)%Z = true |- _ => apply Z.ltb_lt in H
  | H : (_ <? _)%Z = false |- _ => apply Z.ltb_ge in H
  | H : (_ =? _)%Z = true |- _ => apply Z.eqb_eq in H
  | H : (_ =? _)%Z = false |- _ => apply Z.eqb_neq in H
  end.

(** Turns a successful chain of checks into the facts it checked. *)
Ltac inv_ok :=
  repeat match goal with
  | H : require _ _ _ ≫= _ = Ok _ |- _ => apply require_bind in H as [? H]
  | H : require _ _ _ = Ok _ |- _ => apply require_Ok in H
  | H : _ ≫= _ = Ok _ |- _ => apply result_bind_Ok in H as (? & ? & H)
  | H : Ok _ = Ok _ |- _ => injection H as H
  | H : Raise _ = Ok _ |- _ => discriminate H
  | H : raise_ _ _ = Ok _ |- _ => discriminate H
  end; bool_split; simplify_eq.

Lemma result_mapM_Ok {A B} (f : A → result B) l l' :
  result_mapM f l = Ok l' ↔ Forall2 (λ x y, f x = Ok y) l l'.
Proof.
  revert l'. induction l as [|x l IH]; intros l'; simpl.
  - split; [by intros [= <-]|by inversion 1].
  - split.
    + intros H. inv_ok. constructor; [done|]. by apply IH.
    + inversion 1 as [|? y ? ys Hy Hys]; subst. rewrite Hy. simpl.
      by rewrite (proj2 (IH ys) Hys).
Qed.

(** ** Lemmas on stateful computations *)
Lemma M_bind_Ok {S A B} (m : M S A) (k : A → M S B) s b s' :
  (a ← m; k a) s = (Ok b, s') ↔ ∃ a s1, m s = (Ok a, s1) ∧ k a s1 = (Ok b, s').
Proof.
  unfold mbind, M_bind. destruct (m s) as [[a|e] s1].
  - split; [eauto|]. by intros (? & ? & [= <- <-] & ?).
  - split; [by intros [=]|by intros (? & ? & [=] & _)].
Qed.

Lemma M_bind_run {S A B} (m : M S A) (k : A → M S B) s a s' : m s = (Ok a, s') → (m ≫= k) s = k a s'.
Proof. intros H. unfold mbind, M_bind. by rewrite H. Qed.

(** A bind raised in its first part or went on to the second. *)
Lemma M_bind_case {S A B} (m : M S A) (k : A → M S B) s r s' :
  (a ← m; k a) s = (r, s') →
  (∃ e, r = Raise e ∧ m s = (Raise e, s')) ∨ (∃ a s1, m s = (Ok a, s1) ∧ k a s1 = (r, s')).
Proof. unfold mbind, M_bind. destruct (m s) as [[a|e] s1]; [|intros [= <- <-]]; eauto. Qed.

Lemma zoom_run {S T A} (getf : S → T) (setf : T → S → S) (m : M T A) s r s' :
  zoom getf setf m s = (r, s') ↔ ∃ t, m (getf s) = (r, t) ∧ s' = setf t s.
Proof. unfold zoom. destruct (m (getf s)). naive_solver. Qed.

Lemma lift_Ok {S A} (r : result A) (s : S) a s' : lift r s = (Ok a, s') ↔ r = Ok a ∧ s' = s.
Proof. unfold lift. naive_solver. Qed.
Lemma all_true_Forall l : all_true l = Ok true → Forall (λ c, c = Ok true) l.
Proof.
  induction l as [|c l IH]; cbn [all_true]; [constructor|].
  intros H. apply result_bind_Ok in H as ([] & Hc & H); [|discriminate H]. by constructor; [|apply IH].
Qed.
Lemma all_hold_cons {S} (m : M S bool) l s s' :
  all_hold (m :: l) s = (Ok true, s') → ∃ s1, m s = (Ok true, s1) ∧ all_hold l s1 = (Ok true, s').
Proof. intros H. apply M_bind_Ok in H as ([] & s1 & Hm & H); [by exists s1|discriminate H]. Qed.

Lemma attempt_Ok {S A} (m : M S A) s r s' :
  attempt m s = (Ok r, s') ↔ m s = (r, s') ∧ (∀ e, r = Raise e → isinstance_exn e "Exception" = true).
Proof.
  unfold attempt. destruct (m s) as [[a|e] s1].
  - split; [intros [= <- <-]; split; congruence|by intros [[= -> ->] _]].
  - destruct (isinstance_exn e "Exception") eqn:He.
    + split; [intros [= <- <-]; split; congruence|by intros [[= -> ->] _]].
    + split; [congruence|]. intros [[= <- <-] H]. specialize (H e eq_refl). congruence.
Qed.

(** ** Frames of stateful computations

    [preserves R m]: whatever [m] returns or raises, its final state is related
    to its initial one.  For a preorder [R] it composes along the monad. *)
Definition preserves {S A} (R : relation S) (m : M S A) : Prop := ∀ s, R s (m s).2.

Lemma preserves_run {S A} (R : relation S) (m : M S A) s r s' : preserves R m → m s = (r, s') → R s s'.
Proof. intros Hm Hs. specialize (Hm s). by rewrite Hs in Hm. Qed.

Section preserves.
Context {S : Type} (R : relation S) `{!PreOrder R}.

Lemma preserves_ret {A} (a : A) : preserves R (mret (M := M S) a).
Proof using Type*. intros s. simpl. reflexivity. Qed.
Lemma preserves_lift {A} (r : result A) : preserves R (lift (S := S) r).
Proof using Type*. intros s. simpl. reflexivity. Qed.
Lemma preserves_get : preserves R (get (S := S)).
Proof using Type*. intros s. simpl. reflexivity. Qed.
Lemma preserves_bind {A B} (m : M S A) (k : A → M S B) :
  preserves R m → (∀ a, preserves R (k a)) → preserves R (a ← m; k a).
Proof using Type*.
  intros Hm Hk s. unfold mbind, M_bind. specialize (Hm s). destruct (m s) as [[a|e] s']; [|done].
  etrans; [exact Hm|apply Hk].
Qed.
Lemma preserves_attempt {A} (m : M S A) : preserves R m → preserves R (attempt m).
Proof using Type*.
  intros Hm s. specialize (Hm s). unfold attempt. destruct (m s) as [[a|e] s']; [done|].
  by destruct (isinstance_exn _ _).
Qed.
Lemma preserves_modify f : (∀ s, R s (f s)) → preserves R (modify f).
Proof using Type. intros Hf s. apply Hf. Qed.
Lemma preserves_zoom {T A} (RT : relation T) getf setf (m : M T A) :
  preserves RT m → (∀ s t, RT (getf s) t → R s (setf t s)) → preserves R (zoom getf setf m).
Proof using Type.
  intros Hm Hs s. specialize (Hm (getf s)). unfold zoom. destruct (m (getf s)). by apply Hs.
Qed.
End preserves.

Create HintDb frames.
#[export] Hint Resolve preserves_ret preserves_lift preserves_get preserves_attempt : frames.
(** Walks a computation whose leaves the [frames] hints know. *)
Ltac frame :=
  repeat first
    [ apply preserves_bind; [typeclasses eauto| |intros]
    | progress intros
    | solve [eauto with frames typeclass_instances]
    | apply preserves_attempt; [typeclasses eauto|]
    | case_match ].

(** ** Lemmas on check tables *)
Lemma first_failure_None checks :
  first_failure checks = None ↔ Forall (λ c, c.1 = true) checks.
Proof.
  induction checks as [|[[] r] checks IH]; simpl.
  - by split.
  - rewrite IH, Forall_cons. naive_solver.
  - rewrite Forall_cons. naive_solver.
Qed.

Lemma first_failure_Some checks r :
  first_failure checks = Some r → (false, r) ∈ checks.
Proof.
  induction checks as [|[[] r'] checks IH]; simpl; intros; simplify_eq; set_solver.
Qed.

Lemma collect_nil flags : collect flags = [] ↔ Forall (λ c, c.1 = false) flags.
Proof.
  unfold collect. induction flags as [|[[] r] flags IH]; simpl.
  - by split.
  - rewrite Forall_cons. naive_solver.
  - rewrite IH, Forall_cons. naive_solver.
Qed.

#[global] Arguments collect : simpl never.

Lemma elem_of_collect r flags : r ∈ collect flags ↔ (true, r) ∈ flags.
Proof.
  unfold collect. rewrite list_elem_of_omap. split.
  - intros [[[] r'] [? ?]]; naive_solver.
  - intros ?. by exists (true, r).
Qed.
