(* ===== verification/PyFloat.v ===== *)
(** * IEEE 754 binary64 numbers, as Python's [float]

    The source's floats are the standard library's [spec_float] at precision 53
    and maximal exponent 1024: [+], [-], and the comparisons are the standard's
    functions, literals are the correctly rounded quotient of two integers.  The
    file proves the order lemmas the components use. *)
From S2P Require Import Prelude.
From Stdlib Require Import SpecFloat.

Definition float := spec_float.

#[export] Instance float_eq_dec : EqDecision float.
Proof. unfold float. solve_decision. Defined.

Definition f_of_Z (z : Z) : float := binary_normalize 53 1024 z 0 false.
(** The literal [n/d], correctly rounded: [7/10] is Python's [0.7]. *)
Definition flit (n : Z) (d : positive) : float := SFdiv 53 1024 (f_of_Z n) (f_of_Z (Zpos d)).
Definition fadd (x y : float) : float := SFadd 53 1024 x y.
Definition fsub (x y : float) : float := SFsub 53 1024 x y.
Definition fltb (x y : float) : bool := SFltb x y.
Definition fleb (x y : float) : bool := SFleb x y.
Definition feqb (x y : float) : bool := SFeqb x y.
Definition is_nan (x : float) : bool := match x with S754_nan => true | _ => false end.
(** [math.isfinite] *)
Definition is_finite (x : float) : bool :=
  match x with S754_zero _ | S754_finite _ _ _ => true | _ => false end.

(** [max(a, b)] and [min(a, b)]: the first argument unless the second beats it. *)
Definition py_max (a b : float) : float := if fltb a b then b else a.
Definition py_min (a b : float) : float := if fltb b a then b else a.

(** The comparison is lexicographic on this key. *)
Definition fkey (x : float) : option (Z * Z * Z) :=
  match x with
  | S754_nan => None
  | S754_infinity s => Some (if s then -2 else 2, 0, 0)%Z
  | S754_zero _ => Some (0, 0, 0)%Z
  | S754_finite s m e => Some (if s then (-1, - e, Zneg m) else (1, e, Zpos m))%Z
  end.

Definition lex_compare (a b : Z * Z * Z) : comparison :=
  match a, b with
  | (a1, a2, a3), (b1, b2, b3) =>
      match Z.compare a1 b1 with
      | Eq => match Z.compare a2 b2 with Eq => Z.compare a3 b3 | c => c end
      | c => c
      end
  end.

Definition lex_lt (a b : Z * Z * Z) : Prop :=
  (a.1.1 < b.1.1 ∨ a.1.1 = b.1.1 ∧ (a.1.2 < b.1.2 ∨ a.1.2 = b.1.2 ∧ a.2 < b.2))%Z.

Lemma lex_compare_spec a b :
  match lex_compare a b with Lt => lex_lt a b | Eq => a = b | Gt => lex_lt b a end.
Proof.
  destruct a as [[a1 a2] a3], b as [[b1 b2] b3]; unfold lex_compare, lex_lt; simpl.
  destruct (Z.compare_spec a1 b1); subst; try lia.
  destruct (Z.compare_spec a2 b2); subst; try lia.
  destruct (Z.compare_spec a3 b3); subst; try lia; auto.
Qed.

Lemma SFcompare_key x y :
  SFcompare x y = match fkey x, fkey y with
                  | Some a, Some b => Some (lex_compare a b)
                  | _, _ => None
                  end.
Proof.
  destruct x as [[]|[]| |[] m e], y as [[]|[]| |[] m' e']; try reflexivity.
  simpl. f_equal.
  destruct (Z.compare_spec e e'), (Z.compare_spec (- e) (- e')); try lia; done.
Qed.

(** Comparisons as order facts on keys; [float_order] proves their consequences. *)
Definition klt (x y : option (Z * Z * Z)) : Prop :=
  match x, y with Some a, Some b => lex_lt a b | _, _ => False end.
Definition kle (x y : option (Z * Z * Z)) : Prop :=
  match x, y with Some a, Some b => ¬ lex_lt b a | _, _ => False end.

Lemma fltb_klt x y : fltb x y = true ↔ klt (fkey x) (fkey y).
Proof.
  unfold fltb, SFltb. rewrite SFcompare_key. unfold klt.
  destruct (fkey x) as [a|], (fkey y) as [b|]; try done.
  pose proof (lex_compare_spec a b) as H.
  destruct (lex_compare a b); subst; unfold lex_lt in *; intuition (try done; try lia).
Qed.

Lemma fleb_kle x y : fleb x y = true ↔ kle (fkey x) (fkey y).
Proof.
  unfold fleb, SFleb. rewrite SFcompare_key. unfold kle.
  destruct (fkey x) as [a|], (fkey y) as [b|]; try done.
  pose proof (lex_compare_spec a b) as H.
  destruct (lex_compare a b); subst; unfold lex_lt in *; intuition (try done; try lia).
Qed.

Lemma fkey_nan x : is_nan x = false ↔ is_Some (fkey x).
Proof. destruct x; simpl; split; intros H; eauto; try done; by destruct H. Qed.

Lemma is_finite_not_nan x : is_finite x = true → is_nan x = false.
Proof. by destruct x. Qed.

Ltac float_order :=
  repeat match goal with
  | H : fltb _ _ = true |- _ => apply fltb_klt in H
  | H : fleb _ _ = true |- _ => apply fleb_kle in H
  | H : is_nan ?x = false |- _ => apply fkey_nan in H; destruct H
  | H : fltb _ _ = false |- _ => rewrite <- not_true_iff_false, fltb_klt in H
  | H : fleb _ _ = false |- _ => rewrite <- not_true_iff_false, fleb_kle in H
  | |- fltb _ _ = true => apply fltb_klt
  | |- fleb _ _ = true => apply fleb_kle
  | |- fltb _ _ = false => rewrite <- not_true_iff_false, fltb_klt
  | |- fleb _ _ = false => rewrite <- not_true_iff_false, fleb_kle
  end;
  unfold klt, kle, lex_lt in *;
  repeat match goal with
  | H : context [match fkey ?x with _ => _ end] |- _ => destruct (fkey x) eqn:?
  | |- context [match fkey ?x with _ => _ end] => destruct (fkey x) eqn:?
  end; simplify_eq; try tauto; try lia.

Lemma fleb_refl x : is_nan x = false → fleb x x = true.
Proof. intros; float_order. Qed.

Lemma fleb_trans x y z : fleb x y = true → fleb y z = true → fleb x z = true.
Proof. intros; float_order. Qed.

Lemma fltb_fleb x y : fltb x y = true → fleb x y = true.
Proof. intros; float_order. Qed.

Lemma fltb_irrefl x : fltb x x = false.
Proof. float_order. Qed.

(** Away from NaN, failing [x > y] is [x <= y]. *)
Lemma fltb_false_fleb x y :
  is_nan x = false → is_nan y = false → fltb y x = false → fleb x y = true.
Proof. intros; float_order. Qed.

Lemma fleb_fltb_false x y : fleb x y = true → fltb y x = false.
Proof. intros; float_order. Qed.

Lemma fleb_not_nan x y : fleb x y = true → is_nan x = false ∧ is_nan y = false.
Proof.
  rewrite fleb_kle, !fkey_nan. unfold kle.
  destruct (fkey x), (fkey y); naive_solver.
Qed.

Lemma fltb_not_nan x y : fltb x y = true → is_nan x = false ∧ is_nan y = false.
Proof. intros H. by apply fleb_not_nan, fltb_fleb. Qed.

Create HintDb floats.
#[export] Hint Resolve fleb_trans fltb_fleb fltb_false_fleb fleb_fltb_false : floats.

(** Clamping to a closed interval always lands in it, whatever the argument. *)
Lemma clamp_bounds lo hi x :
  fleb lo hi = true →
  fleb lo (py_max lo (py_min hi x)) = true ∧ fleb (py_max lo (py_min hi x)) hi = true.
Proof.
  intros Hb. destruct (fleb_not_nan _ _ Hb). unfold py_max, py_min.
  destruct (fltb x hi) eqn:?, (fltb lo _) eqn:?; split; eauto using fleb_refl with floats.
Qed.

Lemma py_max_ge lo x : is_nan lo = false → fleb lo (py_max lo x) = true.
Proof. intros. unfold py_max. destruct (fltb lo x) eqn:?; eauto using fleb_refl with floats. Qed.

Example flit_70 : flit 70 100 = S754_finite false 6305039478318694 (-53).
Proof. reflexivity. Qed.
