(* ===== verification/PyStr.v ===== *)
(** * Python strings and decimal rendering

    A [str] is a [string] whose characters are the code points U+0000 to U+00FF;
    [bytes] is the same type read as octets.  The file holds the scanning and
    printing functions the JSON and time models share: decimal integers,
    zero-padded fields, maximal spans, the order on strings, UTF-8 decoding of
    the modelled range. *)
From S2P Require Import Prelude.
From Stdlib Require Import DecimalString DecimalPos DecimalN DecimalFacts.
From stdpp Require Import sorting.

#[global] Arguments String.append !_ _ / : simpl nomatch.

(** Length and character classes *)
Definition str_len (s : string) : Z := Z.of_nat (String.length s).
Definition chr (z : Z) : Ascii.ascii := Ascii.ascii_of_N (Z.to_N z).
Definition ord (c : Ascii.ascii) : Z := Z.of_N (Ascii.N_of_ascii c).
Definition is_digit (c : Ascii.ascii) : bool := (48 <=? ord c)%Z && (ord c <=? 57)%Z.
Definition is_hex_lower (c : Ascii.ascii) : bool :=
  is_digit c || ((97 <=? ord c)%Z && (ord c <=? 102)%Z).

Fixpoint str_forallb (p : Ascii.ascii → bool) (s : string) : bool :=
  match s with EmptyString => true | String c s => p c && str_forallb p s end.

Definition starts_with_p (p : Ascii.ascii → bool) (s : string) : bool :=
  match s with EmptyString => false | String c _ => p c end.

(** The longest prefix whose characters satisfy [p], and the rest. *)
Fixpoint span (p : Ascii.ascii → bool) (s : string) : string * string :=
  match s with
  | EmptyString => (EmptyString, EmptyString)
  | String c s' => if p c then let r := span p s' in (String c r.1, r.2) else (EmptyString, s)
  end.

Lemma span_app p s r :
  str_forallb p s = true → starts_with_p p r = false → span p (s +:+ r) = (s, r).
Proof.
  intros Hs Hr. induction s as [|c s IH]; simpl in *.
  - destruct r as [|d r]; simpl in *; [done|]. by rewrite Hr.
  - apply andb_true_iff in Hs as [-> Hs]. by rewrite IH.
Qed.

Lemma str_app_assoc (a b c : string) : (a +:+ b) +:+ c = a +:+ (b +:+ c).
Proof. induction a; simpl; congruence. Qed.

Lemma str_app_nil_r (a : string) : a +:+ "" = a.
Proof. induction a; simpl; congruence. Qed.

Lemma str_length_app (a b : string) :
  String.length (a +:+ b) = String.length a + String.length b.
Proof. induction a; simpl; congruence. Qed.

Lemma str_forallb_app p a b :
  str_forallb p (a +:+ b) = str_forallb p a && str_forallb p b.
Proof. induction a as [|c a IH]; simpl; [done|]. by rewrite IH, andb_assoc. Qed.

Lemma str_forallb_impl (p q : Ascii.ascii → bool) s :
  (∀ c, p c = true → q c = true) → str_forallb p s = true → str_forallb q s = true.
Proof. intros Hpq. induction s as [|c s IH]; simpl; [done|]. rewrite !andb_true_iff. intros []. eauto. Qed.

Create Rewrite HintDb pystr.
#[export] Hint Rewrite str_app_assoc str_app_nil_r str_length_app str_forallb_app : pystr.

(** ** Order on strings: code point by code point *)
Fixpoint str_ltb (a b : string) : bool :=
  match a, b with
  | EmptyString, String _ _ => true
  | String c a, String d b =>
      if Ascii.eqb c d then str_ltb a b else (ord c <? ord d)%Z
  | _, EmptyString => false
  end.
Definition str_leb (a b : string) : bool := negb (str_ltb b a).

Lemma ord_inj c d : ord c = ord d → c = d.
Proof.
  unfold ord. intros H%N2Z.inj.
  by rewrite <- (Ascii.ascii_N_embedding c), <- (Ascii.ascii_N_embedding d), H.
Qed.

Lemma ord_range c : (0 <= ord c < 256)%Z.
Proof. unfold ord. pose proof (Ascii.N_ascii_bounded c). lia. Qed.

Lemma ord_chr z : (0 <= z < 256)%Z → ord (chr z) = z.
Proof. intros. unfold ord, chr. rewrite Ascii.N_ascii_embedding; lia. Qed.

Lemma chr_ord c : chr (ord c) = c.
Proof. apply ord_inj, ord_chr, ord_range. Qed.

Lemma str_ltb_irrefl a : str_ltb a a = false.
Proof. induction a; simpl; [done|]. by rewrite Ascii.eqb_refl. Qed.

Lemma str_ltb_trans a b c : str_ltb a b = true → str_ltb b c = true → str_ltb a c = true.
Proof.
  revert b c. induction a as [|x a IH]; intros [|y b] [|z c]; simpl; try done.
  destruct (Ascii.eqb_spec x y), (Ascii.eqb_spec y z), (Ascii.eqb_spec x z);
    subst; eauto; try done; rewrite ?Z.ltb_lt; try lia.
Qed.

Lemma str_ltb_total a b : str_ltb a b = false → str_ltb b a = false → a = b.
Proof.
  revert b. induction a as [|x a IH]; intros [|y b]; simpl; try done.
  rewrite (Ascii.eqb_sym y x).
  destruct (Ascii.eqb_spec x y); [subst; intros; f_equal; eauto|].
  rewrite !Z.ltb_ge. intros. destruct n. apply ord_inj. lia.
Qed.

Definition str_le (a b : string) : Prop := str_leb a b = true.
#[export] Instance str_le_dec a b : Decision (str_le a b).
Proof. unfold str_le. solve_decision. Defined.

#[export] Instance str_le_trans : Transitive str_le.
Proof.
  intros a b c. unfold str_le, str_leb. rewrite !negb_true_iff. intros H1 H2.
  destruct (str_ltb c a) eqn:E; [|done].
  destruct (str_ltb a b) eqn:Eab.
  - by rewrite (str_ltb_trans c a b) in H2.
  - by rewrite (str_ltb_total a b) in E by done; rewrite E in H2.
Qed.

#[export] Instance str_le_total : Total str_le.
Proof.
  intros a b. unfold str_le, str_leb. rewrite !negb_true_iff.
  destruct (str_ltb b a) eqn:E; [right|by left].
  destruct (str_ltb a b) eqn:E'; [|done].
  pose proof (str_ltb_irrefl a). by rewrite (str_ltb_trans a b a) in H.
Qed.

#[export] Instance str_le_antisymm : AntiSymm (=) str_le.
Proof. intros a b. unfold str_le, str_leb. rewrite !negb_true_iff. eauto using str_ltb_total. Qed.

Definition sorted_strs (l : list string) : list string := merge_sort str_le l.

(** ** Decimal integers *)
Definition dec_N (n : N) : string := NilEmpty.string_of_uint (N.to_uint n).
Definition dec_Z (z : Z) : string :=
  match z with
  | Zneg p => String "-"%char (dec_N (Npos p))
  | _ => dec_N (Z.to_N z)
  end.
(** A non-empty run of digits as a number. *)
Definition parse_dec (s : string) : option N :=
  if bool_decide (s = "") then None
  else N.of_uint <$> NilEmpty.uint_of_string s.

Lemma string_of_uint_digits u : str_forallb is_digit (NilEmpty.string_of_uint u) = true.
Proof. induction u; simpl; done. Qed.

Lemma dec_N_digits n : str_forallb is_digit (dec_N n) = true.
Proof. apply string_of_uint_digits. Qed.

Lemma N_to_uint_nil n : N.to_uint n ≠ Decimal.Nil.
Proof. destruct n as [|p]; [done|]. apply DecimalPos.Unsigned.to_uint_nonnil. Qed.

Lemma dec_N_nonempty n : dec_N n ≠ "".
Proof.
  unfold dec_N. pose proof (N_to_uint_nil n). destruct (N.to_uint n); simpl; done.
Qed.

Lemma parse_dec_N n : parse_dec (dec_N n) = Some n.
Proof.
  unfold parse_dec. rewrite bool_decide_eq_false_2 by apply dec_N_nonempty.
  unfold dec_N. rewrite NilEmpty.usu. simpl. f_equal. apply Unsigned.of_to.
Qed.

Fixpoint zeros (n : nat) : string :=
  match n with O => "" | S n => String "0"%char (zeros n) end.
Definition zpad (w : nat) (z : Z) : string :=
  let d := dec_N (Z.to_N z) in zeros (w - String.length d) +:+ d.

(** ** UTF-8 decoding of octets to the modelled code points *)
Fixpoint utf8_decode (s : string) : option string :=
  match s with
  | EmptyString => Some EmptyString
  | String c s' =>
      if (ord c <? 128)%Z then String c <$> utf8_decode s'
      else match s' with
           | String d s'' =>
               if ((ord c =? 194) || (ord c =? 195))%Z && ((128 <=? ord d) && (ord d <? 192))%Z
               then String (chr ((ord c - 192) * 64 + (ord d - 128))) <$> utf8_decode s''
               else None
           | EmptyString => None
           end
  end.
Definition is_ascii (c : Ascii.ascii) : bool := (ord c <? 128)%Z.

Lemma utf8_decode_ascii s : str_forallb is_ascii s = true → utf8_decode s = Some s.
Proof.
  induction s as [|c s IH]; simpl; [done|]. unfold is_ascii at 1.
  rewrite andb_true_iff. intros [-> H]. by rewrite IH.
Qed.

(** [str.encode("utf-8")] and [str.isspace] on the modelled code points *)
Fixpoint utf8_encode (s : string) : string :=
  match s with
  | EmptyString => EmptyString
  | String c s =>
      if (ord c <? 128)%Z then String c (utf8_encode s)
      else String (chr (192 + ord c / 64)) (String (chr (128 + ord c mod 64)) (utf8_encode s))
  end.

Lemma utf8_decode_encode s : utf8_decode (utf8_encode s) = Some s.
Proof.
  induction s as [|c s IH]; [done|]. cbn [utf8_encode]. pose proof (ord_range c).
  destruct (ord c <? 128)%Z eqn:E.
  - cbn [utf8_decode]. by rewrite E, IH.
  - apply Z.ltb_ge in E. cbn [utf8_decode].
    pose proof (Z.mod_pos_bound (ord c) 64 ltac:(lia)).
    pose proof (Z.div_mod (ord c) 64 ltac:(lia)).
    assert (ord c / 64 = 2 ∨ ord c / 64 = 3)%Z as Hq by lia. rewrite !ord_chr by lia.
    replace (192 + ord c / 64 <? 128)%Z with false by (symmetry; apply Z.ltb_ge; lia).
    rewrite IH.
    assert (((192 + ord c / 64 =? 194) || (192 + ord c / 64 =? 195))%Z
            && ((128 <=? 128 + ord c mod 64) && (128 + ord c mod 64 <? 192))%Z = true) as -> by lia.
    simpl. f_equal. f_equal. rewrite <- (chr_ord c) at 3. f_equal. lia.
Qed.

Lemma utf8_encode_inj a b : utf8_encode a = utf8_encode b → a = b.
Proof. intros H. apply (inj Some). by rewrite <- (utf8_decode_encode a), H, utf8_decode_encode. Qed.

Definition is_space (c : Ascii.ascii) : bool :=
  let n := ord c in
  ((9 <=? n) && (n <=? 13) || (28 <=? n) && (n <=? 32) || (n =? 133) || (n =? 160))%Z.
(** [any(character.isspace() for character in value)]; a value that [strip]
    changes starts or ends with such a character. *)
Definition has_space (s : string) : bool := negb (str_forallb (λ c, negb (is_space c)) s).

(** [tuple(dict.fromkeys(l))]: the first occurrence of each element. *)
Fixpoint fromkeys_from (seen l : list string) : list string :=
  match l with
  | [] => []
  | x :: l => if bool_decide (x ∈ seen) then fromkeys_from seen l else x :: fromkeys_from (x :: seen) l
  end.
Definition fromkeys : list string → list string := fromkeys_from [].

Lemma elem_of_fromkeys_from seen l x :
  x ∈ fromkeys_from seen l ↔ x ∈ l ∧ x ∉ seen.
Proof.
  revert seen. induction l as [|y l IH]; intros seen; simpl; [set_solver|].
  case_bool_decide; rewrite ?elem_of_cons, IH; [set_solver|].
  rewrite elem_of_cons. destruct (decide (x = y)); set_solver.
Qed.

Lemma elem_of_fromkeys l x : x ∈ fromkeys l ↔ x ∈ l.
Proof. unfold fromkeys. rewrite elem_of_fromkeys_from. set_solver. Qed.

Lemma fromkeys_NoDup l : NoDup (fromkeys l).
Proof.
  unfold fromkeys. generalize (@nil string). induction l as [|y l IH]; intros seen; simpl; [constructor|].
  case_bool_decide; [done|]. constructor; [|done]. rewrite elem_of_fromkeys_from. set_solver.
Qed.

Lemma fromkeys_nil l : fromkeys l = [] ↔ l = [].
Proof.
  split; [|by intros ->]. destruct l as [|x l]; [done|]. intros H.
  assert (x ∈ fromkeys (x :: l)) by (apply elem_of_fromkeys; set_solver). rewrite H in *. set_solver.
Qed.
