(* ===== verification/PyTime.v ===== *)
(** * Aware datetimes and time spans

    A [datetime] is an instant in microseconds since 1970-01-01T00:00:00Z with
    the UTC offset (in seconds) it is displayed in, [None] for a naive value.
    Comparisons of aware values compare instants; [isoformat] also depends on
    the offset.  A [timedelta] is a number of microseconds.  The calendar bounds
    (years 1 to 9999) are not modelled. *)
From S2P Require Import Prelude PyStr.
Local Open Scope Z_scope.

Record datetime := mk_dt { dt_utc : Z; tzinfo : option Z }.
Definition timedelta := Z.

#[export] Instance datetime_eq_dec : EqDecision datetime.
Proof. solve_decision. Defined.

Definition seconds (n : Z) : timedelta := n * 1000000.
Definition minutes (n : Z) : timedelta := seconds (n * 60).
Definition hours (n : Z) : timedelta := minutes (n * 60).

Definition utc (us : Z) : datetime := mk_dt us (Some 0).
Definition dt_aware (d : datetime) : bool := bool_decide (is_Some (tzinfo d)).
(** Comparing or subtracting a naive and an aware datetime raises [TypeError]: the
    functions below are the answers for datetimes that are [comparable]. *)
Definition comparable (a b : datetime) : bool := Bool.eqb (dt_aware a) (dt_aware b).
Definition dt_ltb (a b : datetime) : bool := dt_utc a <? dt_utc b.
Definition dt_leb (a b : datetime) : bool := dt_utc a <=? dt_utc b.
Definition dt_eqb (a b : datetime) : bool := dt_utc a =? dt_utc b.
Definition dt_sub (a b : datetime) : timedelta := dt_utc a - dt_utc b.
Definition dt_minus (a : datetime) (d : timedelta) : datetime := mk_dt (dt_utc a - d) (tzinfo a).
Definition dt_plus (a : datetime) (d : timedelta) : datetime := mk_dt (dt_utc a + d) (tzinfo a).

(** Proleptic Gregorian date of a day number counted from 1970-01-01. *)
Definition civil (days : Z) : Z * Z * Z :=
  let z := days + 719468 in
  let era := z / 146097 in
  let doe := z mod 146097 in
  let yoe := (doe - doe / 1460 + doe / 36524 - doe / 146096) / 365 in
  let doy := doe - (365 * yoe + yoe / 4 - yoe / 100) in
  let mp := (5 * doy + 2) / 153 in
  let d := doy - (153 * mp + 2) / 5 + 1 in
  let m := if mp <? 10 then mp + 3 else mp - 9 in
  (yoe + era * 400 + (if m <=? 2 then 1 else 0), m, d).

Definition offset_suffix (off : Z) : string :=
  let a := Z.abs off in
  (if off <? 0 then "-" else "+") +:+ zpad 2 (a / 3600) +:+ ":" +:+ zpad 2 (a / 60 mod 60)
  +:+ (if a mod 60 =? 0 then "" else ":" +:+ zpad 2 (a mod 60)).

Definition isoformat (d : datetime) : string :=
  let local := dt_utc d + match tzinfo d with Some o => seconds o | None => 0 end in
  let day := local / seconds 86400 in
  let tod := local mod seconds 86400 in
  let '(y, m, dd) := civil day in
  let us := tod mod 1000000 in
  let s := tod / 1000000 in
  zpad 4 y +:+ "-" +:+ zpad 2 m +:+ "-" +:+ zpad 2 dd +:+ "T"
  +:+ zpad 2 (s / 3600) +:+ ":" +:+ zpad 2 (s / 60 mod 60) +:+ ":" +:+ zpad 2 (s mod 60)
  +:+ (if us =? 0 then "" else "." +:+ zpad 6 us)
  +:+ match tzinfo d with Some o => offset_suffix o | None => "" end.

#[global] Arguments isoformat : simpl never.

Example isoformat_ex :
  isoformat (utc 1787529600123456) = "2026-08-24T00:00:00.123456+00:00".
Proof. reflexivity. Qed.

(** ** The outside world: clock readings and random identifiers

    The [n]-th reading of the clock and the [n]-th [uuid4] are what the
    environment supplies; the state counts how many were taken. *)
Class Env := { clock_at : nat → datetime; uuid_at : nat → string }.
Record World := mk_World { w_clock : nat; w_uuid : nat }.

Definition now_utc `{Env} : M World datetime := λ w,
  (Ok (clock_at (w_clock w)), mk_World (S (w_clock w)) (w_uuid w)).
Definition uuid4 `{Env} : M World string := λ w,
  (Ok (uuid_at (w_uuid w)), mk_World (w_clock w) (S (w_uuid w))).
