(* ===== verification/PyJson.v ===== *)
(** * JSON values, [json.dumps] and [json.loads]

    [dumps] is [json.dumps(v, sort_keys=True, separators=(",", ":"))] with the
    default [ensure_ascii=True]; [dumps_strict] adds [allow_nan=False].  [loads]
    is [json.loads] with an [object_pairs_hook]; the default hook is
    [dict_of_pairs], [closed_object] is the hook that refuses duplicate keys.
    A Python dict is an association list without duplicate keys.

    The main result is the round trip [loads_print]: parsing the printed form of
    a value gives the value back, hence [dumps_inj]. *)
From S2P Require Import Prelude PyFloat PyStr.
From stdpp Require Import sorting.
From Stdlib Require Import SpecFloat.

Inductive json :=
  | JNull
  | JBool (b : bool)
  | JInt (z : Z)
  | JFloat (f : float)
  | JStr (s : string)
  | JArr (l : list json)
  | JObj (kv : list (string * json)).

(** Induction through the nested lists. *)
Section json_ind.
Context (P : json → Prop).
Context (Hnull : P JNull) (Hbool : ∀ b, P (JBool b)) (Hint : ∀ z, P (JInt z))
  (Hfloat : ∀ f, P (JFloat f)) (Hstr : ∀ s, P (JStr s))
  (Harr : ∀ l, Forall P l → P (JArr l))
  (Hobj : ∀ kv, Forall (λ p, P p.2) kv → P (JObj kv)).

Fixpoint json_nested_ind (j : json) : P j :=
  match j with
  | JNull => Hnull
  | JBool b => Hbool b
  | JInt z => Hint z
  | JFloat f => Hfloat f
  | JStr s => Hstr s
  | JArr l => Harr l ((fix go (l : list json) : Forall P l :=
      match l with [] => Forall_nil_2 _ | x :: l => Forall_cons_2 _ _ _ (json_nested_ind x) (go l) end) l)
  | JObj kv => Hobj kv ((fix go (l : list (string * json)) : Forall (λ p, P p.2) l :=
      match l with
      | [] => Forall_nil_2 _
      | x :: l => Forall_cons_2 _ _ _ (json_nested_ind x.2) (go l)
      end) kv)
  end.
End json_ind.

Fixpoint json_eqb (a b : json) : bool :=
  match a, b with
  | JNull, JNull => true
  | JBool x, JBool y => Bool.eqb x y
  | JInt x, JInt y => (x =? y)%Z
  | JFloat x, JFloat y => bool_decide (x = y)
  | JStr x, JStr y => bool_decide (x = y)
  | JArr x, JArr y =>
      (fix go (l1 l2 : list json) : bool :=
         match l1, l2 with
         | [], [] => true
         | a :: l1, b :: l2 => json_eqb a b && go l1 l2
         | _, _ => false
         end) x y
  | JObj x, JObj y =>
      (fix go (l1 l2 : list (string * json)) : bool :=
         match l1, l2 with
         | [], [] => true
         | (k, a) :: l1, (k', b) :: l2 => bool_decide (k = k') && json_eqb a b && go l1 l2
         | _, _ => false
         end) x y
  | _, _ => false
  end.

Lemma json_eqb_eq a b : json_eqb a b = true ↔ a = b.
Proof.
  revert b. induction a as [| | | | |l IH|l IH] using json_nested_ind;
    intros [|b'|z'|f'|s'|l'|l']; simpl; try (split; congruence).
  - rewrite eqb_true_iff. split; congruence.
  - rewrite Z.eqb_eq. split; congruence.
  - rewrite bool_decide_eq_true. split; congruence.
  - rewrite bool_decide_eq_true. split; congruence.
  - revert l'. induction IH as [|x l Hx _ IH]; intros [|y l']; try (split; congruence).
    rewrite andb_true_iff, Hx, IH. split; [intros [-> [=->]]; done|by intros [= -> ->]].
  - revert l'. induction IH as [|[k x] l Hx _ IH]; intros [|[k' y] l']; try (split; congruence).
    simpl in Hx. rewrite !andb_true_iff, bool_decide_eq_true, Hx, IH.
    split; [intros [[-> ->] [=->]]; done|by intros [= -> -> ->]].
Qed.

#[export] Instance json_eq_dec : EqDecision json.
Proof. intros a b. destruct (json_eqb a b) eqn:E; [left|right]; rewrite <- json_eqb_eq; congruence. Defined.

(** ** Printing *)
Definition hex_digit (z : Z) : Ascii.ascii := chr (if (z <? 10)%Z then 48 + z else 87 + z).

Definition esc (c : Ascii.ascii) : string :=
  let n := ord c in
  if (n =? 34)%Z then "\" +:+ String c ""
  else if (n =? 92)%Z then "\\"
  else if (n =? 10)%Z then "\n"
  else if (n =? 13)%Z then "\r"
  else if (n =? 9)%Z then "\t"
  else if (n =? 8)%Z then "\b"
  else if (n =? 12)%Z then "\f"
  else if (32 <=? n)%Z && (n <=? 126)%Z then String c ""
  else "\u00" +:+ String (hex_digit (n / 16)) (String (hex_digit (n mod 16)) "").

Fixpoint escape (s : string) : string :=
  match s with EmptyString => EmptyString | String c s => esc c +:+ escape s end.
Definition quote : Ascii.ascii := chr 34.
Definition print_str (s : string) : string := String quote (escape s +:+ String quote "").

(** [float.__repr__]: the shortest digits that read back as the same number. *)
Definition f_of_decimal (neg : bool) (d e10 : Z) : float :=
  let v := if (d =? 0)%Z then S754_zero false
           else if (0 <=? e10)%Z then binary_normalize 53 1024 (d * 10 ^ e10) 0 false
           else match d, (10 ^ (- e10))%Z with
                | Zpos m, Zpos den => SFdiv 53 1024 (S754_finite false m 0) (S754_finite false den 0)
                | _, _ => S754_nan
                end in
  if neg then SFopp v else v.

(** Numerator and denominator of a positive finite number. *)
Definition f_ratio (m : positive) (e : Z) : Z * Z :=
  if (0 <=? e)%Z then (Z.pos m * 2 ^ e, 1)%Z else (Z.pos m, 2 ^ (- e))%Z.

(** The position [k] of the decimal point: [10^(k-1) <= num/den < 10^k]. *)
Fixpoint decpt_search (fuel : nat) (num den k : Z) : Z :=
  match fuel with
  | O => k
  | S fuel =>
      let below := if (0 <=? k)%Z then (num <? den * 10 ^ k)%Z
                   else (num * 10 ^ (- k) <? den)%Z in
      if below then k else decpt_search fuel num den (k + 1)%Z
  end.
Definition decpt_of (m : positive) (e : Z) : Z :=
  let '(num, den) := f_ratio m e in
  decpt_search 8 num den ((Z.log2 (Zpos m) + e) * 30103 / 100000 - 2)%Z.

(** The candidates with [n] digits: the nearest integer first, then the other neighbour. *)
Definition digit_candidates (m : positive) (e k : Z) (n : nat) : list Z :=
  let '(num, den) := f_ratio m e in
  let p := (Z.of_nat n - k)%Z in
  let '(num, den) := if (0 <=? p)%Z then (num * 10 ^ p, den)%Z else (num, den * 10 ^ (- p))%Z in
  let q := (num / den)%Z in
  let r := (num mod den)%Z in
  if (2 * r <? den)%Z || ((2 * r =? den)%Z && Z.even q) then [q; q + 1]%Z else [q + 1; q]%Z.

Fixpoint shortest (fuel n : nat) (m : positive) (e k : Z) : option (Z * Z) :=
  match fuel with
  | O => None
  | S fuel =>
      let reads_back d := bool_decide (f_of_decimal false d (k - Z.of_nat n) = S754_finite false m e) in
      match List.filter reads_back (digit_candidates m e k n) with
      | d :: _ => Some (d, Z.of_nat n)
      | [] => shortest fuel (S n) m e k
      end
  end.

Definition str_take (n : nat) (s : string) : string := String.substring 0 n s.
Definition str_drop (n : nat) (s : string) : string :=
  String.substring n (String.length s - n) s.

(** Layout of digits [ds] with the decimal point at [k]. *)
Definition repr_layout (ds : string) (k : Z) : string :=
  let len := str_len ds in
  if ((-4 <? k) && (k <=? 16))%Z then
    if (k <=? 0)%Z then "0." +:+ zeros (Z.to_nat (- k)) +:+ ds
    else if (len <=? k)%Z then ds +:+ zeros (Z.to_nat (k - len)) +:+ ".0"
    else str_take (Z.to_nat k) ds +:+ "." +:+ str_drop (Z.to_nat k) ds
  else
    let x := (k - 1)%Z in
    str_take 1 ds +:+ (if (len =? 1)%Z then "" else "." +:+ str_drop 1 ds)
    +:+ "e" +:+ (if (x <? 0)%Z then "-" else "+") +:+ zpad 2 (Z.abs x).

Definition float_repr (f : float) : string :=
  match f with
  | S754_nan => "NaN"
  | S754_infinity s => if s then "-Infinity" else "Infinity"
  | S754_zero s => if s then "-0.0" else "0.0"
  | S754_finite s m e =>
      let k := decpt_of m e in
      let '(d, n) := default (0, 1)%Z (shortest 17 1 m e k) in
      let ds := dec_N (Z.to_N d) in
      (** a candidate [10^n] has one digit more: the point moves with it *)
      (if s then "-" else "") +:+ repr_layout ds (k + (str_len ds - n))%Z
  end.

Fixpoint print (j : json) : string :=
  match j with
  | JNull => "null"
  | JBool b => if b then "true" else "false"
  | JInt z => dec_Z z
  | JFloat f => float_repr f
  | JStr s => print_str s
  | JArr l =>
      "[" +:+ (fix go (l : list json) : string :=
        match l with
        | [] => ""
        | [x] => print x
        | x :: l => print x +:+ "," +:+ go l
        end) l +:+ "]"
  | JObj kv =>
      "{" +:+ (fix go (l : list (string * json)) : string :=
        match l with
        | [] => ""
        | [(k, x)] => print_str k +:+ ":" +:+ print x
        | (k, x) :: l => print_str k +:+ ":" +:+ print x +:+ "," +:+ go l
        end) kv +:+ "}"
  end.

(** [sort_keys=True]: every object's items in key order. *)
Definition key_le (a b : string * json) : Prop := str_le a.1 b.1.
#[export] Instance key_le_dec a b : Decision (key_le a b).
Proof. unfold key_le. apply _. Defined.

Fixpoint canon (j : json) : json :=
  match j with
  | JArr l => JArr (map canon l)
  | JObj kv => JObj (merge_sort key_le (map (λ '(k, x), (k, canon x)) kv))
  | _ => j
  end.

Definition dumps (j : json) : string := print (canon j).

Fixpoint has_nan (j : json) : bool :=
  match j with
  | JFloat f => negb (is_finite f)
  | JArr l => existsb has_nan l
  | JObj kv => existsb (λ '(_, x), has_nan x) kv
  | _ => false
  end.

(** [json.dumps(..., allow_nan=False)] *)
Definition dumps_strict (j : json) : result string :=
  if has_nan j then raise_ "ValueError" "Out of range float values are not JSON compliant"
  else Ok (dumps j).

Example repr_ex : map float_repr [flit 1 10; flit 5 1; flit 1 3; flit 100 1; f_of_decimal false 1 22;
    f_of_decimal false 5 (-324); f_of_decimal true 15 (-6); f_of_decimal false 17976931348623157 292;
    f_of_decimal false 9007199254740993 0; flit 123456 1000; f_of_decimal false 1 16]
  = ["0.1"; "5.0"; "0.3333333333333333"; "100.0"; "1e+22"; "5e-324"; "-1.5e-05";
     "1.7976931348623157e+308"; "9007199254740992.0"; "123.456"; "1e+16"].
Proof. vm_compute. reflexivity. Qed.

(** ** Dicts as association lists in insertion order *)
Fixpoint dict_get {A} (k : string) (d : list (string * A)) : option A :=
  match d with
  | [] => None
  | (k', v) :: d => if bool_decide (k = k') then Some v else dict_get k d
  end.
Fixpoint dict_set {A} (k : string) (v : A) (d : list (string * A)) : list (string * A) :=
  match d with
  | [] => [(k, v)]
  | (k', v') :: d => if bool_decide (k = k') then (k', v) :: d else (k', v') :: dict_set k v d
  end.

Definition hook := list (string * json) → result json.

(** Without a hook, a repeated key keeps its first place and its last value. *)
Definition dict_of_pairs : hook := λ kv,
  Ok (JObj (fold_left (λ d p, dict_set p.1 p.2 d) kv [])).

(** The source's [_closed_object] hooks: a repeated key raises. *)
Definition closed_object (cls msg : string) : hook := λ kv,
  (fix go (kv acc : list (string * json)) : result json :=
     match kv with
     | [] => Ok (JObj acc)
     | (k, v) :: kv =>
         match dict_get k acc with
         | Some _ => raise_ cls msg
         | None => go kv (acc ++ [(k, v)])
         end
     end) kv [].

(** ** Parsing *)
Definition is_ws (c : Ascii.ascii) : bool :=
  let n := ord c in (n =? 32)%Z || (n =? 9)%Z || (n =? 10)%Z || (n =? 13)%Z.
Definition skip_ws (s : string) : string := (span is_ws s).2.

Definition is_numchar (c : Ascii.ascii) : bool :=
  let n := ord c in
  is_digit c || (n =? 43)%Z || (n =? 45)%Z || (n =? 46)%Z || (n =? 69)%Z || (n =? 101)%Z.

Fixpoint strip_prefix (p s : string) : option string :=
  match p, s with
  | EmptyString, _ => Some s
  | String a p, String b s => if Ascii.eqb a b then strip_prefix p s else None
  | _, _ => None
  end.

(** A complete number token: [-?(0|[1-9]\d* )(\.\d+)?([eE][-+]?\d+)?]. *)
Definition parse_exponent (s : string) : option Z :=
  match s with
  | EmptyString => Some 0%Z
  | String c s =>
      if (ord c =? 101)%Z || (ord c =? 69)%Z then
        match s with
        | String d t =>
            if (ord d =? 45)%Z then (λ n, - Z.of_N n)%Z <$> parse_dec t
            else if (ord d =? 43)%Z then Z.of_N <$> parse_dec t
            else Z.of_N <$> parse_dec s
        | EmptyString => None
        end
      else None
  end.

Definition parse_number (tok : string) : option json :=
  let '(neg, s) := match tok with
                   | String c t => if (ord c =? 45)%Z then (true, t) else (false, tok)
                   | EmptyString => (false, tok)
                   end in
  let '(ip, r) := span is_digit s in
  int ← parse_dec ip;
  if starts_with_p (λ c, (ord c =? 48)%Z) ip && negb (bool_decide (ip = "0")) then None
  else match r with
       | EmptyString => Some (JInt (if neg then - Z.of_N int else Z.of_N int))
       | String c r' =>
           let '(fd, x) := if (ord c =? 46)%Z then span is_digit r' else ("", r) in
           if (ord c =? 46)%Z && bool_decide (fd = "") then None
           else d ← parse_dec (ip +:+ fd);
                e ← parse_exponent x;
                Some (JFloat (f_of_decimal neg (Z.of_N d) (e - str_len fd)))
       end.

Definition hex_value (c : Ascii.ascii) : option Z :=
  let n := ord c in
  if is_digit c then Some (n - 48)%Z
  else if ((97 <=? n) && (n <=? 102))%Z then Some (n - 87)%Z
  else if ((65 <=? n) && (n <=? 70))%Z then Some (n - 55)%Z
  else None.

Definition unescape1 (c : Ascii.ascii) : option Ascii.ascii :=
  let n := ord c in
  if (n =? 34)%Z then Some (chr 34) else if (n =? 92)%Z then Some (chr 92)
  else if (n =? 47)%Z then Some (chr 47) else if (n =? 98)%Z then Some (chr 8)
  else if (n =? 102)%Z then Some (chr 12) else if (n =? 110)%Z then Some (chr 10)
  else if (n =? 114)%Z then Some (chr 13) else if (n =? 116)%Z then Some (chr 9)
  else None.

(** The characters up to the closing quote, and the rest. *)
Fixpoint scan_string (s : string) : option (string * string) :=
  match s with
  | EmptyString => None
  | String c s1 =>
      if (ord c =? 34)%Z then Some (EmptyString, s1)
      else if (ord c =? 92)%Z then
        match s1 with
        | EmptyString => None
        | String d s2 =>
            if (ord d =? 117)%Z then
              match s2 with
              | String h1 (String h2 (String h3 (String h4 s3))) =>
                  a ← hex_value h1; b ← hex_value h2; x ← hex_value h3; y ← hex_value h4;
                  if ((a =? 0) && (b =? 0))%Z then
                    '(t, r) ← scan_string s3; Some (String (chr (16 * x + y)) t, r)
                  else None
              | _ => None
              end
            else ch ← unescape1 d; '(t, r) ← scan_string s2; Some (String ch t, r)
        end
      else if (ord c <? 32)%Z then None
      else '(t, r) ← scan_string s1; Some (String c t, r)
  end.

Definition decode_error {A} : result A := raise_ "JSONDecodeError" "invalid JSON".

Definition literals : list (string * json) :=
  [("null", JNull); ("true", JBool true); ("false", JBool false); ("NaN", JFloat S754_nan);
   ("Infinity", JFloat (S754_infinity false)); ("-Infinity", JFloat (S754_infinity true))].

Fixpoint match_literal (ls : list (string * json)) (s : string) : option (json * string) :=
  match ls with
  | [] => None
  | (p, j) :: ls => match strip_prefix p s with
                    | Some r => Some (j, r)
                    | None => match_literal ls s
                    end
  end.

Definition parse_scalar (s : string) : result (json * string) :=
  match match_literal literals s with
  | Some jr => Ok jr
  | None => let '(tok, r) := span is_numchar s in
            match parse_number tok with Some j => Ok (j, r) | None => decode_error end
  end.

(** [n] bounds the number of nested calls; [loads] gives more than enough. *)
Fixpoint parse_value (h : hook) (n : nat) (s : string) {struct n} : result (json * string) :=
  match n, s with
  | O, _ => raise_ "RecursionError" "maximum recursion depth exceeded"
  | S n, EmptyString => decode_error
  | S n, String c s' =>
      if (ord c =? 34)%Z then
        match scan_string s' with Some (t, r) => Ok (JStr t, r) | None => decode_error end
      else if (ord c =? 91)%Z then
        match strip_prefix "]" (skip_ws s') with
        | Some r => Ok (JArr [], r)
        | None => '(vs, r) ← parse_elems h n (skip_ws s'); Ok (JArr vs, r)
        end
      else if (ord c =? 123)%Z then
        match strip_prefix "}" (skip_ws s') with
        | Some r => j ← h []; Ok (j, r)
        | None => '(kvs, r) ← parse_members h n (skip_ws s'); j ← h kvs; Ok (j, r)
        end
      else parse_scalar s
  end
with parse_elems (h : hook) (n : nat) (s : string) {struct n} : result (list json * string) :=
  match n with
  | O => raise_ "RecursionError" "maximum recursion depth exceeded"
  | S n =>
      '(v, r) ← parse_value h n s;
      match skip_ws r with
      | String c r' =>
          if (ord c =? 93)%Z then Ok ([v], r')
          else if (ord c =? 44)%Z then
            '(vs, r'') ← parse_elems h n (skip_ws r'); Ok (v :: vs, r'')
          else decode_error
      | EmptyString => decode_error
      end
  end
with parse_members (h : hook) (n : nat) (s : string) {struct n} :
    result (list (string * json) * string) :=
  match n with
  | O => raise_ "RecursionError" "maximum recursion depth exceeded"
  | S n =>
      match s with
      | String q s0 =>
          if negb (ord q =? 34)%Z then decode_error
          else match scan_string s0 with
               | None => decode_error
               | Some (k, r0) =>
                   match strip_prefix ":" (skip_ws r0) with
                   | None => decode_error
                   | Some r1 =>
                       '(v, r) ← parse_value h n (skip_ws r1);
                       match skip_ws r with
                       | String c r' =>
                           if (ord c =? 125)%Z then Ok ([(k, v)], r')
                           else if (ord c =? 44)%Z then
                             '(kvs, r'') ← parse_members h n (skip_ws r'); Ok ((k, v) :: kvs, r'')
                           else decode_error
                       | EmptyString => decode_error
                       end
                   end
               end
      | EmptyString => decode_error
      end
  end.

Definition loads (h : hook) (s : string) : result json :=
  '(j, r) ← parse_value h (S (2 * String.length s)) (skip_ws s);
  if bool_decide (skip_ws r = "") then Ok j else decode_error.

Example loads_ex : loads dict_of_pairs (dumps (JObj [("b", JArr [JInt (-12); JFloat (flit 1 10); JNull]);
    ("a", JObj [("x", JStr (String (chr 233) (String (chr 10) "y"))); ("t", JBool true)])]))
  = Ok (JObj [("a", JObj [("t", JBool true); ("x", JStr (String (chr 233) (String (chr 10) "y")))]);
              ("b", JArr [JInt (-12); JFloat (flit 1 10); JNull])]).
Proof. vm_compute. reflexivity. Qed.

(** ** What parsing raises *)
Section parse_raises.
Context (h : hook) (Q : exn → Prop).
Hypothesis Q_recursion : ∀ msg, Q (mk_exn "RecursionError" msg).
Hypothesis Q_decode : ∀ msg, Q (mk_exn "JSONDecodeError" msg).
Hypothesis Q_hook : ∀ kv e, h kv = Raise e → Q e.

Ltac raises :=
  repeat match goal with
  | H : Raise _ = Raise _ |- _ => injection H as <-
  | H : raise_ _ _ = Raise _ |- _ => injection H as <-
  | H : decode_error = Raise _ |- _ => injection H as <-
  | H : Ok _ = Raise _ |- _ => discriminate H
  | H : _ ≫= _ = Raise _ |- _ => apply result_bind_Raise in H as [H|(? & ? & H)]
  | H : (let '(_, _) := ?x in _) = Raise _ |- _ => destruct x
  | H : context [match ?x with _ => _ end] |- _ => destruct x
  end; eauto.

Lemma parse_raises n :
  (∀ s e, parse_value h n s = Raise e → Q e) ∧ (∀ s e, parse_elems h n s = Raise e → Q e)
  ∧ (∀ s e, parse_members h n s = Raise e → Q e).
Proof using Q_recursion Q_decode Q_hook.
  induction n as [|n (IHv & IHe & IHm)]; [by split_and!; intros s e [= <-]|].
  split_and!; intros s e He; cbn [parse_value parse_elems parse_members] in He;
    unfold parse_scalar in He; raises.
Qed.

Lemma loads_raises s e : loads h s = Raise e → Q e.
Proof using Q_recursion Q_decode Q_hook.
  unfold loads. intros He. apply result_bind_Raise in He as [He|([j r] & _ & He)].
  - by apply (proj1 (parse_raises _)) in He.
  - case_bool_decide; [done|]. injection He as <-. apply Q_decode.
Qed.
End parse_raises.

(** ** Round trip *)
Lemma scan_esc c t :
  scan_string (esc c +:+ t) = '(t', r) ← scan_string t; Some (String c t', r).
Proof. destruct c as [[] [] [] [] [] [] [] []]; reflexivity. Qed.

Lemma scan_escape s r : scan_string (escape s +:+ String quote r) = Some (s, r).
Proof.
  induction s as [|c s IH]; [done|]. simpl. rewrite str_app_assoc, scan_esc, IH. done.
Qed.

Lemma esc_ascii c : str_forallb is_ascii (esc c) = true.
Proof. destruct c as [[] [] [] [] [] [] [] []]; reflexivity. Qed.

Definition float_ok (f : float) : bool :=
  negb (is_finite f)
  || (str_forallb is_numchar (float_repr f)
      && bool_decide (parse_number (float_repr f) = Some (JFloat f))).

Fixpoint json_ok (j : json) : bool :=
  match j with
  | JFloat f => float_ok f
  | JArr l => forallb json_ok l
  | JObj kv => bool_decide (NoDup kv.*1) && forallb (λ '(_, x), json_ok x) kv
  | _ => true
  end.

(** Characters that cannot continue a number. *)
Definition stops (r : string) : Prop := starts_with_p is_numchar r = false.

Definition head_ok (c : Ascii.ascii) : bool :=
  let n := ord c in
  is_numchar c || (n =? 34)%Z || (n =? 91)%Z || (n =? 123)%Z
  || (n =? 110)%Z || (n =? 116)%Z || (n =? 102)%Z || (n =? 78)%Z || (n =? 73)%Z.

Lemma string_of_uint_head0 n : starts_with_p (λ c, (ord c =? 48)%Z) (dec_N n) = true → n = 0%N.
Proof.
  unfold dec_N. pose proof (DecimalN.Unsigned.of_to n) as Hn.
  pose proof (DecimalN.Unsigned.to_of (N.to_uint n)) as Hu. rewrite Hn in Hu.
  destruct (N.to_uint n) as [|d|d|d|d|d|d|d|d|d|d]; simpl; try done. intros _.
  unfold Decimal.unorm in Hu. pose proof (DecimalFacts.nzhead_nonzero (Decimal.D0 d)) as Hz.
  destruct (Decimal.nzhead (Decimal.D0 d)) eqn:E; try congruence.
  injection Hu as ->. by subst.
Qed.

Lemma parse_number_dec neg n :
  parse_number (if neg : bool then String "-"%char (dec_N n) else dec_N n)
  = Some (JInt (if neg then - Z.of_N n else Z.of_N n)).
Proof.
  assert (Hspan : span is_digit (dec_N n) = (dec_N n, "")).
  { rewrite <- (str_app_nil_r (dec_N n)) at 1. by rewrite span_app by (done || apply dec_N_digits). }
  assert (Hz : starts_with_p (λ c, (ord c =? 48)%Z) (dec_N n)
               && negb (bool_decide (dec_N n = "0")) = false).
  { destruct (starts_with_p _ _) eqn:E; [|done].
    apply string_of_uint_head0 in E as ->. reflexivity. }
  assert (Hd : starts_with_p (λ c, (ord c =? 45)%Z) (dec_N n) = false).
  { pose proof (dec_N_digits n) as Hdig. destruct (dec_N n) as [|c t]; [done|]. simpl in *.
    apply andb_true_iff in Hdig as [Hc _]. unfold is_digit in Hc.
    destruct (Z.eqb_spec (ord c) 45) as [E|]; [by rewrite E in Hc|done]. }
  destruct neg; unfold parse_number.
  - simpl. rewrite Hspan, parse_dec_N. cbn -[parse_dec dec_N]. by rewrite Hz.
  - assert ((match dec_N n with
             | EmptyString => (false, dec_N n)
             | String c t => if (ord c =? 45)%Z then (true, t) else (false, dec_N n)
             end) = (false, dec_N n)) as ->.
    { destruct (dec_N n); [done|]. simpl in Hd. by rewrite Hd. }
    rewrite Hspan, parse_dec_N. cbn -[parse_dec dec_N]. by rewrite Hz.
Qed.

Lemma is_digit_numchar c : is_digit c = true → is_numchar c = true.
Proof. unfold is_numchar. by intros ->. Qed.

Lemma dec_Z_numchar z : str_forallb is_numchar (dec_Z z) = true.
Proof.
  assert (∀ n, str_forallb is_numchar (dec_N n) = true).
  { intros. eapply str_forallb_impl, dec_N_digits. apply is_digit_numchar. }
  by destruct z; simpl.
Qed.

Lemma parse_number_dec_Z z : parse_number (dec_Z z) = Some (JInt z).
Proof.
  destruct z as [|p|p]; unfold dec_Z.
  - apply (parse_number_dec false).
  - rewrite (parse_number_dec false). simpl. done.
  - rewrite (parse_number_dec true). simpl. done.
Qed.

Lemma match_literal_number s r j :
  str_forallb is_numchar s = true → parse_number s = Some j →
  match_literal literals (s +:+ r) = None.
Proof.
  intros Hs Hp. destruct s as [|c s]; [done|]. simpl in Hs.
  apply andb_true_iff in Hs as [Hc Hs].
  destruct (Ascii.eqb_spec c "-"%char) as [->|Hne].
  - destruct s as [|d s]; [done|]. simpl in Hs. apply andb_true_iff in Hs as [Hd _].
    clear Hp. destruct d as [[] [] [] [] [] [] [] []]; try discriminate Hd; reflexivity.
  - clear Hp. destruct c as [[] [] [] [] [] [] [] []]; try discriminate Hc; try reflexivity.
    by destruct Hne.
Qed.

Lemma parse_scalar_number s r j :
  str_forallb is_numchar s = true → parse_number s = Some j → stops r →
  parse_scalar (s +:+ r) = Ok (j, r).
Proof.
  intros Hs Hp Hr. unfold parse_scalar.
  rewrite (match_literal_number _ _ j), span_app by done. by rewrite Hp.
Qed.

Lemma parse_value_number h n s r j :
  str_forallb is_numchar s = true → parse_number s = Some j → stops r →
  parse_value h (S n) (s +:+ r) = Ok (j, r).
Proof.
  intros Hs Hp Hr. rewrite <- (parse_scalar_number s r j) by done.
  destruct s as [|c s]; [done|]. simpl in Hs. apply andb_true_iff in Hs as [Hc _].
  clear Hp. simpl.
  destruct c as [[] [] [] [] [] [] [] []]; try discriminate Hc; reflexivity.
Qed.

Fixpoint print_elems (l : list json) : string :=
  match l with
  | [] => ""
  | [x] => print x
  | x :: l => print x +:+ "," +:+ print_elems l
  end.
Fixpoint print_members (l : list (string * json)) : string :=
  match l with
  | [] => ""
  | [(k, x)] => print_str k +:+ ":" +:+ print x
  | (k, x) :: l => print_str k +:+ ":" +:+ print x +:+ "," +:+ print_members l
  end.

Lemma print_arr l : print (JArr l) = "[" +:+ print_elems l +:+ "]".
Proof. reflexivity. Qed.
Lemma print_obj kv : print (JObj kv) = "{" +:+ print_members kv +:+ "}".
Proof. reflexivity. Qed.

Definition starts_value (s : string) : Prop := starts_with_p head_ok s = true.

Lemma starts_value_app s r : starts_value s → starts_value (s +:+ r).
Proof. by destruct s. Qed.

Lemma numchar_head s j :
  str_forallb is_numchar s = true → parse_number s = Some j → starts_value s.
Proof.
  destruct s as [|c s]; [done|]. unfold starts_value, head_ok. simpl.
  by intros [-> _]%andb_true_iff.
Qed.

Lemma float_repr_head f : float_ok f = true → starts_value (float_repr f).
Proof.
  unfold float_ok. destruct (is_finite f) eqn:E; simpl.
  - rewrite andb_true_iff, bool_decide_eq_true. intros []. by eapply numchar_head.
  - destruct f as [|[]| |]; done.
Qed.

Lemma print_head j : json_ok j = true → starts_value (print j).
Proof.
  destruct j as [|[]|z|f|s|l|kv]; simpl; intros H; try reflexivity.
  - eapply numchar_head; [apply dec_Z_numchar|apply parse_number_dec_Z].
  - by apply float_repr_head.
Qed.

Lemma skip_ws_value s : starts_value s → skip_ws s = s.
Proof.
  destruct s as [|c s]; [done|]. unfold starts_value, skip_ws. simpl. intros H.
  assert (is_ws c = false) as ->; [|done].
  destruct c as [[] [] [] [] [] [] [] []]; try discriminate H; reflexivity.
Qed.

Lemma skip_ws_comma t : skip_ws (String ","%char t) = String ","%char t.
Proof. reflexivity. Qed.

Lemma strip_colon t : strip_prefix ":" (skip_ws (String ":"%char t)) = Some t.
Proof. reflexivity. Qed.

Lemma strip_close_value s (c : string) :
  c ∈ ["]"; "}"] → starts_value s → strip_prefix c s = None.
Proof.
  rewrite !elem_of_cons, elem_of_nil. intros Hc. destruct s as [|d s]; [done|].
  unfold starts_value. simpl. intros H.
  destruct Hc as [->|[->|[]]]; destruct d as [[] [] [] [] [] [] [] []];
    try discriminate H; reflexivity.
Qed.

Lemma stops_comma r : stops ("," +:+ r). Proof. reflexivity. Qed.
Lemma stops_bracket r : stops ("]" +:+ r). Proof. reflexivity. Qed.
Lemma stops_brace r : stops ("}" +:+ r). Proof. reflexivity. Qed.
#[local] Hint Resolve stops_comma stops_bracket stops_brace : core.

Definition good_hook (h : hook) : Prop := ∀ kv, NoDup kv.*1 → h kv = Ok (JObj kv).

Section round_trip.
Context (h : hook) (Hh : good_hook h).

(** [parse_value] reads back [print j] given fuel for its length. *)
Definition reads (j : json) : Prop := ∀ n r,
  2 * String.length (print j) < n → stops r → parse_value h n (print j +:+ r) = Ok (j, r).

Lemma reads_float f : float_ok f = true → reads (JFloat f).
Proof using Type.
  intros H [|n] r Hn Hr; [lia|]. unfold float_ok in H.
  destruct (is_finite f) eqn:E; simpl in H.
  - apply andb_true_iff in H as [H1 H2%bool_decide_eq_true]. simpl print.
    by apply parse_value_number.
  - by destruct f as [|[]| |].
Qed.

Lemma parse_elems_print x l :
  Forall reads (x :: l) → forallb json_ok (x :: l) = true → ∀ n r,
  2 * String.length (print_elems (x :: l)) + 1 < n →
  parse_elems h n (print_elems (x :: l) +:+ "]" +:+ r) = Ok (x :: l, r).
Proof using Type.
  revert x. induction l as [|y l IH]; intros x HF Hok [|n] r Hn; try lia;
    apply Forall_cons in HF as [Hx HF].
  - cbn [print_elems] in *. cbn [parse_elems]. rewrite Hx by (reflexivity || lia). reflexivity.
  - change (print_elems (x :: y :: l)) with (print x +:+ "," +:+ print_elems (y :: l)) in *.
    cbn [parse_elems]. autorewrite with pystr in Hn. rewrite !str_app_assoc.
    rewrite Hx by (reflexivity || lia). cbn [forallb] in Hok.
    apply andb_true_iff in Hok as [_ Hok].
    assert (Hst : starts_value (print_elems (y :: l))).
    { destruct l; cbn [print_elems]; try apply starts_value_app; apply print_head;
        apply andb_true_iff in Hok; tauto. }
    cbn [mbind result_bind]. change ("," +:+ ?t) with (String ","%char t).
    rewrite skip_ws_comma. cbn [ord].
    rewrite skip_ws_value by by apply starts_value_app.
    rewrite IH; [done|done|done|]. simpl in Hn |- *. lia.
Qed.

Lemma parse_members_step n k t :
  starts_value t →
  parse_members h (S n) (print_str k +:+ ":" +:+ t)
  = '(v, r) ← parse_value h n t;
    match skip_ws r with
    | String c r' =>
        if (ord c =? 125)%Z then Ok ([(k, v)], r')
        else if (ord c =? 44)%Z then
          '(kvs, r'') ← parse_members h n (skip_ws r'); Ok ((k, v) :: kvs, r'')
        else decode_error
    | EmptyString => decode_error
    end.
Proof using Type.
  intros Ht. unfold print_str. cbn [parse_members String.append]. rewrite str_app_assoc.
  change (negb (ord quote =? 34)%Z) with false. cbn [String.append].
  by rewrite scan_escape, strip_colon, skip_ws_value.
Qed.

Lemma print_members_cons k x p l :
  print_members ((k, x) :: p :: l)
  = print_str k +:+ ":" +:+ print x +:+ "," +:+ print_members (p :: l).
Proof using Type. reflexivity. Qed.

Lemma parse_members_print p l :
  Forall (λ p, reads p.2) (p :: l) → forallb (λ '(_, x), json_ok x) (p :: l) = true →
  ∀ n r, 2 * String.length (print_members (p :: l)) + 1 < n →
  parse_members h n (print_members (p :: l) +:+ "}" +:+ r) = Ok (p :: l, r).
Proof using Type.
  revert p. induction l as [|p' l IH]; intros [k x] HF Hok [|n] r Hn; try lia;
    apply Forall_cons in HF as [Hx HF]; cbn [forallb] in Hok;
    apply andb_true_iff in Hok as [Hokx Hok]; simpl in Hx;
    pose proof (print_head _ Hokx) as Hhd.
  - cbn [print_members] in *. rewrite !str_app_assoc.
    rewrite parse_members_step by by apply starts_value_app.
    autorewrite with pystr in Hn. rewrite Hx by (reflexivity || lia). reflexivity.
  - rewrite print_members_cons in *. rewrite !str_app_assoc.
    rewrite parse_members_step by by apply starts_value_app.
    autorewrite with pystr in Hn. rewrite Hx by (reflexivity || lia). cbn [mbind result_bind].
    change ("," +:+ ?t) with (String ","%char t). rewrite skip_ws_comma. cbn [ord].
    rewrite skip_ws_value by (apply starts_value_app; destruct p' as [k' ?], l; reflexivity).
    rewrite IH; [done|done|done|]. simpl in Hn |- *. lia.
Qed.

Lemma reads_print j : json_ok j = true → reads j.
Proof using Hh.
  induction j as [|b|z|f|s|l IH|kv IH] using json_nested_ind; intros Hok.
  1,2: intros [|n] r Hn Hr; [lia|]; try destruct b; reflexivity.
  - intros [|n] r Hn Hr; [lia|].
    change (print (JInt z)) with (dec_Z z).
    apply parse_value_number; auto using dec_Z_numchar, parse_number_dec_Z.
  - by apply reads_float.
  - intros [|n] r Hn Hr; [lia|]. simpl print. unfold print_str.
    cbn [String.append]. rewrite str_app_assoc. cbn [String.append].
    cbn -[scan_string]. by rewrite scan_escape.
  - intros [|n] r Hn Hr; [lia|]. rewrite print_arr in *. simpl in Hok.
    destruct l as [|x l]; [reflexivity|].
    assert (Hl : Forall reads (x :: l)).
    { apply Forall_forall. intros y Hy. eapply Forall_forall in IH; [|done].
      apply IH. eapply forallb_forall in Hok; [done|]. by apply list_elem_of_In. }
    assert (Hst : starts_value (print_elems (x :: l) +:+ "]" +:+ r)).
    { apply starts_value_app. simpl in Hok. apply andb_true_iff in Hok as [Hx _].
      destruct l; cbn [print_elems]; try apply starts_value_app; by apply print_head. }
    rewrite !str_app_assoc. cbn -[strip_prefix skip_ws print_elems parse_elems].
    rewrite skip_ws_value, strip_close_value by (done || set_solver).
    autorewrite with pystr in Hn. cbn [String.length] in Hn.
    change (String "]"%char r) with ("]" +:+ r).
    by rewrite parse_elems_print by (done || lia).
  - intros [|n] r Hn Hr; [lia|]. rewrite print_obj in *. simpl in Hok.
    apply andb_true_iff in Hok as [Hnd%bool_decide_eq_true Hok].
    destruct kv as [|p l]; [simpl; by rewrite Hh by constructor|].
    assert (Hl : Forall (λ p, reads p.2) (p :: l)).
    { apply Forall_forall. intros y Hy. eapply Forall_forall in IH; [|done].
      apply IH. eapply forallb_forall in Hok; [|by apply list_elem_of_In]. by destruct y. }
    assert (Hst : starts_value (print_members (p :: l) +:+ "}" +:+ r)).
    { apply starts_value_app. destruct p, l; reflexivity. }
    rewrite !str_app_assoc. cbn -[strip_prefix skip_ws print_members parse_members].
    rewrite skip_ws_value, (strip_close_value _ "}") by (done || set_solver).
    autorewrite with pystr in Hn. cbn [String.length] in Hn.
    change (String "}"%char r) with ("}" +:+ r).
    rewrite parse_members_print by (done || lia). cbn [mbind result_bind].
    rewrite (Hh (p :: l) Hnd). reflexivity.
Qed.

(** White space may follow the value. *)
Lemma loads_print_ws j r : json_ok j = true → stops r → skip_ws r = "" → loads h (print j +:+ r) = Ok j.
Proof using Hh.
  intros Hok Hs Hr. unfold loads. rewrite skip_ws_value by by apply starts_value_app, print_head.
  rewrite (reads_print j Hok) by (done || (autorewrite with pystr; lia)).
  cbn [mbind result_bind]. by rewrite bool_decide_eq_true_2.
Qed.
Lemma loads_print j : json_ok j = true → loads h (print j) = Ok j.
Proof using Hh. intros Hok. rewrite <- (str_app_nil_r (print j)). by apply loads_print_ws. Qed.
End round_trip.

Lemma closed_object_good cls msg : good_hook (closed_object cls msg).
Proof.
  intros kv Hnd. unfold closed_object.
  assert (∀ kv acc, NoDup (acc ++ kv).*1 →
    (fix go (kv acc : list (string * json)) : result json :=
       match kv with
       | [] => Ok (JObj acc)
       | (k, v) :: kv =>
           match dict_get k acc with
           | Some _ => raise_ cls msg
           | None => go kv (acc ++ [(k, v)])
           end
       end) kv acc = Ok (JObj (acc ++ kv))) as H; [|by apply (H kv [])].
  clear. induction kv as [|[k v] kv IH]; intros acc Hnd; [by rewrite app_nil_r|].
  assert (dict_get k acc = None) as ->.
  { clear IH. induction acc as [|[k' v'] acc IHa]; [done|]. simpl in *.
    apply NoDup_cons in Hnd as [Hni Hnd]. rewrite bool_decide_eq_false_2; [by apply IHa|].
    intros ->. apply Hni. rewrite fmap_app. set_solver. }
  rewrite IH; rewrite <- app_assoc; done.
Qed.

Lemma dict_set_fresh {A} k (v : A) d : k ∉ d.*1 → dict_set k v d = d ++ [(k, v)].
Proof.
  induction d as [|[k' v'] d IH]; simpl; [done|]. rewrite not_elem_of_cons. intros [Hk Hd].
  rewrite bool_decide_eq_false_2 by done. by rewrite IH.
Qed.

(** Lookup in a dict: membership, insertion, reordering. *)
Lemma dict_get_Some {A} k (d : list (string * A)) v : dict_get k d = Some v → (k, v) ∈ d.
Proof.
  induction d as [|[k' v'] d IH]; simpl; [done|]. case_bool_decide as E.
  - intros [= ->]. subst. by left.
  - intros H. right. by apply IH.
Qed.
Lemma dict_get_None {A} k (d : list (string * A)) : dict_get k d = None ↔ k ∉ d.*1.
Proof.
  induction d as [|[k' v'] d IH]; simpl; [split; [intros _; apply not_elem_of_nil|done]|].
  rewrite not_elem_of_cons. case_bool_decide; naive_solver.
Qed.
Lemma dict_get_In {A} k (d : list (string * A)) v :
  NoDup d.*1 → (k, v) ∈ d → dict_get k d = Some v.
Proof.
  induction d as [|[k' v'] d IH]; simpl; [by intros _ ?%not_elem_of_nil|].
  intros [Hk Hnd]%NoDup_cons [E|Hin]%elem_of_cons.
  - injection E as <- <-. by rewrite bool_decide_eq_true_2.
  - rewrite bool_decide_eq_false_2; [by apply IH|]. intros ->. apply Hk.
    apply (list_elem_of_fmap_2 fst) in Hin. exact Hin.
Qed.
Lemma dict_get_perm {A} k (d d' : list (string * A)) :
  NoDup d.*1 → d ≡ₚ d' → dict_get k d = dict_get k d'.
Proof.
  intros Hnd Hp. assert (Hnd' : NoDup d'.*1) by by rewrite <- Hp.
  destruct (dict_get k d) as [v|] eqn:E.
  - symmetry. apply dict_get_In; [done|]. rewrite <- Hp. by apply dict_get_Some.
  - symmetry. apply dict_get_None. rewrite <- Hp. by apply dict_get_None.
Qed.
Lemma dict_get_app {A} k (d d' : list (string * A)) :
  dict_get k (d ++ d') = match dict_get k d with Some v => Some v | None => dict_get k d' end.
Proof. induction d as [|[k' v'] d IH]; simpl; [done|]. by case_bool_decide. Qed.
(** Sorting the keys does not change what a key names. *)
Lemma dict_get_canon k kv :
  NoDup kv.*1 →
  dict_get k (merge_sort key_le (map (λ '(k, x), (k, canon x)) kv)) = canon <$> dict_get k kv.
Proof.
  intros Hnd. assert (Hfst : (map (λ '(k, x), (k, canon x)) kv).*1 = kv.*1).
  { clear. induction kv as [|[? ?] kv IH]; [done|]; cbn; by f_equal. }
  erewrite <- (dict_get_perm _ (map (λ '(k, x), (k, canon x)) kv)).
  - clear. induction kv as [|[k' v'] kv IH]; simpl; [done|]. by case_bool_decide.
  - by rewrite Hfst.
  - symmetry. apply merge_sort_Permutation.
Qed.

Lemma dict_of_pairs_good : good_hook dict_of_pairs.
Proof.
  intros kv Hnd. unfold dict_of_pairs. do 2 f_equal.
  assert (∀ acc, NoDup (acc ++ kv).*1 → fold_left (λ d p, dict_set p.1 p.2 d) kv acc = acc ++ kv)
    as H; [|by apply (H [])].
  clear Hnd. induction kv as [|[k v] kv IH]; intros acc Hnd; simpl; [by rewrite app_nil_r|].
  rewrite dict_set_fresh, IH; rewrite <- ?app_assoc; [done|done|].
  rewrite fmap_app, NoDup_app in Hnd. destruct Hnd as (_ & Hd & _).
  intros Hk. apply (Hd k Hk). simpl. set_solver.
Qed.

(** ** Canonical form *)
Lemma canon_obj_perm kv :
  Permutation (merge_sort key_le (map (λ '(k, x), (k, canon x)) kv)) (map (λ '(k, x), (k, canon x)) kv).
Proof. apply merge_sort_Permutation. Qed.

Lemma json_ok_canon j : json_ok j = true → json_ok (canon j) = true.
Proof.
  induction j as [| | | | |l IH|kv IH] using json_nested_ind; try done.
  - simpl. rewrite !forallb_forall. intros H x [y [<- Hy]]%in_map_iff.
    rewrite Forall_forall in IH. apply IH; [by apply list_elem_of_In|auto].
  - cbn [json_ok canon]. rewrite !andb_true_iff, !bool_decide_eq_true. intros [Hnd H]. split.
    + rewrite canon_obj_perm. by rewrite <- list_fmap_compose, (list_fmap_ext _ fst)
        by (by intros ? [] ?).
    + rewrite forallb_forall in H |- *. intros x Hx.
      apply list_elem_of_In in Hx. rewrite canon_obj_perm in Hx.
      apply list_elem_of_In, in_map_iff in Hx as [[k y] [<- Hy]].
      rewrite Forall_forall in IH. apply (IH (k, y)); [by apply list_elem_of_In|].
      by apply (H (k, y)).
Qed.

(** Parsing what [dumps] printed gives the value with its keys in order. *)
Lemma loads_dumps h j : good_hook h → json_ok j = true → loads h (dumps j) = Ok (canon j).
Proof. intros. apply loads_print, json_ok_canon; done. Qed.

Lemma loads_dumps_ws h j r :
  good_hook h → json_ok j = true → stops r → skip_ws r = "" → loads h (dumps j +:+ r) = Ok (canon j).
Proof. intros Hh Hj. by apply loads_print_ws, json_ok_canon. Qed.

Lemma dumps_inj i j :
  json_ok i = true → json_ok j = true → dumps i = dumps j → canon i = canon j.
Proof.
  intros Hi Hj E. apply (f_equal (loads dict_of_pairs)) in E.
  rewrite !loads_dumps in E by auto using dict_of_pairs_good. by injection E.
Qed.

(** Keys in order stay in order: [canon] is idempotent on dicts. *)
#[export] Instance key_le_trans : Transitive key_le.
Proof. intros a b c. apply str_le_trans. Qed.
#[export] Instance key_le_total : Total key_le.
Proof. intros a b. apply str_le_total. Qed.
Lemma canon_idem j : json_ok j = true → canon (canon j) = canon j.
Proof.
  induction j as [| | | | |l IH|kv IH] using json_nested_ind; try done; intros Hok.
  - simpl. f_equal. simpl in Hok. rewrite forallb_forall in Hok. rewrite map_map. apply map_ext_in.
    intros x Hx. rewrite Forall_forall in IH. apply IH; [by apply list_elem_of_In|by apply Hok].
  - cbn [json_ok] in Hok. apply andb_true_iff in Hok as [Hnd Hok]. apply bool_decide_eq_true in Hnd.
    cbn [canon]. f_equal. set (l := map (λ '(k, x), (k, canon x)) kv).
    assert (Hl : l.*1 = kv.*1) by (subst l; clear; induction kv as [|[? ?] kv IH]; [done|]; cbn; by f_equal).
    assert (Hmap : map (λ '(k, x), (k, canon x)) (merge_sort key_le l) = merge_sort key_le l).
    { rewrite <- (map_id (merge_sort key_le l)) at 2. apply map_ext_in. intros [k x] Hx.
      apply list_elem_of_In in Hx. rewrite merge_sort_Permutation in Hx.
      apply list_elem_of_In, in_map_iff in Hx as ([k' y] & [= <- <-] & Hy).
      rewrite Forall_forall in IH. rewrite forallb_forall in Hok.
      f_equal. apply (IH (k', y)); [by apply list_elem_of_In|by apply (Hok (k', y))]. }
    rewrite Hmap. apply (Sorted_unique_strong key_le).
    + intros [k v] [k' v'] Hx Hy H1 H2. pose proof (anti_symm str_le _ _ H1 H2) as E. simpl in E. subst k'.
      rewrite !merge_sort_Permutation in Hx. rewrite merge_sort_Permutation in Hy.
      assert (NoDup l.*1) as Hndl by by rewrite Hl.
      apply (dict_get_In _ _ _ Hndl) in Hx, Hy. congruence.
    + apply Sorted_merge_sort, _.
    + apply Sorted_merge_sort, _.
    + apply merge_sort_Permutation.
Qed.
Lemma has_nan_canon j : has_nan (canon j) = has_nan j.
Proof.
  induction j as [| | | | |l IH|kv IH] using json_nested_ind; try done.
  - cbn [canon has_nan]. induction IH as [|x l Hx _ IHl]; [done|]. simpl. by rewrite Hx, IHl.
  - cbn [canon has_nan].
    assert (Hperm : ∀ d d' : list (string * json), d ≡ₚ d' →
      existsb (λ '(_, x), has_nan x) d = existsb (λ '(_, x), has_nan x) d').
    { induction 1 as [|[? ?] ? ? _ IHp|[? ?] [? ?] ?|]; simpl; [done|by rewrite IHp| |congruence].
      by rewrite !orb_assoc, (orb_comm (has_nan _)). }
    rewrite (Hperm _ _ (merge_sort_Permutation _ _)).
    induction IH as [|[k x] l Hx _ IHl]; [done|]. simpl in *. by rewrite Hx, IHl.
Qed.
(** A value and its canonical form print the same. *)
Lemma dumps_strict_canon j : json_ok j = true → dumps_strict (canon j) = dumps_strict j.
Proof. intros. unfold dumps_strict, dumps. by rewrite has_nan_canon, canon_idem. Qed.

(** [ensure_ascii]: the printed form is ASCII. *)
Lemma escape_ascii s : str_forallb is_ascii (escape s) = true.
Proof. induction s as [|c s IH]; simpl; [done|]. by rewrite str_forallb_app, esc_ascii, IH. Qed.

Lemma numchar_ascii c : is_numchar c = true → is_ascii c = true.
Proof. destruct c as [[] [] [] [] [] [] [] []]; intros H; try discriminate H; reflexivity. Qed.

Lemma print_str_ascii s : str_forallb is_ascii (print_str s) = true.
Proof. unfold print_str. simpl. by rewrite str_forallb_app, escape_ascii. Qed.

Lemma print_ascii j : json_ok j = true → str_forallb is_ascii (print j) = true.
Proof.
  induction j as [|[]|z|f|s|l IH|kv IH] using json_nested_ind; intros Hok; try reflexivity.
  - eapply str_forallb_impl, dec_Z_numchar. apply numchar_ascii.
  - simpl in *. unfold float_ok in Hok. destruct (is_finite f) eqn:E; simpl in Hok.
    + apply andb_true_iff in Hok as [Hok _]. eapply str_forallb_impl, Hok. apply numchar_ascii.
    + by destruct f as [|[]| |].
  - apply print_str_ascii.
  - rewrite print_arr, !str_forallb_app. simpl in *. rewrite andb_true_r.
    induction IH as [|x [|y l] Hx _ IHl]; simpl in Hok; [done| |];
      apply andb_true_iff in Hok as [Hok1 Hok2]; [by apply Hx|].
    change (print_elems (x :: y :: l)) with (print x +:+ "," +:+ print_elems (y :: l)).
    rewrite !str_forallb_app, Hx, IHl; done.
  - rewrite print_obj, !str_forallb_app. simpl in *. rewrite andb_true_r.
    apply andb_true_iff in Hok as [_ Hok].
    induction IH as [|[k x] [|p l] Hx _ IHl]; simpl in Hok; [done| |];
      apply andb_true_iff in Hok as [Hok1 Hok2]; simpl in Hx.
    + cbn [print_members]. rewrite !str_forallb_app, print_str_ascii. by rewrite Hx.
    + rewrite print_members_cons, !str_forallb_app, print_str_ascii, Hx, IHl; done.
Qed.
