(* ===== verification/Sha256.v ===== *)
(** * SHA-256

    [hashlib.sha256(m).hexdigest()] as an executable function on octet strings.
    Words are the kernel's 63-bit integers masked to 32 bits, so that digests also
    evaluate in the independent checker; a block is sixteen words, the message
    schedule is a sliding window.  The test vectors at the end are FIPS 180-4's. *)
From S2P Require Import Prelude PyStr PyJson.
From Stdlib Require Import PrimInt63.

(** ** 32-bit words *)
Definition mask32 : int := 0xffffffff%uint63.
Definition w32 (a : int) : int := land a mask32.
Definition add32 (a b : int) : int := w32 (add a b).
Definition not32 (a : int) : int := lxor a mask32.
Definition rotr (n a : int) : int := lor (lsr a n) (w32 (lsl a (sub 32%uint63 n))).

Definition ch_ (x y z : int) : int := lxor (land x y) (land (not32 x) z).
Definition maj (x y z : int) : int := lxor (lxor (land x y) (land x z)) (land y z).
Definition bsig0 (x : int) : int := lxor (lxor (rotr 2 x) (rotr 13 x)) (rotr 22 x).
Definition bsig1 (x : int) : int := lxor (lxor (rotr 6 x) (rotr 11 x)) (rotr 25 x).
Definition ssig0 (x : int) : int := lxor (lxor (rotr 7 x) (rotr 18 x)) (lsr x 3%uint63).
Definition ssig1 (x : int) : int := lxor (lxor (rotr 17 x) (rotr 19 x)) (lsr x 10%uint63).

(** ** The constants, from their definition in FIPS 180-4 *)
Fixpoint int_of_pos (p : positive) : int :=
  match p with
  | xH => 1%uint63
  | xO p => lsl (int_of_pos p) 1
  | xI p => add (lsl (int_of_pos p) 1) 1
  end.
Definition int_of_Z (z : Z) : int := match z with Zpos p => int_of_pos p | _ => 0%uint63 end.

Definition prime (n : Z) : bool :=
  forallb (λ d, negb (n mod d =? 0)%Z) (seqZ 2 (n - 2)).
Definition first_primes (n : nat) : list Z := firstn n (List.filter prime (seqZ 2 400)).

(** The integer cube root by its binary digits, from bit [k - 1] down. *)
Fixpoint cube_root (k : nat) (n root : Z) : Z :=
  match k with
  | O => root
  | S k =>
      let r := (root + 2 ^ Z.of_nat k)%Z in
      cube_root k n (if (r * r * r <=? n)%Z then r else root)
  end.

(** The first 32 bits of the fractional parts of the cube roots of the first 64
    primes, and of the square roots of the first 8. *)
Definition round_constants : list int :=
  Eval vm_compute in
  map (λ p, int_of_Z (cube_root 36 (p * 2 ^ 96) 0 mod 2 ^ 32)%Z) (first_primes 64).
Definition initial_words : list int :=
  Eval vm_compute in
  map (λ p, int_of_Z (Z.sqrt (p * 2 ^ 64) mod 2 ^ 32)%Z) (first_primes 8).

Definition word_at (l : list int) (i : nat) : int := nth i l 0%uint63.

(** ** The compression function *)
(** The sixteen latest words, oldest first, give the next one. *)
Fixpoint schedule (n : nat) (w : list int) : list int :=
  match n with
  | O => []
  | S n =>
      let new := add32 (add32 (ssig1 (word_at w 14)) (word_at w 9))
                       (add32 (ssig0 (word_at w 1)) (word_at w 0)) in
      word_at w 0 :: schedule n (tail w ++ [new])
  end.

Record sha_state := mk_sha { sa : int; sb : int; sc : int; sd : int; se : int; sf : int; sg : int; sh : int }.

Definition sha_init : sha_state :=
  let w := word_at initial_words in mk_sha (w 0) (w 1) (w 2) (w 3) (w 4) (w 5) (w 6) (w 7).

Definition sha_round (s : sha_state) (kw : int * int) : sha_state :=
  let t1 := add32 (add32 (sh s) (bsig1 (se s)))
                  (add32 (ch_ (se s) (sf s) (sg s)) (add32 kw.1 kw.2)) in
  let t2 := add32 (bsig0 (sa s)) (maj (sa s) (sb s) (sc s)) in
  mk_sha (add32 t1 t2) (sa s) (sb s) (sc s) (add32 (sd s) t1) (se s) (sf s) (sg s).

Definition sha_block (s : sha_state) (block : list int) : sha_state :=
  let r := fold_left sha_round (combine round_constants (schedule 64 block)) s in
  mk_sha (add32 (sa s) (sa r)) (add32 (sb s) (sb r)) (add32 (sc s) (sc r)) (add32 (sd s) (sd r))
         (add32 (se s) (se r)) (add32 (sf s) (sf r)) (add32 (sg s) (sg r)) (add32 (sh s) (sh r)).

(** ** Octets, padding and blocks *)
Definition bit (b : bool) (i : int) : int := if b then i else 0%uint63.
Definition octet (c : Ascii.ascii) : int :=
  let '(Ascii.Ascii a b c d e f g h) := c in
  add (add (add (bit a 1) (bit b 2)) (add (bit c 4) (bit d 8)))
      (add (add (bit e 16) (bit f 32)) (add (bit g 64) (bit h 128))).

Fixpoint octets (s : string) : list int :=
  match s with EmptyString => [] | String c s => octet c :: octets s end.

(** The [n] low octets of a word, most significant first. *)
Fixpoint be_bytes (n : nat) (shift a : int) : list int :=
  match n with
  | O => []
  | S n => land (lsr a shift) 0xff :: be_bytes n (sub shift 8) a
  end.

Definition int_of_nat (n : nat) : int := Nat.iter n (add 1) 0%uint63.

(** A one bit, zeros to eight octets short of a whole block, the length in bits. *)
Definition sha_pad (m : list int) : list int :=
  let len := length m in
  m ++ [128%uint63] ++ repeat 0%uint63 ((119 - len mod 64) mod 64)%nat
  ++ be_bytes 8 56 (lsl (int_of_nat len) 3).

Fixpoint words_of (l : list int) : list int :=
  match l with
  | a :: b :: c :: d :: l => lor (lor (lsl a 24) (lsl b 16)) (lor (lsl c 8) d) :: words_of l
  | _ => []
  end.

Fixpoint sha_blocks (fuel : nat) (s : sha_state) (w : list int) : sha_state :=
  match fuel, w with
  | O, _ | _, [] => s
  | S fuel, _ => sha_blocks fuel (sha_block s (firstn 16 w)) (skipn 16 w)
  end.

(** ** Lower-case hexadecimal *)
Definition nibble (a : int) : Ascii.ascii :=
  let bits := (eqb (land a 8) 8, eqb (land a 4) 4, eqb (land a 2) 2, eqb (land a 1) 1) in
  match bits with
  | (false, false, false, false) => "0" | (false, false, false, true) => "1"
  | (false, false, true, false) => "2" | (false, false, true, true) => "3"
  | (false, true, false, false) => "4" | (false, true, false, true) => "5"
  | (false, true, true, false) => "6" | (false, true, true, true) => "7"
  | (true, false, false, false) => "8" | (true, false, false, true) => "9"
  | (true, false, true, false) => "a" | (true, false, true, true) => "b"
  | (true, true, false, false) => "c" | (true, true, false, true) => "d"
  | (true, true, true, false) => "e" | (true, true, true, true) => "f"
  end%char.

Definition hex_of_bytes (l : list int) : string :=
  fold_right (λ b s, String (nibble (lsr b 4)) (String (nibble b) s)) "" l.

Definition sha256_hex (m : string) : string :=
  let w := words_of (sha_pad (octets m)) in
  let s := sha_blocks (length w) sha_init w in
  hex_of_bytes (flat_map (be_bytes 4 24) [sa s; sb s; sc s; sd s; se s; sf s; sg s; sh s]).

#[global] Arguments sha256_hex : simpl never.

(** ** Shape of a digest *)
(** The pattern [^[0-9a-f]{64}$] of the source's digest fields. *)
Definition is_sha256 (s : string) : bool := (str_len s =? 64)%Z && str_forallb is_hex_lower s.

Lemma nibble_lower a : is_hex_lower (nibble a) = true.
Proof. unfold nibble. by destruct (eqb _ 8), (eqb _ 4), (eqb _ 2), (eqb _ 1). Qed.

Lemma hex_of_bytes_shape l :
  str_forallb is_hex_lower (hex_of_bytes l) = true
  ∧ String.length (hex_of_bytes l) = (2 * length l)%nat.
Proof.
  induction l as [|b l [IH1 IH2]]; [done|]. cbn [hex_of_bytes fold_right str_forallb String.length].
  rewrite !nibble_lower. split; [exact IH1|]. unfold hex_of_bytes in IH2. rewrite IH2. simpl. lia.
Qed.

Lemma sha256_hex_shape m : is_sha256 (sha256_hex m) = true.
Proof.
  unfold sha256_hex, is_sha256, str_len.
  match goal with |- context [hex_of_bytes ?l] => destruct (hex_of_bytes_shape l) as [-> ->] end.
  reflexivity.
Qed.

Example sha256_abc :
  sha256_hex "abc" = "ba7816bf8f01cfea414140de5dae2223b00361a396177a9cb410ff61f20015ad".
Proof. vm_compute. reflexivity. Qed.

Example sha256_two_blocks :
  sha256_hex "abcdbcdecdefdefgefghfghighijhijkijkljklmklmnlmnomnopnopq"
  = "248d6a61d20638b8e5c026930c3e6039a33ce45964ff2167f6ecedd419db06c1".
Proof. vm_compute. reflexivity. Qed.
