(* ===== verification/Crypto.v ===== *)
(** * Signing helpers ([src/src/aegis_ot/crypto.py])

    Ed25519 is the [cryptography] package's: its key types, signing and
    verification are the operations of the class [Ed25519], and [Ed25519Laws] is
    the documented property that a signature by a private key verifies under its
    public key.  URL-safe Base64 is the standard library's and is executable. *)
From S2P Require Import Prelude PyStr.
Local Open Scope Z_scope.

Class Ed25519 := {
  private_key : Type;
  public_key : Type;
  public_of : private_key → public_key;
  ed_sign : private_key → string → string;
  (** [public_key.verify(signature, data)] does not raise [InvalidSignature]. *)
  ed_verify : public_key → string → string → bool;
}.

Class Ed25519Laws `{Ed25519} : Prop := {
  ed_verify_sign : ∀ k m, ed_verify (public_of k) (ed_sign k m) m = true;
}.

(** ** URL-safe Base64 *)
Definition b64_chr (i : Z) : Ascii.ascii :=
  chr (if i <? 26 then 65 + i else if i <? 52 then 71 + i else if i <? 62 then i - 4
       else if i =? 62 then 45 else 95).

(** [altchars=b"-_"] are translated to [+/], which stay valid themselves. *)
Definition b64_val (c : Ascii.ascii) : option Z :=
  let n := ord c in
  if (65 <=? n) && (n <=? 90) then Some (n - 65)
  else if (97 <=? n) && (n <=? 122) then Some (n - 71)
  else if (48 <=? n) && (n <=? 57) then Some (n + 4)
  else if (n =? 43) || (n =? 45) then Some 62
  else if (n =? 47) || (n =? 95) then Some 63
  else None.

Definition pad_chr : Ascii.ascii := chr 61.

Fixpoint urlsafe_b64encode (s : string) : string :=
  match s with
  | EmptyString => EmptyString
  | String a EmptyString =>
      String (b64_chr (ord a / 4)) (String (b64_chr (ord a mod 4 * 16))
        (String pad_chr (String pad_chr EmptyString)))
  | String a (String b EmptyString) =>
      String (b64_chr (ord a / 4)) (String (b64_chr (ord a mod 4 * 16 + ord b / 16))
        (String (b64_chr (ord b mod 16 * 4)) (String pad_chr EmptyString)))
  | String a (String b (String c t)) =>
      String (b64_chr (ord a / 4)) (String (b64_chr (ord a mod 4 * 16 + ord b / 16))
        (String (b64_chr (ord b mod 16 * 4 + ord c / 64)) (String (b64_chr (ord c mod 64))
          (urlsafe_b64encode t))))
  end.

(** Quartets; padding only in the last one. *)
Fixpoint b64decode (s : string) : option string :=
  match s with
  | EmptyString => Some EmptyString
  | String w (String x (String y (String z t))) =>
      a ← b64_val w; b ← b64_val x;
      if Ascii.eqb y pad_chr then
        if Ascii.eqb z pad_chr && bool_decide (t = EmptyString)
        then Some (String (chr (a * 4 + b / 16)) EmptyString) else None
      else c ← b64_val y;
           if Ascii.eqb z pad_chr then
             if bool_decide (t = EmptyString)
             then Some (String (chr (a * 4 + b / 16))
                         (String (chr (b mod 16 * 16 + c / 4)) EmptyString)) else None
           else d ← b64_val z; r ← b64decode t;
                Some (String (chr (a * 4 + b / 16)) (String (chr (b mod 16 * 16 + c / 4))
                  (String (chr (c mod 4 * 64 + d)) r)))
  | _ => None
  end.

Definition decode_urlsafe_b64 (value : string) : result string :=
  match b64decode value with
  | None => raise_ "ValueError" "invalid URL-safe Base64 encoding"
  | Some decoded =>
      if bool_decide (urlsafe_b64encode decoded = value) then Ok decoded
      else raise_ "ValueError" "noncanonical URL-safe Base64 encoding"
  end.

Definition sign_bytes `{Ed25519} (k : private_key) (payload : string) : string :=
  urlsafe_b64encode (ed_sign k payload).

Definition verify_bytes `{Ed25519} (k : public_key) (payload signature : string) : bool :=
  match decode_urlsafe_b64 signature with
  | Ok decoded => ed_verify k decoded payload
  | Raise _ => false
  end.

(** ** Round trip *)
Lemma b64_val_chr i : 0 <= i < 64 → b64_val (b64_chr i) = Some i.
Proof.
  intros Hi. rewrite <- (Z2Nat.id i) by lia.
  assert (Z.to_nat i < 64)%nat as Hn by lia. revert Hn. generalize (Z.to_nat i). clear.
  intros n Hn. do 64 (destruct n as [|n]; [reflexivity|]). lia.
Qed.

Lemma b64_chr_not_pad i : 0 <= i < 64 → Ascii.eqb (b64_chr i) pad_chr = false.
Proof.
  intros Hi. destruct (Ascii.eqb_spec (b64_chr i) pad_chr) as [E|]; [|done].
  pose proof (b64_val_chr i Hi) as H. rewrite E in H. discriminate H.
Qed.

Lemma chr_is c z : z = ord c → chr z = c.
Proof. intros ->. apply chr_ord. Qed.

Ltac b64_arith :=
  repeat match goal with c : Ascii.ascii |- _ =>
    lazymatch goal with H : 0 <= ord c < 256 |- _ => fail | _ => pose proof (ord_range c) end end;
  Z.to_euclidean_division_equations; lia.

Lemma string_ind3 (P : string → Prop) :
  P EmptyString → (∀ a, P (String a EmptyString)) → (∀ a b, P (String a (String b EmptyString))) →
  (∀ a b c t, P t → P (String a (String b (String c t)))) → ∀ s, P s.
Proof.
  intros H0 H1 H2 H3. fix IH 1. intros [|a [|b [|c t]]];
    [apply H0|apply H1|apply H2|apply H3, IH].
Qed.

Lemma b64decode_encode s : b64decode (urlsafe_b64encode s) = Some s.
Proof.
  induction s as [|a|a b|a b c t IH] using string_ind3; cbn [urlsafe_b64encode b64decode].
  - done.
  - rewrite !b64_val_chr by b64_arith. simpl. do 2 f_equal. apply chr_is. b64_arith.
  - rewrite !b64_val_chr, b64_chr_not_pad by b64_arith. simpl.
    do 2 f_equal; [apply chr_is; b64_arith|f_equal; apply chr_is; b64_arith].
  - rewrite !b64_val_chr, !b64_chr_not_pad by b64_arith. simpl. rewrite IH. simpl.
    repeat f_equal; apply chr_is; b64_arith.
Qed.

Lemma decode_encode s : decode_urlsafe_b64 (urlsafe_b64encode s) = Ok s.
Proof.
  unfold decode_urlsafe_b64. rewrite b64decode_encode. by rewrite bool_decide_eq_true_2.
Qed.

(** Only the canonical encoding of an octet string is accepted. *)
Lemma decode_urlsafe_b64_Ok v s : decode_urlsafe_b64 v = Ok s ↔ v = urlsafe_b64encode s.
Proof.
  split; [|intros ->; apply decode_encode]. unfold decode_urlsafe_b64.
  destruct (b64decode v); [|done]. case_bool_decide; naive_solver.
Qed.

Lemma verify_sign_bytes `{Ed25519Laws} k m : verify_bytes (public_of k) m (sign_bytes k m) = true.
Proof. unfold verify_bytes, sign_bytes. rewrite decode_encode. apply ed_verify_sign. Qed.

(** The signature of a payload: [bool(sig) and verify_bytes(key, payload, sig)], where
    computing the payload may fail. *)
Definition signature_valid `{Ed25519} (key : public_key) (sig : string) (payload : result string) : result bool :=
  if bool_decide (sig = "") then Ok false
  else b ← payload; Ok (verify_bytes key b sig).

Lemma signature_valid_true `{Ed25519} k sig payload :
  signature_valid k sig payload = Ok true → ∃ b, payload = Ok b ∧ verify_bytes k b sig = true.
Proof. unfold signature_valid. case_bool_decide; [done|]. intros Hs. inv_ok. eauto. Qed.

Lemma signature_valid_sign `{Ed25519Laws} k payload b :
  payload = Ok b → sign_bytes k b ≠ "" → signature_valid (public_of k) (sign_bytes k b) payload = Ok true.
Proof.
  intros -> Hne. unfold signature_valid. rewrite bool_decide_eq_false_2 by done.
  simpl. by rewrite verify_sign_bytes.
Qed.

Example b64_ex : urlsafe_b64encode "M" = "TQ==" ∧ urlsafe_b64encode (String (chr 251) (String (chr 255) "")) = "-_8=".
Proof. done. Qed.

(** ** A concrete scheme for the examples

    A key is a string and a signature is a mark, the key and the message: it
    satisfies the interface's law and computes. *)
Module DemoEd25519.
#[export] Instance demo_ed25519 : Ed25519 := {|
  private_key := string;
  public_key := string;
  public_of := λ k, k;
  ed_sign := λ k m, "s" +:+ k +:+ m;
  ed_verify := λ k s m, bool_decide (s = "s" +:+ k +:+ m);
|}.

#[export] Instance demo_ed25519_laws : Ed25519Laws.
Proof. constructor. intros. by apply bool_decide_eq_true. Qed.
Lemma demo_sign_nonempty (k : private_key) m : sign_bytes k m ≠ "".
Proof. unfold sign_bytes. simpl. by destruct (k +:+ m) as [|? [|? ?]]. Qed.
End DemoEd25519.
