(* ===== verification/Models.v ===== *)
(** * Domain models ([src/src/aegis_ot/models.py])

    Each pydantic model is a record; its [Field] constraints and validators are
    one executable check, [<Model>_validate], which returns the validated record
    or raises as construction does.  [ModelDump] is pydantic's
    [model_dump(mode="json")], code of the package. *)
From S2P Require Import Prelude PyFloat PyStr PyTime PyJson Sha256.

Class ModelDump (A : Type) := model_dump : A → json.

(** Dumping keeps every field: models with the same canonical JSON are equal, and
    their JSON is well formed.  This is said of dict fields with their entries
    in key order, one representative of each dict: pydantic's dump identifies
    lists of entries that differ in their order only. *)
Class ModelDumpLaws (A : Type) `{ModelDump A} : Prop := {
  model_dump_ok : ∀ a : A, json_ok (model_dump a) = true;
  model_dump_inj : ∀ a b : A, canon (model_dump a) = canon (model_dump b) → a = b;
}.

(** [canonical_digest] of [physical_models.py]: SHA-256 of the strict canonical JSON. *)
Definition canonical_digest (material : json) : result string :=
  s ← dumps_strict material; Ok (sha256_hex s).

Lemma canonical_digest_shape j d : canonical_digest j = Ok d → is_sha256 d = true.
Proof. unfold canonical_digest. intros H. inv_ok. apply sha256_hex_shape. Qed.

(** [model_dump(mode="json", exclude=fields)] *)
Definition json_exclude (fields : list string) (j : json) : json :=
  match j with
  | JObj kv => JObj (List.filter (λ p, negb (bool_decide (p.1 ∈ fields))) kv)
  | _ => j
  end.

Inductive Operation := ISOLATE_ASSET | RESTORE_ASSET | SHED_LOAD | DISPATCH_BATTERY.
#[export] Instance Operation_eq_dec : EqDecision Operation.
Proof. solve_decision. Defined.
#[export] Instance Operation_countable : Countable Operation.
Proof.
  refine (inj_countable'
    (λ o, match o with ISOLATE_ASSET => 0 | RESTORE_ASSET => 1 | SHED_LOAD => 2 | DISPATCH_BATTERY => 3 end)
    (λ n, match n with 0 => ISOLATE_ASSET | 1 => RESTORE_ASSET | 2 => SHED_LOAD | _ => DISPATCH_BATTERY end) _).
  by intros [].
Defined.

Definition Operation_value (o : Operation) : string :=
  match o with
  | ISOLATE_ASSET => "isolate_asset"
  | RESTORE_ASSET => "restore_asset"
  | SHED_LOAD => "shed_load"
  | DISPATCH_BATTERY => "dispatch_battery"
  end.

Definition OPERATION_PARAMETERS (o : Operation) : list string :=
  match o with
  | ISOLATE_ASSET => ["critical_load_impact_pct"; "line_loading_delta_pct"]
  | RESTORE_ASSET => ["critical_load_restore_pct"; "line_loading_delta_pct"]
  | SHED_LOAD => ["critical_load_impact_pct"; "line_loading_relief_pct"]
  | DISPATCH_BATTERY => ["mw"; "minimum_voltage_delta_pu"; "maximum_voltage_delta_pu"]
  end.

Definition PERCENTAGE_PARAMETERS : list string :=
  ["critical_load_impact_pct"; "critical_load_restore_pct"; "line_loading_relief_pct"].

Inductive DecisionOutcome :=
  | PERMIT | DENY | MODIFY | DEFER | SIMULATE | REQUIRE_APPROVAL | QUARANTINE | REVOKE.
#[export] Instance DecisionOutcome_eq_dec : EqDecision DecisionOutcome.
Proof. solve_decision. Defined.

(** ** System state *)
Record SystemState := mk_SystemState {
  version : Z;
  observed_at : datetime;
  critical_load_served_pct : float;
  minimum_voltage_pu : float;
  maximum_voltage_pu : float;
  maximum_line_loading_pct : float;
  isolated_assets : gset string;
  battery_dispatch_mw : float;
}.
#[export] Instance SystemState_eq_dec : EqDecision SystemState.
Proof. solve_decision. Defined.

Definition f0 : float := flit 0 1.
Definition f1 : float := flit 1 1.
Definition f100 : float := flit 100 1.

(** [allow_inf_nan=False] with [ge], [gt] and [le] bounds. *)
Definition f_ge (b x : float) : bool := is_finite x && fleb b x.
Definition f_gt (b x : float) : bool := is_finite x && fltb b x.
Definition f_between (lo hi x : float) : bool := is_finite x && fleb lo x && fleb x hi.

Definition SystemState_validate (s : SystemState) : result SystemState :=
  _ ← require ((0 <=? version s)%Z && f_between f0 f100 (critical_load_served_pct s)
               && f_gt f0 (minimum_voltage_pu s) && f_gt f0 (maximum_voltage_pu s)
               && f_ge f0 (maximum_line_loading_pct s) && is_finite (battery_dispatch_mw s))
      "ValidationError" "field constraint";
  _ ← require (dt_aware (observed_at s)) "ValidationError" "observed_at must be timezone-aware";
  _ ← require (negb (fltb (maximum_voltage_pu s) (minimum_voltage_pu s)))
      "ValidationError" "minimum_voltage_pu must not exceed maximum_voltage_pu";
  Ok s.

(** ** Action proposals *)
Record ActionProposal := mk_ActionProposal {
  proposal_id : string;
  actor_id : string;
  mission_id : string;
  resource : string;
  operation : Operation;
  parameters : list (string * json);
  observed_state_version : Z;
  proposal_observed_at : datetime;
  submitted_at : datetime;
  nonce : string;
  confidence : float;
  risk_score : float;
  delegation_chain : list string;
  human_approval_id : option string;
}.
#[export] Instance ActionProposal_eq_dec : EqDecision ActionProposal.
Proof. solve_decision. Defined.

(** [float(v)] of a number; an integer that rounds past the largest finite float
    overflows.  Other values only reach it unvalidated. *)
Definition py_float (v : json) : result float :=
  match v with
  | JFloat f => Ok f
  | JInt z => let f := f_of_Z z in
              if is_finite f then Ok f
              else raise_ "OverflowError" "int too large to convert to float"
  | JBool b => Ok (if b then f1 else f0)
  | _ => raise_ "TypeError" "float() argument must be a string or a real number"
  end.

(** One entry of the normalisation loop. *)
Definition normalize_parameter (p : string * json) : result (string * float) :=
  match p.2 with
  | JInt _ | JFloat _ =>
      value ← py_float p.2;
      _ ← require (is_finite value) "ValidationError" ("parameter " +:+ p.1 +:+ " must be a finite number");
      Ok (p.1, value)
  | _ => raise_ "ValidationError" ("parameter " +:+ p.1 +:+ " must be a finite number")
  end.

Definition require_operation_parameters (p : ActionProposal) : result unit :=
  let allowed := OPERATION_PARAMETERS (operation p) in
  let unknown := List.filter (λ k, negb (bool_decide (k ∈ allowed))) (parameters p).*1 in
  _ ← require (bool_decide (unknown = []))
      "ValidationError" ("parameters are not valid for " +:+ Operation_value (operation p));
  normalized ← result_mapM normalize_parameter (parameters p);
  require (forallb (λ '(k, v), implb (bool_decide (k ∈ PERCENTAGE_PARAMETERS))
                                     (fleb f0 v && fleb v f100)) normalized)
    "ValidationError" "parameter must be between 0 and 100".

Definition min_length (n : Z) (s : string) : bool := (n <=? str_len s)%Z.

Definition ActionProposal_validate (p : ActionProposal) : result ActionProposal :=
  _ ← require (min_length 1 (proposal_id p) && min_length 1 (actor_id p)
               && min_length 1 (mission_id p) && min_length 1 (resource p)
               && (0 <=? observed_state_version p)%Z
               && min_length 16 (nonce p) && (str_len (nonce p) <=? 256)%Z
               && f_between f0 f1 (confidence p) && f_between f0 f100 (risk_score p)
               && negb (bool_decide (delegation_chain p = []))
               && match human_approval_id p with Some a => min_length 1 a | None => true end)
      "ValidationError" "field constraint";
  _ ← require (dt_aware (proposal_observed_at p) && dt_aware (submitted_at p))
      "ValidationError" "timestamps must be timezone-aware";
  _ ← require_operation_parameters p;
  Ok p.

(** ** Decisions and execution results *)
Record Decision := mk_Decision {
  decision_id : string;
  decision_proposal_id : string;
  outcome : DecisionOutcome;
  decision_reasons : list string;
  decided_at : datetime;
  policy_version : string;
  safety_version : string;
  state_version : Z;
  evidence_record_hash : option string;
}.
#[export] Instance Decision_eq_dec : EqDecision Decision.
Proof. solve_decision. Defined.

(** [decision.model_copy(update={"evidence_record_hash": h})] *)
Definition with_evidence (d : Decision) (h : option string) : Decision :=
  mk_Decision (decision_id d) (decision_proposal_id d) (outcome d) (decision_reasons d)
    (decided_at d) (policy_version d) (safety_version d) (state_version d) h.

Record ExecutionResult := mk_ExecutionResult {
  result_proposal_id : string;
  result_decision_id : string;
  executed : bool;
  acknowledged_at : datetime;
  resulting_state : option SystemState;
  result_reason : option string;
}.

(** ** What validation guarantees *)
Lemma SystemState_validate_Ok s s' :
  SystemState_validate s = Ok s' →
  s' = s ∧ (0 <= version s)%Z ∧ dt_aware (observed_at s) = true
  ∧ f_between f0 f100 (critical_load_served_pct s) = true
  ∧ f_gt f0 (minimum_voltage_pu s) = true ∧ f_gt f0 (maximum_voltage_pu s) = true
  ∧ f_ge f0 (maximum_line_loading_pct s) = true ∧ is_finite (battery_dispatch_mw s) = true
  ∧ fleb (minimum_voltage_pu s) (maximum_voltage_pu s) = true.
Proof.
  unfold SystemState_validate. intros H. inv_ok. split_and!; auto.
  unfold f_gt in *. bool_split.
  apply fltb_false_fleb; auto using is_finite_not_nan.
Qed.


(** The facts about a constructed proposal the components rely on. *)
Record proposal_facts (p : ActionProposal) : Prop := {
  pf_nonce : (16 <= str_len (nonce p) <= 256)%Z;
  pf_confidence : f_between f0 f1 (confidence p) = true;
  pf_risk : f_between f0 f100 (risk_score p) = true;
  pf_chain : delegation_chain p ≠ [];
  pf_aware : dt_aware (proposal_observed_at p) = true ∧ dt_aware (submitted_at p) = true;
  pf_keys : ∀ k, k ∈ (parameters p).*1 → k ∈ OPERATION_PARAMETERS (operation p);
  pf_numbers : ∀ k v, (k, v) ∈ parameters p → ∃ f, py_float v = Ok f ∧ is_finite f = true
    ∧ (k ∈ PERCENTAGE_PARAMETERS → fleb f0 f = true ∧ fleb f f100 = true);
}.

Lemma normalize_parameter_Ok kv kv' :
  normalize_parameter kv = Ok kv' →
  kv'.1 = kv.1 ∧ py_float kv.2 = Ok kv'.2 ∧ is_finite kv'.2 = true.
Proof.
  destruct kv as [k []]; unfold normalize_parameter; cbn [fst snd]; try done; intros H; by inv_ok.
Qed.

Lemma ActionProposal_validate_Ok p p' :
  ActionProposal_validate p = Ok p' → p' = p ∧ proposal_facts p.
Proof.
  unfold ActionProposal_validate, require_operation_parameters, min_length. intros H. inv_ok.
  split; [done|].
  match goal with HF : List.filter _ _ = [], HM : result_mapM _ _ = Ok ?l,
    HP : forallb _ ?l = true |- _ => rename HF into Hunk, HM into Hnum, HP into Hpct end.
  split; auto.
  - intros k Hk. destruct (decide (k ∈ OPERATION_PARAMETERS (operation p'))) as [|Hn]; [done|].
    assert (Hin : In k (List.filter (λ k, negb (bool_decide (k ∈ OPERATION_PARAMETERS (operation p'))))
                    (parameters p').*1)).
    { apply List.filter_In. split; [by apply list_elem_of_In|].
      by rewrite bool_decide_eq_false_2. }
    by rewrite Hunk in Hin.
  - intros k v Hkv. apply result_mapM_Ok in Hnum.
    apply list_elem_of_lookup in Hkv as [i Hi].
    destruct (Forall2_lookup_l _ _ _ _ _ Hnum Hi) as ([k' f] & Hf & Hn).
    apply normalize_parameter_Ok in Hn as (Hk & Hv & Hfin). simpl in *. subst k'.
    exists f. split_and!; [done|done|]. intros Hpk.
    rewrite forallb_forall in Hpct.
    specialize (Hpct (k, f)). simpl in Hpct. rewrite bool_decide_eq_true_2 in Hpct by done.
    apply andb_true_iff, Hpct. apply list_elem_of_In, list_elem_of_lookup. eauto.
Qed.

(** ** A concrete proposal and state for the examples *)
Module ModelsDemo.
Definition t0 : Z := 1787529600000000.
Definition proposal : ActionProposal :=
  mk_ActionProposal "proposal-1" "agent:operator-1" "microgrid" "feeder-1" ISOLATE_ASSET
    [("critical_load_impact_pct", JFloat (flit 5 1)); ("line_loading_delta_pct", JInt 3)]
    1 (utc t0) (utc t0) "nonce-0123456789abcdef" (flit 9 10) (flit 20 1)
    ["grant-root"; "grant-leaf"] None.
Definition state : SystemState :=
  mk_SystemState 1 (utc t0) (flit 100 1) (flit 99 100) (flit 101 100) (flit 72 1) ∅ (flit 0 1).
Definition now : datetime := utc (t0 + seconds 1).

Lemma proposal_validates : ActionProposal_validate proposal = Ok proposal.
Proof. vm_compute. reflexivity. Qed.
Lemma state_validates : SystemState_validate state = Ok state.
Proof. vm_compute. reflexivity. Qed.
End ModelsDemo.
