(* ===== verification/PyModel.v ===== *)
(** * Models as JSON objects

    Reading the fields of a JSON object the way pydantic's [model_validate] reads
    them for the field types the wire formats use, and what sorting a payload's
    keys changes. *)
From S2P Require Import Prelude PyStr PyJson Models.
From stdpp Require Import sorting.

Definition max_length (n : Z) (s : string) : bool := (str_len s <=? n)%Z.

Definition opt_str (o : option string) : json := match o with Some s => JStr s | None => JNull end.

Definition invalid {A} : result A := raise_ "ValidationError" "field type".
Definition str_of (kv : list (string * json)) (k : string) : result string :=
  match dict_get k kv with Some (JStr s) => Ok s | _ => invalid end.
Definition dict_of_field (kv : list (string * json)) (k : string) : result (list (string * json)) :=
  match dict_get k kv with Some (JObj d) => Ok d | _ => invalid end.
(** [Literal[v] = v] *)
Definition literal_of (kv : list (string * json)) (k v : string) : result unit :=
  match dict_get k kv with
  | None => Ok tt
  | Some (JStr s) => if bool_decide (s = v) then Ok tt else invalid
  | Some _ => invalid
  end.
(** [extra="forbid"] *)
Definition only_keys (ks : list string) (kv : list (string * json)) : result unit :=
  if forallb (λ k, bool_decide (k ∈ ks)) kv.*1 then Ok tt else invalid.

Definition int_of (kv : list (string * json)) (k : string) : result Z :=
  match dict_get k kv with Some (JInt n) => Ok n | _ => invalid end.

(** [except (RecursionError, ValueError)] *)
Definition recursion_or_value (e : exn) : bool :=
  isinstance_exn e "RecursionError" || isinstance_exn e "ValueError".

(** ** Files of canonical JSON *)
Definition BOM : string := String (chr 239) (String (chr 187) (String (chr 191) "")).
(** [_strict_json_loads]: no byte order mark and no duplicate key.  A number that
    is not finite is refused where it is read; no field accepts one, so it ends as
    the same error. *)
Definition strict_loads (bom_msg duplicate_msg : string) (material : string) : result json :=
  match PyJson.strip_prefix BOM material with
  | Some _ => raise_ "ValueError" bom_msg
  | None =>
      match utf8_decode material with
      | Some text => loads (closed_object "ValueError" duplicate_msg) text
      | None => raise_ "UnicodeDecodeError" "invalid start byte"
      end
  end.
Definition newline : string := String (chr 10) "".

(** ** Payloads in key order *)
(** A payload with its keys in order, as a decoded frame holds it. *)
Definition canonical_payload (p : list (string * json)) : list (string * json) :=
  merge_sort key_le (map (λ '(k, x), (k, canon x)) p).
Lemma canon_payload p : canon (JObj p) = JObj (canonical_payload p).
Proof. reflexivity. Qed.

Lemma dumps_strict_Ok j s : dumps_strict j = Ok s ↔ has_nan j = false ∧ s = dumps j.
Proof. unfold dumps_strict. destruct (has_nan j); naive_solver. Qed.

Lemma canonical_payload_idem p :
  json_ok (JObj p) = true → canonical_payload (canonical_payload p) = canonical_payload p.
Proof. intros Hp. pose proof (canon_idem (JObj p) Hp) as E. rewrite !canon_payload in E. by injection E. Qed.
Lemma canonical_payload_ok p : json_ok (JObj p) = true → json_ok (JObj (canonical_payload p)) = true.
Proof. intros Hp. apply (json_ok_canon (JObj p) Hp). Qed.
Lemma canonical_payload_digest p :
  json_ok (JObj p) = true → canonical_digest (JObj (canonical_payload p)) = canonical_digest (JObj p).
Proof. intros Hp. unfold canonical_digest. by rewrite <- (dumps_strict_canon (JObj p) Hp). Qed.

Lemma only_keys_canon ks (kv : list (string * json)) :
  forallb (λ k, bool_decide (k ∈ ks)) kv.*1 = true → only_keys ks (canonical_payload kv) = Ok tt.
Proof.
  intros H. unfold only_keys. replace (forallb _ _) with true; [done|]. symmetry.
  rewrite forallb_forall in H. apply forallb_forall. intros k Hk. apply H.
  apply list_elem_of_In. apply list_elem_of_In in Hk.
  assert (E : (map (λ '(k, x), (k, canon x)) kv).*1 = kv.*1)
    by (clear; induction kv as [|[? ?] kv IH]; [done|]; cbn; by f_equal).
  unfold canonical_payload in Hk. rewrite merge_sort_Permutation, E in Hk. done.
Qed.

Lemma canonical_get k kv :
  NoDup kv.*1 → dict_get k (canonical_payload kv) = canon <$> dict_get k kv.
Proof. apply dict_get_canon. Qed.

(** ** Models that travel as canonical JSON *)
(** What the two codecs share. *)
Class FrameModel (F : Type) := {
  frame_dump : F → json;
  frame_of : list (string * json) → result F;
}.
(** What a codec must satisfy for its frames to read back: [norm f] is the frame
    with its payload in order. *)
Class FrameLaws (F : Type) `{FrameModel F} := {
  frame_valid : F → Prop;
  norm : F → F;
  dump_ok : ∀ f, frame_valid f → json_ok (frame_dump f) = true;
  dump_norm : ∀ f, frame_valid f → canon (frame_dump (norm f)) = canon (frame_dump f);
  read_dump : ∀ f, frame_valid f → ∃ kv, canon (frame_dump f) = JObj kv ∧ frame_of kv = Ok (norm f);
  norm_valid : ∀ f, frame_valid f → frame_valid (norm f);
}.

Section frames.
Context {F : Type} `{FrameLaws F}.
Lemma frame_norm_octets f :
  frame_valid f → dumps_strict (frame_dump (norm f)) = dumps_strict (frame_dump f).
Proof using Type.
  intros Hf.
  rewrite <- (dumps_strict_canon (frame_dump f)) by by apply dump_ok.
  rewrite <- (dumps_strict_canon (frame_dump (norm f))) by by apply dump_ok, norm_valid.
  by rewrite dump_norm.
Qed.

(** The octets of a valid frame are ASCII, parse, and read as the frame. *)
Lemma frame_reads f s :
  frame_valid f → dumps_strict (frame_dump f) = Ok s →
  ∃ kv, utf8_decode s = Some s ∧ loads dict_of_pairs s = Ok (JObj kv) ∧ frame_of kv = Ok (norm f).
Proof using Type.
  intros Hf [_ ->]%dumps_strict_Ok. destruct (read_dump f Hf) as (kv & Hc & Hkv). exists kv.
  rewrite utf8_decode_ascii by (apply print_ascii, json_ok_canon, dump_ok, Hf).
  rewrite loads_dumps by (apply dict_of_pairs_good || by apply dump_ok). by rewrite Hc.
Qed.
End frames.

(** ** Looking fields up in a literal object *)
Lemma get_here {A} k (v : A) l : dict_get k ((k, v) :: l) = Some v.
Proof. simpl. by rewrite bool_decide_eq_true_2. Qed.
Lemma get_there {A} k k' (v : A) l : k ≠ k' → dict_get k ((k', v) :: l) = dict_get k l.
Proof. intros H. simpl. by rewrite bool_decide_eq_false_2. Qed.
Ltac fields := repeat first [rewrite get_here | rewrite get_there by discriminate].

(** A canonical line reads back. *)
Lemma strict_loads_line bom dup kv :
  json_ok (JObj kv) = true →
  strict_loads bom dup (dumps (JObj kv) +:+ newline) = Ok (JObj (canonical_payload kv)).
Proof.
  intros Hok. unfold strict_loads. replace (PyJson.strip_prefix BOM _) with (@None string); cycle 1.
  { unfold dumps. rewrite canon_payload, print_obj. reflexivity. }
  rewrite utf8_decode_ascii; cycle 1.
  { rewrite str_forallb_app. apply andb_true_iff. split; [|done].
    by apply print_ascii, json_ok_canon. }
  rewrite loads_dumps_ws by (done || auto using closed_object_good). by rewrite canon_payload.
Qed.
