(* ===== verification/Replay.v ===== *)
(** * Nonce replay ledger ([src/src/aegis_ot/replay.py])

    [ReplayLedger_reserve] prunes entries older than the retention, then refuses
    a nonce still present and records a new one.  The abstract contract keeps the
    whole history of accepted reservations and never prunes; [reserve_refines]
    shows the ledger implements it when evaluation times do not go backwards. *)
From S2P Require Import Prelude PyTime.
Local Open Scope Z_scope.

Record ReplayLedger := mk_ReplayLedger { retention : timedelta; seen : gmap string datetime }.

Definition ReplayLedger_new (ret : timedelta) : ReplayLedger := mk_ReplayLedger ret ∅.

(** [now - self._retention] *)
Definition cutoff (l : ReplayLedger) (now : datetime) : datetime := dt_minus now (retention l).

Definition prune (l : ReplayLedger) (now : datetime) : gmap string datetime :=
  filter (λ kv, dt_leb (cutoff l now) kv.2 = true) (seen l).

Definition ReplayLedger_reserve (l : ReplayLedger) (nonce : string) (now : datetime) :
    bool * ReplayLedger :=
  let kept := prune l now in
  match kept !! nonce with
  | Some _ => (false, mk_ReplayLedger (retention l) kept)
  | None => (true, mk_ReplayLedger (retention l) (<[nonce := now]> kept))
  end.

Definition ReplayLedger_contains (l : ReplayLedger) (nonce : string) : bool :=
  bool_decide (is_Some (seen l !! nonce)).

(** ** One call *)
Lemma prune_lookup l now n t :
  prune l now !! n = Some t ↔ seen l !! n = Some t ∧ dt_utc now - retention l <= dt_utc t.
Proof. unfold prune. rewrite map_lookup_filter_Some. unfold dt_leb. simpl. rewrite Z.leb_le. done. Qed.

Lemma reserve_true l n now :
  (ReplayLedger_reserve l n now).1 = true
  ↔ ∀ t, seen l !! n = Some t → dt_utc t < dt_utc now - retention l.
Proof.
  unfold ReplayLedger_reserve. destruct (prune l now !! n) as [t|] eqn:E; simpl.
  - split; [done|]. apply prune_lookup in E as [E ?]. intros Hno. specialize (Hno t E). lia.
  - split; [|done]. intros _ t Ht. apply Z.nle_gt. intros Hle.
    assert (prune l now !! n = Some t) by by apply prune_lookup. congruence.
Qed.

Lemma reserve_seen l n now m :
  seen (ReplayLedger_reserve l n now).2 !! m
  = if (ReplayLedger_reserve l n now).1 && bool_decide (m = n) then Some now else prune l now !! m.
Proof.
  unfold ReplayLedger_reserve. destruct (prune l now !! n) eqn:E; simpl; [done|].
  case_bool_decide as Hmn; [subst; by rewrite lookup_insert_eq|by rewrite lookup_insert_ne].
Qed.

Lemma reserve_retention l n now : retention (ReplayLedger_reserve l n now).2 = retention l.
Proof. unfold ReplayLedger_reserve. by destruct (prune l now !! n). Qed.

(** A reservation that succeeds is visible, and one that fails adds nothing. *)
Lemma reserve_contains l n now :
  0 <= retention l → ReplayLedger_contains (ReplayLedger_reserve l n now).2 n = true.
Proof.
  intros. unfold ReplayLedger_contains. rewrite reserve_seen, bool_decide_eq_true.
  rewrite (bool_decide_eq_true_2 (n = n)), andb_true_r by done.
  unfold ReplayLedger_reserve. destruct (prune l now !! n) eqn:E; simpl; eauto.
Qed.

(** ** Runs against the history of accepted reservations *)
Fixpoint reserve_all (l : ReplayLedger) (calls : list (string * datetime)) : list bool * ReplayLedger :=
  match calls with
  | [] => ([], l)
  | (n, now) :: calls =>
      let '(ok, l) := ReplayLedger_reserve l n now in
      let '(oks, l) := reserve_all l calls in (ok :: oks, l)
  end.

(** The contract: accept unless the nonce was accepted within the retention. *)
Definition recent (ret : timedelta) (now : datetime) (n : string) (e : string * datetime) : bool :=
  bool_decide (e.1 = n) && (dt_utc now - ret <=? dt_utc e.2).

Fixpoint spec_all (ret : timedelta) (history : list (string * datetime))
    (calls : list (string * datetime)) : list bool :=
  match calls with
  | [] => []
  | (n, now) :: calls =>
      let ok := negb (existsb (recent ret now n) history) in
      ok :: spec_all ret (if ok then (n, now) :: history else history) calls
  end.

(** The ledger's entries are history entries, and every history entry it has
    dropped is older than the retention at time [t]. *)
Definition ledger_rel (l : ReplayLedger) (history : list (string * datetime)) (t : Z) : Prop :=
  (∀ n s, seen l !! n = Some s → (n, s) ∈ history) ∧
  (∀ n s, (n, s) ∈ history → t - retention l <= dt_utc s →
     ∃ s', seen l !! n = Some s' ∧ dt_utc s <= dt_utc s').

Lemma ledger_rel_recent l history now n :
  ledger_rel l history (dt_utc now) →
  existsb (recent (retention l) now n) history = negb (ReplayLedger_reserve l n now).1.
Proof.
  intros [H1 H2]. apply eq_true_iff_eq. rewrite negb_true_iff, <- not_true_iff_false, reserve_true.
  rewrite existsb_exists. split.
  - intros ([m s] & Hin & Hr) Hno. unfold recent in Hr. simpl in Hr. bool_split. subst m.
    apply list_elem_of_In in Hin. destruct (H2 _ _ Hin) as (s' & Hs' & Hle); [done|].
    specialize (Hno _ Hs'). lia.
  - intros Hno. destruct (seen l !! n) as [s|] eqn:E; [|by destruct Hno].
    exists (n, s). rewrite <- list_elem_of_In. split; [by apply H1|].
    unfold recent. simpl. rewrite bool_decide_eq_true_2 by done. simpl. apply Z.leb_le.
    apply Z.nlt_ge. intros Hlt. apply Hno. intros t Ht. by simplify_eq.
Qed.

Lemma ledger_rel_step l history now n t' :
  0 <= retention l → ledger_rel l history (dt_utc now) → dt_utc now <= t' →
  ledger_rel (ReplayLedger_reserve l n now).2
    (if (ReplayLedger_reserve l n now).1 then (n, now) :: history else history) t'.
Proof.
  intros Hret [H1 H2] Ht. split.
  - intros m s. rewrite reserve_seen. destruct (ReplayLedger_reserve l n now).1 eqn:E; simpl.
    + case_bool_decide; [intros; simplify_eq; set_solver|].
      intros [Hs _]%prune_lookup. set_solver.
    + intros [Hs _]%prune_lookup. eauto.
  - intros m s Hin Hs. rewrite reserve_retention in Hs. rewrite reserve_seen.
    assert (Hold : (m, s) ∈ history → ∃ s', prune l now !! m = Some s' ∧ dt_utc s <= dt_utc s').
    { intros Hh. destruct (H2 m s Hh) as (s' & Hs' & ?); [lia|].
      exists s'. rewrite prune_lookup. split; [split; [done|lia]|done]. }
    destruct (ReplayLedger_reserve l n now).1 eqn:E; simpl; [|eauto].
    case_bool_decide as Hmn; [subst m|set_solver].
    apply elem_of_cons in Hin as [[= ->]|Hh]; [eauto with lia|].
    destruct (Hold Hh) as (s' & Hs' & _).
    apply prune_lookup in Hs' as [Hs' ?]. pose proof (proj1 (reserve_true _ _ _) E _ Hs'). lia.
Qed.

(** Evaluation times from [t] on do not go backwards. *)
Inductive times_from : Z → list (string * datetime) → Prop :=
  | times_nil t : times_from t []
  | times_cons t n now calls :
      t <= dt_utc now → times_from (dt_utc now) calls → times_from t ((n, now) :: calls).

Lemma times_from_weaken t t' calls : times_from t' calls → t <= t' → times_from t calls.
Proof. inversion 1; constructor; [lia|done]. Qed.

Lemma ledger_rel_weaken l history t t' : ledger_rel l history t → t <= t' → ledger_rel l history t'.
Proof. intros [H1 H2] ?. split; [done|]. intros n s Hin Hs. apply (H2 n s Hin). lia. Qed.

Lemma reserve_all_spec l history t calls :
  0 <= retention l → ledger_rel l history t → times_from t calls →
  (reserve_all l calls).1 = spec_all (retention l) history calls.
Proof.
  intros Hret Hrel Ht. revert l history Hret Hrel.
  induction Ht as [t|t n now calls Hle Ht IH]; intros l history Hret Hrel; simpl; [done|].
  apply (ledger_rel_weaken _ _ _ _ Hrel) in Hle.
  rewrite (ledger_rel_recent _ _ _ _ Hle), negb_involutive.
  pose proof (ledger_rel_step l history now n (dt_utc now) Hret Hle) as Hstep.
  pose proof (reserve_retention l n now) as Hr.
  destruct (ReplayLedger_reserve l n now) as [ok l'] eqn:E. simpl in *.
  specialize (IH l' (if ok then (n, now) :: history else history)).
  rewrite Hr in IH. destruct (reserve_all l' calls) as [oks l'']. simpl in *.
  f_equal. apply IH; [done|]. apply Hstep. lia.
Qed.

(** Starting empty, and for evaluation times that never go backwards, the
    answers of a run of [reserve] calls are those of the ledger that keeps every
    accepted reservation for ever and refuses a nonce accepted within the
    retention: pruning is never observable. *)
Theorem reserve_refines ret t calls :
  0 <= ret → times_from t calls →
  (reserve_all (ReplayLedger_new ret) calls).1 = spec_all ret [] calls.
Proof.
  intros Hret Ht. apply (reserve_all_spec (ReplayLedger_new ret) [] t calls); [done| |done].
  split; [|set_solver]. intros n s. simpl. by rewrite lookup_empty.
Qed.

Example reserve_refines_witness :
  (reserve_all (ReplayLedger_new (hours 1))
     [("a", utc 0); ("b", utc 5); ("a", utc (hours 1)); ("a", utc (hours 1 + 1))]).1
  = [true; true; false; true].
Proof.
  rewrite (reserve_refines (hours 1) 0); [reflexivity|done|].
  repeat (constructor; [done|]). constructor.
Defined.

(** The assumption matters: after a later call has pruned an entry, an earlier
    evaluation time sees the nonce as fresh although it is within the retention. *)
Example backward_clock_reopens :
  (reserve_all (ReplayLedger_new (hours 1))
     [("a", utc 0); ("b", utc (hours 2)); ("a", utc 1)]).1 = [true; true; true].
Proof. vm_compute. reflexivity. Qed.
