(* ===== verification/Policy.v ===== *)
(** * Identity allowlist and contextual policy
    ([src/src/aegis_ot/identity.py], [src/src/aegis_ot/policy.py])

    The source's [Protocol]s are the classes [IdentityVerifier] and
    [PolicyEngine]; the gateway's theorems are stated against them and the
    deterministic local implementations are instances. *)
From S2P Require Import Prelude PyFloat PyStr PyTime PyJson Models.

Class IdentityVerifier (I : Type) := {
  identity_version : I → string;
  identity_verify : I → string → bool;
}.

Record AllowlistIdentityVerifier := mk_Allowlist {
  allowed_actor_ids : gset string;
  allowlist_version : string;
}.
Definition AllowlistIdentityVerifier_verify (i : AllowlistIdentityVerifier) (actor : string) : bool :=
  bool_decide (actor ∈ allowed_actor_ids i).
#[export] Instance allowlist_identity : IdentityVerifier AllowlistIdentityVerifier := {|
  identity_version := allowlist_version;
  identity_verify := AllowlistIdentityVerifier_verify;
|}.

Record PolicyResult := mk_PolicyResult {
  permitted : bool;
  policy_reasons : list string;
  requires_approval : bool;
}.

Class PolicyEngine (P : Type) := {
  policy_engine_version : P → string;
  policy_evaluate : P → ActionProposal → SystemState → PolicyResult;
}.

Record ContextualPolicy := mk_ContextualPolicy {
  minimum_confidence : float;
  human_approval_risk_threshold : float;
  contextual_version : string;
}.
Definition ContextualPolicy_default : ContextualPolicy :=
  mk_ContextualPolicy (flit 70 100) (flit 75 1) "local-contextual-v1".

Definition ContextualPolicy_flags (c : ContextualPolicy) (p : ActionProposal) (s : SystemState) :
    list (bool * string) :=
  [(fltb (confidence p) (minimum_confidence c), "confidence_below_policy_minimum");
   (negb (observed_state_version p =? version s)%Z, "state_version_mismatch");
   (fleb (human_approval_risk_threshold c) (risk_score p)
    && bool_decide (human_approval_id p = None), "human_approval_required")].

Definition ContextualPolicy_evaluate (c : ContextualPolicy) (p : ActionProposal) (s : SystemState) :
    PolicyResult :=
  let reasons := collect (ContextualPolicy_flags c p s) in
  mk_PolicyResult (bool_decide (reasons = [])) reasons
    (fleb (human_approval_risk_threshold c) (risk_score p)).

#[export] Instance contextual_policy : PolicyEngine ContextualPolicy := {|
  policy_engine_version := contextual_version;
  policy_evaluate := ContextualPolicy_evaluate;
|}.

(** ** The policy's verdict *)
Lemma contextual_reasons_nil c p s :
  policy_reasons (ContextualPolicy_evaluate c p s) = []
  ↔ fltb (confidence p) (minimum_confidence c) = false
    ∧ observed_state_version p = version s
    ∧ (fleb (human_approval_risk_threshold c) (risk_score p) = true → is_Some (human_approval_id p)).
Proof.
  unfold ContextualPolicy_evaluate. simpl. rewrite collect_nil. unfold ContextualPolicy_flags.
  rewrite !Forall_cons, Forall_nil. simpl.
  rewrite negb_false_iff, Z.eqb_eq, andb_false_iff, bool_decide_eq_false, <- not_eq_None_Some.
  destruct (fleb _ (risk_score p)); naive_solver.
Qed.

(** Human approval is the only outstanding objection exactly when everything
    else the policy checks holds. *)
Lemma contextual_only_approval c p s :
  policy_reasons (ContextualPolicy_evaluate c p s) = ["human_approval_required"]
  ↔ fltb (confidence p) (minimum_confidence c) = false
    ∧ observed_state_version p = version s
    ∧ fleb (human_approval_risk_threshold c) (risk_score p) = true ∧ human_approval_id p = None.
Proof.
  unfold ContextualPolicy_evaluate, ContextualPolicy_flags, collect. simpl.
  destruct (fltb (confidence p) _) eqn:E1, (Z.eqb_spec (observed_state_version p) (version s)),
    (fleb _ (risk_score p)) eqn:E3, (decide (human_approval_id p = None)) as [E4|E4]; simpl;
    rewrite ?(bool_decide_eq_true_2 _ E4), ?(bool_decide_eq_false_2 _ E4); simpl;
    (split; [intros H; try discriminate H; auto|intros (?&?&?&?); congruence]).
Qed.
