(* ===== verification/Safety.v ===== *)
(** * The safety kernel ([src/src/aegis_ot/safety.py])

    [SafetyKernel_transition] is the surrogate transition, [SafetyKernel_evaluate]
    compares the prediction with the limits.  Both are fallible only through
    [float(...)] of a parameter; a validated proposal never fails. *)
From S2P Require Import Prelude PyFloat PyStr PyTime PyJson Models.

Record SafetyLimits := mk_SafetyLimits {
  minimum_critical_load_served_pct : float;
  limit_minimum_voltage_pu : float;
  limit_maximum_voltage_pu : float;
  limit_maximum_line_loading_pct : float;
  maximum_simultaneous_isolations : Z;
}.
Definition SafetyLimits_default : SafetyLimits :=
  mk_SafetyLimits (flit 80 1) (flit 95 100) (flit 105 100) (flit 100 1) 2.

Record SafetyResult := mk_SafetyResult {
  safe : bool;
  safety_reasons : list string;
  predicted_state : SystemState;
}.

Record SafetyKernel := mk_SafetyKernel { limits : SafetyLimits; kernel_version : string }.
Definition SafetyKernel_default : SafetyKernel :=
  mk_SafetyKernel SafetyLimits_default "surrogate-safety-v1".

(** [float(proposal.parameters.get(name, 0.0))] *)
Definition parameter (p : ActionProposal) (name : string) : result float :=
  match dict_get name (parameters p) with Some v => py_float v | None => Ok f0 end.

(** The fields an operation changes: load, minimum and maximum voltage, loading,
    isolated assets, battery. *)
Record effects := mk_effects {
  e_load : float; e_min_v : float; e_max_v : float; e_loading : float;
  e_isolated : gset string; e_battery : float;
}.

Definition operation_effects (p : ActionProposal) (s : SystemState) : result effects :=
  let load := critical_load_served_pct s in
  let min_v := minimum_voltage_pu s in
  let max_v := maximum_voltage_pu s in
  let loading := maximum_line_loading_pct s in
  let isolated := isolated_assets s in
  let battery := battery_dispatch_mw s in
  match operation p with
  | ISOLATE_ASSET =>
      impact ← parameter p "critical_load_impact_pct";
      delta ← parameter p "line_loading_delta_pct";
      Ok (mk_effects (fsub load impact) min_v max_v (fadd loading delta)
            ({[resource p]} ∪ isolated) battery)
  | RESTORE_ASSET =>
      restored ← parameter p "critical_load_restore_pct";
      delta ← parameter p "line_loading_delta_pct";
      Ok (mk_effects (fadd load restored) min_v max_v (fadd loading delta)
            (isolated ∖ {[resource p]}) battery)
  | SHED_LOAD =>
      impact ← parameter p "critical_load_impact_pct";
      relief ← parameter p "line_loading_relief_pct";
      Ok (mk_effects (fsub load impact) min_v max_v (fsub loading relief) isolated battery)
  | DISPATCH_BATTERY =>
      mw ← parameter p "mw";
      dmin ← parameter p "minimum_voltage_delta_pu";
      dmax ← parameter p "maximum_voltage_delta_pu";
      Ok (mk_effects load (fadd min_v dmin) (fadd max_v dmax) loading isolated (fadd battery mw))
  end.

Definition SafetyKernel_transition (p : ActionProposal) (s : SystemState) : result SystemState :=
  e ← operation_effects p s;
  Ok (mk_SystemState (version s + 1) (observed_at s)
        (py_max f0 (py_min f100 (e_load e))) (e_min_v e) (e_max_v e) (py_max f0 (e_loading e))
        (e_isolated e) (e_battery e)).

Definition limit_flags (l : SafetyLimits) (s : SystemState) : list (bool * string) :=
  [(fltb (critical_load_served_pct s) (minimum_critical_load_served_pct l), "critical_load_below_limit");
   (fltb (minimum_voltage_pu s) (limit_minimum_voltage_pu l), "voltage_below_limit");
   (fltb (limit_maximum_voltage_pu l) (maximum_voltage_pu s), "voltage_above_limit");
   (fltb (limit_maximum_line_loading_pct l) (maximum_line_loading_pct s), "line_loading_above_limit");
   ((maximum_simultaneous_isolations l <? Z.of_nat (size (isolated_assets s)))%Z, "isolation_limit_exceeded")].

Definition SafetyKernel_evaluate (k : SafetyKernel) (p : ActionProposal) (s : SystemState) :
    result SafetyResult :=
  predicted ← SafetyKernel_transition p s;
  let reasons := collect (limit_flags (limits k) predicted) in
  Ok (mk_SafetyResult (bool_decide (reasons = [])) reasons predicted).

(** ** Validated proposals never fail *)
Lemma dict_get_elem {A} k (d : list (string * A)) v : dict_get k d = Some v → (k, v) ∈ d.
Proof.
  induction d as [|[k' v'] d IH]; simpl; [done|].
  case_bool_decide; intros; simplify_eq; set_solver.
Qed.

Lemma parameter_validated p name :
  proposal_facts p → ∃ f, parameter p name = Ok f ∧ is_finite f = true.
Proof.
  intros Hp. unfold parameter. destruct (dict_get name (parameters p)) as [v|] eqn:E; [|by exists f0].
  apply dict_get_elem in E. destruct (pf_numbers p Hp _ _ E) as (f & ? & ? & _). eauto.
Qed.

Lemma operation_effects_total p s : proposal_facts p → ∃ e, operation_effects p s = Ok e.
Proof.
  intros Hp. unfold operation_effects.
  destruct (operation p);
    repeat match goal with |- context [parameter p ?n] =>
      destruct (parameter_validated p n Hp) as (? & -> & ?); simpl end; eauto.
Qed.

(** ** What the kernel promises *)
Definition within_limits (l : SafetyLimits) (s : SystemState) : Prop :=
  fltb (critical_load_served_pct s) (minimum_critical_load_served_pct l) = false
  ∧ fltb (minimum_voltage_pu s) (limit_minimum_voltage_pu l) = false
  ∧ fltb (limit_maximum_voltage_pu l) (maximum_voltage_pu s) = false
  ∧ fltb (limit_maximum_line_loading_pct l) (maximum_line_loading_pct s) = false
  ∧ (Z.of_nat (size (isolated_assets s)) <= maximum_simultaneous_isolations l)%Z.

Lemma limit_flags_nil l s : collect (limit_flags l s) = [] ↔ within_limits l s.
Proof.
  rewrite collect_nil. unfold limit_flags, within_limits. rewrite !Forall_cons, Forall_nil. simpl.
  rewrite Z.ltb_ge. naive_solver.
Qed.

(** For every constructed proposal the kernel answers: the prediction
    advances the version by one, keeps the observation time, serves between 0 and
    100 percent of critical load with a non-negative line loading, and the answer
    is safe exactly when the prediction is within every configured limit. *)
Theorem evaluate_sound k p s :
  ActionProposal_validate p = Ok p →
  ∃ r, SafetyKernel_evaluate k p s = Ok r
    ∧ (safe r = true ↔ within_limits (limits k) (predicted_state r))
    ∧ (safe r = true ↔ safety_reasons r = [])
    ∧ version (predicted_state r) = (version s + 1)%Z
    ∧ observed_at (predicted_state r) = observed_at s
    ∧ fleb f0 (critical_load_served_pct (predicted_state r)) = true
    ∧ fleb (critical_load_served_pct (predicted_state r)) f100 = true
    ∧ fleb f0 (maximum_line_loading_pct (predicted_state r)) = true.
Proof.
  intros [_ Hp]%ActionProposal_validate_Ok. destruct (operation_effects_total p s Hp) as [e He].
  unfold SafetyKernel_evaluate, SafetyKernel_transition. rewrite He. simpl.
  eexists. split; [done|]. simpl.
  destruct (clamp_bounds f0 f100 (e_load e) eq_refl).
  rewrite bool_decide_eq_true, limit_flags_nil. split_and!; auto. by apply py_max_ge.
Qed.

Lemma evaluate_sound_witness :
  ∃ r, SafetyKernel_evaluate SafetyKernel_default ModelsDemo.proposal ModelsDemo.state = Ok r
    ∧ version (predicted_state r) = 2%Z
    ∧ fleb (critical_load_served_pct (predicted_state r)) f100 = true.
Proof.
  destruct (evaluate_sound SafetyKernel_default ModelsDemo.proposal ModelsDemo.state
    ModelsDemo.proposal_validates) as (r & Hr & _ & _ & Hv & _ & _ & Hl & _).
  exists r. exact (conj Hr (conj Hv Hl)).
Defined.

(** An operation changes only the fields it is about. *)
Definition untouched (p : ActionProposal) (s s' : SystemState) : Prop :=
  match operation p with
  | ISOLATE_ASSET =>
      isolated_assets s' = {[resource p]} ∪ isolated_assets s
      ∧ minimum_voltage_pu s' = minimum_voltage_pu s ∧ maximum_voltage_pu s' = maximum_voltage_pu s
      ∧ battery_dispatch_mw s' = battery_dispatch_mw s
  | RESTORE_ASSET =>
      isolated_assets s' = isolated_assets s ∖ {[resource p]}
      ∧ minimum_voltage_pu s' = minimum_voltage_pu s ∧ maximum_voltage_pu s' = maximum_voltage_pu s
      ∧ battery_dispatch_mw s' = battery_dispatch_mw s
  | SHED_LOAD =>
      isolated_assets s' = isolated_assets s
      ∧ minimum_voltage_pu s' = minimum_voltage_pu s ∧ maximum_voltage_pu s' = maximum_voltage_pu s
      ∧ battery_dispatch_mw s' = battery_dispatch_mw s
  | DISPATCH_BATTERY =>
      isolated_assets s' = isolated_assets s
      ∧ critical_load_served_pct s' = py_max f0 (py_min f100 (critical_load_served_pct s))
      ∧ maximum_line_loading_pct s' = py_max f0 (maximum_line_loading_pct s)
  end.

Lemma transition_untouched p s s' : SafetyKernel_transition p s = Ok s' → untouched p s s'.
Proof.
  unfold SafetyKernel_transition, operation_effects, untouched. intros H. inv_ok.
  destruct (operation p); inv_ok; simpl; auto.
Qed.

(** A third isolation is refused by the default limits whatever its other effects. *)
Lemma isolation_limit k p s :
  proposal_facts p → operation p = ISOLATE_ASSET →
  (resource p ∉ isolated_assets s) →
  (maximum_simultaneous_isolations (limits k) <= Z.of_nat (size (isolated_assets s)))%Z →
  ∃ r, SafetyKernel_evaluate k p s = Ok r ∧ safe r = false
       ∧ "isolation_limit_exceeded" ∈ safety_reasons r.
Proof.
  intros Hp Hop Hnew Hlim. destruct (operation_effects_total p s Hp) as [e He].
  pose proof (transition_untouched p s _
    ltac:(unfold SafetyKernel_transition; rewrite He; reflexivity)) as Hiso.
  unfold untouched in Hiso. rewrite Hop in Hiso. destruct Hiso as [Hiso _]. simpl in Hiso.
  unfold SafetyKernel_evaluate, SafetyKernel_transition. rewrite He. simpl.
  eexists. split; [done|]. simpl.
  assert (Hin : "isolation_limit_exceeded" ∈ collect (limit_flags (limits k)
    (mk_SystemState (version s + 1) (observed_at s) (py_max f0 (py_min f100 (e_load e)))
       (e_min_v e) (e_max_v e) (py_max f0 (e_loading e)) (e_isolated e) (e_battery e)))).
  { apply elem_of_collect. unfold limit_flags. simpl. rewrite Hiso, size_union by set_solver.
    rewrite size_singleton.
    assert (maximum_simultaneous_isolations (limits k)
            <? Z.of_nat (1 + size (isolated_assets s)) = true)%Z as -> by (apply Z.ltb_lt; lia).
    set_solver. }
  split; [|done]. apply bool_decide_eq_false. intros E. rewrite E in Hin. set_solver.
Qed.
