(* ===== verification/Evidence.v ===== *)
(** * Hash-chained decision evidence ([src/src/aegis_ot/evidence.py])

    A record's hash is the SHA-256 of the canonical JSON of its other fields and
    of its predecessor's hash.  [verify_append] is the invariant; [verify_binding]
    says what a verified chain's last hash pins down. *)
From S2P Require Import Prelude PyFloat PyStr PyTime PyJson Sha256.

Record EvidenceRecord := mk_EvidenceRecord {
  sequence : Z;
  recorded_at : datetime;
  ev_proposal_id : string;
  ev_decision_id : string;
  previous_hash : string;
  payload : json;
  record_hash : string;
}.

Definition EvidenceChain := list EvidenceRecord.

(** ["0" * 64] *)
Definition genesis_hash : string := zeros 64.

Definition EvidenceChain_digest (data : json) : string := sha256_hex (dumps data).

Definition material (sequence : Z) (recorded_at : datetime) (proposal_id decision_id previous_hash : string)
    (payload : json) : json :=
  JObj [("sequence", JInt sequence); ("recorded_at", JStr (isoformat recorded_at));
        ("proposal_id", JStr proposal_id); ("decision_id", JStr decision_id);
        ("previous_hash", JStr previous_hash); ("payload", payload)].

Definition record_material (r : EvidenceRecord) : json :=
  material (sequence r) (recorded_at r) (ev_proposal_id r) (ev_decision_id r) (previous_hash r) (payload r).

(** The hash a next record must name. *)
Definition head_hash (c : EvidenceChain) : string :=
  match last c with Some r => record_hash r | None => genesis_hash end.

(** The record [append] builds at clock reading [at]. *)
Definition next_record (c : EvidenceChain) (at_ : datetime) (pid did : string) (p : json) : EvidenceRecord :=
  mk_EvidenceRecord (Z.of_nat (length c)) at_ pid did (head_hash c) p
    (EvidenceChain_digest (material (Z.of_nat (length c)) at_ pid did (head_hash c) p)).

Section evidence.
Context {E : Env}.

(** [EvidenceChain.append]: the state is the record list and the world. *)
Definition EvidenceChain_append (pid did : string) (p : json) :
    M (EvidenceChain * World) EvidenceRecord := λ st,
  let '(c, w) := st in
  match now_utc w with
  | (Ok at_, w) => let r := next_record c at_ pid did p in (Ok r, (c ++ [r], w))
  | (Raise e, w) => (Raise e, (c, w))
  end.

Lemma append_run pid did p c w :
  EvidenceChain_append pid did p (c, w)
  = (Ok (next_record c (clock_at (w_clock w)) pid did p),
     (c ++ [next_record c (clock_at (w_clock w)) pid did p], mk_World (S (w_clock w)) (w_uuid w))).
Proof using Type. done. Qed.
End evidence.

Fixpoint verify_from (previous : string) (c : EvidenceChain) : bool :=
  match c with
  | [] => true
  | r :: c =>
      if negb (bool_decide (previous_hash r = previous))
         || negb (bool_decide (record_hash r = EvidenceChain_digest (record_material r)))
      then false
      else verify_from (record_hash r) c
  end.

Definition EvidenceChain_verify (c : EvidenceChain) : bool := verify_from genesis_hash c.

(** ** Appending preserves verification *)
Lemma verify_from_app h c c' :
  verify_from h (c ++ c') = verify_from h c && verify_from (default h (record_hash <$> last c)) c'.
Proof.
  revert h. induction c as [|r c IH]; intros h; simpl; [done|].
  destruct (_ || _); [done|]. rewrite IH. f_equal. rewrite last_cons. by destruct (last c).
Qed.

Lemma verify_app_one c r :
  EvidenceChain_verify (c ++ [r]) = true
  ↔ EvidenceChain_verify c = true ∧ previous_hash r = head_hash c
    ∧ record_hash r = EvidenceChain_digest (record_material r).
Proof.
  unfold EvidenceChain_verify. rewrite verify_from_app, andb_true_iff. unfold head_hash. simpl.
  destruct (last c); simpl; do 2 case_bool_decide; simpl; naive_solver.
Qed.

Lemma verify_next c at_ pid did p :
  EvidenceChain_verify c = true → EvidenceChain_verify (c ++ [next_record c at_ pid did p]) = true.
Proof. intros. by apply verify_app_one. Qed.

(** Positions are sequence numbers, for chains grown by [append]. *)
Definition numbered (c : EvidenceChain) : Prop := ∀ i r, c !! i = Some r → sequence r = Z.of_nat i.

Lemma numbered_next c at_ pid did p : numbered c → numbered (c ++ [next_record c at_ pid did p]).
Proof.
  intros Hn i r. rewrite lookup_app_Some. intros [?|[? Hi]]; [by apply Hn|].
  apply list_lookup_singleton_Some in Hi as [Hi <-]. simpl. lia.
Qed.

(** [append] always succeeds, adds exactly one record at the end that names
    the head of the chain, carries its position as sequence number and the given
    identifiers and payload, and keeps a verified chain verified. *)
Theorem append_extends `{Env} pid did p c w :
  ∃ r w', EvidenceChain_append pid did p (c, w) = (Ok r, (c ++ [r], w'))
    ∧ sequence r = Z.of_nat (length c) ∧ previous_hash r = head_hash c
    ∧ ev_proposal_id r = pid ∧ ev_decision_id r = did ∧ payload r = p
    ∧ head_hash (c ++ [r]) = record_hash r ∧ is_sha256 (record_hash r) = true
    ∧ (EvidenceChain_verify c = true → EvidenceChain_verify (c ++ [r]) = true).
Proof.
  rewrite append_run. eexists _, _. split; [done|]. unfold head_hash. rewrite last_snoc.
  split_and!; try done; [apply sha256_hex_shape|]. intros. by apply verify_next.
Qed.

(** ** What the last hash determines *)
(** Everything of a record that its hash covers, with the payload up to key order. *)
Definition record_view (r : EvidenceRecord) : Z * string * string * string * string * json * string :=
  (sequence r, isoformat (recorded_at r), ev_proposal_id r, ev_decision_id r, previous_hash r,
   canon (payload r), record_hash r).

(** Two records whose hashed bytes differ and have the same SHA-256. *)
Definition collision (r r' : EvidenceRecord) : Prop :=
  dumps (record_material r) ≠ dumps (record_material r')
  ∧ EvidenceChain_digest (record_material r) = EvidenceChain_digest (record_material r').

Definition payload_ok (r : EvidenceRecord) : Prop := json_ok (payload r) = true.

Lemma record_material_ok r : payload_ok r → json_ok (record_material r) = true.
Proof.
  unfold payload_ok. intros Hok. unfold record_material, material. cbn [json_ok].
  apply andb_true_iff. split; [reflexivity|]. simpl. by rewrite Hok.
Qed.

Lemma canon_material_inj r r' :
  canon (record_material r) = canon (record_material r') → record_hash r = record_hash r' →
  record_view r = record_view r'.
Proof.
  unfold record_material, material. intros Hc Hh.
  assert (Hs : ∀ s t d i v q, canon (material s t d i v q)
    = JObj [("decision_id", JStr i); ("payload", canon q); ("previous_hash", JStr v);
            ("proposal_id", JStr d); ("recorded_at", JStr (isoformat t)); ("sequence", JInt s)])
    by reflexivity.
  unfold material in Hs. rewrite !Hs in Hc. unfold record_view.
  injection Hc as -> -> -> -> -> ->. by rewrite Hh.
Qed.

Lemma digest_binds r r' :
  payload_ok r → payload_ok r' →
  record_hash r = EvidenceChain_digest (record_material r) →
  record_hash r' = EvidenceChain_digest (record_material r') →
  record_hash r = record_hash r' → record_view r = record_view r' ∨ collision r r'.
Proof.
  intros Hok Hok' Hr Hr' Hh.
  destruct (decide (dumps (record_material r) = dumps (record_material r'))) as [Heq|Hne].
  - left. apply canon_material_inj; [|done].
    apply dumps_inj; auto using record_material_ok.
  - right. split; [done|]. congruence.
Qed.

(** The head hash of a verified chain pins the whole chain: two verified
    chains with the same head have the same records (up to the key order of
    payloads), unless two of their records exhibit a SHA-256 collision or one of
    their records hashes to sixty-four zeros. *)
Theorem verify_binding c c' :
  Forall payload_ok c → Forall payload_ok c' →
  EvidenceChain_verify c = true → EvidenceChain_verify c' = true → head_hash c = head_hash c' →
  record_view <$> c = record_view <$> c'
  ∨ (∃ r r', r ∈ c ∧ r' ∈ c' ∧ collision r r')
  ∨ (∃ r, r ∈ c ++ c' ∧ record_hash r = genesis_hash).
Proof.
  revert c'. induction c as [|r c IH] using rev_ind; intros c' Hok Hok' Hv Hv' Hh;
    destruct c' as [|r' c' _] using rev_ind; [by left| | |].
  - right; right. exists r'. unfold head_hash in Hh. rewrite last_snoc in Hh.
    split; [set_solver|done].
  - right; right. exists r. unfold head_hash in Hh. rewrite last_snoc in Hh.
    split; [set_solver|done].
  - apply verify_app_one in Hv as (Hv & Hp & Hr), Hv' as (Hv' & Hp' & Hr').
    apply Forall_app in Hok as [Hok [Hor _]%Forall_cons], Hok' as [Hok' [Hor' _]%Forall_cons].
    unfold head_hash in Hh. rewrite !last_snoc in Hh.
    destruct (digest_binds r r' Hor Hor' Hr Hr' Hh) as [Hview|Hcol].
    + assert (previous_hash r = previous_hash r') as Hprev by (unfold record_view in Hview; congruence).
      destruct (IH c' Hok Hok' Hv Hv') as [Heq|[(x & y & ? & ? & ?)|(x & ? & ?)]]; [congruence|..].
      * left. by rewrite !fmap_app, Heq, !list_fmap_singleton, Hview.
      * right; left. exists x, y. set_solver.
      * right; right. exists x. split; [set_solver|done].
    + right; left. exists r, r'. set_solver.
Qed.

(** Two one-record chains whose payloads differ in key order. *)
Definition demo_chain (p : json) : EvidenceChain := [next_record [] (utc 0) "proposal-1" "decision-1" p].
Lemma verify_binding_witness :
  let c := demo_chain (JObj [("a", JInt 1); ("b", JNull)]) in
  let c' := demo_chain (JObj [("b", JNull); ("a", JInt 1)]) in
  record_view <$> c = record_view <$> c'
  ∨ (∃ r r', r ∈ c ∧ r' ∈ c' ∧ collision r r')
  ∨ (∃ r, r ∈ c ++ c' ∧ record_hash r = genesis_hash).
Proof.
  intros c c'. apply verify_binding;
    [repeat constructor|repeat constructor|vm_compute; reflexivity..].
Defined.
