(* ===== verification/Admission.v ===== *)
(** * The degraded-operation admission interface
    ([src/src/aegis_ot/m5_degraded.py], [DegradedAdmissionResult])

    What the gateway asks of a degraded-operation gate, as a class: an
    evaluation that may change the gate's own state, may raise, and returns a
    constructed [DegradedAdmissionResult]. *)
From S2P Require Import Prelude PyFloat PyStr PyTime PyJson Sha256 Models.

Inductive DegradedRole :=
  | IDENTITY | POLICY | EVIDENCE | GATEWAY | OBSERVER | EVALUATOR | COORDINATION | MANAGEMENT
  | OT_ADAPTER.
#[export] Instance DegradedRole_eq_dec : EqDecision DegradedRole.
Proof. solve_decision. Defined.

(** The enumeration in its order. *)
Definition all_roles : list DegradedRole :=
  [IDENTITY; POLICY; EVIDENCE; GATEWAY; OBSERVER; EVALUATOR; COORDINATION; MANAGEMENT; OT_ADAPTER].

Definition DegradedRole_value (r : DegradedRole) : string :=
  match r with
  | IDENTITY => "identity" | POLICY => "policy" | EVIDENCE => "evidence" | GATEWAY => "gateway"
  | OBSERVER => "observer" | EVALUATOR => "candidate_evaluator" | COORDINATION => "coordination"
  | MANAGEMENT => "management" | OT_ADAPTER => "ot_adapter"
  end.

Inductive DegradedAdmissionOutcome := CONTINUE_PRIMARY_ASSURANCE | SAFE_STATE | HOLD_STATE.
#[export] Instance DegradedAdmissionOutcome_eq_dec : EqDecision DegradedAdmissionOutcome.
Proof. solve_decision. Defined.

Record DegradedAdmissionResult := mk_DegradedAdmissionResult {
  admission_outcome : DegradedAdmissionOutcome;
  admission_reasons : list string;
  admission_evaluated_at : datetime;
  snapshot_sha256 : string;
  authorization_sha256 : option string;
  mode_name : option string;
  admission_affected_roles : list DegradedRole;
  recovery_checkpoint_id : option string;
  may_enter_primary_assurance : bool;
  execution_authorized : bool;
  observable_event_sha256 : string;
}.

Fixpoint sorted_by_value (l : list DegradedRole) : bool :=
  match l with
  | a :: (b :: _) as l' => str_leb (DegradedRole_value a) (DegradedRole_value b) && sorted_by_value l'
  | _ => true
  end.

Definition DegradedAdmissionResult_validate (r : DegradedAdmissionResult) :
    result DegradedAdmissionResult :=
  _ ← require (negb (bool_decide (admission_reasons r = []))
               && is_sha256 (snapshot_sha256 r)
               && match authorization_sha256 r with Some d => is_sha256 d | None => true end
               && is_sha256 (observable_event_sha256 r))
      "ValidationError" "field constraint";
  _ ← require (dt_aware (admission_evaluated_at r)) "ValidationError"
      "degraded admission result time must be timezone-aware";
  _ ← require (Bool.eqb (may_enter_primary_assurance r)
                 (bool_decide (admission_outcome r = CONTINUE_PRIMARY_ASSURANCE)))
      "ValidationError" "degraded outcome and primary-assurance flag disagree";
  _ ← require (negb (execution_authorized r)) "ValidationError"
      "degraded admission cannot authorize execution";
  _ ← require (bool_decide (NoDup (admission_reasons r))) "ValidationError"
      "degraded admission reasons must be unique";
  _ ← require (sorted_by_value (admission_affected_roles r)) "ValidationError"
      "affected degraded roles must be sorted";
  Ok r.

Lemma DegradedAdmissionResult_validate_Ok r r' :
  DegradedAdmissionResult_validate r = Ok r' →
  r' = r ∧ admission_reasons r ≠ [] ∧ execution_authorized r = false
  ∧ may_enter_primary_assurance r
    = bool_decide (admission_outcome r = CONTINUE_PRIMARY_ASSURANCE).
Proof.
  unfold DegradedAdmissionResult_validate. intros H. inv_ok.
  split_and!; auto. by apply eqb_prop.
Qed.

Class AdmissionGate (G : Type) :=
  gate_evaluate : ActionProposal → datetime → M G DegradedAdmissionResult.

Class AdmissionGateLaws (G : Type) `{AdmissionGate G} : Prop := {
  gate_result_valid : ∀ p now g r g',
    gate_evaluate p now g = (Ok r, g') → DegradedAdmissionResult_validate r = Ok r;
}.
