(* ===== verification/Delegation.v ===== *)
(** * Delegation grants and full-chain validation ([src/src/aegis_ot/delegation.py])

    [DelegationValidator_validate] follows the source's two loops and the leaf
    checks.  [valid_chain] is the abstract contract: every grant of the chain is
    known, authentic, unrevoked and active, each link attenuates its parent, and
    the leaf covers the proposal.  [validate_valid_iff] is the refinement. *)
From S2P Require Import Prelude PyFloat PyStr PyTime PyJson Crypto Models.

Record DelegationGrant := mk_DelegationGrant {
  grant_id : string;
  issuer_id : string;
  subject_id : string;
  grant_mission_id : string;
  resources : gset string;
  operations : gset Operation;
  not_before : datetime;
  expires_at : datetime;
  risk_limit : float;
  delegation_depth_remaining : Z;
  parent_grant_id : option string;
  grant_signature : string;
}.

Definition DelegationGrant_validate (g : DelegationGrant) : result DelegationGrant :=
  _ ← require (min_length 1 (grant_id g) && min_length 1 (issuer_id g)
               && min_length 1 (subject_id g) && min_length 1 (grant_mission_id g)
               && negb (bool_decide (resources g = ∅)) && negb (bool_decide (operations g = ∅))
               && f_between f0 f100 (risk_limit g) && (0 <=? delegation_depth_remaining g)%Z)
      "ValidationError" "field constraint";
  _ ← require (dt_aware (not_before g) && dt_aware (expires_at g))
      "ValidationError" "grant timestamps must be timezone-aware";
  _ ← require (negb (dt_leb (expires_at g) (not_before g)))
      "ValidationError" "grant expiry must follow not_before";
  Ok g.

Definition with_signature (g : DelegationGrant) (s : string) : DelegationGrant :=
  mk_DelegationGrant (grant_id g) (issuer_id g) (subject_id g) (grant_mission_id g) (resources g)
    (operations g) (not_before g) (expires_at g) (risk_limit g) (delegation_depth_remaining g)
    (parent_grant_id g) s.

Record DelegationValidation := mk_DelegationValidation { valid : bool; reasons : list string }.

Section delegation.
Context {ED : Ed25519} {MD : ModelDump DelegationGrant}.

Definition signing_bytes (g : DelegationGrant) : string :=
  dumps (json_exclude ["signature"] (model_dump g)).

Definition grant_signed (g : DelegationGrant) (k : private_key) : DelegationGrant :=
  with_signature g (sign_bytes k (signing_bytes g)).

Record DelegationValidator := mk_DelegationValidator {
  grants : gmap string DelegationGrant;
  public_keys : gmap string public_key;
  revoked : gset string;
}.

Definition DelegationValidator_revoke (v : DelegationValidator) (gid : string) : DelegationValidator :=
  mk_DelegationValidator (grants v) (public_keys v) ({[gid]} ∪ revoked v).

(** [key is None or not verify_bytes(...)], negated *)
Definition signature_ok (v : DelegationValidator) (g : DelegationGrant) : bool :=
  match public_keys v !! issuer_id g with
  | Some key => verify_bytes key (signing_bytes g) (grant_signature g)
  | None => false
  end.

Definition grant_active (g : DelegationGrant) (now : datetime) : bool :=
  dt_leb (not_before g) now && dt_leb now (expires_at g).

(** One turn of the first loop: the reasons it adds for a known grant. *)
Definition grant_flags (v : DelegationValidator) (now : datetime) (gid : string)
    (g : DelegationGrant) : list (bool * string) :=
  [(negb (signature_ok v g), "invalid_signature:" +:+ gid);
   (bool_decide (gid ∈ revoked v), "revoked_grant:" +:+ gid);
   (negb (grant_active g now), "inactive_grant:" +:+ gid)].

(** The first loop: the reasons and the grants found, in order. *)
Fixpoint load_chain (v : DelegationValidator) (now : datetime) (ids : list string) :
    list string * list DelegationGrant :=
  match ids with
  | [] => ([], [])
  | gid :: ids =>
      let '(rs, chain) := load_chain v now ids in
      match grants v !! gid with
      | None => (("unknown_grant:" +:+ gid) :: rs, chain)
      | Some g => (collect (grant_flags v now gid g) ++ rs, g :: chain)
      end
  end.

(** The checks of a grant against its parent. *)
Definition link_flags (parent g : DelegationGrant) : list (bool * string) :=
  [(negb (bool_decide (parent_grant_id g = Some (grant_id parent))), "broken_parent_link:" +:+ grant_id g);
   (negb (bool_decide (issuer_id g = subject_id parent)), "issuer_subject_mismatch:" +:+ grant_id g);
   (negb (bool_decide (resources g ⊆ resources parent)), "resource_amplification:" +:+ grant_id g);
   (negb (bool_decide (operations g ⊆ operations parent)), "operation_amplification:" +:+ grant_id g);
   (fltb (risk_limit parent) (risk_limit g), "risk_amplification:" +:+ grant_id g);
   ((delegation_depth_remaining parent <=? delegation_depth_remaining g)%Z,
    "depth_not_attenuated:" +:+ grant_id g);
   (dt_ltb (not_before g) (not_before parent) || dt_ltb (expires_at parent) (expires_at g),
    "time_amplification:" +:+ grant_id g)].

(** The second loop, past the root. *)
Fixpoint check_links (parent : DelegationGrant) (chain : list DelegationGrant) : list string :=
  match chain with
  | [] => []
  | g :: chain => collect (link_flags parent g) ++ check_links g chain
  end.

Definition check_chain (chain : list DelegationGrant) : list string :=
  match chain with
  | [] => []
  | root :: rest =>
      collect [(negb (bool_decide (parent_grant_id root = None)), "root_has_parent")]
      ++ check_links root rest
  end.

Definition leaf_flags (p : ActionProposal) (leaf : DelegationGrant) : list (bool * string) :=
  [(negb (bool_decide (subject_id leaf = actor_id p)), "leaf_subject_mismatch");
   (negb (bool_decide (grant_mission_id leaf = mission_id p)), "mission_out_of_scope");
   (negb (bool_decide (resource p ∈ resources leaf)), "resource_out_of_scope");
   (negb (bool_decide (operation p ∈ operations leaf)), "operation_out_of_scope");
   (fltb (risk_limit leaf) (risk_score p), "risk_out_of_scope")].

Definition DelegationValidator_validate (v : DelegationValidator) (p : ActionProposal)
    (now : datetime) : DelegationValidation :=
  let chain_ids := delegation_chain p in
  if negb (bool_decide (NoDup chain_ids)) then
    mk_DelegationValidation false ["delegation_cycle"]
  else
    let '(rs, chain) := load_chain v now chain_ids in
    if negb (bool_decide (rs = [])) || negb (bool_decide (length chain = length chain_ids)) then
      mk_DelegationValidation false rs
    else
      let rs := check_chain chain
                ++ match last chain with Some leaf => collect (leaf_flags p leaf) | None => [] end in
      mk_DelegationValidation (bool_decide (rs = [])) rs.

(** The [TypeError] of [not_before <= now <= expires_at], at any grant the loop
    reaches; the second comparison is made when the first holds. *)
Definition window_comparable (g : DelegationGrant) (now : datetime) : bool :=
  comparable (not_before g) now && (negb (dt_leb (not_before g) now) || comparable now (expires_at g)).
Definition validate_comparisons (v : DelegationValidator) (p : ActionProposal) (now : datetime) : result unit :=
  require (negb (bool_decide (NoDup (delegation_chain p)))
           || forallb (λ gid, match grants v !! gid with Some g => window_comparable g now | None => true end)
                (delegation_chain p))
    "TypeError" "can't compare offset-naive and offset-aware datetimes".

(** ** The contract *)
Definition grant_good (v : DelegationValidator) (now : datetime) (gid : string)
    (g : DelegationGrant) : Prop :=
  grants v !! gid = Some g ∧ signature_ok v g = true ∧ (gid ∉ revoked v) ∧ grant_active g now = true.

(** [g] is delegated by the holder of [parent] and gives away no more than it. *)
Record attenuates (parent g : DelegationGrant) : Prop := {
  att_link : parent_grant_id g = Some (grant_id parent);
  att_issuer : issuer_id g = subject_id parent;
  att_resources : resources g ⊆ resources parent;
  att_operations : operations g ⊆ operations parent;
  att_risk : fltb (risk_limit parent) (risk_limit g) = false;
  att_depth : (delegation_depth_remaining g < delegation_depth_remaining parent)%Z;
  att_not_before : dt_leb (not_before parent) (not_before g) = true;
  att_expires : dt_leb (expires_at g) (expires_at parent) = true;
}.

Record covers (leaf : DelegationGrant) (p : ActionProposal) : Prop := {
  cov_subject : subject_id leaf = actor_id p;
  cov_mission : grant_mission_id leaf = mission_id p;
  cov_resource : resource p ∈ resources leaf;
  cov_operation : operation p ∈ operations leaf;
  cov_risk : fltb (risk_limit leaf) (risk_score p) = false;
}.

Inductive linked : DelegationGrant → list DelegationGrant → Prop :=
  | linked_nil g : linked g []
  | linked_cons parent g rest : attenuates parent g → linked g rest → linked parent (g :: rest).

Record valid_chain (v : DelegationValidator) (now : datetime) (p : ActionProposal)
    (root : DelegationGrant) (rest : list DelegationGrant) : Prop := {
  vc_nodup : NoDup (delegation_chain p);
  vc_good : Forall2 (grant_good v now) (delegation_chain p) (root :: rest);
  vc_root : parent_grant_id root = None;
  vc_linked : linked root rest;
  vc_leaf : ∃ leaf, last (root :: rest) = Some leaf ∧ covers leaf p;
}.

(** ** Refinement *)
Lemma grant_flags_nil v now gid g :
  grants v !! gid = Some g → collect (grant_flags v now gid g) = [] ↔ grant_good v now gid g.
Proof using Type.
  intros Hg. unfold grant_good. rewrite collect_nil. unfold grant_flags.
  rewrite !Forall_cons, Forall_nil. simpl.
  rewrite !negb_false_iff, bool_decide_eq_false. naive_solver.
Qed.

Lemma load_chain_nil v now ids chain :
  load_chain v now ids = ([], chain) ↔ Forall2 (grant_good v now) ids chain.
Proof using Type.
  revert chain. induction ids as [|gid ids IH]; intros chain; simpl.
  - split; [by intros [= <-]|by inversion 1].
  - destruct (load_chain v now ids) as [rs chain'].
    destruct (grants v !! gid) as [g|] eqn:Hg.
    + split.
      * intros [= [Hf ->]%app_nil <-]. constructor; [by apply grant_flags_nil|by apply IH].
      * inversion 1 as [|? g' ? chain'' Hgood Hrest]; subst.
        assert (g' = g) as -> by (destruct Hgood; congruence).
        apply IH in Hrest as [= -> ->]. by rewrite (proj2 (grant_flags_nil v now gid g Hg) Hgood).
    + split; [done|]. inversion 1 as [|? g' ? chain'' [Hgood _] Hrest]; congruence.
Qed.

Lemma link_flags_nil parent g : collect (link_flags parent g) = [] ↔ attenuates parent g.
Proof using Type.
  rewrite collect_nil. unfold link_flags. rewrite !Forall_cons, Forall_nil. simpl.
  rewrite !negb_false_iff, !bool_decide_eq_true, Z.leb_gt, orb_false_iff.
  unfold dt_ltb. rewrite !Z.ltb_ge.
  split; [intros (?&?&?&?&?&?&[??]&_); split; unfold dt_leb; rewrite ?Z.leb_le; auto|].
  intros []; unfold dt_leb in *; rewrite ?Z.leb_le in *; auto 10.
Qed.

Lemma check_links_nil parent chain : check_links parent chain = [] ↔ linked parent chain.
Proof using Type.
  revert parent. induction chain as [|g chain IH]; intros parent; simpl.
  - split; [constructor|done].
  - rewrite app_nil, link_flags_nil, IH. split; [intros []; by constructor|by inversion 1].
Qed.

Lemma leaf_flags_nil p leaf : collect (leaf_flags p leaf) = [] ↔ covers leaf p.
Proof using Type.
  rewrite collect_nil. unfold leaf_flags. rewrite !Forall_cons, Forall_nil. simpl.
  rewrite !negb_false_iff, !bool_decide_eq_true.
  split; [intros (?&?&?&?&?&_); by split|intros []; auto 10].
Qed.

Lemma load_chain_length v now ids rs chain :
  load_chain v now ids = (rs, chain) → rs = [] → length chain = length ids.
Proof using Type.
  intros H ->. apply load_chain_nil in H. symmetry. by eapply Forall2_length.
Qed.

(** The verdict and the reasons agree. *)
Lemma validate_reasons v p now :
  valid (DelegationValidator_validate v p now) = true
  ↔ reasons (DelegationValidator_validate v p now) = [].
Proof using Type.
  unfold DelegationValidator_validate. case_bool_decide; simpl; [|done].
  destruct (load_chain v now (delegation_chain p)) as [rs chain] eqn:E.
  case_bool_decide as Hrs; simpl.
  - rewrite (load_chain_length _ _ _ _ _ E Hrs), bool_decide_eq_true_2 by done. simpl.
    by rewrite bool_decide_eq_true.
  - done.
Qed.

Lemma last_is_Some (root : DelegationGrant) rest : is_Some (last (root :: rest)).
Proof using Type. rewrite last_cons. destruct (last rest); eauto. Qed.

Lemma validate_iff_chain v p now :
  delegation_chain p ≠ [] →
  valid (DelegationValidator_validate v p now) = true
  ↔ ∃ root rest, valid_chain v now p root rest.
Proof using Type.
  intros Hne. unfold DelegationValidator_validate. split.
  - case_bool_decide as Hnd; simpl; [|done].
    destruct (load_chain v now (delegation_chain p)) as [rs chain] eqn:E.
    case_bool_decide as Hrs; [|done]. simpl. subst rs.
    pose proof (load_chain_length _ _ _ _ _ E eq_refl) as Hlen.
    rewrite bool_decide_eq_true_2 by done. simpl.
    apply load_chain_nil in E. rewrite bool_decide_eq_true, app_nil.
    destruct chain as [|root rest]; [by destruct (delegation_chain p)|].
    simpl check_chain. rewrite app_nil, check_links_nil.
    destruct (last_is_Some root rest) as [leaf Hleaf]. rewrite Hleaf, leaf_flags_nil.
    intros [[Hroot Hlinks] Hcov]. exists root, rest. split; eauto.
    case_bool_decide; done.
  - intros (root & rest & [Hnd Hgood Hroot Hlinks (leaf & Hleaf & Hcov)]).
    rewrite bool_decide_eq_true_2 by done. simpl.
    rewrite (proj2 (load_chain_nil _ _ _ _) Hgood), <- (Forall2_length _ _ _ Hgood).
    rewrite !bool_decide_eq_true_2 by done. simpl. rewrite bool_decide_eq_true, Hleaf.
    rewrite (proj2 (check_links_nil _ _) Hlinks), (proj2 (leaf_flags_nil _ _) Hcov).
    by rewrite Hroot.
Qed.

(** C11 [validate] accepts a proposal exactly when the grants its chain names
    form a [valid_chain]: known, signed by the issuer's registered key,
    unrevoked, active, linked without amplification to a parentless root, and
    covering the proposal at the leaf; and it gives a reason exactly when it
    refuses. *)
Theorem validate_valid_iff v p now :
  delegation_chain p ≠ [] →
  (valid (DelegationValidator_validate v p now) = true ↔ ∃ root rest, valid_chain v now p root rest)
  ∧ (valid (DelegationValidator_validate v p now) = true
     ↔ reasons (DelegationValidator_validate v p now) = []).
Proof using Type. split; [by apply validate_iff_chain|apply validate_reasons]. Qed.

(** ** Attenuation along the whole chain *)
Definition within (root g : DelegationGrant) : Prop :=
  resources g ⊆ resources root ∧ operations g ⊆ operations root
  ∧ fleb (risk_limit g) (risk_limit root) = true
  ∧ dt_leb (not_before root) (not_before g) = true
  ∧ dt_leb (expires_at g) (expires_at root) = true.

Lemma dt_leb_trans a b c : dt_leb a b = true → dt_leb b c = true → dt_leb a c = true.
Proof using Type. unfold dt_leb. lia. Qed.

Lemma within_trans a b c : within a b → within b c → within a c.
Proof using Type.
  intros (?&?&?&?&?) (?&?&?&?&?).
  split_and!; (by etrans) || by eauto using fleb_trans, dt_leb_trans.
Qed.

Definition finite_risk (g : DelegationGrant) : Prop := is_nan (risk_limit g) = false.

Lemma within_refl g : finite_risk g → within g g.
Proof using Type.
  intros. split_and!; [done|done|by apply fleb_refl|unfold dt_leb; lia..].
Qed.

Lemma attenuates_within a b : finite_risk a → finite_risk b → attenuates a b → within a b.
Proof using Type. intros ?? []. split_and!; auto. by apply fltb_false_fleb. Qed.

(** Every grant of a linked chain is within the root, and each step down costs
    a unit of delegation depth. *)
Lemma linked_within root rest i g :
  linked root rest → Forall finite_risk (root :: rest) → (root :: rest) !! i = Some g →
  within root g ∧ (delegation_depth_remaining g + Z.of_nat i <= delegation_depth_remaining root)%Z.
Proof using Type.
  intros Hl. revert i g. induction Hl as [root|root h rest Hatt Hl IH]; intros i g HF Hi.
  - destruct i; simplify_eq/=. apply Forall_cons in HF as [Hr _].
    split; [by apply within_refl|lia].
  - apply Forall_cons in HF as [Hr HF]. destruct i as [|i]; simplify_eq/=.
    + split; [by apply within_refl|lia].
    + destruct (IH i g HF Hi) as [Hw Hd]. apply Forall_cons in HF as [Hh _].
      split; [eapply within_trans; [by apply attenuates_within|done]|].
      destruct Hatt. lia.
Qed.

Definition grants_validated (v : DelegationValidator) : Prop :=
  ∀ gid g, grants v !! gid = Some g → DelegationGrant_validate g = Ok g.

Lemma DelegationGrant_validate_Ok g g' :
  DelegationGrant_validate g = Ok g' →
  g' = g ∧ finite_risk g ∧ (0 <= delegation_depth_remaining g)%Z
  ∧ dt_ltb (not_before g) (expires_at g) = true.
Proof using Type.
  unfold DelegationGrant_validate, f_between, dt_leb, dt_ltb, finite_risk. intros H. inv_ok.
  split_and!; auto using is_finite_not_nan. lia.
Qed.

(** Constructed grants and an aware time are comparable. *)
Lemma DelegationGrant_validate_aware g g' :
  DelegationGrant_validate g = Ok g' → dt_aware (not_before g) = true ∧ dt_aware (expires_at g) = true.
Proof using Type. unfold DelegationGrant_validate. intros H. inv_ok. done. Qed.
Lemma validate_comparisons_aware v p now :
  grants_validated v → dt_aware now = true → validate_comparisons v p now = Ok tt.
Proof using Type.
  intros Hv Hn. unfold validate_comparisons. apply require_Ok, orb_true_iff. right.
  apply forallb_forall. intros gid _. destruct (grants v !! gid) as [g|] eqn:Hg; [|done].
  destruct (DelegationGrant_validate_aware g g) as [H1 H2]; [by eapply Hv|].
  unfold window_comparable, comparable. rewrite Hn, H1, H2. by rewrite orb_true_r.
Qed.

(** C12 No accepted proposal exceeds its root grant: the chain starts at a
    registered parentless grant whose resources, operations, risk limit and
    time window contain the proposal's, and is no longer than the root's
    delegation depth allows; this holds however many grants lie between. *)
Theorem validate_bounded_by_root v p now :
  delegation_chain p ≠ [] → grants_validated v → is_nan (risk_score p) = false →
  valid (DelegationValidator_validate v p now) = true →
  ∃ rid root, head (delegation_chain p) = Some rid ∧ grants v !! rid = Some root
    ∧ parent_grant_id root = None
    ∧ resource p ∈ resources root ∧ operation p ∈ operations root
    ∧ fleb (risk_score p) (risk_limit root) = true
    ∧ grant_active root now = true
    ∧ (Z.of_nat (length (delegation_chain p)) <= delegation_depth_remaining root + 1)%Z.
Proof using Type.
  intros Hne Hv Hrisk. rewrite validate_iff_chain by done.
  intros (root & rest & [Hnd Hgood Hroot Hlinks (leaf & Hleaf & Hcov)]).
  destruct (delegation_chain p) as [|rid ids] eqn:Hids; [done|].
  pose proof (Forall2_length _ _ _ Hgood) as Hlen.
  assert (HF : Forall (λ g, finite_risk g ∧ (0 <= delegation_depth_remaining g)%Z) (root :: rest)).
  { eapply Forall2_Forall_r; [done|]. apply Forall_forall. intros gid _ g [Hg _].
    destruct (DelegationGrant_validate_Ok g g) as (_&?&?&_); eauto. }
  assert (HF' : Forall finite_risk (root :: rest)) by (eapply Forall_impl; [exact HF|naive_solver]).
  rewrite last_lookup in Hleaf.
  destruct (linked_within _ _ _ _ Hlinks HF' Hleaf) as [(?&?&?&?&?) Hdepth].
  rewrite Forall_lookup in HF. destruct (HF _ _ Hleaf) as [Hlr Hld].
  apply Forall2_cons in Hgood as [(Hg & _ & _ & Hact) _].
  destruct Hcov as [_ _ Hres Hop Hcr].
  exists rid, root. split_and!; eauto using fleb_trans, fltb_false_fleb.
  simpl in *. lia.
Qed.

(** ** Revocation *)
Lemma load_chain_revoke v now gid ids :
  gid ∉ ids → load_chain (DelegationValidator_revoke v gid) now ids = load_chain v now ids.
Proof using Type.
  induction ids as [|i ids IH]; simpl; [done|]. rewrite not_elem_of_cons. intros [Hne Hids].
  rewrite (IH Hids). destruct (load_chain v now ids) as [rs chain].
  destruct (grants v !! i) as [g|]; [|done]. do 3 f_equal. unfold grant_flags. simpl.
  do 3 f_equal. apply bool_decide_ext. set_solver.
Qed.

(** Revoking a grant invalidates, at every later evaluation, exactly the
    proposals whose chain names it: those become invalid, and the verdict and
    reasons of every other proposal are unchanged. *)
Theorem revoke_effect v gid p now :
  (gid ∈ delegation_chain p →
     valid (DelegationValidator_validate (DelegationValidator_revoke v gid) p now) = false)
  ∧ (gid ∉ delegation_chain p →
     DelegationValidator_validate (DelegationValidator_revoke v gid) p now
     = DelegationValidator_validate v p now).
Proof using Type.
  split.
  - intros Hin. apply not_true_iff_false.
    rewrite validate_iff_chain by (intros E; rewrite E in Hin; set_solver).
    intros (root & rest & [_ Hgood _ _ _]).
    apply list_elem_of_lookup in Hin as [i Hi].
    destruct (Forall2_lookup_l _ _ _ _ _ Hgood Hi) as (g & _ & _ & _ & Hrev & _).
    apply Hrev. simpl. set_solver.
  - intros Hni. unfold DelegationValidator_validate. by rewrite load_chain_revoke.
Qed.
End delegation.

(** ** A concrete chain *)
Module DelegationDemo.
Import DemoEd25519 ModelsDemo.

(** pydantic's JSON form of a grant; a set is dumped in some order of its elements. *)
#[export] Instance demo_grant_dump : ModelDump DelegationGrant := λ g,
  JObj [("grant_id", JStr (grant_id g)); ("issuer_id", JStr (issuer_id g));
        ("subject_id", JStr (subject_id g)); ("mission_id", JStr (grant_mission_id g));
        ("resources", JArr (JStr <$> elements (resources g)));
        ("operations", JArr (JStr ∘ Operation_value <$> elements (operations g)));
        ("not_before", JStr (isoformat (not_before g)));
        ("expires_at", JStr (isoformat (expires_at g)));
        ("risk_limit", JFloat (risk_limit g));
        ("delegation_depth_remaining", JInt (delegation_depth_remaining g));
        ("parent_grant_id", match parent_grant_id g with Some i => JStr i | None => JNull end);
        ("signature", JStr (grant_signature g))].

Definition root_grant : DelegationGrant := grant_signed
  (mk_DelegationGrant "grant-root" "human:pi" "agent:supervisor" "microgrid"
    {["feeder-1"; "feeder-2"; "battery-1"]}
    {[ISOLATE_ASSET; RESTORE_ASSET; SHED_LOAD; DISPATCH_BATTERY]}
    (utc (t0 - minutes 1)) (utc (t0 + hours 1)) (flit 90 1) 2 None "") "root-key".
Definition leaf_grant : DelegationGrant := grant_signed
  (mk_DelegationGrant "grant-leaf" "agent:supervisor" "agent:operator-1" "microgrid"
    {["feeder-1"; "battery-1"]} {[ISOLATE_ASSET; DISPATCH_BATTERY]}
    (utc (t0 - seconds 30)) (utc (t0 + minutes 30)) (flit 74 1) 1 (Some "grant-root") "")
  "supervisor-key".
Definition validator : DelegationValidator :=
  mk_DelegationValidator {["grant-root" := root_grant; "grant-leaf" := leaf_grant]}
    {["human:pi" := "root-key"; "agent:supervisor" := "supervisor-key"]} ∅.
Example chain_accepted : DelegationValidator_validate validator proposal now = mk_DelegationValidation true [].
Proof. vm_compute. reflexivity. Qed.

(** The leaf alone is refused: it is not a root. *)
Example leaf_alone_refused :
  DelegationValidator_validate validator
    (mk_ActionProposal "proposal-1" "agent:operator-1" "microgrid" "feeder-2" ISOLATE_ASSET []
       1 (utc t0) (utc t0) "nonce-0123456789abcdef" (flit 9 10) (flit 80 1) ["grant-leaf"] None) now
  = mk_DelegationValidation false ["root_has_parent"; "resource_out_of_scope"; "risk_out_of_scope"].
Proof. vm_compute. reflexivity. Qed.
End DelegationDemo.

Import DemoEd25519 ModelsDemo DelegationDemo.

Lemma validate_valid_iff_witness :
  ∃ root rest, valid_chain validator now proposal root rest.
Proof.
  destruct (validate_valid_iff validator proposal now) as [H _]; [done|].
  apply H. vm_compute. reflexivity.
Defined.

Lemma demo_grants_validated : grants_validated validator.
Proof.
  intros gid g H. unfold validator in H. simpl in H. apply lookup_insert_Some in H as [[_ <-]|[_ H]]; [vm_compute; reflexivity|].
  apply lookup_singleton_Some in H as [_ <-]. vm_compute. reflexivity.
Qed.

Lemma validate_bounded_by_root_witness :
  ∃ rid root, head (delegation_chain proposal) = Some rid ∧ grants validator !! rid = Some root
    ∧ parent_grant_id root = None
    ∧ resource proposal ∈ resources root ∧ operation proposal ∈ operations root
    ∧ fleb (risk_score proposal) (risk_limit root) = true
    ∧ grant_active root now = true
    ∧ (Z.of_nat (length (delegation_chain proposal)) <= delegation_depth_remaining root + 1)%Z.
Proof.
  apply validate_bounded_by_root;
    [done|apply demo_grants_validated|done|vm_compute; reflexivity].
Defined.
