(* ===== verification/Gateway.v ===== *)
(** * The authorization gateway ([src/src/aegis_ot/gateway.py])

    [decide] is [AegisGateway.decide]: the optional degraded-operation admission,
    then identity, delegation, freshness, policy, safety and replay, one evidence
    record, and the decision naming it.  The identity verifier, the policy engine
    and the admission gate are used through their interfaces. *)
From S2P Require Import Prelude PyFloat PyStr PyTime PyJson Sha256 Crypto Models.
From S2P Require Import Delegation Replay Policy Safety Evidence Admission.

Record AegisGateway {I P : Type} := mk_AegisGateway {
  gw_identity : I;
  gw_policy : P;
  gw_safety : SafetyKernel;
  maximum_state_age : timedelta;
}.
Arguments AegisGateway : clear implicits.
Arguments mk_AegisGateway {I P}.

Section gateway.
Context {ED : Ed25519} {E : Env}.
Context {I P G : Type} {HI : IdentityVerifier I} {HP : PolicyEngine P} {HG : AdmissionGate G}.
Context {DG : ModelDump DelegationGrant} {DP : ModelDump ActionProposal} {DD : ModelDump Decision}
  {DS : ModelDump SystemState} {DA : ModelDump DegradedAdmissionResult}.

(** What a call may change: the replay ledger, the evidence chain, the gate's
    own state, and the clock and identifier streams.  Grants and revocations
    are read. *)
Record GatewayState := mk_GatewayState {
  gs_delegation : DelegationValidator;
  gs_replay : ReplayLedger;
  gs_evidence : EvidenceChain;
  gs_degraded : option G;
  gs_world : World;
}.

Definition set_replay (r : ReplayLedger) (s : GatewayState) : GatewayState :=
  mk_GatewayState (gs_delegation s) r (gs_evidence s) (gs_degraded s) (gs_world s).
Definition set_degraded (g : G) (s : GatewayState) : GatewayState :=
  mk_GatewayState (gs_delegation s) (gs_replay s) (gs_evidence s) (Some g) (gs_world s).
Definition set_world (w : World) (s : GatewayState) : GatewayState :=
  mk_GatewayState (gs_delegation s) (gs_replay s) (gs_evidence s) (gs_degraded s) w.
Definition set_evidence (ew : EvidenceChain * World) (s : GatewayState) : GatewayState :=
  mk_GatewayState (gs_delegation s) (gs_replay s) ew.1 (gs_degraded s) ew.2.

Definition on_world {A} (m : M World A) : M GatewayState A := zoom gs_world set_world m.
Definition on_evidence {A} (m : M (EvidenceChain * World) A) : M GatewayState A :=
  zoom (λ s, (gs_evidence s, gs_world s)) set_evidence m.

(** [Decision(...)]: the identifier and time defaults are drawn in field order. *)
Definition new_decision (pid : string) (o : DecisionOutcome) (rs : list string)
    (pv sv : string) (v : Z) : M World Decision :=
  did ← uuid4;
  at_ ← now_utc;
  mret (mk_Decision did pid o rs at_ pv sv v None).

Definition dict_of (kv : list (string * json)) : json := JObj kv.

Definition degraded_version : string := "not-evaluated:m5-degraded-pre-authorization".

(** The reasons of a gate that raised, refused or admitted, with its dump. *)
Definition degraded_admission (g : G) (p : ActionProposal) (evaluated_at : datetime) :
    M GatewayState (list string * json) := λ s,
  match gate_evaluate p evaluated_at g with
  | (Ok admission, g') =>
      (Ok ((if may_enter_primary_assurance admission then [] else admission_reasons admission),
           model_dump admission), set_degraded g' s)
  | (Raise e, g') =>
      (if isinstance_exn e "Exception" then Ok (["degraded_admission_unavailable"], JNull)
       else Raise e, set_degraded g' s)
  end.

(** A denial before authorization: one evidence record, nothing else. *)
Definition pre_authorization_denial (p : ActionProposal) (state : SystemState)
    (untrusted_sha : string) (rs : list string) (admission : json) : M GatewayState Decision :=
  let untrusted_id := "untrusted:" +:+ untrusted_sha in
  provisional ← on_world (new_decision untrusted_id DENY rs degraded_version degraded_version
                            (version state));
  state_sha ← lift (canonical_digest (model_dump state));
  record ← on_evidence (EvidenceChain_append untrusted_id (decision_id provisional)
    (dict_of [("event_type", JStr "m5_degraded_pre_authorization_denial");
              ("untrusted_proposal_sha256", JStr untrusted_sha);
              ("decision", model_dump provisional);
              ("trusted_state_sha256", JStr state_sha);
              ("predicted_state", JNull);
              ("degraded_admission", admission)]));
  mret (with_evidence provisional (Some (record_hash record))).

Definition freshness_reasons (gw : AegisGateway I P) (p : ActionProposal) (state : SystemState)
    (evaluated_at : datetime) : list string :=
  let state_age := dt_sub evaluated_at (observed_at state) in
  collect [((state_age <? 0)%Z || (maximum_state_age gw <? state_age)%Z, "state_not_fresh");
           (negb (dt_eqb (proposal_observed_at p) (observed_at state)), "proposal_observation_mismatch")].

(** The reasons that precede the replay check, in the order of the source. *)
Definition assurance_reasons (gw : AegisGateway I P) (d : DelegationValidator) (p : ActionProposal)
    (state : SystemState) (evaluated_at : datetime) (safety : SafetyResult) : list string :=
  (if identity_verify (gw_identity gw) (actor_id p) then [] else ["identity_not_verified"])
  ++ reasons (DelegationValidator_validate d p evaluated_at)
  ++ freshness_reasons gw p state evaluated_at
  ++ policy_reasons (policy_evaluate (gw_policy gw) p state)
  ++ safety_reasons safety.

(** [identity_verified and not self.replay.reserve(...)] *)
Definition replay_check (gw : AegisGateway I P) (p : ActionProposal) (evaluated_at : datetime) :
    M GatewayState (list string) := λ s,
  if identity_verify (gw_identity gw) (actor_id p) then
    let '(fresh, l) := ReplayLedger_reserve (gs_replay s) (nonce p) evaluated_at in
    (Ok (if fresh then [] else ["replayed_nonce"]), set_replay l s)
  else (Ok [], s).

Definition outcome_of (rs : list string) : DecisionOutcome :=
  if bool_decide (rs = ["human_approval_required"]) then REQUIRE_APPROVAL
  else if bool_decide (rs = []) then PERMIT else DENY.

Definition evidence_payload (gw : AegisGateway I P) (p : ActionProposal) (state : SystemState)
    (d : Decision) (safety : SafetyResult) (degraded : option json) : json :=
  dict_of ([("proposal", model_dump p); ("decision", model_dump d); ("state", model_dump state);
            ("predicted_state", model_dump (predicted_state safety));
            ("identity_version", JStr (identity_version (gw_identity gw)))]
           ++ match degraded with Some j => [("degraded_admission", j)] | None => [] end).

(** What may raise before the replay check: the comparisons of [validate], the
    state's age and the safety kernel. *)
Definition checked_safety (gw : AegisGateway I P) (d : DelegationValidator) (p : ActionProposal)
    (state : SystemState) (evaluated_at : datetime) : result SafetyResult :=
  _ ← validate_comparisons d p evaluated_at;
  _ ← require (comparable evaluated_at (observed_at state))
      "TypeError" "can't subtract offset-naive and offset-aware datetimes";
  SafetyKernel_evaluate (gw_safety gw) p state.

Definition primary_assurance (gw : AegisGateway I P) (p : ActionProposal) (state : SystemState)
    (evaluated_at : datetime) (degraded : option json) : M GatewayState Decision :=
  s ← get;
  safety ← lift (checked_safety gw (gs_delegation s) p state evaluated_at);
  let early := assurance_reasons gw (gs_delegation s) p state evaluated_at safety in
  replayed ← replay_check gw p evaluated_at;
  let rs := early ++ replayed in
  provisional ← on_world (new_decision (proposal_id p) (outcome_of rs)
    (if bool_decide (rs = []) then ["all_checks_passed"] else rs)
    (policy_engine_version (gw_policy gw)) (kernel_version (gw_safety gw)) (version state));
  record ← on_evidence (EvidenceChain_append (proposal_id p) (decision_id provisional)
                          (evidence_payload gw p state provisional safety degraded));
  mret (with_evidence provisional (Some (record_hash record))).

Definition decide (gw : AegisGateway I P) (p : ActionProposal) (state : SystemState)
    (now : option datetime) : M GatewayState Decision :=
  evaluated_at ← match now with Some t => mret t | None => on_world now_utc end;
  s ← get;
  match gs_degraded s with
  | None => primary_assurance gw p state evaluated_at None
  | Some g =>
      untrusted_sha ← lift (canonical_digest (model_dump p));
      '(rs, admission) ← degraded_admission g p evaluated_at;
      if bool_decide (rs = [])
      then primary_assurance gw p state evaluated_at (Some admission)
      else pre_authorization_denial p state untrusted_sha rs admission
  end.

(** ** What one call does *)
(** The ledger's answer and its state after the replay check. *)
Definition nonce_fresh (gw : AegisGateway I P) (s : GatewayState) (p : ActionProposal)
    (now : datetime) : bool :=
  if identity_verify (gw_identity gw) (actor_id p)
  then (ReplayLedger_reserve (gs_replay s) (nonce p) now).1 else true.
Definition ledger_after (gw : AegisGateway I P) (s : GatewayState) (p : ActionProposal)
    (now : datetime) : ReplayLedger :=
  if identity_verify (gw_identity gw) (actor_id p)
  then (ReplayLedger_reserve (gs_replay s) (nonce p) now).2 else gs_replay s.

Definition all_reasons (gw : AegisGateway I P) (s : GatewayState) (p : ActionProposal)
    (state : SystemState) (now : datetime) (safety : SafetyResult) : list string :=
  assurance_reasons gw (gs_delegation s) p state now safety
  ++ (if nonce_fresh gw s p now then [] else ["replayed_nonce"]).

Lemma replay_check_run gw p now s :
  replay_check gw p now s
  = (Ok (if nonce_fresh gw s p now then [] else ["replayed_nonce"]), set_replay (ledger_after gw s p now) s).
Proof using Type.
  unfold replay_check, nonce_fresh, ledger_after.
  destruct (identity_verify _ _); [|by destruct s].
  by destruct (ReplayLedger_reserve _ _ _).
Qed.

(** The decision and state of a primary assurance pass that did not raise. *)
Record decided (gw : AegisGateway I P) (p : ActionProposal) (state : SystemState) (now : datetime)
    (safety : SafetyResult) (s : GatewayState) (d : Decision) (s' : GatewayState) : Prop := {
  dec_outcome : outcome d = outcome_of (all_reasons gw s p state now safety);
  dec_reasons : decision_reasons d =
    if bool_decide (all_reasons gw s p state now safety = []) then ["all_checks_passed"]
    else all_reasons gw s p state now safety;
  dec_proposal : decision_proposal_id d = proposal_id p;
  dec_state : state_version d = version state;
  dec_versions : policy_version d = policy_engine_version (gw_policy gw)
    ∧ safety_version d = kernel_version (gw_safety gw);
  dec_delegation : gs_delegation s' = gs_delegation s;
  dec_replay : gs_replay s' = ledger_after gw s p now;
  dec_degraded : gs_degraded s' = gs_degraded s;
  dec_evidence : ∃ at_ r, gs_evidence s' = gs_evidence s ++ [r]
    ∧ r = next_record (gs_evidence s) at_ (proposal_id p) (decision_id d) (payload r)
    ∧ evidence_record_hash d = Some (record_hash r)
    ∧ ∃ dg, payload r = evidence_payload gw p state (with_evidence d None) safety dg;
}.

Lemma checked_safety_Ok gw d p state now r :
  checked_safety gw d p state now = Ok r → SafetyKernel_evaluate (gw_safety gw) p state = Ok r.
Proof using Type.
  unfold checked_safety. intros H. apply result_bind_Ok in H as (? & _ & H). by apply require_bind in H as [_ H].
Qed.
Lemma checked_safety_aware gw d p state now :
  grants_validated d → dt_aware now = true → dt_aware (observed_at state) = true →
  checked_safety gw d p state now = SafetyKernel_evaluate (gw_safety gw) p state.
Proof using Type.
  intros Hd Hn Ho. unfold checked_safety, comparable. rewrite validate_comparisons_aware by done.
  by rewrite Hn, Ho.
Qed.

Lemma primary_run gw p state now dg s :
  match checked_safety gw (gs_delegation s) p state now with
  | Raise e => primary_assurance gw p state now dg s = (Raise e, s)
  | Ok safety => ∃ d s', primary_assurance gw p state now dg s = (Ok d, s')
                         ∧ decided gw p state now safety s d s'
  end.
Proof using Type.
  unfold primary_assurance, mbind, M_bind, get, lift.
  destruct (checked_safety _ _ p state now) as [safety|e]; [|done].
  rewrite replay_check_run.
  eexists _, _. split; [cbn; reflexivity|].
  split; try done. simpl. eexists _, _. split; [done|].
  split; [unfold next_record; simpl; reflexivity|]. split; [done|]. exists dg. done.
Qed.

(** ** The authorization contract *)
Record authorized (gw : AegisGateway I P) (s : GatewayState) (p : ActionProposal)
    (state : SystemState) (now : datetime) : Prop := {
  au_identity : identity_verify (gw_identity gw) (actor_id p) = true;
  au_delegation : ∃ root rest, valid_chain (gs_delegation s) now p root rest;
  au_fresh : (0 <= dt_sub now (observed_at state) <= maximum_state_age gw)%Z;
  au_observation : dt_utc (proposal_observed_at p) = dt_utc (observed_at state);
  au_policy : policy_reasons (policy_evaluate (gw_policy gw) p state) = [];
  au_safety : ∃ r, SafetyKernel_evaluate (gw_safety gw) p state = Ok r
                   ∧ within_limits (limits (gw_safety gw)) (predicted_state r);
  au_nonce : ∀ t, seen (gs_replay s) !! nonce p = Some t →
                  (dt_utc t < dt_utc now - retention (gs_replay s))%Z;
}.

Lemma freshness_nil gw p state now :
  freshness_reasons gw p state now = []
  ↔ (0 <= dt_sub now (observed_at state) <= maximum_state_age gw)%Z
    ∧ dt_utc (proposal_observed_at p) = dt_utc (observed_at state).
Proof using Type.
  unfold freshness_reasons. rewrite collect_nil, !Forall_cons, Forall_nil. simpl.
  rewrite orb_false_iff, negb_false_iff. unfold dt_eqb. lia.
Qed.

Lemma SafetyKernel_evaluate_reasons k p state r :
  SafetyKernel_evaluate k p state = Ok r →
  safety_reasons r = [] ↔ within_limits (limits k) (predicted_state r).
Proof using Type. unfold SafetyKernel_evaluate. intros H. inv_ok. simpl. apply limit_flags_nil. Qed.

Lemma all_reasons_nil gw s p state now safety :
  delegation_chain p ≠ [] → SafetyKernel_evaluate (gw_safety gw) p state = Ok safety →
  all_reasons gw s p state now safety = [] ↔ authorized gw s p state now.
Proof using Type.
  intros Hne Hsafe. unfold all_reasons, assurance_reasons. rewrite !app_nil.
  rewrite <- validate_reasons, validate_iff_chain, freshness_nil by done.
  rewrite (SafetyKernel_evaluate_reasons _ _ _ _ Hsafe).
  assert (Hid : (if identity_verify (gw_identity gw) (actor_id p) then [] else ["identity_not_verified"])
                = [] ↔ identity_verify (gw_identity gw) (actor_id p) = true)
    by (destruct (identity_verify _ _); naive_solver).
  rewrite Hid. unfold nonce_fresh. split.
  - intros ((Hi & Hd & Hf & Hp & Hs) & Hn). rewrite Hi in Hn.
    split; try tauto; [by exists safety|]. apply reserve_true.
    by destruct (ReplayLedger_reserve _ _ _).1.
  - intros [Hi Hd Hf Ho Hp (r & Hr & Hs) Hn]. rewrite Hi.
    apply reserve_true in Hn as ->. rewrite Hsafe in Hr. simplify_eq. tauto.
Qed.

Lemma outcome_of_permit rs : outcome_of rs = PERMIT ↔ rs = [].
Proof using Type. unfold outcome_of. repeat case_bool_decide; naive_solver. Qed.

Lemma decide_ungated gw p state now s :
  gs_degraded s = None →
  decide gw p state (Some now) s = primary_assurance gw p state now None s.
Proof using Type. intros Hg. unfold decide, mbind, M_bind, mret, M_ret, get. by rewrite Hg. Qed.

(** A decision of an ungated gateway. *)
Lemma decide_ungated_Ok gw p state now s d s' :
  gs_degraded s = None → decide gw p state (Some now) s = (Ok d, s') →
  ∃ safety, SafetyKernel_evaluate (gw_safety gw) p state = Ok safety ∧ decided gw p state now safety s d s'.
Proof using Type.
  intros Hg. rewrite decide_ungated by done. intros H. pose proof (primary_run gw p state now None s) as Hrun.
  destruct (checked_safety _ _ p state now) as [safety|e] eqn:Hs; [|congruence].
  destruct Hrun as (d' & s'' & Heq & Hd). exists safety. split; [by eapply checked_safety_Ok|]. congruence.
Qed.
(** A constructed proposal always gets a decision from an ungated gateway, at an
    aware time. *)
Lemma decide_total gw p state now s :
  proposal_facts p → dt_aware (observed_at state) = true → grants_validated (gs_delegation s) →
  dt_aware now = true → gs_degraded s = None →
  ∃ d s' safety, decide gw p state (Some now) s = (Ok d, s')
    ∧ SafetyKernel_evaluate (gw_safety gw) p state = Ok safety
    ∧ decided gw p state now safety s d s'.
Proof using Type.
  intros Hp Hst Hgr Hn Hg. rewrite decide_ungated by done.
  destruct (operation_effects_total p state Hp) as [e He].
  pose proof (primary_run gw p state now None s) as H. rewrite checked_safety_aware in H by done.
  destruct (SafetyKernel_evaluate _ p state) as [safety|] eqn:Hs; [naive_solver|].
  unfold SafetyKernel_evaluate, SafetyKernel_transition in Hs. by rewrite He in Hs.
Qed.

(** At a naive time an ungated gateway raises before it changes anything. *)
Lemma decide_naive_raises gw p state now s :
  SystemState_validate state = Ok state → dt_aware now = false → gs_degraded s = None →
  ∃ e, decide gw p state (Some now) s = (Raise e, s) ∧ exn_type e = "TypeError".
Proof using Type.
  intros (_ & _ & Ho & _)%SystemState_validate_Ok Hn Hg. rewrite decide_ungated by done.
  unfold primary_assurance, mbind at 1 2, M_bind at 1 2, get, lift, checked_safety, validate_comparisons, comparable.
  rewrite Hn, Ho. unfold require. destruct (_ || _); by eexists.
Qed.

(** C1 Without a degraded-operation gate, every constructed proposal gets a
    decision on a constructed state at an aware time, over constructed grants, and
    the decision is PERMIT exactly when the actor is verified, the
    delegation chain is valid, the state and the proposal's observation are
    current, the policy has no objection, the predicted state is within every
    safety limit and the nonce was not used within the retention. *)
Theorem decide_permit_iff gw p state now s :
  ActionProposal_validate p = Ok p → SystemState_validate state = Ok state →
  grants_validated (gs_delegation s) → dt_aware now = true → gs_degraded s = None →
  ∃ d s', decide gw p state (Some now) s = (Ok d, s')
    ∧ (outcome d = PERMIT ↔ authorized gw s p state now)
    ∧ decision_proposal_id d = proposal_id p ∧ state_version d = version state.
Proof using Type.
  intros [_ Hp]%ActionProposal_validate_Ok (_ & _ & Hst & _)%SystemState_validate_Ok Hgr Hn Hg.
  destruct (decide_total gw p state now s Hp Hst Hgr Hn Hg) as (d & s' & safety & Hd & Hs & [Ho Hr ? ? _ _ _ _ _]).
  exists d, s'. split; [done|]. rewrite Ho, outcome_of_permit.
  split; [apply all_reasons_nil; [apply Hp|done]|done].
Qed.

(** ** Calls behind a gate *)
(** What a gated call leaves of the state in every case. *)
Definition gate_kept (s s' : GatewayState) : Prop :=
  gs_delegation s' = gs_delegation s ∧ gs_replay s' = gs_replay s.

(** A run of the pre-authorization denial. *)
Lemma pre_authorization_denial_run p state sha rs adm s :
  match canonical_digest (model_dump state) with
  | Raise e => ∃ s', pre_authorization_denial p state sha rs adm s = (Raise e, s')
      ∧ gate_kept s s' ∧ gs_evidence s' = gs_evidence s
  | Ok _ => ∃ d s' r, pre_authorization_denial p state sha rs adm s = (Ok d, s')
      ∧ gate_kept s s' ∧ gs_degraded s' = gs_degraded s
      ∧ outcome d = DENY ∧ decision_reasons d = rs
      ∧ decision_proposal_id d = "untrusted:" +:+ sha
      ∧ gs_evidence s' = gs_evidence s ++ [r] ∧ previous_hash r = head_hash (gs_evidence s)
      ∧ record_hash r = EvidenceChain_digest (record_material r)
      ∧ evidence_record_hash d = Some (record_hash r)
  end.
Proof using Type.
  unfold pre_authorization_denial, mbind, M_bind, lift.
  cbn [on_world zoom new_decision uuid4 now_utc mbind M_bind mret M_ret].
  destruct (canonical_digest (model_dump state)) as [h|e].
  - eexists _, _, _. split; [cbn; reflexivity|]. repeat split.
  - eexists. split; [cbn; reflexivity|]. repeat split.
Qed.

Lemma pre_authorization_denial_denies p state sha rs adm s d s' :
  pre_authorization_denial p state sha rs adm s = (Ok d, s') → outcome d = DENY.
Proof using Type.
  intros H. pose proof (pre_authorization_denial_run p state sha rs adm s) as Hpre.
  destruct (canonical_digest (model_dump state)).
  - destruct Hpre as (d' & s'' & r & Heq & _ & _ & Ho & _). congruence.
  - destruct Hpre as (s'' & Heq & _). congruence.
Qed.

(** The three ways a gate answers. *)
Lemma degraded_admission_run g p now s :
  match gate_evaluate p now g with
  | (Ok a, g') => degraded_admission g p now s
      = (Ok (if may_enter_primary_assurance a then [] else admission_reasons a, model_dump a),
         set_degraded g' s)
  | (Raise e, g') => degraded_admission g p now s
      = ((if isinstance_exn e "Exception" then Ok (["degraded_admission_unavailable"], JNull)
          else Raise e), set_degraded g' s)
  end.
Proof using Type. unfold degraded_admission. by destruct (gate_evaluate p now g) as [[] ?]. Qed.

(** A gated call whose gate refuses (or raises an [Exception]). *)
Definition gate_refuses (g : G) (p : ActionProposal) (now : datetime) : Prop :=
  match (gate_evaluate p now g).1 with
  | Ok a => may_enter_primary_assurance a = false
  | Raise e => isinstance_exn e "Exception" = true
  end.

Lemma decide_gated gw p state now s g sha :
  gs_degraded s = Some g → canonical_digest (model_dump p) = Ok sha →
  decide gw p state (Some now) s
  = ('(rs, adm) ← degraded_admission g p now;
     if bool_decide (rs = []) then primary_assurance gw p state now (Some adm)
     else pre_authorization_denial p state sha rs adm) s.
Proof using Type. intros Hg Hsha. unfold decide, mbind, M_bind, mret, M_ret, get, lift. by rewrite Hg, Hsha. Qed.

(** When the degraded-operation gate refuses a proposal or fails with an
    exception, the decision is DENY for the untrusted digest of the proposal:
    no delegation state and no nonce is touched, whatever identity, policy and
    safety would have said, and exactly one evidence record is appended, which
    extends the chain and is the record the decision names. *)
Theorem gate_refusal_denies `{!AdmissionGateLaws G} gw p state now s g sha ssha :
  gs_degraded s = Some g → gate_refuses g p now →
  canonical_digest (model_dump p) = Ok sha → canonical_digest (model_dump state) = Ok ssha →
  ∃ d s' r, decide gw p state (Some now) s = (Ok d, s')
    ∧ outcome d = DENY ∧ decision_reasons d ≠ [] ∧ decision_proposal_id d = "untrusted:" +:+ sha
    ∧ gs_delegation s' = gs_delegation s ∧ gs_replay s' = gs_replay s
    ∧ gs_evidence s' = gs_evidence s ++ [r]
    ∧ evidence_record_hash d = Some (record_hash r)
    ∧ (EvidenceChain_verify (gs_evidence s) = true → EvidenceChain_verify (gs_evidence s') = true).
Proof using Type.
  intros Hg Href Hsha Hssha. rewrite (decide_gated _ _ _ _ _ _ _ Hg Hsha).
  pose proof (degraded_admission_run g p now s) as Hrun. unfold gate_refuses in Href.
  assert (∃ rs adm g', degraded_admission g p now s = (Ok (rs, adm), set_degraded g' s) ∧ rs ≠ [])
    as (rs & adm & g' & Hda & Hne).
  { destruct (gate_evaluate p now g) as [[a|e] g'] eqn:Hev; simpl in Href; rewrite Href in Hrun.
    - eexists _, _, _. split; [exact Hrun|].
      apply gate_result_valid, DegradedAdmissionResult_validate_Ok in Hev. tauto.
    - eexists _, _, _. split; [exact Hrun|done]. }
  unfold mbind at 1, M_bind at 1. rewrite Hda. rewrite bool_decide_eq_false_2 by done.
  pose proof (pre_authorization_denial_run p state sha rs adm (set_degraded g' s)) as Hpre.
  rewrite Hssha in Hpre.
  destruct Hpre as (d & s' & r & -> & [Hd Hr] & _ & Ho & Hrs & Hp & Hev & Hprev & Hhash & Hh).
  exists d, s', r. simpl in *. split_and!; try done; [congruence|].
  intros Hv. rewrite Hev. by apply verify_app_one.
Qed.

(** C3 Behind a gate nothing is permitted that the gate did not admit: a
    PERMIT means the gate answered with an admission into primary assurance
    that authorizes no execution itself, and the proposal passed every check of
    the ungated gateway. *)
Theorem gated_permit `{!AdmissionGateLaws G} gw p state now s g d s' :
  ActionProposal_validate p = Ok p → gs_degraded s = Some g →
  decide gw p state (Some now) s = (Ok d, s') → outcome d = PERMIT →
  ∃ a g', gate_evaluate p now g = (Ok a, g') ∧ admission_outcome a = CONTINUE_PRIMARY_ASSURANCE
    ∧ execution_authorized a = false ∧ gs_degraded s' = Some g'
    ∧ authorized gw s p state now.
Proof using Type.
  intros [_ Hp]%ActionProposal_validate_Ok Hg Hd Ho.
  destruct (canonical_digest (model_dump p)) as [sha|e] eqn:Hsha; cycle 1.
  { unfold decide, mbind, M_bind, mret, M_ret, get, lift in Hd. by rewrite Hg, Hsha in Hd. }
  rewrite (decide_gated _ _ _ _ _ _ _ Hg Hsha) in Hd. unfold mbind at 1, M_bind at 1 in Hd.
  pose proof (degraded_admission_run g p now s) as Hrun.
  destruct (gate_evaluate p now g) as [[a|e] g'] eqn:Hev; rewrite Hrun in Hd; cycle 1.
  { destruct (isinstance_exn e "Exception"); [|done]. rewrite bool_decide_eq_false_2 in Hd by done.
    apply pre_authorization_denial_denies in Hd. congruence. }
  pose proof (gate_result_valid _ _ _ _ _ Hev) as Hval.
  apply DegradedAdmissionResult_validate_Ok in Hval as (_ & Hne & Hexec & Hmay).
  destruct (may_enter_primary_assurance a) eqn:Hm.
  - rewrite bool_decide_eq_true_2 in Hd by done.
    pose proof (primary_run gw p state now (Some (model_dump a)) (set_degraded g' s)) as Hrun'.
    destruct (checked_safety _ _ p state now) as [safety|e] eqn:Hs; [|congruence]. apply checked_safety_Ok in Hs.
    destruct Hrun' as (d' & s'' & Heq & [Hout _ _ _ _ _ _ Hdeg _]). rewrite Heq in Hd. simplify_eq.
    exists a, g'. symmetry in Hmay. bool_split. split_and!; try done.
    rewrite Hout, outcome_of_permit in Ho.
    apply (all_reasons_nil gw s p state now safety); [apply Hp|done|exact Ho].
  - rewrite bool_decide_eq_false_2 in Hd by done.
    apply pre_authorization_denial_denies in Hd. congruence.
Qed.

(** ** The frame of a call: what any call, raising or not, may change *)
(** The chain grew by at most one well-linked record, exactly one if a decision
    was returned, which names it. *)
Definition one_record (c c' : EvidenceChain) (res : result Decision) : Prop :=
  match res with
  | Raise _ => c' = c
  | Ok d => ∃ r, c' = c ++ [r] ∧ previous_hash r = head_hash c
                 ∧ record_hash r = EvidenceChain_digest (record_material r)
                 ∧ ev_decision_id r = decision_id d
                 ∧ evidence_record_hash d = Some (record_hash r)
  end.

Record call_frame (p : ActionProposal) (now : datetime) (s s' : GatewayState)
    (res : result Decision) : Prop := {
  cf_delegation : gs_delegation s' = gs_delegation s;
  cf_replay : gs_replay s' = gs_replay s
              ∨ gs_replay s' = (ReplayLedger_reserve (gs_replay s) (nonce p) now).2;
  cf_evidence : one_record (gs_evidence s) (gs_evidence s') res;
}.

Lemma primary_frame gw p state now dg s :
  call_frame p now s (primary_assurance gw p state now dg s).2
    (primary_assurance gw p state now dg s).1.
Proof using Type.
  pose proof (primary_run gw p state now dg s) as H.
  destruct (checked_safety _ _ p state now) as [safety|e].
  - destruct H as (d & s' & -> & [_ _ _ _ _ Hd Hr _ (at_ & r & He & Hn & Hh & _)]). split; simpl.
    + done.
    + rewrite Hr. unfold ledger_after. case_match; auto.
    + exists r. rewrite Hn. split_and!; try done; [by rewrite He, <- Hn|by rewrite <- Hn].
  - rewrite H. split; simpl; auto.
Qed.

Lemma denial_frame p state sha rs adm now s :
  call_frame p now s (pre_authorization_denial p state sha rs adm s).2
    (pre_authorization_denial p state sha rs adm s).1.
Proof using Type.
  pose proof (pre_authorization_denial_run p state sha rs adm s) as H.
  destruct (canonical_digest (model_dump state)).
  - destruct H as (d & s' & r & Heq & [Hd Hr] & _ & _ & _ & _ & He & Hp & Hrh & Hh).
    rewrite Heq. split; simpl; auto. exists r. split_and!; try done.
    revert Heq Hrh. unfold pre_authorization_denial, mbind, M_bind, lift.
    cbn [on_world zoom new_decision uuid4 now_utc mbind M_bind mret M_ret].
    destruct (canonical_digest (model_dump state)); [|done].
    intros [= <- <-]. apply app_inj_tail in He as [_ <-]. done.
  - destruct H as (s' & -> & [Hd Hr] & He). split; simpl; auto.
Qed.

Lemma call_frame_set_degraded g p now s s' res :
  call_frame p now (set_degraded g s) s' res → call_frame p now s s' res.
Proof using Type. intros []. by split. Qed.

Lemma decide_frame gw p state now s :
  call_frame p now s (decide gw p state (Some now) s).2 (decide gw p state (Some now) s).1.
Proof using Type.
  destruct (gs_degraded s) as [g|] eqn:Hg; [|rewrite decide_ungated by done; apply primary_frame].
  destruct (canonical_digest (model_dump p)) as [sha|e] eqn:Hsha; cycle 1.
  { unfold decide, mbind, M_bind, mret, M_ret, get, lift. rewrite Hg, Hsha. split; simpl; auto. }
  rewrite (decide_gated _ _ _ _ _ _ _ Hg Hsha). unfold mbind, M_bind.
  pose proof (degraded_admission_run g p now s) as Hrun.
  destruct (gate_evaluate p now g) as [[a|e] g']; rewrite Hrun; [|destruct (isinstance_exn _ _)].
  - case_bool_decide; apply (call_frame_set_degraded g'); [apply primary_frame|apply denial_frame].
  - rewrite bool_decide_eq_false_2 by done. apply (call_frame_set_degraded g'), denial_frame.
  - split; simpl; auto.
Qed.

Lemma decide_run gw p state now s res s' :
  decide gw p state (Some now) s = (res, s') → call_frame p now s s' res.
Proof using Type. intros H. pose proof (decide_frame gw p state now s) as Hf. by rewrite H in Hf. Qed.

(** What a PERMIT consumed and found, gated or not. *)
Lemma decide_permit_facts gw p state now s d s' :
  decide gw p state (Some now) s = (Ok d, s') → outcome d = PERMIT →
  (ReplayLedger_reserve (gs_replay s) (nonce p) now).1 = true
  ∧ gs_replay s' = (ReplayLedger_reserve (gs_replay s) (nonce p) now).2
  ∧ valid (DelegationValidator_validate (gs_delegation s) p now) = true
  ∧ identity_verify (gw_identity gw) (actor_id p) = true.
Proof using Type.
  intros Hd Ho.
  assert (∃ dg s0, primary_assurance gw p state now dg s0 = (Ok d, s')
            ∧ gs_replay s0 = gs_replay s ∧ gs_delegation s0 = gs_delegation s)
    as (dg & s0 & Hrun & Hr & Hg).
  { destruct (gs_degraded s) as [g|] eqn:Hg; [|rewrite decide_ungated in Hd by done; eauto].
    destruct (canonical_digest (model_dump p)) as [sha|e] eqn:Hsha; cycle 1.
    { unfold decide, mbind, M_bind, mret, M_ret, get, lift in Hd. by rewrite Hg, Hsha in Hd. }
    rewrite (decide_gated _ _ _ _ _ _ _ Hg Hsha) in Hd. unfold mbind at 1, M_bind at 1 in Hd.
    pose proof (degraded_admission_run g p now s) as Hrun.
    destruct (gate_evaluate p now g) as [[a|e] g']; rewrite Hrun in Hd;
      [|destruct (isinstance_exn _ _); [|done]]; case_bool_decide; eauto;
      apply pre_authorization_denial_denies in Hd; congruence. }
  pose proof (primary_run gw p state now dg s0) as H.
  destruct (checked_safety _ _ p state now) as [safety|e]; [|congruence].
  destruct H as (d' & s'' & Heq & [Hout _ _ _ _ _ Hled _ _]). rewrite Hrun in Heq. simplify_eq.
  rewrite Hout, outcome_of_permit in Ho. unfold all_reasons, assurance_reasons in Ho.
  rewrite !app_nil, <- validate_reasons in Ho. destruct Ho as ((Hi & Hv & _) & Hn).
  destruct (identity_verify (gw_identity gw) (actor_id p)) eqn:Hid; [|done].
  unfold nonce_fresh, ledger_after in *. rewrite Hid in *. rewrite Hr, Hg in *.
  destruct (ReplayLedger_reserve _ _ _) as [[] ?]; done.
Qed.
End gateway.
