(* ===== verification/GatewayTrace.v ===== *)
(** * Sequences of gateway calls

    A step of a running gateway is a [decide] call with its evaluation time or a
    revocation; a run is any sequence of steps.  The theorems are about every
    run: a nonce is permitted once per retention, a revoked grant is never again
    part of a permitted chain, and the evidence chain records every decision. *)
From S2P Require Import Prelude PyFloat PyStr PyTime PyJson Sha256 Crypto Models.
From S2P Require Import Delegation Replay Policy Safety Evidence Admission Gateway.

Section trace.
Context {ED : Ed25519} {E : Env}.
Context {I P G : Type} {HI : IdentityVerifier I} {HP : PolicyEngine P} {HG : AdmissionGate G}.
Context {DG : ModelDump DelegationGrant} {DP : ModelDump ActionProposal} {DD : ModelDump Decision}
  {DS : ModelDump SystemState} {DA : ModelDump DegradedAdmissionResult}.
Variable gw : AegisGateway I P.

Inductive event :=
  | EvDecide (p : ActionProposal) (state : SystemState) (now : datetime) (res : result Decision)
  | EvRevoke (gid : string).

(** [gateway.delegation.revoke(gid)] *)
Definition revoke_grant (gid : string) (s : GatewayState (G := G)) : GatewayState :=
  mk_GatewayState (DelegationValidator_revoke (gs_delegation s) gid) (gs_replay s) (gs_evidence s)
    (gs_degraded s) (gs_world s).

Inductive step : GatewayState (G := G) → event → GatewayState → Prop :=
  | step_decide p state now s res s' :
      decide gw p state (Some now) s = (res, s') → step s (EvDecide p state now res) s'
  | step_revoke gid s : step s (EvRevoke gid) (revoke_grant gid s).

Inductive run : GatewayState (G := G) → list event → GatewayState → Prop :=
  | run_nil s : run s [] s
  | run_cons s e s' es s'' : step s e s' → run s' es s'' → run s (e :: es) s''.

Lemma run_app s es es' s'' :
  run s (es ++ es') s'' ↔ ∃ s', run s es s' ∧ run s' es' s''.
Proof using Type.
  split.
  - revert s. induction es as [|e es IH]; intros s H; [exists s; split; [constructor|done]|].
    inversion H as [|? ? s1 ? ? Hs Hr]; subst. destruct (IH _ Hr) as (s' & ? & ?).
    exists s'. split; [by econstructor|done].
  - intros (s' & Hr & Hr'). induction Hr as [|s e s1 es s2 Hs _ IH]; [done|]. simpl.
    econstructor; eauto.
Qed.

(** Evaluation times never go backwards from [t] on. *)
Inductive clocked : Z → list event → Prop :=
  | clocked_nil t : clocked t []
  | clocked_decide t p state now res es :
      (t <= dt_utc now)%Z → clocked (dt_utc now) es → clocked t (EvDecide p state now res :: es)
  | clocked_revoke t gid es : clocked t es → clocked t (EvRevoke gid :: es).

Lemma clocked_weaken t t' es : clocked t es → (t' <= t)%Z → clocked t' es.
Proof using Type. induction 1; intros; constructor; auto with lia. Qed.

Lemma clocked_app_inv t es es' : clocked t (es ++ es') → clocked t es'.
Proof using Type.
  revert t. induction es as [|e es IH]; intros t H; [done|]. inversion H; subst; [|auto].
  eapply clocked_weaken; [eapply IH; eassumption|done].
Qed.

(** ** A nonce stays reserved for the retention *)
Lemma reserve_keeps l m now n t :
  seen l !! n = Some t → (dt_utc now - retention l <= dt_utc t)%Z →
  seen (ReplayLedger_reserve l m now).2 !! n = Some t.
Proof using Type.
  intros Hn Hw. rewrite reserve_seen.
  assert (Hk : prune l now !! n = Some t) by by apply prune_lookup.
  destruct (ReplayLedger_reserve l m now).1 eqn:Hr; simpl; [|done].
  case_bool_decide as Hmn; [|done]. subst m.
  pose proof (proj1 (reserve_true _ _ _) Hr _ Hn). lia.
Qed.

(** The window is still open for every decision of [es] up to [limit]. *)
Lemma run_keeps s es s' n t now limit :
  run s es s' → seen (gs_replay s) !! n = Some t → clocked now es →
  (∀ p state at_ res, EvDecide p state at_ res ∈ es → dt_utc at_ <= limit)%Z →
  (limit - retention (gs_replay s) <= dt_utc t)%Z →
  seen (gs_replay s') !! n = Some t ∧ retention (gs_replay s') = retention (gs_replay s).
Proof using Type.
  intros Hr. revert now. induction Hr as [|s e s1 es s2 Hs _ IH]; intros now Hn Hc Hlim Hw; [done|].
  destruct Hs as [p state at_ s res s1 Hd|gid s].
  - destruct (decide_run _ _ _ _ _ _ _ Hd) as [_ Hrep _].
    inversion Hc as [|? ? ? ? ? ? Hle Hc'|]; subst.
    assert (Hat : (dt_utc at_ <= limit)%Z) by (eapply Hlim, elem_of_cons; left; done).
    assert (seen (gs_replay s1) !! n = Some t ∧ retention (gs_replay s1) = retention (gs_replay s))
      as [Hn1 Hret].
    { destruct Hrep as [-> | ->]; [done|]. rewrite reserve_retention. split; [|done].
      apply reserve_keeps; [done|lia]. }
    rewrite <- Hret in *. eapply IH; [done|done| |done]. intros. eapply Hlim, elem_of_cons; right; eassumption.
  - inversion Hc; subst. eapply (IH now); [done|done| |done]. intros. eapply Hlim, elem_of_cons; right; eassumption.
Qed.

Lemma clocked_bound t es p state now res es' :
  clocked t (es ++ EvDecide p state now res :: es') →
  ∀ p' state' at_ res', EvDecide p' state' at_ res' ∈ es → (dt_utc at_ <= dt_utc now)%Z.
Proof using Type.
  revert t. induction es as [|e es IH]; intros t Hc p' state' at_ res' Hin; [set_solver|].
  inversion Hc as [|? ? ? ? ? ? Hle Hc'|]; subst.
  - apply elem_of_cons in Hin as [[= -> -> -> ->]|Hin]; [|by eapply IH].
    apply clocked_app_inv in Hc'. by inversion Hc'.
  - apply elem_of_cons in Hin as [?|Hin]; [done|]. by eapply IH.
Qed.

(** C2 No run of the gateway whose evaluation times do not go backwards
    permits two proposals with the same nonce within the retention, whatever
    the proposals, the calls in between, the gate's answers and the
    revocations. *)
Theorem no_double_permit s s' pre mid post p1 st1 t1 d1 p2 st2 t2 d2 t0 :
  run s (pre ++ EvDecide p1 st1 t1 (Ok d1) :: mid ++ EvDecide p2 st2 t2 (Ok d2) :: post) s' →
  clocked t0 (pre ++ EvDecide p1 st1 t1 (Ok d1) :: mid ++ EvDecide p2 st2 t2 (Ok d2) :: post) →
  outcome d1 = PERMIT → outcome d2 = PERMIT → nonce p1 = nonce p2 →
  (dt_utc t1 + retention (gs_replay s) < dt_utc t2)%Z.
Proof using Type.
  intros Hrun Hc Ho1 Ho2 Hn. apply run_app in Hrun as (sa & Hpre & Hrun).
  assert (Hret : retention (gs_replay sa) = retention (gs_replay s)).
  { clear -Hpre. induction Hpre as [|s e s1 es s2 Hs _ IH]; [done|]. rewrite IH.
    destruct Hs as [p state at_ s res s1 Hd|]; [|done].
    destruct (cf_replay _ _ _ _ _ (decide_run _ _ _ _ _ _ _ Hd)) as [-> | ->];
      [done|apply reserve_retention]. }
  apply clocked_app_inv in Hc. inversion Hrun as [|? ? sb ? ? Hs1 Hrun']; subst.
  inversion Hs1 as [? ? ? ? ? ? Hd1|]; subst. apply run_app in Hrun' as (sc & Hmid & Hrun').
  inversion Hrun' as [|? ? sd ? ? Hs2 _]; subst. inversion Hs2 as [? ? ? ? ? ? Hd2|]; subst.
  destruct (decide_permit_facts _ _ _ _ _ _ _ Hd1 Ho1) as (Hf1 & Hr1 & _).
  destruct (decide_permit_facts _ _ _ _ _ _ _ Hd2 Ho2) as (Hf2 & _).
  inversion Hc as [|? ? ? ? ? ? Hle Hc'|]; subst.
  apply Z.nle_gt. intros Hle'. rewrite <- Hret in Hle'.
  assert (Hseen : seen (gs_replay sb) !! nonce p2 = Some t1).
  { rewrite Hr1, reserve_seen, Hf1, Hn. by rewrite bool_decide_eq_true_2. }
  assert (Hret' : retention (gs_replay sb) = retention (gs_replay sa))
    by (rewrite Hr1; apply reserve_retention).
  destruct (run_keeps sb mid sc (nonce p2) t1 (dt_utc t1) (dt_utc t2) Hmid Hseen) as [Hsc Hrc].
  - clear -Hc'. revert Hc'. generalize (dt_utc t1). induction mid as [|e mid IH]; intros t Hc;
      [constructor|]. inversion Hc; subst; constructor; auto.
  - eapply clocked_bound, Hc'.
  - rewrite Hret'. lia.
  - pose proof (proj1 (reserve_true _ _ _) Hf2 _ Hsc). rewrite Hrc, Hret' in *. lia.
Qed.

(** ** Revocation is permanent *)
Lemma revoked_grows s es s' : run s es s' → revoked (gs_delegation s) ⊆ revoked (gs_delegation s').
Proof using Type.
  induction 1 as [|s e s1 es s2 Hs _ IH]; [done|]. etrans; [|exact IH].
  destruct Hs as [p state at_ s res s1 Hd|gid s]; [|set_solver].
  by rewrite (cf_delegation _ _ _ _ _ (decide_run _ _ _ _ _ _ _ Hd)).
Qed.

Lemma valid_not_revoked v p now gid :
  valid (DelegationValidator_validate v p now) = true → gid ∈ revoked v → gid ∉ delegation_chain p.
Proof using Type.
  intros Hv Hr Hin. rewrite validate_iff_chain in Hv by (intros E0; rewrite E0 in Hin; set_solver).
  destruct Hv as (root & rest & [_ Hgood _ _ _]). apply list_elem_of_lookup in Hin as [i Hi].
  destruct (Forall2_lookup_l _ _ _ _ _ Hgood Hi) as (g & _ & _ & _ & Hrev & _). done.
Qed.

(** C5 After a grant is revoked, no later call of any run permits a proposal
    whose delegation chain names it. *)
Theorem revocation_is_permanent s s' pre mid gid p state now d post :
  run s (pre ++ EvRevoke gid :: mid ++ EvDecide p state now (Ok d) :: post) s' →
  outcome d = PERMIT → gid ∉ delegation_chain p.
Proof using Type.
  intros Hrun Ho. apply run_app in Hrun as (sa & _ & Hrun).
  inversion Hrun as [|? ? sb ? ? Hs1 Hrun']; subst. inversion Hs1; subst.
  apply run_app in Hrun' as (sc & Hmid & Hrun').
  inversion Hrun' as [|? ? sd ? ? Hs2 _]; subst. inversion Hs2 as [? ? ? ? ? ? Hd2|]; subst.
  destruct (decide_permit_facts _ _ _ _ _ _ _ Hd2 Ho) as (_ & _ & Hv & _).
  eapply valid_not_revoked; [exact Hv|]. apply (revoked_grows _ _ _ Hmid). simpl. set_solver.
Qed.

(** ** The audit trail *)
Definition decisions (es : list event) : list Decision :=
  omap (λ e, match e with EvDecide _ _ _ (Ok d) => Some d | _ => None end) es.

Definition names (d : Decision) (r : EvidenceRecord) : Prop :=
  ev_decision_id r = decision_id d ∧ evidence_record_hash d = Some (record_hash r).

(** C4 Over any run the evidence chain only grows: it gains exactly one record
    per decision returned, in order, each the one its decision names, none for
    a revocation or a call that raised, and a chain that verified before the
    run verifies after it. *)
Theorem evidence_is_complete s es s' :
  run s es s' →
  ∃ new, gs_evidence s' = gs_evidence s ++ new ∧ Forall2 names (decisions es) new
    ∧ (EvidenceChain_verify (gs_evidence s) = true → EvidenceChain_verify (gs_evidence s') = true).
Proof using Type.
  induction 1 as [|s e s1 es s2 Hs _ (new & Heq & Hall & Hver)].
  { exists []. rewrite app_nil_r. split_and!; [done|constructor|done]. }
  destruct Hs as [p state at_ s res s1 Hd|gid s]; [|by exists new].
  pose proof (cf_evidence _ _ _ _ _ (decide_run _ _ _ _ _ _ _ Hd)) as Hone.
  destruct res as [d|e]; simpl in Hone; [|rewrite Hone in *; by exists new].
  destruct Hone as (r & Hr & Hp & Hh & Hid & Hhash). exists (r :: new).
  split_and!; [by rewrite Heq, Hr, <- app_assoc|by constructor|].
  intros Hv. apply Hver. rewrite Hr. by apply verify_app_one.
Qed.
End trace.
