(* ===== verification/GatewayDemo.v ===== *)
(** * A concrete gateway

    Concrete instances of the parameters of the gateway (clock, identifiers, JSON
    forms, a gate with fixed answers) and the local lab's configuration, at which
    the gateway's theorems are applied. *)
From S2P Require Import Prelude PyFloat PyStr PyTime PyJson Sha256 Crypto Models.
From S2P Require Import Delegation Replay Policy Safety Evidence Admission Gateway GatewayTrace.
Import DemoEd25519 ModelsDemo DelegationDemo.

Definition jopt (o : option string) : json := match o with Some s => JStr s | None => JNull end.

#[export] Instance demo_env : Env := {|
  clock_at n := utc (t0 + seconds (Z.of_nat n));
  uuid_at n := "uuid-" +:+ dec_N (N.of_nat n);
|}.

#[export] Instance demo_state_dump : ModelDump SystemState := λ s,
  JObj [("version", JInt (version s)); ("observed_at", JStr (isoformat (observed_at s)));
        ("critical_load_served_pct", JFloat (critical_load_served_pct s));
        ("minimum_voltage_pu", JFloat (minimum_voltage_pu s));
        ("maximum_voltage_pu", JFloat (maximum_voltage_pu s));
        ("maximum_line_loading_pct", JFloat (maximum_line_loading_pct s));
        ("isolated_assets", JArr (JStr <$> elements (isolated_assets s)));
        ("battery_dispatch_mw", JFloat (battery_dispatch_mw s))].

#[export] Instance demo_proposal_dump : ModelDump ActionProposal := λ p,
  JObj [("proposal_id", JStr (proposal_id p)); ("actor_id", JStr (actor_id p));
        ("mission_id", JStr (mission_id p)); ("resource", JStr (resource p));
        ("operation", JStr (Operation_value (operation p))); ("parameters", JObj (parameters p));
        ("observed_state_version", JInt (observed_state_version p));
        ("observed_at", JStr (isoformat (proposal_observed_at p)));
        ("submitted_at", JStr (isoformat (submitted_at p))); ("nonce", JStr (nonce p));
        ("confidence", JFloat (confidence p)); ("risk_score", JFloat (risk_score p));
        ("delegation_chain", JArr (JStr <$> delegation_chain p));
        ("human_approval_id", jopt (human_approval_id p))].

#[export] Instance demo_decision_dump : ModelDump Decision := λ d,
  JObj [("decision_id", JStr (decision_id d)); ("proposal_id", JStr (decision_proposal_id d));
        ("permit", JBool (bool_decide (outcome d = PERMIT)));
        ("reasons", JArr (JStr <$> decision_reasons d));
        ("decided_at", JStr (isoformat (decided_at d)));
        ("policy_version", JStr (policy_version d)); ("safety_version", JStr (safety_version d));
        ("state_version", JInt (state_version d));
        ("evidence_record_hash", jopt (evidence_record_hash d))].

#[export] Instance demo_admission_dump : ModelDump DegradedAdmissionResult := λ a,
  JObj [("reasons", JArr (JStr <$> admission_reasons a));
        ("evaluated_at", JStr (isoformat (admission_evaluated_at a)));
        ("may_enter_primary_assurance", JBool (may_enter_primary_assurance a))].

(** A gate that admits, refuses or fails. *)
Inductive DemoGate := Admits | Refuses | Fails.
Definition demo_result (o : DegradedAdmissionOutcome) (at_ : datetime) : DegradedAdmissionResult :=
  mk_DegradedAdmissionResult o ["demo_reason"] (mk_dt (dt_utc at_) (Some 0%Z)) (zeros 64) None None [] None
    (bool_decide (o = CONTINUE_PRIMARY_ASSURANCE)) false (zeros 64).
#[export] Instance demo_gate : AdmissionGate DemoGate := λ _ at_ g,
  match g with
  | Admits => (Ok (demo_result CONTINUE_PRIMARY_ASSURANCE at_), g)
  | Refuses => (Ok (demo_result HOLD_STATE at_), g)
  | Fails => (raise_ "RuntimeError" "no snapshot", g)
  end.
#[export] Instance demo_gate_laws : AdmissionGateLaws DemoGate.
Proof. split. intros p now [] r g' H; inversion H; subst; reflexivity. Qed.

Definition demo_gw : AegisGateway AllowlistIdentityVerifier ContextualPolicy :=
  mk_AegisGateway (mk_Allowlist {["agent:operator-1"]} "allowlist-v1") ContextualPolicy_default
    SafetyKernel_default (seconds 5).
Definition demo_start (g : option DemoGate) : GatewayState :=
  mk_GatewayState validator (ReplayLedger_new (hours 1)) [] g (mk_World 0 0).

(** The decision of one call, and of the same call repeated. *)
Definition demo_call (g : option DemoGate) := decide demo_gw proposal state (Some now) (demo_start g).
Definition demo_decision (g : option DemoGate) : Decision :=
  match (demo_call g).1 with
  | Ok d => d
  | Raise _ => mk_Decision "" "" DENY [] now "" "" 0 None
  end.
Definition demo_again (g : option DemoGate) := decide demo_gw proposal state (Some now) (demo_call g).2.

Example permitted_once :
  outcome <$> (demo_call None).1 = Ok PERMIT ∧ outcome <$> (demo_again None).1 = Ok DENY.
Proof. split; vm_compute; reflexivity. Qed.

Lemma decide_permit_iff_witness :
  ∃ d s', demo_call None = (Ok d, s')
    ∧ (outcome d = PERMIT ↔ authorized demo_gw (demo_start None) proposal state now)
    ∧ decision_proposal_id d = "proposal-1" ∧ state_version d = 1%Z.
Proof.
  exact (decide_permit_iff demo_gw proposal state now (demo_start None) proposal_validates state_validates
           demo_grants_validated eq_refl eq_refl).
Defined.

Lemma demo_digest_proposal : ∃ sha, canonical_digest (model_dump proposal) = Ok sha.
Proof. eexists. vm_compute. reflexivity. Qed.
Lemma demo_digest_state : ∃ sha, canonical_digest (model_dump state) = Ok sha.
Proof. eexists. vm_compute. reflexivity. Qed.

Lemma gate_refusal_denies_witness :
  ∃ d s', demo_call (Some Fails) = (Ok d, s') ∧ outcome d = DENY
    ∧ gs_replay s' = ReplayLedger_new (hours 1).
Proof.
  destruct demo_digest_proposal as [sha Hsha], demo_digest_state as [ssha Hssha].
  assert (Href : gate_refuses Fails proposal now) by (vm_compute; reflexivity).
  destruct (gate_refusal_denies demo_gw proposal state now (demo_start (Some Fails)) Fails sha ssha
    eq_refl Href Hsha Hssha) as (d & s' & r & Hd & Ho & _ & _ & _ & Hr & _).
  exists d, s'. exact (conj Hd (conj Ho Hr)).
Defined.

Lemma gated_permit_witness :
  outcome (demo_decision (Some Admits)) = PERMIT
  ∧ authorized demo_gw (demo_start (Some Admits)) proposal state now.
Proof.
  assert (Hd : demo_call (Some Admits)
               = (Ok (demo_decision (Some Admits)), (demo_call (Some Admits)).2)) by (vm_compute; reflexivity).
  assert (Ho : outcome (demo_decision (Some Admits)) = PERMIT) by (vm_compute; reflexivity).
  destruct (gated_permit demo_gw proposal state now (demo_start (Some Admits)) Admits _ _
    proposal_validates eq_refl Hd Ho) as (a & g' & _ & _ & _ & _ & Hau).
  exact (conj Ho Hau).
Defined.

(** Two permits of one nonce, just over an hour apart, with the grants renewed. *)
Definition at_later : datetime := utc (dt_utc now + hours 1 + 1).
Definition renewed (g : DelegationGrant) : DelegationGrant :=
  mk_DelegationGrant (grant_id g) (issuer_id g) (subject_id g) (grant_mission_id g) (resources g)
    (operations g) (not_before g) (utc (t0 + hours 2)) (risk_limit g) (delegation_depth_remaining g)
    (parent_grant_id g) "".
Definition long_validator : DelegationValidator :=
  mk_DelegationValidator
    {["grant-root" := grant_signed (renewed root_grant) "root-key";
      "grant-leaf" := grant_signed (renewed leaf_grant) "supervisor-key"]}
    (public_keys validator) ∅.
Definition later_proposal : ActionProposal :=
  mk_ActionProposal "proposal-2" (actor_id proposal) (mission_id proposal) (resource proposal)
    (operation proposal) (parameters proposal) 1 at_later at_later (nonce proposal)
    (confidence proposal) (risk_score proposal) (delegation_chain proposal) None.
Definition later_state : SystemState :=
  mk_SystemState 1 at_later (flit 100 1) (flit 99 100) (flit 101 100) (flit 72 1) ∅ (flit 0 1).
Definition long_start : GatewayState (G := DemoGate) :=
  mk_GatewayState long_validator (ReplayLedger_new (hours 1)) [] None (mk_World 0 0).
Definition long_first := decide demo_gw proposal state (Some now) long_start.
Definition long_second := decide demo_gw later_proposal later_state (Some at_later) long_first.2.
Definition decision_of (r : result Decision) : Decision :=
  match r with Ok d => d | Raise _ => mk_Decision "" "" DENY [] now "" "" 0 None end.
Definition long_events : list event :=
  [EvDecide proposal state now (Ok (decision_of long_first.1));
   EvDecide later_proposal later_state at_later (Ok (decision_of long_second.1))].

Lemma long_run : run demo_gw long_start long_events long_second.2.
Proof.
  eapply run_cons; [apply (step_decide _ _ _ _ _ _ long_first.2); vm_compute; reflexivity|].
  eapply run_cons; [apply (step_decide _ _ _ _ _ _ long_second.2); vm_compute; reflexivity|].
  constructor.
Qed.

Lemma no_double_permit_witness :
  outcome (decision_of long_first.1) = PERMIT ∧ outcome (decision_of long_second.1) = PERMIT
  ∧ (dt_utc now + hours 1 < dt_utc at_later)%Z.
Proof.
  assert (H1 : outcome (decision_of long_first.1) = PERMIT) by (vm_compute; reflexivity).
  assert (H2 : outcome (decision_of long_second.1) = PERMIT) by (vm_compute; reflexivity).
  split; [exact H1|split; [exact H2|]].
  refine (no_double_permit demo_gw long_start long_second.2 [] [] [] proposal state now _
    later_proposal later_state at_later _ 0 long_run _ H1 H2 eq_refl).
  repeat (constructor; [vm_compute; discriminate|]). constructor.
Defined.

(** The leaf grant is revoked; a chain without it may still be permitted. *)
Definition root_proposal : ActionProposal :=
  mk_ActionProposal "proposal-3" "agent:supervisor" (mission_id proposal) (resource proposal)
    (operation proposal) (parameters proposal) 1 (utc t0) (utc t0) "nonce-fedcba9876543210"
    (confidence proposal) (risk_score proposal) ["grant-root"] None.
Definition wide_gw : AegisGateway AllowlistIdentityVerifier ContextualPolicy :=
  mk_AegisGateway (mk_Allowlist {["agent:operator-1"; "agent:supervisor"]} "allowlist-v1")
    ContextualPolicy_default SafetyKernel_default (seconds 5).
Definition revoked_call :=
  decide wide_gw root_proposal state (Some now) (revoke_grant "grant-leaf" (demo_start None)).

Lemma revocation_is_permanent_witness :
  outcome (decision_of revoked_call.1) = PERMIT ∧ "grant-leaf" ∉ delegation_chain root_proposal.
Proof.
  assert (Ho : outcome (decision_of revoked_call.1) = PERMIT) by (vm_compute; reflexivity).
  split; [exact Ho|].
  refine (revocation_is_permanent wide_gw (demo_start None) revoked_call.2 [] [] "grant-leaf"
    root_proposal state now _ [] _ Ho).
  eapply run_cons; [apply step_revoke|]. eapply run_cons; [|apply run_nil].
  apply step_decide. vm_compute. reflexivity.
Defined.

Lemma evidence_is_complete_witness :
  ∃ new, gs_evidence long_second.2 = new ∧ length new = 2%nat
    ∧ Forall2 names (decisions long_events) new.
Proof.
  destruct (evidence_is_complete demo_gw _ _ _ long_run) as (new & Heq & Hall & _).
  exists new. split; [exact Heq|]. split; [|exact Hall].
  exact (eq_sym (Forall2_length _ _ _ Hall)).
Defined.
