(* ===== verification/Lab.v ===== *)
(** * The local lab ([src/src/aegis_ot/lab.py], [src/src/aegis_ot/factory.py])

    [SimulatedCommandAdapter_execute] is the only path from a decision to a
    simulated effect; [build_local_lab] is the deterministic construction of the
    gateway, its two-grant delegation chain and its keys. *)
From S2P Require Import Prelude PyFloat PyStr PyTime PyJson Sha256 Crypto Models.
From S2P Require Import Delegation Replay Policy Safety Evidence Admission Gateway.

Section lab.
Context {E : Env}.

Definition nominal_state (version : Z) (observed : option datetime) : M World SystemState :=
  at_ ← match observed with Some t => mret t | None => now_utc end;
  lift (SystemState_validate
    (mk_SystemState version at_ (flit 100 1) (flit 99 100) (flit 101 100) (flit 72 1) ∅ f0)).

(** [ExecutionResult(executed=False, ...)] *)
Definition refused (p : ActionProposal) (d : Decision) (at_ : datetime) (reason : string) : ExecutionResult :=
  mk_ExecutionResult (proposal_id p) (decision_id d) false at_ None (Some reason).

Definition SimulatedCommandAdapter_execute (model : SafetyKernel) (p : ActionProposal) (d : Decision)
    (current : SystemState) : M World ExecutionResult :=
  at_ ← now_utc;
  if negb (bool_decide (decision_proposal_id d = proposal_id p)) then
    mret (refused p d at_ "proposal_decision_mismatch")
  else if negb (bool_decide (outcome d = PERMIT)) then mret (refused p d at_ "decision_not_permit")
  else if negb (state_version d =? version current)%Z then
    mret (refused p d at_ "time_of_check_time_of_use_state_change")
  else
    safety ← lift (SafetyKernel_evaluate model p current);
    mret (mk_ExecutionResult (proposal_id p) (decision_id d) true at_ (Some (predicted_state safety)) None).

Lemma execute_run model p d current w :
  proposal_facts p →
  ∃ r, SimulatedCommandAdapter_execute model p d current w = (Ok r, mk_World (S (w_clock w)) (w_uuid w))
    ∧ result_proposal_id r = proposal_id p ∧ result_decision_id r = decision_id d
    ∧ (executed r = true ↔ decision_proposal_id d = proposal_id p ∧ outcome d = PERMIT
                           ∧ state_version d = version current)
    ∧ (if executed r then ∃ s, SafetyKernel_evaluate model p current = Ok s
                               ∧ resulting_state r = Some (predicted_state s)
       else resulting_state r = None ∧ is_Some (result_reason r)).
Proof using Type.
  intros Hp. unfold SimulatedCommandAdapter_execute, mbind, M_bind, now_utc, lift, mret, M_ret.
  destruct (operation_effects_total p current Hp) as [e He].
  destruct (SafetyKernel_evaluate model p current) as [s|] eqn:Hs; cycle 1.
  { unfold SafetyKernel_evaluate, SafetyKernel_transition in Hs. by rewrite He in Hs. }
  repeat case_match; bool_split; eexists; (split; [reflexivity|]); simpl; split_and!; try done;
    try (split; [done|]; tauto); eauto; naive_solver.
Qed.

(** The adapter answers every constructed proposal; it executes exactly the
    proposal the decision names, only on PERMIT and only while the plant is at
    the decided version; an execution's result is the transition of the current
    state, a refusal has a reason and no resulting state. *)
Theorem execute_iff model p d current w :
  ActionProposal_validate p = Ok p →
  ∃ r w', SimulatedCommandAdapter_execute model p d current w = (Ok r, w')
    ∧ (executed r = true ↔ decision_proposal_id d = proposal_id p ∧ outcome d = PERMIT
                           ∧ state_version d = version current)
    ∧ (if executed r then ∃ s, SafetyKernel_evaluate model p current = Ok s
                               ∧ resulting_state r = Some (predicted_state s)
       else resulting_state r = None ∧ is_Some (result_reason r)).
Proof using Type.
  intros [_ Hp]%ActionProposal_validate_Ok.
  destruct (execute_run model p d current w Hp) as (r & Hr & _ & _ & H1 & H2). eauto 10.
Qed.
End lab.

(** ** The factory *)
Lemma lookup_insert_second {A} (k k' : string) (a b : A) :
  k ≠ k' → ({[k := a; k' := b]} : gmap string A) !! k' = Some b.
Proof. intros. rewrite lookup_insert_ne by done. apply lookup_singleton_eq. Qed.

Section factory.
Context {ED : Ed25519} {E : Env}.
Context {DG : ModelDump DelegationGrant}.

Record LocalLab := mk_LocalLab {
  lab_gateway : AegisGateway AllowlistIdentityVerifier ContextualPolicy;
  lab_validator : DelegationValidator;
  lab_replay : ReplayLedger;
  root_grant : DelegationGrant;
  leaf_grant : DelegationGrant;
}.

Definition lab_root (t : datetime) : DelegationGrant :=
  mk_DelegationGrant "grant-root" "human:principal-investigator" "agent:supervisor"
    "microgrid-containment" {["feeder-1"; "feeder-2"; "battery-1"]}
    {[ISOLATE_ASSET; RESTORE_ASSET; SHED_LOAD; DISPATCH_BATTERY]}
    (dt_minus t (minutes 1)) (dt_plus t (hours 1)) (flit 90 1) 2 None "".
Definition lab_leaf (t : datetime) (agent : string) : DelegationGrant :=
  mk_DelegationGrant "grant-leaf" "agent:supervisor" agent "microgrid-containment"
    {["feeder-1"; "battery-1"]} {[ISOLATE_ASSET; DISPATCH_BATTERY]}
    (dt_minus t (seconds 30)) (dt_plus t (minutes 30)) (flit 74 1) 1 (Some "grant-root") "".

(** The two generated key pairs are the first arguments. *)
Definition build_local_lab (root_key supervisor_key : private_key) (now : option datetime) (agent : string) :
    M World LocalLab :=
  if bool_decide (agent = "") || has_space agent then
    throw "ValueError" "agent actor ID must be non-empty and contain no whitespace"
  else
    t ← match now with Some t => mret t | None => now_utc end;
    root ← lift (DelegationGrant_validate (lab_root t));
    let root := grant_signed root root_key in
    leaf ← lift (DelegationGrant_validate (lab_leaf t agent));
    let leaf := grant_signed leaf supervisor_key in
    let validator := mk_DelegationValidator
      {[grant_id root := root; grant_id leaf := leaf]}
      {[issuer_id root := public_of root_key; issuer_id leaf := public_of supervisor_key]} ∅ in
    mret (mk_LocalLab
      (mk_AegisGateway (mk_Allowlist {[agent]} "local-allowlist-v1") ContextualPolicy_default
         SafetyKernel_default (seconds 5))
      validator (ReplayLedger_new (hours 1)) root leaf).

Definition lab_scope (agent : string) (p : ActionProposal) : Prop :=
  actor_id p = agent ∧ mission_id p = "microgrid-containment"
  ∧ (resource p = "feeder-1" ∨ resource p = "battery-1")
  ∧ (operation p = ISOLATE_ASSET ∨ operation p = DISPATCH_BATTERY)
  ∧ fltb (flit 74 1) (risk_score p) = false.

(** Signing changes nothing of what a grant delegates. *)
Lemma attenuates_signed a b k k' : attenuates a b → attenuates (grant_signed a k) (grant_signed b k').
Proof using Type. intros []. by split. Qed.
Lemma covers_signed g p k : covers g p → covers (grant_signed g k) p.
Proof using Type. intros []. by split. Qed.

Lemma lab_attenuates t agent : attenuates (lab_root t) (lab_leaf t agent).
Proof using Type.
  split; unfold lab_root, lab_leaf;
    cbn [grant_id issuer_id subject_id resources operations not_before expires_at risk_limit
         delegation_depth_remaining parent_grant_id];
    [reflexivity|reflexivity| | | | | | ].
  - intros o. rewrite !elem_of_union, !elem_of_singleton. tauto.
  - set_solver.
  - vm_compute; reflexivity.
  - lia.
  - unfold dt_leb; cbn [dt_utc dt_minus dt_plus]; apply Z.leb_le; unfold hours, minutes, seconds; lia.
  - unfold dt_leb; cbn [dt_utc dt_minus dt_plus]; apply Z.leb_le; unfold hours, minutes, seconds; lia.
Qed.

Lemma lab_covers t agent p : lab_scope agent p → covers (lab_leaf t agent) p.
Proof using Type.
  intros (Ha & Hm & Hres & Hop & Hrisk). split; unfold lab_leaf;
    cbn [subject_id grant_mission_id resources operations risk_limit]; [done|done| | |done].
  - destruct Hres as [-> | ->]; set_solver.
  - destruct Hop as [-> | ->]; set_solver.
Qed.

Lemma build_run k1 k2 t agent w :
  agent ≠ "" → has_space agent = false → dt_aware t = true →
  ∃ lab, build_local_lab k1 k2 (Some t) agent w = (Ok lab, w)
    ∧ grants (lab_validator lab) = {["grant-root" := grant_signed (lab_root t) k1;
                                     "grant-leaf" := grant_signed (lab_leaf t agent) k2]}
    ∧ public_keys (lab_validator lab)
      = {["human:principal-investigator" := public_of k1; "agent:supervisor" := public_of k2]}
    ∧ revoked (lab_validator lab) = ∅ ∧ retention (lab_replay lab) = hours 1
    ∧ identity_verify (gw_identity (lab_gateway lab)) agent = true.
Proof using Type.
  intros Hne Hsp Haw. unfold build_local_lab.
  rewrite (bool_decide_eq_false_2 _ Hne), Hsp. cbn [orb].
  assert (Hle : ∀ g, dt_aware (not_before g) = true → dt_aware (expires_at g) = true →
    (dt_utc (not_before g) < dt_utc (expires_at g))%Z →
    min_length 1 (grant_id g) && min_length 1 (issuer_id g)
    && min_length 1 (subject_id g) && min_length 1 (grant_mission_id g)
    && negb (bool_decide (resources g = ∅)) && negb (bool_decide (operations g = ∅))
    && f_between f0 f100 (risk_limit g) && (0 <=? delegation_depth_remaining g)%Z = true →
    DelegationGrant_validate g = Ok g).
  { intros g H1 H2 H3 H4. unfold DelegationGrant_validate, require. rewrite H4, H1, H2. simpl.
    unfold dt_leb. by replace (dt_utc (expires_at g) <=? dt_utc (not_before g))%Z with false
      by (symmetry; apply Z.leb_gt; lia). }
  unfold mbind, M_bind, mret, M_ret, lift.
  rewrite (Hle (lab_root t)); [|done|done|simpl; unfold hours, minutes, seconds; lia|vm_compute; reflexivity].
  rewrite (Hle (lab_leaf t agent)); [|done|done|simpl; unfold minutes, seconds; lia|].
  - eexists. split; [reflexivity|]. simpl. split_and!; try reflexivity.
    unfold AllowlistIdentityVerifier_verify. apply bool_decide_eq_true. set_solver.
  - destruct agent as [|c agent]; [done|]. simpl. unfold min_length, str_len. simpl String.length.
    rewrite !bool_decide_eq_false_2 by set_solver. simpl.
    replace (1 <=? Z.of_nat (S (String.length agent)))%Z with true by (symmetry; apply Z.leb_le; lia).
    reflexivity.
Qed.

Context {EL : Ed25519Laws}.
(** [exclude={"signature"}] leaves nothing of the signature. *)
Hypothesis exclude_signature : ∀ g s, signing_bytes (with_signature g s) = signing_bytes g.

Lemma signed_ok v g k :
  public_keys v !! issuer_id g = Some (public_of k) → signature_ok v (grant_signed g k) = true.
Proof using EL exclude_signature.
  intros Hk. unfold signature_ok, grant_signed. simpl. rewrite Hk, exclude_signature. apply verify_sign_bytes.
Qed.

(** The local lab is built for every agent name without whitespace, and its
    delegation chain does what the lab says: at every time of the leaf's
    half-hour window, a proposal of the agent for that mission, one of the two
    resources and operations, within the risk limit, is accepted along
    [grant-root], [grant-leaf]. *)
Theorem local_lab_delegates k1 k2 t agent w :
  agent ≠ "" → has_space agent = false → dt_aware t = true →
  ∃ lab, build_local_lab k1 k2 (Some t) agent w = (Ok lab, w)
    ∧ ∀ p now, lab_scope agent p → delegation_chain p = ["grant-root"; "grant-leaf"] →
        (dt_utc t - seconds 30 <= dt_utc now <= dt_utc t + minutes 30)%Z →
        valid (DelegationValidator_validate (lab_validator lab) p now) = true.
Proof using EL exclude_signature.
  intros Hne Hsp Haw. destruct (build_run k1 k2 t agent w Hne Hsp Haw) as (lab & Hlab & Hg & Hk & Hr & _).
  exists lab. split; [done|]. intros p now Hscope Hchain Hnow.
  apply validate_iff_chain; [by rewrite Hchain|].
  exists (grant_signed (lab_root t) k1), [grant_signed (lab_leaf t agent) k2].
  assert (Hgood : ∀ gid g k, grants (lab_validator lab) !! gid = Some (grant_signed g k) →
    public_keys (lab_validator lab) !! issuer_id g = Some (public_of k) →
    (dt_utc (not_before g) <= dt_utc now <= dt_utc (expires_at g))%Z →
    grant_good (lab_validator lab) now gid (grant_signed g k)).
  { intros gid g k H1 H2 H3. split; [done|]. split_and!; [by apply signed_ok|rewrite Hr; set_solver|].
    unfold grant_active, dt_leb. simpl. apply andb_true_iff. rewrite !Z.leb_le. lia. }
  split.
  - rewrite Hchain. apply NoDup_cons. split; [set_solver|apply NoDup_singleton].
  - rewrite Hchain. constructor; [|constructor; [|constructor]]; apply Hgood; rewrite ?Hg, ?Hk;
      [apply lookup_insert_eq|apply lookup_insert_eq| |apply lookup_insert_second; done
      |apply lookup_insert_second; done|];
      cbn; unfold hours, minutes, seconds in *; lia.
  - reflexivity.
  - constructor; [|constructor]. apply attenuates_signed, lab_attenuates.
  - exists (grant_signed (lab_leaf t agent) k2). split; [reflexivity|].
    by apply covers_signed, lab_covers.
Qed.
End factory.

(** ** From proposal to effect *)
Section end_to_end.
Context {ED : Ed25519} {E : Env}.
Context {I P G : Type} {HI : IdentityVerifier I} {HP : PolicyEngine P} {HG : AdmissionGate G}.
Context {DG : ModelDump DelegationGrant} {DP : ModelDump ActionProposal} {DD : ModelDump Decision}
  {DS : ModelDump SystemState} {DA : ModelDump DegradedAdmissionResult}.

(** C6 What the adapter executes on the decided state, through a gateway whose
    safety kernel it shares, was authorized, and leads to the next version of
    the state, within every safety limit. *)
Theorem permitted_execution_safe (gw : AegisGateway I P) p state now (s : GatewayState (G := G)) d s' w r w' :
  ActionProposal_validate p = Ok p → gs_degraded s = None →
  decide gw p state (Some now) s = (Ok d, s') →
  SimulatedCommandAdapter_execute (gw_safety gw) p d state w = (Ok r, w') → executed r = true →
  authorized gw s p state now ∧
  ∃ next, resulting_state r = Some next ∧ version next = (version state + 1)%Z
          ∧ within_limits (limits (gw_safety gw)) next.
Proof using Type.
  intros [_ Hp]%ActionProposal_validate_Ok Hg Hd Hx Hex.
  destruct (decide_ungated_Ok gw p state now s d s' Hg Hd) as (safety & Hs & Hdec).
  destruct (execute_run (gw_safety gw) p d state w Hp) as (r0 & Hr & _ & _ & Hiff & Hres).
  rewrite Hr in Hx. injection Hx as -> _. rewrite Hex in Hres. destruct Hres as (s1 & Hs1 & Hnext).
  apply Hiff in Hex as (_ & Hout & _). rewrite (dec_outcome _ _ _ _ _ _ _ _ Hdec) in Hout.
  apply outcome_of_permit, (all_reasons_nil gw s p state now safety) in Hout; [|apply Hp|done].
  split; [done|]. destruct Hout as [_ _ _ _ _ (r1 & Hr1 & Hlim) _].
  rewrite Hs1 in Hr1. injection Hr1 as <-. exists (predicted_state s1). split; [done|].
  split; [|done]. unfold SafetyKernel_evaluate, SafetyKernel_transition in Hs1. by inv_ok.
Qed.
End end_to_end.
