(* ===== verification/LabDemo.v ===== *)
(** * The local lab at concrete inputs *)
From S2P Require Import Prelude PyFloat PyStr PyTime PyJson Sha256 Crypto Models.
From S2P Require Import Delegation Replay Policy Safety Evidence Admission Gateway GatewayDemo Lab.
Import DemoEd25519 ModelsDemo DelegationDemo.

Definition permit : Decision := mk_Decision "d-1" "proposal-1" PERMIT ["all_checks_passed"] now "p" "s" 1 None.

Lemma execute_iff_witness :
  ∃ r w', SimulatedCommandAdapter_execute SafetyKernel_default proposal permit state (mk_World 0 0) = (Ok r, w')
    ∧ (executed r = true ↔ decision_proposal_id permit = proposal_id proposal ∧ outcome permit = PERMIT
                           ∧ state_version permit = version state).
Proof.
  destruct (execute_iff SafetyKernel_default proposal permit state (mk_World 0 0) proposal_validates)
    as (r & w' & H1 & H2 & _).
  exists r, w'. exact (conj H1 H2).
Defined.

Lemma demo_exclude_signature g s : signing_bytes (with_signature g s) = signing_bytes g.
Proof. reflexivity. Qed.

Lemma local_lab_delegates_witness :
  ∃ lab, build_local_lab (ED := demo_ed25519) "root-key" "supervisor-key" (Some now) "agent:operator-1" (mk_World 0 0)
         = (Ok lab, mk_World 0 0).
Proof.
  destruct (local_lab_delegates (ED := demo_ed25519) demo_exclude_signature "root-key" "supervisor-key" now "agent:operator-1"
    (mk_World 0 0)) as (lab & H & _); [discriminate|reflexivity|reflexivity|].
  exists lab. exact H.
Defined.

Definition demo_execution := SimulatedCommandAdapter_execute SafetyKernel_default proposal (demo_decision None)
  state (mk_World 0 0).
Definition execution_of (r : result ExecutionResult) : ExecutionResult :=
  match r with Ok x => x | Raise _ => mk_ExecutionResult "" "" false now None None end.

Lemma permitted_execution_safe_witness :
  executed (execution_of demo_execution.1) = true
  ∧ ∃ next, resulting_state (execution_of demo_execution.1) = Some next ∧ version next = 2%Z.
Proof.
  assert (Hd : decide demo_gw proposal state (Some now) (demo_start None)
               = (Ok (demo_decision None), (demo_call None).2)) by (vm_compute; reflexivity).
  assert (Hx : SimulatedCommandAdapter_execute (gw_safety demo_gw) proposal (demo_decision None) state
                 (mk_World 0 0) = (Ok (execution_of demo_execution.1), demo_execution.2))
    by (vm_compute; reflexivity).
  assert (He : executed (execution_of demo_execution.1) = true) by (vm_compute; reflexivity).
  destruct (permitted_execution_safe demo_gw proposal state now (demo_start None)
    (demo_decision None) (demo_call None).2 (mk_World 0 0) (execution_of demo_execution.1) demo_execution.2
    proposal_validates eq_refl Hd Hx He) as (_ & next & Hn & Hv & _).
  exact (conj He (ex_intro _ next (conj Hn Hv))).
Defined.
