(* ===== verification/PhysicalModels.v ===== *)
(** * Physical-control models ([src/src/aegis_ot/physical_models.py])

    Snapshots, actuator commands, candidate assessments, permits, device
    acknowledgments and closed-loop results, each with its construction check,
    digests and signatures.  Optional fields are options; a dict of set-points is
    an association list in insertion order. *)
From S2P Require Import Prelude PyFloat PyStr PyTime PyJson Sha256 Crypto Models.

Inductive PhysicalCommandType := SET_LINE_SERVICE | SET_BATTERY_INJECTION.
#[export] Instance PhysicalCommandType_eq_dec : EqDecision PhysicalCommandType.
Proof. solve_decision. Defined.

Inductive CommandStatus := APPLIED | REJECTED | UNKNOWN_EFFECT.
#[export] Instance CommandStatus_eq_dec : EqDecision CommandStatus.
Proof. solve_decision. Defined.

Inductive ClosedLoopStatus :=
  | NOT_DISPATCHED | CANDIDATE_REJECTED | DEVICE_REJECTED | COMPLETED | LOOP_UNKNOWN_EFFECT.
#[export] Instance ClosedLoopStatus_eq_dec : EqDecision ClosedLoopStatus.
Proof. solve_decision. Defined.
Definition ClosedLoopStatus_value (s : ClosedLoopStatus) : string :=
  match s with
  | NOT_DISPATCHED => "not_dispatched" | CANDIDATE_REJECTED => "candidate_rejected"
  | DEVICE_REJECTED => "device_rejected" | COMPLETED => "completed"
  | LOOP_UNKNOWN_EFFECT => "unknown_effect"
  end.

(** ** Plant snapshots *)
Record PhysicalStateSnapshot := mk_PhysicalStateSnapshot {
  ps_model_id : string;
  ps_simulator_version : string;
  ps_model_digest : string;
  ps_input_digest : string;
  ps_topology_digest : string;
  ps_state_digest : string;
  ps_observation_digest : string;
  ps_observation_sequence : Z;
  ps_observation_source_id : string;
  ps_observation_clock_domain : string;
  ps_state_version : Z;
  ps_simulation_time_s : float;
  ps_observed_at : datetime;
  ps_converged : bool;
  ps_total_load_demand_mw : float;
  ps_served_load_mw : float;
  ps_unserved_load_mw : float;
  ps_total_load_served_pct : float;
  ps_priority_load_demand_mw : float;
  ps_priority_load_served_mw : float;
  ps_priority_load_served_pct : float;
  ps_minimum_voltage_pu : option float;
  ps_maximum_voltage_pu : option float;
  ps_maximum_line_loading_pct : option float;
  ps_voltage_violation_count : Z;
  ps_thermal_violation_count : Z;
  ps_unsafe_state : bool;
  ps_isolated_resources : list string;
  ps_battery_injection_mw : list (string * float);
  ps_bus_voltage_pu : list (option float);
  ps_line_loading_pct : list (option float);
}.
#[export] Instance PhysicalStateSnapshot_eq_dec : EqDecision PhysicalStateSnapshot.
Proof. solve_decision. Defined.

(** A constraint on a field that may be [None]. *)
Definition opt_field {A} (p : A → bool) (o : option A) : bool :=
  match o with Some x => p x | None => true end.

Definition PhysicalStateSnapshot_validate (s : PhysicalStateSnapshot) : result PhysicalStateSnapshot :=
  _ ← require (min_length 1 (ps_model_id s) && min_length 1 (ps_simulator_version s)
               && is_sha256 (ps_model_digest s) && is_sha256 (ps_input_digest s)
               && is_sha256 (ps_topology_digest s) && is_sha256 (ps_state_digest s)
               && is_sha256 (ps_observation_digest s) && (0 <=? ps_observation_sequence s)%Z
               && min_length 1 (ps_observation_source_id s)
               && min_length 1 (ps_observation_clock_domain s) && (0 <=? ps_state_version s)%Z
               && f_ge f0 (ps_simulation_time_s s) && f_ge f0 (ps_total_load_demand_mw s)
               && f_ge f0 (ps_served_load_mw s) && f_ge f0 (ps_unserved_load_mw s)
               && f_between f0 f100 (ps_total_load_served_pct s)
               && f_ge f0 (ps_priority_load_demand_mw s) && f_ge f0 (ps_priority_load_served_mw s)
               && f_between f0 f100 (ps_priority_load_served_pct s)
               && opt_field (f_gt f0) (ps_minimum_voltage_pu s)
               && opt_field (f_gt f0) (ps_maximum_voltage_pu s)
               && opt_field (f_ge f0) (ps_maximum_line_loading_pct s)
               && (0 <=? ps_voltage_violation_count s)%Z && (0 <=? ps_thermal_violation_count s)%Z
               && forallb is_finite (ps_battery_injection_mw s).*2
               && forallb (opt_field is_finite) (ps_bus_voltage_pu s)
               && forallb (opt_field is_finite) (ps_line_loading_pct s))
      "ValidationError" "field constraint";
  _ ← require (dt_aware (ps_observed_at s)) "ValidationError" "observed_at must be timezone-aware";
  Ok s.

(** ** Commands *)
Record PhysicalControlCommand := mk_PhysicalControlCommand {
  command_id : string;
  command_proposal_id : string;
  command_operation : Operation;
  command_resource : string;
  command_type : PhysicalCommandType;
  target : string;
  target_index : Z;
  setpoint : float;
  unit_ : string;
}.
#[export] Instance PhysicalControlCommand_eq_dec : EqDecision PhysicalControlCommand.
Proof. solve_decision. Defined.

Definition PhysicalControlCommand_validate (c : PhysicalControlCommand) : result PhysicalControlCommand :=
  _ ← require (min_length 1 (command_id c) && min_length 1 (command_proposal_id c)
               && min_length 1 (command_resource c) && min_length 1 (target c)
               && (0 <=? target_index c)%Z && bool_decide (unit_ c ∈ ["boolean"; "MW"]))
      "ValidationError" "field constraint";
  _ ← require (is_finite (setpoint c)) "ValidationError" "setpoint must be finite";
  match command_type c with
  | SET_LINE_SERVICE =>
      _ ← require (bool_decide (unit_ c = "boolean") && (feqb (setpoint c) f0 || feqb (setpoint c) f1))
          "ValidationError" "line-service commands require a boolean 0 or 1 setpoint";
      _ ← require (bool_decide (command_operation c ∈ [ISOLATE_ASSET; RESTORE_ASSET]))
          "ValidationError" "line-service command operation is inconsistent";
      Ok c
  | SET_BATTERY_INJECTION =>
      _ ← require (bool_decide (unit_ c = "MW") && bool_decide (command_operation c = DISPATCH_BATTERY))
          "ValidationError" "battery commands require dispatch_battery in MW";
      Ok c
  end.

(** ** Candidate assessments, permits, acknowledgments, results *)
Record CandidateAssessment := mk_CandidateAssessment {
  assessment_id : string;
  as_command_digest : string;
  pre_state : PhysicalStateSnapshot;
  post_state : PhysicalStateSnapshot;
  as_safe : bool;
  as_reasons : list string;
}.

Record ExecutionPermit := mk_ExecutionPermit {
  permit_id : string;
  permit_nonce : string;
  pm_decision_id : string;
  pm_proposal_id : string;
  pm_proposal_digest : string;
  pm_command : PhysicalControlCommand;
  pm_command_digest : string;
  pm_assessment_digest : string;
  pm_state_version : Z;
  pm_state_digest : string;
  pm_observation_digest : string;
  pm_topology_digest : string;
  pm_model_digest : string;
  expected_post_state_version : Z;
  expected_post_state_digest : string;
  expected_post_topology_digest : string;
  pm_evidence_record_hash : string;
  pm_policy_version : string;
  pm_safety_version : string;
  audience : string;
  pm_issued_at : datetime;
  pm_expires_at : datetime;
  pm_signing_key_id : string;
  pm_signature : string;
}.

Record CommandAcknowledgment := mk_CommandAcknowledgment {
  acknowledgment_id : string;
  ack_permit_id : string;
  ack_permit_nonce : string;
  ack_command_id : string;
  ack_command_digest : string;
  ack_assessment_digest : string;
  ack_proposal_id : string;
  ack_decision_id : string;
  ack_device_id : string;
  device_scan : Z;
  ack_status : CommandStatus;
  ack_reason : string;
  ack_acknowledged_at : datetime;
  pre_state_digest : string;
  post_state_digest : option string;
  post_state_version : option Z;
  pre_actuator_setpoint : float;
  post_actuator_setpoint : option float;
  ack_simulation_time_s : float;
  ack_signing_key_id : string;
  ack_signature : string;
}.

Record ClosedLoopResult := mk_ClosedLoopResult {
  loop_status : ClosedLoopStatus;
  loop_reasons : list string;
  loop_proposal : ActionProposal;
  loop_pre_state : PhysicalStateSnapshot;
  loop_decision : Decision;
  loop_command : option PhysicalControlCommand;
  loop_assessment : option CandidateAssessment;
  loop_permit : option ExecutionPermit;
  loop_acknowledgment : option CommandAcknowledgment;
  loop_post_state : option PhysicalStateSnapshot;
  last_observed_state : PhysicalStateSnapshot;
  execution_evidence_hash : string;
}.

(** [permit.model_copy(update={"signature": s})] *)
Definition permit_with_signature (p : ExecutionPermit) (s : string) : ExecutionPermit :=
  mk_ExecutionPermit (permit_id p) (permit_nonce p) (pm_decision_id p) (pm_proposal_id p)
    (pm_proposal_digest p) (pm_command p) (pm_command_digest p) (pm_assessment_digest p)
    (pm_state_version p) (pm_state_digest p) (pm_observation_digest p) (pm_topology_digest p)
    (pm_model_digest p) (expected_post_state_version p) (expected_post_state_digest p)
    (expected_post_topology_digest p) (pm_evidence_record_hash p) (pm_policy_version p)
    (pm_safety_version p) (audience p) (pm_issued_at p) (pm_expires_at p) (pm_signing_key_id p) s.
Definition ack_with_signature (a : CommandAcknowledgment) (s : string) : CommandAcknowledgment :=
  mk_CommandAcknowledgment (acknowledgment_id a) (ack_permit_id a) (ack_permit_nonce a)
    (ack_command_id a) (ack_command_digest a) (ack_assessment_digest a) (ack_proposal_id a)
    (ack_decision_id a) (ack_device_id a) (device_scan a) (ack_status a) (ack_reason a)
    (ack_acknowledged_at a) (pre_state_digest a) (post_state_digest a) (post_state_version a)
    (pre_actuator_setpoint a) (post_actuator_setpoint a) (ack_simulation_time_s a)
    (ack_signing_key_id a) s.

(** The actuator a command addresses, as a snapshot shows it. *)
Definition actuator_setpoint (s : PhysicalStateSnapshot) (c : PhysicalControlCommand) : float :=
  match command_type c with
  | SET_LINE_SERVICE => if bool_decide (command_resource c ∈ ps_isolated_resources s) then f0 else f1
  | SET_BATTERY_INJECTION => default f0 (dict_get (command_resource c) (ps_battery_injection_mw s))
  end.

Section physical_models.
Context {ED : Ed25519}.
Context {DSt : ModelDump PhysicalStateSnapshot} {DCo : ModelDump PhysicalControlCommand}
  {DAs : ModelDump CandidateAssessment} {DPe : ModelDump ExecutionPermit}
  {DAc : ModelDump CommandAcknowledgment} {DPr : ModelDump ActionProposal}.

Definition proposal_digest (p : ActionProposal) : result string := canonical_digest (model_dump p).
Definition command_digest (c : PhysicalControlCommand) : result string := canonical_digest (model_dump c).
Definition assessment_digest (a : CandidateAssessment) : result string := canonical_digest (model_dump a).

Definition digest_material (s : PhysicalStateSnapshot) : json :=
  json_exclude ["state_digest"; "observation_digest"; "observation_sequence"; "observation_source_id";
                "observation_clock_domain"; "observed_at"] (model_dump s).
Definition observation_material (s : PhysicalStateSnapshot) : json :=
  JObj [("state_digest", JStr (ps_state_digest s)); ("observed_at", JStr (isoformat (ps_observed_at s)));
        ("observation_sequence", JInt (ps_observation_sequence s));
        ("observation_source_id", JStr (ps_observation_source_id s));
        ("observation_clock_domain", JStr (ps_observation_clock_domain s))].

(** [PhysicalStateSnapshot.verify_digest]: the second digest is not computed when
    the first differs. *)
Definition verify_digest (s : PhysicalStateSnapshot) : result bool :=
  d ← canonical_digest (digest_material s);
  if bool_decide (ps_state_digest s = d)
  then o ← canonical_digest (observation_material s); Ok (bool_decide (ps_observation_digest s = o))
  else Ok false.

(** [a.verify_digest() and b.verify_digest()] *)
Definition digests_valid (a b : PhysicalStateSnapshot) : result bool :=
  a_ok ← verify_digest a;
  if (a_ok : bool) then verify_digest b else Ok false.

Definition CandidateAssessment_validate (a : CandidateAssessment) : result CandidateAssessment :=
  _ ← PhysicalStateSnapshot_validate (pre_state a);
  _ ← PhysicalStateSnapshot_validate (post_state a);
  _ ← require (min_length 1 (assessment_id a) && is_sha256 (as_command_digest a))
      "ValidationError" "field constraint";
  _ ← require (bool_decide (ps_model_digest (pre_state a) = ps_model_digest (post_state a)))
      "ValidationError" "candidate assessment model digest changed";
  valid ← digests_valid (pre_state a) (post_state a);
  _ ← require valid "ValidationError" "candidate assessment contains an invalid state digest";
  _ ← require (ps_state_version (post_state a) =? ps_state_version (pre_state a) + 1)%Z
      "ValidationError" "candidate assessment must advance exactly one state version";
  _ ← require (negb (fleb (ps_simulation_time_s (post_state a)) (ps_simulation_time_s (pre_state a))))
      "ValidationError" "candidate assessment must advance simulation time";
  _ ← require (negb (dt_leb (ps_observed_at (post_state a)) (ps_observed_at (pre_state a))))
      "ValidationError" "candidate assessment must advance observation time";
  _ ← require (negb (as_safe a && negb (bool_decide (as_reasons a = []))))
      "ValidationError" "a safe assessment cannot contain failure reasons";
  _ ← require (negb (negb (as_safe a) && bool_decide (as_reasons a = [])))
      "ValidationError" "an unsafe assessment requires at least one reason";
  _ ← require (negb (Bool.eqb (as_safe a) (ps_unsafe_state (post_state a))))
      "ValidationError" "candidate safety is inconsistent with the post-state";
  Ok a.

Definition ExecutionPermit_validate (p : ExecutionPermit) : result ExecutionPermit :=
  _ ← PhysicalControlCommand_validate (pm_command p);
  _ ← require (min_length 1 (permit_id p) && min_length 16 (permit_nonce p)
               && min_length 1 (pm_decision_id p) && min_length 1 (pm_proposal_id p)
               && is_sha256 (pm_proposal_digest p) && is_sha256 (pm_command_digest p)
               && is_sha256 (pm_assessment_digest p) && (0 <=? pm_state_version p)%Z
               && is_sha256 (pm_state_digest p) && is_sha256 (pm_observation_digest p)
               && is_sha256 (pm_topology_digest p) && is_sha256 (pm_model_digest p)
               && (1 <=? expected_post_state_version p)%Z && is_sha256 (expected_post_state_digest p)
               && is_sha256 (expected_post_topology_digest p) && is_sha256 (pm_evidence_record_hash p)
               && min_length 1 (pm_policy_version p) && min_length 1 (pm_safety_version p)
               && min_length 1 (audience p) && min_length 1 (pm_signing_key_id p))
      "ValidationError" "field constraint";
  _ ← require (dt_aware (pm_issued_at p) && dt_aware (pm_expires_at p))
      "ValidationError" "permit timestamps must be timezone-aware";
  _ ← require (negb (dt_leb (pm_expires_at p) (pm_issued_at p)))
      "ValidationError" "permit expiry must be after issuance";
  _ ← require (bool_decide (command_proposal_id (pm_command p) = pm_proposal_id p))
      "ValidationError" "permit command does not match proposal";
  d ← command_digest (pm_command p);
  _ ← require (bool_decide (d = pm_command_digest p))
      "ValidationError" "permit command digest is inconsistent";
  _ ← require (expected_post_state_version p =? pm_state_version p + 1)%Z
      "ValidationError" "permit post-state version must be the next state";
  Ok p.

Definition permit_signing_payload (p : ExecutionPermit) : result string :=
  dumps_strict (json_exclude ["signature"] (model_dump p)).
Definition permit_signed (p : ExecutionPermit) (k : private_key) : result ExecutionPermit :=
  b ← permit_signing_payload p; Ok (permit_with_signature p (sign_bytes k b)).
Definition permit_verify (p : ExecutionPermit) (k : public_key) : result bool :=
  signature_valid k (pm_signature p) (permit_signing_payload p).

Definition CommandAcknowledgment_validate (a : CommandAcknowledgment) : result CommandAcknowledgment :=
  _ ← require (min_length 1 (acknowledgment_id a) && min_length 1 (ack_permit_id a)
               && min_length 16 (ack_permit_nonce a) && min_length 1 (ack_command_id a)
               && is_sha256 (ack_command_digest a) && is_sha256 (ack_assessment_digest a)
               && min_length 1 (ack_proposal_id a) && min_length 1 (ack_decision_id a)
               && min_length 1 (ack_device_id a) && (1 <=? device_scan a)%Z
               && min_length 1 (ack_reason a) && is_sha256 (pre_state_digest a)
               && opt_field is_sha256 (post_state_digest a)
               && opt_field (λ v, 0 <=? v)%Z (post_state_version a)
               && is_finite (pre_actuator_setpoint a) && opt_field is_finite (post_actuator_setpoint a)
               && f_ge f0 (ack_simulation_time_s a) && min_length 1 (ack_signing_key_id a))
      "ValidationError" "field constraint";
  _ ← require (dt_aware (ack_acknowledged_at a)) "ValidationError" "acknowledged_at must be timezone-aware";
  _ ← match ack_status a with
      | APPLIED =>
          require (bool_decide (is_Some (post_state_digest a)) && bool_decide (is_Some (post_state_version a))
                   && bool_decide (is_Some (post_actuator_setpoint a)))
            "ValidationError" "applied acknowledgment requires post-state readback"
      | _ => require (bool_decide (post_state_digest a = None) && bool_decide (post_state_version a = None))
               "ValidationError" "non-applied acknowledgment cannot assert a post-state"
      end;
  _ ← match ack_status a with
      | REJECTED =>
          require (match post_actuator_setpoint a with
                   | Some f => feqb f (pre_actuator_setpoint a) | None => false end)
            "ValidationError" "rejected acknowledgment must evidence an unchanged actuator"
      | UNKNOWN_EFFECT => require (bool_decide (post_actuator_setpoint a = None))
            "ValidationError" "unknown-effect acknowledgment cannot assert actuator effect"
      | APPLIED => Ok tt
      end;
  Ok a.

Definition ack_signing_payload (a : CommandAcknowledgment) : result string :=
  dumps_strict (json_exclude ["signature"] (model_dump a)).
Definition ack_signed (a : CommandAcknowledgment) (k : private_key) : result CommandAcknowledgment :=
  b ← ack_signing_payload a; Ok (ack_with_signature a (sign_bytes k b)).
Definition ack_verify (a : CommandAcknowledgment) (k : public_key) : result bool :=
  signature_valid k (ack_signature a) (ack_signing_payload a).

Definition identifiers_match (a : CommandAcknowledgment) (permit : ExecutionPermit)
    (device key : string) : bool :=
  bool_decide (ack_permit_id a = permit_id permit) && bool_decide (ack_permit_nonce a = permit_nonce permit)
  && bool_decide (ack_command_id a = command_id (pm_command permit))
  && bool_decide (ack_command_digest a = pm_command_digest permit)
  && bool_decide (ack_assessment_digest a = pm_assessment_digest permit)
  && bool_decide (ack_proposal_id a = pm_proposal_id permit)
  && bool_decide (ack_decision_id a = pm_decision_id permit)
  && bool_decide (ack_device_id a = device) && bool_decide (ack_signing_key_id a = key).

Definition feqb_opt (o : option float) (f : float) : bool :=
  match o with Some x => feqb x f | None => false end.

(** The status part of [verify_for_transaction]. *)
Definition disposition_matches (a : CommandAcknowledgment) (permit : ExecutionPermit)
    (pre readback : PhysicalStateSnapshot) : bool :=
  match ack_status a with
  | APPLIED =>
      dt_leb (pm_issued_at permit) (ack_acknowledged_at a) && dt_ltb (ack_acknowledged_at a) (pm_expires_at permit)
      && feqb (ack_simulation_time_s a) (ps_simulation_time_s readback)
      && bool_decide (pre_state_digest a = ps_state_digest pre)
      && bool_decide (ps_state_digest pre = pm_state_digest permit)
      && bool_decide (ps_topology_digest pre = pm_topology_digest permit)
      && bool_decide (ps_observation_digest pre = pm_observation_digest permit)
      && bool_decide (post_state_digest a = Some (expected_post_state_digest permit))
      && bool_decide (post_state_version a = Some (expected_post_state_version permit))
      && bool_decide (Some (ps_state_digest readback) = post_state_digest a)
      && bool_decide (Some (ps_state_version readback) = post_state_version a)
      && bool_decide (ps_topology_digest readback = expected_post_topology_digest permit)
      && feqb (pre_actuator_setpoint a) (actuator_setpoint pre (pm_command permit))
      && feqb_opt (post_actuator_setpoint a) (setpoint (pm_command permit))
  | REJECTED =>
      dt_leb (pm_issued_at permit) (ack_acknowledged_at a)
      && feqb (ack_simulation_time_s a) (ps_simulation_time_s readback)
      && bool_decide (pre_state_digest a = ps_state_digest pre)
      && bool_decide (ps_state_digest pre = ps_state_digest readback)
      && (ps_state_version pre =? ps_state_version readback)%Z
      && bool_decide (ps_topology_digest pre = ps_topology_digest readback)
  | UNKNOWN_EFFECT => true
  end.

Definition verify_for_transaction (a : CommandAcknowledgment) (k : public_key) (permit : ExecutionPermit)
    (pre readback : PhysicalStateSnapshot) (device key : string) : result bool :=
  if negb (identifiers_match a permit device key) then Ok false else
  signed ← ack_verify a k;
  if negb signed then Ok false else
  valid ← digests_valid pre readback;
  if valid && bool_decide (ps_model_digest pre = ps_model_digest readback)
     && bool_decide (ps_model_digest readback = pm_model_digest permit)
  then Ok (disposition_matches a permit pre readback)
  else Ok false.

(** The model's own check; nested models were constructed before. *)
Definition ClosedLoopResult_validate (r : ClosedLoopResult) : result ClosedLoopResult :=
  _ ← require (is_sha256 (execution_evidence_hash r)) "ValidationError" "field constraint";
  _ ← match loop_status r with
      | COMPLETED =>
          _ ← require (match loop_acknowledgment r with
                       | Some a => bool_decide (ack_status a = APPLIED) | None => false end)
              "ValidationError" "completed result requires an applied acknowledgment";
          _ ← require (bool_decide (is_Some (loop_permit r)) && bool_decide (is_Some (loop_assessment r))
                       && bool_decide (is_Some (loop_command r)))
              "ValidationError" "completed result requires the complete authorization path";
          _ ← require (bool_decide (is_Some (loop_post_state r)))
              "ValidationError" "completed result requires a verified post-state";
          require (bool_decide (ps_state_digest <$> loop_post_state r
                                = loop_acknowledgment r ≫= post_state_digest))
            "ValidationError" "completed result readback does not match acknowledgment"
      | _ => Ok tt
      end;
  _ ← require (negb (bool_decide (loop_status r = LOOP_UNKNOWN_EFFECT)
                     && bool_decide (is_Some (loop_post_state r))))
      "ValidationError" "unknown-effect result cannot assert a verified post-state";
  Ok r.
End physical_models.
