(* ===== verification/PhysicalControl.v ===== *)
(** * Translation and permits ([src/src/aegis_ot/physical_control.py])

    The plant is the class [Plant]: the pandapower adapter, the Modbus device and
    the capability plant are third-party or separate processes behind it.  The
    controller uses a device through the class [ControlDevice]. *)
From S2P Require Import Prelude PyFloat PyStr PyTime PyJson Sha256 Crypto Models.
From S2P Require Import Delegation Replay Policy Safety Evidence Admission Gateway PhysicalModels.
From Stdlib Require Import SpecFloat.

(** ** Interfaces *)
(** [StateCandidateSource] and [TransactionalPhysicalPlant]: the five optional
    expectations of [apply_authorized_command] are always given by the device. *)
Class Plant (T : Type) := {
  capture_state : M T PhysicalStateSnapshot;
  read_plant : M T PhysicalStateSnapshot;
  simulate_candidate : PhysicalControlCommand → M T CandidateAssessment;
  apply_authorized_command : PhysicalControlCommand → Z → string → string → string → string →
                             M T PhysicalStateSnapshot;
}.

Class ControlDevice (D T : Type) := {
  device_id_of : D → string;
  acknowledgment_key_id_of : D → string;
  device_execute : ExecutionPermit → ActionProposal → Decision → CandidateAssessment →
                   M (D * T * World) CommandAcknowledgment;
}.

(** ** The trusted translator *)
Record ResourceBinding := mk_ResourceBinding {
  rb_resource : string;
  rb_command_type : PhysicalCommandType;
  rb_target : string;
  rb_target_index : Z;
  minimum_setpoint : float;
  maximum_setpoint : float;
}.

Definition DEFAULT_RESOURCE_BINDINGS : gmap string ResourceBinding :=
  {["feeder-1" := mk_ResourceBinding "feeder-1" SET_LINE_SERVICE "Line 5-6" 4 f0 f1;
    "feeder-2" := mk_ResourceBinding "feeder-2" SET_LINE_SERVICE "Line 8-9" 6 f0 f1;
    "battery-1" := mk_ResourceBinding "battery-1" SET_BATTERY_INJECTION "Battery 1" 0 (flit (-1) 1) f1]}.

(** The set-point and unit an operation asks of a binding. *)
Definition translate_setpoint (b : ResourceBinding) (p : ActionProposal) : result (float * string) :=
  match operation p with
  | ISOLATE_ASSET | RESTORE_ASSET =>
      _ ← require (bool_decide (rb_command_type b = SET_LINE_SERVICE))
          "CommandTranslationError" "operation_resource_type_mismatch";
      Ok (if bool_decide (operation p = ISOLATE_ASSET) then f0 else f1, "boolean")
  | DISPATCH_BATTERY =>
      _ ← require (bool_decide (rb_command_type b = SET_BATTERY_INJECTION))
          "CommandTranslationError" "operation_resource_type_mismatch";
      match dict_get "mw" (parameters p) with
      | None => raise_ "CommandTranslationError" "battery_setpoint_missing"
      | Some v => f ← py_float v; Ok (f, "MW")
      end
  | SHED_LOAD => raise_ "CommandTranslationError" "operation_not_supported_by_physical_adapter"
  end.

Definition translate `{Env} (bindings : gmap string ResourceBinding) (p : ActionProposal) :
    M World PhysicalControlCommand :=
  b ← lift match bindings !! resource p with
           | Some b => Ok b | None => raise_ "CommandTranslationError" "resource_not_mapped" end;
  '(sp, u) ← lift (translate_setpoint b p);
  _ ← lift (require (fleb (minimum_setpoint b) sp && fleb sp (maximum_setpoint b))
              "CommandTranslationError" "setpoint_out_of_bounds");
  cid ← uuid4;
  lift (PhysicalControlCommand_validate
    (mk_PhysicalControlCommand cid (proposal_id p) (operation p) (resource p) (rb_command_type b)
       (rb_target b) (rb_target_index b) sp u)).

(** ** What the translator guarantees *)
(** The bindings a deployment may supply: a named actuator, finite bounds. *)
Definition binding_ok (b : ResourceBinding) : bool :=
  min_length 1 (rb_target b) && (0 <=? rb_target_index b)%Z
  && is_finite (minimum_setpoint b) && is_finite (maximum_setpoint b).
Definition bindings_ok (m : gmap string ResourceBinding) : Prop :=
  ∀ r b, m !! r = Some b → binding_ok b = true.

Lemma default_bindings_ok : bindings_ok DEFAULT_RESOURCE_BINDINGS.
Proof.
  intros r b H. unfold DEFAULT_RESOURCE_BINDINGS in H.
  repeat (apply lookup_insert_Some in H as [[_ <-]|[_ H]]; [reflexivity|]).
  apply lookup_singleton_Some in H as [_ <-]. reflexivity.
Qed.

(** The set-point of a constructed proposal is computed or refused. *)
Lemma translate_setpoint_run b p :
  proposal_facts p →
  match translate_setpoint b p with
  | Raise e => exn_type e = "CommandTranslationError"
  | Ok (sp, u) => is_finite sp = true ∧
      match rb_command_type b with
      | SET_LINE_SERVICE => u = "boolean" ∧ (sp = f0 ∨ sp = f1)
          ∧ (operation p = ISOLATE_ASSET ∨ operation p = RESTORE_ASSET)
      | SET_BATTERY_INJECTION => u = "MW" ∧ operation p = DISPATCH_BATTERY
          ∧ ∃ v, dict_get "mw" (parameters p) = Some v ∧ py_float v = Ok sp
      end
  end.
Proof.
  intros Hp. unfold translate_setpoint.
  destruct (operation p) eqn:Hop; [| |done|]; destruct (rb_command_type b); try done.
  - simpl. split_and!; auto.
  - simpl. split_and!; auto.
  - destruct (dict_get "mw" (parameters p)) as [v|] eqn:Hv; [|done].
    destruct (pf_numbers p Hp _ _ (dict_get_elem _ _ _ Hv)) as (f & Hf & Hfin & _).
    simpl. rewrite Hf. simpl. split_and!; eauto.
Qed.

(** The translator answers every constructed proposal, for every well-formed
    table of bindings: either with a command that passes the command model's
    checks, carries the proposal's identifier, operation and resource, addresses
    the bound actuator, and whose set-point is the one the operation asks for
    and within the binding's limits; or with a [CommandTranslationError], which
    the controller turns into a refusal. *)
Theorem translate_total `{Env} bindings p w :
  ActionProposal_validate p = Ok p → bindings_ok bindings → (∀ n, uuid_at n ≠ "") →
  match (translate bindings p w).1 with
  | Raise e => exn_type e = "CommandTranslationError"
  | Ok c => PhysicalControlCommand_validate c = Ok c
      ∧ command_proposal_id c = proposal_id p ∧ command_operation c = operation p
      ∧ command_resource c = resource p
      ∧ ∃ b, bindings !! resource p = Some b ∧ command_type c = rb_command_type b
          ∧ target c = rb_target b ∧ target_index c = rb_target_index b
          ∧ translate_setpoint b p = Ok (setpoint c, unit_ c)
          ∧ fleb (minimum_setpoint b) (setpoint c) = true ∧ fleb (setpoint c) (maximum_setpoint b) = true
  end.
Proof.
  intros Hv Hb Hu. pose proof (ActionProposal_validate_Ok _ _ Hv) as [_ Hp].
  assert (min_length 1 (proposal_id p) = true ∧ min_length 1 (resource p) = true) as [Hpid Hres].
  { unfold ActionProposal_validate in Hv. inv_ok. done. }
  unfold translate, mbind, M_bind, lift.
  destruct (bindings !! resource p) as [b|] eqn:Hl; [|done].
  pose proof (Hb _ _ Hl) as Hok. unfold binding_ok in Hok. bool_split.
  rename select (min_length 1 (rb_target b) = true) into Htgt.
  pose proof (translate_setpoint_run b p Hp) as Hsp.
  destruct (translate_setpoint b p) as [[sp u]|e] eqn:Hts; [|done].
  destruct Hsp as [Hfin Hty].
  destruct (fleb (minimum_setpoint b) sp) eqn:Hmin; [|done].
  destruct (fleb sp (maximum_setpoint b)) eqn:Hmax; [|done].
  set (c := mk_PhysicalControlCommand (uuid_at (w_uuid w)) (proposal_id p) (operation p) (resource p)
    (rb_command_type b) (rb_target b) (rb_target_index b) sp u).
  assert (Hc : PhysicalControlCommand_validate c = Ok c).
  { unfold PhysicalControlCommand_validate, c, require. cbn [command_id command_proposal_id
      command_operation command_resource command_type target target_index setpoint unit_].
    rewrite Hpid, Hres. replace (min_length 1 (uuid_at (w_uuid w))) with true; cycle 1.
    { specialize (Hu (w_uuid w)). destruct (uuid_at (w_uuid w)) as [|a s]; [done|].
      symmetry. unfold min_length, str_len. apply Z.leb_le. simpl String.length. lia. }
    rewrite Htgt. replace (0 <=? rb_target_index b)%Z with true by (symmetry; by apply Z.leb_le).
    destruct (rb_command_type b); destruct Hty as (-> & Hty).
    - destruct Hty as [[-> | ->] [-> | ->]]; reflexivity.
    - destruct Hty as (-> & _). rewrite Hfin. reflexivity. }
  cbn. fold c. rewrite Hc. cbn. split_and!; try done. exists b. done.
Qed.

(** The measured state as the gateway's. *)
Definition physical_state_to_gateway_state (s : PhysicalStateSnapshot) : result SystemState :=
  match ps_converged s, ps_minimum_voltage_pu s, ps_maximum_voltage_pu s, ps_maximum_line_loading_pct s with
  | true, Some lo, Some hi, Some loading =>
      SystemState_validate (mk_SystemState (ps_state_version s) (ps_observed_at s)
        (ps_priority_load_served_pct s) lo hi loading (list_to_set (ps_isolated_resources s))
        (default f0 (dict_get "battery-1" (ps_battery_injection_mw s))))
  | _, _, _, _ => raise_ "PhysicalSimulationError" "physical_state_not_usable_for_authorization"
  end.

(** ** Python's [==] on dumped values
    Dicts compare by key, numbers by value: [True], [1] and [1.0] are equal. *)
(** A finite number as [m * 2 ^ e]. *)
Definition number_value (j : json) : option (Z * Z) :=
  match j with
  | JBool b => Some (if b then 1 else 0, 0)%Z
  | JInt z => Some (z, 0)%Z
  | JFloat (S754_zero _) => Some (0, 0)%Z
  | JFloat (S754_finite s m e) => Some (if s then Zneg m else Zpos m, e)
  | _ => None
  end.
Definition number_same (a b : Z * Z) : bool :=
  let e := Z.min a.2 b.2 in (a.1 * 2 ^ (a.2 - e) =? b.1 * 2 ^ (b.2 - e))%Z.

Fixpoint value_same (a b : json) : bool :=
  match a, b with
  | JNull, JNull => true
  | JStr x, JStr y => bool_decide (x = y)
  | JArr x, JArr y =>
      (fix go (l1 l2 : list json) : bool :=
         match l1, l2 with
         | [], [] => true
         | a :: l1, b :: l2 => value_same a b && go l1 l2
         | _, _ => false
         end) x y
  | JObj x, JObj y =>
      (fix go (l1 l2 : list (string * json)) : bool :=
         match l1, l2 with
         | [], [] => true
         | (k, a) :: l1, (k', b) :: l2 => bool_decide (k = k') && value_same a b && go l1 l2
         | _, _ => false
         end) x y
  | _, _ =>
      match number_value a, number_value b with
      | Some x, Some y => number_same x y
      | _, _ => match a, b with JFloat x, JFloat y => feqb x y | _, _ => false end
      end
  end.
(** Keys are unique in a dict; sorting them makes the comparison positional. *)
Definition json_same (a b : json) : bool := value_same (canon a) (canon b).

Lemma number_same_refl x : number_same x x = true.
Proof. unfold number_same. apply Z.eqb_refl. Qed.
Lemma value_same_refl j : has_nan j = false → value_same j j = true.
Proof.
  induction j as [| | |f| |l IH|l IH] using json_nested_ind; intros Hn; simpl in *; try done.
  - apply number_same_refl.
  - apply number_same_refl.
  - destruct f; try done; apply number_same_refl.
  - by apply bool_decide_eq_true.
  - induction IH as [|x l Hx _ IH]; [done|]. simpl in Hn. apply orb_false_iff in Hn as [H1 H2].
    by rewrite Hx, IH.
  - induction IH as [|[k x] l Hx _ IH]; [done|]. simpl in Hn, Hx. apply orb_false_iff in Hn as [H1 H2].
    rewrite Hx, IH by done. by rewrite bool_decide_eq_true_2.
Qed.

(** [payload.get(key) == j] *)
Definition payload_field_is (r : EvidenceRecord) (key : string) (j : json) : bool :=
  match payload r with
  | JObj kv => match dict_get key kv with Some v => json_same v j | None => false end
  | _ => false
  end.

Section control.
Context {ED : Ed25519} {E : Env}.
Context {DSt : ModelDump PhysicalStateSnapshot} {DCo : ModelDump PhysicalControlCommand}
  {DAs : ModelDump CandidateAssessment} {DPe : ModelDump ExecutionPermit}
  {DAc : ModelDump CommandAcknowledgment} {DPr : ModelDump ActionProposal}
  {DDe : ModelDump Decision} {DSy : ModelDump SystemState}.

(** ** Permit issuance *)
Record ExecutionPermitIssuer := mk_ExecutionPermitIssuer {
  issuer_key : private_key;
  issuer_key_id : string;
  issuer_audience : string;
  time_to_live : timedelta;
}.
Definition ExecutionPermitIssuer_init (k : private_key) (kid aud : string) (ttl : timedelta) :
    result ExecutionPermitIssuer :=
  _ ← require (0 <? ttl)%Z "ValueError" "permit time_to_live must be positive";
  Ok (mk_ExecutionPermitIssuer k kid aud ttl).

(** Re-validation of the artifacts; a [ValidationError] becomes the issuer's error. *)
Definition revalidate (p : ActionProposal) (c : PhysicalControlCommand) (a : CandidateAssessment) :
    result unit :=
  match (_ ← ActionProposal_validate p; _ ← PhysicalControlCommand_validate c;
         _ ← CandidateAssessment_validate a; Ok tt) with
  | Ok tt => Ok tt
  | Raise e => if isinstance_exn e "ValidationError"
               then raise_ "PermitIssuanceError" "authorization_artifact_not_structurally_valid"
               else Raise e
  end.

Definition issue_require (c : bool) (msg : string) : result unit := require c "PermitIssuanceError" msg.

Definition find_record (chain : EvidenceChain) (h : string) : option EvidenceRecord :=
  List.find (λ r, bool_decide (record_hash r = h)) chain.

(** The checks of [issue], giving the evidence hash and the command's and
    candidate's digests. *)
Definition issue_checks (chain : EvidenceChain) (p : ActionProposal) (d : Decision)
    (c : PhysicalControlCommand) (a : CandidateAssessment) : result string :=
  _ ← revalidate p c a;
  _ ← issue_require (bool_decide (outcome d = PERMIT)) "decision_not_permit";
  _ ← issue_require (bool_decide (decision_proposal_id d = proposal_id p)) "proposal_decision_mismatch";
  _ ← issue_require (bool_decide (command_proposal_id c = proposal_id p)) "proposal_command_mismatch";
  _ ← issue_require (as_safe a) "candidate_not_safe";
  cd ← command_digest c;
  _ ← issue_require (bool_decide (as_command_digest a = cd)) "candidate_command_mismatch";
  _ ← issue_require (state_version d =? ps_state_version (pre_state a))%Z "decision_state_version_mismatch";
  pre_ok ← verify_digest (pre_state a);
  _ ← issue_require pre_ok "candidate_pre_state_digest_invalid";
  h ← match evidence_record_hash d with
      | Some h => Ok h | None => raise_ "PermitIssuanceError" "decision_evidence_missing" end;
  _ ← issue_require (EvidenceChain_verify chain) "decision_evidence_chain_invalid";
  r ← match find_record chain h with
      | Some r => Ok r | None => raise_ "PermitIssuanceError" "decision_evidence_not_found" end;
  _ ← issue_require (bool_decide (ev_proposal_id r = proposal_id p)
                     && bool_decide (ev_decision_id r = decision_id d)
                     && payload_field_is r "proposal" (model_dump p))
      "decision_evidence_binding_mismatch";
  gateway_state ← physical_state_to_gateway_state (pre_state a);
  _ ← issue_require (payload_field_is r "state" (model_dump gateway_state))
      "decision_evidence_binding_mismatch";
  _ ← issue_require (payload_field_is r "decision" (model_dump (with_evidence d None)))
      "decision_evidence_binding_mismatch";
  Ok h.

Definition issue (i : ExecutionPermitIssuer) (chain : EvidenceChain) (p : ActionProposal) (d : Decision)
    (c : PhysicalControlCommand) (a : CandidateAssessment) : M World ExecutionPermit :=
  issued_at ← now_utc;
  h ← lift (issue_checks chain p d c a);
  pid ← uuid4;
  pnonce ← uuid4;
  pd ← lift (proposal_digest p);
  cd ← lift (command_digest c);
  ad ← lift (assessment_digest a);
  permit ← lift (ExecutionPermit_validate
    (mk_ExecutionPermit pid pnonce (decision_id d) (proposal_id p) pd c cd ad
       (ps_state_version (pre_state a)) (ps_state_digest (pre_state a))
       (ps_observation_digest (pre_state a)) (ps_topology_digest (pre_state a))
       (ps_model_digest (pre_state a)) (ps_state_version (post_state a))
       (ps_state_digest (post_state a)) (ps_topology_digest (post_state a)) h (policy_version d)
       (safety_version d) (issuer_audience i) issued_at (dt_plus issued_at (time_to_live i))
       (issuer_key_id i) ""));
  lift (permit_signed permit (issuer_key i)).

(** ** What a permit guarantees *)
(** The decision's record in the chain names the proposal, the decision and the
    state the gateway saw. *)
Record recorded_decision (chain : EvidenceChain) (p : ActionProposal) (d : Decision)
    (a : CandidateAssessment) (h : string) : Prop := {
  rd_named : evidence_record_hash d = Some h;
  rd_verified : EvidenceChain_verify chain = true;
  rd_record : ∃ r gateway_state, r ∈ chain ∧ record_hash r = h
    ∧ ev_proposal_id r = proposal_id p ∧ ev_decision_id r = decision_id d
    ∧ physical_state_to_gateway_state (pre_state a) = Ok gateway_state
    ∧ payload_field_is r "proposal" (model_dump p) = true
    ∧ payload_field_is r "state" (model_dump gateway_state) = true
    ∧ payload_field_is r "decision" (model_dump (with_evidence d None)) = true;
}.

(** What the issuer checked of its four artifacts. *)
Record issuable (chain : EvidenceChain) (p : ActionProposal) (d : Decision)
    (c : PhysicalControlCommand) (a : CandidateAssessment) (h : string) : Prop := {
  is_valid : ActionProposal_validate p = Ok p ∧ PhysicalControlCommand_validate c = Ok c
    ∧ CandidateAssessment_validate a = Ok a;
  is_permit : outcome d = PERMIT;
  is_proposal : decision_proposal_id d = proposal_id p ∧ command_proposal_id c = proposal_id p;
  is_candidate : as_safe a = true ∧ ps_unsafe_state (post_state a) = false
    ∧ command_digest c = Ok (as_command_digest a);
  is_state : state_version d = ps_state_version (pre_state a) ∧ verify_digest (pre_state a) = Ok true;
  is_recorded : recorded_decision chain p d a h;
}.

Lemma revalidate_Ok p c a :
  revalidate p c a = Ok tt →
  ActionProposal_validate p = Ok p ∧ PhysicalControlCommand_validate c = Ok c
  ∧ CandidateAssessment_validate a = Ok a ∧ (as_safe a = negb (ps_unsafe_state (post_state a))).
Proof using Type.
  unfold revalidate. destruct (_ ≫= _) as [[]|e] eqn:H; [|by destruct (isinstance_exn _ _)].
  intros _. inv_ok.
  match goal with H1 : ActionProposal_validate p = Ok ?x, H2 : PhysicalControlCommand_validate c = Ok ?y,
    H3 : CandidateAssessment_validate a = Ok ?z |- _ =>
    assert (x = p) by (by apply ActionProposal_validate_Ok in H1 as [-> _]);
    assert (y = c) by (clear - H2; unfold PhysicalControlCommand_validate in H2; inv_ok;
                       destruct (command_type c); by inv_ok);
    assert (z = a ∧ as_safe a = negb (ps_unsafe_state (post_state a))) as [-> ?]
      by (clear - H3; unfold CandidateAssessment_validate in H3; inv_ok;
          destruct (as_safe z), (ps_unsafe_state (post_state z)); done)
  end. by subst.
Qed.

Lemma find_record_Some chain h r : find_record chain h = Some r → r ∈ chain ∧ record_hash r = h.
Proof using Type.
  unfold find_record. intros [Hin Hh]%List.find_some. apply bool_decide_eq_true in Hh.
  split; [by apply list_elem_of_In|done].
Qed.

Lemma issue_checks_Ok chain p d c a h :
  issue_checks chain p d c a = Ok h → issuable chain p d c a h.
Proof using Type.
  unfold issue_checks, issue_require. intros H. inv_ok.
  match goal with H1 : revalidate _ _ _ = Ok ?u |- _ =>
    destruct u; apply revalidate_Ok in H1 as (Hp & Hc & Ha & Hsafe) end.
  destruct (evidence_record_hash d) as [h'|] eqn:Hh; inv_ok.
  destruct (find_record chain h) as [r|] eqn:Hr; inv_ok.
  apply find_record_Some in Hr as [Hin Hrh].
  split; try done.
  - split_and!; [done| |done]. apply negb_true_iff. by rewrite <- Hsafe.
  - split; [done|done|]. eauto 12.
Qed.

(** The permit [issue] builds, before its signature. *)
Definition permit_body (i : ExecutionPermitIssuer) (p : ActionProposal) (d : Decision)
    (c : PhysicalControlCommand) (a : CandidateAssessment) (h pid pnonce pd cd ad : string)
    (issued_at : datetime) : ExecutionPermit :=
  mk_ExecutionPermit pid pnonce (decision_id d) (proposal_id p) pd c cd ad
    (ps_state_version (pre_state a)) (ps_state_digest (pre_state a))
    (ps_observation_digest (pre_state a)) (ps_topology_digest (pre_state a))
    (ps_model_digest (pre_state a)) (ps_state_version (post_state a))
    (ps_state_digest (post_state a)) (ps_topology_digest (post_state a)) h (policy_version d)
    (safety_version d) (issuer_audience i) issued_at (dt_plus issued_at (time_to_live i))
    (issuer_key_id i) "".

Lemma issue_run i chain p d c a w permit w' :
  issue i chain p d c a w = (Ok permit, w') →
  ∃ h pd cd ad b, issuable chain p d c a h
    ∧ proposal_digest p = Ok pd ∧ command_digest c = Ok cd ∧ assessment_digest a = Ok ad
    ∧ let body := permit_body i p d c a h (uuid_at (w_uuid w)) (uuid_at (S (w_uuid w))) pd cd ad
                    (clock_at (w_clock w)) in
      ExecutionPermit_validate body = Ok body ∧ permit_signing_payload body = Ok b
      ∧ permit = permit_with_signature body (sign_bytes (issuer_key i) b).
Proof using Type.
  unfold issue. rewrite M_bind_Ok. intros (t & w1 & Ht & H). injection Ht as <- <-.
  repeat (rewrite M_bind_Ok in H || setoid_rewrite M_bind_Ok in H).
  destruct H as (h & w2 & [Hh ->]%lift_Ok & pid & w3 & [= <- <-] & pn & w4 & [= <- <-] & pd & w5 &
    [Hpd ->]%lift_Ok & cd & w6 & [Hcd ->]%lift_Ok & ad & w7 & [Had ->]%lift_Ok & body & w8 &
    [Hb ->]%lift_Ok & [Hs ->]%lift_Ok).
  exists h, pd, cd, ad. unfold permit_signed in Hs. apply result_bind_Ok in Hs as (b & Hb' & [= <-]).
  exists b. split; [by apply issue_checks_Ok|]. do 3 (split; [done|]). cbv zeta.
  assert (body = permit_body i p d c a h (uuid_at (w_uuid w)) (uuid_at (S (w_uuid w))) pd cd ad
    (clock_at (w_clock w))) as Hbody.
  { clear - Hb. unfold ExecutionPermit_validate in Hb. inv_ok. done. }
  rewrite <- Hbody. split_and!; [|done..]. rewrite Hbody at 1. exact Hb.
Qed.

(** What a permit says about the transaction it is for. *)
Record permit_binds (permit : ExecutionPermit) (p : ActionProposal) (d : Decision)
    (c : PhysicalControlCommand) (a : CandidateAssessment) : Prop := {
  pb_decision : pm_decision_id permit = decision_id d ∧ pm_proposal_id permit = proposal_id p;
  pb_command : pm_command permit = c;
  pb_digests : proposal_digest p = Ok (pm_proposal_digest permit)
    ∧ command_digest c = Ok (pm_command_digest permit)
    ∧ assessment_digest a = Ok (pm_assessment_digest permit);
  pb_state : pm_state_version permit = ps_state_version (pre_state a)
    ∧ pm_state_digest permit = ps_state_digest (pre_state a)
    ∧ pm_observation_digest permit = ps_observation_digest (pre_state a);
  pb_expected : expected_post_state_version permit = (pm_state_version permit + 1)%Z
    ∧ expected_post_state_digest permit = ps_state_digest (post_state a)
    ∧ expected_post_topology_digest permit = ps_topology_digest (post_state a);
}.

Lemma issue_binds i chain p d c a w permit w' :
  issue i chain p d c a w = (Ok permit, w') →
  issuable chain p d c a (pm_evidence_record_hash permit) ∧ permit_binds permit p d c a.
Proof using Type.
  intros (h & pd & cd & ad & b & His & Hpd & Hcd & Had & Hval & Hb & ->)%issue_run.
  cbv zeta in *. split; [done|]. split; try done. simpl. split; [|done].
  unfold ExecutionPermit_validate in Hval. inv_ok. done.
Qed.

Section issuer_laws.
Context {EL : Ed25519Laws}.
(** [exclude={"signature"}] leaves nothing of the signature, and a signature is
    not the empty string. *)
Hypothesis exclude_permit_signature :
  ∀ p s, permit_signing_payload (permit_with_signature p s) = permit_signing_payload p.
Hypothesis sign_nonempty : ∀ k m, sign_bytes k m ≠ "".

Lemma permit_signed_verifies p k q :
  permit_signed p k = Ok q → permit_verify q (public_of k) = Ok true.
Proof using EL exclude_permit_signature sign_nonempty.
  unfold permit_signed. intros H. inv_ok. unfold permit_verify. rewrite exclude_permit_signature.
  by apply signature_valid_sign.
Qed.

(** C16 Every permit the issuer returns verifies under its public key, expires
    exactly its time-to-live after the clock reading it carries, and binds the
    transaction by digest: the proposal, the PERMIT decision found in a verified
    evidence chain with that proposal and the measured state, the command, and a
    safe candidate whose post-state is the next version. *)
Theorem issue_authorizes i chain p d c a w permit w' :
  issue i chain p d c a w = (Ok permit, w') →
  permit_verify permit (public_of (issuer_key i)) = Ok true
  ∧ issuable chain p d c a (pm_evidence_record_hash permit)
  ∧ permit_binds permit p d c a
  ∧ pm_issued_at permit = clock_at (w_clock w)
  ∧ dt_utc (pm_expires_at permit) = (dt_utc (pm_issued_at permit) + time_to_live i)%Z
  ∧ audience permit = issuer_audience i.
Proof using EL exclude_permit_signature sign_nonempty.
  intros H. destruct (issue_binds _ _ _ _ _ _ _ _ _ H) as [Hiss Hbinds].
  apply issue_run in H as (h & pd & cd & ad & b & _ & _ & _ & _ & _ & Hb & ->).
  cbv zeta in *. split_and!; try done.
  apply (permit_signed_verifies (permit_body i p d c a h (uuid_at (w_uuid w)) (uuid_at (S (w_uuid w)))
    pd cd ad (clock_at (w_clock w)))). unfold permit_signed. by rewrite Hb.
Qed.
End issuer_laws.
End control.
