(* ===== verification/PhysicalDevice.v ===== *)
(** * The virtual control device ([src/src/aegis_ot/physical_control.py],
    class [PermitAwareVirtualControlDevice])

    A device call is atomic: the source holds a lock around it.  The theorems
    are about any plant behind it. *)
From S2P Require Import Prelude PyFloat PyStr PyTime PyJson Sha256 Crypto Models.
From S2P Require Import Delegation Replay Policy Safety Evidence Admission Gateway.
From S2P Require Import PhysicalModels PhysicalControl.

Section device.
Context {ED : Ed25519} {E : Env}.
Context {DSt : ModelDump PhysicalStateSnapshot} {DCo : ModelDump PhysicalControlCommand}
  {DAs : ModelDump CandidateAssessment} {DPe : ModelDump ExecutionPermit}
  {DAc : ModelDump CommandAcknowledgment} {DPr : ModelDump ActionProposal}
  {DDe : ModelDump Decision} {DSy : ModelDump SystemState}.

Record VirtualDevice := mk_VirtualDevice {
  device_id : string;
  permit_audience : string;
  permit_public_keys : gmap string public_key;
  acknowledgment_private_key : private_key;
  acknowledgment_key_id : string;
  consumed_permits : gset string;
  consumed_nonces : gset string;
  consumed_commands : gset string;
  scan_counter : Z;
}.

Definition VirtualDevice_init (did aud : string) (keys : gmap string public_key) (k : private_key)
    (kid : string) : VirtualDevice :=
  mk_VirtualDevice did aud keys k kid ∅ ∅ ∅ 0.

Definition next_scan (v : VirtualDevice) : VirtualDevice :=
  mk_VirtualDevice (device_id v) (permit_audience v) (permit_public_keys v)
    (acknowledgment_private_key v) (acknowledgment_key_id v) (consumed_permits v) (consumed_nonces v)
    (consumed_commands v) (scan_counter v + 1).
(** The reservation before dispatch. *)
Definition consume (p : ExecutionPermit) (v : VirtualDevice) : VirtualDevice :=
  mk_VirtualDevice (device_id v) (permit_audience v) (permit_public_keys v)
    (acknowledgment_private_key v) (acknowledgment_key_id v)
    ({[permit_id p]} ∪ consumed_permits v) ({[permit_nonce p]} ∪ consumed_nonces v)
    ({[command_id (pm_command p)]} ∪ consumed_commands v) (scan_counter v).

Context {T : Type} {HPl : Plant T}.
Abbreviation Run := (VirtualDevice * T * World)%type.

Definition on_device_world {A} (m : M World A) : M Run A :=
  zoom (λ s, s.2) (λ w s, (s.1, w)) m.
Definition on_plant {A} (m : M T A) : M Run A :=
  zoom (λ s, s.1.2) (λ t s, (s.1.1, t, s.2)) m.
Definition modify_device (f : VirtualDevice → VirtualDevice) : M Run unit :=
  modify (λ s, (f s.1.1, s.1.2, s.2)).
Definition device_clock : M Run datetime := on_device_world now_utc.

(** [_acknowledge] *)
Definition acknowledgment_body (v : VirtualDevice) (aid : string) (permit : ExecutionPermit)
    (status : CommandStatus) (reason : string) (at_ : datetime) (pre : PhysicalStateSnapshot)
    (post : option PhysicalStateSnapshot) : CommandAcknowledgment :=
  let c := pm_command permit in
  mk_CommandAcknowledgment aid (permit_id permit) (permit_nonce permit) (command_id c)
    (pm_command_digest permit) (pm_assessment_digest permit) (pm_proposal_id permit)
    (pm_decision_id permit) (device_id v) (scan_counter v) status reason at_ (ps_state_digest pre)
    (ps_state_digest <$> post) (ps_state_version <$> post) (actuator_setpoint pre c)
    match post with
    | Some post => Some (actuator_setpoint post c)
    | None => if bool_decide (status = REJECTED) then Some (actuator_setpoint pre c) else None
    end
    (ps_simulation_time_s (default pre post)) (acknowledgment_key_id v) "".

Definition acknowledge (permit : ExecutionPermit) (status : CommandStatus) (reason : string)
    (at_ : datetime) (pre : PhysicalStateSnapshot) (post : option PhysicalStateSnapshot) :
    M Run CommandAcknowledgment :=
  s ← get;
  aid ← on_device_world uuid4;
  ack ← lift (CommandAcknowledgment_validate
                (acknowledgment_body s.1.1 aid permit status reason at_ pre post));
  lift (ack_signed ack (acknowledgment_private_key s.1.1)).

(** The table of checks of [_execute_locked]; its digests and signature are
    computed before any of them is looked at. *)
Definition device_checks (v : VirtualDevice) (permit : ExecutionPermit) (p : ActionProposal)
    (d : Decision) (a : CandidateAssessment) (pre : PhysicalStateSnapshot) (at_ : datetime) :
    result (list (bool * string)) :=
  let key := permit_public_keys v !! pm_signing_key_id permit in
  signed ← match key with Some k => permit_verify permit k | None => Ok false end;
  pd ← proposal_digest p;
  cd ← command_digest (pm_command permit);
  ad ← assessment_digest a;
  pre_ok ← verify_digest pre;
  Ok [(bool_decide (audience permit = permit_audience v), "permit_wrong_audience");
      (bool_decide (is_Some key), "permit_unknown_signing_key");
      (signed, "permit_signature_invalid");
      (dt_leb (pm_issued_at permit) at_, "permit_not_yet_valid");
      (dt_ltb at_ (pm_expires_at permit), "permit_expired");
      (bool_decide (pm_proposal_id permit = proposal_id p), "permit_proposal_id_mismatch");
      (bool_decide (pm_proposal_digest permit = pd), "permit_proposal_digest_mismatch");
      (bool_decide (pm_decision_id permit = decision_id d), "permit_decision_id_mismatch");
      (bool_decide (outcome d = PERMIT), "decision_not_permit");
      (bool_decide (decision_proposal_id d = proposal_id p), "decision_proposal_mismatch");
      (bool_decide (evidence_record_hash d = Some (pm_evidence_record_hash permit)),
       "decision_evidence_mismatch");
      (bool_decide (pm_policy_version permit = policy_version d), "decision_policy_version_mismatch");
      (bool_decide (pm_safety_version permit = safety_version d), "decision_safety_version_mismatch");
      ((pm_state_version permit =? state_version d)%Z, "decision_state_version_mismatch");
      (bool_decide (pm_command_digest permit = cd), "permit_command_digest_mismatch");
      (bool_decide (pm_assessment_digest permit = ad), "permit_assessment_digest_mismatch");
      (as_safe a, "candidate_not_safe");
      (bool_decide (as_command_digest a = pm_command_digest permit), "candidate_command_digest_mismatch");
      (bool_decide (ps_state_digest (pre_state a) = pm_state_digest permit),
       "candidate_state_digest_mismatch");
      (bool_decide (permit_id permit ∉ consumed_permits v), "permit_replayed");
      (bool_decide (permit_nonce permit ∉ consumed_nonces v), "permit_nonce_replayed");
      (bool_decide (command_id (pm_command permit) ∉ consumed_commands v), "command_replayed");
      (pre_ok, "current_state_digest_invalid");
      (bool_decide (pm_model_digest permit = ps_model_digest pre), "model_digest_changed");
      (bool_decide (pm_topology_digest permit = ps_topology_digest pre), "topology_digest_changed");
      ((pm_state_version permit =? ps_state_version pre)%Z, "state_version_changed");
      (bool_decide (pm_state_digest permit = ps_state_digest pre), "state_digest_changed");
      (bool_decide (pm_observation_digest permit = ps_observation_digest pre),
       "observation_envelope_changed")].

(** The fresh candidate repeats the permitted one. *)
Definition candidate_repeats (fresh a : CandidateAssessment) : bool :=
  as_safe fresh
  && bool_decide (ps_state_digest (pre_state fresh) = ps_state_digest (pre_state a))
  && bool_decide (ps_state_digest (post_state fresh) = ps_state_digest (post_state a))
  && bool_decide (as_command_digest fresh = as_command_digest a).

(** The plant's readback is the permitted post-state. *)
Definition readback_expected (permit : ExecutionPermit) (post : PhysicalStateSnapshot) : bool :=
  bool_decide (ps_state_digest post = expected_post_state_digest permit)
  && (ps_state_version post =? expected_post_state_version permit)%Z
  && bool_decide (ps_topology_digest post = expected_post_topology_digest permit)
  && negb (ps_unsafe_state post).

(** From the reservation on: exactly one [apply_authorized_command]. *)
Definition dispatch (permit : ExecutionPermit) (pre : PhysicalStateSnapshot) : M Run CommandAcknowledgment :=
  _ ← modify_device (consume permit);
  applied ← attempt (on_plant (apply_authorized_command (pm_command permit) (pm_state_version permit)
      (pm_state_digest permit) (pm_observation_digest permit) (expected_post_state_digest permit)
      (expected_post_topology_digest permit)));
  at_ ← device_clock;
  match applied with
  | Raise e =>
      if isinstance_exn e "PhysicalSimulationError"
      then acknowledge permit REJECTED (exn_str e) at_ pre None
      else acknowledge permit UNKNOWN_EFFECT "unclassified_dispatch_failure" at_ pre None
  | Ok post =>
      if negb (readback_expected permit post)
      then acknowledge permit UNKNOWN_EFFECT "post_dispatch_candidate_divergence" at_ pre None
      else acknowledge permit APPLIED "command_applied_and_read_back" at_ pre (Some post)
  end.

Definition execute_locked (permit : ExecutionPermit) (p : ActionProposal) (d : Decision)
    (a : CandidateAssessment) : M Run CommandAcknowledgment :=
  evaluated_at ← device_clock;
  _ ← modify_device next_scan;
  pre ← on_plant read_plant;
  s ← get;
  checks ← lift (device_checks s.1.1 permit p d a pre evaluated_at);
  match first_failure checks with
  | Some reason => acknowledge permit REJECTED reason evaluated_at pre None
  | None =>
      fresh ← on_plant (simulate_candidate (pm_command permit));
      commit_time ← device_clock;
      if negb (candidate_repeats fresh a)
      then acknowledge permit REJECTED "candidate_attestation_mismatch" commit_time pre None
      else if dt_leb (pm_expires_at permit) commit_time
      then acknowledge permit REJECTED "permit_expired_before_dispatch" commit_time pre None
      else dispatch permit pre
  end.

(** ** What passes the table of checks *)
Record device_accepts (v : VirtualDevice) (permit : ExecutionPermit) (p : ActionProposal) (d : Decision)
    (a : CandidateAssessment) (pre : PhysicalStateSnapshot) (at_ : datetime) : Prop := {
  ac_signed : ∃ k, permit_public_keys v !! pm_signing_key_id permit = Some k
                   ∧ permit_verify permit k = Ok true;
  ac_audience : audience permit = permit_audience v;
  ac_window : (dt_utc (pm_issued_at permit) <= dt_utc at_ < dt_utc (pm_expires_at permit))%Z;
  ac_decision : outcome d = PERMIT ∧ pm_decision_id permit = decision_id d
    ∧ decision_proposal_id d = proposal_id p ∧ pm_proposal_id permit = proposal_id p
    ∧ evidence_record_hash d = Some (pm_evidence_record_hash permit)
    ∧ pm_policy_version permit = policy_version d ∧ pm_safety_version permit = safety_version d
    ∧ pm_state_version permit = state_version d;
  ac_digests : proposal_digest p = Ok (pm_proposal_digest permit)
    ∧ command_digest (pm_command permit) = Ok (pm_command_digest permit)
    ∧ assessment_digest a = Ok (pm_assessment_digest permit);
  ac_candidate : as_safe a = true ∧ as_command_digest a = pm_command_digest permit
    ∧ ps_state_digest (pre_state a) = pm_state_digest permit;
  ac_fresh : permit_id permit ∉ consumed_permits v ∧ permit_nonce permit ∉ consumed_nonces v
    ∧ command_id (pm_command permit) ∉ consumed_commands v;
  ac_state : verify_digest pre = Ok true ∧ ps_model_digest pre = pm_model_digest permit
    ∧ ps_topology_digest pre = pm_topology_digest permit ∧ ps_state_version pre = pm_state_version permit
    ∧ ps_state_digest pre = pm_state_digest permit ∧ ps_observation_digest pre = pm_observation_digest permit;
}.

Lemma device_checks_pass v permit p d a pre at_ checks :
  device_checks v permit p d a pre at_ = Ok checks →
  first_failure checks = None ↔ device_accepts v permit p d a pre at_.
Proof using Type.
  unfold device_checks. intros H. apply result_bind_Ok in H as (sg & Hsg & H).
  apply result_bind_Ok in H as (pd & Hpd & H). apply result_bind_Ok in H as (cd & Hcd & H).
  apply result_bind_Ok in H as (ad & Had & H). apply result_bind_Ok in H as (pk & Hpk & H).
  injection H as <-. rewrite first_failure_None, !Forall_cons, Forall_nil. cbn [fst].
  rewrite !bool_decide_eq_true, !Z.eqb_eq. unfold dt_leb, dt_ltb. rewrite Z.leb_le, Z.ltb_lt.
  split.
  - intros H. decompose [and] H. clear H. destruct (permit_public_keys v !! pm_signing_key_id permit) as [k|] eqn:Hk.
    + split; [exists k; split; congruence|first [done|split_and!; congruence]..].
    + exfalso. by eapply is_Some_None.
  - intros [(k & Hk & Hs) ? ? ? ? ? ? ?]. rewrite Hk in *.
    destruct_and?. split_and!; first [done | by eexists | congruence].
Qed.


#[export] Instance virtual_device : ControlDevice VirtualDevice T := {|
  device_id_of := device_id;
  acknowledgment_key_id_of := acknowledgment_key_id;
  device_execute := execute_locked;
|}.
End device.

(** ** At most one dispatch per permit

    The plant is wrapped so that it logs every [apply_authorized_command] call,
    whatever the call then does. *)
Section once.
Context {ED : Ed25519} {E : Env}.
Context {DSt : ModelDump PhysicalStateSnapshot} {DCo : ModelDump PhysicalControlCommand}
  {DAs : ModelDump CandidateAssessment} {DPe : ModelDump ExecutionPermit}
  {DAc : ModelDump CommandAcknowledgment} {DPr : ModelDump ActionProposal}
  {DDe : ModelDump Decision} {DSy : ModelDump SystemState}.
Context {T : Type} {HPl : Plant T}.

Definition on_inner {A} (m : M T A) : M (T * list PhysicalControlCommand) A :=
  zoom fst (λ t s, (t, s.2)) m.
#[local] Instance logged_plant : Plant (T * list PhysicalControlCommand) := {|
  capture_state := on_inner capture_state;
  read_plant := on_inner read_plant;
  simulate_candidate := λ c, on_inner (simulate_candidate c);
  apply_authorized_command := λ c v sd od pd td,
    _ ← modify (λ s, (s.1, s.2 ++ [c]));
    on_inner (apply_authorized_command c v sd od pd td);
|}.

Abbreviation LRun := (VirtualDevice * (T * list PhysicalControlCommand) * World)%type.
Definition applied_log (s : LRun) : list PhysicalControlCommand := s.1.2.2.

(** A step that dispatches nothing and forgets nothing. *)
Definition quiet (s s' : LRun) : Prop :=
  applied_log s' = applied_log s
  ∧ consumed_permits s'.1.1 = consumed_permits s.1.1 ∧ consumed_nonces s'.1.1 = consumed_nonces s.1.1
  ∧ consumed_commands s'.1.1 = consumed_commands s.1.1.
#[local] Instance quiet_preorder : PreOrder quiet.
Proof using Type. split; [by repeat split|]. intros x y z (?&?&?&?) (?&?&?&?). repeat split; congruence. Qed.

Lemma quiet_on_world {A} (m : M World A) : preserves quiet (on_device_world m).
Proof using Type. intros s. unfold on_device_world, zoom. by destruct (m s.2). Qed.
Lemma quiet_on_inner {A} (m : M T A) : preserves quiet (on_plant (on_inner m)).
Proof using Type. intros s. unfold on_plant, on_inner, zoom. by destruct (m s.1.2.1). Qed.
Lemma quiet_next_scan : preserves quiet (modify_device next_scan).
Proof using Type. by intros s. Qed.
Lemma quiet_device_read : preserves quiet (on_plant read_plant).
Proof using Type. apply quiet_on_inner. Qed.
Lemma quiet_device_simulate c : preserves quiet (on_plant (simulate_candidate c)).
Proof using Type. apply quiet_on_inner. Qed.
#[local] Hint Resolve quiet_on_world quiet_on_inner quiet_next_scan quiet_device_read quiet_device_simulate : frames.

Lemma quiet_acknowledge permit st rs at_ pre post :
  preserves quiet (acknowledge permit st rs at_ pre post).
Proof using Type. unfold acknowledge. frame. Qed.
#[local] Hint Resolve quiet_acknowledge : frames.

(** The effect of [dispatch] on the log and the reservations. *)
Definition dispatched_once (permit : ExecutionPermit) (s s' : LRun) : Prop :=
  applied_log s' = applied_log s ++ [pm_command permit]
  ∧ consumed_permits s'.1.1 = {[permit_id permit]} ∪ consumed_permits s.1.1
  ∧ consumed_nonces s'.1.1 = {[permit_nonce permit]} ∪ consumed_nonces s.1.1
  ∧ consumed_commands s'.1.1 = {[command_id (pm_command permit)]} ∪ consumed_commands s.1.1.

Lemma dispatch_frame permit pre : preserves (dispatched_once permit) (dispatch permit pre).
Proof using Type.
  intros s. unfold dispatch. set (k := λ applied : result PhysicalStateSnapshot, _).
  assert (Hk : ∀ applied, preserves quiet (k applied)).
  { intros applied. unfold k, device_clock. frame. }
  clearbody k. unfold mbind, M_bind, modify_device, modify, attempt.
  cbn [on_plant zoom apply_authorized_command logged_plant mbind M_bind modify on_inner fst snd].
  unfold mbind, M_bind, on_plant, on_inner, zoom; cbn.
  destruct (apply_authorized_command _ _ _ _ _ _ s.1.2.1) as [[post|e] t];
    [|destruct (isinstance_exn e "Exception")]; cbn.
  - match goal with |- dispatched_once _ _ (k ?x ?y).2 => pose proof (Hk x y) as (?&?&?&?) end.
    repeat split; etrans; eauto.
  - match goal with |- dispatched_once _ _ (k ?x ?y).2 => pose proof (Hk x y) as (?&?&?&?) end.
    repeat split; etrans; eauto.
  - repeat split.
Qed.
(** A call either dispatches nothing, or everything passed and exactly the
    reserving [dispatch] follows. *)
Ltac quiet_step H s1 a Ha Hq :=
  let e := fresh "e" in let Hq1 := fresh "Hq1" in
  apply M_bind_case in H as [(e & -> & H)|(a & s1 & Ha & H)];
  [left; split; [etrans; [exact Hq|]; eapply preserves_run; [|exact H]; solve [eauto with frames]|by intros]
  |assert (Hq1 : quiet _ s1) by (etrans; [exact Hq|]; eapply preserves_run; [|exact Ha]; solve [eauto with frames]);
   clear Hq; rename Hq1 into Hq].
Ltac quiet_end H Hq :=
  left; split; [etrans; [exact Hq|]; eapply preserves_run; [|exact H]; solve [eauto with frames]
               |intros ack ->; eexists _, _, _, _; split; [|exact H]].

(** The plant's own answer to the permitted command. *)
Definition plant_answer (permit : ExecutionPermit) (t : T) : result PhysicalStateSnapshot * T :=
  apply_authorized_command (pm_command permit) (pm_state_version permit) (pm_state_digest permit)
    (pm_observation_digest permit) (expected_post_state_digest permit)
    (expected_post_topology_digest permit) t.

(** Past the dispatch itself the plant is left alone. *)
Definition plant_kept (s s' : LRun) : Prop := s'.1.2 = s.1.2.
#[local] Instance plant_kept_preorder : PreOrder plant_kept.
Proof using Type. unfold plant_kept. split; [done|]. intros x y z. congruence. Qed.
Lemma plant_kept_world {A} (m : M World A) : preserves plant_kept (on_device_world m).
Proof using Type. intros s. unfold plant_kept, on_device_world, zoom. by destruct (m s.2). Qed.
#[local] Hint Resolve plant_kept_world : frames.
Lemma plant_kept_acknowledge permit st rs at_ pre post :
  preserves plant_kept (acknowledge permit st rs at_ pre post).
Proof using Type. unfold acknowledge. frame. Qed.
#[local] Hint Resolve plant_kept_acknowledge : frames.
Ltac plant_ends H :=
  let Hk := fresh "Hk" in
  pose proof (preserves_run plant_kept _ _ _ _ (plant_kept_acknowledge _ _ _ _ _ _) H) as Hk;
  unfold plant_kept in Hk; by rewrite Hk.
Lemma dispatch_plant permit pre s r s' :
  dispatch permit pre s = (r, s') → ∃ answer, plant_answer permit s.1.2.1 = (answer, s'.1.2.1).
Proof using Type.
  intros H. unfold dispatch in H. apply M_bind_case in H as [(e & _ & [=])|([] & s1 & Hs1 & H)].
  injection Hs1 as <-. unfold mbind in H. unfold M_bind at 1 in H. unfold attempt at 1 in H.
  unfold on_plant, zoom in H. cbn in H. unfold on_inner, mbind, M_bind, modify, zoom in H. cbn in H.
  fold (plant_answer permit s.1.2.1) in H. destruct (plant_answer permit s.1.2.1) as [answer t] eqn:Ha.
  assert (s'.1.2.1 = t) as ->; [|by exists answer].
  destruct answer as [post|e].
  - destruct (negb _); plant_ends H.
  - destruct (isinstance_exn e "Exception"); [|by injection H as <- <-].
    destruct (isinstance_exn _ _); plant_ends H.
Qed.

(** What one call went through when it gets to [dispatch]: the plant reads [pre]
    and becomes [t1], the fresh simulation answers [fresh] and leaves [t2], and
    the clock is read twice. *)
Record device_reaches (permit : ExecutionPermit) (p : ActionProposal) (d : Decision) (a : CandidateAssessment)
    (s : LRun) (pre : PhysicalStateSnapshot) (t1 : T) (fresh : CandidateAssessment) (t2 : T) : Prop := {
  dr_read : read_plant s.1.2.1 = (Ok pre, t1);
  dr_accepts : device_accepts (next_scan s.1.1) permit p d a pre (clock_at (w_clock s.2));
  dr_fresh : simulate_candidate (pm_command permit) t1 = (Ok fresh, t2);
  dr_repeats : candidate_repeats fresh a = true;
  dr_expiry : (dt_utc (clock_at (S (w_clock s.2))) < dt_utc (pm_expires_at permit))%Z;
}.

(** The plant's steps, as the device sees them. *)
Lemma inner_run {A} (m : M T A) (s : LRun) r s' :
  on_plant (on_inner m) s = (r, s') → ∃ t, m s.1.2.1 = (r, t) ∧ s' = (s.1.1, (t, applied_log s), s.2).
Proof using Type. unfold on_plant, on_inner, zoom. destruct (m _) as [r0 t]. intros [= <- <-]. by exists t. Qed.
Lemma device_clock_run (s : LRun) r s' :
  device_clock s = (r, s') →
  r = Ok (clock_at (w_clock s.2)) ∧ s' = (s.1, mk_World (S (w_clock s.2)) (w_uuid s.2)).
Proof using Type. unfold device_clock, on_device_world, zoom, now_utc. by intros [= <- <-]. Qed.

Lemma execute_locked_run permit p d a s r s' :
  execute_locked permit p d a s = (r, s') →
  (quiet s s' ∧ ∀ ack, r = Ok ack → ∃ s0 reason at_ pre, s0.1.1 = next_scan s.1.1
     ∧ acknowledge permit REJECTED reason at_ pre None s0 = (Ok ack, s')) ∨
  ∃ pre t1 fresh t2 w, device_reaches permit p d a s pre t1 fresh t2
    ∧ dispatch permit pre (next_scan s.1.1, (t2, applied_log s), w) = (r, s').
Proof using Type.
  intros H. unfold execute_locked in H.
  assert (Hq : quiet s s) by done.
  quiet_step H s1 at_ Hclock Hq. apply device_clock_run in Hclock as [[= ->] ->].
  quiet_step H s2 u Hscan Hq. injection Hscan as <- <-.
  quiet_step H s3 pre Hread Hq. apply inner_run in Hread as (t1 & Hread & ->).
  quiet_step H s4 cur Hget Hq. injection Hget as <- <-.
  quiet_step H s5 checks Hchecks Hq. apply lift_Ok in Hchecks as [Hc ->]. cbn [fst snd w_clock] in Hc, Hread.
  destruct (first_failure checks) as [reason|] eqn:Hff; [quiet_end H Hq; done|].
  apply (device_checks_pass _ _ _ _ _ _ _ _ Hc) in Hff.
  quiet_step H s6 again Hsim Hq. apply inner_run in Hsim as (t2 & Hsim & ->).
  quiet_step H s7 commit_time Hclock Hq. apply device_clock_run in Hclock as [[= ->] ->].
  destruct (candidate_repeats again a) eqn:Hrep; simpl in H; [|quiet_end H Hq; done].
  destruct (dt_leb _ _) eqn:Hexp; [quiet_end H Hq; done|].
  right. exists pre, t1, again, t2. eexists. split; [|exact H].
  split; try done. unfold dt_leb in Hexp. apply Z.leb_gt in Hexp. exact Hexp.
Qed.

(** ** Runs of the device *)
(** The calls of a run, each with whether it reached the plant. *)
Definition call_event (permit : ExecutionPermit) (s s' : LRun) : ExecutionPermit * bool :=
  (permit, negb (bool_decide (applied_log s' = applied_log s))).
Inductive device_run : LRun → list (ExecutionPermit * bool) → LRun → Prop :=
  | device_run_nil s : device_run s [] s
  | device_run_call permit p d a s r s' es s'' :
      execute_locked permit p d a s = (r, s') → device_run s' es s'' →
      device_run s (call_event permit s s' :: es) s''.

Definition dispatched_permits (es : list (ExecutionPermit * bool)) : list ExecutionPermit :=
  omap (λ '(permit, reached), if (reached : bool) then Some permit else None) es.

Definition all_fresh (l : list string) (used : gset string) : Prop :=
  NoDup l ∧ ∀ x, x ∈ l → x ∉ used.
Lemma all_fresh_cons x l used : x ∉ used → all_fresh l ({[x]} ∪ used) → all_fresh (x :: l) used.
Proof using Type.
  intros Hx [Hl Hu]. split; [constructor; [|done]|]; [intros Hin; specialize (Hu _ Hin); set_solver|].
  intros y [->|Hy]%elem_of_cons; [done|]. specialize (Hu _ Hy). set_solver.
Qed.

Lemma execute_locked_step permit p d a s r s' :
  execute_locked permit p d a s = (r, s') →
  quiet s s' ∨
  (∃ pre, device_accepts (next_scan s.1.1) permit p d a pre (clock_at (w_clock s.2)))
  ∧ dispatched_once permit s s'.
Proof using Type.
  intros [[? _]|(pre & t1 & fresh & t2 & w & Hr & Hd)]%execute_locked_run; [by left|].
  right. split; [exists pre; apply Hr|].
  exact (preserves_run _ _ _ _ _ (dispatch_frame permit pre) Hd).
Qed.

Lemma app_one_ne {A} (l : list A) x : l ++ [x] ≠ l.
Proof using Type. intros H%(f_equal length). rewrite length_app in H. simpl in H. lia. Qed.

Lemma device_run_fresh s es s' :
  device_run s es s' →
  applied_log s' = applied_log s ++ (pm_command <$> dispatched_permits es)
  ∧ all_fresh (permit_id <$> dispatched_permits es) (consumed_permits s.1.1)
  ∧ all_fresh (permit_nonce <$> dispatched_permits es) (consumed_nonces s.1.1)
  ∧ all_fresh ((λ m, command_id (pm_command m)) <$> dispatched_permits es) (consumed_commands s.1.1).
Proof using Type.
  induction 1 as [s|permit p d a s r s' es s'' Hs _ (Hlog & Hp & Hn & Hc)]; [|unfold call_event].
  { simpl. rewrite app_nil_r. split; [done|]. split_and!; split; try constructor; set_solver. }
  apply execute_locked_step in Hs as [(Hl & H1 & H2 & H3)|([pre Hacc] & Hl & H1 & H2 & H3)].
  - rewrite Hl, bool_decide_eq_true_2 by done. simpl. rewrite Hlog, Hl, <- H1, <- H2, <- H3. done.
  - rewrite Hl, bool_decide_eq_false_2 by apply app_one_ne. simpl. rewrite Hlog, Hl, <- app_assoc.
    rewrite H1 in Hp. rewrite H2 in Hn. rewrite H3 in Hc.
    destruct (ac_fresh _ _ _ _ _ _ _ Hacc) as (? & ? & ?).
    split_and!; [done|by apply all_fresh_cons..].
Qed.

(** C14 Over every sequence of device calls, whatever the plant answers and
    whatever the calls return or raise, the plant is asked to apply exactly the
    commands of the calls that reached it, and no permit identifier, permit nonce
    or command identifier reaches it twice. *)
Theorem dispatched_at_most_once s es s' :
  device_run s es s' →
  applied_log s' = applied_log s ++ (pm_command <$> dispatched_permits es)
  ∧ NoDup (permit_id <$> dispatched_permits es) ∧ NoDup (permit_nonce <$> dispatched_permits es)
  ∧ NoDup ((λ m, command_id (pm_command m)) <$> dispatched_permits es).
Proof using Type. intros (? & [? _] & [? _] & [? _])%device_run_fresh. done. Qed.

(** ** What an acknowledgment says *)
Section acknowledgments.
Context {EL : Ed25519Laws}.
Hypothesis exclude_ack_signature :
  ∀ a s, ack_signing_payload (ack_with_signature a s) = ack_signing_payload a.
Hypothesis sign_nonempty : ∀ k m, sign_bytes k m ≠ "".

(** The device's signature and identifiers are on the acknowledgment. *)
Definition ack_genuine (v : VirtualDevice) (permit : ExecutionPermit) (ack : CommandAcknowledgment) : Prop :=
  ack_verify ack (public_of (acknowledgment_private_key v)) = Ok true
  ∧ identifiers_match ack permit (device_id v) (acknowledgment_key_id v) = true.

Lemma acknowledge_run permit st rs at_ pre post (s : LRun) ack s' :
  acknowledge permit st rs at_ pre post s = (Ok ack, s') →
  ack_genuine s.1.1 permit ack ∧ ack_status ack = st ∧ ack_reason ack = rs
  ∧ post_state_digest ack = ps_state_digest <$> post ∧ s'.1 = s.1.
Proof using EL exclude_ack_signature sign_nonempty.
  unfold acknowledge. rewrite M_bind_Ok. intros (s0 & s1 & [= <- <-] & H).
  apply M_bind_Ok in H as (aid & s2 & Haid & H). apply M_bind_Ok in H as (body & s3 & [Hb ->]%lift_Ok & H).
  apply lift_Ok in H as [Hs ->]. unfold on_device_world, zoom in Haid. cbn in Haid. injection Haid as _ <-.
  assert (body = acknowledgment_body s.1.1 aid permit st rs at_ pre post) as ->.
  { clear - Hb. unfold CommandAcknowledgment_validate in Hb. inv_ok. done. }
  unfold ack_signed in Hs. apply result_bind_Ok in Hs as (b & Hp & [= <-]).
  split_and!; try done. split.
  - unfold ack_verify. rewrite exclude_ack_signature. by apply signature_valid_sign.
  - unfold identifiers_match. simpl. by rewrite !bool_decide_eq_true_2.
Qed.

(** How an acknowledgment's status relates to what reached the plant. *)
Definition ack_effect (permit : ExecutionPermit) (s s' : LRun) (ack : CommandAcknowledgment) : Prop :=
  let reached := applied_log s' = applied_log s ++ [pm_command permit] in
  match ack_status ack with
  | APPLIED => reached ∧ ∃ t post, plant_answer permit t = (Ok post, s'.1.2.1)
      ∧ readback_expected permit post = true
      ∧ post_state_digest ack = Some (expected_post_state_digest permit)
  | REJECTED => applied_log s' = applied_log s
      ∨ reached ∧ ∃ t e, plant_answer permit t = (Raise e, s'.1.2.1)
                         ∧ isinstance_exn e "PhysicalSimulationError" = true
  | UNKNOWN_EFFECT => reached
  end.

Lemma dispatch_ack permit pre s ack s' :
  dispatch permit pre s = (Ok ack, s') →
  ack_genuine s.1.1 permit ack ∧ ack_effect permit s s' ack.
Proof using EL exclude_ack_signature sign_nonempty.
  intros H. pose proof (preserves_run _ _ _ _ _ (dispatch_frame permit pre) H) as (Hlog & _).
  unfold dispatch in H. apply M_bind_Ok in H as ([] & s1 & Hs1 & H). injection Hs1 as <-.
  apply M_bind_Ok in H as (applied & s2 & Happ & H). apply attempt_Ok in Happ as [Happ _].
  apply M_bind_Ok in H as (at_ & s3 & Hat & H).
  unfold device_clock, on_device_world, zoom in Hat. cbn in Hat. injection Hat as <- <-.
  unfold on_plant, zoom in Happ. cbn in Happ. unfold on_inner, mbind, M_bind, modify, zoom in Happ. cbn in Happ.
  fold (plant_answer permit s.1.2.1) in Happ.
  destruct (plant_answer permit s.1.2.1) as [r t'] eqn:Hans. injection Happ as <- <-.
  destruct r as [post|e].
  - destruct (readback_expected permit post) eqn:Hrb; simpl in H;
      apply acknowledge_run in H as (Hg & Hst & _ & Hpost & Hsame); split; try exact Hg;
      unfold ack_effect; rewrite Hst; cbn in *; [|done].
    split; [done|]. exists s.1.2.1, post. rewrite Hsame. split; [done|]. split; [done|].
    rewrite Hpost. simpl. unfold readback_expected in Hrb. bool_split. by f_equal.
  - destruct (isinstance_exn e "PhysicalSimulationError") eqn:He;
      apply acknowledge_run in H as (Hg & Hst & _ & Hpost & Hsame); split; try exact Hg;
      unfold ack_effect; rewrite Hst; cbn in *; [|done].
    right. split; [done|]. exists s.1.2.1, e. by rewrite Hsame.
Qed.

(** Every acknowledgment the device returns carries its signature and the
    permit's identifiers, and tells the truth about the plant: APPLIED only after
    exactly this command reached the plant and the plant answered with the
    permitted post-state, UNKNOWN_EFFECT only after the command reached it, and
    REJECTED only when nothing did or the plant itself refused. *)
Theorem acknowledgment_truthful permit p d a s ack s' :
  execute_locked permit p d a s = (Ok ack, s') →
  ack_genuine s.1.1 permit ack ∧ ack_effect permit s s' ack.
Proof using EL exclude_ack_signature sign_nonempty.
  intros [[Hq Hack]|(pre & t1 & fresh & t2 & w & _ & Hd)]%execute_locked_run.
  - destruct (Hack _ eq_refl) as (s0 & reason & at_ & pre & Hv & H).
    apply acknowledge_run in H as (Hg & Hst & _ & _ & _). split; [by rewrite Hv in Hg|].
    unfold ack_effect. rewrite Hst. left. apply Hq.
  - by apply dispatch_ack in Hd.
Qed.
End acknowledgments.

(** C15 The plant is only asked to apply a command when, at the call's first
    clock reading, the permit verifies under a trusted key, is current and for
    this device, binds the proposal, the PERMIT decision, the command and the
    safe candidate by digest, was never consumed, and names exactly the state
    that the plant read in this very call; when the plant's own fresh simulation
    of the command, run after that reading, repeats the permitted candidate; and
    when the permit has not expired at a second clock reading after the
    simulation.  It is then asked once, with the permit's bounds, in the state the
    simulation left. *)
Theorem dispatch_only_authorized permit p d a s r s' :
  execute_locked permit p d a s = (r, s') → applied_log s' ≠ applied_log s →
  ∃ pre t1 fresh t2 answer, device_reaches permit p d a s pre t1 fresh t2
    ∧ plant_answer permit t2 = (answer, s'.1.2.1)
    ∧ applied_log s' = applied_log s ++ [pm_command permit].
Proof using Type.
  intros [[[Hq _] _]|(pre & t1 & fresh & t2 & w & Hr & Hd)]%execute_locked_run; [done|].
  intros _. destruct (dispatch_plant _ _ _ _ _ Hd) as [answer Ha].
  exists pre, t1, fresh, t2, answer. split_and!; [done|done|].
  by apply (preserves_run _ _ _ _ _ (dispatch_frame permit pre)) in Hd as [? _].
Qed.
End once.
