(* ===== verification/PhysicalLoop.v ===== *)
(** * The closed-loop controller ([src/src/aegis_ot/physical_control.py],
    class [PhysicalClosedLoopController])

    One [execute] call: capture, decide, translate, simulate, issue, dispatch,
    read back, record.  The gateway, the device and the plant are the ones of the
    other files; the evidence chain is the gateway's own, as the constructor
    demands. *)
From S2P Require Import Prelude PyFloat PyStr PyTime PyJson Sha256 Crypto Models.
From S2P Require Import Delegation Replay Policy Safety Evidence Admission Gateway.
From S2P Require Import PhysicalModels PhysicalControl PhysicalDevice.

Section controller.
Context {ED : Ed25519} {E : Env}.
Context {DSt : ModelDump PhysicalStateSnapshot} {DCo : ModelDump PhysicalControlCommand}
  {DAs : ModelDump CandidateAssessment} {DPe : ModelDump ExecutionPermit}
  {DAc : ModelDump CommandAcknowledgment}.
Context {I P G : Type} {HI : IdentityVerifier I} {HP : PolicyEngine P} {HG : AdmissionGate G}.
Context {DG : ModelDump DelegationGrant} {DP : ModelDump ActionProposal} {DD : ModelDump Decision}
  {DS : ModelDump SystemState} {DA : ModelDump DegradedAdmissionResult}.
Context {D T : Type} {HPl : Plant T} {HD : ControlDevice D T}.

(** The controller's fixed parts. *)
Record PhysicalClosedLoopController := mk_PhysicalClosedLoopController {
  lc_gateway : AegisGateway I P;
  lc_bindings : gmap string ResourceBinding;
  lc_issuer : ExecutionPermitIssuer;
  acknowledgment_public_key : public_key;
}.

(** What a call changes: the gateway's state (with the evidence chain and the
    clock), the device and the plant. *)
Record LoopState := mk_LoopState {
  lp_gateway : GatewayState (G := G);
  lp_device : D;
  lp_plant : T;
}.
Definition set_lp_gateway (g : GatewayState) (s : LoopState) : LoopState :=
  mk_LoopState g (lp_device s) (lp_plant s).
Definition set_lp_plant (t : T) (s : LoopState) : LoopState := mk_LoopState (lp_gateway s) (lp_device s) t.
Definition set_lp_run (r : D * T * World) (s : LoopState) : LoopState :=
  mk_LoopState (set_world r.2 (lp_gateway s)) r.1.1 r.1.2.

Definition on_loop_gateway {A} (m : M (GatewayState (G := G)) A) : M LoopState A := zoom lp_gateway set_lp_gateway m.
Definition on_loop_plant {A} (m : M T A) : M LoopState A := zoom lp_plant set_lp_plant m.
Definition on_loop_device {A} (m : M (D * T * World) A) : M LoopState A :=
  zoom (λ s, (lp_device s, lp_plant s, gs_world (lp_gateway s))) set_lp_run m.

(** [x.model_dump(mode="json") if x else None] *)
Definition dump_opt {A} `{ModelDump A} (o : option A) : json :=
  match o with Some a => model_dump a | None => JNull end.

Definition disposition_payload (r : ClosedLoopResult) (pd : string) : json :=
  JObj [("event_type", JStr "physical_closed_loop_disposition");
        ("status", JStr (ClosedLoopStatus_value (loop_status r)));
        ("reasons", JArr (JStr <$> loop_reasons r));
        ("proposal_digest", JStr pd);
        ("pre_state", model_dump (loop_pre_state r));
        ("decision", model_dump (loop_decision r));
        ("command", dump_opt (loop_command r));
        ("assessment", dump_opt (loop_assessment r));
        ("permit", dump_opt (loop_permit r));
        ("acknowledgment", dump_opt (loop_acknowledgment r));
        ("post_state", dump_opt (loop_post_state r));
        ("last_observed_state", model_dump (last_observed_state r))].

(** [result.model_copy] with the hash of its record: [_record] builds both from
    the same arguments. *)
Definition with_execution_evidence (r : ClosedLoopResult) (h : string) : ClosedLoopResult :=
  mk_ClosedLoopResult (loop_status r) (loop_reasons r) (loop_proposal r) (loop_pre_state r)
    (loop_decision r) (loop_command r) (loop_assessment r) (loop_permit r) (loop_acknowledgment r)
    (loop_post_state r) (last_observed_state r) h.

(** [_record]; its keyword arguments are the fields of [r]. *)
Definition record_disposition (r : ClosedLoopResult) : M LoopState ClosedLoopResult :=
  pd ← lift (proposal_digest (loop_proposal r));
  rec ← on_loop_gateway (on_evidence (EvidenceChain_append (proposal_id (loop_proposal r))
          (decision_id (loop_decision r)) (disposition_payload r pd)));
  lift (ClosedLoopResult_validate (with_execution_evidence r (record_hash rec))).

(** The dispositions [execute] records, before their evidence hash. *)
Definition undispatched (st : ClosedLoopStatus) (rs : list string) (p : ActionProposal)
    (pre : PhysicalStateSnapshot) (d : Decision) (c : option PhysicalControlCommand)
    (a : option CandidateAssessment) : ClosedLoopResult :=
  mk_ClosedLoopResult st rs p pre d c a None None (Some pre) pre "".
Definition dispatched (st : ClosedLoopStatus) (rs : list string) (p : ActionProposal)
    (pre : PhysicalStateSnapshot) (d : Decision) (c : PhysicalControlCommand) (a : CandidateAssessment)
    (permit : ExecutionPermit) (ack : option CommandAcknowledgment) (post : option PhysicalStateSnapshot)
    (last_observed : PhysicalStateSnapshot) : ClosedLoopResult :=
  mk_ClosedLoopResult st rs p pre d (Some c) (Some a) (Some permit) ack post last_observed "".

(** [physical_state_to_gateway_state] as the controller calls it. *)
Definition authorization_state (pre : PhysicalStateSnapshot) : result SystemState :=
  match physical_state_to_gateway_state pre with
  | Raise e => if isinstance_exn e "PhysicalSimulationError"
               then raise_ "PhysicalSimulationError" "authorization_state_unavailable" else Raise e
  | Ok s => Ok s
  end.

(** The disposition of an acknowledgment and a readback. *)
Definition readback_matches (ack : CommandAcknowledgment) (post : PhysicalStateSnapshot) : bool :=
  bool_decide (post_state_digest ack = Some (ps_state_digest post))
  && bool_decide (post_state_version ack = Some (ps_state_version post)).

Definition unestablished_reasons (ack : CommandAcknowledgment) (valid matches : bool) : list string :=
  ["execution_effect_not_established"; ack_reason ack]
  ++ (if valid then [] else ["acknowledgment_signature_invalid"])
  ++ (if bool_decide (ack_status ack = APPLIED) && negb matches
      then ["acknowledgment_readback_mismatch"] else []).

Definition disposition (p : ActionProposal) (pre : PhysicalStateSnapshot) (d : Decision)
    (c : PhysicalControlCommand) (a : CandidateAssessment) (permit : ExecutionPermit)
    (ack : CommandAcknowledgment) (post : PhysicalStateSnapshot) (valid : bool) : ClosedLoopResult :=
  let matches := readback_matches ack post in
  if bool_decide (ack_status ack = APPLIED) && valid && matches
  then dispatched COMPLETED ["command_applied_acknowledged_and_read_back"] p pre d c a permit
         (Some ack) (Some post) post
  else if bool_decide (ack_status ack = REJECTED) && valid
  then dispatched DEVICE_REJECTED [ack_reason ack] p pre d c a permit (Some ack) (Some post) post
  else dispatched LOOP_UNKNOWN_EFFECT (unestablished_reasons ack valid matches) p pre d c a permit
         (Some ack) None post.

(** From the permit on. *)
Definition dispatch_and_read_back (lc : PhysicalClosedLoopController) (p : ActionProposal)
    (pre : PhysicalStateSnapshot) (d : Decision) (c : PhysicalControlCommand) (a : CandidateAssessment)
    (permit : ExecutionPermit) : M LoopState ClosedLoopResult :=
  acked ← attempt (on_loop_device (device_execute permit p d a));
  match acked with
  | Raise e =>
      record_disposition (dispatched LOOP_UNKNOWN_EFFECT
        ["control_dispatch_outcome_unavailable"; exn_type e] p pre d c a permit None None pre)
  | Ok ack =>
      read ← attempt (on_loop_plant read_plant);
      match read with
      | Raise e =>
          record_disposition (dispatched LOOP_UNKNOWN_EFFECT
            ["post_dispatch_readback_unavailable"; exn_type e] p pre d c a permit (Some ack) None pre)
      | Ok post =>
          s ← get;
          valid ← lift (verify_for_transaction ack (acknowledgment_public_key lc) permit pre post
                          (device_id_of (lp_device s)) (acknowledgment_key_id_of (lp_device s)));
          record_disposition (disposition p pre d c a permit ack post valid)
      end
  end.

(** From a PERMIT on. *)
Definition simulate_and_dispatch (lc : PhysicalClosedLoopController) (p : ActionProposal)
    (pre : PhysicalStateSnapshot) (d : Decision) : M LoopState ClosedLoopResult := λ s,
  match on_loop_gateway (on_world (translate (lc_bindings lc) p)) s with
  | (Raise e, s) =>
      if isinstance_exn e "CommandTranslationError"
      then record_disposition (undispatched NOT_DISPATCHED [exn_str e] p pre d None None) s
      else (Raise e, s)
  | (Ok c, s) =>
      (a ← on_loop_plant (simulate_candidate c);
       if negb (as_safe a)
       then record_disposition (undispatched CANDIDATE_REJECTED (as_reasons a) p pre d (Some c) (Some a))
       else
         g ← get;
         permit ← on_loop_gateway (on_world (issue (lc_issuer lc) (gs_evidence (lp_gateway g)) p d c a));
         dispatch_and_read_back lc p pre d c a permit) s
  end.

Definition loop_execute (lc : PhysicalClosedLoopController) (p : ActionProposal) :
    M LoopState ClosedLoopResult :=
  evaluated_at ← on_loop_gateway (on_world now_utc);
  pre ← on_loop_plant capture_state;
  state ← lift (authorization_state pre);
  d ← on_loop_gateway (decide (lc_gateway lc) p state (Some evaluated_at));
  if negb (bool_decide (outcome d = PERMIT))
  then record_disposition (undispatched NOT_DISPATCHED (decision_reasons d) p pre d None None)
  else simulate_and_dispatch lc p pre d.

(** ** What recording a disposition does *)
Lemma ClosedLoopResult_validate_Ok r r' : ClosedLoopResult_validate r = Ok r' → r' = r.
Proof using Type. unfold ClosedLoopResult_validate. intros H. inv_ok. done. Qed.

Lemma record_disposition_Ok x s r s' :
  record_disposition x s = (Ok r, s') →
  ∃ rec, r = with_execution_evidence x (record_hash rec)
    ∧ gs_evidence (lp_gateway s') = gs_evidence (lp_gateway s) ++ [rec]
    ∧ previous_hash rec = head_hash (gs_evidence (lp_gateway s))
    ∧ record_hash rec = EvidenceChain_digest (record_material rec)
    ∧ (∃ pd, proposal_digest (loop_proposal x) = Ok pd ∧ payload rec = disposition_payload x pd)
    ∧ lp_device s' = lp_device s ∧ lp_plant s' = lp_plant s
    ∧ ClosedLoopResult_validate r = Ok r.
Proof using Type.
  unfold record_disposition. intros H. apply M_bind_Ok in H as (pd & s1 & [Hpd ->]%lift_Ok & H).
  apply M_bind_Ok in H as (rec & s2 & Hrec & [Hv ->]%lift_Ok).
  pose proof (ClosedLoopResult_validate_Ok _ _ Hv) as ->.
  unfold on_loop_gateway, on_evidence, zoom in Hrec. rewrite append_run in Hrec. injection Hrec as <- <-.
  eexists. split; [done|]. simpl. split_and!; try done. eauto.
Qed.

(** ** The shape of a call that returns *)
Definition after_world (w : World) (s : LoopState) : LoopState := set_lp_gateway (set_world w (lp_gateway s)) s.

(** From the permit on, the device and then a readback. *)
Lemma dispatch_and_read_back_Ok lc p pre d c a permit s r s' :
  dispatch_and_read_back lc p pre d c a permit s = (Ok r, s') →
  ∃ res v t w, device_execute permit p d a (lp_device s, lp_plant s, gs_world (lp_gateway s)) = (res, (v, t, w))
  ∧ match res with
    | Raise e => record_disposition (dispatched LOOP_UNKNOWN_EFFECT
          ["control_dispatch_outcome_unavailable"; exn_type e] p pre d c a permit None None pre)
          (mk_LoopState (set_world w (lp_gateway s)) v t) = (Ok r, s')
    | Ok ack => ∃ read t', read_plant t = (read, t') ∧
        match read with
        | Raise e => record_disposition (dispatched LOOP_UNKNOWN_EFFECT
            ["post_dispatch_readback_unavailable"; exn_type e] p pre d c a permit (Some ack) None pre)
            (mk_LoopState (set_world w (lp_gateway s)) v t') = (Ok r, s')
        | Ok post => ∃ valid,
            verify_for_transaction ack (acknowledgment_public_key lc) permit pre post
              (device_id_of v) (acknowledgment_key_id_of v) = Ok valid
            ∧ record_disposition (disposition p pre d c a permit ack post valid)
                (mk_LoopState (set_world w (lp_gateway s)) v t') = (Ok r, s')
        end
    end.
Proof using Type.
  unfold dispatch_and_read_back. intros H. apply M_bind_Ok in H as (acked & s1 & Hx & H).
  apply attempt_Ok in Hx as [Hx _]. unfold on_loop_device, zoom in Hx.
  destruct (device_execute _ _ _ _ _) as [res [[v t] w]]. injection Hx as <- <-.
  exists res, v, t, w. split; [done|]. destruct res as [ack|e]; [|exact H].
  apply M_bind_Ok in H as (read & s2 & Hr & H). apply attempt_Ok in Hr as [Hr _].
  unfold on_loop_plant, zoom in Hr. cbn in Hr. destruct (read_plant t) as [rd t']. injection Hr as <- <-.
  exists rd, t'. split; [done|]. destruct rd as [post|e]; [|exact H].
  apply M_bind_Ok in H as (s0 & s3 & [= <- <-] & H). apply M_bind_Ok in H as (valid & s4 & [Hv ->]%lift_Ok & H).
  eauto.
Qed.

(** From a PERMIT on. *)
Inductive permitted_path lc p pre d (s : LoopState) (r : ClosedLoopResult) (s' : LoopState) : Prop :=
  | path_untranslated e w :
      translate (lc_bindings lc) p (gs_world (lp_gateway s)) = (Raise e, w) →
      record_disposition (undispatched NOT_DISPATCHED [exn_str e] p pre d None None) (after_world w s)
        = (Ok r, s') → permitted_path lc p pre d s r s'
  | path_unsafe c w a t :
      translate (lc_bindings lc) p (gs_world (lp_gateway s)) = (Ok c, w) →
      simulate_candidate c (lp_plant s) = (Ok a, t) → as_safe a = false →
      record_disposition (undispatched CANDIDATE_REJECTED (as_reasons a) p pre d (Some c) (Some a))
        (set_lp_plant t (after_world w s)) = (Ok r, s') → permitted_path lc p pre d s r s'
  | path_dispatched c w a t permit w' :
      translate (lc_bindings lc) p (gs_world (lp_gateway s)) = (Ok c, w) →
      simulate_candidate c (lp_plant s) = (Ok a, t) → as_safe a = true →
      issue (lc_issuer lc) (gs_evidence (lp_gateway s)) p d c a w = (Ok permit, w') →
      dispatch_and_read_back lc p pre d c a permit (after_world w' (set_lp_plant t (after_world w s)))
        = (Ok r, s') → permitted_path lc p pre d s r s'.

Lemma simulate_and_dispatch_Ok lc p pre d s r s' :
  simulate_and_dispatch lc p pre d s = (Ok r, s') → permitted_path lc p pre d s r s'.
Proof using Type.
  unfold simulate_and_dispatch, on_loop_gateway at 1, on_world at 1, zoom.
  destruct (translate _ _ _) as [[c|e] w] eqn:Ht; intros H; cycle 1.
  { destruct (isinstance_exn e _); [|done]. by eapply path_untranslated. }
  apply M_bind_Ok in H as (a & s1 & Ha & H). unfold on_loop_plant, zoom in Ha. cbn in Ha.
  destruct (simulate_candidate c (lp_plant s)) as [ra t] eqn:Hs. injection Ha as -> <-.
  destruct (as_safe a) eqn:Hsafe; simpl in H; [|by eapply path_unsafe].
  apply M_bind_Ok in H as (g & s2 & [= <- <-] & H). apply M_bind_Ok in H as (permit & s3 & Hi & H).
  unfold on_loop_gateway, on_world, zoom in Hi. cbn in Hi.
  destruct (issue _ _ _ _ _ _ w) as [ri w'] eqn:His. injection Hi as -> <-.
  by eapply path_dispatched.
Qed.

(** The state the gateway decides on, and its answer. *)
Definition decided_at (lc : PhysicalClosedLoopController) (p : ActionProposal) (s : LoopState)
    (pre : PhysicalStateSnapshot) (state : SystemState) (now : datetime) (d : Decision) (s1 : LoopState) : Prop :=
  capture_state (lp_plant s) = (Ok pre, lp_plant s1)
  ∧ physical_state_to_gateway_state pre = Ok state
  ∧ now = clock_at (w_clock (gs_world (lp_gateway s)))
  ∧ lp_device s1 = lp_device s
  ∧ ∃ w, decide (lc_gateway lc) p state (Some now) (set_world w (lp_gateway s)) = (Ok d, lp_gateway s1).

Lemma loop_execute_Ok lc p s r s' :
  loop_execute lc p s = (Ok r, s') →
  ∃ pre state now d s1, decided_at lc p s pre state now d s1
  ∧ (outcome d ≠ PERMIT
       ∧ record_disposition (undispatched NOT_DISPATCHED (decision_reasons d) p pre d None None) s1 = (Ok r, s')
     ∨ outcome d = PERMIT ∧ permitted_path lc p pre d s1 r s').
Proof using Type.
  unfold loop_execute. intros H. apply M_bind_Ok in H as (now & s1 & [= <- <-] & H).
  apply M_bind_Ok in H as (pre & s2 & Hpre & H). unfold on_loop_plant, zoom in Hpre. cbn in Hpre.
  destruct (capture_state (lp_plant s)) as [rp t] eqn:Hc. injection Hpre as -> <-.
  apply M_bind_Ok in H as (state & s3 & [Hst ->]%lift_Ok & H).
  apply M_bind_Ok in H as (d & s4 & Hd & H). apply zoom_run in Hd as (g & Hd & ->).
  match type of H with _ ?s1 = _ => exists pre, state, (clock_at (w_clock (gs_world (lp_gateway s)))), d, s1 end.
  split.
  - split_and!; [exact Hc| |done|done|]; [|eexists; exact Hd].
    unfold authorization_state in Hst. destruct (physical_state_to_gateway_state pre) as [x|e]; [done|].
    by destruct (isinstance_exn e _).
  - destruct (bool_decide (outcome d = PERMIT)) eqn:Ho; simpl in H; bool_split; [right|by left].
    split; [done|]. by apply simulate_and_dispatch_Ok.
Qed.

(** ** Before a permit nothing reaches the device *)
(** A relation the plant's reading operations stay in. *)
Definition plant_reads (R : relation T) : Prop :=
  preserves R capture_state ∧ preserves R read_plant ∧ ∀ c, preserves R (simulate_candidate c).

Lemma dispatched_status lc p pre d c a permit s r s' :
  dispatch_and_read_back lc p pre d c a permit s = (Ok r, s') →
  loop_status r ≠ NOT_DISPATCHED ∧ loop_status r ≠ CANDIDATE_REJECTED.
Proof using Type.
  intros (res & v & t & w & _ & H)%dispatch_and_read_back_Ok. destruct res as [ack|e].
  - destruct H as (read & t' & _ & H). destruct read as [post|e].
    + destruct H as (valid & _ & (rec & -> & _)%record_disposition_Ok).
      unfold disposition. by repeat case_match.
    + apply record_disposition_Ok in H as (rec & -> & _). done.
  - apply record_disposition_Ok in H as (rec & -> & _). done.
Qed.

(** A proposal that is not permitted, not translatable or whose candidate is
    unsafe is recorded as undispatched, with no permit and no acknowledgment; the
    device is exactly as before the call and the plant has only been read and
    simulated.  A decision that is not PERMIT always ends this way, with the
    decision's reasons. *)
Theorem undispatched_untouched lc p s r s' :
  loop_execute lc p s = (Ok r, s') →
  (outcome (loop_decision r) ≠ PERMIT →
     loop_status r = NOT_DISPATCHED ∧ loop_reasons r = decision_reasons (loop_decision r)) ∧
  (loop_status r = NOT_DISPATCHED ∨ loop_status r = CANDIDATE_REJECTED →
     loop_permit r = None ∧ loop_acknowledgment r = None ∧ lp_device s' = lp_device s
     ∧ ∀ R, PreOrder R → plant_reads R → R (lp_plant s) (lp_plant s')).
Proof using Type.
  intros (pre & state & now & d & s1 & (Hcap & _ & _ & Hdev & _) & H)%loop_execute_Ok.
  assert (Hread : ∀ R : relation T, PreOrder R → plant_reads R → R (lp_plant s) (lp_plant s1)).
  { intros R _ (Hc & _ & _). exact (preserves_run _ _ _ _ _ Hc Hcap). }
  destruct H as [[Ho H]|[Ho H]].
  - apply record_disposition_Ok in H as (rec & -> & _ & _ & _ & _ & Hd & Hp & _).
    split; [done|]. intros _. split_and!; [done|done|by rewrite Hd|]. intros R HR Hr. rewrite Hp. exact (Hread R HR Hr).
  - destruct H as [e w _ H|c w a t _ Hs _ H|c w a t permit w' _ _ _ _ H].
    + apply record_disposition_Ok in H as (rec & -> & _ & _ & _ & _ & Hd & Hp & _).
      split; [done|]. intros _. split_and!; [done|done|by rewrite Hd|]. intros R HR Hr. rewrite Hp. exact (Hread R HR Hr).
    + apply record_disposition_Ok in H as (rec & -> & _ & _ & _ & _ & Hd & Hp & _).
      split; [done|]. intros _. split_and!; [done|done|by rewrite Hd|].
      intros R HR Hr. rewrite Hp. simpl. etrans; [exact (Hread R HR Hr)|]. destruct Hr as (_ & _ & Hr).
      exact (preserves_run _ _ _ _ _ (Hr c) Hs).
    + pose proof (dispatched_status _ _ _ _ _ _ _ _ _ _ H) as [Hn Hc].
      split; [|by intros [|]]. intros Hout. exfalso.
      apply dispatch_and_read_back_Ok in H as (res & v & t' & w'' & _ & H).
      destruct res as [ack|e].
      * destruct H as (read & t'' & _ & H). destruct read as [post|e].
        -- destruct H as (valid & _ & (rec & -> & _)%record_disposition_Ok).
           apply Hout. simpl. unfold disposition. by repeat case_match.
        -- apply record_disposition_Ok in H as (rec & -> & _). done.
      * apply record_disposition_Ok in H as (rec & -> & _). done.
Qed.

(** ** Completion *)
(** What a verified APPLIED acknowledgment and its readback establish. *)
Record effect_established (k : public_key) (permit : ExecutionPermit) (pre post : PhysicalStateSnapshot)
    (ack : CommandAcknowledgment) (device key : string) : Prop := {
  ee_ack : ack_status ack = APPLIED ∧ ack_verify ack k = Ok true
    ∧ identifiers_match ack permit device key = true;
  ee_time : (dt_utc (pm_issued_at permit) <= dt_utc (ack_acknowledged_at ack) < dt_utc (pm_expires_at permit))%Z;
  ee_pre : ps_state_digest pre = pm_state_digest permit ∧ verify_digest pre = Ok true;
  ee_post : ps_state_digest post = expected_post_state_digest permit
    ∧ ps_state_version post = expected_post_state_version permit
    ∧ ps_topology_digest post = expected_post_topology_digest permit
    ∧ ps_model_digest post = ps_model_digest pre ∧ verify_digest post = Ok true;
  ee_actuator : feqb_opt (post_actuator_setpoint ack) (setpoint (pm_command permit)) = true;
}.

Lemma verify_for_transaction_applied ack k permit pre post device key :
  verify_for_transaction ack k permit pre post device key = Ok true → ack_status ack = APPLIED →
  effect_established k permit pre post ack device key.
Proof using Type.
  unfold verify_for_transaction. intros H Hst.
  destruct (identifiers_match ack permit device key) eqn:Hid; [|done]. simpl in H.
  apply result_bind_Ok in H as (signed & Hs & H). destruct signed; [|done]. simpl in H.
  apply result_bind_Ok in H as (valid & Hv & H).
  destruct (valid && _ && _) eqn:Hb; [|done]. injection H as H. unfold disposition_matches in H.
  rewrite Hst in H. unfold dt_leb, dt_ltb in H. bool_split. subst valid.
  unfold digests_valid in Hv. apply result_bind_Ok in Hv as (a_ok & Ha & Hv).
  destruct a_ok; [|done]. split; try split_and!; first [done | congruence].
Qed.

(** C13 A call only reports COMPLETED when the whole chain holds, link by link
    and in this order: the gateway permitted the captured state; the command is
    the translated one and the assessment the plant's simulation of it; the permit
    is the one issued for this decision, command and safe candidate; the
    acknowledgment is what the device answered to that permit; and the
    post-state is what the plant's readback returned after the device's call.
    That acknowledgment verifies under the configured key and names this device
    and its key, lies inside the permit's window, and the readback has the digest
    and the version of the candidate's post-state, the next version of the state
    that was authorized. *)
Theorem completed_means_established lc p s r s' :
  loop_execute lc p s = (Ok r, s') → loop_status r = COMPLETED →
  ∃ state now s1 c w a t0 permit w0 ack t w1 post,
    decided_at lc p s (loop_pre_state r) state now (loop_decision r) s1
    ∧ outcome (loop_decision r) = PERMIT
    ∧ (translate (lc_bindings lc) p (gs_world (lp_gateway s1)) = (Ok c, w) ∧ loop_command r = Some c)
    ∧ (simulate_candidate c (lp_plant s1) = (Ok a, t0) ∧ as_safe a = true ∧ loop_assessment r = Some a)
    ∧ (issue (lc_issuer lc) (gs_evidence (lp_gateway s1)) p (loop_decision r) c a w = (Ok permit, w0)
       ∧ loop_permit r = Some permit)
    ∧ (device_execute permit p (loop_decision r) a (lp_device s1, t0, w0) = (Ok ack, (lp_device s', t, w1))
       ∧ loop_acknowledgment r = Some ack)
    ∧ (read_plant t = (Ok post, lp_plant s') ∧ loop_post_state r = Some post)
    ∧ issuable (gs_evidence (lp_gateway s1)) p (loop_decision r) c a (pm_evidence_record_hash permit)
    ∧ permit_binds permit p (loop_decision r) c a
    ∧ effect_established (acknowledgment_public_key lc) permit (loop_pre_state r) post ack
        (device_id_of (lp_device s')) (acknowledgment_key_id_of (lp_device s'))
    ∧ ps_state_digest post = ps_state_digest (post_state a)
    ∧ ps_state_version post = (ps_state_version (pre_state a) + 1)%Z
    ∧ ps_state_digest (loop_pre_state r) = ps_state_digest (pre_state a).
Proof using Type.
  intros (pre & state & now & d & s1 & Hdec & H)%loop_execute_Ok Hst.
  destruct H as [[_ (rec & -> & _)%record_disposition_Ok]|[Hout H]]; [done|].
  destruct H as [e w _ H|c w a t _ _ _ H|c w a t permit w' Htr Hsim Hsafe Hissue H];
    [by apply record_disposition_Ok in H as (rec & -> & _)..|].
  apply dispatch_and_read_back_Ok in H as (res & v & t' & w'' & Hdev & H).
  destruct res as [ack|e]; [|by apply record_disposition_Ok in H as (rec & -> & _)].
  destruct H as (read & t'' & Hread & H).
  destruct read as [post|e]; [|by apply record_disposition_Ok in H as (rec & -> & _)].
  destruct H as (valid & Hv & (rec & -> & _ & _ & _ & _ & Hvs & Hts & _)%record_disposition_Ok).
  destruct (issue_binds _ _ _ _ _ _ _ _ _ Hissue) as [Hiss Hbinds].
  simpl in Hvs, Hts. subst v t''. unfold disposition in *.
  destruct (bool_decide (ack_status ack = APPLIED) && valid && readback_matches ack post) eqn:Hc;
    [|by destruct (bool_decide (ack_status ack = REJECTED) && valid)].
  bool_split. subst valid. simpl in *.
  match goal with Ha : ack_status ack = APPLIED |- _ =>
    pose proof (verify_for_transaction_applied _ _ _ _ _ _ _ Hv Ha) as Heff end.
  pose proof Heff as [_ _ [Hp _] (Hq1 & Hq2 & _) _]. destruct Hbinds as [? ? ? (? & ? & ?) (? & ? & ?)] eqn:Hb.
  exists state, now, s1, c, w, a, t, permit, w', ack, t', w'', post.
  split_and!; try done; congruence.
Qed.

(** ** Evidence *)
(** Every call that returns a result appends exactly two records to the shared
    evidence chain, the decision's and then the disposition's; both extend the
    chain, the decision and the result name them by hash, and a verified chain
    stays verified. *)
Theorem loop_evidence_complete lc p s r s' :
  loop_execute lc p s = (Ok r, s') →
  ∃ r1 r2 pd, gs_evidence (lp_gateway s') = gs_evidence (lp_gateway s) ++ [r1; r2]
    ∧ evidence_record_hash (loop_decision r) = Some (record_hash r1)
    ∧ ev_decision_id r1 = decision_id (loop_decision r)
    ∧ execution_evidence_hash r = record_hash r2
    ∧ proposal_digest p = Ok pd ∧ payload r2 = disposition_payload r pd
    ∧ (EvidenceChain_verify (gs_evidence (lp_gateway s)) = true →
       EvidenceChain_verify (gs_evidence (lp_gateway s')) = true).
Proof using Type.
  intros (pre & state & now & d & s1 & (_ & _ & _ & _ & w0 & Hd) & H)%loop_execute_Ok.
  pose proof (cf_evidence _ _ _ _ _ (decide_run _ _ _ _ _ _ _ Hd)) as (r1 & He1 & Hprev1 & Hh1 & Hid1 & Hn1).
  simpl in He1, Hprev1.
  assert (Hend : ∃ x sx, record_disposition x sx = (Ok r, s') ∧ loop_decision x = d ∧ loop_proposal x = p
            ∧ gs_evidence (lp_gateway sx) = gs_evidence (lp_gateway s1)).
  { destruct H as [[_ H]|[_ H]]; [by eexists _, _; split; [exact H|]|].
    destruct H as [e w _ H|c w a t _ _ _ H|c w a t permit w' _ _ _ _ H];
      [by eexists _, _; split; [exact H|]..|].
    apply dispatch_and_read_back_Ok in H as (res & v & t' & w'' & _ & H).
    destruct res as [ack|e]; [|by eexists _, _; split; [exact H|]].
    destruct H as (read & t'' & _ & H). destruct read as [post|e]; [|by eexists _, _; split; [exact H|]].
    destruct H as (valid & _ & H). eexists _, _. split; [exact H|]. unfold disposition.
    by repeat case_match. }
  destruct Hend as (x & sx & Hx & Hxd & Hxp & Hxe).
  apply record_disposition_Ok in Hx as (r2 & -> & He2 & Hprev2 & Hh2 & (pd & Hpd & Hpay) & _ & _ & _).
  rewrite Hxe in He2, Hprev2. exists r1, r2, pd. simpl. rewrite Hxd. rewrite Hxp in Hpd. split_and!; try done.
  - by rewrite He2, He1, <- app_assoc.
  - intros Hver. rewrite He2. apply verify_app_one. split_and!; [|done|done].
    rewrite He1. by apply verify_app_one.
Qed.

(** ** Failures after the permit *)
Lemma record_disposition_total x s pd :
  proposal_digest (loop_proposal x) = Ok pd →
  (∀ h, is_sha256 h = true → ClosedLoopResult_validate (with_execution_evidence x h)
                             = Ok (with_execution_evidence x h)) →
  ∃ h s', record_disposition x s = (Ok (with_execution_evidence x h), s').
Proof using Type.
  intros Hpd Hval. unfold record_disposition, mbind, M_bind, lift. rewrite Hpd. cbn [result_bind].
  unfold on_loop_gateway, on_evidence, zoom. rewrite append_run. cbv beta iota.
  rewrite Hval; [eauto|]. apply sha256_hex_shape.
Qed.

Lemma disposition_validates p pre d c a permit ack post valid h :
  is_sha256 h = true →
  let x := with_execution_evidence (disposition p pre d c a permit ack post valid) h in
  ClosedLoopResult_validate x = Ok x.
Proof using Type.
  intros Hh x. subst x. unfold disposition.
  destruct (bool_decide (ack_status ack = APPLIED) && valid && readback_matches ack post) eqn:Hc;
    [|destruct (bool_decide (ack_status ack = REJECTED) && valid)];
    unfold ClosedLoopResult_validate, with_execution_evidence, dispatched; cbn [execution_evidence_hash];
    rewrite Hh; simpl; try done.
  unfold readback_matches in Hc. bool_split. by rewrite !bool_decide_eq_true_2 by congruence.
Qed.

(** How the controller disposes of a permit, given what the device and the
    readback did. *)
Definition disposed (permit : ExecutionPermit) (pre : PhysicalStateSnapshot) (acked : result CommandAcknowledgment)
    (read : result PhysicalStateSnapshot) (valid : bool) (r : ClosedLoopResult) : Prop :=
  loop_permit r = Some permit ∧
  match acked, read with
  | Raise e, _ => loop_status r = LOOP_UNKNOWN_EFFECT ∧ loop_acknowledgment r = None
      ∧ loop_post_state r = None ∧ loop_reasons r = ["control_dispatch_outcome_unavailable"; exn_type e]
  | Ok ack, Raise e => loop_status r = LOOP_UNKNOWN_EFFECT ∧ loop_acknowledgment r = Some ack
      ∧ loop_post_state r = None ∧ loop_reasons r = ["post_dispatch_readback_unavailable"; exn_type e]
  | Ok ack, Ok post => loop_acknowledgment r = Some ack ∧ last_observed_state r = post
      ∧ (loop_status r = COMPLETED ↔ ack_status ack = APPLIED ∧ valid = true ∧ readback_matches ack post = true)
      ∧ (loop_status r = DEVICE_REJECTED ↔ ack_status ack = REJECTED ∧ valid = true)
      ∧ (loop_post_state r = None ↔ loop_status r = LOOP_UNKNOWN_EFFECT)
  end.

(** C17 Once a permit is issued the call always returns a result,
    whichever exceptions the device or the readback raise: those become
    UNKNOWN_EFFECT naming the exception's class and asserting no post-state;
    otherwise COMPLETED and DEVICE_REJECTED are reported exactly for a valid
    APPLIED acknowledgment that matches the readback and a valid REJECTED one. *)
Theorem permit_always_disposed lc p pre d c a permit s pd :
  let '(acked, (v, t, w)) := device_execute permit p d a (lp_device s, lp_plant s, gs_world (lp_gateway s)) in
  let read := (read_plant t).1 in
  proposal_digest p = Ok pd →
  (∀ e, acked = Raise e ∨ read = Raise e → isinstance_exn e "Exception" = true) →
  ∀ valid, (∀ ack post, acked = Ok ack → read = Ok post →
    verify_for_transaction ack (acknowledgment_public_key lc) permit pre post
      (device_id_of v) (acknowledgment_key_id_of v) = Ok valid) →
  ∃ r s', dispatch_and_read_back lc p pre d c a permit s = (Ok r, s')
    ∧ disposed permit pre acked read valid r.
Proof using Type.
  destruct (device_execute permit p d a _) as [acked [[v t] w]] eqn:Hx. cbv zeta.
  intros Hpd Hexc valid Hvalid. unfold dispatch_and_read_back. unfold mbind at 1, M_bind at 1.
  unfold attempt at 1, on_loop_device, zoom at 1. rewrite Hx.
  destruct acked as [ack|e]; cycle 1.
  { rewrite (Hexc e) by auto.
    edestruct record_disposition_total as (h & s' & ->); [exact Hpd| |by eexists _, _].
    intros h Hh. unfold ClosedLoopResult_validate. simpl. by rewrite Hh. }
  unfold mbind at 1, M_bind at 1. unfold attempt at 1, on_loop_plant, zoom at 1. cbn [lp_plant set_lp_run fst snd].
  destruct (read_plant t) as [rd t']. cbn [fst] in *. destruct rd as [post|e]; cycle 1.
  { rewrite (Hexc e) by auto.
    edestruct record_disposition_total as (h & s' & ->); [exact Hpd| |by eexists _, _].
    intros h Hh. unfold ClosedLoopResult_validate. simpl. by rewrite Hh. }
  unfold mbind, M_bind, get, lift. cbn [lp_device set_lp_plant set_lp_run fst snd].
  rewrite (Hvalid ack post eq_refl eq_refl).
  edestruct record_disposition_total as (h & s' & ->);
    [|intros h Hh; by apply disposition_validates|].
  { unfold disposition. by repeat case_match. }
  eexists _, _. split; [done|]. unfold disposed, disposition, readback_matches.
  destruct valid, (ack_status ack) eqn:Hst, (bool_decide (post_state_digest ack = _)),
    (bool_decide (post_state_version ack = _)); simpl; split_and!; naive_solver.
Qed.
End controller.
