(* ===== verification/PhysicalDemo.v ===== *)
(** * The physical path at concrete inputs

    A plant whose state is one snapshot, keys and dumps that compute, and the
    local lab's gateway: one proposal runs through the whole closed loop, and the
    theorems of the physical path are applied to it. *)
From S2P Require Import Prelude PyFloat PyStr PyTime PyJson Sha256 Crypto Models.
From S2P Require Import Delegation Replay Policy Safety Evidence Admission Gateway GatewayDemo.
From S2P Require Import PhysicalModels PhysicalControl PhysicalDevice PhysicalLoop.
Import DemoEd25519 ModelsDemo DelegationDemo.

(** Identifiers long enough to be permit nonces. *)
Definition phys_env : Env := {|
  clock_at n := utc (t0 + seconds (Z.of_nat n));
  uuid_at n := "identifier-00000-" +:+ dec_N (N.of_nat n);
|}.
#[local] Existing Instance phys_env | 0.

(** ** JSON forms *)
#[export] Instance demo_snapshot_dump : ModelDump PhysicalStateSnapshot := λ s,
  JObj [("state_digest", JStr (ps_state_digest s)); ("observation_digest", JStr (ps_observation_digest s));
        ("observation_sequence", JInt (ps_observation_sequence s));
        ("observation_source_id", JStr (ps_observation_source_id s));
        ("observation_clock_domain", JStr (ps_observation_clock_domain s));
        ("observed_at", JStr (isoformat (ps_observed_at s)));
        ("state_version", JInt (ps_state_version s)); ("unsafe_state", JBool (ps_unsafe_state s));
        ("isolated_resources", JArr (JStr <$> ps_isolated_resources s))].
#[export] Instance demo_command_dump : ModelDump PhysicalControlCommand := λ c,
  JObj [("command_id", JStr (command_id c)); ("proposal_id", JStr (command_proposal_id c));
        ("target", JStr (target c)); ("setpoint", JFloat (setpoint c))].
#[export] Instance demo_assessment_dump : ModelDump CandidateAssessment := λ a,
  JObj [("assessment_id", JStr (assessment_id a)); ("command_digest", JStr (as_command_digest a));
        ("post_state", JStr (ps_state_digest (post_state a))); ("safe", JBool (as_safe a))].
#[export] Instance demo_permit_dump : ModelDump ExecutionPermit := λ p,
  JObj [("permit_id", JStr (permit_id p)); ("command_digest", JStr (pm_command_digest p));
        ("expires_at", JStr (isoformat (pm_expires_at p))); ("signature", JStr (pm_signature p))].
#[export] Instance demo_ack_dump : ModelDump CommandAcknowledgment := λ a,
  JObj [("acknowledgment_id", JStr (acknowledgment_id a)); ("permit_id", JStr (ack_permit_id a));
        ("reason", JStr (ack_reason a)); ("signature", JStr (ack_signature a))].

(** ** The plant *)
Definition snapshot (n : Z) (isolated : list string) (unsafe : bool) (sd od : string) : PhysicalStateSnapshot :=
  mk_PhysicalStateSnapshot "demo-model" "demo-simulator" (zeros 64) (zeros 64) (zeros 64) sd od n
    "meter" "utc" n (f_of_Z n) (utc (t0 + seconds (n - 1))) true (flit 2 1) (flit 2 1) f0 f100 f1 f1 f100
    (Some (flit 99 100)) (Some (flit 101 100)) (Some (flit 72 1)) 0 0 unsafe isolated
    [("battery-1", f0)] [] [].
Definition digest_or_zeros (r : result string) : string := match r with Ok d => d | Raise _ => zeros 64 end.
(** A snapshot with its own digests. *)
Definition sealed (n : Z) (isolated : list string) (unsafe : bool) : PhysicalStateSnapshot :=
  let sd := digest_or_zeros (canonical_digest (digest_material (snapshot n isolated unsafe "" ""))) in
  snapshot n isolated unsafe sd
    (digest_or_zeros (canonical_digest (observation_material (snapshot n isolated unsafe sd "")))).

(** [n]: the version; the flag makes every candidate unsafe. *)
Record DemoPlant := mk_DemoPlant { dp_version : Z; dp_isolated : list string; dp_unsafe : bool }.
Definition dp_read (t : DemoPlant) : PhysicalStateSnapshot := sealed (dp_version t) (dp_isolated t) false.
Definition dp_next (c : PhysicalControlCommand) (t : DemoPlant) : DemoPlant :=
  mk_DemoPlant (dp_version t + 1) (dp_isolated t ++ [command_resource c]) (dp_unsafe t).
#[export] Instance demo_plant : Plant DemoPlant := {|
  capture_state := λ t, (Ok (dp_read t), t);
  read_plant := λ t, (Ok (dp_read t), t);
  simulate_candidate := λ c t,
    (cd ← command_digest c;
     Ok (mk_CandidateAssessment "assessment-1" cd (dp_read t)
          (sealed (dp_version t + 1) (dp_isolated t ++ [command_resource c]) (dp_unsafe t))
          (negb (dp_unsafe t)) (if dp_unsafe t then ["unsafe_post_state"] else [])), t);
  apply_authorized_command := λ c _ _ _ _ _ t, (Ok (dp_read (dp_next c t)), dp_next c t);
|}.

(** ** The controller *)
Definition demo_issuer : ExecutionPermitIssuer :=
  mk_ExecutionPermitIssuer "issuer-key" "issuer-1" "device-1" (seconds 60).
Definition demo_device : VirtualDevice :=
  VirtualDevice_init (ED := demo_ed25519) "device-1" "device-1" {["issuer-1" := "issuer-key"]} "device-key" "device-key-1".
Definition demo_loop : PhysicalClosedLoopController :=
  mk_PhysicalClosedLoopController demo_gw DEFAULT_RESOURCE_BINDINGS demo_issuer "device-key".
Definition loop_start (unsafe : bool) : LoopState (G := DemoGate) (D := VirtualDevice) (T := DemoPlant) :=
  mk_LoopState (demo_start None) demo_device (mk_DemoPlant 1 [] unsafe).
Definition loop_call (unsafe : bool) := loop_execute demo_loop proposal (loop_start unsafe).
Definition result_of (r : result ClosedLoopResult) : ClosedLoopResult :=
  match r with
  | Ok r => r
  | Raise e => mk_ClosedLoopResult NOT_DISPATCHED [exn_type e; exn_str e] proposal (sealed 1 [] false)
      (demo_decision None) None None None None None (sealed 1 [] false) ""
  end.

(** What a call that returns returned. *)
Lemma returned {S} (x : result ClosedLoopResult * S) : is_Ok x.1 = true → x = (Ok (result_of x.1), x.2).
Proof. by destruct x as [[] ?]. Qed.

(** ** Translation and issuance *)
Lemma phys_uuid_nonempty n : uuid_at (Env := phys_env) n ≠ "".
Proof. discriminate. Qed.

Definition command_of (r : result PhysicalControlCommand) : PhysicalControlCommand :=
  match r with
  | Ok c => c
  | Raise _ => mk_PhysicalControlCommand "" "" SHED_LOAD "" SET_LINE_SERVICE "" 0 f0 ""
  end.
Definition demo_command : PhysicalControlCommand :=
  command_of (translate DEFAULT_RESOURCE_BINDINGS proposal (mk_World 10 10)).1.

Lemma translate_total_witness :
  (translate DEFAULT_RESOURCE_BINDINGS proposal (mk_World 10 10)).1 = Ok demo_command
  ∧ PhysicalControlCommand_validate demo_command = Ok demo_command ∧ target demo_command = "Line 5-6".
Proof.
  pose proof (translate_total DEFAULT_RESOURCE_BINDINGS proposal (mk_World 10 10) proposal_validates
    default_bindings_ok phys_uuid_nonempty) as H.
  assert (Hc : (translate DEFAULT_RESOURCE_BINDINGS proposal (mk_World 10 10)).1 = Ok demo_command)
    by (vm_compute; reflexivity).
  rewrite Hc in H. split; [exact Hc|]. split; [apply H|]. vm_compute. reflexivity.
Defined.

Definition demo_candidate (t : DemoPlant) : CandidateAssessment :=
  match (simulate_candidate demo_command t).1 with
  | Ok a => a
  | Raise _ => mk_CandidateAssessment "" "" (sealed 1 [] false) (sealed 2 [] false) false []
  end.
Definition demo_permit_run :=
  issue demo_issuer (gs_evidence (demo_call None).2) proposal (demo_decision None) demo_command
    (demo_candidate (mk_DemoPlant 1 [] false)) (mk_World 10 11).
Definition permit_of (r : result ExecutionPermit) : ExecutionPermit :=
  match r with
  | Ok p => p
  | Raise _ => permit_body demo_issuer proposal (demo_decision None) demo_command
      (demo_candidate (mk_DemoPlant 1 [] false)) "" "" "" "" "" "" now
  end.

Lemma permit_returned (x : result ExecutionPermit * World) :
  is_Ok x.1 = true → x = (Ok (permit_of x.1), x.2).
Proof. by destruct x as [[] ?]. Qed.

Lemma demo_exclude_permit (p : ExecutionPermit) s :
  permit_signing_payload (permit_with_signature p s) = permit_signing_payload p.
Proof. reflexivity. Qed.
Lemma demo_exclude_ack (a : CommandAcknowledgment) s :
  ack_signing_payload (ack_with_signature a s) = ack_signing_payload a.
Proof. reflexivity. Qed.

Lemma issue_authorizes_witness :
  permit_verify (permit_of demo_permit_run.1) "issuer-key" = Ok true
  ∧ dt_utc (pm_expires_at (permit_of demo_permit_run.1))
    = (dt_utc (pm_issued_at (permit_of demo_permit_run.1)) + seconds 60)%Z.
Proof.
  assert (Hr : is_Ok demo_permit_run.1 = true) by (vm_compute; reflexivity).
  pose proof (permit_returned demo_permit_run Hr) as Hrun. unfold demo_permit_run at 1 in Hrun.
  destruct (issue_authorizes demo_exclude_permit demo_sign_nonempty _ _ _ _ _ _ _ _ _ Hrun)
    as (H1 & _ & _ & _ & H2 & _).
  exact (conj H1 H2).
Defined.

(** ** The device *)
#[local] Existing Instance logged_plant | 10.
Definition device_start : VirtualDevice * (DemoPlant * list PhysicalControlCommand) * World :=
  (demo_device, (mk_DemoPlant 1 [] false, []), mk_World 12 20).
Definition device_call (s : VirtualDevice * (DemoPlant * list PhysicalControlCommand) * World) :=
  execute_locked (permit_of demo_permit_run.1) proposal (demo_decision None)
    (demo_candidate (mk_DemoPlant 1 [] false)) s.
Definition ack_of (r : result CommandAcknowledgment) : CommandAcknowledgment :=
  match r with
  | Ok a => a
  | Raise e => acknowledgment_body demo_device "" (permit_of demo_permit_run.1) REJECTED (exn_str e) now
      (sealed 1 [] false) None
  end.

Definition device_first := device_call device_start.
Definition device_second := device_call device_first.2.
(** The same permit twice: the second call does not reach the plant. *)
Definition device_events : list (ExecutionPermit * bool) :=
  [call_event (permit_of demo_permit_run.1) device_start device_first.2;
   call_event (permit_of demo_permit_run.1) device_first.2 device_second.2].

Lemma device_events_run : device_run device_start device_events device_second.2.
Proof.
  pose proof (surjective_pairing device_first) as H1. unfold device_first at 1, device_call in H1.
  pose proof (surjective_pairing device_second) as H2. unfold device_second at 1, device_call in H2.
  eapply device_run_call; [exact H1|]. eapply device_run_call; [exact H2|]. apply device_run_nil.
Qed.

Lemma dispatched_at_most_once_witness :
  snd <$> device_events = [true; false]
  ∧ applied_log device_second.2 = applied_log device_start ++ (pm_command <$> dispatched_permits device_events)
  ∧ NoDup (permit_nonce <$> dispatched_permits device_events).
Proof.
  destruct (dispatched_at_most_once _ _ _ device_events_run) as (H1 & _ & H2 & _).
  split; [vm_compute; reflexivity|]. exact (conj H1 H2).
Defined.

Lemma ack_returned {S} (x : result CommandAcknowledgment * S) : is_Ok x.1 = true → x = (Ok (ack_of x.1), x.2).
Proof. by destruct x as [[] ?]. Qed.

Lemma acknowledgment_truthful_witness :
  ack_status (ack_of device_first.1) = APPLIED
  ∧ ack_genuine demo_device (permit_of demo_permit_run.1) (ack_of device_first.1)
  ∧ ack_effect (permit_of demo_permit_run.1) device_start device_first.2 (ack_of device_first.1).
Proof.
  assert (Hok : is_Ok device_first.1 = true) by (vm_compute; reflexivity).
  pose proof (ack_returned device_first Hok) as Hrun. unfold device_first at 1, device_call in Hrun.
  pose proof (acknowledgment_truthful demo_exclude_ack demo_sign_nonempty _ _ _ _ _ _ _ Hrun) as H.
  split; [vm_compute; reflexivity|]. exact H.
Defined.

Lemma dispatch_only_authorized_witness :
  length (applied_log device_first.2) = 1%nat
  ∧ ∃ pre t1 again t2 answer,
      device_reaches (permit_of demo_permit_run.1) proposal (demo_decision None)
        (demo_candidate (mk_DemoPlant 1 [] false)) device_start pre t1 again t2
      ∧ plant_answer (permit_of demo_permit_run.1) t2 = (answer, device_first.2.1.2.1).
Proof.
  pose proof (surjective_pairing device_first) as Hrun. unfold device_first at 1, device_call in Hrun.
  assert (Hlen : length (applied_log device_first.2) = 1%nat) by (vm_compute; reflexivity).
  assert (Hne : applied_log device_first.2 ≠ applied_log device_start).
  { intros H%(f_equal length). rewrite Hlen in H. discriminate H. }
  destruct (dispatch_only_authorized _ _ _ _ _ _ _ Hrun Hne) as (pre & t1 & again & t2 & answer & H & Ha & _).
  split; [exact Hlen|]. exists pre, t1, again, t2, answer. exact (conj H Ha).
Defined.

(** ** The closed loop *)
Definition loop_completed := loop_call false.
Definition loop_unsafe := loop_call true.
Lemma completed_run : loop_execute demo_loop proposal (loop_start false)
  = (Ok (result_of loop_completed.1), loop_completed.2).
Proof.
  assert (Hok : is_Ok loop_completed.1 = true) by (vm_compute; reflexivity).
  pose proof (returned loop_completed Hok) as Hrun. unfold loop_completed, loop_call at 1 in Hrun.
  exact Hrun.
Qed.
Lemma unsafe_run : loop_execute demo_loop proposal (loop_start true)
  = (Ok (result_of loop_unsafe.1), loop_unsafe.2).
Proof.
  assert (Hok : is_Ok loop_unsafe.1 = true) by (vm_compute; reflexivity).
  pose proof (returned loop_unsafe Hok) as Hrun. unfold loop_unsafe, loop_call at 1 in Hrun.
  exact Hrun.
Qed.

Lemma undispatched_untouched_witness :
  loop_status (result_of loop_unsafe.1) = CANDIDATE_REJECTED
  ∧ loop_permit (result_of loop_unsafe.1) = None ∧ lp_device loop_unsafe.2 = demo_device.
Proof.
  assert (Hst : loop_status (result_of loop_unsafe.1) = CANDIDATE_REJECTED) by (vm_compute; reflexivity).
  destruct (undispatched_untouched _ _ _ _ _ unsafe_run) as [_ H].
  destruct (H (or_intror Hst)) as (Hp & _ & Hd & _). exact (conj Hst (conj Hp Hd)).
Defined.

Lemma completed_means_established_witness :
  loop_status (result_of loop_completed.1) = COMPLETED
  ∧ ∃ a t post, loop_assessment (result_of loop_completed.1) = Some a
      ∧ read_plant t = (Ok post, lp_plant loop_completed.2)
      ∧ loop_post_state (result_of loop_completed.1) = Some post
      ∧ ps_state_digest post = ps_state_digest (post_state a).
Proof.
  assert (Hst : loop_status (result_of loop_completed.1) = COMPLETED) by (vm_compute; reflexivity).
  destruct (completed_means_established _ _ _ _ _ completed_run Hst)
    as (state & at_ & s1 & c & w & a & t0 & permit & w0 & ack & t & w1 & post & _ & _ & _ & (_ & _ & Ha)
        & _ & _ & (Hr & Hp) & _ & _ & _ & Hd & _).
  split; [exact Hst|]. exists a, t, post. exact (conj Ha (conj Hr (conj Hp Hd))).
Defined.

Lemma loop_evidence_complete_witness :
  length (gs_evidence (lp_gateway loop_completed.2)) = 2%nat
  ∧ EvidenceChain_verify (gs_evidence (lp_gateway loop_completed.2)) = true.
Proof.
  destruct (loop_evidence_complete _ _ _ _ _ completed_run) as (r1 & r2 & pd & He & _ & _ & _ & _ & _ & Hv).
  split; [rewrite He; reflexivity|]. exact (Hv eq_refl).
Defined.

(** A device whose link is down. *)
Inductive BrokenDevice := Broken.
#[local] Instance broken_device : ControlDevice BrokenDevice DemoPlant := {|
  device_id_of := λ _, "device-1";
  acknowledgment_key_id_of := λ _, "device-key-1";
  device_execute := λ _ _ _ _ s, (raise_ "OSError" "link down", s);
|}.

Lemma permit_always_disposed_witness :
  ∃ r s', dispatch_and_read_back demo_loop proposal (sealed 1 [] false) (demo_decision None) demo_command
    (demo_candidate (mk_DemoPlant 1 [] false)) (permit_of demo_permit_run.1)
    (mk_LoopState (demo_start None) Broken (mk_DemoPlant 1 [] false)) = (Ok r, s')
    ∧ loop_status r = LOOP_UNKNOWN_EFFECT
    ∧ loop_reasons r = ["control_dispatch_outcome_unavailable"; "OSError"].
Proof.
  destruct demo_digest_proposal as [pd Hpd].
  pose proof (permit_always_disposed demo_loop proposal (sealed 1 [] false) (demo_decision None) demo_command
    (demo_candidate (mk_DemoPlant 1 [] false)) (permit_of demo_permit_run.1)
    (mk_LoopState (demo_start None) Broken (mk_DemoPlant 1 [] false)) pd Hpd) as H.
  destruct (H ltac:(intros e [[= <-]|H1]; [reflexivity|discriminate H1]) true ltac:(discriminate))
    as (r & s' & Hr & _ & Hst & _ & _ & Hrs).
  exists r, s'. exact (conj Hr (conj Hst Hrs)).
Defined.
