(* ===== verification/CapabilityModels.v ===== *)
(** * Capability-separated contracts ([src/src/aegis_ot/capability_models.py])

    Signed observations, action requests that only refer to an observation,
    capability permits and PLC acknowledgments, each with its construction check,
    digest, signature and verification. *)
From S2P Require Import Prelude PyFloat PyStr PyTime PyJson Sha256 Crypto Models PhysicalModels.

Inductive DispatchPhase := PRE_DISPATCH | KNOWN_NO_EFFECT | COMMITTED | EFFECT_UNKNOWN.
#[export] Instance DispatchPhase_eq_dec : EqDecision DispatchPhase.
Proof. solve_decision. Defined.
Inductive ObservationPhase := PRE_AUTHORIZATION | POST_DISPATCH.
#[export] Instance ObservationPhase_eq_dec : EqDecision ObservationPhase.
Proof. solve_decision. Defined.

Record SignedObservationEnvelope := mk_SignedObservationEnvelope {
  observation_id : string;
  so_correlation_id : string;
  so_phase : ObservationPhase;
  challenge_nonce : string;
  observer_id : string;
  observer_key_id : string;
  observer_boot_epoch : string;
  observer_sequence : Z;
  captured_at : datetime;
  logical_time_s : float;
  snapshot : PhysicalStateSnapshot;
  so_permit_id : option string;
  so_command_digest : option string;
  plc_acknowledgment_digest : option string;
  previous_envelope_digest : option string;
  envelope_digest : string;
  so_signature : string;
}.
#[export] Instance SignedObservationEnvelope_eq_dec : EqDecision SignedObservationEnvelope.
Proof. solve_decision. Defined.

Record CapabilityActionRequest := mk_CapabilityActionRequest {
  request_id : string;
  correlation_id : string;
  rq_proposal : ActionProposal;
  rq_observation_id : string;
  observation_envelope_digest : string;
  observation_challenge_nonce : string;
}.
#[export] Instance CapabilityActionRequest_eq_dec : EqDecision CapabilityActionRequest.
Proof. solve_decision. Defined.

#[export] Instance ExecutionPermit_eq_dec : EqDecision ExecutionPermit.
Proof. solve_decision. Defined.
#[export] Instance CandidateAssessment_eq_dec : EqDecision CandidateAssessment.
Proof. solve_decision. Defined.
Record CapabilityExecutionPermit := mk_CapabilityExecutionPermit {
  base_permit : ExecutionPermit;
  cp_request_digest : string;
  cp_observation_id : string;
  cp_observation_envelope_digest : string;
  cp_observer_id : string;
  cp_observer_key_id : string;
  cp_observer_boot_epoch : string;
  target_plc_id : string;
  target_plc_key_id : string;
  target_plc_boot_epoch : string;
  cp_signing_key_id : string;
  cp_signature : string;
}.
#[export] Instance CapabilityExecutionPermit_eq_dec : EqDecision CapabilityExecutionPermit.
Proof. solve_decision. Defined.
Definition cp_with_signature (p : CapabilityExecutionPermit) (s : string) : CapabilityExecutionPermit :=
  mk_CapabilityExecutionPermit (base_permit p) (cp_request_digest p) (cp_observation_id p)
    (cp_observation_envelope_digest p) (cp_observer_id p) (cp_observer_key_id p) (cp_observer_boot_epoch p)
    (target_plc_id p) (target_plc_key_id p) (target_plc_boot_epoch p) (cp_signing_key_id p) s.

Record PlcCommandAcknowledgment := mk_PlcCommandAcknowledgment {
  pa_acknowledgment_id : string;
  pa_request_digest : string;
  permit_digest : string;
  pa_observation_envelope_digest : string;
  pa_permit_id : string;
  pa_permit_nonce : string;
  pa_command_id : string;
  pa_command_digest : string;
  pa_assessment_digest : string;
  pa_proposal_id : string;
  pa_decision_id : string;
  plc_id : string;
  plc_key_id : string;
  plc_boot_epoch : string;
  plc_scan : Z;
  pa_status : CommandStatus;
  dispatch_phase : DispatchPhase;
  pa_reason : string;
  acknowledged_at : datetime;
  pa_pre_state : PhysicalStateSnapshot;
  pa_pre_state_digest : string;
  pa_pre_state_version : Z;
  pa_post_state_digest : option string;
  pa_post_state_version : option Z;
  post_topology_digest : option string;
  pa_pre_actuator_setpoint : float;
  pa_post_actuator_setpoint : option float;
  simulation_time_s : float;
  pa_signature : string;
}.
#[export] Instance PlcCommandAcknowledgment_eq_dec : EqDecision PlcCommandAcknowledgment.
Proof. solve_decision. Defined.
Definition pa_with_signature (a : PlcCommandAcknowledgment) (s : string) : PlcCommandAcknowledgment :=
  mk_PlcCommandAcknowledgment (pa_acknowledgment_id a) (pa_request_digest a) (permit_digest a)
    (pa_observation_envelope_digest a) (pa_permit_id a) (pa_permit_nonce a) (pa_command_id a)
    (pa_command_digest a) (pa_assessment_digest a) (pa_proposal_id a) (pa_decision_id a) (plc_id a)
    (plc_key_id a) (plc_boot_epoch a) (plc_scan a) (pa_status a) (dispatch_phase a) (pa_reason a)
    (acknowledged_at a) (pa_pre_state a) (pa_pre_state_digest a) (pa_pre_state_version a)
    (pa_post_state_digest a) (pa_post_state_version a) (post_topology_digest a) (pa_pre_actuator_setpoint a)
    (pa_post_actuator_setpoint a) (simulation_time_s a) s.

Section capability_models.
Context {ED : Ed25519}.
Context {DSt : ModelDump PhysicalStateSnapshot} {DCo : ModelDump PhysicalControlCommand}
  {DAs : ModelDump CandidateAssessment} {DPe : ModelDump ExecutionPermit}
  {DPr : ModelDump ActionProposal} {DOb : ModelDump SignedObservationEnvelope}
  {DRq : ModelDump CapabilityActionRequest} {DCp : ModelDump CapabilityExecutionPermit}
  {DPa : ModelDump PlcCommandAcknowledgment}.

Definition closed (c : bool) (msg : string) : result unit := require c "ValidationError" msg.

(** ** Observations *)
Definition observation_digest_material (o : SignedObservationEnvelope) : json :=
  json_exclude ["envelope_digest"; "signature"] (model_dump o).
Definition post_bindings (o : SignedObservationEnvelope) : list (option string) :=
  [so_permit_id o; so_command_digest o; plc_acknowledgment_digest o].
(** The nested snapshot was constructed before. *)
Definition SignedObservationEnvelope_validate (o : SignedObservationEnvelope) : result SignedObservationEnvelope :=
  _ ← closed (min_length 1 (observation_id o) && min_length 1 (so_correlation_id o)
              && min_length 16 (challenge_nonce o) && (str_len (challenge_nonce o) <=? 256)%Z
              && min_length 1 (observer_id o) && min_length 1 (observer_key_id o)
              && min_length 16 (observer_boot_epoch o) && (1 <=? observer_sequence o)%Z
              && f_ge f0 (logical_time_s o) && opt_field (min_length 1) (so_permit_id o)
              && opt_field is_sha256 (so_command_digest o) && opt_field is_sha256 (plc_acknowledgment_digest o)
              && opt_field is_sha256 (previous_envelope_digest o) && is_sha256 (envelope_digest o))
      "field constraint";
  _ ← closed (dt_aware (captured_at o)) "captured_at must be timezone-aware";
  _ ← closed (is_finite (logical_time_s o)) "logical_time_s must be finite";
  valid ← verify_digest (snapshot o);
  _ ← closed valid "signed observation contains an invalid physical-state digest";
  _ ← closed (dt_eqb (captured_at o) (ps_observed_at (snapshot o)))
      "observer capture time must match the physical observation time";
  _ ← closed (feqb (logical_time_s o) (ps_simulation_time_s (snapshot o)))
      "observer logical time must match the physical simulation time";
  _ ← closed (negb (bool_decide (so_phase o = PRE_AUTHORIZATION)
                    && existsb (λ v, bool_decide (is_Some v)) (post_bindings o)))
      "pre-authorization observation cannot assert dispatch bindings";
  _ ← closed (negb (bool_decide (so_phase o = POST_DISPATCH)
                    && existsb (λ v, bool_decide (v = None)) (post_bindings o)))
      "post-dispatch observation requires permit, command, and ACK bindings";
  _ ← closed (negb (bool_decide (so_phase o = POST_DISPATCH) && bool_decide (previous_envelope_digest o = None)))
      "post-dispatch observation requires its transaction predecessor";
  d ← canonical_digest (observation_digest_material o);
  _ ← closed (bool_decide (envelope_digest o = d)) "signed observation envelope digest is inconsistent";
  Ok o.

Definition observation_signing_payload (o : SignedObservationEnvelope) : result string :=
  dumps_strict (json_exclude ["signature"] (model_dump o)).
Definition so_with (o : SignedObservationEnvelope) (digest s : string) : SignedObservationEnvelope :=
  mk_SignedObservationEnvelope (observation_id o) (so_correlation_id o) (so_phase o) (challenge_nonce o)
    (observer_id o) (observer_key_id o) (observer_boot_epoch o) (observer_sequence o) (captured_at o)
    (logical_time_s o) (snapshot o) (so_permit_id o) (so_command_digest o) (plc_acknowledgment_digest o)
    (previous_envelope_digest o) digest s.
(** [SignedObservationEnvelope.issue]; [bindings] are the permit, the command
    digest and the acknowledgment digest. *)
Definition observation_issue `{Env} (s : PhysicalStateSnapshot) (correlation : string) (phase : ObservationPhase)
    (nonce observer key epoch : string) (seq : Z) (previous : option string)
    (bindings : option string * option string * option string) (k : private_key) :
    M World SignedObservationEnvelope :=
  id ← uuid4;
  let '(permit, command, ack) := bindings in
  let provisional := mk_SignedObservationEnvelope id correlation phase nonce observer key epoch seq
                       (ps_observed_at s) (ps_simulation_time_s s) s permit command ack previous (zeros 64) "" in
  d ← lift (canonical_digest (observation_digest_material provisional));
  envelope ← lift (SignedObservationEnvelope_validate (so_with provisional d ""));
  payload ← lift (observation_signing_payload envelope);
  mret (so_with envelope (envelope_digest envelope) (sign_bytes k payload)).
Definition observation_verify (o : SignedObservationEnvelope) (k : public_key) : result bool :=
  signature_valid k (so_signature o) (observation_signing_payload o).

(** ** Requests and permits *)
Definition CapabilityActionRequest_validate (r : CapabilityActionRequest) : result CapabilityActionRequest :=
  _ ← closed (min_length 1 (request_id r) && min_length 1 (correlation_id r) && min_length 1 (rq_observation_id r)
              && is_sha256 (observation_envelope_digest r) && min_length 16 (observation_challenge_nonce r)
              && (str_len (observation_challenge_nonce r) <=? 256)%Z)
      "field constraint";
  Ok r.
Definition request_digest (r : CapabilityActionRequest) : result string := canonical_digest (model_dump r).

Definition CapabilityExecutionPermit_validate (p : CapabilityExecutionPermit) : result CapabilityExecutionPermit :=
  _ ← closed (is_sha256 (cp_request_digest p) && min_length 1 (cp_observation_id p)
              && is_sha256 (cp_observation_envelope_digest p) && min_length 1 (cp_observer_id p)
              && min_length 1 (cp_observer_key_id p) && min_length 16 (cp_observer_boot_epoch p)
              && min_length 1 (target_plc_id p) && min_length 1 (target_plc_key_id p)
              && min_length 16 (target_plc_boot_epoch p) && min_length 1 (cp_signing_key_id p))
      "field constraint";
  _ ← closed (bool_decide (cp_signing_key_id p = pm_signing_key_id (base_permit p)))
      "capability permit signer does not match the base permit signer";
  Ok p.
Definition capability_permit_digest (p : CapabilityExecutionPermit) : result string := canonical_digest (model_dump p).
Definition cp_signing_payload (p : CapabilityExecutionPermit) : result string :=
  dumps_strict (json_exclude ["signature"] (model_dump p)).
Definition cp_signed (p : CapabilityExecutionPermit) (k : private_key) : result CapabilityExecutionPermit :=
  b ← cp_signing_payload p; Ok (cp_with_signature p (sign_bytes k b)).
Definition cp_verify (p : CapabilityExecutionPermit) (k : public_key) : result bool :=
  base ← permit_verify (base_permit p) k;
  if (base : bool) then signature_valid k (cp_signature p) (cp_signing_payload p) else Ok false.

(** ** PLC acknowledgments *)
Definition status_shape (a : PlcCommandAcknowledgment) : result unit :=
  let no_post := bool_decide (pa_post_state_digest a = None) && bool_decide (pa_post_state_version a = None)
                 && bool_decide (post_topology_digest a = None) in
  match pa_status a with
  | APPLIED =>
      _ ← closed (bool_decide (dispatch_phase a = COMMITTED))
          "applied acknowledgment must assert the committed phase";
      closed (bool_decide (is_Some (pa_post_state_digest a)) && bool_decide (is_Some (pa_post_state_version a))
              && bool_decide (is_Some (post_topology_digest a)) && bool_decide (is_Some (pa_post_actuator_setpoint a)))
        "applied acknowledgment requires complete post-state evidence"
  | REJECTED =>
      _ ← closed (bool_decide (dispatch_phase a ∈ [PRE_DISPATCH; KNOWN_NO_EFFECT]))
          "rejected acknowledgment must establish a no-effect phase";
      _ ← closed no_post "rejected acknowledgment cannot assert a post-state";
      closed (feqb_opt (pa_post_actuator_setpoint a) (pa_pre_actuator_setpoint a))
        "rejected acknowledgment must evidence an unchanged actuator"
  | UNKNOWN_EFFECT =>
      _ ← closed (bool_decide (dispatch_phase a = EFFECT_UNKNOWN))
          "unknown effect must assert the effect-unknown phase";
      closed (no_post && bool_decide (pa_post_actuator_setpoint a = None))
        "unknown effect cannot assert post-dispatch state"
  end.
Definition PlcCommandAcknowledgment_validate (a : PlcCommandAcknowledgment) : result PlcCommandAcknowledgment :=
  _ ← closed (min_length 1 (pa_acknowledgment_id a) && is_sha256 (pa_request_digest a) && is_sha256 (permit_digest a)
              && is_sha256 (pa_observation_envelope_digest a) && min_length 1 (pa_permit_id a)
              && min_length 16 (pa_permit_nonce a) && min_length 1 (pa_command_id a)
              && is_sha256 (pa_command_digest a) && is_sha256 (pa_assessment_digest a)
              && min_length 1 (pa_proposal_id a) && min_length 1 (pa_decision_id a) && min_length 1 (plc_id a)
              && min_length 1 (plc_key_id a) && min_length 16 (plc_boot_epoch a) && (1 <=? plc_scan a)%Z
              && min_length 1 (pa_reason a) && is_sha256 (pa_pre_state_digest a) && (0 <=? pa_pre_state_version a)%Z
              && opt_field is_sha256 (pa_post_state_digest a) && opt_field (λ v, 0 <=? v)%Z (pa_post_state_version a)
              && opt_field is_sha256 (post_topology_digest a) && f_ge f0 (simulation_time_s a)
              && is_finite (simulation_time_s a))
      "field constraint";
  _ ← closed (dt_aware (acknowledged_at a)) "acknowledged_at must be timezone-aware";
  _ ← closed (is_finite (pa_pre_actuator_setpoint a) && opt_field is_finite (pa_post_actuator_setpoint a))
      "acknowledgment actuator setpoints must be finite";
  valid ← verify_digest (pa_pre_state a);
  _ ← closed valid "PLC acknowledgment contains an invalid pre-state";
  _ ← closed (bool_decide (pa_pre_state_digest a = ps_state_digest (pa_pre_state a))
              && (pa_pre_state_version a =? ps_state_version (pa_pre_state a))%Z)
      "PLC acknowledgment pre-state fields are inconsistent";
  _ ← status_shape a;
  Ok a.

Definition pa_digest (a : PlcCommandAcknowledgment) : result string := canonical_digest (model_dump a).
Definition pa_signing_payload (a : PlcCommandAcknowledgment) : result string :=
  dumps_strict (json_exclude ["signature"] (model_dump a)).
Definition pa_signed (a : PlcCommandAcknowledgment) (k : private_key) : result PlcCommandAcknowledgment :=
  b ← pa_signing_payload a; Ok (pa_with_signature a (sign_bytes k b)).
Definition pa_verify (a : PlcCommandAcknowledgment) (k : public_key) : result bool :=
  signature_valid k (pa_signature a) (pa_signing_payload a).

(** *** [verify_for_transaction] *)
Record PlcTarget := mk_PlcTarget { tg_plc_id : string; tg_plc_key_id : string; tg_plc_boot_epoch : string }.

Definition replay_rejection (a : PlcCommandAcknowledgment) : bool :=
  bool_decide (pa_status a = REJECTED) && bool_decide (dispatch_phase a = PRE_DISPATCH)
  && bool_decide (pa_reason a ∈ ["transaction_replayed"; "permit_replayed"; "permit_nonce_replayed";
                                 "command_replayed"]).
Definition pa_identifiers_match (a : PlcCommandAcknowledgment) (r : CapabilityActionRequest)
    (p : CapabilityExecutionPermit) (o : SignedObservationEnvelope) (t : PlcTarget) : result bool :=
  let base := base_permit p in
  rd ← request_digest r;
  pd ← capability_permit_digest p;
  Ok (bool_decide (pa_request_digest a = rd) && bool_decide (rd = cp_request_digest p)
      && bool_decide (permit_digest a = pd)
      && bool_decide (pa_observation_envelope_digest a = envelope_digest o)
      && bool_decide (envelope_digest o = cp_observation_envelope_digest p)
      && bool_decide (pa_permit_id a = permit_id base) && bool_decide (pa_permit_nonce a = permit_nonce base)
      && bool_decide (pa_command_id a = command_id (pm_command base))
      && bool_decide (pa_command_digest a = pm_command_digest base)
      && bool_decide (pa_assessment_digest a = pm_assessment_digest base)
      && bool_decide (pa_proposal_id a = pm_proposal_id base)
      && bool_decide (pm_proposal_id base = proposal_id (rq_proposal r))
      && bool_decide (pa_decision_id a = pm_decision_id base)
      && bool_decide (plc_id a = tg_plc_id t) && bool_decide (plc_key_id a = tg_plc_key_id t)
      && bool_decide (plc_boot_epoch a = tg_plc_boot_epoch t) && bool_decide (target_plc_id p = tg_plc_id t)).

Definition authorized_pre_state (a : PlcCommandAcknowledgment) (base : ExecutionPermit)
    (s : PhysicalStateSnapshot) : bool :=
  let pre := pa_pre_state a in
  bool_decide (pre = s)
  && bool_decide (pa_pre_state_digest a = ps_state_digest s) && bool_decide (ps_state_digest s = pm_state_digest base)
  && (pa_pre_state_version a =? ps_state_version s)%Z && (ps_state_version s =? pm_state_version base)%Z
  && bool_decide (ps_observation_digest pre = ps_observation_digest s)
  && bool_decide (ps_observation_digest s = pm_observation_digest base)
  && bool_decide (ps_topology_digest pre = ps_topology_digest s)
  && bool_decide (ps_topology_digest s = pm_topology_digest base)
  && bool_decide (ps_model_digest pre = ps_model_digest s)
  && bool_decide (ps_model_digest s = pm_model_digest base).

(** The compare-and-set reasons: the first authorized value the pre-state misses. *)
Definition cas_reasons : list string :=
  ["model_digest_changed"; "topology_digest_changed"; "precommit_state_version_changed";
   "precommit_state_digest_changed"; "precommit_observation_changed"].
Definition cas_rejection (a : PlcCommandAcknowledgment) (base : ExecutionPermit) : bool :=
  let pre := pa_pre_state a in
  let model := bool_decide (ps_model_digest pre = pm_model_digest base) in
  let topology := bool_decide (ps_topology_digest pre = pm_topology_digest base) in
  let version := (pa_pre_state_version a =? pm_state_version base)%Z in
  let state := bool_decide (pa_pre_state_digest a = pm_state_digest base) in
  let observation := bool_decide (ps_observation_digest pre = pm_observation_digest base) in
  let reason r := bool_decide (pa_reason a = r) in
  bool_decide (pa_status a = REJECTED) && bool_decide (dispatch_phase a ∈ [PRE_DISPATCH; KNOWN_NO_EFFECT])
  && (reason "model_digest_changed" && negb model
      || reason "topology_digest_changed" && model && negb topology
      || reason "precommit_state_version_changed" && model && topology && negb version
      || reason "precommit_state_digest_changed" && model && topology && version && negb state
      || reason "precommit_observation_changed" && model && topology && version && state && negb observation).

Definition rejection_time_valid (a : PlcCommandAcknowledgment) (base : ExecutionPermit) : bool :=
  if bool_decide (pa_reason a = "permit_not_yet_valid") then dt_ltb (acknowledged_at a) (pm_issued_at base)
  else if bool_decide (pa_reason a ∈ ["permit_expired"; "permit_expired_before_dispatch";
                                      "permit_expired_after_replay_reservation"])
  then dt_leb (pm_expires_at base) (acknowledged_at a)
  else if replay_rejection a then dt_leb (pm_issued_at base) (acknowledged_at a)
  else dt_leb (pm_issued_at base) (acknowledged_at a) && dt_ltb (acknowledged_at a) (pm_expires_at base).

Definition status_justified (a : PlcCommandAcknowledgment) (base : ExecutionPermit) (s : PhysicalStateSnapshot) :
    bool :=
  match pa_status a with
  | APPLIED =>
      dt_leb (pm_issued_at base) (acknowledged_at a) && dt_ltb (acknowledged_at a) (pm_expires_at base)
      && authorized_pre_state a base s
      && bool_decide (pa_post_state_digest a = Some (expected_post_state_digest base))
      && bool_decide (pa_post_state_version a = Some (expected_post_state_version base))
      && bool_decide (post_topology_digest a = Some (expected_post_topology_digest base))
      && feqb_opt (pa_post_actuator_setpoint a) (setpoint (pm_command base))
  | REJECTED =>
      rejection_time_valid a base
      && (authorized_pre_state a base s && negb (bool_decide (pa_reason a ∈ cas_reasons))
          || replay_rejection a || cas_rejection a base)
      && feqb_opt (pa_post_actuator_setpoint a) (pa_pre_actuator_setpoint a)
  | UNKNOWN_EFFECT =>
      bool_decide (dispatch_phase a = EFFECT_UNKNOWN) && dt_leb (pm_issued_at base) (acknowledged_at a)
      && authorized_pre_state a base s
  end.

Definition pa_verify_for_transaction (a : PlcCommandAcknowledgment) (k : public_key) (r : CapabilityActionRequest)
    (p : CapabilityExecutionPermit) (o : SignedObservationEnvelope) (t : PlcTarget) : result bool :=
  let base := base_permit p in
  ids ← pa_identifiers_match a r p o t;
  if negb ids then Ok false else
  signed ← pa_verify a k;
  let instance_matches := bool_decide (target_plc_key_id p = tg_plc_key_id t)
                          && bool_decide (target_plc_boot_epoch p = tg_plc_boot_epoch t) in
  if negb signed || negb instance_matches && negb (replay_rejection a) then Ok false else
  valid ← verify_digest (pa_pre_state a);
  if valid && bool_decide (pa_pre_state_digest a = ps_state_digest (pa_pre_state a))
     && (pa_pre_state_version a =? ps_state_version (pa_pre_state a))%Z
     && feqb (pa_pre_actuator_setpoint a) (actuator_setpoint (pa_pre_state a) (pm_command base))
  then Ok (status_justified a base (snapshot o))
  else Ok false.
End capability_models.
