(* ===== verification/DurableReplay.v ===== *)
(** * Durable replay ledgers
    ([src/src/aegis_ot/transport_replay.py], [src/src/aegis_ot/workload_replay.py])

    Both ledgers are one algorithm with different identities, messages and
    exception classes: a [LedgerProfile] holds the differences.  The directory
    entry, the sidecar lock and the failures of file operations are explicit; a
    ledger file is a canonical JSON document that [load_document] only accepts
    when it prints back to the same octets. *)
From S2P Require Import Prelude PyFloat PyStr PyJson Sha256.
From stdpp Require Import sorting.

(** ** The file system a ledger lives in *)
Inductive Parent := ParentUnavailable | ParentSymlink | ParentNotDirectory | ParentDirectory (mode : Z).
Inductive Entry := EntryAbsent | EntrySymlink | EntryIrregular | EntryFile (mode : Z) (bytes : string).
(** The writer lock's sidecar file. *)
Inductive Sidecar := SidecarAbsent | SidecarUnopenable | SidecarIrregular | SidecarFile (mode : Z).

Record Disk := mk_Disk {
  dk_parent : Parent;
  dk_entry : Entry;
  dk_sidecar : Sidecar;
  dk_locked : bool;
  dk_step : nat;
}.
Definition set_entry (e : Entry) (d : Disk) : Disk :=
  mk_Disk (dk_parent d) e (dk_sidecar d) (dk_locked d) (dk_step d).
Definition set_lock (s : Sidecar) (held : bool) (d : Disk) : Disk :=
  mk_Disk (dk_parent d) (dk_entry d) s held (dk_step d).
Definition next_step (d : Disk) : Disk :=
  mk_Disk (dk_parent d) (dk_entry d) (dk_sidecar d) (dk_locked d) (S (dk_step d)).

(** How an atomic replacement ends: done, an [OSError] before the new file took
    the name, an [OSError] after it did, or a failure to remove the temporary. *)
Inductive WriteOutcome := Written | FailedBefore | FailedAfter | CleanupFailed.
(** The [n]-th file operation's outcome is the environment's. *)
Class FsEnv := { write_outcome : nat → WriteOutcome; read_fails : nat → bool }.

(** Mode bits as the source tests them: [mode & 0o077], [mode == 0o600]. *)
Definition private_directory (mode : Z) : bool := (Z.land mode 63 =? 0)%Z.
Definition mode_0600 : Z := 384.

(** ** What distinguishes the two ledgers *)
Record LedgerProfile := mk_LedgerProfile {
  lp_error : string;
  lp_label : string;
  lp_nonce_message : string;
  lp_lock_label : string;
  lp_fixed_open_message : bool;
  lp_schema : string;
  lp_identity : list (string * string);
}.

Definition MAX_LEDGER_BYTES : Z := 4 * 1024 * 1024.
Definition MAX_RESERVATIONS : Z := 8192.
Definition MIN_NONCE_LENGTH : Z := 16.
Definition MAX_NONCE_LENGTH : Z := 256.

(** A dict of nonces to request digests, in insertion order. *)
Definition Reservations := list (string * string).

Section ledger.
Context {FS : FsEnv}.
Variable lp : LedgerProfile.

Definition ledger_error {A} (msg : string) : result A := raise_ (lp_error lp) msg.
Definition labelled {A} (msg : string) : result A := ledger_error (lp_label lp +:+ " " +:+ msg).
Definition ensure (c : bool) (msg : string) : result unit := if c then Ok tt else labelled msg.

(** ** Field checks *)
Definition check_digest (v : string) : result string :=
  if is_sha256 v then Ok v else labelled "digest is invalid".
Definition check_nonce (v : string) : result string :=
  if (MIN_NONCE_LENGTH <=? str_len v)%Z && (str_len v <=? MAX_NONCE_LENGTH)%Z
  then Ok v else ledger_error (lp_nonce_message lp).

(** ** The document *)
Definition by_nonce (a b : string * string) : Prop := str_le a.1 b.1.
#[local] Instance by_nonce_dec : RelDecision by_nonce := λ a b, decide (str_le a.1 b.1).
Definition sorted_reservations (rs : Reservations) : Reservations := merge_sort by_nonce rs.

Definition reservation_json (r : string * string) : json :=
  JObj [("nonce", JStr r.1); ("signed_request_sha256", JStr r.2)].
Definition document (rs : Reservations) : json :=
  JObj (((λ f, (f.1, JStr f.2)) <$> lp_identity lp)
        ++ [("reservations", JArr (reservation_json <$> sorted_reservations rs));
            ("schema_version", JStr (lp_schema lp))]).
Definition canonical_bytes (v : json) : result string := dumps_strict v.

(** [set(parsed) != {...}] *)
Definition keys_are (ks : list string) (kv : list (string * json)) : bool :=
  forallb (λ k, bool_decide (k ∈ ks)) kv.*1 && forallb (λ k, bool_decide (k ∈ kv.*1)) ks.
Definition document_keys : list string := (lp_identity lp).*1 ++ ["reservations"; "schema_version"].
(** [parsed[k] == v] for a string [v] *)
Definition field_is (kv : list (string * json)) (k v : string) : bool :=
  match dict_get k kv with Some (JStr s) => bool_decide (s = v) | _ => false end.

Definition string_field (kv : list (string * json)) (k : string) : option string :=
  match dict_get k kv with Some (JStr s) => Some s | _ => None end.

(** One entry: its nonce and digest, given what preceded it. *)
Definition load_entry (prior : option string) (seen : list string) (entry : json) : result (string * string) :=
  match entry with
  | JObj kv =>
      _ ← ensure (keys_are ["nonce"; "signed_request_sha256"] kv) "ledger reservation shape is invalid";
      nonce ← match string_field kv "nonce" with
              | Some n => check_nonce n | None => ledger_error (lp_nonce_message lp) end;
      digest ← match string_field kv "signed_request_sha256" with
               | Some d => check_digest d | None => labelled "digest is invalid" end;
      _ ← ensure (match prior with Some p => str_ltb p nonce | None => true end)
          "ledger reservations are not sorted and unique";
      _ ← ensure (negb (bool_decide (digest ∈ seen))) "ledger request digest is duplicated";
      Ok (nonce, digest)
  | _ => labelled "ledger reservation shape is invalid"
  end.

Fixpoint load_entries (prior : option string) (seen : list string) (entries : list json) :
    result Reservations :=
  match entries with
  | [] => Ok []
  | entry :: entries =>
      r ← load_entry prior seen entry;
      rest ← load_entries (Some r.1) (r.2 :: seen) entries;
      Ok (r :: rest)
  end.

(** [_load] on the octets of the file. *)
Definition parse_ledger (material : string) : result json :=
  match utf8_decode material with
  | None => labelled "ledger is not strict UTF-8 JSON"
  | Some text =>
      match loads (closed_object (lp_error lp) (lp_label lp +:+ " ledger has a duplicate key")) text with
      | Ok v => Ok v
      | Raise e => if isinstance_exn e (lp_error lp) then Raise e
                   else if isinstance_exn e "ValueError" then labelled "ledger is not strict UTF-8 JSON"
                   else Raise e
      end
  end.

Definition load_document (material : string) : result Reservations :=
  parsed ← parse_ledger material;
  match parsed with
  | JObj kv =>
      _ ← ensure (keys_are document_keys kv) "ledger has unexpected or missing fields";
      _ ← ensure (field_is kv "schema_version" (lp_schema lp)) "ledger schema is unsupported";
      _ ← ensure (forallb (λ f, field_is kv f.1 f.2) (lp_identity lp))
          "ledger identity does not match configuration";
      rs ← match dict_get "reservations" kv with
           | Some (JArr entries) =>
               _ ← ensure (Z.of_nat (length entries) <=? MAX_RESERVATIONS)%Z
                   "ledger reservation set is invalid";
               load_entries None [] entries
           | _ => labelled "ledger reservation set is invalid"
           end;
      bytes ← canonical_bytes (document rs);
      _ ← ensure (bool_decide (material = bytes)) "ledger encoding is not canonical";
      Ok rs
  | _ => labelled "ledger has unexpected or missing fields"
  end.

(** ** The ledger object *)
Record LedgerObject := mk_LedgerObject {
  lo_writer : option Z;
  lo_reservations : Reservations;
}.
Abbreviation LedgerState := (LedgerObject * Disk)%type.
Definition set_reservations (rs : Reservations) : M LedgerState unit :=
  modify (λ s, (mk_LedgerObject (lo_writer s.1) rs, s.2)).
Definition on_disk {A} (m : M Disk A) : M LedgerState A := zoom snd (λ d s, (s.1, d)) m.

(** [_assert_writer] in process [pid]: the lock's owner is remembered. *)
Definition assert_writer (pid : Z) : M LedgerState unit := λ s,
  (match lo_writer s.1 with
   | None => labelled "writer lock is closed"
   | Some owner => if (owner =? pid)%Z then Ok tt
                   else ledger_error (lp_lock_label lp +:+ " cannot be used by an inherited child process")
   end, s).

Definition check_parent : M Disk unit := λ d,
  (match dk_parent d with
   | ParentUnavailable => labelled "directory is unavailable"
   | ParentSymlink | ParentNotDirectory => labelled "directory must be a non-symlink directory"
   | ParentDirectory mode => ensure (private_directory mode) "directory must not grant group or other access"
   end, d).

Definition read_entry : M Disk string := λ d,
  (match dk_entry d with
   | EntryAbsent | EntrySymlink => labelled "ledger is missing or unavailable"
   | EntryIrregular => labelled "ledger must be a regular non-symlink file"
   | EntryFile mode bytes =>
       _ ← ensure (mode =? mode_0600)%Z "ledger mode must be 0600";
       _ ← ensure (str_len bytes <=? MAX_LEDGER_BYTES)%Z "ledger exceeds its size limit";
       if read_fails (dk_step d) then labelled "ledger cannot be read" else Ok bytes
   end, next_step d).

Definition ledger_read (pid : Z) : M LedgerState string :=
  _ ← assert_writer pid;
  _ ← on_disk check_parent;
  on_disk read_entry.

Definition ledger_load (pid : Z) : M LedgerState Reservations :=
  material ← ledger_read pid;
  lift (load_document material).

(** The temporary file, its [fsync] and the replacement. *)
Definition replace_file (material : string) : M Disk unit := λ d,
  let written := set_entry (EntryFile mode_0600 material) d in
  match write_outcome (dk_step d) with
  | Written => (Ok tt, next_step written)
  | FailedBefore => (labelled "ledger update failed", next_step d)
  | FailedAfter => (labelled "ledger update failed", next_step written)
  | CleanupFailed => (raise_ "OSError" "temporary file cannot be removed", next_step d)
  end.

Definition ledger_persist (pid : Z) : M LedgerState unit :=
  _ ← assert_writer pid;
  _ ← on_disk check_parent;
  s ← get;
  let rs := lo_reservations s.1 in
  _ ← lift (ensure (Z.of_nat (length rs) <=? MAX_RESERVATIONS)%Z "ledger is at capacity");
  material ← lift (canonical_bytes (document rs));
  _ ← lift (ensure (str_len material <=? MAX_LEDGER_BYTES)%Z "ledger is at capacity");
  on_disk (replace_file material).

(** ** Operations *)
Definition ledger_contains (pid : Z) (nonce : string) : M LedgerState bool :=
  n ← lift (check_nonce nonce);
  rs ← ledger_load pid;
  _ ← set_reservations rs;
  mret (bool_decide (is_Some (dict_get n rs))).

Definition ledger_reserve (pid : Z) (nonce signed_request_sha256 : string) : M LedgerState bool :=
  n ← lift (check_nonce nonce);
  d ← lift (check_digest signed_request_sha256);
  rs ← ledger_load pid;
  _ ← set_reservations rs;
  if bool_decide (is_Some (dict_get n rs)) then mret false
  else if bool_decide (d ∈ rs.*2) then mret false
  else
    _ ← set_reservations (dict_set n d rs);
    done_ ← attempt (ledger_persist pid);
    match done_ with
    | Ok _ => mret true
    | Raise e => _ ← set_reservations rs; lift (Raise e)
    end.

(** [status] *)
Definition ledger_status (pid : Z) : M LedgerState (Z * string) :=
  rs ← ledger_load pid;
  _ ← set_reservations rs;
  material ← lift (canonical_bytes (document rs));
  mret (Z.of_nat (length rs), sha256_hex material).

(** ** Opening and closing *)
(** [_LifetimeReplayWriterLock.__init__]: a failure names why. *)
Definition acquire_lock : M Disk unit := λ d,
  match dk_sidecar d with
  | SidecarUnopenable => (raise_ "LockError" (lp_lock_label lp +:+ " is already held or unavailable"), d)
  | SidecarIrregular => (raise_ "LockError" (lp_lock_label lp +:+ " must be a regular non-symlink file"), d)
  | SidecarAbsent =>
      let d := set_lock (SidecarFile mode_0600) (dk_locked d) d in
      if dk_locked d then (raise_ "LockError" (lp_lock_label lp +:+ " is already held or unavailable"), d)
      else (Ok tt, set_lock (SidecarFile mode_0600) true d)
  | SidecarFile mode =>
      if negb (mode =? mode_0600)%Z then (raise_ "LockError" (lp_lock_label lp +:+ " mode must be 0600"), d)
      else if dk_locked d
      then (raise_ "LockError" (lp_lock_label lp +:+ " is already held or unavailable"), d)
      else (Ok tt, set_lock (SidecarFile mode) true d)
  end.

Definition ledger_close : M LedgerState unit := λ s,
  match lo_writer s.1 with
  | None => (Ok tt, s)
  | Some _ => (Ok tt, (mk_LedgerObject None (lo_reservations s.1),
                       set_lock (dk_sidecar s.2) false s.2))
  end.

Definition open_message (e : exn) : string :=
  if lp_fixed_open_message lp then lp_label lp +:+ " writer lock is already held or unavailable"
  else exn_str e.

(** The constructor's body after its field checks; on failure the lock is
    released again. *)
Definition ledger_open_locked (pid : Z) (initialize : bool) : M LedgerState unit :=
  _ ← (if initialize then
         s ← get;
         _ ← lift (ensure (match dk_entry s.2 with EntryAbsent => true | _ => false end)
                     "ledger already exists; refusing to initialize");
         ledger_persist pid
       else mret tt);
  rs ← ledger_load pid;
  set_reservations rs.

Definition ledger_open (pid : Z) (initialize : bool) : M LedgerState unit := λ s,
  match check_parent s.2 with
  | (Raise e, d) => (Raise e, (s.1, d))
  | (Ok _, d) =>
      match acquire_lock d with
      | (Raise e, d) => (ledger_error (open_message e), (s.1, d))
      | (Ok _, d) =>
          match ledger_open_locked pid initialize (mk_LedgerObject (Some pid) [], d) with
          | (Ok _, s') => (Ok tt, s')
          | (Raise e, s') => (Raise e, (ledger_close s').2)
          end
      end
  end.
End ledger.

(** ** Reservations that a ledger may hold *)
Section contents.
Context {FS : FsEnv}.
Variable lp : LedgerProfile.

Record reservations_wf (rs : Reservations) : Prop := {
  rw_nonces : NoDup rs.*1;
  rw_digests : NoDup rs.*2;
  rw_fields : Forall (λ r, check_nonce lp r.1 = Ok r.1 ∧ check_digest lp r.2 = Ok r.2) rs;
  rw_bound : (Z.of_nat (length rs) <= MAX_RESERVATIONS)%Z;
}.
(** A profile's identity keys are distinct and none of the other two keys; its
    error is an ordinary exception. *)
Definition profile_ok : Prop := NoDup (document_keys lp) ∧ "Exception" ∈ exn_bases (lp_error lp).
Lemma ledger_error_exception msg :
  profile_ok → isinstance_exn (mk_exn (lp_error lp) msg) "Exception" = true.
Proof using Type. intros [_ H]. unfold isinstance_exn. apply orb_true_iff. right. by apply bool_decide_eq_true. Qed.

#[local] Existing Instance by_nonce_dec.
#[local] Instance by_nonce_total : Total by_nonce.
Proof using Type. intros a b. apply str_le_total. Qed.
#[local] Instance by_nonce_trans : Transitive by_nonce.
Proof using Type. intros a b c. apply str_le_trans. Qed.

Lemma sorted_perm rs : sorted_reservations rs ≡ₚ rs.
Proof using Type. apply merge_sort_Permutation. Qed.
Lemma sorted_wf rs : reservations_wf rs → reservations_wf (sorted_reservations rs).
Proof using Type. intros []. split; by rewrite sorted_perm. Qed.

Lemma nodup_fst_inj (rs : Reservations) x y : NoDup rs.*1 → x ∈ rs → y ∈ rs → x.1 = y.1 → x = y.
Proof using Type.
  intros Hnd Hx Hy E. destruct x as [k v], y as [k' v']. simpl in E. subst k'.
  apply (dict_get_In _ _ _ Hnd) in Hx, Hy. congruence.
Qed.

Lemma sorted_unique rs rs' :
  NoDup rs.*1 → rs ≡ₚ rs' → sorted_reservations rs = sorted_reservations rs'.
Proof using Type.
  intros Hnd Hp. unfold sorted_reservations.
  apply (Sorted_unique_strong by_nonce); [|apply Sorted_merge_sort, _..|].
  - intros x y Hx Hy H1 H2. rewrite sorted_perm in Hx. rewrite sorted_perm, <- Hp in Hy.
    apply (nodup_fst_inj rs); try done. by apply (anti_symm str_le).
  - by rewrite !sorted_perm.
Qed.
Lemma document_perm rs rs' : NoDup rs.*1 → rs ≡ₚ rs' → document lp rs = document lp rs'.
Proof using Type. intros Hnd Hp. unfold document. by rewrite (sorted_unique _ _ Hnd Hp). Qed.

Definition document_items (rs : Reservations) : list (string * json) :=
  ((λ f, (f.1, JStr f.2)) <$> lp_identity lp)
  ++ [("reservations", JArr (reservation_json <$> sorted_reservations rs));
      ("schema_version", JStr (lp_schema lp))].
Lemma document_items_keys rs : (document_items rs).*1 = document_keys lp.
Proof using Type.
  unfold document_items, document_keys. rewrite fmap_app. f_equal.
  by rewrite <- list_fmap_compose.
Qed.

Lemma document_json_ok rs : profile_ok → json_ok (document lp rs) = true.
Proof using Type.
  intros Hp. unfold document. fold (document_items rs). cbn [json_ok].
  rewrite document_items_keys, bool_decide_eq_true_2 by apply Hp. simpl.
  unfold document_items. rewrite forallb_app. apply andb_true_iff. split.
  - apply forallb_forall. intros x Hx. apply list_elem_of_In, list_elem_of_fmap in Hx as (f & -> & _). done.
  - simpl. rewrite andb_true_r. apply forallb_forall. intros x Hx.
    apply list_elem_of_In, list_elem_of_fmap in Hx as (r & -> & _). reflexivity.
Qed.
Lemma document_has_nan rs : has_nan (document lp rs) = false.
Proof using Type.
  unfold document. cbn [has_nan]. rewrite existsb_app. apply orb_false_iff. split.
  - induction (lp_identity lp) as [|f l IH]; [done|]. exact IH.
  - simpl. rewrite orb_false_r. induction (sorted_reservations rs) as [|r l IH]; [done|]. exact IH.
Qed.
Lemma canonical_document rs : canonical_bytes (document lp rs) = Ok (dumps (document lp rs)).
Proof using Type. unfold canonical_bytes, dumps_strict. by rewrite document_has_nan. Qed.

Lemma parse_document rs : profile_ok → parse_ledger lp (dumps (document lp rs)) = Ok (canon (document lp rs)).
Proof using Type.
  intros Hp. unfold parse_ledger.
  rewrite utf8_decode_ascii by (apply print_ascii, json_ok_canon, document_json_ok, Hp).
  by rewrite loads_dumps by auto using closed_object_good, document_json_ok.
Qed.

Lemma canon_reservation r : canon (reservation_json r) = reservation_json r.
Proof using Type. reflexivity. Qed.
Lemma canon_reservations rs : map canon (reservation_json <$> rs) = reservation_json <$> rs.
Proof using Type. induction rs as [|r rs IH]; [done|]. exact (f_equal (cons (reservation_json r)) IH). Qed.

(** ** Reading entries back *)
Definition before (a b : string * string) : Prop := str_ltb a.1 b.1 = true.
Lemma le_ne_lt a b : str_le a b → a ≠ b → str_ltb a b = true.
Proof using Type.
  unfold str_le, str_leb. rewrite negb_true_iff. intros Hle Hne.
  destruct (str_ltb a b) eqn:E; [done|]. by destruct Hne; apply str_ltb_total.
Qed.
Lemma strictly_sorted rs : NoDup rs.*1 → StronglySorted before (sorted_reservations rs).
Proof using Type.
  intros Hnd. rewrite <- (sorted_perm rs) in Hnd. revert Hnd.
  pose proof (StronglySorted_merge_sort by_nonce rs) as Hs. fold (sorted_reservations rs) in Hs. revert Hs.
  induction (sorted_reservations rs) as [|r l IH]; intros Hs Hnd; [constructor|].
  inversion Hs as [|? ? Hs' Hall]; subst. simpl in Hnd. apply NoDup_cons in Hnd as [Hr Hnd].
  constructor; [by apply IH|]. rewrite Forall_forall in Hall |- *. intros x Hx.
  apply le_ne_lt; [by apply Hall|]. intros E. apply Hr. rewrite E.
  by apply (list_elem_of_fmap_2 fst).
Qed.

Definition prior_before (prior : option string) (rs : Reservations) : Prop :=
  ∀ p r, prior = Some p → r ∈ rs → str_ltb p r.1 = true.

Lemma load_entries_print rs : ∀ prior seen,
  Forall (λ r, check_nonce lp r.1 = Ok r.1 ∧ check_digest lp r.2 = Ok r.2) rs →
  StronglySorted before rs → prior_before prior rs → NoDup rs.*2 → (∀ r, r ∈ rs → r.2 ∉ seen) →
  load_entries lp prior seen (reservation_json <$> rs) = Ok rs.
Proof using Type.
  induction rs as [|[n d] rs IH]; intros prior seen Hf Hs Hp Hnd Hseen; [done|].
  apply Forall_cons in Hf as [[Hn Hd] Hf]. inversion Hs as [|? ? Hs' Hall]; subst.
  simpl in Hnd. apply NoDup_cons in Hnd as [Hdn Hnd]. rewrite fmap_cons. cbn [load_entries].
  assert (load_entry lp prior seen (reservation_json (n, d)) = Ok (n, d)) as ->.
  { unfold load_entry, reservation_json. cbn [fst snd] in *.
    change (keys_are _ _) with true. cbn [ensure]. unfold string_field.
    change (dict_get "nonce" _) with (Some (JStr n)).
    change (dict_get "signed_request_sha256" _) with (Some (JStr d)).
    cbn [mbind result_bind]. rewrite Hn. cbn [mbind result_bind]. rewrite Hd. cbn [mbind result_bind].
    assert ((match prior with Some p => str_ltb p n | None => true end) = true) as ->.
    { destruct prior as [p|]; [|done]. apply (Hp p (n, d)); [done|by left]. }
    rewrite bool_decide_eq_false_2; [done|]. apply (Hseen (n, d)). by left. }
  cbn. rewrite IH; [done|done|done| |done|].
  - intros p r [= <-] Hr. rewrite Forall_forall in Hall. by apply (Hall r).
  - intros r Hr. rewrite not_elem_of_cons. split; [|apply Hseen; by right].
    intros E. apply Hdn. rewrite <- E. by apply (list_elem_of_fmap_2 snd).
Qed.

(** ** The document reads back *)
Definition canon_items (rs : Reservations) : list (string * json) :=
  merge_sort key_le (map (λ '(k, x), (k, canon x)) (document_items rs)).
Lemma canon_document rs : canon (document lp rs) = JObj (canon_items rs).
Proof using Type. reflexivity. Qed.
Lemma canon_items_keys rs : (canon_items rs).*1 ≡ₚ document_keys lp.
Proof using Type.
  unfold canon_items. rewrite merge_sort_Permutation, <- document_items_keys with (rs := rs).
  apply reflexive_eq. induction (document_items rs) as [|[k x] l IH]; [done|]. exact (f_equal (cons k) IH).
Qed.
Lemma canon_items_get rs k v :
  profile_ok → (k, v) ∈ document_items rs → dict_get k (canon_items rs) = Some (canon v).
Proof using Type.
  intros Hp Hin. assert (Hnd : NoDup (document_items rs).*1) by (rewrite document_items_keys; apply Hp).
  unfold canon_items. rewrite dict_get_canon by done. by rewrite (dict_get_In _ _ _ Hnd Hin).
Qed.
Lemma keys_are_perm ks kv : kv.*1 ≡ₚ ks → keys_are ks kv = true.
Proof using Type.
  intros Hp. unfold keys_are. apply andb_true_iff. split; apply forallb_forall; intros k Hk;
    apply list_elem_of_In in Hk; apply bool_decide_eq_true; [by rewrite <- Hp|by rewrite Hp].
Qed.

Lemma load_document_print rs :
  profile_ok → reservations_wf rs →
  load_document lp (dumps (document lp rs)) = Ok (sorted_reservations rs).
Proof using Type.
  intros Hp Hwf. pose proof (sorted_wf rs Hwf) as [Hn Hd Hf Hb].
  unfold load_document. rewrite parse_document by done. cbn [mbind result_bind]. rewrite canon_document.
  rewrite (keys_are_perm _ _ (canon_items_keys rs)). cbn [ensure mbind result_bind].
  assert (field_is (canon_items rs) "schema_version" (lp_schema lp) = true) as ->.
  { unfold field_is. rewrite (canon_items_get rs "schema_version" (JStr (lp_schema lp))); [by apply bool_decide_eq_true|done|].
    unfold document_items. set_solver. }
  assert (forallb (λ f, field_is (canon_items rs) f.1 f.2) (lp_identity lp) = true) as ->.
  { apply forallb_forall. intros f Hin%list_elem_of_In. unfold field_is.
    rewrite (canon_items_get rs f.1 (JStr f.2)); [by apply bool_decide_eq_true|done|].
    unfold document_items. apply elem_of_app. left. apply (list_elem_of_fmap_2 (λ f, (f.1, JStr f.2)) _ _ Hin). }
  cbn [ensure mbind result_bind].
  rewrite (canon_items_get rs "reservations" (JArr (reservation_json <$> sorted_reservations rs)));
    [|done|unfold document_items; set_solver].
  cbn [canon]. rewrite canon_reservations, length_fmap.
  replace (Z.of_nat (length (sorted_reservations rs)) <=? MAX_RESERVATIONS)%Z with true
    by (symmetry; by apply Z.leb_le).
  cbn [ensure mbind result_bind].
  rewrite load_entries_print; [|done|apply strictly_sorted, Hwf|done|done|by intros ? ? ?%not_elem_of_nil].
  cbn [mbind result_bind]. rewrite canonical_document. cbn [mbind result_bind].
  rewrite (document_perm (sorted_reservations rs) rs Hn (sorted_perm rs)).
  by rewrite bool_decide_eq_true_2.
Qed.

(** What a file that loads contains. *)
Lemma load_entries_wf entries : ∀ prior seen rs,
  load_entries lp prior seen entries = Ok rs →
  Forall (λ r, check_nonce lp r.1 = Ok r.1 ∧ check_digest lp r.2 = Ok r.2) rs
  ∧ StronglySorted before rs ∧ prior_before prior rs ∧ NoDup rs.*2 ∧ (∀ r, r ∈ rs → r.2 ∉ seen)
  ∧ length rs = length entries.
Proof using Type.
  induction entries as [|entry entries IH]; intros prior seen rs H; simpl in H.
  { injection H as <-. split_and!; [constructor|constructor|by intros ? ? ? ?%not_elem_of_nil|constructor
      |by intros ? ?%not_elem_of_nil|done]. }
  apply result_bind_Ok in H as ([n d] & He & H). apply result_bind_Ok in H as (rest & Hr & [= <-]).
  apply IH in Hr as (Hf & Hs & Hp & Hnd & Hseen & Hlen). cbn [fst snd] in *.
  assert (Hentry : check_nonce lp n = Ok n ∧ check_digest lp d = Ok d
    ∧ (∀ p, prior = Some p → str_ltb p n = true) ∧ d ∉ seen).
  { clear - He. unfold load_entry in He. destruct entry as [| | | | | |kv]; try discriminate He.
    unfold ensure in He. destruct (keys_are _ _); [|discriminate He]. cbn [mbind result_bind] in He.
    apply result_bind_Ok in He as (n' & Hn & He). apply result_bind_Ok in He as (d' & Hd & He).
    destruct (string_field kv "nonce") as [n0|]; [|discriminate Hn].
    destruct (string_field kv "signed_request_sha256") as [d0|]; [|discriminate Hd].
    assert (n0 = n') as -> by (unfold check_nonce in Hn; destruct (_ && _); [by injection Hn|discriminate Hn]).
    assert (d0 = d') as -> by (unfold check_digest in Hd; destruct (is_sha256 _); [by injection Hd|discriminate Hd]).
    destruct prior as [p|]; [destruct (str_ltb p n') eqn:Hlt; [|discriminate He]|];
      (destruct (negb (bool_decide (d' ∈ seen))) eqn:Hin; [|discriminate He]);
      cbn in He; injection He as <- <-; apply negb_true_iff, bool_decide_eq_false in Hin;
      split_and!; try done; intros ? [= <-]; done. }
  destruct Hentry as (Hn & Hd & Hlt & Hin).
  split_and!.
  - by constructor.
  - constructor; [done|]. apply Forall_forall. intros r Hr. by apply (Hp n r).
  - intros p r Hpr [->|Hr]%elem_of_cons; [by apply Hlt|].
    eapply str_ltb_trans; [by apply Hlt|by apply (Hp n r)].
  - simpl. apply NoDup_cons. split; [|done]. intros (r & -> & Hr)%list_elem_of_fmap.
    apply (Hseen r Hr). by left.
  - intros r [->|Hr]%elem_of_cons; [done|]. specialize (Hseen r Hr). set_solver.
  - simpl. by rewrite Hlen.
Qed.

Lemma before_NoDup rs : StronglySorted before rs → NoDup rs.*1.
Proof using Type.
  induction 1 as [|r rs _ IH Hall]; simpl; constructor; [|done].
  intros (x & Hx & Hin)%list_elem_of_fmap. rewrite Forall_forall in Hall. specialize (Hall x Hin).
  unfold before in Hall. rewrite Hx, str_ltb_irrefl in Hall. done.
Qed.

Lemma load_document_wf material rs :
  load_document lp material = Ok rs → reservations_wf rs ∧ material = dumps (document lp rs).
Proof using Type.
  unfold load_document. intros H. apply result_bind_Ok in H as (parsed & _ & H).
  destruct parsed as [| | | | | |kv]; try discriminate H. unfold ensure in H.
  do 3 (match type of H with mbind _ (if ?c then _ else _) = _ => destruct c; [|discriminate H] end;
        cbn [mbind result_bind] in H).
  apply result_bind_Ok in H as (rs' & Hrs & H).
  destruct (dict_get "reservations" kv) as [[| | | | |entries|]|]; try discriminate Hrs.
  destruct (Z.of_nat (length entries) <=? MAX_RESERVATIONS)%Z eqn:Hlen; [|discriminate Hrs].
  cbn [mbind result_bind] in Hrs. apply load_entries_wf in Hrs as (Hf & Hs & _ & Hd & _ & Hl).
  rewrite canonical_document in H. cbn [mbind result_bind] in H.
  case_bool_decide as Hm; [|discriminate H]. injection H as <-.
  split; [|done]. split; [by apply before_NoDup|done|done|]. apply Z.leb_le in Hlen. lia.
Qed.

(** C33 A ledger's document reads back: whatever well-formed reservations are
    held, printing and loading gives the same reservations in nonce order; and a
    document that loads is exactly the canonical print of well-formed
    reservations, so the two are inverse. *)
Theorem ledger_round_trip rs material :
  profile_ok →
  (reservations_wf rs → ∃ bytes, canonical_bytes (document lp rs) = Ok bytes
     ∧ load_document lp bytes = Ok (sorted_reservations rs) ∧ sorted_reservations rs ≡ₚ rs)
  ∧ (load_document lp material = Ok rs →
     reservations_wf rs ∧ canonical_bytes (document lp rs) = Ok material).
Proof using Type.
  intros Hp. split.
  - intros Hwf. eexists. split; [apply canonical_document|]. split; [by apply load_document_print|apply sorted_perm].
  - intros [Hwf ->]%load_document_wf. split; [done|apply canonical_document].
Qed.

(** ** What [reserve] does to the file *)
Abbreviation State := (LedgerObject * Disk)%type.
Definition same_file (s s' : State) : Prop := dk_entry s'.2 = dk_entry s.2.
#[local] Instance same_file_preorder : PreOrder same_file.
Proof using Type. split; [done|]. intros x y z H1 H2. by etrans. Qed.
Lemma same_on_disk {A} (m : M Disk A) :
  (∀ d, dk_entry (m d).2 = dk_entry d) → preserves same_file (on_disk m).
Proof using Type. intros Hm s. unfold same_file, on_disk, zoom. specialize (Hm s.2). by destruct (m s.2). Qed.
Lemma same_assert_writer pid : preserves same_file (assert_writer lp pid).
Proof using Type. intros s. done. Qed.
Lemma same_check_parent : preserves same_file (on_disk (check_parent lp)).
Proof using Type. by apply same_on_disk. Qed.
Lemma same_read_entry : preserves same_file (on_disk (read_entry lp)).
Proof using Type. by apply same_on_disk. Qed.
Lemma same_set_reservations rs : preserves same_file (set_reservations rs).
Proof using Type. by intros s. Qed.
#[local] Hint Resolve same_assert_writer same_check_parent same_read_entry same_set_reservations : frames.
Lemma same_load pid : preserves same_file (ledger_load lp pid).
Proof using Type. unfold ledger_load, ledger_read. frame. Qed.
#[local] Hint Resolve same_load : frames.

(** What loading found. *)
Lemma ledger_load_Ok pid s rs s' :
  ledger_load lp pid s = (Ok rs, s') →
  ∃ mode bytes, dk_entry s.2 = EntryFile mode bytes ∧ load_document lp bytes = Ok rs
    ∧ dk_entry s'.2 = dk_entry s.2.
Proof using Type.
  intros H. pose proof (preserves_run _ _ _ _ _ (same_load pid) H) as Hsame. unfold ledger_load in H.
  apply M_bind_Ok in H as (material & s1 & Hr & [Hl ->]%lift_Ok). unfold ledger_read in Hr.
  apply M_bind_Ok in Hr as ([] & s2 & Ha & Hr). pose proof (preserves_run _ _ _ _ _ (same_assert_writer pid) Ha) as Hs1.
  apply M_bind_Ok in Hr as ([] & s3 & Hp & Hr). pose proof (preserves_run _ _ _ _ _ same_check_parent Hp) as Hs2.
  apply zoom_run in Hr as (d & Hr & ->). unfold read_entry in Hr.
  assert (Hsame2 : dk_entry s3.2 = dk_entry s.2) by (by etrans). rewrite Hsame2 in Hr.
  destruct (dk_entry s.2) as [| | |mode bytes] eqn:He; try discriminate Hr. exists mode, bytes.
  unfold ensure in Hr. destruct (mode =? mode_0600)%Z; [|discriminate Hr].
  destruct (str_len bytes <=? MAX_LEDGER_BYTES)%Z; [|discriminate Hr]. cbn in Hr.
  destruct (read_fails (dk_step s3.2)); [discriminate Hr|]. injection Hr as <- _.
  split_and!; [done|done|]. unfold same_file in Hsame. by rewrite Hsame.
Qed.

(** Persisting replaces the file by the document, or leaves it. *)
Lemma ledger_persist_run pid s r s' :
  ledger_persist lp pid s = (r, s') →
  (dk_entry s'.2 = dk_entry s.2 ∧ r ≠ Ok tt)
  ∨ (Z.of_nat (length (lo_reservations s.1)) <= MAX_RESERVATIONS)%Z
    ∧ dk_entry s'.2 = EntryFile mode_0600 (dumps (document lp (lo_reservations s.1))).
Proof using Type.
  unfold ledger_persist. intros H.
  apply M_bind_case in H as [(e & -> & H)|([] & s1 & H1 & H)].
  { left. by apply (preserves_run _ _ _ _ _ (same_assert_writer pid)) in H. }
  unfold assert_writer in H1. injection H1 as _ <-.
  apply M_bind_case in H as [(e & -> & H)|([] & s2 & H2 & H)].
  { left. by apply (preserves_run _ _ _ _ _ same_check_parent) in H. }
  apply zoom_run in H2 as (d & H2 & ->). unfold check_parent in H2. injection H2 as _ <-.
  apply M_bind_case in H as [(e & -> & H)|(s0 & s3 & [= <- <-] & H)]; [by left; injection H as _ <-|].
  cbn [fst snd] in H.
  apply M_bind_case in H as [(e & -> & H)|([] & s4 & [H4 ->]%lift_Ok & H)]; [by left; injection H as _ <-|].
  apply M_bind_case in H as [(e & -> & H)|(material & s5 & [H5 ->]%lift_Ok & H)]; [by left; injection H as _ <-|].
  apply M_bind_case in H as [(e & -> & H)|([] & s6 & [H6 ->]%lift_Ok & H)]; [by left; injection H as _ <-|].
  rewrite canonical_document in H5. injection H5 as <-. unfold ensure in H4.
  destruct (Z.of_nat (length (lo_reservations s.1)) <=? MAX_RESERVATIONS)%Z eqn:Hlen; [|discriminate H4].
  apply Z.leb_le in Hlen. apply zoom_run in H as (d & H & ->). unfold replace_file in H. cbn [snd] in *.
  destruct (write_outcome _); injection H as <- <-; [right|left|right|left]; split; try done.
Qed.

Definition reserve_kept (s s' : State) (r : result bool) : Prop :=
  dk_entry s'.2 = dk_entry s.2 ∧ r ≠ Ok true.
(** The new document holds the pair and all that was there before. *)
Definition reserve_added (n d : string) (s s' : State) : Prop :=
  ∃ mode bytes rs, dk_entry s.2 = EntryFile mode bytes ∧ load_document lp bytes = Ok rs
    ∧ reservations_wf (rs ++ [(n, d)])
    ∧ dk_entry s'.2 = EntryFile mode_0600 (dumps (document lp (rs ++ [(n, d)]))).

Lemma reservations_wf_snoc rs n d :
  reservations_wf rs → check_nonce lp n = Ok n → check_digest lp d = Ok d →
  dict_get n rs = None → d ∉ rs.*2 → (Z.of_nat (S (length rs)) <= MAX_RESERVATIONS)%Z →
  reservations_wf (rs ++ [(n, d)]).
Proof using Type.
  intros [H1 H2 H3 _] Hn Hd Hfresh Hdf Hlen. apply dict_get_None in Hfresh. split.
  - rewrite fmap_app. apply NoDup_app. split_and!; [done| |apply NoDup_singleton].
    intros x Hx Hx'. simpl in Hx'. apply list_elem_of_singleton in Hx' as ->. done.
  - rewrite fmap_app. apply NoDup_app. split_and!; [done| |apply NoDup_singleton].
    intros x Hx Hx'. simpl in Hx'. apply list_elem_of_singleton in Hx' as ->. done.
  - apply Forall_app. split; [done|]. by constructor.
  - rewrite length_app. simpl. lia.
Qed.

Lemma checks_same n d n' d' :
  check_nonce lp n = Ok n' → check_digest lp d = Ok d' →
  n' = n ∧ d' = d ∧ check_nonce lp n = Ok n ∧ check_digest lp d = Ok d.
Proof using Type.
  unfold check_nonce, check_digest. destruct (_ && _); [|discriminate]. destruct (is_sha256 d); [|discriminate].
  by intros [= <-] [= <-].
Qed.

Lemma ledger_reserve_run pid n d s r s' :
  ledger_reserve lp pid n d s = (r, s') → reserve_kept s s' r ∨ reserve_added n d s s'.
Proof using Type.
  unfold ledger_reserve. intros H.
  apply M_bind_case in H as [(e & -> & H)|(n' & s1 & [Hn ->]%lift_Ok & H)]; [by left; injection H as _ <-|].
  apply M_bind_case in H as [(e & -> & H)|(d' & s1 & [Hd ->]%lift_Ok & H)]; [by left; injection H as _ <-|].
  destruct (checks_same _ _ _ _ Hn Hd) as (-> & -> & Hn' & Hd').
  apply M_bind_case in H as [(e & -> & H)|(rs & s1 & Hl & H)].
  { left. by apply (preserves_run _ _ _ _ _ (same_load pid)) in H. }
  apply ledger_load_Ok in Hl as (mode & bytes & He & Hdoc & Hsame).
  apply M_bind_case in H as [(e & -> & H)|([] & s2 & [= <-] & H)]; [by injection H|].
  destruct (load_document_wf _ _ Hdoc) as [Hwf _].
  case_bool_decide as Hget; [by left; injection H as <- <-|].
  case_bool_decide as Hdig; [by left; injection H as <- <-|].
  assert (Hfresh : dict_get n rs = None) by (by destruct (dict_get n rs); [destruct Hget|]).
  rewrite dict_set_fresh in H by by apply dict_get_None.
  apply M_bind_case in H as [(e & -> & H)|([] & s2 & [= <-] & H)]; [by injection H|].
  apply M_bind_case in H as [(e & -> & H)|(out & s3 & Hp & H)].
  - unfold attempt in H. destruct (ledger_persist lp pid _) as [[[]|e'] s2] eqn:Hp; [done|].
    destruct (isinstance_exn e' "Exception"); [done|]. injection H as -> ->.
    apply ledger_persist_run in Hp as [[Hp _]|[Hlen Hp]]; cbn [fst snd lo_reservations] in *.
    + left. split; [by rewrite Hp|done].
    + right. exists mode, bytes, rs. split_and!; try done. rewrite length_app in Hlen. simpl in Hlen.
      apply reservations_wf_snoc; try done. lia.
  - apply attempt_Ok in Hp as [Hp _].
    assert (Hr : s'.2 = s3.2 ∧ (r = Ok true → out = Ok tt)).
    { destruct out as [[]|e]; [by injection H as <- <-|].
      apply M_bind_case in H as [(e0 & -> & H)|([] & s4 & [= <-] & H)]; [by injection H|].
      by injection H as <- <-. }
    destruct Hr as [Hs3 Hr].
    apply ledger_persist_run in Hp as [[Hp Hne]|[Hlen Hp]]; cbn [fst snd lo_reservations] in *.
    + left. split; [by rewrite Hs3, Hp|]. intros ->. by apply Hne, Hr.
    + right. exists mode, bytes, rs. split_and!; try done; [|by rewrite Hs3].
      rewrite length_app in Hlen. simpl in Hlen. apply reservations_wf_snoc; try done. lia.
Qed.

(** ** Runs, with restarts

    A restart is the death of the process at any point, which releases the lock,
    and a new ledger opened on what the disk then holds.  A reservation whose
    result was never delivered is a [reserve] step with its result ignored. *)
Inductive ledger_event :=
  | EvReserve (nonce digest : string) (res : result bool)
  | EvContains
  | EvStatus
  | EvClose
  | EvRestart (res : result unit).

Inductive ledger_step : State → ledger_event → State → Prop :=
  | step_reserve pid n d s r s' :
      ledger_reserve lp pid n d s = (r, s') → ledger_step s (EvReserve n d r) s'
  | step_contains pid n s r s' : ledger_contains lp pid n s = (r, s') → ledger_step s EvContains s'
  | step_status pid s r s' : ledger_status lp pid s = (r, s') → ledger_step s EvStatus s'
  | step_close s r s' : ledger_close s = (r, s') → ledger_step s EvClose s'
  | step_restart pid s r s' :
      ledger_open lp pid false (mk_LedgerObject None [], set_lock (dk_sidecar s.2) false s.2) = (r, s') →
      ledger_step s (EvRestart r) s'.

Inductive ledger_run : State → list ledger_event → State → Prop :=
  | ledger_run_nil s : ledger_run s [] s
  | ledger_run_cons s e s1 es s' : ledger_step s e s1 → ledger_run s1 es s' → ledger_run s (e :: es) s'.

Definition accepted (es : list ledger_event) : list (string * string) :=
  omap (λ e, match e with EvReserve n d (Ok true) => Some (n, d) | _ => None end) es.

(** The file holds the reservation. *)
Definition file_holds (s : State) (r : string * string) : Prop :=
  ∃ mode bytes rs, dk_entry s.2 = EntryFile mode bytes ∧ load_document lp bytes = Ok rs ∧ r ∈ rs.

Lemma file_holds_same s s' r : dk_entry s'.2 = dk_entry s.2 → file_holds s' r ↔ file_holds s r.
Proof using Type. intros H. unfold file_holds. by rewrite H. Qed.

Lemma acquire_same d : dk_entry (acquire_lock lp d).2 = dk_entry d.
Proof using Type. unfold acquire_lock. by repeat case_match. Qed.
Lemma same_close : preserves same_file ledger_close.
Proof using Type. intros s. unfold ledger_close, same_file. by case_match. Qed.

Lemma same_open pid : preserves same_file (ledger_open lp pid false).
Proof using Type.
  intros s. unfold ledger_open, check_parent.
  match goal with |- context [match ?c with Ok _ => _ | Raise _ => _ end] => destruct c as [[]|e] end; [|done].
  pose proof (acquire_same s.2) as Ha. destruct (acquire_lock lp s.2) as [[[]|e] d]; [|exact Ha].
  assert (Hl : preserves same_file (ledger_open_locked lp pid false)).
  { unfold ledger_open_locked. frame. }
  specialize (Hl (mk_LedgerObject (Some pid) [], d)). simpl in Ha.
  destruct (ledger_open_locked lp pid false _) as [[[]|e] s'].
  - unfold same_file in *. simpl in *. congruence.
  - pose proof (same_close s') as Hc. unfold same_file in *. simpl in *. congruence.
Qed.

Lemma open_reads pid s s' :
  ledger_open lp pid false s = (Ok tt, s') →
  ∃ mode bytes, dk_entry s.2 = EntryFile mode bytes ∧ load_document lp bytes = Ok (lo_reservations s'.1).
Proof using Type.
  intros H. pose proof (preserves_run same_file _ _ _ _ (same_open pid) H) as Hs. unfold same_file in Hs.
  revert H. unfold ledger_open. destruct (check_parent lp s.2) as [[[]|e] d]; [|done].
  destruct (acquire_lock lp d) as [[[]|e] d']; [|done].
  destruct (ledger_open_locked lp pid false _) as [[[]|e] s1] eqn:Ho; [|done]. intros [= ->].
  unfold ledger_open_locked in Ho. apply M_bind_Ok in Ho as ([] & t0 & [= <-] & Ho).
  apply M_bind_Ok in Ho as (rs & t & Hl & [= <-]). apply ledger_load_Ok in Hl as (mode & bytes & He & Hb & Ht). exists mode, bytes.
  split; [|exact Hb]. rewrite <- Hs. simpl. by rewrite Ht.
Qed.

Context (Hp : profile_ok).

(** A step that reserves adds its pair to what the file holds. *)
Lemma added_holds n d s s' r :
  reserve_added n d s s' → file_holds s' r ↔ r = (n, d) ∨ file_holds s r.
Proof using Hp.
  intros (mode & bytes & rs & He & Hl & Hwf & He').
  assert (Hl' : load_document lp (dumps (document lp (rs ++ [(n, d)]))) = Ok (sorted_reservations (rs ++ [(n, d)])))
    by by apply load_document_print.
  unfold file_holds. rewrite He, He'. split.
  - intros (m' & b' & rs' & [= <- <-] & Hrs & Hin). rewrite Hl' in Hrs. injection Hrs as <-.
    rewrite sorted_perm, elem_of_app, list_elem_of_singleton in Hin. destruct Hin as [Hin|Hin]; [right|by left].
    exists mode, bytes, rs. done.
  - intros H. eexists _, _, _. split; [done|]. split; [exact Hl'|].
    rewrite sorted_perm, elem_of_app, list_elem_of_singleton. destruct H as [H|(m' & b' & rs' & [= <- <-] & Hrs & Hin)]; [by right|].
    rewrite Hl in Hrs. injection Hrs as <-. by left.
Qed.
Lemma added_fresh n d s s' x :
  reserve_added n d s s' → file_holds s x → x.1 ≠ n ∧ x.2 ≠ d.
Proof using Type.
  intros (mode & bytes & rs & He & Hl & [H1 H2 _ _] & _) (m' & b' & rs' & He' & Hl' & Hin).
  rewrite He in He'. injection He' as <- <-. rewrite Hl in Hl'. injection Hl' as <-.
  rewrite fmap_app in H1, H2. apply NoDup_app in H1 as (_ & H1 & _), H2 as (_ & H2 & _).
  split; intros E.
  - apply (H1 n); [|by left]. rewrite <- E. by apply (list_elem_of_fmap_2 fst).
  - apply (H2 d); [|by left]. rewrite <- E. by apply (list_elem_of_fmap_2 snd).
Qed.

Lemma ledger_step_holds s e s' :
  ledger_step s e s' →
  (∀ x, file_holds s x → file_holds s' x)
  ∧ ∀ n d, e = EvReserve n d (Ok true) → reserve_added n d s s'.
Proof using Hp.
  intros H. assert (Hsame : dk_entry s'.2 = dk_entry s.2 → ∀ x, file_holds s x → file_holds s' x)
    by (intros E x Hx; by apply (file_holds_same s)).
  destruct H as [pid n d s r s' H|pid n s r s' H|pid s r s' H|s r s' H|pid s r s' H].
  - apply ledger_reserve_run in H as [[He Hr]|Hadd].
    + split; [by apply Hsame|]. by intros n' d' [= _ _ ->].
    + split; [|by intros n' d' [= <- <- _]]. intros x Hx. apply (added_holds _ _ _ _ x Hadd). by right.
  - split; [|done]. apply Hsame. apply (preserves_run same_file (ledger_contains lp pid n) s r s'); [|done].
    unfold ledger_contains. frame.
  - split; [|done]. apply Hsame. apply (preserves_run same_file (ledger_status lp pid) s r s'); [|done].
    unfold ledger_status. frame.
  - split; [|done]. apply Hsame. by apply (preserves_run same_file ledger_close s r s' same_close).
  - split; [|done]. apply Hsame. by apply (preserves_run same_file _ _ _ _ (same_open pid)) in H.
Qed.

Lemma ledger_run_holds s es s' :
  ledger_run s es s' →
  (∀ x, file_holds s x → file_holds s' x) ∧ (∀ x, x ∈ accepted es → file_holds s' x)
  ∧ NoDup (accepted es).*1 ∧ NoDup (accepted es).*2
  ∧ ∀ x y, x ∈ accepted es → file_holds s y → x.1 ≠ y.1 ∧ x.2 ≠ y.2.
Proof using Hp.
  induction 1 as [s|s e s1 es s' Hs Hr (Hkeep & Hacc & Hn & Hd & Hfresh)].
  { split_and!; [done|by intros ? ?%not_elem_of_nil|constructor|constructor|by intros ? ? ?%not_elem_of_nil]. }
  apply ledger_step_holds in Hs as [Hk Hadd].
  assert (Hcase : accepted (e :: es) = accepted es
    ∨ ∃ n d, e = EvReserve n d (Ok true) ∧ accepted (e :: es) = (n, d) :: accepted es).
  { unfold accepted. simpl. destruct e as [n d [[|]|]| | | |]; eauto. }
  destruct Hcase as [->|(n & d & -> & ->)].
  { split_and!; try done; [by intros x Hx; apply Hkeep, Hk|]. intros x y Hx Hy. apply Hfresh; [done|]. by apply Hk. }
  specialize (Hadd n d eq_refl).
  assert (Hnew : file_holds s1 (n, d)) by (apply (added_holds _ _ _ _ (n, d) Hadd); by left).
  split_and!.
  - intros x Hx. by apply Hkeep, Hk.
  - intros x [->|Hx]%elem_of_cons; [by apply Hkeep|by apply Hacc].
  - simpl. apply NoDup_cons. split; [|done]. intros (x & Hx & Hin)%list_elem_of_fmap.
    by destruct (Hfresh x (n, d) Hin Hnew) as [[] _].
  - simpl. apply NoDup_cons. split; [|done]. intros (x & Hx & Hin)%list_elem_of_fmap.
    by destruct (Hfresh x (n, d) Hin Hnew) as [_ []].
  - intros x y [->|Hx]%elem_of_cons Hy; [|apply Hfresh; [done|by apply Hk]].
    destruct (added_fresh _ _ _ _ _ Hadd Hy) as [H1 H2]. split; intros E; [by apply H1|by apply H2].
Qed.

(** C32 Over every run of a ledger, across restarts at any point and whichever
    file operations fail, no nonce and no request digest is accepted twice, and
    everything that was accepted is still in the file at the end. *)
Theorem accepted_at_most_once s es s' :
  ledger_run s es s' →
  NoDup (accepted es).*1 ∧ NoDup (accepted es).*2 ∧ ∀ x, x ∈ accepted es → file_holds s' x.
Proof using Hp. intros (_ & ? & ? & ? & _)%ledger_run_holds. done. Qed.

(** ** What [reserve] answers *)
(** The writer lock is this process's, the directory and the file are as the
    ledger made them, and the file loads. *)
Record ready (pid : Z) (s : State) (rs : Reservations) : Prop := {
  rd_writer : lo_writer s.1 = Some pid;
  rd_parent : ∃ mode, dk_parent s.2 = ParentDirectory mode ∧ private_directory mode = true;
  rd_file : ∃ bytes, dk_entry s.2 = EntryFile mode_0600 bytes ∧ load_document lp bytes = Ok rs
    ∧ (str_len bytes <= MAX_LEDGER_BYTES)%Z;
}.

Lemma load_ready pid s rs :
  ready pid s rs → read_fails (dk_step s.2) = false →
  ledger_load lp pid s = (Ok rs, (s.1, next_step s.2)).
Proof using Type.
  intros [Hw (mode & Hpar & Hmode) (bytes & He & Hl & Hlen)] Hr.
  unfold ledger_load, ledger_read, mbind, M_bind. unfold assert_writer. rewrite Hw, Z.eqb_refl.
  unfold on_disk, zoom. unfold check_parent. rewrite Hpar. unfold ensure. rewrite Hmode. cbn [fst snd].
  unfold read_entry. cbn [dk_entry dk_step snd]. rewrite He. unfold ensure.
  replace (mode_0600 =? mode_0600)%Z with true by reflexivity.
  replace (str_len bytes <=? MAX_LEDGER_BYTES)%Z with true by (symmetry; by apply Z.leb_le).
  cbn [mbind result_bind]. rewrite Hr. cbn [fst snd]. unfold lift. by rewrite Hl.
Qed.

(** On a readable ledger whose write goes through, [reserve] answers True
    exactly when neither the nonce nor the request digest is held, and then the
    file holds exactly the old reservations and the new one; otherwise the file
    is unchanged.  Beyond the two capacity bounds it raises and changes nothing. *)
Theorem reserve_contract pid n d s rs :
  ready pid s rs → read_fails (dk_step s.2) = false → write_outcome (S (dk_step s.2)) = Written →
  check_nonce lp n = Ok n → check_digest lp d = Ok d →
  let free := negb (bool_decide (n ∈ rs.*1)) && negb (bool_decide (d ∈ rs.*2)) in
  let fits := (Z.of_nat (length rs) <? MAX_RESERVATIONS)%Z
              && (str_len (dumps (document lp (rs ++ [(n, d)]))) <=? MAX_LEDGER_BYTES)%Z in
  ∃ r s', ledger_reserve lp pid n d s = (r, s')
    ∧ (free = false → r = Ok false ∧ dk_entry s'.2 = dk_entry s.2)
    ∧ (free = true → fits = true → r = Ok true ∧ ready pid s' (sorted_reservations (rs ++ [(n, d)])))
    ∧ (free = true → fits = false → r = Raise (mk_exn (lp_error lp) (lp_label lp +:+ " ledger is at capacity"))
         ∧ dk_entry s'.2 = dk_entry s.2 ∧ lo_reservations s'.1 = rs).
Proof using Hp.
  intros Hready Hr Hw Hn Hd. cbv zeta.
  pose proof (load_ready _ _ _ Hready Hr) as Hload.
  destruct Hready as [Hwr (mode & Hpar & Hmode) (bytes & He & Hl & Hlen)].
  destruct (load_document_wf _ _ Hl) as [Hwf _].
  unfold ledger_reserve. unfold mbind at 1 2 3 4, M_bind at 1 2 3 4, lift. rewrite Hn, Hd, Hload.
  cbn [set_reservations modify fst snd].
  assert (Hget : is_Some (dict_get n rs) ↔ n ∈ rs.*1).
  { destruct (dict_get n rs) eqn:E.
    - split; [intros _|done]. apply dict_get_Some in E. by apply (list_elem_of_fmap_2 fst) in E.
    - split; [by intros [? ?]|]. intros Hin. by apply dict_get_None in E. }
  destruct (decide (n ∈ rs.*1)) as [Hin|Hni].
  { rewrite (bool_decide_eq_true_2 (is_Some _)) by by apply Hget. rewrite (bool_decide_eq_true_2 (n ∈ _)) by done.
    eexists _, _. split; [reflexivity|]. by split_and!. }
  rewrite (bool_decide_eq_false_2 (is_Some _)) by by rewrite Hget. rewrite (bool_decide_eq_false_2 (n ∈ _)) by done.
  destruct (decide (d ∈ rs.*2)) as [Hin|Hnd].
  { rewrite (bool_decide_eq_true_2 (d ∈ _)) by done. eexists _, _. split; [reflexivity|]. by split_and!. }
  rewrite (bool_decide_eq_false_2 (d ∈ _)) by done. rewrite dict_set_fresh by done. cbn [negb andb].
  unfold mbind at 1 2, M_bind at 1 2, attempt. cbn [set_reservations modify fst snd lo_writer].
  unfold ledger_persist. unfold mbind, M_bind, assert_writer, on_disk, zoom, check_parent, get, lift.
  cbn [fst snd lo_writer lo_reservations dk_parent next_step]. rewrite Hwr, Z.eqb_refl, Hpar.
  unfold ensure. rewrite Hmode, length_app. cbn [length fst snd lo_reservations]. rewrite canonical_document.
  replace (Z.of_nat (length rs + 1) <=? MAX_RESERVATIONS)%Z with (Z.of_nat (length rs) <? MAX_RESERVATIONS)%Z
    by (destruct (Z.ltb_spec (Z.of_nat (length rs)) MAX_RESERVATIONS), (Z.leb_spec (Z.of_nat (length rs + 1)) MAX_RESERVATIONS); lia).
  destruct (Z.of_nat (length rs) <? MAX_RESERVATIONS)%Z eqn:Hcap; cbn [andb]; cycle 1.
  { unfold labelled, ledger_error, raise_. rewrite ledger_error_exception by done. eexists _, _. split; [reflexivity|]. by split_and!. }
  destruct (str_len _ <=? MAX_LEDGER_BYTES)%Z eqn:Hsize; cycle 1.
  { unfold labelled, ledger_error, raise_. rewrite ledger_error_exception by done. eexists _, _. split; [reflexivity|]. by split_and!. }
  unfold replace_file. cbn [dk_step next_step snd]. rewrite Hw.
  eexists _, _. split; [reflexivity|]. split_and!; [done| |done]. intros _ _. split; [done|].
  split; [done|by exists mode|]. eexists. split; [reflexivity|]. apply Z.leb_le in Hsize. split; [|done].
  apply Z.ltb_lt in Hcap. apply load_document_print; [done|].
  apply reservations_wf_snoc; try done; [by apply dict_get_None|lia].
Qed.

(** ** One writer at a time *)
(** Opening never succeeds while another writer holds the lock, and then
    leaves the ledger and the lock alone; a successful open holds the lock for
    this process, and a failed one releases whatever it took. *)
Theorem one_writer pid initialize o disk r s' :
  lo_writer o = None → ledger_open lp pid initialize (o, disk) = (r, s') →
  (dk_locked disk = true → is_Ok r = false ∧ dk_entry s'.2 = dk_entry disk ∧ dk_locked s'.2 = true)
  ∧ (r = Ok tt → dk_locked s'.2 = true ∧ lo_writer s'.1 = Some pid)
  ∧ (dk_locked disk = false → is_Ok r = false → dk_locked s'.2 = false ∧ lo_writer s'.1 = None).
Proof using Type.
  intros Ho. unfold ledger_open, check_parent. cbn [fst snd].
  match goal with |- context [match ?c with Ok _ => _ | Raise _ => _ end] => destruct c as [[]|e] end; cycle 1.
  { intros [= <- <-]. split_and!; [done|done|]. by intros. }
  assert (Hacq : match acquire_lock lp disk with
    | (Ok _, d) => dk_locked disk = false ∧ dk_locked d = true
    | (Raise _, d) => dk_locked d = dk_locked disk ∧ dk_entry d = dk_entry disk end).
  { unfold acquire_lock. destruct (dk_sidecar disk); try done.
    - by destruct (dk_locked disk) eqn:E.
    - destruct (negb _); [done|]. by destruct (dk_locked disk) eqn:E. }
  destruct (acquire_lock lp disk) as [[[]|e] d]; cycle 1.
  { destruct Hacq as [Hk He]. intros [= <- <-]. cbn [snd fst]. split_and!; [|done|].
    - intros Hl. split_and!; [done|done|by rewrite Hk].
    - intros Hl _. by rewrite Hk. }
  destruct Hacq as [Hf Ht].
  set (R := λ a b : State, dk_locked b.2 = dk_locked a.2 ∧ lo_writer b.1 = lo_writer a.1).
  assert (PreOrder R) as HR by (split; [by split|intros x y z [? ?] [? ?]; split; congruence]).
  assert (Hdisk : ∀ A (m : M Disk A), (∀ x, dk_locked (m x).2 = dk_locked x) → preserves R (on_disk m)).
  { intros A m Hm [x y]. unfold on_disk, zoom. simpl. specialize (Hm y). by destruct (m y). }
  assert (H1 : preserves R (on_disk (check_parent lp))) by (apply Hdisk; by intros).
  assert (H2 : preserves R (on_disk (read_entry lp))) by (apply Hdisk; by intros).
  assert (H3 : ∀ b, preserves R (on_disk (replace_file lp b)))
    by (intros b; apply Hdisk; intros x; unfold replace_file; by case_match).
  assert (H4 : preserves R (assert_writer lp pid)) by by intros x.
  assert (H5 : ∀ rs, preserves R (set_reservations rs)) by by intros rs x.
  assert (Hp' : preserves R (ledger_persist lp pid)) by (unfold ledger_persist; frame).
  assert (Hlo : preserves R (ledger_open_locked lp pid initialize)).
  { unfold ledger_open_locked, ledger_load, ledger_read. frame. }
  specialize (Hlo (mk_LedgerObject (Some pid) [], d)).
  destruct (ledger_open_locked lp pid initialize _) as [[[]|e] s1]; destruct Hlo as [Hk Hw]; cbn in Hk, Hw;
    intros [= <- <-].
  - split_and!; [congruence|intros _; split; congruence|done].
  - unfold ledger_close. rewrite Hw. cbn. split_and!; [congruence|done|done].
Qed.
End contents.

(** ** The two ledgers *)
(** [value == value.strip()] *)
Definition is_stripped (s : string) : bool :=
  negb (starts_with_p is_space s)
  && match String.get (String.length s - 1) s with Some c => negb (is_space c) | None => true end.

Definition bounded_identity (err label name : string) (strip : bool) (v : string) : result string :=
  if (1 <=? str_len v)%Z && (str_len v <=? 256)%Z && (negb strip || is_stripped v)
  then Ok v else raise_ err (label +:+ " " +:+ name +:+ " is invalid").

Definition transport_profile (audience gateway_key_id gateway_public_key_sha256 : string) : LedgerProfile :=
  mk_LedgerProfile "TransportReplayLedgerError" "transport replay" "transport nonce length is invalid"
    "replay writer lock" true "m4f-transport-replay-ledger-v1"
    [("audience", audience); ("gateway_key_id", gateway_key_id);
     ("gateway_public_key_sha256", gateway_public_key_sha256)].
Definition workload_profile (audience trust_domain workload_subject authority_key_id : string) : LedgerProfile :=
  mk_LedgerProfile "WorkloadReplayLedgerError" "workload replay" "workload replay nonce length is invalid"
    "workload replay writer lock" false "m4g-workload-replay-ledger-v1"
    [("audience", audience); ("authority_key_id", authority_key_id); ("trust_domain", trust_domain);
     ("workload_subject", workload_subject)].

Definition DurableTransportReplayLedger_init `{FsEnv} (pid : Z) (audience gateway_key_id digest : string)
    (initialize : bool) : M (LedgerObject * Disk) LedgerProfile :=
  a ← lift (bounded_identity "TransportReplayLedgerError" "transport replay" "audience" false audience);
  k ← lift (bounded_identity "TransportReplayLedgerError" "transport replay" "gateway key ID" false gateway_key_id);
  d ← lift (check_digest (transport_profile a k digest) digest);
  _ ← ledger_open (transport_profile a k d) pid initialize;
  mret (transport_profile a k d).

Definition DurableWorkloadReplayLedger_init `{FsEnv} (pid : Z)
    (audience trust_domain workload_subject authority_key_id : string) (initialize : bool) :
    M (LedgerObject * Disk) LedgerProfile :=
  let check := bounded_identity "WorkloadReplayLedgerError" "workload replay" in
  a ← lift (check "audience" true audience);
  t ← lift (check "trust domain" true trust_domain);
  w ← lift (check "workload subject" true workload_subject);
  k ← lift (check "authority key ID" true authority_key_id);
  _ ← ledger_open (workload_profile a t w k) pid initialize;
  mret (workload_profile a t w k).

Lemma transport_profile_ok a k d : profile_ok (transport_profile a k d).
Proof. split; [|vm_compute; set_solver]. unfold document_keys. simpl. by apply (bool_decide_unpack _). Qed.
Lemma workload_profile_ok a t w k : profile_ok (workload_profile a t w k).
Proof. split; [|vm_compute; set_solver]. unfold document_keys. simpl. by apply (bool_decide_unpack _). Qed.

(** ** The workload ledger's operations *)
Section workload.
Context {FS : FsEnv}.
Variables (audience trust_domain workload_subject authority_key_id : string).
Let lp := workload_profile audience trust_domain workload_subject authority_key_id.

Definition workload_check_parent : M Disk unit := check_parent lp.
Definition workload_read : Z → M (LedgerObject * Disk) string := ledger_read lp.
Definition workload_document : Reservations → json := document lp.
Definition workload_load : Z → M (LedgerObject * Disk) Reservations := ledger_load lp.
Definition workload_persist : Z → M (LedgerObject * Disk) unit := ledger_persist lp.
Definition workload_contains : Z → string → M (LedgerObject * Disk) bool := ledger_contains lp.
Definition workload_reserve : Z → string → string → M (LedgerObject * Disk) bool := ledger_reserve lp.
Definition workload_status : Z → M (LedgerObject * Disk) (Z * string) := ledger_status lp.
End workload.

Lemma workload_document_inj a t w k rs a' t' w' k' rs' :
  dumps (document (workload_profile a t w k) rs) = dumps (document (workload_profile a' t' w' k') rs') →
  a' = a ∧ t' = t ∧ w' = w ∧ k' = k.
Proof.
  intros E. apply dumps_inj in E; [|apply document_json_ok, workload_profile_ok..].
  assert (F : ∀ key, dict_get key (document_items (workload_profile a t w k) rs) ≫= (λ j, Some (canon j))
    = dict_get key (document_items (workload_profile a' t' w' k') rs') ≫= (λ j, Some (canon j))).
  { intros key. change (canon <$> dict_get key (document_items (workload_profile a t w k) rs)
      = canon <$> dict_get key (document_items (workload_profile a' t' w' k') rs')).
    rewrite <- !dict_get_canon by (rewrite document_items_keys; apply workload_profile_ok).
    exact (f_equal (λ j, dict_get key (match j with JObj kv => kv | _ => [] end)) E). }
  pose proof (F "audience") as F1. pose proof (F "trust_domain") as F2.
  pose proof (F "workload_subject") as F3. pose proof (F "authority_key_id") as F4.
  injection F1 as ->. injection F2 as ->. injection F3 as ->. injection F4 as ->. done.
Qed.

Lemma workload_init_Ok {FS : FsEnv} pid a t w k initialize s lp s' :
  DurableWorkloadReplayLedger_init pid a t w k initialize s = (Ok lp, s') →
  lp = workload_profile a t w k ∧ ledger_open lp pid initialize s = (Ok tt, s').
Proof.
  unfold DurableWorkloadReplayLedger_init, bounded_identity. intros H.
  do 4 (apply M_bind_Ok in H as (? & ? & [Hc ->]%lift_Ok & H);
        match type of Hc with (if ?c then _ else _) = _ => destruct c; [injection Hc as <-|discriminate Hc] end).
  apply M_bind_Ok in H as ([] & s1 & H & [= <- <-]). done.
Qed.

(** The replay history belongs to the stable workload subject: two ledgers
    opened on the same file, by whichever process and whichever leaf credential it
    holds, have the same audience, trust domain, subject and authority, and hold
    the same reservations; so a changed identity fails closed and a rotated
    credential resets nothing. *)
Theorem workload_history_bound {FS : FsEnv} pid pid' a t w k a' t' w' k' s s' lp lp' s1 s1' :
  DurableWorkloadReplayLedger_init pid a t w k false s = (Ok lp, s1) →
  DurableWorkloadReplayLedger_init pid' a' t' w' k' false s' = (Ok lp', s1') →
  dk_entry s'.2 = dk_entry s.2 →
  (a' = a ∧ t' = t ∧ w' = w ∧ k' = k) ∧ lo_reservations s1'.1 = lo_reservations s1.1.
Proof.
  intros [-> (m & bytes & He & Hl)%open_reads]%workload_init_Ok [-> (m' & bytes' & He' & Hl')%open_reads]%workload_init_Ok E.
  rewrite E, He in He'. injection He' as <- <-.
  pose proof (proj2 (load_document_wf _ _ _ Hl)) as H1. pose proof (proj2 (load_document_wf _ _ _ Hl')) as H2.
  rewrite H1 in H2. apply workload_document_inj in H2 as (-> & -> & -> & ->). split; [done|].
  rewrite Hl in Hl'. by injection Hl'.
Qed.

(** ** At concrete inputs *)
Module DurableDemo.
(** The third file operation's directory [fsync] fails after the replacement. *)
#[export] Instance demo_fs : FsEnv := {|
  write_outcome n := if (n =? 5)%nat then FailedAfter else Written;
  read_fails n := false;
|}.
Definition demo_ledger : LedgerProfile := transport_profile "ot-adapter" "gateway-1" (zeros 64).
Definition empty_disk : Disk := mk_Disk (ParentDirectory 448) EntryAbsent SidecarAbsent false 0.
Definition closed : LedgerObject := mk_LedgerObject None [].
Definition opened := ledger_open demo_ledger 1 true (closed, empty_disk).
Definition nonce_1 : string := "nonce-0123456789".
Definition digest_1 : string := zeros 64.
Definition first := ledger_reserve demo_ledger 1 nonce_1 digest_1 opened.2.
(** A second nonce whose replacement reaches the disk but is reported as failed. *)
Definition nonce_2 : string := "nonce-abcdefghij".
Definition digest_2 : string := "1" +:+ zeros 63.
Definition second := ledger_reserve demo_ledger 1 nonce_2 digest_2 first.2.
Definition reopened := ledger_open demo_ledger 2 false (closed, set_lock (dk_sidecar second.2.2) false second.2.2).
Definition third := ledger_reserve demo_ledger 2 nonce_2 digest_2 reopened.2.
Definition demo_events : list ledger_event :=
  [EvReserve nonce_1 digest_1 first.1; EvReserve nonce_2 digest_2 second.1; EvRestart reopened.1;
   EvReserve nonce_2 digest_2 third.1].

Lemma demo_ok : profile_ok demo_ledger.
Proof. apply transport_profile_ok. Qed.

Lemma demo_run : ledger_run demo_ledger opened.2 demo_events third.2.
Proof.
  eapply ledger_run_cons; [apply (step_reserve _ 1), surjective_pairing|].
  eapply ledger_run_cons; [apply (step_reserve _ 1), surjective_pairing|].
  eapply ledger_run_cons; [apply (step_restart _ 2), surjective_pairing|].
  eapply ledger_run_cons; [apply (step_reserve _ 2), surjective_pairing|].
  apply ledger_run_nil.
Qed.

(** The reservation reported as failed is on the disk: it is refused after the
    restart, and only the first pair was ever accepted. *)
Lemma accepted_at_most_once_witness :
  accepted demo_events = [(nonce_1, digest_1)] ∧ third.1 = Ok false
  ∧ file_holds demo_ledger third.2 (nonce_1, digest_1).
Proof.
  destruct (accepted_at_most_once demo_ledger demo_ok _ _ _ demo_run) as (_ & _ & H).
  assert (Ha : accepted demo_events = [(nonce_1, digest_1)]) by (vm_compute; reflexivity).
  split; [exact Ha|]. split; [vm_compute; reflexivity|]. apply H. rewrite Ha. by left.
Defined.

Definition demo_reservations : Reservations := [(nonce_2, digest_2); (nonce_1, digest_1)].
Lemma demo_reservations_wf : reservations_wf demo_ledger demo_reservations.
Proof.
  split; [by apply (bool_decide_unpack _)|by apply (bool_decide_unpack _)| |vm_compute; discriminate].
  repeat constructor.
Qed.

Lemma ledger_round_trip_witness :
  ∃ bytes, canonical_bytes (document demo_ledger demo_reservations) = Ok bytes
    ∧ load_document demo_ledger bytes = Ok [(nonce_1, digest_1); (nonce_2, digest_2)].
Proof.
  destruct (ledger_round_trip demo_ledger demo_reservations "" demo_ok) as [H _].
  destruct (H demo_reservations_wf) as (bytes & H1 & H2 & _). exists bytes. exact (conj H1 H2).
Defined.

Lemma opened_ready : ready demo_ledger 1 opened.2 [].
Proof.
  split; [vm_compute; reflexivity| |].
  - exists 448%Z. split; vm_compute; reflexivity.
  - eexists. split; [vm_compute; reflexivity|]. split; [vm_compute; reflexivity|vm_compute; discriminate].
Qed.

Lemma reserve_contract_witness :
  ∃ s', ledger_reserve demo_ledger 1 nonce_1 digest_1 opened.2 = (Ok true, s')
    ∧ ready demo_ledger 1 s' [(nonce_1, digest_1)].
Proof.
  destruct (reserve_contract (FS := demo_fs) demo_ledger demo_ok 1 nonce_1 digest_1 opened.2 [] opened_ready
    ltac:(vm_compute; reflexivity) ltac:(vm_compute; reflexivity) ltac:(vm_compute; reflexivity)
    ltac:(vm_compute; reflexivity)) as (r & s' & Hr & _ & Hyes & _).
  destruct (Hyes ltac:(vm_compute; reflexivity) ltac:(vm_compute; reflexivity)) as [-> Hready].
  exists s'. exact (conj Hr Hready).
Defined.

(** A second process opening the ledger while the first holds the lock. *)
Lemma one_writer_witness :
  dk_locked opened.2.2 = true
  ∧ is_Ok (ledger_open demo_ledger 2 false (closed, opened.2.2)).1 = false.
Proof.
  pose proof (surjective_pairing (ledger_open demo_ledger 2 false (closed, opened.2.2))) as Hrun.
  destruct (one_writer demo_ledger 2 false closed opened.2.2 _ _ eq_refl Hrun) as (H & _ & _).
  assert (Hl : dk_locked opened.2.2 = true) by (vm_compute; reflexivity).
  destruct (H Hl) as (H1 & _). exact (conj Hl H1).
Defined.

(** A workload ledger, initialized, used and opened again by another process. *)
Definition workload_init := DurableWorkloadReplayLedger_init 1 "aud" "td" "svc" "auth" true (closed, empty_disk).
Definition workload_used :=
  workload_reserve "aud" "td" "svc" "auth" 1 nonce_1 digest_1 workload_init.2.
Definition released (s : LedgerObject * Disk) := (closed, set_lock (dk_sidecar s.2) false s.2).
Definition workload_again := DurableWorkloadReplayLedger_init 2 "aud" "td" "svc" "auth" false (released workload_used.2).
Definition workload_third := DurableWorkloadReplayLedger_init 3 "aud" "td" "svc" "auth" false (released workload_again.2).
Lemma workload_history_bound_witness :
  is_Ok workload_again.1 = true
  ∧ lo_reservations workload_third.2.1 = lo_reservations workload_again.2.1
  ∧ lo_reservations workload_again.2.1 = [(nonce_1, digest_1)].
Proof.
  assert (H1 : is_Ok workload_again.1 = true) by (vm_compute; reflexivity).
  assert (H2 : is_Ok workload_third.1 = true) by (vm_compute; reflexivity).
  pose proof (surjective_pairing workload_again) as R1. pose proof (surjective_pairing workload_third) as R2.
  destruct workload_again.1 as [lp1|e] eqn:E1; [|discriminate H1].
  destruct workload_third.1 as [lp2|e] eqn:E2; [|discriminate H2].
  unfold workload_again at 1 in R1. unfold workload_third at 1 in R2.
  destruct (workload_history_bound 2 3 "aud" "td" "svc" "auth" "aud" "td" "svc" "auth"
              (released workload_used.2) (released workload_again.2) lp1 lp2 _ _ R1 R2) as [_ H].
  - vm_compute. reflexivity.
  - split; [reflexivity|]. split; [exact H|vm_compute; reflexivity].
Defined.
End DurableDemo.
