(* ===== verification/SemanticReplay.v ===== *)
(** * The PLC's replay reservations
    ([src/src/aegis_ot/semantic_replay.py], class [OrderlyRestartReplayReservations])

    Four sets of identifiers, written out whole at every reservation.  The
    directory, the writer lock and the failures of file operations are those of
    DurableReplay.v; an [OSError] is not wrapped here.  [ReplayStore] is what the
    PLC relies on, [ReplayStoreLaws] what it is promised, and the ledger keeps the
    promise across restarts and failed writes. *)
From S2P Require Import Prelude PyFloat PyStr PyJson Sha256 DurableReplay.
From stdpp Require Import sorting.

(** ** The interface *)
Record ReplayIds := mk_ReplayIds {
  ri_request_digest : string;
  ri_permit_id : string;
  ri_permit_nonce : string;
  ri_command_id : string;
}.
(** No identifier of one is the same identifier of the other. *)
Definition ids_distinct (i j : ReplayIds) : Prop :=
  ri_request_digest i ≠ ri_request_digest j ∧ ri_permit_id i ≠ ri_permit_id j
  ∧ ri_permit_nonce i ≠ ri_permit_nonce j ∧ ri_command_id i ≠ ri_command_id j.

Class ReplayStore (S : Type) := {
  replay_reason : ReplayIds → M S (option string);
  reserve_ids : ReplayIds → M S unit;
}.
(** [spent s i]: no reservation that shares an identifier with [i] will succeed. *)
Class ReplayStoreLaws (S : Type) `{ReplayStore S} := {
  spent : S → ReplayIds → Prop;
  reopened : relation S;
  reason_keeps i j : preserves (λ s s', spent s j → spent s' j) (replay_reason i);
  reserve_keeps i j : preserves (λ s s', spent s j → spent s' j) (reserve_ids i);
  reopened_keeps s s' j : reopened s s' → spent s j → spent s' j;
  reserve_spends i s s' :
    reserve_ids i s = (Ok tt, s') → spent s' i ∧ ∀ j, spent s j → ids_distinct i j;
}.

(** ** The ledger *)
Record Reserved := mk_Reserved {
  request_digests : gset string;
  permit_ids : gset string;
  permit_nonces : gset string;
  command_ids : gset string;
}.
Definition empty_reserved : Reserved := mk_Reserved ∅ ∅ ∅ ∅.
Definition add_ids (i : ReplayIds) (r : Reserved) : Reserved :=
  mk_Reserved ({[ri_request_digest i]} ∪ request_digests r) ({[ri_permit_id i]} ∪ permit_ids r)
    ({[ri_permit_nonce i]} ∪ permit_nonces r) ({[ri_command_id i]} ∪ command_ids r).
Definition holds_ids (r : Reserved) (i : ReplayIds) : Prop :=
  ri_request_digest i ∈ request_digests r ∧ ri_permit_id i ∈ permit_ids r
  ∧ ri_permit_nonce i ∈ permit_nonces r ∧ ri_command_id i ∈ command_ids r.

(** The table of [_replay_reason]: the first identifier that is held. *)
Definition first_replayed (r : Reserved) (i : ReplayIds) : option string :=
  first_failure
    [(bool_decide (ri_request_digest i ∉ request_digests r), "transaction_replayed");
     (bool_decide (ri_permit_id i ∉ permit_ids r), "permit_replayed");
     (bool_decide (ri_permit_nonce i ∉ permit_nonces r), "permit_nonce_replayed");
     (bool_decide (ri_command_id i ∉ command_ids r), "command_replayed")].

(** ** The document *)
(** [sorted(values)] of a set *)
Definition sorted_set (X : gset string) : list string := sorted_strs (elements X).
Definition reserved_fields (r : Reserved) : list (string * gset string) :=
  [("request_digests", request_digests r); ("permit_ids", permit_ids r);
   ("permit_nonces", permit_nonces r); ("command_ids", command_ids r)].
Definition set_json (X : gset string) : json := JArr (JStr <$> sorted_set X).
Definition reserved_document (r : Reserved) : json :=
  JObj ((λ f, (f.1, set_json f.2)) <$> reserved_fields r).

Definition plc_value_error {A} (msg : string) : result A := raise_ "ValueError" ("PLC replay " +:+ msg).

(** [all(isinstance(value, str) and value for value in values)] *)
Fixpoint nonempty_strings (vs : list json) : option (list string) :=
  match vs with
  | [] => Some []
  | JStr s :: vs => if bool_decide (s = "") then None else (cons s) <$> nonempty_strings vs
  | _ => None
  end.
Definition load_set (v : option json) : result (gset string) :=
  match v with
  | Some (JArr vs) =>
      match nonempty_strings vs with
      | Some l => let X : gset string := list_to_set l in
                  if bool_decide (l = sorted_set X) then Ok X
                  else plc_value_error "ledger has an invalid reservation set"
      | None => plc_value_error "ledger has an invalid reservation set"
      end
  | _ => plc_value_error "ledger has an invalid reservation set"
  end.
(** Reading as text also turns carriage returns into newlines, which no accepted
    document tells apart. *)
Definition parse_reserved (material : string) : result json :=
  match utf8_decode material with
  | Some text => loads (closed_object "ValueError" "PLC replay ledger contains a duplicate key") text
  | None => raise_ "UnicodeDecodeError" "invalid utf-8"
  end.
Definition reserved_keys : list string := ["request_digests"; "permit_ids"; "permit_nonces"; "command_ids"].
Definition load_members (kv : list (string * json)) : result Reserved :=
  rd ← load_set (dict_get "request_digests" kv);
  pi ← load_set (dict_get "permit_ids" kv);
  pn ← load_set (dict_get "permit_nonces" kv);
  ci ← load_set (dict_get "command_ids" kv);
  Ok (mk_Reserved rd pi pn ci).
(** [_load] on the octets of the file. *)
Definition load_reserved (material : string) : result Reserved :=
  parsed ← parse_reserved material;
  match parsed with
  | JObj kv =>
      if keys_are reserved_keys kv then load_members kv
      else plc_value_error "ledger has unexpected or missing fields"
  | _ => plc_value_error "ledger root must be an object"
  end.

(** ** The object *)
Record SemanticLedger := mk_SemanticLedger { sl_writer : option Z; sl_state : Reserved }.
Abbreviation SemanticState := (SemanticLedger * Disk)%type.
Definition set_reserved (r : Reserved) : M SemanticState unit :=
  modify (λ s, (mk_SemanticLedger (sl_writer s.1) r, s.2)).
Definition on_semantic_disk {A} (m : M Disk A) : M SemanticState A := zoom snd (λ d s, (s.1, d)) m.

(** Whether a symbolic link at the ledger's path leads anywhere. *)
Class LinkEnv := { link_target_exists : nat → bool }.

Section semantic.
Context {FS : FsEnv} {LE : LinkEnv}.
(** The process that uses the ledger. *)
Variable pid : Z.

Definition semantic_assert_writer : M SemanticState unit := λ s,
  (match sl_writer s.1 with
   | None => plc_value_error "writer lock is closed"
   | Some owner =>
       if (owner =? pid)%Z then Ok tt
       else raise_ "ValueError" "replay writer lock cannot be used by an inherited child process"
   end, s).

Definition semantic_read_entry : M Disk string := λ d,
  (match dk_entry d with
   | EntryAbsent => plc_value_error "ledger is missing or unavailable"
   | EntrySymlink => if link_target_exists (dk_step d)
                     then plc_value_error "ledger must be a regular non-symlink file"
                     else plc_value_error "ledger is missing or unavailable"
   | EntryIrregular => plc_value_error "ledger must be a regular non-symlink file"
   | EntryFile _ bytes =>
       if (MAX_LEDGER_BYTES <? str_len bytes)%Z then plc_value_error "ledger exceeds its size limit"
       else if read_fails (dk_step d) then raise_ "OSError" "read failed" else Ok bytes
   end, next_step d).
Definition semantic_load : M SemanticState Reserved :=
  _ ← semantic_assert_writer;
  material ← on_semantic_disk semantic_read_entry;
  lift (load_reserved material).

(** The temporary file, its [fsync], the replacement and the directory's [fsync]. *)
Definition semantic_replace (material : string) : M Disk unit := λ d,
  let written := set_entry (EntryFile mode_0600 material) d in
  match write_outcome (dk_step d) with
  | Written => (Ok tt, next_step written)
  | FailedBefore | CleanupFailed => (raise_ "OSError" "write failed", next_step d)
  | FailedAfter => (raise_ "OSError" "write failed", next_step written)
  end.
Definition semantic_persist : M SemanticState unit :=
  _ ← semantic_assert_writer;
  s ← get;
  on_semantic_disk (semantic_replace (dumps (reserved_document (sl_state s.1)))).

Definition semantic_replay_reason (i : ReplayIds) : M SemanticState (option string) :=
  r ← semantic_load;
  _ ← set_reserved r;
  mret (first_replayed r i).

(** [reserve]: a failed write leaves the object ahead of the file, and the
    next operation loads the file again. *)
Definition semantic_reserve (i : ReplayIds) : M SemanticState unit :=
  r ← semantic_load;
  _ ← set_reserved r;
  match first_replayed r i with
  | Some reason => lift (raise_ "ValueError" reason)
  | None =>
      _ ← set_reserved (add_ids i r);
      semantic_persist
  end.

Definition reservation_count : M SemanticState Z :=
  r ← semantic_load;
  _ ← set_reserved r;
  mret (Z.of_nat (size (request_digests r))).

(** ** Opening and closing *)
Definition semantic_close : M SemanticState unit := λ s,
  match sl_writer s.1 with
  | None => (Ok tt, s)
  | Some _ => (Ok tt, (mk_SemanticLedger None (sl_state s.1), set_lock (dk_sidecar s.2) false s.2))
  end.
Definition semantic_open_locked (initialize : bool) : M SemanticState unit :=
  _ ← (if initialize then
         s ← get;
         match dk_entry s.2 with
         | EntryAbsent => semantic_persist
         | _ => lift (plc_value_error "ledger already exists; refusing to initialize")
         end
       else mret tt);
  r ← semantic_load;
  set_reserved r.
(** The lock is the transport ledger's class; its messages name no identity. *)
Definition writer_lock : M Disk unit := acquire_lock (transport_profile "" "" "").
(** The constructor; a failure after the lock releases it. *)
Definition semantic_open (initialize : bool) : M Disk SemanticLedger := λ d,
  match dk_parent d with
  | ParentDirectory _ =>
      match writer_lock d with
      | (Raise _, d) => (plc_value_error "writer lock is already held or unavailable", d)
      | (Ok _, d) =>
          match semantic_open_locked initialize (mk_SemanticLedger (Some pid) empty_reserved, d) with
          | (Ok _, s) => (Ok s.1, s.2)
          | (Raise e, s) => (Raise e, (semantic_close s).2.2)
          end
      end
  | _ => (plc_value_error "ledger directory must be a non-symlink directory", d)
  end.
End semantic.

(** ** The document reads back *)
Lemma sorted_set_perm X : sorted_set X ≡ₚ elements X.
Proof. apply merge_sort_Permutation. Qed.
Lemma list_to_sorted_set X : list_to_set (sorted_set X) = X.
Proof. apply set_eq. intros x. by rewrite elem_of_list_to_set, sorted_set_perm, elem_of_elements. Qed.

Definition nonempty_set (X : gset string) : bool := bool_decide ("" ∉ X).
Lemma nonempty_strings_print (l : list string) :
  nonempty_strings (JStr <$> l) = if bool_decide ("" ∉ l) then Some l else None.
Proof.
  induction l as [|x l IH]; [done|]. rewrite fmap_cons. cbn [nonempty_strings]. rewrite IH.
  destruct (decide (x = "")) as [->|Hx].
  - rewrite bool_decide_eq_true_2 by done. rewrite bool_decide_eq_false_2; [done|]. intros H. apply H. by left.
  - rewrite (bool_decide_eq_false_2 (x = "")) by done.
    rewrite (bool_decide_ext ("" ∉ x :: l) ("" ∉ l)); [by case_bool_decide|].
    rewrite not_elem_of_cons. naive_solver.
Qed.

Lemma load_set_print X :
  load_set (Some (set_json X))
  = if nonempty_set X then Ok X else plc_value_error "ledger has an invalid reservation set".
Proof.
  unfold load_set, set_json. rewrite nonempty_strings_print. unfold nonempty_set.
  rewrite (bool_decide_ext ("" ∉ sorted_set X) ("" ∉ X)) by by rewrite sorted_set_perm, elem_of_elements.
  case_bool_decide; [|done]. rewrite list_to_sorted_set. by rewrite bool_decide_eq_true_2.
Qed.
Lemma canon_set X : canon (set_json X) = set_json X.
Proof.
  unfold set_json. cbn [canon]. f_equal. induction (sorted_set X) as [|x l IH]; [done|].
  exact (f_equal (cons (JStr x)) IH).
Qed.

Lemma fmap_Some_set X : canon <$> Some (set_json X) = Some (set_json X).
Proof. by rewrite <- (canon_set X) at 2. Qed.

Definition document_members (r : Reserved) : list (string * json) :=
  (λ f, (f.1, set_json f.2)) <$> reserved_fields r.
Lemma document_members_keys r : NoDup (document_members r).*1.
Proof. by apply (bool_decide_unpack _). Qed.
Lemma document_members_get r :
  dict_get "request_digests" (document_members r) = Some (set_json (request_digests r))
  ∧ dict_get "permit_ids" (document_members r) = Some (set_json (permit_ids r))
  ∧ dict_get "permit_nonces" (document_members r) = Some (set_json (permit_nonces r))
  ∧ dict_get "command_ids" (document_members r) = Some (set_json (command_ids r)).
Proof. split_and!; reflexivity. Qed.
Lemma reserved_document_ok r : json_ok (reserved_document r) = true.
Proof.
  unfold reserved_document. fold (document_members r). cbn [json_ok].
  rewrite bool_decide_eq_true_2 by apply document_members_keys.
  assert (H : ∀ X, json_ok (set_json X) = true).
  { intros X. unfold set_json. cbn [json_ok]. apply forallb_forall. intros j Hj.
    apply list_elem_of_In, list_elem_of_fmap in Hj as (x & -> & _). done. }
  cbn -[set_json json_ok]. by rewrite !H.
Qed.

(** Every set free of the empty string: what [_load] asks of a ledger. *)
Definition loadable (r : Reserved) : bool :=
  nonempty_set (request_digests r) && nonempty_set (permit_ids r) && nonempty_set (permit_nonces r)
  && nonempty_set (command_ids r).
Lemma parse_reserved_print r :
  parse_reserved (dumps (reserved_document r)) = Ok (canon (reserved_document r)).
Proof.
  unfold parse_reserved. rewrite utf8_decode_ascii by apply print_ascii, json_ok_canon, reserved_document_ok.
  by rewrite loads_dumps by auto using closed_object_good, reserved_document_ok.
Qed.
Lemma load_members_print kv r :
  (∀ k, dict_get k kv = canon <$> dict_get k (document_members r)) →
  load_members kv = if loadable r then Ok r else plc_value_error "ledger has an invalid reservation set".
Proof.
  intros Hk. unfold load_members. rewrite !Hk. destruct (document_members_get r) as (-> & -> & -> & ->).
  rewrite !fmap_Some_set, !load_set_print. unfold loadable. destruct r as [a b c d]. cbn.
  by destruct (nonempty_set a), (nonempty_set b), (nonempty_set c), (nonempty_set d).
Qed.
Lemma load_reserved_print r :
  load_reserved (dumps (reserved_document r))
  = if loadable r then Ok r else plc_value_error "ledger has an invalid reservation set".
Proof.
  unfold load_reserved. rewrite parse_reserved_print. cbn [mbind result_bind].
  set (kv := merge_sort key_le (map (λ '(k, x), (k, canon x)) (document_members r))).
  change (canon (reserved_document r)) with (JObj kv). cbv iota.
  rewrite keys_are_perm; [|subst kv; by rewrite canon_obj_perm].
  apply load_members_print. intros k. apply dict_get_canon, document_members_keys.
Qed.

(** ** What the operations do to the file *)
Section laws.
Context {FS : FsEnv} {LE : LinkEnv}.
Variable pid : Z.

Definition same_entry (s s' : SemanticState) : Prop := dk_entry s'.2 = dk_entry s.2.
#[local] Instance same_entry_preorder : PreOrder same_entry.
Proof using Type. split; [done|]. intros x y z H1 H2. by etrans. Qed.
Lemma same_semantic_disk {A} (m : M Disk A) :
  (∀ d, dk_entry (m d).2 = dk_entry d) → preserves same_entry (on_semantic_disk m).
Proof using Type. intros Hm s. unfold same_entry, on_semantic_disk, zoom. specialize (Hm s.2). by destruct (m s.2). Qed.
Lemma same_semantic_writer : preserves same_entry (semantic_assert_writer pid).
Proof using Type. by intros s. Qed.
Lemma same_semantic_read : preserves same_entry (on_semantic_disk semantic_read_entry).
Proof using Type. by apply same_semantic_disk. Qed.
Lemma same_set_reserved r : preserves same_entry (set_reserved r).
Proof using Type. by intros s. Qed.
#[local] Hint Resolve same_semantic_writer same_semantic_read same_set_reserved : frames.
Lemma same_semantic_load : preserves same_entry (semantic_load pid).
Proof using Type. unfold semantic_load. frame. Qed.
#[local] Hint Resolve same_semantic_load : frames.
Lemma same_semantic_reason i : preserves same_entry (semantic_replay_reason pid i).
Proof using Type. unfold semantic_replay_reason. frame. Qed.

(** The file is there and, if it loads, it loads to [r]. *)
Definition file_reads (s : SemanticState) (P : Reserved → Prop) : Prop :=
  ∃ mode bytes, dk_entry s.2 = EntryFile mode bytes ∧ ∀ r, load_reserved bytes = Ok r → P r.
Lemma file_reads_impl s (P Q : Reserved → Prop) : (∀ r, P r → Q r) → file_reads s P → file_reads s Q.
Proof using Type. intros H (m & b & He & Hr). exists m, b. naive_solver. Qed.
Lemma file_reads_same s s' P : same_entry s s' → file_reads s P → file_reads s' P.
Proof using Type. intros E (m & b & He & Hr). exists m, b. by rewrite E. Qed.

Lemma semantic_load_Ok s r s' :
  semantic_load pid s = (Ok r, s') →
  s'.1 = s.1 ∧ ∃ mode bytes, dk_entry s.2 = EntryFile mode bytes ∧ load_reserved bytes = Ok r
    ∧ dk_entry s'.2 = dk_entry s.2.
Proof using Type.
  intros H. pose proof (preserves_run _ _ _ _ _ same_semantic_load H) as Hsame. unfold semantic_load in H.
  apply M_bind_Ok in H as ([] & s1 & Ha & H). injection Ha as _ <-.
  apply M_bind_Ok in H as (bytes & s2 & Hr & [Hl ->]%lift_Ok). apply zoom_run in Hr as (d & Hr & ->).
  split; [done|]. unfold semantic_read_entry in Hr. destruct (dk_entry s.2) as [| | |mode b] eqn:He;
    [discriminate Hr|by destruct (link_target_exists _)|discriminate Hr|].
  exists mode, b. destruct (_ <? _)%Z; [discriminate Hr|]. destruct (read_fails _); [discriminate Hr|].
  injection Hr as <- _. split_and!; [done|done|]. by rewrite Hsame.
Qed.

(** Persisting writes the object's sets, or leaves the file and raises. *)
Lemma semantic_persist_run s r s' :
  semantic_persist pid s = (r, s') →
  same_entry s s' ∧ is_Ok r = false
  ∨ dk_entry s'.2 = EntryFile mode_0600 (dumps (reserved_document (sl_state s.1))).
Proof using Type.
  unfold semantic_persist. intros H.
  apply M_bind_case in H as [(e & -> & H)|([] & s1 & H1 & H)]; [left; by injection H as _ <-|].
  injection H1 as _ <-. apply M_bind_case in H as [(e & -> & H)|(s0 & s1 & [= <- <-] & H)]; [by injection H|].
  apply zoom_run in H as (d & H & ->). unfold semantic_replace in H.
  destruct (write_outcome _); injection H as <- <-; [by right|by left|by right|by left].
Qed.

(** A reservation leaves the file alone and fails, or found all four identifiers
    free and wrote them with what was there. *)
Lemma semantic_reserve_run i s r s' :
  semantic_reserve pid i s = (r, s') →
  same_entry s s' ∧ is_Ok r = false
  ∨ ∃ mode bytes x, dk_entry s.2 = EntryFile mode bytes ∧ load_reserved bytes = Ok x
      ∧ first_replayed x i = None
      ∧ dk_entry s'.2 = EntryFile mode_0600 (dumps (reserved_document (add_ids i x))).
Proof using Type.
  unfold semantic_reserve. intros H.
  apply M_bind_case in H as [(e & -> & H)|(x & s1 & Hl & H)].
  { left. split; [|done]. by apply (preserves_run _ _ _ _ _ same_semantic_load) in H. }
  apply semantic_load_Ok in Hl as (_ & mode & bytes & He & Hx & Hsame).
  apply M_bind_case in H as [(e & -> & H)|([] & s2 & [= <-] & H)]; [by injection H|].
  destruct (first_replayed x i) as [reason|] eqn:Hf; [left; by injection H as <- <-|].
  apply M_bind_case in H as [(e & -> & H)|([] & s2 & [= <-] & H)]; [by injection H|].
  apply semantic_persist_run in H as [[E Hr]|E]; [left|right].
  - split; [|done]. unfold same_entry in *. simpl in E. by rewrite E.
  - exists mode, bytes, x. split_and!; try done.
Qed.

Lemma add_ids_holds i x j : holds_ids (add_ids i x) j ↔
  (ri_request_digest j = ri_request_digest i ∨ ri_request_digest j ∈ request_digests x)
  ∧ (ri_permit_id j = ri_permit_id i ∨ ri_permit_id j ∈ permit_ids x)
  ∧ (ri_permit_nonce j = ri_permit_nonce i ∨ ri_permit_nonce j ∈ permit_nonces x)
  ∧ (ri_command_id j = ri_command_id i ∨ ri_command_id j ∈ command_ids x).
Proof using Type. unfold holds_ids, add_ids. cbn. set_solver. Qed.
Lemma first_replayed_None x i j : first_replayed x i = None → holds_ids x j → ids_distinct i j.
Proof using Type.
  unfold first_replayed. rewrite first_failure_None, !Forall_cons. cbn [fst]. rewrite !bool_decide_eq_true.
  intros (? & ? & ? & ? & _) (? & ? & ? & ?). split_and!; congruence.
Qed.

Lemma reserve_written i s s' mode bytes x :
  dk_entry s.2 = EntryFile mode bytes → load_reserved bytes = Ok x →
  dk_entry s'.2 = EntryFile mode_0600 (dumps (reserved_document (add_ids i x))) →
  file_reads s' (λ r, holds_ids r i) ∧ ∀ j, file_reads s (λ r, holds_ids r j) → file_reads s' (λ r, holds_ids r j).
Proof using Type.
  intros He Hx He'.
  assert (H : ∀ P : Reserved → Prop, P (add_ids i x) → file_reads s' P).
  { intros P HP. eexists _, _. split; [exact He'|]. intros r. rewrite load_reserved_print.
    destruct (loadable _); [by intros [= <-]|done]. }
  split; [apply H, add_ids_holds; by split_and!; left|].
  intros j (m & b & Hj & Hr). rewrite He in Hj. injection Hj as <- <-. specialize (Hr _ Hx).
  apply H, add_ids_holds. destruct Hr as (? & ? & ? & ?). by split_and!; right.
Qed.

(** ** Opening keeps the file *)
Lemma writer_lock_same d : dk_entry (writer_lock d).2 = dk_entry d.
Proof using Type. unfold writer_lock, acquire_lock. by repeat case_match. Qed.
Lemma semantic_close_same : preserves same_entry semantic_close.
Proof using Type. intros s. unfold semantic_close, same_entry. by case_match. Qed.
Lemma semantic_open_same initialize d mode bytes :
  dk_entry d = EntryFile mode bytes → dk_entry (semantic_open pid initialize d).2 = dk_entry d.
Proof using Type.
  intros He. unfold semantic_open. destruct (dk_parent d); try done.
  pose proof (writer_lock_same d) as Ha. destruct (writer_lock d) as [[[]|e] d1]; [|exact Ha]. cbn [snd] in Ha.
  set (s0 := (mk_SemanticLedger (Some pid) empty_reserved, d1)).
  assert (Hl : same_entry s0 (semantic_open_locked pid initialize s0).2).
  { assert (Hload : preserves same_entry (r ← semantic_load pid; set_reserved r)) by frame.
    unfold semantic_open_locked. destruct initialize; [|apply Hload].
    subst s0. unfold mbind, M_bind, get. cbn [fst snd]. rewrite Ha, He. reflexivity. }
  destruct (semantic_open_locked pid initialize s0) as [[[]|e] s1]; cbn [snd] in *.
  - unfold same_entry in Hl. cbn in Hl. congruence.
  - pose proof (semantic_close_same s1) as Hc. unfold same_entry in *. cbn in *. congruence.
Qed.
End laws.

(** ** The promise *)
(** A ledger with the process that uses it. *)
Abbreviation ProcessState := (Z * SemanticState)%type.
Definition in_process {A} (m : Z → M SemanticState A) : M ProcessState A := λ s,
  let '(r, t) := m s.1 s.2 in (r, (s.1, t)).

(** The process dies or closes the ledger, which frees the lock, and a process
    opens it again, successfully or not; or a child inherits it. *)
Inductive ledger_reopened `{FsEnv} `{LinkEnv} : relation ProcessState :=
  | ledger_reopen pid initialize s o d :
      semantic_open pid initialize (set_lock (dk_sidecar s.2.2) false s.2.2) = (Ok o, d) →
      ledger_reopened s (pid, (o, d))
  | ledger_reopen_failed pid initialize s e d :
      semantic_open pid initialize (set_lock (dk_sidecar s.2.2) false s.2.2) = (Raise e, d) →
      ledger_reopened s (pid, (mk_SemanticLedger None (sl_state s.2.1), d))
  | ledger_inherited pid s : ledger_reopened s (pid, s.2).

#[export] Instance semantic_store `{FsEnv} `{LinkEnv} : ReplayStore ProcessState := {|
  replay_reason i := in_process (λ pid, semantic_replay_reason pid i);
  reserve_ids i := in_process (λ pid, semantic_reserve pid i);
|}.

Lemma reopened_same_file `{FsEnv} `{LinkEnv} s s' (P : Reserved → Prop) :
  ledger_reopened s s' → file_reads s.2 P → file_reads s'.2 P.
Proof.
  intros Hr (m & b & He & HP). exists m, b. split; [|done].
  destruct Hr as [pid i s o d Ho|pid i s e d Ho|]; cbn [snd]; [| |done];
    pose proof (semantic_open_same pid i (set_lock (dk_sidecar s.2.2) false s.2.2) m b He) as E;
    rewrite Ho in E; cbn in E; by rewrite E.
Qed.

#[export] Program Instance semantic_store_laws `{FsEnv} `{LinkEnv} : ReplayStoreLaws ProcessState := {|
  spent s i := file_reads s.2 (λ r, holds_ids r i);
  reopened := ledger_reopened;
|}.
Next Obligation.
  intros ? ? i j [pid s] Hj. unfold replay_reason, semantic_store, in_process. cbn [fst snd] in *.
  destruct (semantic_replay_reason pid i s) as [r s'] eqn:E. cbn. apply (file_reads_same s); [|done].
  exact (preserves_run _ _ _ _ _ (same_semantic_reason pid i) E).
Qed.
Next Obligation.
  intros ? ? i j [pid s] Hj. unfold reserve_ids, semantic_store, in_process. cbn [fst snd] in *.
  destruct (semantic_reserve pid i s) as [r s'] eqn:E. cbn.
  apply semantic_reserve_run in E as [[E _]|(m & b & x & He & Hx & _ & He')].
  - by apply (file_reads_same s).
  - exact (proj2 (reserve_written _ _ _ _ _ _ He Hx He') j Hj).
Qed.
Next Obligation. intros ? ? s s' j. apply reopened_same_file. Qed.
Next Obligation.
  intros ? ? i [pid s] s' H'. unfold reserve_ids, semantic_store, in_process in H'. cbn [fst snd] in *.
  destruct (semantic_reserve pid i s) as [r t] eqn:E. injection H' as -> <-.
  apply semantic_reserve_run in E as [[_ E]|(m & b & x & He & Hx & Hf & He')]; [done|].
  split; [exact (proj1 (reserve_written _ _ _ _ _ _ He Hx He'))|].
  intros j (m' & b' & Hj & Hr). rewrite He in Hj. injection Hj as <- <-.
  apply (first_replayed_None x); auto.
Qed.

(** ** Size

    [_persist] does not look at the size that [_load] allows: the reservation
    that crosses the limit is made, and afterwards no operation of any process
    gets past loading. *)
Lemma oversize_ledger_unusable `{FsEnv} `{LinkEnv} pid s mode bytes i pid' s' :
  dk_entry s.2 = EntryFile mode bytes → (MAX_LEDGER_BYTES < str_len bytes)%Z → same_entry s s' →
  is_Ok (semantic_replay_reason pid i s).1 = false ∧ is_Ok (semantic_reserve pid' i s').1 = false.
Proof.
  intros He Hlen Hsame.
  assert (Hload : ∀ p t, dk_entry t.2 = EntryFile mode bytes → ∃ e t', semantic_load p t = (Raise e, t')).
  { intros p t Ht. unfold semantic_load, mbind, M_bind.
    destruct (semantic_assert_writer p t) as [[[]|e] t1] eqn:Ha; [|by eauto]. injection Ha as _ <-.
    unfold on_semantic_disk, zoom, semantic_read_entry. rewrite Ht.
    apply Z.ltb_lt in Hlen. rewrite Hlen. cbn. by eauto. }
  split.
  - destruct (Hload pid s He) as (e & t & E). unfold semantic_replay_reason, mbind, M_bind. by rewrite E.
  - destruct (Hload pid' s') as (e & t & E); [by rewrite Hsame|].
    unfold semantic_reserve, mbind, M_bind. by rewrite E.
Qed.
Lemma persist_ignores_size `{FsEnv} `{LinkEnv} pid s :
  sl_writer s.1 = Some pid → write_outcome (dk_step s.2) = Written →
  ∃ s', semantic_persist pid s = (Ok tt, s')
    ∧ dk_entry s'.2 = EntryFile mode_0600 (dumps (reserved_document (sl_state s.1))).
Proof.
  intros Hw Ho. unfold semantic_persist, mbind, M_bind, semantic_assert_writer. rewrite Hw, Z.eqb_refl.
  unfold get, on_semantic_disk, zoom, semantic_replace. cbn. rewrite Ho. by eauto.
Qed.
