(* ===== verification/CapabilityPlc.v ===== *)
(** * The permit-aware virtual PLC ([src/src/aegis_ot/capability_plc.py],
    class [CapabilityVirtualPlc])

    A call verifies one exact authorization transaction (request, permit, signed
    observation, decision and candidate), reserves its identifiers durably, and
    only then uses the plant.  The plant and the replay store are interfaces: the
    theorems are about any plant and any store that keeps [ReplayStoreLaws].  A
    call is atomic: the source holds a lock around it. *)
From S2P Require Import Prelude PyFloat PyStr PyTime PyJson Sha256 Crypto Models.
From S2P Require Import PhysicalModels PhysicalControl PhysicalDevice CapabilityModels DurableReplay SemanticReplay.

(** ** Interfaces *)
(** The digests and the version the plant compares before it applies. *)
Record Expectation := mk_Expectation {
  ex_state_version : Z;
  ex_state_digest : string;
  ex_observation_digest : string;
  ex_post_state_digest : string;
  ex_post_topology_digest : string;
}.
(** [CapabilityPlcPlantPort]; the second way to apply is there for a plant that is
    an [EffectDeadlineCapabilityPlcPlantPort]. *)
Class PlcPlant (T : Type) := {
  plc_read_state : M T PhysicalStateSnapshot;
  plc_simulate_candidate : PhysicalControlCommand → M T CandidateAssessment;
  plc_apply : PhysicalControlCommand → Expectation → M T PhysicalStateSnapshot;
  plc_apply_with_deadline :
    option (PhysicalControlCommand → Expectation → datetime → M T PhysicalStateSnapshot);
}.

Section plc.
Context {ED : Ed25519} {E : Env}.
Context {DSt : ModelDump PhysicalStateSnapshot} {DCo : ModelDump PhysicalControlCommand}
  {DAs : ModelDump CandidateAssessment} {DPe : ModelDump ExecutionPermit}
  {DPr : ModelDump ActionProposal} {DOb : ModelDump SignedObservationEnvelope}
  {DRq : ModelDump CapabilityActionRequest} {DCp : ModelDump CapabilityExecutionPermit}
  {DPa : ModelDump PlcCommandAcknowledgment}.

(** ** The PLC *)
Record ObserverInfo := mk_ObserverInfo {
  oi_observer_id : string;
  oi_key_id : string;
  oi_boot_epoch : string;
  oi_public_key : public_key;
}.
Record CapabilityVirtualPlc := mk_CapabilityVirtualPlc {
  vp_plc_id : string;
  vp_boot_epoch : string;
  vp_permit_key_id : string;
  vp_permit_public_key : public_key;
  vp_observer_info : ObserverInfo;
  vp_acknowledgment_private_key : private_key;
  vp_acknowledgment_key_id : string;
  vp_scan_counter : Z;
  vp_execute_requests : Z;
}.
(** What [execute] counts before anything else. *)
Definition count_call (v : CapabilityVirtualPlc) : CapabilityVirtualPlc :=
  mk_CapabilityVirtualPlc (vp_plc_id v) (vp_boot_epoch v) (vp_permit_key_id v) (vp_permit_public_key v)
    (vp_observer_info v) (vp_acknowledgment_private_key v) (vp_acknowledgment_key_id v)
    (vp_scan_counter v + 1) (vp_execute_requests v + 1).

(** The five artifacts of a call. *)
Record Transaction := mk_Transaction {
  tx_request : CapabilityActionRequest;
  tx_permit : CapabilityExecutionPermit;
  tx_pre_observation : SignedObservationEnvelope;
  tx_decision : Decision;
  tx_assessment : CandidateAssessment;
}.
Definition tx_base (x : Transaction) : ExecutionPermit := base_permit (tx_permit x).
Definition tx_ids (rd : string) (x : Transaction) : ReplayIds :=
  mk_ReplayIds rd (permit_id (tx_base x)) (permit_nonce (tx_base x)) (command_id (pm_command (tx_base x))).
Definition tx_expectation (x : Transaction) : Expectation :=
  mk_Expectation (pm_state_version (tx_base x)) (pm_state_digest (tx_base x)) (pm_observation_digest (tx_base x))
    (expected_post_state_digest (tx_base x)) (expected_post_topology_digest (tx_base x)).

Context {R T : Type} {HR : ReplayStore R} {HPl : PlcPlant T}.
Record PlcRun := mk_PlcRun {
  pr_plc : CapabilityVirtualPlc;
  pr_replay : R;
  pr_plant : T;
  pr_world : World;
}.
Definition on_plc_world {A} (m : M World A) : M PlcRun A :=
  zoom pr_world (λ w s, mk_PlcRun (pr_plc s) (pr_replay s) (pr_plant s) w) m.
Definition on_replay {A} (m : M R A) : M PlcRun A :=
  zoom pr_replay (λ r s, mk_PlcRun (pr_plc s) r (pr_plant s) (pr_world s)) m.
Definition on_plc_plant {A} (m : M T A) : M PlcRun A :=
  zoom pr_plant (λ t s, mk_PlcRun (pr_plc s) (pr_replay s) t (pr_world s)) m.
Definition plc_clock : M PlcRun datetime := on_plc_world now_utc.

(** ** [_acknowledge] *)
Definition plc_acknowledgment_body (v : CapabilityVirtualPlc) (aid rd pd : string)
    (permit : CapabilityExecutionPermit) (status : CommandStatus) (phase : DispatchPhase) (reason : string)
    (at_ : datetime) (pre : PhysicalStateSnapshot) (post : option PhysicalStateSnapshot) :
    PlcCommandAcknowledgment :=
  let base := base_permit permit in
  let c := pm_command base in
  mk_PlcCommandAcknowledgment aid rd pd (cp_observation_envelope_digest permit) (permit_id base)
    (permit_nonce base) (command_id c) (pm_command_digest base) (pm_assessment_digest base)
    (pm_proposal_id base) (pm_decision_id base) (vp_plc_id v) (vp_acknowledgment_key_id v) (vp_boot_epoch v)
    (vp_scan_counter v) status phase reason at_ pre (ps_state_digest pre) (ps_state_version pre)
    (ps_state_digest <$> post) (ps_state_version <$> post) (ps_topology_digest <$> post)
    (actuator_setpoint pre c)
    match post with
    | Some post => Some (actuator_setpoint post c)
    | None => if bool_decide (status = REJECTED) then Some (actuator_setpoint pre c) else None
    end
    (ps_simulation_time_s (default pre post)) "".
Definition plc_acknowledge (x : Transaction) (status : CommandStatus) (phase : DispatchPhase) (reason : string)
    (at_ : datetime) (pre : PhysicalStateSnapshot) (post : option PhysicalStateSnapshot) :
    M PlcRun PlcCommandAcknowledgment :=
  s ← get;
  rd ← lift (request_digest (tx_request x));
  pd ← lift (capability_permit_digest (tx_permit x));
  aid ← on_plc_world uuid4;
  ack ← lift (PlcCommandAcknowledgment_validate
                (plc_acknowledgment_body (pr_plc s) aid rd pd (tx_permit x) status phase reason at_ pre post));
  lift (pa_signed ack (vp_acknowledgment_private_key (pr_plc s))).

(** ** The table of checks of [_execute_locked]

    Its digests and signatures are computed before any of them is looked at. *)
Definition plc_checks (v : CapabilityVirtualPlc) (x : Transaction) (rd : string) (current : PhysicalStateSnapshot)
    (at_ : datetime) : result (list (bool * string)) :=
  let permit := tx_permit x in
  let base := tx_base x in
  let request := tx_request x in
  let proposal := rq_proposal request in
  let o := tx_pre_observation x in
  let d := tx_decision x in
  let a := tx_assessment x in
  let info := vp_observer_info v in
  permit_signed ← cp_verify permit (vp_permit_public_key v);
  observation_signed ← observation_verify o (oi_public_key info);
  pd ← proposal_digest proposal;
  cd ← command_digest (pm_command base);
  ad ← assessment_digest a;
  current_ok ← verify_digest current;
  Ok [(bool_decide (audience base = vp_plc_id v), "permit_wrong_audience");
      (bool_decide (cp_signing_key_id permit = vp_permit_key_id v), "permit_unknown_signing_key");
      (permit_signed, "permit_signature_invalid");
      (bool_decide (target_plc_id permit = vp_plc_id v), "permit_wrong_plc");
      (bool_decide (target_plc_key_id permit = vp_acknowledgment_key_id v), "permit_wrong_plc_key");
      (bool_decide (target_plc_boot_epoch permit = vp_boot_epoch v), "permit_wrong_plc_boot");
      (bool_decide (cp_request_digest permit = rd), "permit_request_digest_mismatch");
      (bool_decide (cp_observation_id permit = observation_id o), "permit_observation_id_mismatch");
      (bool_decide (cp_observation_envelope_digest permit = envelope_digest o),
       "permit_observation_digest_mismatch");
      (bool_decide (cp_observer_id permit = observer_id o), "permit_observer_id_mismatch");
      (bool_decide (cp_observer_key_id permit = observer_key_id o), "permit_observer_key_mismatch");
      (bool_decide (cp_observer_boot_epoch permit = observer_boot_epoch o), "permit_observer_boot_mismatch");
      (observation_signed, "observation_signature_invalid");
      (bool_decide (observer_id o = oi_observer_id info), "observation_source_mismatch");
      (bool_decide (observer_key_id o = oi_key_id info), "observation_key_mismatch");
      (bool_decide (observer_boot_epoch o = oi_boot_epoch info), "observation_boot_mismatch");
      (bool_decide (so_phase o = PRE_AUTHORIZATION), "observation_phase_mismatch");
      (bool_decide (observation_challenge_nonce request = challenge_nonce o), "observation_challenge_mismatch");
      (bool_decide (correlation_id request = so_correlation_id o), "observation_correlation_mismatch");
      ((observed_state_version proposal =? ps_state_version (snapshot o))%Z,
       "proposal_observation_version_mismatch");
      (dt_eqb (proposal_observed_at proposal) (ps_observed_at (snapshot o)), "proposal_observation_time_mismatch");
      (dt_leb (pm_issued_at base) at_, "permit_not_yet_valid");
      (dt_ltb at_ (pm_expires_at base), "permit_expired");
      (bool_decide (pm_proposal_id base = proposal_id proposal), "permit_proposal_id_mismatch");
      (bool_decide (pm_proposal_digest base = pd), "permit_proposal_digest_mismatch");
      (bool_decide (pm_decision_id base = decision_id d), "permit_decision_id_mismatch");
      (bool_decide (outcome d = PERMIT), "decision_not_permit");
      (bool_decide (decision_proposal_id d = proposal_id proposal), "decision_proposal_mismatch");
      (bool_decide (evidence_record_hash d = Some (pm_evidence_record_hash base)), "decision_evidence_mismatch");
      (bool_decide (pm_policy_version base = policy_version d), "decision_policy_version_mismatch");
      (bool_decide (pm_safety_version base = safety_version d), "decision_safety_version_mismatch");
      ((pm_state_version base =? state_version d)%Z, "decision_state_version_mismatch");
      (bool_decide (pm_command_digest base = cd), "permit_command_digest_mismatch");
      (bool_decide (pm_assessment_digest base = ad), "permit_assessment_digest_mismatch");
      (as_safe a, "candidate_not_safe");
      (bool_decide (as_command_digest a = pm_command_digest base), "candidate_command_mismatch");
      (bool_decide (ps_state_digest (pre_state a) = pm_state_digest base), "candidate_state_digest_mismatch");
      ((ps_state_version (post_state a) =? expected_post_state_version base)%Z, "candidate_post_version_mismatch");
      (bool_decide (ps_state_digest (post_state a) = expected_post_state_digest base),
       "candidate_post_digest_mismatch");
      (bool_decide (ps_topology_digest (post_state a) = expected_post_topology_digest base),
       "candidate_post_topology_mismatch");
      (current_ok, "current_state_digest_invalid");
      (bool_decide (pm_model_digest base = ps_model_digest current), "model_digest_changed");
      (bool_decide (pm_topology_digest base = ps_topology_digest current), "topology_digest_changed");
      ((pm_state_version base =? ps_state_version current)%Z, "precommit_state_version_changed");
      (bool_decide (pm_state_digest base = ps_state_digest current), "precommit_state_digest_changed");
      (bool_decide (pm_observation_digest base = ps_observation_digest current),
       "precommit_observation_changed")].

(** ** The call *)
(** The one use of the plant's apply capability. *)
Definition apply_transaction (x : Transaction) : M T PhysicalStateSnapshot :=
  match plc_apply_with_deadline with
  | Some apply => apply (pm_command (tx_base x)) (tx_expectation x) (pm_expires_at (tx_base x))
  | None => plc_apply (pm_command (tx_base x)) (tx_expectation x)
  end.

Definition reject_transaction (x : Transaction) (reason : string) (at_ : datetime) (current : PhysicalStateSnapshot) :
    M PlcRun PlcCommandAcknowledgment :=
  plc_acknowledge x REJECTED PRE_DISPATCH reason at_ current None.

(** What follows the application, whatever it did. *)
Definition conclude (x : Transaction) (current : PhysicalStateSnapshot) (applied : result PhysicalStateSnapshot) :
    M PlcRun PlcCommandAcknowledgment :=
  match applied with
  | Raise e =>
      if isinstance_exn e "PhysicalSimulationError" then
        rejection_state ← (if bool_decide (exn_str e ∈ cas_reasons) then on_plc_plant plc_read_state
                           else mret current);
        at_ ← plc_clock;
        plc_acknowledge x REJECTED KNOWN_NO_EFFECT (exn_str e) at_ rejection_state None
      else
        at_ ← plc_clock;
        plc_acknowledge x UNKNOWN_EFFECT EFFECT_UNKNOWN "plant_dispatch_outcome_unavailable" at_ current None
  | Ok post =>
      at_ ← plc_clock;
      if negb (readback_expected (tx_base x) post)
      then plc_acknowledge x UNKNOWN_EFFECT EFFECT_UNKNOWN "post_dispatch_candidate_divergence" at_ current None
      else plc_acknowledge x APPLIED COMMITTED "command_applied_and_plc_read_back" at_ current (Some post)
  end.
Definition plc_dispatch (x : Transaction) (current : PhysicalStateSnapshot) : M PlcRun PlcCommandAcknowledgment :=
  applied ← attempt (on_plc_plant (apply_transaction x));
  conclude x current applied.

(** From the reservation on. *)
Definition reserve_and_dispatch (x : Transaction) (rd : string) (current : PhysicalStateSnapshot) :
    M PlcRun PlcCommandAcknowledgment :=
  reserved ← attempt (on_replay (reserve_ids (tx_ids rd x)));
  match reserved with
  | Raise e =>
      if isinstance_exn e "ValueError" then
        at_ ← plc_clock;
        reject_transaction x (exn_str e) at_ current
      else lift (Raise e)
  | Ok _ =>
      final_dispatch_time ← plc_clock;
      if dt_leb (pm_expires_at (tx_base x)) final_dispatch_time
      then reject_transaction x "permit_expired_after_replay_reservation" final_dispatch_time current
      else plc_dispatch x current
  end.

Definition plc_execute_locked (x : Transaction) : M PlcRun PlcCommandAcknowledgment :=
  evaluated_at ← plc_clock;
  current ← on_plc_plant plc_read_state;
  rd ← lift (request_digest (tx_request x));
  replayed ← on_replay (replay_reason (tx_ids rd x));
  match replayed with
  | Some reason => reject_transaction x reason evaluated_at current
  | None =>
      s ← get;
      checks ← lift (plc_checks (pr_plc s) x rd current evaluated_at);
      match first_failure checks with
      | Some reason => reject_transaction x reason evaluated_at current
      | None =>
          fresh ← on_plc_plant (plc_simulate_candidate (pm_command (tx_base x)));
          commit_time ← plc_clock;
          if negb (candidate_repeats fresh (tx_assessment x))
          then reject_transaction x "candidate_attestation_mismatch" commit_time current
          else if dt_leb (pm_expires_at (tx_base x)) commit_time
          then reject_transaction x "permit_expired_before_dispatch" commit_time current
          else reserve_and_dispatch x rd current
      end
  end.
Definition plc_execute (x : Transaction) : M PlcRun PlcCommandAcknowledgment :=
  _ ← modify (λ s, mk_PlcRun (count_call (pr_plc s)) (pr_replay s) (pr_plant s) (pr_world s));
  plc_execute_locked x.
End plc.
