(* ===== verification/PlcRuns.v ===== *)
(** * What the virtual PLC guarantees

    What passes its table of checks, when it uses the plant, what its signed
    acknowledgments mean, and what holds over every run of calls and restarts.
    The plant is wrapped so that it logs every application, whatever it then
    does. *)
From S2P Require Import Prelude PyFloat PyStr PyTime PyJson Sha256 Crypto Models.
From S2P Require Import PhysicalModels PhysicalControl PhysicalDevice CapabilityModels DurableReplay SemanticReplay.
From S2P Require Import CapabilityPlc.

Section plc_runs.
Context {ED : Ed25519} {E : Env}.
Context {DSt : ModelDump PhysicalStateSnapshot} {DCo : ModelDump PhysicalControlCommand}
  {DAs : ModelDump CandidateAssessment} {DPe : ModelDump ExecutionPermit}
  {DPr : ModelDump ActionProposal} {DOb : ModelDump SignedObservationEnvelope}
  {DRq : ModelDump CapabilityActionRequest} {DCp : ModelDump CapabilityExecutionPermit}
  {DPa : ModelDump PlcCommandAcknowledgment}.

(** ** What passes the table of checks *)
Record plc_accepts (v : CapabilityVirtualPlc) (x : Transaction) (rd : string) (current : PhysicalStateSnapshot)
    (at_ : datetime) : Prop := {
  pl_permit : cp_verify (tx_permit x) (vp_permit_public_key v) = Ok true
    ∧ cp_signing_key_id (tx_permit x) = vp_permit_key_id v;
  pl_target : audience (tx_base x) = vp_plc_id v ∧ target_plc_id (tx_permit x) = vp_plc_id v
    ∧ target_plc_key_id (tx_permit x) = vp_acknowledgment_key_id v
    ∧ target_plc_boot_epoch (tx_permit x) = vp_boot_epoch v;
  pl_request : cp_request_digest (tx_permit x) = rd;
  pl_observation : observation_verify (tx_pre_observation x) (oi_public_key (vp_observer_info v)) = Ok true
    ∧ so_phase (tx_pre_observation x) = PRE_AUTHORIZATION
    ∧ (observer_id (tx_pre_observation x) = oi_observer_id (vp_observer_info v)
       ∧ observer_key_id (tx_pre_observation x) = oi_key_id (vp_observer_info v)
       ∧ observer_boot_epoch (tx_pre_observation x) = oi_boot_epoch (vp_observer_info v))
    ∧ (cp_observation_id (tx_permit x) = observation_id (tx_pre_observation x)
       ∧ cp_observation_envelope_digest (tx_permit x) = envelope_digest (tx_pre_observation x)
       ∧ cp_observer_id (tx_permit x) = observer_id (tx_pre_observation x)
       ∧ cp_observer_key_id (tx_permit x) = observer_key_id (tx_pre_observation x)
       ∧ cp_observer_boot_epoch (tx_permit x) = observer_boot_epoch (tx_pre_observation x))
    ∧ observation_challenge_nonce (tx_request x) = challenge_nonce (tx_pre_observation x)
    ∧ correlation_id (tx_request x) = so_correlation_id (tx_pre_observation x);
  pl_proposal : observed_state_version (rq_proposal (tx_request x)) = ps_state_version (snapshot (tx_pre_observation x))
    ∧ dt_eqb (proposal_observed_at (rq_proposal (tx_request x))) (ps_observed_at (snapshot (tx_pre_observation x))) = true
    ∧ pm_proposal_id (tx_base x) = proposal_id (rq_proposal (tx_request x))
    ∧ proposal_digest (rq_proposal (tx_request x)) = Ok (pm_proposal_digest (tx_base x));
  pl_window : (dt_utc (pm_issued_at (tx_base x)) <= dt_utc at_ < dt_utc (pm_expires_at (tx_base x)))%Z;
  pl_decision : outcome (tx_decision x) = PERMIT ∧ pm_decision_id (tx_base x) = decision_id (tx_decision x)
    ∧ decision_proposal_id (tx_decision x) = proposal_id (rq_proposal (tx_request x))
    ∧ evidence_record_hash (tx_decision x) = Some (pm_evidence_record_hash (tx_base x))
    ∧ pm_policy_version (tx_base x) = policy_version (tx_decision x)
    ∧ pm_safety_version (tx_base x) = safety_version (tx_decision x)
    ∧ pm_state_version (tx_base x) = state_version (tx_decision x);
  pl_candidate : as_safe (tx_assessment x) = true
    ∧ assessment_digest (tx_assessment x) = Ok (pm_assessment_digest (tx_base x))
    ∧ command_digest (pm_command (tx_base x)) = Ok (pm_command_digest (tx_base x))
    ∧ as_command_digest (tx_assessment x) = pm_command_digest (tx_base x)
    ∧ ps_state_digest (pre_state (tx_assessment x)) = pm_state_digest (tx_base x)
    ∧ ps_state_version (post_state (tx_assessment x)) = expected_post_state_version (tx_base x)
    ∧ ps_state_digest (post_state (tx_assessment x)) = expected_post_state_digest (tx_base x)
    ∧ ps_topology_digest (post_state (tx_assessment x)) = expected_post_topology_digest (tx_base x);
  pl_current : verify_digest current = Ok true ∧ ps_model_digest current = pm_model_digest (tx_base x)
    ∧ ps_topology_digest current = pm_topology_digest (tx_base x)
    ∧ ps_state_version current = pm_state_version (tx_base x)
    ∧ ps_state_digest current = pm_state_digest (tx_base x)
    ∧ ps_observation_digest current = pm_observation_digest (tx_base x);
}.

(** The conditions of a table, as one conjunction. *)
Fixpoint all_pass (checks : list (bool * string)) : Prop :=
  match checks with [] => True | c :: checks => c.1 = true ∧ all_pass checks end.
Lemma first_failure_all_pass checks : first_failure checks = None ↔ all_pass checks.
Proof using Type. induction checks as [|[[] r] checks IH]; cbn; naive_solver. Qed.

Lemma plc_checks_pass v x rd current at_ checks :
  plc_checks v x rd current at_ = Ok checks →
  first_failure checks = None ↔ plc_accepts v x rd current at_.
Proof using Type.
  unfold plc_checks. intros H. apply result_bind_Ok in H as (sg & Hsg & H).
  apply result_bind_Ok in H as (os & Hos & H). apply result_bind_Ok in H as (pd & Hpd & H).
  apply result_bind_Ok in H as (cd & Hcd & H). apply result_bind_Ok in H as (ad & Had & H).
  apply result_bind_Ok in H as (ck & Hck & H).
  injection H as <-. rewrite first_failure_all_pass. cbn [all_pass fst]. unfold dt_leb, dt_ltb. split.
  - intros H. destruct_and?. bool_split. split; split_and?; congruence || lia.
  - intros []. destruct_and?.
    repeat first [split; [first [done|apply bool_decide_eq_true; congruence|apply Z.eqb_eq; congruence
      |apply Z.leb_le; lia|apply Z.ltb_lt; lia|congruence]|]]. done.
Qed.

Context {R T : Type} {HR : ReplayStore R} {HL : ReplayStoreLaws R} {HPl : PlcPlant T}.

(** ** The logged plant *)
#[local] Instance logged_plc_plant : PlcPlant (T * list PhysicalControlCommand) := {|
  plc_read_state := on_inner plc_read_state;
  plc_simulate_candidate := λ c, on_inner (plc_simulate_candidate c);
  plc_apply := λ c ex, _ ← modify (λ s, (s.1, s.2 ++ [c])); on_inner (plc_apply c ex);
  plc_apply_with_deadline :=
    (λ apply c ex d, _ ← modify (λ s, (s.1, s.2 ++ [c])); on_inner (apply c ex d)) <$> plc_apply_with_deadline;
|}.
Abbreviation LRun := (PlcRun (R := R) (T := T * list PhysicalControlCommand)).
Definition plc_log (s : LRun) : list PhysicalControlCommand := (pr_plant s).2.

Lemma logged_apply x t l :
  apply_transaction x (t, l)
  = let '(r, t') := apply_transaction (HPl := HPl) x t in (r, (t', l ++ [pm_command (tx_base x)])).
Proof using Type.
  unfold apply_transaction. cbn [plc_apply_with_deadline logged_plc_plant plc_apply].
  destruct plc_apply_with_deadline; cbn [fmap option_fmap option_map]; unfold mbind, M_bind, modify, on_inner, zoom;
    cbn [fst snd]; by case_match.
Qed.

(** A step that applies nothing and forgets no reservation. *)
Definition kept (s s' : LRun) : Prop :=
  plc_log s' = plc_log s ∧ ∀ j, spent (pr_replay s) j → spent (pr_replay s') j.
#[local] Instance kept_preorder : PreOrder kept.
Proof using Type. split; [by split|]. intros x y z [? ?] [? ?]. split; [congruence|auto]. Qed.

Lemma kept_world {A} (m : M World A) : preserves kept (on_plc_world m).
Proof using Type. intros s. unfold on_plc_world, zoom. by destruct (m _). Qed.
Lemma kept_inner {A} (m : M T A) : preserves kept (on_plc_plant (on_inner m)).
Proof using Type. intros s. unfold on_plc_plant, on_inner, zoom. by destruct (m _). Qed.
Lemma kept_replay {A} (m : M R A) :
  (∀ j, preserves (λ s s', spent s j → spent s' j) m) → preserves kept (on_replay m).
Proof using Type.
  intros Hm s. unfold on_replay, zoom. destruct (m (pr_replay s)) as [r t] eqn:Em. split; [done|].
  intros j. specialize (Hm j (pr_replay s)). by rewrite Em in Hm.
Qed.
Lemma kept_reason i : preserves kept (on_replay (replay_reason i)).
Proof using Type. apply kept_replay. intros j. apply reason_keeps. Qed.
Lemma kept_reserve i : preserves kept (on_replay (reserve_ids i)).
Proof using Type. apply kept_replay. intros j. apply reserve_keeps. Qed.
Lemma kept_clock : preserves kept plc_clock.
Proof using Type. apply kept_world. Qed.
Lemma kept_read : preserves kept (on_plc_plant plc_read_state).
Proof using Type. apply kept_inner. Qed.
Lemma kept_simulate c : preserves kept (on_plc_plant (plc_simulate_candidate c)).
Proof using Type. apply kept_inner. Qed.
#[local] Hint Resolve kept_world kept_reason kept_reserve kept_clock kept_read kept_simulate : frames.
Lemma kept_acknowledge x st ph rs at_ pre post : preserves kept (plc_acknowledge x st ph rs at_ pre post).
Proof using Type. unfold plc_acknowledge. frame. Qed.
#[local] Hint Resolve kept_acknowledge : frames.
Lemma kept_reject x rs at_ pre : preserves kept (reject_transaction x rs at_ pre).
Proof using Type. apply kept_acknowledge. Qed.
#[local] Hint Resolve kept_reject : frames.
Lemma kept_conclude x current applied : preserves kept (conclude x current applied).
Proof using Type. unfold conclude. frame. Qed.
#[local] Hint Resolve kept_conclude : frames.

(** ** One call *)
(** The plant was asked once, to apply exactly the permitted command. *)
Definition sent (x : Transaction) (s s' : LRun) : Prop :=
  plc_log s' = plc_log s ++ [pm_command (tx_base x)] ∧ ∀ j, spent (pr_replay s) j → spent (pr_replay s') j.

(** What [apply_transaction] did, and what followed. *)
Lemma plc_dispatch_run x current (s : LRun) r s' :
  plc_dispatch x current s = (r, s') →
  sent x s s' ∧ ∃ answer t, apply_transaction (HPl := HPl) x (pr_plant s).1 = (answer, t)
    ∧ ((∃ e, answer = Raise e ∧ isinstance_exn e "Exception" = false ∧ r = Raise e)
       ∨ ∃ s1, pr_plc s1 = pr_plc s ∧ conclude x current answer s1 = (r, s')).
Proof using Type.
  unfold plc_dispatch, mbind, M_bind, attempt, on_plc_plant, zoom. intros H.
  destruct s as [v rp [t l] w]. cbn [pr_plant pr_plc pr_replay pr_world fst snd] in *.
  rewrite logged_apply in H. destruct (apply_transaction x t) as [answer t'] eqn:Ha.
  set (s1 := mk_PlcRun v rp (t', l ++ [pm_command (tx_base x)]) w).
  assert (H1 : sent x (mk_PlcRun v rp (t, l) w) s1) by by split.
  assert (Hk : ∀ a, conclude x current a s1 = (r, s') → sent x (mk_PlcRun v rp (t, l) w) s').
  { intros a Ha'. apply (preserves_run _ _ _ _ _ (kept_conclude x current a)) in Ha' as [Hl K].
    destruct H1 as [Hl1 K1]. split; [by rewrite Hl|auto]. }
  destruct answer as [post|e].
  - split; [by eapply Hk|]. eexists _, _. split; [reflexivity|]. right. by exists s1.
  - destruct (isinstance_exn e "Exception") eqn:He.
    + split; [by eapply Hk|]. eexists _, _. split; [reflexivity|]. right. by exists s1.
    + injection H as <- <-. split; [done|]. eexists _, _. split; [reflexivity|]. left. by exists e.
Qed.

(** Nothing after the reservation touches the replay store. *)
Definition same_replay (s s' : LRun) : Prop := pr_replay s' = pr_replay s.
#[local] Instance same_replay_preorder : PreOrder same_replay.
Proof using Type. unfold same_replay. split; [done|]. intros x y z. congruence. Qed.
Lemma same_replay_world {A} (m : M World A) : preserves same_replay (on_plc_world m).
Proof using Type. intros s. unfold same_replay, on_plc_world, zoom. by destruct (m _). Qed.
Lemma same_replay_plant {A} (m : M (T * list PhysicalControlCommand) A) : preserves same_replay (on_plc_plant m).
Proof using Type. intros s. unfold same_replay, on_plc_plant, zoom. by destruct (m _). Qed.
#[local] Hint Resolve same_replay_world same_replay_plant : frames.
Lemma dispatch_keeps_replay x current : preserves same_replay (plc_dispatch x current).
Proof using Type. unfold plc_dispatch, conclude, plc_acknowledge, plc_clock. frame. Qed.

(** The call ended by a rejection before the dispatch, made by the PLC [v]. *)
Definition rejected_before (v : CapabilityVirtualPlc) (x : Transaction) (r : result PlcCommandAcknowledgment)
    (s' : LRun) : Prop :=
  ∀ ack, r = Ok ack → ∃ s0 reason at_ current, pr_plc s0 = v
    ∧ reject_transaction x reason at_ current s0 = (Ok ack, s').

Lemma inner_keeps_plc {A} (m : M (T * list PhysicalControlCommand) A) (s : LRun) r s' :
  on_plc_plant m s = (r, s') → pr_plc s' = pr_plc s.
Proof using Type. unfold on_plc_plant, zoom. destruct (m _). by intros [= <- <-]. Qed.
Lemma clock_run (s : LRun) r s' :
  plc_clock s = (r, s') → r = Ok (clock_at (w_clock (pr_world s))) ∧ pr_plc s' = pr_plc s ∧ pr_plant s' = pr_plant s.
Proof using Type. unfold plc_clock, on_plc_world, zoom, now_utc. by intros [= <- <-]. Qed.

Lemma clock_state (s : LRun) r s' :
  plc_clock s = (r, s') → r = Ok (clock_at (w_clock (pr_world s)))
  ∧ s' = mk_PlcRun (pr_plc s) (pr_replay s) (pr_plant s) (mk_World (S (w_clock (pr_world s))) (w_uuid (pr_world s))).
Proof using Type. unfold plc_clock, on_plc_world, zoom, now_utc. by intros [= <- <-]. Qed.
Lemma plc_inner_run {A} (m : M T A) (s : LRun) r s' :
  on_plc_plant (on_inner m) s = (r, s') →
  ∃ t, m (pr_plant s).1 = (r, t) ∧ s' = mk_PlcRun (pr_plc s) (pr_replay s) (t, plc_log s) (pr_world s).
Proof using Type. unfold on_plc_plant, on_inner, zoom. destruct (m _) as [r0 t]. intros [= <- <-]. by exists t. Qed.
Lemma replay_run {A} (m : M R A) (s : LRun) r s' :
  on_replay m s = (r, s') →
  ∃ rp, m (pr_replay s) = (r, rp) ∧ s' = mk_PlcRun (pr_plc s) rp (pr_plant s) (pr_world s).
Proof using Type. unfold on_replay, zoom. destruct (m _) as [r0 rp]. intros [= <- <-]. by exists rp. Qed.

Ltac kept_step H a s1 Ha Hq :=
  let e := fresh "e" in let Hq1 := fresh "Hq1" in
  apply M_bind_case in H as [(e & -> & H)|(a & s1 & Ha & H)];
  [left; split; [etrans; [exact Hq|]; eapply preserves_run; [|exact H]; solve [eauto with frames]|by intros]
  |assert (Hq1 : kept _ s1) by (etrans; [exact Hq|]; eapply preserves_run; [|exact Ha]; solve [eauto with frames]);
   clear Hq; rename Hq1 into Hq].
Ltac kept_end H Hq :=
  left; split; [etrans; [exact Hq|]; eapply preserves_run; [|exact H]; solve [eauto with frames]
               |intros ack ->; eexists _, _, _, _; split; [|exact H]; done].

(** From the reservation on: either a rejection, or the reservation went through
    on exactly this store, the clock read next is before the expiry, and the
    dispatch follows. *)
Lemma reserve_and_dispatch_run x rd current (s : LRun) r s' :
  reserve_and_dispatch x rd current s = (r, s') →
  kept s s' ∧ rejected_before (pr_plc s) x r s'
  ∨ ∃ rp w, reserve_ids (tx_ids rd x) (pr_replay s) = (Ok tt, rp)
      ∧ (dt_utc (clock_at (w_clock (pr_world s))) < dt_utc (pm_expires_at (tx_base x)))%Z
      ∧ plc_dispatch x current (mk_PlcRun (pr_plc s) rp (pr_plant s) w) = (r, s').
Proof using Type.
  unfold reserve_and_dispatch. intros H. assert (Hq : kept s s) by done.
  apply M_bind_case in H as [(e & -> & H)|(reserved & s1 & Hr & H)].
  { left. split; [|by intros]. eapply preserves_run; [|exact H]. apply preserves_attempt; eauto with frames typeclass_instances. }
  apply attempt_Ok in Hr as [Hr _].
  assert (Hq1 : kept s s1) by (eapply preserves_run; [|exact Hr]; eauto with frames). clear Hq.
  apply replay_run in Hr as (rp & Hr & ->). destruct reserved as [[]|e].
  - apply M_bind_case in H as [(e & -> & H)|(final & s2 & Hf & H)]; [by apply clock_run in H as [[=] _]|].
    pose proof (preserves_run _ _ _ _ _ kept_clock Hf) as Hq2. apply clock_state in Hf as [[= ->] ->].
    destruct (dt_leb _ _) eqn:Hexp; [left|right].
    + split; [etrans; [exact Hq1|]; etrans; [exact Hq2|]; eapply preserves_run; [|exact H]; eauto with frames|].
      intros ack ->. by eexists _, _, _, _; split; [|exact H].
    + exists rp. eexists. split; [done|]. split; [|exact H]. unfold dt_leb in Hexp. apply Z.leb_gt in Hexp. exact Hexp.
  - destruct (isinstance_exn e "ValueError"); [|injection H as <- <-; by left].
    apply M_bind_case in H as [(e' & -> & H)|(at_ & s2 & Hf & H)]; [by apply clock_run in H as [[=] _]|].
    pose proof (preserves_run _ _ _ _ _ kept_clock Hf) as Hq2. apply clock_state in Hf as [_ ->]. left.
    split; [etrans; [exact Hq1|]; etrans; [exact Hq2|]; eapply preserves_run; [|exact H]; eauto with frames|].
    intros ack ->. by eexists _, _, _, _; split; [|exact H].
Qed.

(** What a call that reaches the plant went through, in this order: the plant
    reports [current] and becomes [t1]; the replay store answers that nothing is
    held and becomes [rp1]; the table of checks passes at the first clock reading;
    the fresh simulation answers [again] and leaves [t2]; the reservation takes
    [rp1] to [rp2]; and the third clock reading, after it, is before the expiry. *)
Record plc_reaches (x : Transaction) (s : LRun) (rd : string) (current : PhysicalStateSnapshot) (t1 : T)
    (again : CandidateAssessment) (t2 : T) (rp1 rp2 : R) : Prop := {
  pc_current : plc_read_state (pr_plant s).1 = (Ok current, t1);
  pc_digest : request_digest (tx_request x) = Ok rd;
  pc_unreplayed : replay_reason (tx_ids rd x) (pr_replay s) = (Ok None, rp1);
  pc_accepts : plc_accepts (count_call (pr_plc s)) x rd current (clock_at (w_clock (pr_world s)));
  pc_fresh : plc_simulate_candidate (pm_command (tx_base x)) t1 = (Ok again, t2);
  pc_repeats : candidate_repeats again (tx_assessment x) = true;
  pc_reserved : reserve_ids (tx_ids rd x) rp1 = (Ok tt, rp2);
  pc_expiry : (dt_utc (clock_at (S (S (w_clock (pr_world s))))) < dt_utc (pm_expires_at (tx_base x)))%Z;
}.

Lemma plc_execute_run x (s : LRun) r s' :
  plc_execute x s = (r, s') →
  kept s s' ∧ rejected_before (count_call (pr_plc s)) x r s'
  ∨ ∃ rd current t1 again t2 rp1 rp2 w, plc_reaches x s rd current t1 again t2 rp1 rp2
      ∧ plc_dispatch x current (mk_PlcRun (count_call (pr_plc s)) rp2 (t2, plc_log s) w) = (r, s').
Proof using Type.
  unfold plc_execute, plc_execute_locked. intros H. unfold mbind in H at 1. unfold M_bind in H at 1.
  cbn [modify] in H. set (s0 := mk_PlcRun (count_call (pr_plc s)) _ _ _) in H.
  assert (Hq : kept s s0) by done.
  kept_step H at_ s1 Hat Hq. apply clock_state in Hat as [[= ->] ->].
  kept_step H current s2 Hread Hq. apply plc_inner_run in Hread as (t1 & Hread & ->).
  kept_step H rd s3 Hrd Hq. apply lift_Ok in Hrd as [Hrd ->].
  kept_step H replayed s4 Hrep Hq. apply replay_run in Hrep as (rp1 & Hrep & ->).
  destruct replayed as [reason|]; [kept_end H Hq|].
  kept_step H s5 s5' Hget Hq. injection Hget as <- <-.
  kept_step H checks s6 Hc Hq. apply lift_Ok in Hc as [Hc ->].
  destruct (first_failure checks) as [reason|] eqn:Hff; [kept_end H Hq|].
  apply (plc_checks_pass _ _ _ _ _ _ Hc) in Hff.
  kept_step H again s7 Hsim Hq. apply plc_inner_run in Hsim as (t2 & Hsim & ->).
  kept_step H commit s8 Hcl Hq. apply clock_state in Hcl as [_ ->].
  destruct (candidate_repeats again (tx_assessment x)) eqn:Hr; cbn [negb] in H; [|kept_end H Hq].
  destruct (dt_leb _ _); [kept_end H Hq|].
  apply reserve_and_dispatch_run in H as [[Hk Hrej]|(rp2 & w & Hres & Hexp & Hd)]; [left|right].
  - split; [by etrans|done].
  - exists rd, current, t1, again, t2, rp1, rp2, w. by split.
Qed.
(** ** Runs, with restarts *)
Definition event_ids (x : Transaction) : ReplayIds :=
  tx_ids (match request_digest (tx_request x) with Ok d => d | Raise _ => "" end) x.

(** The reservation spends the transaction's identifiers, which nothing held, and
    forgets nothing. *)
Lemma plc_reaches_spends x s rd current t1 again t2 rp1 rp2 :
  plc_reaches x s rd current t1 again t2 rp1 rp2 →
  spent rp2 (tx_ids rd x) ∧ (∀ j, spent (pr_replay s) j → ids_distinct (tx_ids rd x) j)
  ∧ ∀ j, spent (pr_replay s) j → spent rp2 j.
Proof using Type.
  intros [_ _ Hrep _ _ _ Hres _].
  assert (Hs1 : ∀ j, spent (pr_replay s) j → spent rp1 j)
    by (intros j Hj; exact (preserves_run _ _ _ _ _ (reason_keeps _ j) Hrep Hj)).
  assert (Hs2 : ∀ j, spent rp1 j → spent rp2 j)
    by (intros j Hj; exact (preserves_run _ _ _ _ _ (reserve_keeps _ j) Hres Hj)).
  apply reserve_spends in Hres as [Hnew Hdis]. auto.
Qed.

(** One call: it applies nothing, or it was authorized, spent identifiers that no
    earlier reservation had, and was sent once. *)
Lemma plc_execute_step x (s : LRun) r s' :
  plc_execute x s = (r, s') →
  kept s s'
  ∨ sent x s s' ∧ spent (pr_replay s') (event_ids x)
    ∧ ∀ j, spent (pr_replay s) j → ids_distinct (event_ids x) j.
Proof using Type.
  intros [[Hk _]|(rd & current & t1 & again & t2 & rp1 & rp2 & w & Hr & Hd)]%plc_execute_run; [by left|right].
  apply plc_dispatch_run in Hd as [[Hl Hs] _]. destruct (plc_reaches_spends _ _ _ _ _ _ _ _ _ Hr) as (Hnew & Hdis & Hkeep).
  assert (event_ids x = tx_ids rd x) as -> by (unfold event_ids; by rewrite (pc_digest _ _ _ _ _ _ _ _ _ Hr)).
  split_and!; [split; [exact Hl|]|..]; auto.
Qed.

(** The calls of a run, each with whether it reached the plant.  Between calls the
    PLC may die and another one, of any identity, open the reservations again;
    and other actors may change the plant. *)
Inductive plc_run : LRun → list (Transaction * bool) → LRun → Prop :=
  | plc_run_nil s : plc_run s [] s
  | plc_run_call x s r s' es s'' :
      plc_execute x s = (r, s') → plc_run s' es s'' →
      plc_run s ((x, negb (bool_decide (plc_log s' = plc_log s))) :: es) s''
  | plc_run_restart v replay s es s'' :
      reopened (pr_replay s) replay → plc_run (mk_PlcRun v replay (pr_plant s) (pr_world s)) es s'' →
      plc_run s es s''
  | plc_run_plant t s es s'' :
      plc_run (mk_PlcRun (pr_plc s) (pr_replay s) (t, plc_log s) (pr_world s)) es s'' → plc_run s es s''.

Definition reached (es : list (Transaction * bool)) : list Transaction :=
  omap (λ '(x, b), if (b : bool) then Some x else None) es.

Lemma plc_run_fresh s es s' :
  plc_run s es s' →
  plc_log s' = plc_log s ++ ((λ x, pm_command (tx_base x)) <$> reached es)
  ∧ (∀ x j, x ∈ reached es → spent (pr_replay s) j → ids_distinct (event_ids x) j)
  ∧ ForallOrdPairs (flip ids_distinct) (event_ids <$> reached es).
Proof using Type.
  induction 1 as [s|x s r s' es s'' Hx _ (Hlog & Hdis & Hord)|v rp s es s'' Hr _ (Hlog & Hdis & Hord)|t s es s'' _ IH].
  - split_and!; [by rewrite app_nil_r|by intros ? ? ?%not_elem_of_nil|constructor].
  - apply plc_execute_step in Hx as [[Hl Hk]|([Hl Hk] & Hnew & Hfree)].
    + rewrite bool_decide_eq_true_2 by done. cbn. split_and!; [by rewrite Hlog, Hl|eauto|done].
    + rewrite bool_decide_eq_false_2 by (rewrite Hl; apply app_one_ne). cbn. split_and!.
      * by rewrite Hlog, Hl, <- app_assoc.
      * intros y j [->|Hy]%elem_of_cons Hj; [by apply Hfree|eauto].
      * constructor; [|done]. apply Forall_forall. intros i (y & -> & Hy)%list_elem_of_fmap. by apply Hdis.
  - split_and!; [exact Hlog| |done]. intros x j Hx Hj. apply (Hdis x j Hx). cbn. by eapply reopened_keeps.
  - exact IH.
Qed.
Lemma distinct_NoDup (f : ReplayIds → string) l :
  (∀ i j, ids_distinct i j → f i ≠ f j) → ForallOrdPairs (flip ids_distinct) l → NoDup (f <$> l).
Proof using Type.
  intros Hf. induction 1 as [|i l Hi _ IH]; cbn; constructor; [|done].
  intros (j & Hj & Hin)%list_elem_of_fmap. rewrite Forall_forall in Hi. by apply (Hf j i (Hi j Hin)).
Qed.

(** C21 Over every run of calls, PLC deaths, restarts under any identity and other
    changes of the plant, the plant is asked to apply exactly the commands of the
    calls that reached it, in order, and no request digest, permit, permit nonce
    or command reaches it twice. *)
Theorem plc_dispatches_once s es s' :
  plc_run s es s' →
  plc_log s' = plc_log s ++ ((λ x, pm_command (tx_base x)) <$> reached es)
  ∧ NoDup (ri_request_digest <$> (event_ids <$> reached es))
  ∧ NoDup (ri_permit_id <$> (event_ids <$> reached es))
  ∧ NoDup (ri_permit_nonce <$> (event_ids <$> reached es))
  ∧ NoDup (ri_command_id <$> (event_ids <$> reached es)).
Proof using HL.
  intros (Hlog & _ & Hord)%plc_run_fresh.
  split_and!; [done|apply distinct_NoDup; [|done]; unfold ids_distinct; naive_solver..].
Qed.

(** C22 The PLC asks the plant to apply only at a call whose permit verifies
    under the gateway's key and targets this PLC in this boot, whose observation
    the trusted observer signed before authorization for this very request, whose
    PERMIT decision, command and safe candidate the permit binds by digest, and
    whose authorized state is exactly the state the plant reported in this call;
    whose candidate the plant's own simulation, run in this call, repeats; and
    whose identifiers the replay store, which held none of them, reserved in this
    call; and only when the clock, read after that reservation, is still before
    the permit's expiry.  The plant is then asked once, in the state the
    simulation left, and whatever it answers the reservation stands. *)
Theorem plc_dispatch_authorized x s r s' :
  plc_execute x s = (r, s') → plc_log s' ≠ plc_log s →
  ∃ rd current t1 again t2 rp1 rp2 answer t',
    plc_reaches x s rd current t1 again t2 rp1 rp2
    ∧ (∀ j, spent (pr_replay s) j → ids_distinct (tx_ids rd x) j)
    ∧ apply_transaction (HPl := HPl) x t2 = (answer, t')
    ∧ sent x s s' ∧ pr_replay s' = rp2 ∧ spent (pr_replay s') (tx_ids rd x).
Proof using HL.
  intros [[[Hl _] _]|(rd & current & t1 & again & t2 & rp1 & rp2 & w & Hr & Hd)]%plc_execute_run; [done|]. intros _.
  destruct (plc_reaches_spends _ _ _ _ _ _ _ _ _ Hr) as (Hnew & Hdis & Hkeep).
  pose proof (preserves_run _ _ _ _ _ (dispatch_keeps_replay x current) Hd) as Hrp.
  apply plc_dispatch_run in Hd as ([Hl Hs] & answer & t' & Ha & _).
  exists rd, current, t1, again, t2, rp1, rp2, answer, t'. unfold same_replay in Hrp. cbn in *.
  split_and!; try done; [split; [exact Hl|auto]|]. by rewrite Hrp.
Qed.

(** ** What an acknowledgment says *)
Section acknowledgments.
Context {EL : Ed25519Laws}.
Hypothesis exclude_signature :
  ∀ a sig, pa_signing_payload (pa_with_signature a sig) = pa_signing_payload a.
Hypothesis sign_nonempty : ∀ k m, sign_bytes k m ≠ "".

(** The PLC's signature, instance and scan are on the acknowledgment, and the
    transaction's digests and identifiers. *)
Definition plc_ack_genuine (v : CapabilityVirtualPlc) (x : Transaction) (ack : PlcCommandAcknowledgment) : Prop :=
  pa_verify ack (public_of (vp_acknowledgment_private_key v)) = Ok true
  ∧ plc_id ack = vp_plc_id v ∧ plc_key_id ack = vp_acknowledgment_key_id v ∧ plc_boot_epoch ack = vp_boot_epoch v
  ∧ plc_scan ack = vp_scan_counter v
  ∧ request_digest (tx_request x) = Ok (pa_request_digest ack)
  ∧ capability_permit_digest (tx_permit x) = Ok (permit_digest ack)
  ∧ pa_permit_id ack = permit_id (tx_base x) ∧ pa_permit_nonce ack = permit_nonce (tx_base x)
  ∧ pa_command_id ack = command_id (pm_command (tx_base x))
  ∧ pa_command_digest ack = pm_command_digest (tx_base x).

Lemma plc_acknowledge_run x st ph rs at_ pre post (s : LRun) ack s' :
  plc_acknowledge x st ph rs at_ pre post s = (Ok ack, s') →
  plc_ack_genuine (pr_plc s) x ack ∧ pa_status ack = st ∧ dispatch_phase ack = ph ∧ pa_reason ack = rs
  ∧ pa_post_state_digest ack = ps_state_digest <$> post ∧ plc_log s' = plc_log s.
Proof using EL exclude_signature sign_nonempty HL.
  intros H. pose proof (preserves_run _ _ _ _ _ (kept_acknowledge x st ph rs at_ pre post) H) as [Hl _]. revert H.
  unfold plc_acknowledge. rewrite M_bind_Ok. intros (s0 & s1 & [= <- <-] & H).
  apply M_bind_Ok in H as (rd & s2 & [Hrd ->]%lift_Ok & H). apply M_bind_Ok in H as (pd & s2 & [Hpd ->]%lift_Ok & H).
  apply M_bind_Ok in H as (aid & s2 & _ & H). apply M_bind_Ok in H as (body & s3 & [Hb ->]%lift_Ok & H).
  apply lift_Ok in H as [Hs ->].
  assert (body = plc_acknowledgment_body (pr_plc s) aid rd pd (tx_permit x) st ph rs at_ pre post) as ->.
  { clear - Hb. unfold PlcCommandAcknowledgment_validate, closed in Hb. inv_ok. done. }
  unfold pa_signed in Hs. apply result_bind_Ok in Hs as (b & Hp & [= <-]).
  split; [|by split_and!]. unfold plc_ack_genuine. split; [|by split_and!].
  unfold pa_verify. rewrite exclude_signature. by apply signature_valid_sign.
Qed.

(** The plant's own answer to the one application. *)
Definition plc_plant_answer (x : Transaction) (answer : result PhysicalStateSnapshot) : Prop :=
  ∃ t t', apply_transaction (HPl := HPl) x t = (answer, t').

(** How status and phase relate to what reached the plant and what it said. *)
Definition plc_ack_effect (x : Transaction) (s s' : LRun) (ack : PlcCommandAcknowledgment) : Prop :=
  let applied := plc_log s' = plc_log s ++ [pm_command (tx_base x)] in
  match dispatch_phase ack with
  | PRE_DISPATCH => pa_status ack = REJECTED ∧ plc_log s' = plc_log s
  | KNOWN_NO_EFFECT => pa_status ack = REJECTED ∧ applied
      ∧ ∃ e, plc_plant_answer x (Raise e) ∧ isinstance_exn e "PhysicalSimulationError" = true ∧ pa_reason ack = exn_str e
  | COMMITTED => pa_status ack = APPLIED ∧ applied
      ∧ ∃ post, plc_plant_answer x (Ok post) ∧ readback_expected (tx_base x) post = true
                ∧ pa_post_state_digest ack = Some (expected_post_state_digest (tx_base x))
  | EFFECT_UNKNOWN => pa_status ack = UNKNOWN_EFFECT ∧ applied
      ∧ ∃ answer, plc_plant_answer x answer
          ∧ match answer with
            | Ok post => readback_expected (tx_base x) post = false
            | Raise e => isinstance_exn e "PhysicalSimulationError" = false
            end
  end.

Lemma conclude_ack x current answer (s0 s s' : LRun) ack :
  plc_plant_answer x answer → plc_log s = plc_log s0 ++ [pm_command (tx_base x)] →
  conclude x current answer s = (Ok ack, s') →
  plc_ack_genuine (pr_plc s) x ack ∧ plc_ack_effect x s0 s' ack.
Proof using EL exclude_signature sign_nonempty HL.
  intros Hans Hlog H. unfold conclude in H. destruct answer as [post|e].
  - apply M_bind_Ok in H as (at_ & s1 & Hc & H). pose proof (preserves_run _ _ _ _ _ kept_clock Hc) as [Hl1 _].
    apply clock_run in Hc as (_ & Hv & _).
    destruct (readback_expected (tx_base x) post) eqn:Hr; cbn [negb] in H;
      apply plc_acknowledge_run in H as (Hg & Hst & Hph & _ & Hpost & Hl); rewrite Hv in Hg; split; try exact Hg;
      unfold plc_ack_effect; rewrite Hph; (split; [done|]); (split; [by rewrite Hl, Hl1|]); [|by exists (Ok post)].
    exists post. split_and!; try done. rewrite Hpost. cbn. unfold readback_expected in Hr. bool_split. congruence.
  - destruct (isinstance_exn e "PhysicalSimulationError") eqn:He.
    + apply M_bind_Ok in H as (st & s1 & Hr & H).
      assert (Hs1 : kept s s1 ∧ pr_plc s1 = pr_plc s).
      { destruct (bool_decide _); [|by injection Hr as _ <-].
        split; [eapply preserves_run; [|exact Hr]; eauto with frames|by apply inner_keeps_plc in Hr]. }
      destruct Hs1 as [[Hl1 _] Hv1].
      apply M_bind_Ok in H as (at_ & s2 & Hc & H). pose proof (preserves_run _ _ _ _ _ kept_clock Hc) as [Hl2 _].
      apply clock_run in Hc as (_ & Hv & _). apply plc_acknowledge_run in H as (Hg & Hst & Hph & Hrs & _ & Hl).
      rewrite Hv, Hv1 in Hg. split; [exact Hg|]. unfold plc_ack_effect. rewrite Hph.
      split; [done|]. split; [congruence|]. by exists e.
    + apply M_bind_Ok in H as (at_ & s1 & Hc & H). pose proof (preserves_run _ _ _ _ _ kept_clock Hc) as [Hl1 _].
      apply clock_run in Hc as (_ & Hv & _). apply plc_acknowledge_run in H as (Hg & Hst & Hph & _ & _ & Hl).
      rewrite Hv in Hg. split; [exact Hg|]. unfold plc_ack_effect. rewrite Hph.
      split; [done|]. split; [congruence|]. by exists (Raise e).
Qed.

(** C23 Every acknowledgment a call returns is signed by this PLC in this boot
    and scan for exactly this transaction, and its phase tells the truth about the
    plant: PRE_DISPATCH when the plant was not asked, KNOWN_NO_EFFECT when it was
    asked and refused with its own error, COMMITTED when it was asked and answered
    the permitted post-state, and EFFECT_UNKNOWN when it was asked and either
    failed otherwise or answered another state. *)
Theorem plc_acknowledgment_truthful x s ack s' :
  plc_execute x s = (Ok ack, s') →
  plc_ack_genuine (count_call (pr_plc s)) x ack ∧ plc_ack_effect x s s' ack.
Proof using EL exclude_signature sign_nonempty HL.
  intros [[[Hl _] Hrej]|(rd & current & t1 & again & t2 & rp1 & rp2 & w & _ & Hd)]%plc_execute_run.
  - destruct (Hrej _ eq_refl) as (s0 & reason & at_ & current & Hv & H).
    apply plc_acknowledge_run in H as (Hg & Hst & Hph & _). rewrite Hv in Hg. split; [done|].
    unfold plc_ack_effect. by rewrite Hph.
  - unfold plc_dispatch in Hd. apply M_bind_Ok in Hd as (answer & s4 & Ha & Hd). apply attempt_Ok in Ha as [Ha _].
    unfold on_plc_plant, zoom in Ha. cbn [pr_plant] in Ha. rewrite logged_apply in Ha.
    destruct (apply_transaction x t2) as [an t'] eqn:Han. injection Ha as <- <-.
    eapply (conclude_ack x current an s) in Hd; [exact Hd|by eexists _, _|done].
Qed.
End acknowledgments.
End plc_runs.
