(* ===== verification/PlcDemo.v ===== *)
(** * The virtual PLC at concrete inputs

    The permit and the plant of [PhysicalDemo], a replay ledger on an empty disk:
    one transaction is carried out, the PLC dies, and after a restart in another
    process the same transaction is refused. *)
From S2P Require Import Prelude PyFloat PyStr PyTime PyJson Sha256 Crypto Models GatewayDemo.
From S2P Require Import PhysicalModels PhysicalControl PhysicalDevice PhysicalDemo CapabilityModels DurableReplay.
From S2P Require Import SemanticReplay CapabilityPlc PlcRuns.
Import DemoEd25519 ModelsDemo.
#[local] Existing Instance phys_env | 0.

(** ** JSON forms *)
#[local] Instance plc_observation_dump : ModelDump SignedObservationEnvelope := λ o, JObj
  [("observation_id", JStr (observation_id o)); ("challenge_nonce", JStr (challenge_nonce o));
   ("state_digest", JStr (ps_state_digest (CapabilityModels.snapshot o)));
   ("envelope_digest", JStr (envelope_digest o)); ("signature", JStr (so_signature o))].
#[local] Instance plc_request_dump : ModelDump CapabilityActionRequest := λ r, JObj
  [("request_id", JStr (request_id r)); ("observation", JStr (observation_envelope_digest r))].
#[local] Instance plc_permit_dump : ModelDump CapabilityExecutionPermit := λ p, JObj
  [("permit", model_dump (base_permit p)); ("request_digest", JStr (cp_request_digest p));
   ("signature", JStr (cp_signature p))].
#[local] Instance plc_ack_dump : ModelDump PlcCommandAcknowledgment := λ a, JObj
  [("acknowledgment_id", JStr (pa_acknowledgment_id a)); ("permit_digest", JStr (permit_digest a));
   ("reason", JStr (pa_reason a)); ("signature", JStr (pa_signature a))].

(** ** The transaction *)
Definition ok_or {A} (d : A) (r : result A) : A := match r with Ok a => a | Raise _ => d end.
Definition boot : string := "plc-boot-epoch-00001".
Definition raw_observation : SignedObservationEnvelope :=
  mk_SignedObservationEnvelope "" "" POST_DISPATCH "" "" "" "" 0 now f0 (sealed 1 [] false) None None None None "" "".
Definition demo_observation : SignedObservationEnvelope :=
  ok_or raw_observation (observation_issue (sealed 1 [] false) "transaction-1" PRE_AUTHORIZATION
    "challenge-0123456789" "observer-1" "observer-key-1" "observer-boot-000001" 1 None (None, None, None)
    "observer-key" (mk_World 0 30)).1.
Definition demo_request : CapabilityActionRequest :=
  mk_CapabilityActionRequest "request-1" "transaction-1" proposal (observation_id demo_observation)
    (envelope_digest demo_observation) "challenge-0123456789".
Definition unsigned_permit : CapabilityExecutionPermit :=
  mk_CapabilityExecutionPermit (permit_of demo_permit_run.1) (digest_or_zeros (request_digest demo_request))
    (observation_id demo_observation) (envelope_digest demo_observation) "observer-1" "observer-key-1"
    "observer-boot-000001" "device-1" "plc-key-1" boot "issuer-1" "".
Definition demo_transaction : Transaction :=
  mk_Transaction demo_request (ok_or unsigned_permit (cp_signed unsigned_permit "issuer-key")) demo_observation
    (demo_decision None) (demo_candidate (mk_DemoPlant 1 [] false)).

(** ** The PLC and its ledger *)
#[local] Instance plc_fs : FsEnv := {| write_outcome _ := Written; read_fails _ := false |}.
#[local] Instance plc_links : LinkEnv := {| link_target_exists _ := false |}.
Definition demo_plc : CapabilityVirtualPlc :=
  mk_CapabilityVirtualPlc (ED := demo_ed25519) "device-1" boot "issuer-1" "issuer-key"
    (mk_ObserverInfo (ED := demo_ed25519) "observer-1" "observer-key-1" "observer-boot-000001" "observer-key")
    "plc-key" "plc-key-1" 0 0.
#[local] Instance demo_plc_plant : PlcPlant DemoPlant := {|
  plc_read_state := λ t, (Ok (dp_read t), t);
  plc_simulate_candidate := PhysicalControl.simulate_candidate;
  plc_apply := λ c _ t, (Ok (dp_read (dp_next c t)), dp_next c t);
  plc_apply_with_deadline := Some (λ c _ _ t, (Ok (dp_read (dp_next c t)), dp_next c t));
|}.
#[local] Existing Instance logged_plc_plant | 0.
Definition no_ledger : SemanticLedger := mk_SemanticLedger None empty_reserved.
Definition opened_plc := semantic_open 1 true DurableDemo.empty_disk.
Definition plc_start : PlcRun (R := ProcessState) (T := DemoPlant * list PhysicalControlCommand) :=
  mk_PlcRun demo_plc (1%Z, (ok_or no_ledger opened_plc.1, opened_plc.2)) (mk_DemoPlant 1 [] false, []) (mk_World 12 40).
Definition plc_first := plc_execute demo_transaction plc_start.
(** The process dies; another one opens the ledger. *)
Definition reopen_in (pid : Z) (s : ProcessState) : result SemanticLedger * Disk :=
  semantic_open pid false (set_lock (dk_sidecar s.2.2) false s.2.2).
Definition restart (s : PlcRun (R := ProcessState) (T := DemoPlant * list PhysicalControlCommand)) : PlcRun :=
  let opened := reopen_in 2 (pr_replay s) in
  mk_PlcRun demo_plc (2%Z, (ok_or no_ledger opened.1, opened.2)) (pr_plant s) (pr_world s).
Definition plc_second := plc_execute demo_transaction (restart plc_first.2).

(** Comparing a run with its definition unfolds its name first. *)
#[local] Strategy expand [plc_first plc_second].

Definition ack_says (ph : DispatchPhase) (reason : string) (r : result PlcCommandAcknowledgment) : bool :=
  match r with
  | Ok a => bool_decide (dispatch_phase a = ph) && bool_decide (pa_reason a = reason)
  | Raise _ => false
  end.
Definition plc_facts : list bool := [
  is_Ok opened_plc.1;
  ack_says COMMITTED "command_applied_and_plc_read_back" plc_first.1;
  (length (plc_log plc_first.2) =? 1)%nat;
  is_Ok (reopen_in 2 (pr_replay plc_first.2)).1;
  ack_says PRE_DISPATCH "transaction_replayed" plc_second.1;
  (length (plc_log plc_second.2) =? 1)%nat].
Lemma plc_facts_hold : forallb id plc_facts = true.
Proof. vm_compute. reflexivity. Qed.
Lemma plc_fact n b : plc_facts !! n = Some b → b = true.
Proof.
  intros H. pose proof plc_facts_hold as F. rewrite forallb_forall in F. apply (F b).
  apply list_elem_of_In. by eapply list_elem_of_lookup_2.
Qed.

(** ** The theorems on this run *)
Lemma first_reached : plc_log plc_first.2 ≠ plc_log plc_start.
Proof.
  intros H%(f_equal length). pose proof (plc_fact 2 _ eq_refl) as L. apply Nat.eqb_eq in L.
  rewrite L in H. discriminate H.
Qed.
Abbreviation DemoRun := (PlcRun (R := ProcessState) (T := DemoPlant * list PhysicalControlCommand)).
Definition two_calls (x : Transaction) (s0 s1 s2 : DemoRun) : list (Transaction * bool) :=
  [(x, negb (bool_decide (plc_log s1 = plc_log s0))); (x, negb (bool_decide (plc_log s2 = plc_log (restart s1))))].
Definition plc_events : list (Transaction * bool) := two_calls demo_transaction plc_start plc_first.2 plc_second.2.
Lemma restart_reopens (s : DemoRun) :
  is_Ok (reopen_in 2 (pr_replay s)).1 = true → ledger_reopened (pr_replay s) (pr_replay (restart s)).
Proof.
  unfold restart. cbn [pr_replay]. destruct (reopen_in 2 (pr_replay s)) as [[o|e] d] eqn:Ho; [|done].
  intros _. exact (ledger_reopen 2 false _ o d Ho).
Qed.
Lemma two_calls_run x (s0 s1 s2 : DemoRun) r1 r2 :
  plc_execute x s0 = (r1, s1) → is_Ok (reopen_in 2 (pr_replay s1)).1 = true →
  plc_execute x (restart s1) = (r2, s2) → plc_run s0 (two_calls x s0 s1 s2) s2.
Proof.
  intros H1 Hr H2. eapply plc_run_call; [exact H1|].
  eapply (plc_run_restart demo_plc); [exact (restart_reopens _ Hr)|].
  eapply plc_run_call; [exact H2|]. apply plc_run_nil.
Qed.
Lemma plc_first_run : plc_execute demo_transaction plc_start = (plc_first.1, plc_first.2).
Proof. pose proof (surjective_pairing plc_first) as H. unfold plc_first at 1 in H. exact H. Qed.
Lemma plc_second_run : plc_execute demo_transaction (restart plc_first.2) = (plc_second.1, plc_second.2).
Proof. pose proof (surjective_pairing plc_second) as H. unfold plc_second at 1 in H. exact H. Qed.
Lemma plc_events_run : plc_run plc_start plc_events plc_second.2.
Proof.
  exact (two_calls_run demo_transaction plc_start plc_first.2 plc_second.2 plc_first.1 plc_second.1
           plc_first_run (plc_fact 3 _ eq_refl) plc_second_run).
Qed.
Lemma log_restart (s : DemoRun) : plc_log (restart s) = plc_log s.
Proof. reflexivity. Qed.
Lemma two_calls_log x (s0 s1 s2 : DemoRun) :
  plc_log s1 ≠ plc_log s0 → plc_log s2 = plc_log (restart s1) →
  snd <$> two_calls x s0 s1 s2 = [true; false] ∧ reached (two_calls x s0 s1 s2) = [x].
Proof. intros H1 H2. unfold two_calls. by rewrite bool_decide_eq_false_2, bool_decide_eq_true_2. Qed.
Lemma second_refused : plc_log plc_second.2 = plc_log (restart plc_first.2).
Proof.
  pose proof (surjective_pairing plc_second) as H2. unfold plc_second at 1 in H2.
  destruct (plc_execute_step _ _ _ _ H2) as [[H _]|[[H _] _]]; [exact H|].
  apply (f_equal length) in H. rewrite length_app in H.
  pose proof (plc_fact 5 _ eq_refl) as L2. pose proof (plc_fact 2 _ eq_refl) as L1.
  apply Nat.eqb_eq in L1, L2. rewrite log_restart, L1, L2 in H. discriminate H.
Qed.

(** Carried out once, refused after the restart. *)
Lemma plc_dispatches_once_witness :
  snd <$> plc_events = [true; false]
  ∧ plc_log plc_second.2 = [pm_command (tx_base demo_transaction)].
Proof.
  destruct (plc_dispatches_once _ _ _ plc_events_run) as [H _].
  destruct (two_calls_log demo_transaction _ _ _ first_reached second_refused) as [He Hr].
  split; [exact He|]. unfold plc_events in H. rewrite Hr in H. exact H.
Defined.

Lemma plc_dispatch_authorized_witness :
  ∃ rd current again, plc_accepts (count_call demo_plc) demo_transaction rd current (utc (t0 + seconds 12))
    ∧ plc_read_state (mk_DemoPlant 1 [] false) = (Ok current, mk_DemoPlant 1 [] false)
    ∧ ∃ t2, plc_simulate_candidate (pm_command (tx_base demo_transaction)) (mk_DemoPlant 1 [] false) = (Ok again, t2).
Proof.
  pose proof (surjective_pairing plc_first) as H1. unfold plc_first at 1 in H1.
  destruct (plc_dispatch_authorized _ _ _ _ H1 first_reached)
    as (rd & current & t1 & again & t2 & rp1 & rp2 & answer & t' & [Ht _ _ Ha Hf _ _ _] & _).
  exists rd, current, again. split; [exact Ha|]. cbn in Ht. injection Ht as <- <-. split; [reflexivity|]. by eexists.
Defined.

Lemma plc_exclude_signature (a : PlcCommandAcknowledgment) sig :
  pa_signing_payload (pa_with_signature a sig) = pa_signing_payload a.
Proof. reflexivity. Qed.
Definition plc_ack_of (r : result PlcCommandAcknowledgment) : PlcCommandAcknowledgment :=
  match r with
  | Ok a => a
  | Raise e => plc_acknowledgment_body demo_plc "" "" "" unsigned_permit REJECTED PRE_DISPATCH (exn_str e) now
      (sealed 1 [] false) None
  end.
Lemma said_Ok ph reason {S} (x : result PlcCommandAcknowledgment * S) :
  ack_says ph reason x.1 = true → x = (Ok (plc_ack_of x.1), x.2) ∧ dispatch_phase (plc_ack_of x.1) = ph.
Proof. destruct x as [[a|e] s]; [|done]. cbn. intros H. bool_split. done. Qed.
Lemma plc_acknowledgment_truthful_witness :
  dispatch_phase (plc_ack_of plc_first.1) = COMMITTED
  ∧ plc_ack_genuine (count_call demo_plc) demo_transaction (plc_ack_of plc_first.1)
  ∧ plc_ack_effect demo_transaction plc_start plc_first.2 (plc_ack_of plc_first.1).
Proof.
  destruct (said_Ok _ _ plc_first (plc_fact 1 _ eq_refl)) as [Hrun Hph]. unfold plc_first at 1 in Hrun.
  split; [exact Hph|].
  exact (plc_acknowledgment_truthful plc_exclude_signature demo_sign_nonempty _ _ _ _ Hrun).
Defined.
