(* ===== verification/CapabilityControl.v ===== *)
(** * The capability-separated closed loop
    ([src/src/aegis_ot/capability_control.py] and the result model of
    [capability_models.py])

    The coordinator holds no plant capability: it resolves a signed observation,
    decides on it, simulates, issues a permit, asks the PLC once, and reports
    COMPLETED only on two signed artifacts.  The observer, the simulator and the
    PLC are other processes behind [CapabilityPorts]; the evidence chain is the
    gateway's own, as the constructor demands. *)
From S2P Require Import Prelude PyFloat PyStr PyTime PyJson Sha256 Crypto Models.
From S2P Require Import Delegation Replay Policy Safety Evidence Admission Gateway.
From S2P Require Import PhysicalModels PhysicalControl CapabilityModels DurableReplay SemanticReplay CapabilityPlc.

Inductive CapabilityClosedLoopStatus :=
  | CAP_NOT_DISPATCHED | CAP_CANDIDATE_REJECTED | CAP_PLC_REJECTED | CAP_COMPLETED | CAP_UNKNOWN_EFFECT
  | CAP_OBSERVATION_DIVERGED.
#[export] Instance CapabilityClosedLoopStatus_eq_dec : EqDecision CapabilityClosedLoopStatus.
Proof. solve_decision. Defined.
Definition CapabilityClosedLoopStatus_value (s : CapabilityClosedLoopStatus) : string :=
  match s with
  | CAP_NOT_DISPATCHED => "not_dispatched" | CAP_CANDIDATE_REJECTED => "candidate_rejected"
  | CAP_PLC_REJECTED => "plc_rejected" | CAP_COMPLETED => "completed" | CAP_UNKNOWN_EFFECT => "unknown_effect"
  | CAP_OBSERVATION_DIVERGED => "observation_diverged"
  end.

(** ** The result *)
Record CapabilityClosedLoopResult := mk_CapabilityClosedLoopResult {
  cr_status : CapabilityClosedLoopStatus;
  cr_reasons : list string;
  cr_request : CapabilityActionRequest;
  cr_pre_observation : option SignedObservationEnvelope;
  cr_decision : option Decision;
  cr_command : option PhysicalControlCommand;
  cr_assessment : option CandidateAssessment;
  cr_permit : option CapabilityExecutionPermit;
  cr_acknowledgment : option PlcCommandAcknowledgment;
  cr_post_observation : option SignedObservationEnvelope;
  cr_last_observation : option SignedObservationEnvelope;
  cr_dispatch_attempts : Z;
  cr_execution_evidence_hash : string;
}.

(** ** The other processes *)
Record PostBindings := mk_PostBindings {
  pb_correlation_id : string;
  pb_challenge_nonce : string;
  pb_previous_envelope_digest : string;
  pb_permit_id : string;
  pb_command_digest : string;
  pb_plc_acknowledgment_digest : string;
}.
(** [ObservationPort], [CandidatePort] and [VirtualPlcPort]. *)
Class CapabilityPorts (X : Type) := {
  port_resolve : string → string → M X SignedObservationEnvelope;
  port_capture_post : PostBindings → M X SignedObservationEnvelope;
  port_simulate : PhysicalControlCommand → M X CandidateAssessment;
  port_execute : Transaction → M X PlcCommandAcknowledgment;
}.
(** The attributes [execute] looks for on what the PLC port raised:
    [known_no_effect is True], [dispatch_attempts] (1 when missing) and a
    [reason_code] that is a non-empty string. *)
Class ExnAttributes := {
  exn_known_no_effect : exn → bool;
  exn_dispatch_attempts : exn → Z;
  exn_reason_code : exn → option string;
}.
(** The [n]-th random draw as a token. *)
Class TokenEnv := { token_at : nat → string }.
Definition token_urlsafe `{TokenEnv} : M World string := λ w,
  (Ok (token_at (w_uuid w)), mk_World (w_clock w) (S (w_uuid w))).

Section capability_control.
Context {ED : Ed25519} {E : Env} {TE : TokenEnv} {XA : ExnAttributes}.
Context {DSt : ModelDump PhysicalStateSnapshot} {DCo : ModelDump PhysicalControlCommand}
  {DAs : ModelDump CandidateAssessment} {DPe : ModelDump ExecutionPermit}
  {DOb : ModelDump SignedObservationEnvelope} {DRq : ModelDump CapabilityActionRequest}
  {DCp : ModelDump CapabilityExecutionPermit} {DPa : ModelDump PlcCommandAcknowledgment}.
Context {I P G : Type} {HI : IdentityVerifier I} {HP : PolicyEngine P} {HG : AdmissionGate G}.
Context {DG : ModelDump DelegationGrant} {DP : ModelDump ActionProposal} {DD : ModelDump Decision}
  {DS : ModelDump SystemState} {DA : ModelDump DegradedAdmissionResult}.
Context {X : Type} {HX : CapabilityPorts X}.

(** *** [require_terminal_shape] *)
Definition signed_field (s : string) : bool := negb (bool_decide (s = "")).
Definition opt_holds {A} (p : A → bool) (o : option A) : bool := match o with Some a => p a | None => false end.
Definition ack_has (st : CommandStatus) (r : CapabilityClosedLoopResult) : bool :=
  opt_holds (λ a, bool_decide (pa_status a = st)) (cr_acknowledgment r).

Definition post_bindings_match (r : CapabilityClosedLoopResult) : result bool :=
  match cr_pre_observation r, cr_permit r, cr_acknowledgment r, cr_post_observation r with
  | Some pre, Some permit, Some ack, Some post =>
      let base := base_permit permit in
      if bool_decide (so_phase post = POST_DISPATCH)
         && bool_decide (so_correlation_id post = correlation_id (cr_request r))
         && bool_decide (so_permit_id post = Some (permit_id base))
         && bool_decide (so_command_digest post = Some (pm_command_digest base))
      then
        d ← pa_digest ack;
        Ok (bool_decide (plc_acknowledgment_digest post = Some d)
            && bool_decide (previous_envelope_digest post = Some (envelope_digest pre))
            && bool_decide (cp_observation_envelope_digest permit = envelope_digest pre))
      else Ok false
  | _, _, _, _ => Ok false
  end.
Definition post_state_expected (base : ExecutionPermit) (ack : PlcCommandAcknowledgment)
    (s : PhysicalStateSnapshot) : bool :=
  bool_decide (pa_post_state_digest ack = Some (ps_state_digest s))
  && bool_decide (pa_post_state_version ack = Some (ps_state_version s))
  && bool_decide (post_topology_digest ack = Some (ps_topology_digest s))
  && bool_decide (ps_state_digest s = expected_post_state_digest base)
  && (ps_state_version s =? expected_post_state_version base)%Z
  && bool_decide (ps_topology_digest s = expected_post_topology_digest base).
Definition post_state_matches_expected (r : CapabilityClosedLoopResult) : bool :=
  match cr_permit r, cr_acknowledgment r, cr_post_observation r with
  | Some permit, Some ack, Some post => post_state_expected (base_permit permit) ack (snapshot post)
  | _, _, _ => false
  end.
(** The four artifacts of a dispatch with a readback, each with a signature. *)
Definition artifacts_signed (r : CapabilityClosedLoopResult) : bool :=
  opt_holds (λ o, signed_field (so_signature o)) (cr_pre_observation r)
  && opt_holds (λ p, signed_field (cp_signature p)) (cr_permit r)
  && opt_holds (λ a, signed_field (pa_signature a)) (cr_acknowledgment r)
  && opt_holds (λ o, signed_field (so_signature o)) (cr_post_observation r).

Definition require_terminal_shape (r : CapabilityClosedLoopResult) : result unit :=
  let none {A} (o : option A) := bool_decide (o = None) in
  let attempts := cr_dispatch_attempts r in
  let has_permit := bool_decide (is_Some (cr_permit r)) in
  let has_ack := bool_decide (is_Some (cr_acknowledgment r)) in
  let no_post := bool_decide (¬ is_Some (cr_post_observation r)) in
  _ ← closed (has_permit || (attempts =? 0)%Z) "a result without a permit cannot report a dispatch attempt";
  _ ← closed (negb ((attempts =? 0)%Z && has_ack)) "an acknowledgment requires one dispatch attempt";
  match cr_status r with
  | CAP_NOT_DISPATCHED =>
      closed ((attempts =? 0)%Z && negb has_ack && no_post)
        "not-dispatched result cannot retain dispatch artifacts from an attempted dispatch"
  | CAP_CANDIDATE_REJECTED =>
      _ ← closed no_post "candidate-rejected result cannot retain a post observation";
      _ ← closed (negb ((attempts =? 0)%Z && (has_permit || has_ack)))
          "pre-dispatch candidate rejection cannot retain PLC artifacts";
      closed (negb (attempts =? 1)%Z
              || has_permit && ack_has REJECTED r
                 && opt_holds (λ a, signed_field (pa_signature a)) (cr_acknowledgment r))
        "PLC candidate rejection requires a signed rejected ACK"
  | CAP_COMPLETED =>
      _ ← closed (bool_decide (is_Some (cr_pre_observation r)) && bool_decide (is_Some (cr_decision r))
                  && bool_decide (is_Some (cr_command r)) && bool_decide (is_Some (cr_assessment r))
                  && has_permit && has_ack && negb no_post && (attempts =? 1)%Z)
          "completed result requires the complete dual-evidence path";
      _ ← closed (ack_has APPLIED r) "completed result requires an applied PLC acknowledgment";
      _ ← closed (artifacts_signed r) "completed result requires present evidence signatures";
      bound ← post_bindings_match r;
      _ ← closed bound "completed result requires exact post-observation bindings";
      closed (post_state_matches_expected r) "completed observer state must match the PLC acknowledgment"
  | CAP_PLC_REJECTED =>
      closed (ack_has REJECTED r && has_permit && (attempts =? 1)%Z
              && opt_holds (λ a, signed_field (pa_signature a)) (cr_acknowledgment r)
              && opt_holds (λ p, signed_field (cp_signature p)) (cr_permit r) && no_post)
        "PLC-rejected result requires a signed rejected acknowledgment"
  | CAP_OBSERVATION_DIVERGED =>
      _ ← closed (bool_decide (is_Some (cr_pre_observation r)) && has_permit && negb no_post && (attempts =? 1)%Z
                  && ack_has APPLIED r)
          "observation divergence requires both signed evidence artifacts";
      _ ← closed (artifacts_signed r) "observation divergence requires present evidence signatures";
      bound ← post_bindings_match r;
      _ ← closed bound "observation divergence requires exact post-observation bindings";
      closed (negb (post_state_matches_expected r)) "observation divergence requires a signed state contradiction"
  | CAP_UNKNOWN_EFFECT =>
      _ ← closed no_post "unknown effect cannot assert a verified post-observation";
      closed (has_permit && (attempts =? 1)%Z) "unknown effect requires one consequential dispatch attempt"
  end.
Definition CapabilityClosedLoopResult_validate (r : CapabilityClosedLoopResult) :
    result CapabilityClosedLoopResult :=
  _ ← closed ((1 <=? Z.of_nat (length (cr_reasons r)))%Z && (0 <=? cr_dispatch_attempts r)%Z
              && (cr_dispatch_attempts r <=? 1)%Z && is_sha256 (cr_execution_evidence_hash r))
      "field constraint";
  _ ← require_terminal_shape r;
  Ok r.

(** ** Permits *)
Record CapabilityPermitIssuer := mk_CapabilityPermitIssuer {
  ci_base_issuer : ExecutionPermitIssuer;
  ci_target_plc : PlcTarget;
}.
(** The signer is the base issuer's own, as the constructor demands. *)
Definition rotate_target (t : PlcTarget) (i : CapabilityPermitIssuer) : CapabilityPermitIssuer :=
  mk_CapabilityPermitIssuer (ci_base_issuer i) t.

Definition pre_state_is (a : CandidateAssessment) (s : PhysicalStateSnapshot) : bool :=
  (ps_state_version (pre_state a) =? ps_state_version s)%Z
  && bool_decide (ps_state_digest (pre_state a) = ps_state_digest s)
  && bool_decide (ps_observation_digest (pre_state a) = ps_observation_digest s)
  && bool_decide (ps_topology_digest (pre_state a) = ps_topology_digest s)
  && bool_decide (ps_model_digest (pre_state a) = ps_model_digest s).
Definition capability_issue (i : CapabilityPermitIssuer) (chain : EvidenceChain) (rq : CapabilityActionRequest)
    (o : SignedObservationEnvelope) (d : Decision) (c : PhysicalControlCommand) (a : CandidateAssessment) :
    M World CapabilityExecutionPermit :=
  _ ← lift (issue_require (bool_decide (rq_observation_id rq = observation_id o)
                           && bool_decide (CapabilityModels.observation_envelope_digest rq = envelope_digest o)
                           && bool_decide (observation_challenge_nonce rq = challenge_nonce o))
              "request_observation_binding_mismatch");
  _ ← lift (issue_require (pre_state_is a (snapshot o)) "candidate_signed_observation_mismatch");
  base ← issue (ci_base_issuer i) chain (rq_proposal rq) d c a;
  rd ← lift (request_digest rq);
  permit ← lift (CapabilityExecutionPermit_validate
    (mk_CapabilityExecutionPermit base rd (observation_id o) (envelope_digest o) (observer_id o)
       (observer_key_id o) (observer_boot_epoch o) (tg_plc_id (ci_target_plc i)) (tg_plc_key_id (ci_target_plc i))
       (tg_plc_boot_epoch (ci_target_plc i)) (pm_signing_key_id base) ""));
  lift (cp_signed permit (issuer_key (ci_base_issuer i))).

(** ** The observation verifier *)
Record PlantProcessInfo := mk_PlantProcessInfo {
  pi_observation_source_id : string;
  pi_model_digest : string;
  pi_simulator_version : string;
}.
Record SignedObservationVerifier := mk_SignedObservationVerifier {
  ov_observer_info : ObserverInfo;
  ov_plant_info : PlantProcessInfo;
  ov_maximum_age : timedelta;
  ov_last_sequence : Z;
  ov_accepted_challenges : gset string;
}.
Definition SignedObservationVerifier_init (info : ObserverInfo) (plant : PlantProcessInfo) (age : timedelta) :
    result SignedObservationVerifier :=
  _ ← require (0 <? age)%Z "ValueError" "maximum observation age must be positive";
  Ok (mk_SignedObservationVerifier info plant age 0 ∅).
Definition accept_observation (o : SignedObservationEnvelope) (v : SignedObservationVerifier) :
    SignedObservationVerifier :=
  mk_SignedObservationVerifier (ov_observer_info v) (ov_plant_info v) (ov_maximum_age v) (observer_sequence o)
    ({[challenge_nonce o]} ∪ ov_accepted_challenges v).

Definition common_flags (v : SignedObservationVerifier) (o : SignedObservationEnvelope) (at_ : datetime) :
    result (list (bool * string)) :=
  let info := ov_observer_info v in
  let s := snapshot o in
  signed ← observation_verify o (oi_public_key info);
  valid ← verify_digest s;
  let age := dt_sub at_ (captured_at o) in
  Ok [(negb (bool_decide (observer_id o = oi_observer_id info)), "observation_source_mismatch");
      (negb (bool_decide (observer_key_id o = oi_key_id info)), "observation_key_mismatch");
      (negb (bool_decide (observer_boot_epoch o = oi_boot_epoch info)), "observation_boot_mismatch");
      (negb signed, "observation_signature_invalid");
      (negb (bool_decide (ps_observation_source_id s = pi_observation_source_id (ov_plant_info v))),
       "plant_observation_source_mismatch");
      (negb (bool_decide (ps_model_digest s = pi_model_digest (ov_plant_info v))), "plant_model_digest_mismatch");
      (negb (bool_decide (ps_simulator_version s = pi_simulator_version (ov_plant_info v))),
       "plant_simulator_version_mismatch");
      (negb valid, "observation_state_digest_invalid");
      ((age <? 0)%Z, "observation_from_future");
      ((0 <=? age)%Z && (ov_maximum_age v <? age)%Z, "observation_stale");
      ((observer_sequence o <=? ov_last_sequence v)%Z, "observation_sequence_regressed");
      (bool_decide (challenge_nonce o ∈ ov_accepted_challenges v), "observation_challenge_replayed")].

(** What both end with: no reason accepts the observation. *)
Definition settle (o : SignedObservationEnvelope) (flags : list (bool * string)) :
    M SignedObservationVerifier (list string) :=
  match collect flags with
  | [] => _ ← modify (accept_observation o); mret []
  | reasons => mret reasons
  end.
Definition verify_pre (o : SignedObservationEnvelope) (rq : CapabilityActionRequest) (at_ : datetime) :
    M SignedObservationVerifier (list string) :=
  v ← get;
  common ← lift (common_flags v o at_);
  let p := rq_proposal rq in
  settle o (common ++
    [(negb (bool_decide (so_phase o = PRE_AUTHORIZATION)), "observation_phase_mismatch");
     (negb (bool_decide (observation_id o = rq_observation_id rq)), "observation_id_mismatch");
     (negb (bool_decide (envelope_digest o = CapabilityModels.observation_envelope_digest rq)),
      "observation_envelope_digest_mismatch");
     (negb (bool_decide (challenge_nonce o = observation_challenge_nonce rq)), "observation_challenge_mismatch");
     (negb (bool_decide (so_correlation_id o = correlation_id rq)), "observation_correlation_mismatch");
     (negb (observed_state_version p =? ps_state_version (snapshot o))%Z, "proposal_observation_version_mismatch");
     (negb (dt_eqb (proposal_observed_at p) (ps_observed_at (snapshot o))), "proposal_observation_time_mismatch")]).
Definition verify_post (o : SignedObservationEnvelope) (rq : CapabilityActionRequest)
    (permit : CapabilityExecutionPermit) (ack : PlcCommandAcknowledgment) (nonce : string) (at_ : datetime) :
    M SignedObservationVerifier (list string) :=
  v ← get;
  common ← lift (common_flags v o at_);
  let base := base_permit permit in
  ad ← lift (pa_digest ack);
  settle o (common ++
    [(negb (bool_decide (so_phase o = POST_DISPATCH)), "post_observation_phase_mismatch");
     (negb (bool_decide (so_correlation_id o = correlation_id rq)), "post_observation_correlation_mismatch");
     (negb (bool_decide (challenge_nonce o = nonce)), "post_observation_challenge_mismatch");
     (negb (bool_decide (so_permit_id o = Some (permit_id base))), "post_observation_permit_mismatch");
     (negb (bool_decide (so_command_digest o = Some (pm_command_digest base))), "post_observation_command_mismatch");
     (negb (bool_decide (plc_acknowledgment_digest o = Some ad)), "post_observation_acknowledgment_mismatch");
     (negb (bool_decide (previous_envelope_digest o = Some (cp_observation_envelope_digest permit))),
      "post_observation_previous_envelope_mismatch");
     (dt_ltb (captured_at o) (acknowledged_at ack), "post_observation_precedes_acknowledgment")]).

(** ** The controller *)
Record CapabilityClosedLoopController := mk_CapabilityClosedLoopController {
  cc_gateway : AegisGateway I P;
  cc_bindings : gmap string ResourceBinding;
  cc_permit_issuer : CapabilityPermitIssuer;
  cc_plc_info : PlcTarget;
  cc_plc_public_key : public_key;
}.
(** What a call changes: the gateway's state (with the evidence chain and the
    clock), the verifier and the other processes. *)
Record ControlState := mk_ControlState {
  ct_gateway : GatewayState (G := G);
  ct_verifier : SignedObservationVerifier;
  ct_ports : X;
}.
Definition on_ct_gateway {A} (m : M (GatewayState (G := G)) A) : M ControlState A :=
  zoom ct_gateway (λ g s, mk_ControlState g (ct_verifier s) (ct_ports s)) m.
Definition on_ct_verifier {A} (m : M SignedObservationVerifier A) : M ControlState A :=
  zoom ct_verifier (λ v s, mk_ControlState (ct_gateway s) v (ct_ports s)) m.
Definition on_ports {A} (m : M X A) : M ControlState A :=
  zoom ct_ports (λ x s, mk_ControlState (ct_gateway s) (ct_verifier s) x) m.
Definition ct_clock : M ControlState datetime := on_ct_gateway (on_world now_utc).

(** *** [_record] *)
Definition model_or_null {A} `{ModelDump A} (o : option A) : json :=
  match o with Some a => model_dump a | None => JNull end.
Definition capability_payload (r : CapabilityClosedLoopResult) : json :=
  JObj [("event_type", JStr "capability_closed_loop_disposition");
        ("coordination_backend", JStr "deterministic-local-v1");
        ("status", JStr (CapabilityClosedLoopStatus_value (cr_status r)));
        ("reasons", JArr (JStr <$> cr_reasons r));
        ("dispatch_attempts", JInt (cr_dispatch_attempts r));
        ("automatic_retry_count", JInt 0);
        ("request", model_dump (cr_request r));
        ("pre_observation", model_or_null (cr_pre_observation r));
        ("decision", model_or_null (cr_decision r));
        ("command", model_or_null (cr_command r));
        ("assessment", model_or_null (cr_assessment r));
        ("permit", model_or_null (cr_permit r));
        ("acknowledgment", model_or_null (cr_acknowledgment r));
        ("post_observation", model_or_null (cr_post_observation r));
        ("last_observation", model_or_null (cr_last_observation r))].
Definition with_record_hash (r : CapabilityClosedLoopResult) (h : string) : CapabilityClosedLoopResult :=
  mk_CapabilityClosedLoopResult (cr_status r) (cr_reasons r) (cr_request r) (cr_pre_observation r) (cr_decision r)
    (cr_command r) (cr_assessment r) (cr_permit r) (cr_acknowledgment r) (cr_post_observation r)
    (cr_last_observation r) (cr_dispatch_attempts r) h.
(** Its keyword arguments are the fields of [r]. *)
Definition record_result (r : CapabilityClosedLoopResult) : M ControlState CapabilityClosedLoopResult :=
  rec ← on_ct_gateway (on_evidence (EvidenceChain_append (proposal_id (rq_proposal (cr_request r)))
          (match cr_decision r with
           | Some d => decision_id d | None => "not-issued:" +:+ request_id (cr_request r) end)
          (capability_payload r)));
  lift (CapabilityClosedLoopResult_validate (with_record_hash r (record_hash rec))).

(** What a call has established so far. *)
Record Progress := mk_Progress {
  pg_pre : option SignedObservationEnvelope;
  pg_decision : option Decision;
  pg_command : option PhysicalControlCommand;
  pg_assessment : option CandidateAssessment;
  pg_permit : option CapabilityExecutionPermit;
}.
Definition nothing_yet : Progress := mk_Progress None None None None None.
Definition undispatched_result (st : CapabilityClosedLoopStatus) (rs : list string) (rq : CapabilityActionRequest)
    (pg : Progress) (last_ : option SignedObservationEnvelope) : CapabilityClosedLoopResult :=
  mk_CapabilityClosedLoopResult st rs rq (pg_pre pg) (pg_decision pg) (pg_command pg) (pg_assessment pg)
    (pg_permit pg) None None last_ 0 "".
Definition dispatched_result (st : CapabilityClosedLoopStatus) (rs : list string) (rq : CapabilityActionRequest)
    (pg : Progress) (ack : option PlcCommandAcknowledgment) (post last_ : option SignedObservationEnvelope) :
    CapabilityClosedLoopResult :=
  mk_CapabilityClosedLoopResult st rs rq (pg_pre pg) (pg_decision pg) (pg_command pg) (pg_assessment pg)
    (pg_permit pg) ack post last_ 1 "".

(** *** After an applied acknowledgment *)
(** Revalidating the dump of an observation raises [ValidationError] for every
    [ValueError] of its checks. *)
Definition retained_observation (o fallback : SignedObservationEnvelope) : result SignedObservationEnvelope :=
  match (_ ← PhysicalStateSnapshot_validate (snapshot o); SignedObservationEnvelope_validate o) with
  | Ok _ => Ok o
  | Raise e => if isinstance_exn e "ValueError" then Ok fallback else Raise e
  end.
Definition conclude_post (rq : CapabilityActionRequest) (pg : Progress) (observed : SignedObservationEnvelope)
    (permit : CapabilityExecutionPermit) (ack : PlcCommandAcknowledgment) (nonce : string)
    (post : SignedObservationEnvelope) : M ControlState CapabilityClosedLoopResult :=
  now ← ct_clock;
  post_reasons ← on_ct_verifier (verify_post post rq permit ack nonce now);
  match post_reasons with
  | [] =>
      if negb (post_state_expected (base_permit permit) ack (snapshot post))
      then record_result (dispatched_result CAP_OBSERVATION_DIVERGED ["signed_post_observation_contradiction"] rq pg
             (Some ack) (Some post) (Some post))
      else record_result (dispatched_result CAP_COMPLETED ["plc_acknowledgment_and_signed_post_observation_match"] rq
             pg (Some ack) (Some post) (Some post))
  | _ =>
      retained ← lift (retained_observation post observed);
      record_result (dispatched_result CAP_UNKNOWN_EFFECT ("post_observation_invalid" :: post_reasons) rq pg
        (Some ack) None (Some retained))
  end.
Definition observe_post (rq : CapabilityActionRequest) (pg : Progress) (observed : SignedObservationEnvelope)
    (permit : CapabilityExecutionPermit) (ack : PlcCommandAcknowledgment) :
    M ControlState CapabilityClosedLoopResult :=
  nonce ← on_ct_gateway (on_world token_urlsafe);
  captured ← attempt (
    ad ← lift (pa_digest ack);
    on_ports (port_capture_post (mk_PostBindings (correlation_id rq) nonce (envelope_digest observed)
      (permit_id (base_permit permit)) (pm_command_digest (base_permit permit)) ad)));
  match captured with
  | Raise e =>
      record_result (dispatched_result CAP_UNKNOWN_EFFECT ["post_observation_unavailable"; exn_type e] rq pg
        (Some ack) None (Some observed))
  | Ok post => conclude_post rq pg observed permit ack nonce post
  end.

(** *** From the permit on: one [plc.execute] *)
(** What the port raised: surely no dispatch, or unknown. *)
Definition dispatch_failed (rq : CapabilityActionRequest) (pg : Progress) (observed : SignedObservationEnvelope)
    (e : exn) : CapabilityClosedLoopResult :=
  if exn_known_no_effect e && (exn_dispatch_attempts e =? 0)%Z
  then undispatched_result CAP_NOT_DISPATCHED
         [default "plc_dispatch_rejected_before_effect" (exn_reason_code e); exn_type e] rq pg (Some observed)
  else dispatched_result CAP_UNKNOWN_EFFECT ["plc_dispatch_outcome_unavailable"; exn_type e] rq pg None None
         (Some observed).
Definition conclude_acknowledgment (cc : CapabilityClosedLoopController) (rq : CapabilityActionRequest)
    (pg : Progress) (observed : SignedObservationEnvelope) (permit : CapabilityExecutionPermit)
    (ack : PlcCommandAcknowledgment) : M ControlState CapabilityClosedLoopResult :=
  valid ← lift (pa_verify_for_transaction ack (cc_plc_public_key cc) rq permit observed (cc_plc_info cc));
  let acked st rs := record_result (dispatched_result st rs rq pg (Some ack) None (Some observed)) in
  if negb valid then acked CAP_UNKNOWN_EFFECT ["plc_acknowledgment_invalid"]
  else match pa_status ack with
       | REJECTED => acked (if bool_decide (pa_reason ack = "candidate_attestation_mismatch")
                            then CAP_CANDIDATE_REJECTED else CAP_PLC_REJECTED) [pa_reason ack]
       | UNKNOWN_EFFECT => acked CAP_UNKNOWN_EFFECT [pa_reason ack]
       | APPLIED => observe_post rq pg observed permit ack
       end.
Definition dispatch_to_plc (cc : CapabilityClosedLoopController) (rq : CapabilityActionRequest)
    (observed : SignedObservationEnvelope) (d : Decision) (c : PhysicalControlCommand) (a : CandidateAssessment)
    (permit : CapabilityExecutionPermit) : M ControlState CapabilityClosedLoopResult :=
  let pg := mk_Progress (Some observed) (Some d) (Some c) (Some a) (Some permit) in
  acked ← attempt (on_ports (port_execute (mk_Transaction rq permit observed d a)));
  match acked with
  | Raise e => record_result (dispatch_failed rq pg observed e)
  | Ok ack => conclude_acknowledgment cc rq pg observed permit ack
  end.

(** *** From a PERMIT on *)
Definition candidate_matches (cd : string) (a : CandidateAssessment) (s : PhysicalStateSnapshot) : bool :=
  bool_decide (as_command_digest a = cd) && pre_state_is a s.
Definition permitted_request (cc : CapabilityClosedLoopController) (rq : CapabilityActionRequest)
    (observed : SignedObservationEnvelope) (d : Decision) : M ControlState CapabilityClosedLoopResult :=
  let stop st rs pg := record_result (undispatched_result st rs rq pg (Some observed)) in
  translated ← attempt (on_ct_gateway (on_world (translate (cc_bindings cc) (rq_proposal rq))));
  match translated with
  | Raise e => stop CAP_NOT_DISPATCHED ["command_translation_failed"; exn_type e]
                 (mk_Progress (Some observed) (Some d) None None None)
  | Ok c =>
      simulated ← attempt (on_ports (port_simulate c));
      match simulated with
      | Raise e => stop CAP_NOT_DISPATCHED ["candidate_simulation_unavailable"; exn_type e]
                     (mk_Progress (Some observed) (Some d) (Some c) None None)
      | Ok a =>
          cd ← lift (command_digest c);
          let pg := mk_Progress (Some observed) (Some d) (Some c) (Some a) None in
          if negb (as_safe a) || negb (candidate_matches cd a (snapshot observed))
          then stop CAP_CANDIDATE_REJECTED
                 (if negb (as_safe a) then as_reasons a else ["candidate_binding_mismatch"]) pg
          else
            s ← get;
            issued ← attempt (on_ct_gateway (on_world
              (capability_issue (cc_permit_issuer cc) (gs_evidence (ct_gateway s)) rq observed d c a)));
            match issued with
            | Raise e => stop CAP_NOT_DISPATCHED ["permit_issuance_failed"; exn_type e] pg
            | Ok permit => dispatch_to_plc cc rq observed d c a permit
            end
      end
  end.

(** *** [_execute_locked] *)
Definition decide_observed (cc : CapabilityClosedLoopController) (rq : CapabilityActionRequest)
    (observed : SignedObservationEnvelope) (at_ : datetime) : M ControlState CapabilityClosedLoopResult :=
  let stop rs d := record_result (undispatched_result CAP_NOT_DISPATCHED rs rq
                     (mk_Progress (Some observed) d None None None) (Some observed)) in
  converted ← attempt (lift (physical_state_to_gateway_state (snapshot observed)));
  match converted with
  | Raise e => stop ["gateway_state_conversion_failed"; exn_type e] None
  | Ok state =>
      decided ← attempt (on_ct_gateway (decide (cc_gateway cc) (rq_proposal rq) state (Some at_)));
      match decided with
      | Raise e => stop ["authorization_decision_unavailable"; exn_type e] None
      | Ok d => if negb (bool_decide (outcome d = PERMIT)) then stop (decision_reasons d) (Some d)
                else permitted_request cc rq observed d
      end
  end.
Definition capability_execute (cc : CapabilityClosedLoopController) (rq : CapabilityActionRequest) :
    M ControlState CapabilityClosedLoopResult :=
  resolved ← attempt (on_ports (port_resolve (rq_observation_id rq)
                                  (CapabilityModels.observation_envelope_digest rq)));
  match resolved with
  | Raise e => record_result (undispatched_result CAP_NOT_DISPATCHED ["pre_observation_unavailable"; exn_type e] rq
                 nothing_yet None)
  | Ok observed =>
      evaluated_at ← ct_clock;
      reasons ← on_ct_verifier (verify_pre observed rq evaluated_at);
      match reasons with
      | [] => decide_observed cc rq observed evaluated_at
      | _ => record_result (undispatched_result CAP_NOT_DISPATCHED reasons rq nothing_yet (Some observed))
      end
  end.
End capability_control.
