(* ===== verification/CapabilityLoop.v ===== *)
(** * What the capability-separated loop guarantees

    The verifier accepts genuine, fresh observations and never one twice; a call
    asks the PLC at most once; and COMPLETED means that every link from the signed
    pre-observation to the signed post-observation holds. *)
From stdpp Require Import sorting.
From S2P Require Import Prelude PyFloat PyStr PyTime PyJson Sha256 Crypto Models.
From S2P Require Import Delegation Replay Policy Safety Evidence Admission Gateway.
From S2P Require Import PhysicalModels PhysicalControl CapabilityModels DurableReplay SemanticReplay CapabilityPlc.
From S2P Require Import CapabilityControl.

(** The conditions of a table of flags, none raised. *)
Fixpoint all_clear (flags : list (bool * string)) : Prop :=
  match flags with [] => True | f :: flags => f.1 = false ∧ all_clear flags end.
Lemma collect_all_clear flags : collect flags = [] ↔ all_clear flags.
Proof.
  rewrite collect_nil. induction flags as [|f flags IH]; cbn; [done|].
  rewrite Forall_cons. by rewrite IH.
Qed.
Lemma all_clear_app a b : all_clear (a ++ b) ↔ all_clear a ∧ all_clear b.
Proof. induction a as [|f a IH]; cbn; [naive_solver|]. rewrite IH. naive_solver. Qed.

Section capability_loop.
Context {ED : Ed25519} {E : Env} {TE : TokenEnv} {XA : ExnAttributes}.
Context {DSt : ModelDump PhysicalStateSnapshot} {DCo : ModelDump PhysicalControlCommand}
  {DAs : ModelDump CandidateAssessment} {DPe : ModelDump ExecutionPermit}
  {DOb : ModelDump SignedObservationEnvelope} {DRq : ModelDump CapabilityActionRequest}
  {DCp : ModelDump CapabilityExecutionPermit} {DPa : ModelDump PlcCommandAcknowledgment}.
Context {I P G : Type} {HI : IdentityVerifier I} {HP : PolicyEngine P} {HG : AdmissionGate G}.
Context {DG : ModelDump DelegationGrant} {DP : ModelDump ActionProposal} {DD : ModelDump Decision}
  {DS : ModelDump SystemState} {DA : ModelDump DegradedAdmissionResult}.

(** ** Accepted observations *)
Record observation_genuine (v : SignedObservationVerifier) (o : SignedObservationEnvelope) (at_ : datetime) :
    Prop := {
  og_signed : observation_verify o (oi_public_key (ov_observer_info v)) = Ok true;
  og_source : observer_id o = oi_observer_id (ov_observer_info v)
    ∧ observer_key_id o = oi_key_id (ov_observer_info v)
    ∧ observer_boot_epoch o = oi_boot_epoch (ov_observer_info v);
  og_plant : ps_observation_source_id (snapshot o) = pi_observation_source_id (ov_plant_info v)
    ∧ ps_model_digest (snapshot o) = pi_model_digest (ov_plant_info v)
    ∧ ps_simulator_version (snapshot o) = pi_simulator_version (ov_plant_info v)
    ∧ verify_digest (snapshot o) = Ok true;
  og_fresh : (0 <= dt_sub at_ (captured_at o) <= ov_maximum_age v)%Z;
  og_new : (ov_last_sequence v < observer_sequence o)%Z ∧ challenge_nonce o ∉ ov_accepted_challenges v;
}.
Lemma common_flags_clear v o at_ flags :
  common_flags v o at_ = Ok flags → all_clear flags → observation_genuine v o at_.
Proof using Type.
  unfold common_flags. intros H. apply result_bind_Ok in H as (signed & Hs & H).
  apply result_bind_Ok in H as (valid & Hv & H). injection H as <-. cbn [all_clear fst].
  intros H. destruct_and?. repeat match goal with H : (_ && _) = false |- _ => apply andb_false_iff in H end.
  bool_split. subst. split; split_and?; try done. destruct_or?; bool_split; lia.
Qed.

(** The observation a request refers to. *)
Record pre_bound (o : SignedObservationEnvelope) (rq : CapabilityActionRequest) : Prop := {
  pb_phase : so_phase o = PRE_AUTHORIZATION;
  pb_ids : observation_id o = rq_observation_id rq
    ∧ envelope_digest o = CapabilityModels.observation_envelope_digest rq
    ∧ challenge_nonce o = observation_challenge_nonce rq ∧ so_correlation_id o = correlation_id rq;
  pb_proposal : observed_state_version (rq_proposal rq) = ps_state_version (snapshot o)
    ∧ dt_eqb (proposal_observed_at (rq_proposal rq)) (ps_observed_at (snapshot o)) = true;
}.
(** The readback of an acknowledged command. *)
Record post_bound (o : SignedObservationEnvelope) (rq : CapabilityActionRequest) (permit : CapabilityExecutionPermit)
    (ack : PlcCommandAcknowledgment) (nonce : string) : Prop := {
  po_phase : so_phase o = POST_DISPATCH;
  po_transaction : so_correlation_id o = correlation_id rq ∧ challenge_nonce o = nonce
    ∧ so_permit_id o = Some (permit_id (base_permit permit))
    ∧ so_command_digest o = Some (pm_command_digest (base_permit permit));
  po_acknowledgment : ∃ ad, pa_digest ack = Ok ad ∧ plc_acknowledgment_digest o = Some ad;
  po_predecessor : previous_envelope_digest o = Some (cp_observation_envelope_digest permit);
  po_time : (dt_utc (acknowledged_at ack) <= dt_utc (captured_at o))%Z;
}.

Lemma settle_run o flags v r v' :
  settle o flags v = (r, v') →
  r = Ok [] ∧ all_clear flags ∧ v' = accept_observation o v ∨ (∃ rs, r = Ok rs ∧ rs ≠ []) ∧ v' = v.
Proof using Type.
  unfold settle. destruct (collect flags) as [|x l] eqn:Hc.
  - intros [= <- <-]. left. by rewrite <- collect_all_clear.
  - intros [= <- <-]. right. split; [by exists (x :: l)|done].
Qed.
Lemma verify_pre_run o rq at_ v r v' :
  verify_pre o rq at_ v = (r, v') →
  r = Ok [] ∧ observation_genuine v o at_ ∧ pre_bound o rq ∧ v' = accept_observation o v
  ∨ r ≠ Ok [] ∧ v' = v.
Proof using Type.
  unfold verify_pre. intros H. apply M_bind_case in H as [(e & -> & [=])|(v0 & v1 & [= <- <-] & H)].
  apply M_bind_case in H as [(e & -> & H)|(common & v1 & [Hc ->]%lift_Ok & H)]; [right; by injection H as _ <-|].
  apply settle_run in H as [(-> & [H1 H2]%all_clear_app & ->)|[(rs & -> & Hne) ->]]; [left|right; split; congruence].
  split_and!; [done|by eapply common_flags_clear| |done].
  cbn [all_clear fst] in H2. destruct_and?. bool_split. split; split_and?; done.
Qed.
Lemma verify_post_run o rq permit ack nonce at_ v r v' :
  verify_post o rq permit ack nonce at_ v = (r, v') →
  r = Ok [] ∧ observation_genuine v o at_ ∧ post_bound o rq permit ack nonce ∧ v' = accept_observation o v
  ∨ r ≠ Ok [] ∧ v' = v.
Proof using Type.
  unfold verify_post. intros H. apply M_bind_case in H as [(e & -> & [=])|(v0 & v1 & [= <- <-] & H)].
  apply M_bind_case in H as [(e & -> & H)|(common & v1 & [Hc ->]%lift_Ok & H)]; [right; by injection H as _ <-|].
  apply M_bind_case in H as [(e & -> & H)|(ad & v1 & [Ha ->]%lift_Ok & H)]; [right; by injection H as _ <-|].
  apply settle_run in H as [(-> & [H1 H2]%all_clear_app & ->)|[(rs & -> & Hne) ->]]; [left|right; split; congruence].
  split_and!; [done|by eapply common_flags_clear| |done].
  cbn [all_clear fst] in H2. unfold dt_ltb in H2. destruct_and?. bool_split. split; split_and?; eauto.
Qed.

(** ** Runs of the verifier *)
Definition accepting (r : result (list string)) : bool := match r with Ok [] => true | _ => false end.
(** Each call with the observation it accepted, if it did. *)
Inductive verifier_run : SignedObservationVerifier → list (SignedObservationEnvelope * datetime) →
    SignedObservationVerifier → Prop :=
  | verifier_run_nil v : verifier_run v [] v
  | verifier_run_pre o rq at_ v r v' es v'' :
      verify_pre o rq at_ v = (r, v') → verifier_run v' es v'' →
      verifier_run v ((if accepting r then [(o, at_)] else []) ++ es) v''
  | verifier_run_post o rq permit ack nonce at_ v r v' es v'' :
      verify_post o rq permit ack nonce at_ v = (r, v') → verifier_run v' es v'' →
      verifier_run v ((if accepting r then [(o, at_)] else []) ++ es) v''.

Definition trusted_fresh (v : SignedObservationVerifier) (x : SignedObservationEnvelope * datetime) : Prop :=
  observation_verify x.1 (oi_public_key (ov_observer_info v)) = Ok true
  ∧ observer_boot_epoch x.1 = oi_boot_epoch (ov_observer_info v)
  ∧ (0 <= dt_sub x.2 (captured_at x.1) <= ov_maximum_age v)%Z.

Record accepted_in_order (v : SignedObservationVerifier) (es : list (SignedObservationEnvelope * datetime)) :
    Prop := {
  ao_increasing : StronglySorted Z.lt (ov_last_sequence v :: (observer_sequence ∘ fst <$> es));
  ao_distinct : NoDup (challenge_nonce ∘ fst <$> es)
    ∧ ∀ x, x ∈ es → challenge_nonce x.1 ∉ ov_accepted_challenges v;
  ao_trusted : Forall (trusted_fresh v) es;
}.
Lemma accepted_cons v o at_ es :
  observation_genuine v o at_ → accepted_in_order (accept_observation o v) es →
  accepted_in_order v ((o, at_) :: es).
Proof using Type.
  intros [Hs (_ & _ & Hb) _ Hf [Hseq Hch]] [Hinc [Hnd Hfresh] Htr]. cbn in Hinc. split.
  - cbn. constructor; [done|]. constructor; [done|].
    inversion Hinc as [|? ? _ Hall]; subst. eapply Forall_impl; [exact Hall|]. cbn. lia.
  - split.
    + rewrite fmap_cons. constructor; [|done]. intros (x & Hx & Hin)%list_elem_of_fmap. cbn in Hx. apply (Hfresh x Hin).
      cbn. rewrite <- Hx. set_solver+.
    + intros x [->|Hx]%elem_of_cons; [done|]. specialize (Hfresh x Hx). cbn in Hfresh. set_solver.
  - constructor; [split; [exact Hs|split; [exact Hb|exact Hf]]|exact Htr].
Qed.

(** C20 Over every run of the observation verifier, the accepted observations are
    signed by the pinned observer in its pinned boot, within the maximum age when
    accepted, have strictly increasing sequence numbers above the last one
    accepted before, and pairwise distinct challenges that were never accepted. *)
Theorem observations_accepted_in_order v es v' :
  verifier_run v es v' → accepted_in_order v es.
Proof using Type.
  induction 1 as [v|o rq at_ v r v' es v'' H _ IH|o rq permit ack nonce at_ v r v' es v'' H _ IH].
  - split; [repeat constructor|split; [constructor|by intros ? ?%not_elem_of_nil]|constructor].
  - apply verify_pre_run in H as [(-> & Hg & _ & ->)|[Hr ->]].
    + by apply accepted_cons.
    + by destruct r as [[|]|].
  - apply verify_post_run in H as [(-> & Hg & _ & ->)|[Hr ->]].
    + by apply accepted_cons.
    + by destruct r as [[|]|].
Qed.

Context {X : Type} {HX : CapabilityPorts X}.

(** ** The logged PLC port *)
Definition on_unlogged {A} (m : M X A) : M (X * list Transaction) A := zoom fst (λ x s, (x, s.2)) m.
#[local] Instance logged_ports : CapabilityPorts (X * list Transaction) := {|
  port_resolve := λ i d, on_unlogged (port_resolve i d);
  port_capture_post := λ b, on_unlogged (port_capture_post b);
  port_simulate := λ c, on_unlogged (port_simulate c);
  port_execute := λ x, _ ← modify (λ s, (s.1, s.2 ++ [x])); on_unlogged (port_execute x);
|}.
Abbreviation Controller := (CapabilityClosedLoopController (I := I) (P := P)).
Abbreviation CState := (ControlState (G := G) (X := X * list Transaction)).
Definition ct_log (s : CState) : list Transaction := (ct_ports s).2.

(** A step that does not ask the PLC. *)
Definition unasked (s s' : CState) : Prop := ct_log s' = ct_log s.
#[local] Instance unasked_preorder : PreOrder unasked.
Proof using Type. split; [done|]. intros x y z H1 H2. by etrans. Qed.
Lemma unasked_gateway {A} (m : M (GatewayState (G := G)) A) : preserves unasked (on_ct_gateway m).
Proof using Type. intros s. unfold on_ct_gateway, zoom. by destruct (m _). Qed.
Lemma unasked_verifier {A} (m : M SignedObservationVerifier A) : preserves unasked (on_ct_verifier m).
Proof using Type. intros s. unfold on_ct_verifier, zoom. by destruct (m _). Qed.
Lemma unasked_ports {A} (m : M X A) : preserves unasked (on_ports (on_unlogged m)).
Proof using Type. intros s. unfold on_ports, on_unlogged, zoom. by destruct (m _). Qed.
Lemma unasked_resolve i d : preserves unasked (on_ports (port_resolve i d)).
Proof using Type. apply unasked_ports. Qed.
Lemma unasked_capture b : preserves unasked (on_ports (port_capture_post b)).
Proof using Type. apply unasked_ports. Qed.
Lemma unasked_simulate c : preserves unasked (on_ports (port_simulate c)).
Proof using Type. apply unasked_ports. Qed.
Lemma unasked_clock : preserves unasked ct_clock.
Proof using Type. apply unasked_gateway. Qed.
#[local] Hint Resolve unasked_gateway unasked_verifier unasked_resolve unasked_capture unasked_simulate unasked_clock : frames.
Lemma unasked_record x : preserves unasked (record_result x).
Proof using Type. unfold record_result. frame. Qed.
#[local] Hint Resolve unasked_record : frames.
Lemma unasked_conclude rq pg o permit ack n post : preserves unasked (conclude_post rq pg o permit ack n post).
Proof using Type. unfold conclude_post. frame. Qed.
#[local] Hint Resolve unasked_conclude : frames.
Lemma unasked_observe rq pg o permit ack : preserves unasked (observe_post rq pg o permit ack).
Proof using Type. unfold observe_post. frame. Qed.
#[local] Hint Resolve unasked_observe : frames.
Lemma unasked_acknowledged (cc : Controller) rq pg o permit ack : preserves unasked (conclude_acknowledgment cc rq pg o permit ack).
Proof using Type. unfold conclude_acknowledgment. frame. Qed.
#[local] Hint Resolve unasked_acknowledged : frames.

(** ** Recording *)
Lemma record_result_Ok x (s : CState) r s' :
  record_result x s = (Ok r, s') →
  ∃ h, r = with_record_hash x h ∧ CapabilityClosedLoopResult_validate r = Ok r
    ∧ ct_verifier s' = ct_verifier s ∧ ct_ports s' = ct_ports s
    ∧ ∃ rec, gs_evidence (ct_gateway s') = gs_evidence (ct_gateway s) ++ [rec] ∧ record_hash rec = h
        ∧ payload rec = capability_payload x.
Proof using Type.
  unfold record_result. intros H. apply M_bind_Ok in H as (rec & s1 & Hrec & [Hv ->]%lift_Ok).
  unfold on_ct_gateway, on_evidence, zoom in Hrec. rewrite append_run in Hrec. injection Hrec as <- <-.
  assert (Hx : ∀ a b, CapabilityClosedLoopResult_validate a = Ok b → b = a).
  { intros a b Hab. unfold CapabilityClosedLoopResult_validate, closed in Hab.
    apply require_bind in Hab as [_ Hab]. apply result_bind_Ok in Hab as (u & _ & Hab). by injection Hab. }
  pose proof (Hx _ _ Hv) as ->. eexists. split; [done|]. split; [done|]. cbn. split_and!; try done. eauto.
Qed.

(** ** The dispatch *)
(** The result that a dispatch of [permit] returns. *)
Definition accounts_for (permit : CapabilityExecutionPermit) (r : CapabilityClosedLoopResult) : Prop :=
  cr_permit r = Some permit ∧
  (cr_dispatch_attempts r = 1%Z
   ∨ cr_dispatch_attempts r = 0%Z ∧ cr_status r = CAP_NOT_DISPATCHED ∧ cr_acknowledgment r = None
     ∧ ∃ e, exn_known_no_effect e = true ∧ exn_dispatch_attempts e = 0%Z).
Lemma accounts_record permit x (s : CState) r s' :
  record_result x s = (Ok r, s') → accounts_for permit x → accounts_for permit r.
Proof using Type. intros (h & -> & _)%record_result_Ok Ha. exact Ha. Qed.
Lemma accounts_dispatched st rs rq pg ack post last_ permit :
  pg_permit pg = Some permit → accounts_for permit (dispatched_result st rs rq pg ack post last_).
Proof using Type. intros H. split; [exact H|by left]. Qed.

Lemma conclude_accounts (cc : Controller) rq pg o permit ack (s : CState) r s' :
  pg_permit pg = Some permit → conclude_acknowledgment cc rq pg o permit ack s = (Ok r, s') → accounts_for permit r.
Proof using Type.
  intros Hp H. unfold conclude_acknowledgment in H. apply M_bind_Ok in H as (valid & s1 & _ & H).
  destruct valid; cbn [negb] in H; [|by eapply accounts_record; [exact H|apply accounts_dispatched]].
  destruct (pa_status ack); [|by eapply accounts_record; [exact H|apply accounts_dispatched]..].
  unfold observe_post in H. apply M_bind_Ok in H as (nonce & s2 & _ & H).
  apply M_bind_Ok in H as (captured & s3 & _ & H).
  destruct captured as [post|e]; [|by eapply accounts_record; [exact H|apply accounts_dispatched]].
  unfold conclude_post in H. apply M_bind_Ok in H as (now & s4 & _ & H). apply M_bind_Ok in H as (reasons & s5 & _ & H).
  destruct reasons as [|x l].
  - destruct (negb _); by eapply accounts_record; [exact H|apply accounts_dispatched].
  - apply M_bind_Ok in H as (kept & s6 & _ & H). by eapply accounts_record; [exact H|apply accounts_dispatched].
Qed.

(** What the PLC port answered, and what followed. *)
Lemma dispatch_to_plc_run (cc : Controller) rq o d c a permit (s : CState) r s' :
  dispatch_to_plc cc rq o d c a permit s = (r, s') →
  ct_log s' = ct_log s ++ [mk_Transaction rq permit o d a]
  ∧ (∀ x, r = Ok x → accounts_for permit x)
  ∧ ∀ x, r = Ok x → cr_status x ≠ CAP_COMPLETED
      ∨ ∃ ack s1, ct_verifier s1 = ct_verifier s
          ∧ conclude_acknowledgment cc rq (mk_Progress (Some o) (Some d) (Some c) (Some a) (Some permit)) o permit ack s1
            = (Ok x, s').
Proof using Type.
  unfold dispatch_to_plc. set (pg := mk_Progress _ _ _ _ _). intros H.
  assert (Hx : ∀ r1 s1, on_ports (port_execute (mk_Transaction rq permit o d a)) s = (r1, s1) →
    ct_log s1 = ct_log s ++ [mk_Transaction rq permit o d a] ∧ ct_verifier s1 = ct_verifier s).
  { intros r1 s1. unfold on_ports, zoom. cbn. unfold mbind, M_bind, modify, on_unlogged, zoom. cbn.
    destruct (port_execute _ _) as [q x]. by intros [= <- <-]. }
  apply M_bind_case in H as [(e & -> & H)|(acked & s1 & Ha & H)].
  { unfold attempt in H. destruct (on_ports _ s) as [[q|e'] s1]; [done|].
    destruct (isinstance_exn e' "Exception"); [done|]. injection H as -> ->.
    split_and!; [exact (proj1 (Hx _ _ eq_refl))|done|done]. }
  apply attempt_Ok in Ha as [Ha _]. apply Hx in Ha as [Hl Hv]. destruct acked as [ack|e].
  - split_and!.
    + rewrite <- Hl. by apply (preserves_run _ _ _ _ _ (unasked_acknowledged _ _ _ _ _ _) H).
    + intros x ->. by eapply conclude_accounts; [|exact H].
    + intros x ->. right. by exists ack, s1.
  - split_and!.
    + rewrite <- Hl. by apply (preserves_run _ _ _ _ _ (unasked_record _) H).
    + intros x ->. eapply accounts_record; [exact H|]. unfold dispatch_failed.
      destruct (exn_known_no_effect e && (exn_dispatch_attempts e =? 0)%Z) eqn:Hk; [|by apply accounts_dispatched].
      bool_split. split; [done|]. right. split_and!; try done. by exists e.
    + intros x ->. left. apply record_result_Ok in H as (h & -> & _). unfold dispatch_failed. by case_match.
Qed.

(** ** Before the dispatch *)
Definition held_back (s s' : CState) (r : result CapabilityClosedLoopResult) : Prop :=
  unasked s s' ∧ ∀ x, r = Ok x → cr_dispatch_attempts x = 0%Z ∧ cr_permit x = None
    ∧ cr_status x ∈ [CAP_NOT_DISPATCHED; CAP_CANDIDATE_REJECTED].
Lemma held_raise (s s' : CState) e : unasked s s' → held_back s s' (Raise e).
Proof using Type. by split. Qed.
Lemma held_stop st rs rq pg last_ (s s1 : CState) r s' :
  unasked s s1 → pg_permit pg = None → st ∈ [CAP_NOT_DISPATCHED; CAP_CANDIDATE_REJECTED] →
  record_result (undispatched_result st rs rq pg last_) s1 = (r, s') → held_back s s' r.
Proof using Type.
  intros Hq Hp Hst H. split.
  - etrans; [exact Hq|]. by apply (preserves_run _ _ _ _ _ (unasked_record _) H).
  - intros x ->. apply record_result_Ok in H as (h & -> & _). done.
Qed.

(** What holds when the controller turns to the PLC. *)
Record authorized (cc : Controller) (rq : CapabilityActionRequest) (s : CState) (o : SignedObservationEnvelope)
    (d : Decision) (c : PhysicalControlCommand) (a : CandidateAssessment) (permit : CapabilityExecutionPermit)
    (at_ : datetime) : Prop := {
  au_observation : observation_genuine (ct_verifier s) o at_ ∧ pre_bound o rq;
  au_time : at_ = clock_at (w_clock (gs_world (ct_gateway s)));
  au_decided : ∃ state w g, physical_state_to_gateway_state (snapshot o) = Ok state
    ∧ decide (cc_gateway cc) (rq_proposal rq) state (Some at_) (set_world w (ct_gateway s)) = (Ok d, g)
    ∧ outcome d = PERMIT
    ∧ ∃ w1 w2, capability_issue (cc_permit_issuer cc) (gs_evidence g) rq o d c a w1 = (Ok permit, w2);
  au_candidate : as_safe a = true ∧ pre_state_is a (snapshot o) = true ∧ command_digest c = Ok (as_command_digest a);
}.

Lemma ports_keep {A} (m : M (X * list Transaction) A) (s : CState) r s' :
  on_ports m s = (r, s') → ct_gateway s' = ct_gateway s ∧ ct_verifier s' = ct_verifier s.
Proof using Type. unfold on_ports, zoom. destruct (m _). by intros [= <- <-]. Qed.
Lemma gateway_run {A} (m : M (GatewayState (G := G)) A) (s : CState) r s' :
  on_ct_gateway m s = (r, s') → ct_verifier s' = ct_verifier s ∧ m (ct_gateway s) = (r, ct_gateway s').
Proof using Type. unfold on_ct_gateway, zoom. destruct (m _). by intros [= <- <-]. Qed.
Lemma world_run {A} (m : M World A) (g : GatewayState (G := G)) r g' :
  on_world m g = (r, g') → g' = set_world (gs_world g') g ∧ m (gs_world g) = (r, gs_world g').
Proof using Type. unfold on_world, zoom. destruct (m _). by intros [= <- <-]. Qed.

(** A bind on an attempt: it failed fatally, or it has an outcome. *)
Ltac attempt_step H a s1 Ha Hq :=
  let e := fresh "e" in let Hq1 := fresh "Hq1" in
  apply M_bind_case in H as [(e & -> & H)|(a & s1 & Ha & H)];
  [left; apply held_raise; etrans; [exact Hq|]; eapply preserves_run; [|exact H]; solve [frame]
  |assert (Hq1 : unasked _ s1) by (etrans; [exact Hq|]; eapply preserves_run; [|exact Ha]; solve [frame]);
   apply attempt_Ok in Ha as [Ha _]; clear Hq; rename Hq1 into Hq].
Ltac stop_here H Hq := left; eapply held_stop; [exact Hq| | |exact H]; [done|set_solver+].

Lemma permitted_request_run (cc : Controller) rq o d (s : CState) r s' :
  permitted_request cc rq o d s = (r, s') →
  held_back s s' r
  ∨ ∃ c a permit s1 w1 w2, as_safe a = true ∧ pre_state_is a (snapshot o) = true
      ∧ command_digest c = Ok (as_command_digest a)
      ∧ capability_issue (cc_permit_issuer cc) (gs_evidence (ct_gateway s)) rq o d c a w1 = (Ok permit, w2)
      ∧ unasked s s1 ∧ ct_verifier s1 = ct_verifier s ∧ dispatch_to_plc cc rq o d c a permit s1 = (r, s').
Proof using Type.
  unfold permitted_request. intros H. assert (Hq : unasked s s) by done.
  attempt_step H translated s1 Ht Hq. apply gateway_run in Ht as [Hv1 Ht]. apply world_run in Ht as [Hg1 _].
  destruct translated as [c|e]; [|stop_here H Hq].
  attempt_step H simulated s2 Hs Hq. apply ports_keep in Hs as [Hg2 Hv2].
  destruct simulated as [a|e]; [|stop_here H Hq].
  apply M_bind_case in H as [(e & -> & H)|(cd & s3 & [Hcd ->]%lift_Ok & H)];
    [left; apply held_raise; injection H as _ <-; exact Hq|].
  destruct (negb (as_safe a) || negb (candidate_matches cd a (snapshot o))) eqn:Hc; [stop_here H Hq|].
  bool_split. unfold candidate_matches in *. bool_split.
  apply M_bind_case in H as [(e & -> & [=])|(s0 & s3 & [= <- <-] & H)].
  attempt_step H issued s4 Hi Hq. apply gateway_run in Hi as [Hv4 Hi]. apply world_run in Hi as [Hg4 Hi].
  destruct issued as [permit|e]; [right|stop_here H Hq].
  exists c, a, permit, s4. eexists _, _. split_and!; try done; [congruence| |congruence].
  rewrite Hg2, Hg1 in Hi. exact Hi.
Qed.

Lemma capability_execute_run (cc : Controller) rq (s : CState) r s' :
  capability_execute cc rq s = (r, s') →
  held_back s s' r
  ∨ ∃ o d c a permit at_ s1, authorized cc rq s o d c a permit at_ ∧ unasked s s1
      ∧ ct_verifier s1 = accept_observation o (ct_verifier s)
      ∧ dispatch_to_plc cc rq o d c a permit s1 = (r, s').
Proof using Type.
  unfold capability_execute. intros H. assert (Hq : unasked s s) by done.
  attempt_step H resolved s1 Hr Hq. apply ports_keep in Hr as [Hg1 Hv1].
  destruct resolved as [o|e]; [|stop_here H Hq].
  apply M_bind_case in H as [(e & -> & H)|(at_ & s2 & Hat & H)]; [by apply gateway_run in H as [_ H]|].
  assert (Hq2 : unasked s s2) by (etrans; [exact Hq|]; by apply (preserves_run _ _ _ _ _ unasked_clock Hat)).
  apply gateway_run in Hat as [Hv2 Hat]. apply world_run in Hat as [Hg2 Hat]. injection Hat as <- _.
  rewrite Hg1 in H, Hg2.
  apply M_bind_case in H as [(e & -> & H)|(reasons & s3 & Hp & H)].
  { left. apply held_raise. etrans; [exact Hq2|]. by apply (preserves_run _ _ _ _ _ (unasked_verifier _) H). }
  assert (Hq3 : unasked s s3) by (etrans; [exact Hq2|]; by apply (preserves_run _ _ _ _ _ (unasked_verifier _) Hp)).
  clear Hq Hq2. rename Hq3 into Hq. apply zoom_run in Hp as (v & Hp & ->). rewrite Hv2, Hv1 in Hp.
  apply verify_pre_run in Hp as [([= ->] & Hgen & Hbound & ->)|[Hne ->]]; cycle 1.
  { destruct reasons as [|x l]; [done|]. stop_here H Hq. }
  unfold decide_observed in H.
  attempt_step H converted s4 Hc Hq. injection Hc as Hc <-.
  destruct converted as [state|e]; [|stop_here H Hq].
  attempt_step H verdict s5 Hd Hq. apply gateway_run in Hd as [Hv5 Hd]. cbn [ct_gateway ct_verifier] in Hd, Hv5.
  rewrite Hg2 in Hd.
  destruct verdict as [d|e]; [|stop_here H Hq].
  destruct (bool_decide (outcome d = PERMIT)) eqn:Ho; cbn [negb] in H; [|stop_here H Hq]. bool_split.
  apply permitted_request_run in H
    as [[Hu Hx]|(c & a & permit & s6 & w1 & w2 & H1 & H2 & H3 & H4 & Hu & Hv & H)]; [left|right].
  - split; [by etrans|exact Hx].
  - exists o, d, c, a, permit. eexists _, s6. split; [|split; [by etrans|split; [congruence|exact H]]].
    split; [by split|done| |done]. exists state. eexists _, _. split_and!; [done|exact Hd|done|by eexists _, _].
Qed.

(** C19 A call asks the PLC at most once, whatever the other processes answer or
    raise and whether the call returns or raises: either it did not ask and its
    result reports no dispatch and no permit, or it asked exactly once, with a
    permit just issued for a PERMIT decision on a genuine, fresh observation of
    this request and a safe candidate of the observed state; then its result
    carries this permit and reports one dispatch, or none and no acknowledgment
    when the port itself established that nothing was dispatched. *)
Theorem plc_asked_at_most_once (cc : Controller) rq s r s' :
  capability_execute cc rq s = (r, s') →
  held_back s s' r
  ∨ ∃ o d c a permit at_, authorized cc rq s o d c a permit at_
      ∧ ct_log s' = ct_log s ++ [mk_Transaction rq permit o d a]
      ∧ ∀ x, r = Ok x → accounts_for permit x.
Proof using Type.
  intros [Hh|(o & d & c & a & permit & at_ & s1 & Hau & Hu & _ & H)]%capability_execute_run; [by left|right].
  exists o, d, c, a, permit, at_. apply dispatch_to_plc_run in H as (Hl & Hx & _).
  split_and!; [done|by rewrite Hl, Hu|done].
Qed.

(** ** Completion *)
(** What a verified APPLIED acknowledgment says. *)
Record plc_applied (k : public_key) (t : PlcTarget) (rq : CapabilityActionRequest) (permit : CapabilityExecutionPermit)
    (o : SignedObservationEnvelope) (ack : PlcCommandAcknowledgment) : Prop := {
  pp_signed : pa_status ack = APPLIED ∧ pa_verify ack k = Ok true;
  pp_instance : plc_id ack = tg_plc_id t ∧ plc_key_id ack = tg_plc_key_id t ∧ plc_boot_epoch ack = tg_plc_boot_epoch t
    ∧ target_plc_id permit = tg_plc_id t ∧ target_plc_key_id permit = tg_plc_key_id t
    ∧ target_plc_boot_epoch permit = tg_plc_boot_epoch t;
  pp_transaction : request_digest rq = Ok (pa_request_digest ack)
    ∧ capability_permit_digest permit = Ok (permit_digest ack)
    ∧ pa_permit_id ack = permit_id (base_permit permit) ∧ pa_permit_nonce ack = permit_nonce (base_permit permit)
    ∧ pa_command_digest ack = pm_command_digest (base_permit permit);
  pp_window : (dt_utc (pm_issued_at (base_permit permit)) <= dt_utc (acknowledged_at ack)
               < dt_utc (pm_expires_at (base_permit permit)))%Z;
  pp_states : pa_pre_state ack = snapshot o
    ∧ ps_state_digest (snapshot o) = pm_state_digest (base_permit permit)
    ∧ pa_post_state_digest ack = Some (expected_post_state_digest (base_permit permit));
  pp_actuator : feqb_opt (pa_post_actuator_setpoint ack) (setpoint (pm_command (base_permit permit))) = true;
}.
Lemma pa_verify_applied k t rq permit o ack :
  pa_verify_for_transaction ack k rq permit o t = Ok true → pa_status ack = APPLIED →
  plc_applied k t rq permit o ack.
Proof using Type.
  unfold pa_verify_for_transaction. intros H Hst.
  apply result_bind_Ok in H as (ids & Hids & H). destruct ids; [|done]. cbn [negb] in H.
  apply result_bind_Ok in H as (signed & Hs & H).
  assert (Hrep : replay_rejection ack = false) by (unfold replay_rejection; by rewrite Hst).
  rewrite Hrep in H. cbn [negb] in H. rewrite andb_true_r in H.
  destruct (negb signed || _) eqn:Hb; [done|]. bool_split. subst signed.
  apply result_bind_Ok in H as (valid & Hv & H).
  destruct (valid && _ && _ && _); [|done]. injection H as H. unfold status_justified in H. rewrite Hst in H.
  unfold authorized_pre_state, dt_leb, dt_ltb in H. bool_split.
  unfold pa_identifiers_match in Hids. apply result_bind_Ok in Hids as (rd & Hrd & Hids).
  apply result_bind_Ok in Hids as (pd & Hpd & Hids). injection Hids as Hids. bool_split.
  split; split_and?; first [done|congruence].
Qed.

Lemma conclude_completed (cc : Controller) rq pg o permit ack (s : CState) r s' :
  conclude_acknowledgment cc rq pg o permit ack s = (Ok r, s') → cr_status r = CAP_COMPLETED →
  plc_applied (cc_plc_public_key cc) (cc_plc_info cc) rq permit o ack
  ∧ ∃ post nonce at_ h, observation_genuine (ct_verifier s) post at_ ∧ post_bound post rq permit ack nonce
      ∧ post_state_expected (base_permit permit) ack (snapshot post) = true
      ∧ r = with_record_hash (dispatched_result CAP_COMPLETED ["plc_acknowledgment_and_signed_post_observation_match"]
              rq pg (Some ack) (Some post) (Some post)) h.
Proof using Type.
  intros H Hst. unfold conclude_acknowledgment in H. apply M_bind_Ok in H as (valid & s1 & [Hval ->]%lift_Ok & H).
  assert (Hno : ∀ st rs ack' post last_ s0, st ≠ CAP_COMPLETED →
    record_result (dispatched_result st rs rq pg ack' post last_) s0 ≠ (Ok r, s')).
  { intros st rs ack' post last_ s0 Hne (h & -> & _)%record_result_Ok. by apply Hne. }
  destruct valid; cbn [negb] in H; [|by apply Hno in H].
  destruct (pa_status ack) eqn:Hack; [|by destruct (bool_decide _); apply Hno in H|by apply Hno in H].
  split; [by apply pa_verify_applied|].
  unfold observe_post in H. apply M_bind_Ok in H as (nonce & s2 & Hn & H). apply gateway_run in Hn as [Hv2 _].
  apply M_bind_Ok in H as (captured & s3 & Hc & H). apply attempt_Ok in Hc as [Hc _].
  assert (Hv3 : ct_verifier s3 = ct_verifier s2).
  { apply M_bind_case in Hc as [(e & _ & Hc)|(ad & s4 & [_ ->]%lift_Ok & Hc)]; [by injection Hc as _ <-|].
    by apply ports_keep in Hc as [_ ?]. }
  destruct captured as [post|e]; [|by apply Hno in H].
  unfold conclude_post in H. apply M_bind_Ok in H as (at_ & s4 & Ha & H). apply gateway_run in Ha as [Hv4 _].
  apply M_bind_Ok in H as (reasons & s5 & Hp & H). apply zoom_run in Hp as (v & Hp & ->).
  rewrite Hv4, Hv3, Hv2 in Hp.
  apply verify_post_run in Hp as [([= ->] & Hgen & Hbound & _)|[Hne _]]; cycle 1.
  { destruct reasons as [|x l]; [done|]. apply M_bind_Ok in H as (kept & s6 & _ & H). by apply Hno in H. }
  destruct (post_state_expected _ _ _) eqn:He; cbn [negb] in H; [|by apply Hno in H].
  apply record_result_Ok in H as (h & -> & _). exists post, nonce, at_, h. done.
Qed.

(** The permit that the capability issuer extends. *)
Lemma capability_issue_binds i chain rq o d c a w permit w' :
  capability_issue i chain rq o d c a w = (Ok permit, w') →
  permit_binds (base_permit permit) (rq_proposal rq) d c a
  ∧ cp_observation_envelope_digest permit = envelope_digest o ∧ ps_state_version (pre_state a) = ps_state_version (snapshot o).
Proof using Type.
  unfold capability_issue, issue_require. intros H.
  apply M_bind_Ok in H as ([] & w0 & [_ ->]%lift_Ok & H).
  apply M_bind_Ok in H as ([] & w0 & [Hpre%require_Ok ->]%lift_Ok & H).
  apply M_bind_Ok in H as (base & w1 & Hiss & H). apply M_bind_Ok in H as (rd & w2 & [Hrd ->]%lift_Ok & H).
  apply M_bind_Ok in H as (p & w2 & [Hp ->]%lift_Ok & H). apply lift_Ok in H as [Hs ->].
  unfold CapabilityExecutionPermit_validate, closed in Hp. apply require_bind in Hp as [_ Hp].
  apply require_bind in Hp as [_ Hp]. injection Hp as <-.
  unfold cp_signed in Hs. apply result_bind_Ok in Hs as (b & _ & [= <-]).
  apply issue_binds in Hiss as [_ Hb]. unfold pre_state_is in Hpre. bool_split. done.
Qed.

(** C18 A call reports COMPLETED only when every link holds: the request refers to
    a genuine, fresh observation that the verifier had not accepted before; the
    gateway permitted exactly its state; the permit was issued for this decision
    and command and the safe candidate of the observed state; the configured PLC
    signed an APPLIED acknowledgment of exactly this transaction within the
    permit's window; and the observer signed a later observation, new and bound to
    this permit and acknowledgment, whose state is the candidate's post-state, the
    next version of the observed one. *)
Theorem capability_completed_established (cc : Controller) rq s r s' :
  capability_execute cc rq s = (Ok r, s') → cr_status r = CAP_COMPLETED →
  ∃ o d c a permit at_ ack post nonce post_at,
    authorized cc rq s o d c a permit at_
    ∧ (cr_pre_observation r = Some o ∧ cr_decision r = Some d ∧ cr_command r = Some c ∧ cr_assessment r = Some a
       ∧ cr_permit r = Some permit ∧ cr_acknowledgment r = Some ack ∧ cr_post_observation r = Some post)
    ∧ plc_applied (cc_plc_public_key cc) (cc_plc_info cc) rq permit o ack
    ∧ observation_genuine (accept_observation o (ct_verifier s)) post post_at ∧ post_bound post rq permit ack nonce
    ∧ permit_binds (base_permit permit) (rq_proposal rq) d c a
    ∧ ps_state_digest (snapshot post) = ps_state_digest (post_state a)
    ∧ ps_state_version (snapshot post) = (ps_state_version (snapshot o) + 1)%Z
    ∧ ct_log s' = ct_log s ++ [mk_Transaction rq permit o d a].
Proof using Type.
  intros [[_ Hx]|(o & d & c & a & permit & at_ & s1 & Hau & Hu & Hv & H)]%capability_execute_run Hst.
  { destruct (Hx _ eq_refl) as (_ & _ & Hin). rewrite Hst in Hin. set_solver. }
  apply dispatch_to_plc_run in H as (Hl & _ & Hc). destruct (Hc _ eq_refl) as [Hn|(ack & s2 & Hv2 & Hk)]; [done|].
  apply conclude_completed in Hk as [Happ (post & nonce & post_at & h & Hgen & Hbound & Hexp & ->)]; [|exact Hst].
  rewrite Hv2, Hv in Hgen.
  pose proof (au_decided _ _ _ _ _ _ _ _ _ Hau) as (state & w & g & _ & _ & _ & w1 & w2 & Hiss).
  destruct (capability_issue_binds _ _ _ _ _ _ _ _ _ _ Hiss) as (Hb & _ & Hver).
  exists o, d, c, a, permit, at_, ack, post, nonce, post_at.
  unfold post_state_expected in Hexp. bool_split. pose proof Hb as [_ _ _ (Hb1 & _) (Hb2 & Hb3 & _)].
  split_and!; first [done|congruence].
Qed.
End capability_loop.
