(* ===== verification/CapabilityDemo.v ===== *)
(** * The capability-separated loop at concrete inputs

    The gateway of [GatewayDemo], the plant, PLC and ledger of [PlcDemo], one fixed
    time as the source's deterministic mode has it: one request runs through the
    whole loop to COMPLETED, and the same observation is not accepted again. *)
From S2P Require Import Prelude PyFloat PyStr PyTime PyJson Sha256 Crypto Models.
From S2P Require Import Delegation Replay Policy Safety Evidence Admission Gateway GatewayDemo.
From S2P Require Import PhysicalModels PhysicalControl PhysicalDevice PhysicalDemo CapabilityModels DurableReplay.
From S2P Require Import SemanticReplay CapabilityPlc PlcRuns PlcDemo CapabilityControl CapabilityLoop.
Import DemoEd25519 ModelsDemo DelegationDemo.

(** ** The environment *)
Definition fixed_env : Env := {|
  clock_at n := now;
  uuid_at n := "identifier-00000-" +:+ dec_N (N.of_nat n);
|}.
#[local] Existing Instance fixed_env | 0.
#[local] Instance demo_tokens : TokenEnv := {| token_at n := "challenge-token-" +:+ dec_N (N.of_nat n) |}.
#[local] Instance plain_exceptions : ExnAttributes := {|
  exn_known_no_effect _ := false; exn_dispatch_attempts _ := 1%Z; exn_reason_code _ := None |}.
#[local] Existing Instances plc_observation_dump plc_request_dump plc_permit_dump plc_ack_dump plc_fs plc_links
  demo_plc_plant.

(** ** The other processes *)
Definition observe_plant (t : DemoPlant) (sequence : Z) (phase : ObservationPhase) (nonce : string)
    (previous : option string) (bindings : option string * option string * option string) :
    result SignedObservationEnvelope :=
  (observation_issue (dp_read t) "transaction-1" phase nonce "observer-1" "observer-key-1" "observer-boot-000001"
     sequence previous bindings "observer-key" (mk_World 0 (Z.to_nat sequence))).1.
Definition pre_observation : SignedObservationEnvelope :=
  ok_or raw_observation (observe_plant (mk_DemoPlant 1 [] false) 1 PRE_AUTHORIZATION "challenge-0123456789" None (None, None, None)).
Definition PlcSide : Type := PlcRun (R := ProcessState) (T := DemoPlant).
#[local] Instance demo_ports : CapabilityPorts PlcSide := {|
  port_resolve _ _ := λ s, (Ok pre_observation, s);
  port_capture_post b := λ s,
    (observe_plant (pr_plant s) 2 POST_DISPATCH (pb_challenge_nonce b) (Some (pb_previous_envelope_digest b))
       (Some (pb_permit_id b), Some (pb_command_digest b), Some (pb_plc_acknowledgment_digest b)), s);
  port_simulate c := λ s, ((simulate_candidate c (pr_plant s)).1, s);
  port_execute := plc_execute;
|}.
#[local] Existing Instance logged_ports | 0.
Definition plc_side : PlcSide :=
  mk_PlcRun demo_plc (1%Z, (ok_or no_ledger opened_plc.1, opened_plc.2)) (mk_DemoPlant 1 [] false) (mk_World 0 100).

(** ** The controller *)
Definition demo_target : PlcTarget := mk_PlcTarget "device-1" "plc-key-1" boot.
Definition demo_control :=
  mk_CapabilityClosedLoopController demo_gw DEFAULT_RESOURCE_BINDINGS
    (mk_CapabilityPermitIssuer demo_issuer demo_target) demo_target "plc-key".
Definition demo_verifier : SignedObservationVerifier :=
  mk_SignedObservationVerifier
    (mk_ObserverInfo (ED := demo_ed25519) "observer-1" "observer-key-1" "observer-boot-000001" "observer-key")
    (mk_PlantProcessInfo "meter" (zeros 64) "demo-simulator") (seconds 5) 0 ∅.
Definition capability_request : CapabilityActionRequest :=
  mk_CapabilityActionRequest "request-1" "transaction-1" proposal (observation_id pre_observation)
    (envelope_digest pre_observation) "challenge-0123456789".
Definition control_start := mk_ControlState (demo_start None) demo_verifier (plc_side, ([] : list Transaction)).
Definition control_run := capability_execute demo_control capability_request control_start.
Definition verifier_first := verify_pre pre_observation capability_request now demo_verifier.
Definition verifier_second := verify_pre pre_observation capability_request now verifier_first.2.
#[local] Strategy expand [control_run verifier_first verifier_second].

Definition completed_result (r : result CapabilityClosedLoopResult) : bool :=
  match r with Ok r => bool_decide (cr_status r = CAP_COMPLETED) | Raise _ => false end.
Definition control_facts : list bool := [
  completed_result control_run.1;
  (length (ct_log control_run.2) =? 1)%nat;
  accepting verifier_first.1;
  negb (accepting verifier_second.1)].
Lemma control_facts_hold : forallb id control_facts = true.
Proof. vm_compute. reflexivity. Qed.
Lemma control_fact n b : control_facts !! n = Some b → b = true.
Proof.
  intros H. pose proof control_facts_hold as F. rewrite forallb_forall in F. apply (F b).
  apply list_elem_of_In. by eapply list_elem_of_lookup_2.
Qed.

(** ** The theorems on these runs *)
Lemma control_run_eq : capability_execute demo_control capability_request control_start = (control_run.1, control_run.2).
Proof. pose proof (surjective_pairing control_run) as H. unfold control_run at 1 in H. exact H. Qed.
Lemma verifier_first_eq :
  verify_pre pre_observation capability_request now demo_verifier = (verifier_first.1, verifier_first.2).
Proof. pose proof (surjective_pairing verifier_first) as H. unfold verifier_first at 1 in H. exact H. Qed.
Lemma verifier_second_eq :
  verify_pre pre_observation capability_request now verifier_first.2 = (verifier_second.1, verifier_second.2).
Proof. pose proof (surjective_pairing verifier_second) as H. unfold verifier_second at 1 in H. exact H. Qed.

Definition accepted_twice (r1 r2 : result (list string)) : list (SignedObservationEnvelope * datetime) :=
  (if accepting r1 then [(pre_observation, now)] else [])
  ++ (if accepting r2 then [(pre_observation, now)] else []) ++ [].
(** The first call accepts the observation, the second one does not. *)
Lemma observations_accepted_in_order_witness :
  accepted_twice verifier_first.1 verifier_second.1 = [(pre_observation, now)]
  ∧ accepted_in_order demo_verifier (accepted_twice verifier_first.1 verifier_second.1).
Proof.
  pose proof (control_fact 2 _ eq_refl) as H1. pose proof (control_fact 3 _ eq_refl) as H2.
  apply negb_true_iff in H2.
  split; [unfold accepted_twice; rewrite H1, H2; reflexivity|].
  exact (observations_accepted_in_order _ _ _
    (verifier_run_pre _ _ _ _ _ _ _ _ verifier_first_eq
      (verifier_run_pre _ _ _ _ _ _ _ _ verifier_second_eq (verifier_run_nil _)))).
Defined.

Lemma asked_once : ct_log control_run.2 ≠ ct_log control_start.
Proof.
  intros H%(f_equal length). pose proof (control_fact 1 _ eq_refl) as L. apply Nat.eqb_eq in L.
  rewrite L in H. discriminate H.
Qed.
Lemma plc_asked_at_most_once_witness :
  length (ct_log control_run.2) = 1%nat
  ∧ ∃ x, ct_log control_run.2 = [x] ∧ outcome (tx_decision x) = PERMIT ∧ tx_request x = capability_request.
Proof.
  pose proof (control_fact 1 _ eq_refl) as L. apply Nat.eqb_eq in L. split; [exact L|].
  destruct (plc_asked_at_most_once _ _ _ _ _ control_run_eq)
    as [[Hu _]|(o & d & c & a & permit & at_ & [_ _ (state & w & g & _ & _ & Ho & _) _] & Hl & _)].
  - destruct (asked_once Hu).
  - eexists. split; [exact Hl|]. split; [exact Ho|reflexivity].
Defined.

Definition result_or (r : result CapabilityClosedLoopResult) : CapabilityClosedLoopResult :=
  match r with
  | Ok r => r
  | Raise e => undispatched_result CAP_NOT_DISPATCHED [exn_type e] capability_request nothing_yet None
  end.
Lemma completed_Ok {S} (x : result CapabilityClosedLoopResult * S) :
  completed_result x.1 = true → x = (Ok (result_or x.1), x.2) ∧ cr_status (result_or x.1) = CAP_COMPLETED.
Proof. destruct x as [[r|e] s]; [|done]. cbn. intros H. bool_split. done. Qed.
Lemma capability_completed_established_witness :
  cr_status (result_or control_run.1) = CAP_COMPLETED
  ∧ ∃ post a, cr_post_observation (result_or control_run.1) = Some post
      ∧ cr_assessment (result_or control_run.1) = Some a
      ∧ ps_state_digest (CapabilityModels.snapshot post) = ps_state_digest (post_state a).
Proof.
  destruct (completed_Ok control_run (control_fact 0 _ eq_refl)) as [Hrun Hst].
  split; [exact Hst|]. unfold control_run at 1 in Hrun.
  destruct (capability_completed_established _ _ _ _ _ Hrun Hst)
    as (o & d & c & a & permit & at_ & ack & post & nonce & post_at & _ & (_ & _ & _ & Ha & _ & _ & Hp) & _ & _ & _ & _ & H & _).
  exists post, a. exact (conj Hp (conj Ha H)).
Defined.
