(* ===== verification/TrustState.v ===== *)
(** * The trust-sequence checkpoint ([src/src/aegis_ot/workload_trust_state.py])

    A verifier remembers the highest trust bundle it observed in one file of a
    private directory, shared by processes that serialize on a sidecar lock.  The
    directory, the failures of the operating system and the interleaving of the
    processes are explicit; one path is modelled, so a directory's entries are the
    checkpoint, the lock and the names of anything else.  [fstat] of an open
    descriptor does not fail, and the umask keeps the owner's bits. *)
From S2P Require Import Prelude PyStr PyJson Sha256 Models PyModel.

Definition STATE_INTEGRITY_DOMAIN : string :=
  "aegis-ot:m4g:workload-trust-sequence-state:v1" +:+ String (chr 0) "".
Definition MAX_STATE_BYTES : Z := 4096.

Definition trust_error {A} (msg : string) : result A :=
  raise_ "WorkloadTrustSequenceStateError" ("workload trust-sequence " +:+ msg).
Definition ensure (c : bool) (msg : string) : result unit := if c then Ok tt else trust_error msg.

(** ** The checkpoint *)
Record TrustSequenceState := mk_TrustSequenceState {
  trust_domain : string;
  authority_key_id : string;
  authority_public_key_sha256 : string;
  highest_sequence : Z;
  highest_bundle_sha256 : string;
  integrity_sha256 : string;
}.
#[export] Instance TrustSequenceState_eq_dec : EqDecision TrustSequenceState.
Proof. solve_decision. Defined.

Definition SCHEMA_VERSION : string := "m4g-workload-trust-sequence-state-v1".
Definition checkpoint_fields (td ak pk : string) (seq : Z) (bundle : string) : list (string * json) :=
  [("schema_version", JStr SCHEMA_VERSION); ("trust_domain", JStr td); ("authority_key_id", JStr ak);
   ("authority_public_key_sha256", JStr pk); ("highest_sequence", JInt seq);
   ("highest_bundle_sha256", JStr bundle)].
Definition integrity_fields (s : TrustSequenceState) : list (string * json) :=
  checkpoint_fields (trust_domain s) (authority_key_id s) (authority_public_key_sha256 s)
    (highest_sequence s) (highest_bundle_sha256 s).
Definition state_dump (s : TrustSequenceState) : list (string * json) :=
  integrity_fields s ++ [("integrity_sha256", JStr (integrity_sha256 s))].

Definition state_integrity_sha256 (fields : list (string * json)) : result string :=
  b ← dumps_strict (JObj fields); Ok (sha256_hex (STATE_INTEGRITY_DOMAIN +:+ b)).

Definition identity_bounds (v : string) : bool :=
  (3 <=? str_len v)%Z && (str_len v <=? 128)%Z && negb (has_space v).
Definition TrustSequenceState_validate (s : TrustSequenceState) : result TrustSequenceState :=
  _ ← require (identity_bounds (trust_domain s) && identity_bounds (authority_key_id s)
               && is_sha256 (authority_public_key_sha256 s) && (1 <=? highest_sequence s)%Z
               && is_sha256 (highest_bundle_sha256 s) && is_sha256 (integrity_sha256 s))
      "ValidationError" "field constraint";
  d ← state_integrity_sha256 (integrity_fields s);
  _ ← require (bool_decide (integrity_sha256 s = d))
      "ValidationError" "trust-sequence state integrity digest is invalid";
  Ok s.

(** [TrustSequenceState.create] *)
Definition state_create (td ak pk : string) (seq : Z) (bundle : string) : result TrustSequenceState :=
  d ← state_integrity_sha256 (checkpoint_fields td ak pk seq bundle);
  TrustSequenceState_validate (mk_TrustSequenceState td ak pk seq bundle d).

(** ** Reading the file *)
Definition strict_json_loads (material : string) : result json :=
  strict_loads "trust-sequence state UTF-8 BOM is forbidden" "duplicate trust-sequence state key" material.

Definition state_of (kv : list (string * json)) : result TrustSequenceState :=
  _ ← only_keys ["schema_version"; "trust_domain"; "authority_key_id"; "authority_public_key_sha256";
                 "highest_sequence"; "highest_bundle_sha256"; "integrity_sha256"] kv;
  _ ← literal_of kv "schema_version" SCHEMA_VERSION;
  td ← str_of kv "trust_domain";
  ak ← str_of kv "authority_key_id";
  pk ← str_of kv "authority_public_key_sha256";
  seq ← int_of kv "highest_sequence";
  bundle ← str_of kv "highest_bundle_sha256";
  d ← str_of kv "integrity_sha256";
  TrustSequenceState_validate (mk_TrustSequenceState td ak pk seq bundle d).

(** [_canonical_json_file_bytes] *)
Definition state_file_bytes (s : TrustSequenceState) : result string :=
  b ← dumps_strict (JObj (state_dump s)); Ok (b +:+ newline).

(** ** The store *)
Record TrustStoreConfig := mk_TrustStoreConfig {
  cf_trust_domain : string;
  cf_authority_key_id : string;
  cf_authority_public_key_sha256 : string;
}.
Record TrustStore := mk_TrustStore {
  st_sequence : Z;
  st_bundle_sha256 : string;
  st_poisoned : bool;
}.

(** The end of [_load_locked]: the octets as the state of the configured trust. *)
Definition read_state (cf : TrustStoreConfig) (material : string) : result TrustSequenceState :=
  s ← match (j ← strict_json_loads material; match j with JObj kv => state_of kv | _ => invalid end) with
      | Ok s => Ok s
      | Raise e => if isinstance_exn e "ValueError" then trust_error "checkpoint is invalid" else Raise e
      end;
  bytes ← state_file_bytes s;
  _ ← ensure (bool_decide (material = bytes)) "checkpoint encoding is not canonical";
  _ ← ensure (bool_decide (trust_domain s = cf_trust_domain cf)
              && bool_decide (authority_key_id s = cf_authority_key_id cf)
              && bool_decide (authority_public_key_sha256 s = cf_authority_public_key_sha256 cf))
      "checkpoint does not match configured trust";
  Ok s.

(** ** The directory *)
Record FileNode := mk_FileNode {
  fn_regular : bool;
  fn_links : Z;
  fn_owned : bool;
  fn_mode : Z;
  fn_bytes : string;
}.
Inductive DirEntry := NoEntry | LinkEntry | NodeEntry (n : FileNode).
#[export] Instance FileNode_eq_dec : EqDecision FileNode.
Proof. solve_decision. Defined.
#[export] Instance DirEntry_eq_dec : EqDecision DirEntry.
Proof. solve_decision. Defined.
Record DirNode := mk_DirNode { dn_directory : bool; dn_owned : bool; dn_mode : Z }.
(** [td_synced] is what a power loss leaves of the checkpoint. *)
Record TrustDisk := mk_TrustDisk {
  td_parent : option DirNode;
  td_state : DirEntry;
  td_lock : DirEntry;
  td_others : list string;
  td_synced : DirEntry;
  td_step : nat;
}.
Definition set_lock_entry (e : DirEntry) (d : TrustDisk) : TrustDisk :=
  mk_TrustDisk (td_parent d) (td_state d) e (td_others d) (td_synced d) (td_step d).
Definition set_state_entry (e synced : DirEntry) (d : TrustDisk) : TrustDisk :=
  mk_TrustDisk (td_parent d) e (td_lock d) (td_others d) synced (td_step d).
Definition add_other (name : string) (d : TrustDisk) : TrustDisk :=
  mk_TrustDisk (td_parent d) (td_state d) (td_lock d) (name :: td_others d) (td_synced d) (td_step d).
Definition next_step (d : TrustDisk) : TrustDisk :=
  mk_TrustDisk (td_parent d) (td_state d) (td_lock d) (td_others d) (td_synced d) (S (td_step d)).
Definition present (e : DirEntry) : bool := match e with NoEntry => false | _ => true end.
Definition private_file (bytes : string) : FileNode := mk_FileNode true 1 true 384 bytes.

(** How a replacement of the checkpoint ends: the new file is in place and
    synced; it is not in place, and the temporary file may be left behind; or it is
    in place and syncing the directory failed. *)
Inductive UpdateOutcome := Updated | NotReplaced (left_behind : bool) | Unsynced.
Class TrustEnv := {
  os_fails : nat → bool;
  update_outcome : nat → UpdateOutcome;
}.

Section store.
Context {TE : TrustEnv}.

(** An operating-system call whose failure has this message. *)
Definition os_call (msg : string) : M TrustDisk unit := λ d,
  (ensure (negb (os_fails (td_step d))) msg, next_step d).

(** Modes 0o700 and 0o600. *)
Definition open_parent : M TrustDisk unit :=
  _ ← os_call "directory is unavailable";
  d ← get;
  match td_parent d with
  | None => lift (trust_error "directory is unavailable")
  | Some n =>
      _ ← lift (ensure (dn_directory n && dn_owned n && (dn_mode n =? 448)%Z)
                  "directory must be an owner-matching 0700 directory");
      _ ← os_call "directory cannot be opened safely";
      os_call "directory changed during validation"
  end.

(** Whether the directory is an unused bootstrap root. *)
Definition classify_layout : M TrustDisk bool :=
  _ ← os_call "directory cannot be enumerated";
  d ← get;
  match present (td_state d), present (td_lock d) with
  | false, false =>
      _ ← lift (ensure (bool_decide (td_others d = []))
                  "bootstrap directory contains unexpected entries");
      mret true
  | true, true => mret false
  | _, _ => lift (trust_error "checkpoint and stable lock must both exist")
  end.

Definition require_entries (state lock : bool) : M TrustDisk unit :=
  _ ← os_call "directory cannot be enumerated";
  d ← get;
  lift (ensure (bool_decide (td_others d = []) && bool_decide (present (td_state d) = state)
                && bool_decide (present (td_lock d) = lock))
          "directory contains unexpected entries").

Definition validate_private_file (label : string) (n : FileNode) : result unit :=
  ensure (fn_regular n && (fn_links n =? 1)%Z && fn_owned n && (fn_mode n =? 384)%Z)
    (label +:+ " must be an owner-matching single-link 0600 file").

Definition open_lock (bootstrap : bool) : M TrustDisk unit :=
  _ ← os_call "stable lock is unavailable";
  d ← get;
  match bootstrap, td_lock d with
  | true, NoEntry =>
      _ ← modify (set_lock_entry (NodeEntry (private_file "")));
      _ ← os_call "stable lock is unavailable";
      os_call "stable lock is unavailable"
  | false, NodeEntry n => lift (validate_private_file "stable lock" n)
  | _, _ => lift (trust_error "stable lock is unavailable")
  end.

(** [held]: another holder keeps the lock up to the deadline. *)
Definition acquire_lock (held : bool) : M TrustDisk unit :=
  _ ← os_call "stable lock cannot be acquired";
  lift (ensure (negb held) "stable lock acquisition timed out").

Definition require_stable_lock : M TrustDisk unit :=
  d ← get;
  match td_lock d with
  | NodeEntry n =>
      _ ← lift (validate_private_file "stable lock" n);
      os_call "stable lock changed during acquisition"
  | _ => lift (trust_error "stable lock changed during acquisition")
  end.

Definition load_locked (cf : TrustStoreConfig) : M TrustDisk TrustSequenceState :=
  _ ← os_call "checkpoint is missing or unavailable";
  d ← get;
  match td_state d with
  | NodeEntry n =>
      _ ← lift (validate_private_file "checkpoint" n);
      _ ← lift (ensure ((1 <=? str_len (fn_bytes n))%Z && (str_len (fn_bytes n) <=? MAX_STATE_BYTES)%Z)
                  "checkpoint is outside its size limit");
      _ ← os_call "checkpoint cannot be read";
      _ ← os_call "checkpoint changed while it was read";
      lift (read_state cf (fn_bytes n))
  | _ => lift (trust_error "checkpoint is missing or unavailable")
  end.

(** ** Writing *)
Abbreviation StoreState := (TrustStore * TrustDisk)%type.
Definition on_disk {A} (m : M TrustDisk A) : M StoreState A := zoom snd (λ d s, (s.1, d)) m.
Definition poison : M StoreState unit :=
  modify (λ s, (mk_TrustStore (st_sequence s.1) (st_bundle_sha256 s.1) true, s.2)).
Definition set_observed (sequence : Z) (bundle : string) : M StoreState unit :=
  modify (λ s, (mk_TrustStore sequence bundle (st_poisoned s.1), s.2)).

(** The temporary file, its [fsync], the replacement and the directory's [fsync]. *)
Definition replace_state (material : string) (outcome : UpdateOutcome) : M TrustDisk unit := λ d,
  let file := NodeEntry (private_file material) in
  match outcome with
  | Updated => (Ok tt, next_step (set_state_entry file file d))
  | NotReplaced _ => (raise_ "OSError" "", next_step d)
  | Unsynced => (raise_ "OSError" "", next_step (set_state_entry file (td_synced d) d))
  end.

(** [finally]: the temporary file is removed if it was not moved. *)
Definition remove_temporary (outcome : UpdateOutcome) : M TrustDisk unit :=
  match outcome with
  | NotReplaced true => _ ← modify (add_other ".tmp"); throw "OSError" "temporary file cannot be removed"
  | _ => mret tt
  end.

(** The [try] body from the temporary file to the readback. *)
Definition install (cf : TrustStoreConfig) (state : TrustSequenceState) (material : string)
    (outcome : UpdateOutcome) : M TrustDisk unit :=
  _ ← replace_state material outcome;
  readback ← load_locked cf;
  lift (ensure (bool_decide (readback = state)) "checkpoint readback disagrees").

Definition write_locked (cf : TrustStoreConfig) (state : TrustSequenceState) : M StoreState unit :=
  material ← lift (state_file_bytes state);
  _ ← lift (ensure (str_len material <=? MAX_STATE_BYTES)%Z "checkpoint exceeds its size limit");
  s ← get;
  let outcome := update_outcome (td_step s.2) in
  done_ ← attempt (on_disk (install cf state material outcome));
  match done_ with
  | Ok _ => mret tt
  | Raise e =>
      _ ← poison;
      _ ← on_disk (remove_temporary outcome);
      lift (if isinstance_exn e "WorkloadTrustSequenceStateError" then Raise e
            else trust_error "checkpoint update failed")
  end.

(** ** One observation *)
(** Up to the lock: whether the directory is to be initialized. *)
Definition prepare (sequence : Z) (bundle : string) : M StoreState bool :=
  _ ← lift (ensure (is_sha256 bundle) "bundle digest is invalid");
  _ ← lift (require (1 <=? sequence)%Z "WorkloadTrustSequenceStateError"
              "workload trust-bundle sequence is invalid");
  s ← get;
  _ ← lift (ensure (negb (st_poisoned s.1)) "state instance is poisoned");
  _ ← on_disk open_parent;
  bootstrap ← on_disk classify_layout;
  _ ← on_disk (open_lock bootstrap);
  mret bootstrap.

Definition sequence_error (msg : string) : string := "workload trust bundle sequence " +:+ msg.
(** The comparisons with the checkpoint and with what this instance observed. *)
Definition check_sequence (current : option TrustSequenceState) (store : TrustStore) (sequence : Z)
    (bundle : string) : result unit :=
  let refuse c msg := require (negb c) "WorkloadTrustSequenceStateError" (sequence_error msg) in
  _ ← match current with
      | Some c =>
          _ ← refuse (sequence <? highest_sequence c)%Z "rolled back";
          refuse ((sequence =? highest_sequence c)%Z && negb (bool_decide (bundle = highest_bundle_sha256 c)))
            "was equivocated"
      | None => Ok tt
      end;
  _ ← refuse (sequence <? st_sequence store)%Z "rolled back in process";
  refuse ((sequence =? st_sequence store)%Z && negb (bool_decide (st_bundle_sha256 store = ""))
          && negb (bool_decide (bundle = st_bundle_sha256 store))) "was equivocated in process".

Definition current_state (cf : TrustStoreConfig) (bootstrap : bool) : M StoreState (option TrustSequenceState) :=
  if bootstrap then
    _ ← on_disk (require_entries false true);
    mret None
  else
    _ ← on_disk (require_entries true true);
    loaded ← attempt (on_disk (load_locked cf));
    match loaded with
    | Ok c => mret (Some c)
    | Raise e =>
        _ ← (if isinstance_exn e "WorkloadTrustSequenceStateError" then poison else mret tt);
        lift (Raise e)
    end.

(** A later observation, or the first one, becomes the checkpoint. *)
Definition write_observation (cf : TrustStoreConfig) (sequence : Z) (bundle : string) :
    M StoreState TrustSequenceState :=
  c ← lift (state_create (cf_trust_domain cf) (cf_authority_key_id cf)
              (cf_authority_public_key_sha256 cf) sequence bundle);
  _ ← write_locked cf c;
  _ ← on_disk (require_entries true true);
  mret c.
Definition observe (cf : TrustStoreConfig) (current : option TrustSequenceState) (sequence : Z)
    (bundle : string) : M StoreState TrustSequenceState :=
  match current with
  | Some c => if (highest_sequence c <? sequence)%Z then write_observation cf sequence bundle else mret c
  | None => write_observation cf sequence bundle
  end.

(** With the lock held, up to the [yield]. *)
Definition admit_sequence (cf : TrustStoreConfig) (sequence : Z) (bundle : string) (bootstrap : bool) :
    M StoreState TrustSequenceState :=
  _ ← on_disk require_stable_lock;
  current ← current_state cf bootstrap;
  s ← get;
  _ ← lift (check_sequence current s.1 sequence bundle);
  observed ← observe cf current sequence bundle;
  _ ← set_observed sequence bundle;
  mret observed.

(** Releasing the lock: a failure only poisons the instance. *)
Definition release_lock : M StoreState unit :=
  s ← get;
  _ ← on_disk (modify next_step);
  if os_fails (td_step s.2) then poison else mret tt.

(** The [finally] of an admission that raises; an admitted one releases after the
    caller's own admission. *)
Definition admit_or_release (cf : TrustStoreConfig) (sequence : Z) (bundle : string) (bootstrap : bool) :
    M StoreState TrustSequenceState := λ s,
  match admit_sequence cf sequence bundle bootstrap s with
  | (Ok c, s') => (Ok c, s')
  | (Raise e, s') => (_ ← release_lock; lift (Raise e)) s'
  end.

Definition transaction (cf : TrustStoreConfig) (sequence : Z) (bundle : string) (held : bool) :
    M StoreState TrustSequenceState :=
  bootstrap ← prepare sequence bundle;
  _ ← on_disk (acquire_lock held);
  admit_or_release cf sequence bundle bootstrap.

(** [__init__]; the path is absolute and names a file. *)
Definition FileWorkloadTrustSequenceStateStore_init (cf : TrustStoreConfig) : M TrustDisk TrustStore :=
  _ ← lift (ensure (identity_bounds (cf_trust_domain cf)) "trust domain is invalid");
  _ ← lift (ensure (identity_bounds (cf_authority_key_id cf)) "authority key ID is invalid");
  _ ← lift (ensure (is_sha256 (cf_authority_public_key_sha256 cf)) "authority public key digest is invalid");
  _ ← open_parent;
  _ ← classify_layout;
  mret (mk_TrustStore 0 "" false).
End store.

(** ** Checkpoints read back *)
Lemma state_dump_ok s : json_ok (JObj (state_dump s)) = true.
Proof. cbn [json_ok]. rewrite bool_decide_eq_true_2; [done|]. by apply (bool_decide_unpack _). Qed.
Lemma state_file s : state_file_bytes s = Ok (dumps (JObj (state_dump s)) +:+ newline).
Proof. reflexivity. Qed.

Lemma append_inj_r (a b c : string) : a +:+ c = b +:+ c → a = b.
Proof.
  revert b. induction a as [|x a IH]; intros [|y b] E; [done| | |].
  - apply (f_equal String.length) in E. cbn in E. rewrite str_length_app in E. lia.
  - apply (f_equal String.length) in E. cbn in E. rewrite str_length_app in E. lia.
  - injection E as -> E. by rewrite (IH b).
Qed.

Lemma state_dump_get s k : dict_get k (canonical_payload (state_dump s)) = canon <$> dict_get k (state_dump s).
Proof. apply canonical_get. by apply (bool_decide_unpack _). Qed.

(** The file determines the state. *)
Lemma state_file_inj s s' b : state_file_bytes s = Ok b → state_file_bytes s' = Ok b → s = s'.
Proof.
  rewrite !state_file. intros <-%Ok_inj E%Ok_inj. apply append_inj_r in E.
  apply dumps_inj in E; [|apply state_dump_ok..]. rewrite !canon_payload in E.
  apply (f_equal (λ j, match j with JObj kv => kv | _ => [] end)) in E.
  assert (Hget : ∀ k, canon <$> dict_get k (state_dump s') = canon <$> dict_get k (state_dump s)).
  { intros k. by rewrite <- !state_dump_get, E. }
  pose proof (Hget "trust_domain") as G1. pose proof (Hget "authority_key_id") as G2.
  pose proof (Hget "authority_public_key_sha256") as G3. pose proof (Hget "highest_sequence") as G4.
  pose proof (Hget "highest_bundle_sha256") as G5. pose proof (Hget "integrity_sha256") as G6.
  clear Hget E. destruct s, s'. vm_compute in G1, G2, G3, G4, G5, G6. congruence.
Qed.

Lemma strict_json_loads_state s :
  strict_json_loads (dumps (JObj (state_dump s)) +:+ newline) = Ok (JObj (canonical_payload (state_dump s))).
Proof. apply strict_loads_line, state_dump_ok. Qed.

Lemma state_of_dump s : TrustSequenceState_validate s = Ok s → state_of (canonical_payload (state_dump s)) = Ok s.
Proof.
  intros Hv. unfold state_of. rewrite only_keys_canon by reflexivity.
  unfold literal_of, str_of, int_of. rewrite !state_dump_get.
  unfold state_dump, integrity_fields, checkpoint_fields. cbn [app]. fields.
  cbn [fmap option_fmap option_map canon]. rewrite bool_decide_eq_true_2 by done. cbn [mbind result_bind].
  by destruct s.
Qed.

Definition of_config (cf : TrustStoreConfig) (s : TrustSequenceState) : Prop :=
  trust_domain s = cf_trust_domain cf ∧ authority_key_id s = cf_authority_key_id cf
  ∧ authority_public_key_sha256 s = cf_authority_public_key_sha256 cf.

Lemma read_state_Ok cf material s :
  read_state cf material = Ok s → state_file_bytes s = Ok material ∧ TrustSequenceState_validate s = Ok s ∧ of_config cf s.
Proof.
  unfold read_state. intros H. apply result_bind_Ok in H as (s0 & Hs & H). apply result_bind_Ok in H as (b & Hb & H).
  unfold ensure in H. destruct (bool_decide (material = b)) eqn:Hm; [|discriminate H]. cbn [mbind result_bind] in H.
  destruct (_ && _) eqn:E; [|discriminate H]. apply Ok_inj in H as <-. bool_split. subst b. split; [done|].
  split; [|done]. match type of Hs with match ?m with _ => _ end = _ => destruct m as [s|e] eqn:Hr end.
  - apply Ok_inj in Hs as <-. apply result_bind_Ok in Hr as (j & _ & Hr). destruct j as [| | | | | |kv]; try discriminate Hr.
    unfold state_of in Hr. do 8 (apply result_bind_Ok in Hr as (? & _ & Hr)). pose proof Hr as Hr'.
    unfold TrustSequenceState_validate in Hr'. apply require_bind in Hr' as [_ Hr'].
    apply result_bind_Ok in Hr' as (d & _ & Hr'). apply require_bind in Hr' as [_ Hr'%Ok_inj]. by rewrite Hr' in Hr.
  - destruct (isinstance_exn e _); discriminate Hs.
Qed.

Lemma read_state_file cf s material :
  TrustSequenceState_validate s = Ok s → of_config cf s → state_file_bytes s = Ok material →
  read_state cf material = Ok s.
Proof.
  intros Hv (H1 & H2 & H3) Hm. pose proof Hm as E. rewrite state_file in E. apply Ok_inj in E as <-.
  unfold read_state. rewrite strict_json_loads_state. cbn [mbind result_bind]. rewrite state_of_dump by done.
  cbn [mbind result_bind]. rewrite Hm. cbn [mbind result_bind].
  rewrite !bool_decide_eq_true_2 by done. reflexivity.
Qed.

Lemma state_create_Ok td ak pk seq bundle s :
  state_create td ak pk seq bundle = Ok s →
  TrustSequenceState_validate s = Ok s ∧ of_config (mk_TrustStoreConfig td ak pk) s
  ∧ highest_sequence s = seq ∧ highest_bundle_sha256 s = bundle.
Proof.
  unfold state_create. intros H. apply result_bind_Ok in H as (d & _ & H). pose proof H as H'.
  unfold TrustSequenceState_validate in H'. apply require_bind in H' as [_ H'].
  apply result_bind_Ok in H' as (d' & _ & H'). apply require_bind in H' as [_ H'%Ok_inj]. subst s.
  split; [exact H|]. done.
Qed.

(** ** What leaves the checkpoint alone *)
Section frames.
Context {TE : TrustEnv}.
Abbreviation StoreState := (TrustStore * TrustDisk)%type.

Definition same_disk (d d' : TrustDisk) : Prop := td_state d' = td_state d ∧ td_synced d' = td_synced d.
Definition same_checkpoint (s s' : StoreState) : Prop := same_disk s.2 s'.2.
#[export] Instance same_disk_preorder : PreOrder same_disk.
Proof using Type. split; [done|]. intros a b c [? ?] [? ?]. split; congruence. Qed.
#[export] Instance same_checkpoint_preorder : PreOrder same_checkpoint.
Proof using Type. split; [intros s; unfold same_checkpoint; reflexivity|]. intros a b c. unfold same_checkpoint. apply transitivity. Qed.

Lemma same_os_call msg : preserves same_disk (os_call msg).
Proof using Type. by intros d. Qed.
#[local] Hint Resolve same_os_call : frames.
Lemma same_open_parent : preserves same_disk open_parent.
Proof using Type. unfold open_parent. frame. Qed.
Lemma same_classify_layout : preserves same_disk classify_layout.
Proof using Type. unfold classify_layout. frame. Qed.
Lemma same_require_entries a b : preserves same_disk (require_entries a b).
Proof using Type. unfold require_entries. frame. Qed.
Lemma same_lock_entry e : preserves same_disk (modify (set_lock_entry e)).
Proof using Type. by intros d. Qed.
Lemma same_add_other name : preserves same_disk (modify (add_other name)).
Proof using Type. by intros d. Qed.
#[local] Hint Resolve same_lock_entry same_add_other : frames.
Lemma same_open_lock bootstrap : preserves same_disk (open_lock bootstrap).
Proof using Type. unfold open_lock. frame. Qed.
Lemma same_acquire_lock held : preserves same_disk (acquire_lock held).
Proof using Type. unfold acquire_lock. frame. Qed.
Lemma same_require_stable_lock : preserves same_disk require_stable_lock.
Proof using Type. unfold require_stable_lock. frame. Qed.
Lemma same_load_locked cf : preserves same_disk (load_locked cf).
Proof using Type. unfold load_locked. frame. Qed.
Lemma same_remove_temporary outcome : preserves same_disk (remove_temporary outcome).
Proof using Type. unfold remove_temporary, throw. frame. Qed.
#[local] Hint Resolve same_open_parent same_classify_layout same_require_entries same_open_lock same_acquire_lock
  same_require_stable_lock same_load_locked same_remove_temporary : frames.

Lemma frame_on_disk {A} (m : M TrustDisk A) : preserves same_disk m → preserves same_checkpoint (on_disk m).
Proof using Type. intros Hm s. specialize (Hm s.2). unfold on_disk, zoom. by destruct (m s.2). Qed.
Lemma same_poison : preserves same_checkpoint poison.
Proof using Type. by intros s. Qed.
Lemma same_set_observed sequence bundle : preserves same_checkpoint (set_observed sequence bundle).
Proof using Type. by intros s. Qed.
#[local] Hint Resolve frame_on_disk same_poison same_set_observed : frames.
Lemma same_current_state cf bootstrap : preserves same_checkpoint (current_state cf bootstrap).
Proof using Type. unfold current_state. frame. Qed.
Lemma same_prepare sequence bundle : preserves same_checkpoint (prepare sequence bundle).
Proof using Type. unfold prepare. frame. Qed.
Lemma same_next_step : preserves same_disk (modify next_step).
Proof using Type. by intros d. Qed.
#[local] Hint Resolve same_next_step : frames.
Lemma same_release_lock : preserves same_checkpoint release_lock.
Proof using Type. unfold release_lock. frame. Qed.
Lemma same_init cf : preserves same_disk (FileWorkloadTrustSequenceStateStore_init cf).
Proof using Type. unfold FileWorkloadTrustSequenceStateStore_init. frame. Qed.
#[local] Hint Resolve same_current_state : frames.
Lemma same_acquire held : preserves same_checkpoint (on_disk (acquire_lock held)).
Proof using Type. frame. Qed.
Lemma same_stable : preserves same_checkpoint (on_disk require_stable_lock).
Proof using Type. frame. Qed.

(** ** What an operation finds and leaves *)
(** The checkpoint's octets are those of the state. *)
Definition holds (d : TrustDisk) (s : TrustSequenceState) : Prop :=
  ∃ n, td_state d = NodeEntry n ∧ state_file_bytes s = Ok (fn_bytes n).
Lemma holds_inj d s s' : holds d s → holds d s' → s = s'.
Proof using Type. intros (n & E & H) (n' & E' & H'). assert (n' = n) as -> by congruence. by apply (state_file_inj _ _ _ H H'). Qed.
Lemma holds_same d d' s : same_disk d d' → holds d s → holds d' s.
Proof using Type. intros [E _] (n & H & Hb). exists n. by rewrite E. Qed.

Lemma load_locked_Ok cf d s d' : load_locked cf d = (Ok s, d') → holds d s.
Proof using Type.
  unfold load_locked. intros H. apply M_bind_Ok in H as ([] & d1 & H1 & H).
  pose proof (preserves_run _ _ _ _ _ (same_os_call _) H1) as [E _].
  apply M_bind_Ok in H as (d2 & d3 & [= <- <-] & H). destruct (td_state d1) as [| |n] eqn:Hn; try discriminate H.
  do 4 (apply M_bind_Ok in H as ([] & ? & _ & H)). apply lift_Ok in H as [H _]. apply read_state_Ok in H as [H _].
  exists n. by rewrite <- E.
Qed.

Lemma require_entries_Ok state lock d d' : require_entries state lock d = (Ok tt, d') → present (td_state d) = state.
Proof using Type.
  unfold require_entries. intros H. apply M_bind_Ok in H as ([] & d1 & H1 & H).
  pose proof (preserves_run _ _ _ _ _ (same_os_call _) H1) as [E _].
  apply M_bind_Ok in H as (d2 & d3 & [= <- <-] & H). apply lift_Ok in H as [H _].
  unfold ensure in H. destruct (_ && _) eqn:Hc; [|discriminate H]. bool_split. by rewrite <- E.
Qed.

Lemma current_state_Ok cf bootstrap (s : StoreState) c s' :
  current_state cf bootstrap s = (Ok c, s') →
  match c with Some c => holds s.2 c | None => td_state s.2 = NoEntry end.
Proof using Type.
  unfold current_state. destruct bootstrap; intros H.
  - apply M_bind_Ok in H as ([] & s1 & H1 & [= <- <-]). apply zoom_run in H1 as (d & H1 & _).
    apply require_entries_Ok in H1. by destruct (td_state s.2).
  - apply M_bind_Ok in H as ([] & s1 & H1 & H). apply zoom_run in H1 as (d & H1 & ->).
    pose proof (preserves_run _ _ _ _ _ (same_require_entries _ _) H1) as Hs.
    apply M_bind_Ok in H as (l & s2 & H2 & H). apply attempt_Ok in H2 as [H2 _]. apply zoom_run in H2 as (d2 & H2 & ->).
    destruct l as [c'|e]; cycle 1.
    { apply M_bind_Ok in H as (? & ? & _ & H). discriminate H. }
    injection H as <- <-. apply load_locked_Ok in H2. cbn [snd] in H2.
    destruct H2 as (n & Hn & Hb). exists n. by rewrite <- (proj1 Hs).
Qed.

(** The new checkpoint is in place or nothing changed; it is synced on success. *)
Definition written (c : TrustSequenceState) (d : TrustDisk) (r : result unit) (d' : TrustDisk) : Prop :=
  (r ≠ Ok tt ∧ same_disk d d') ∨ (holds d' c ∧ (r = Ok tt → td_synced d' = td_state d')).

Lemma install_run cf c b outcome d r d' :
  state_file_bytes c = Ok b → install cf c b outcome d = (r, d') → written c d r d'.
Proof using Type.
  intros Hb H. unfold install in H. apply M_bind_case in H as [(e & -> & H)|([] & d1 & H1 & H)].
  - unfold replace_state in H. destruct outcome; [discriminate H|injection H as _ <-..].
    + by left.
    + right. split; [by exists (private_file b)|done].
  - unfold replace_state in H1. destruct outcome; try discriminate H1. injection H1 as <-. right.
    set (d1 := next_step _) in H. assert (Hd : same_disk d1 d') by (eapply preserves_run; [|exact H]; frame).
    destruct Hd as [E1 E2]. split; [exists (private_file b); by rewrite E1|]. intros _. by rewrite E1, E2.
Qed.

Lemma write_locked_run cf c (s : StoreState) r s' :
  write_locked cf c s = (r, s') → written c s.2 r s'.2.
Proof using Type.
  unfold write_locked. intros H.
  apply M_bind_case in H as [(e & -> & H)|(b & s1 & [Hb ->]%lift_Ok & H)]; [by left; injection H as _ <-|].
  apply M_bind_case in H as [(e & -> & H)|([] & s1 & [_ ->]%lift_Ok & H)]; [by left; injection H as _ <-|].
  apply M_bind_case in H as [(e & -> & [=])|(s0 & s1 & [= <- <-] & H)].
  apply M_bind_case in H as [(e & -> & H)|(done_ & s1 & H1 & H)].
  { unfold attempt in H. destruct (on_disk _ s) as [[[]|e'] s1] eqn:Hrun; [discriminate H|].
    destruct (isinstance_exn e' _); [discriminate H|]. injection H as -> ->.
    apply zoom_run in Hrun as (d & Hrun & ->). by apply install_run in Hrun. }
  apply attempt_Ok in H1 as [H1 _]. apply zoom_run in H1 as (d & H1 & ->). apply install_run in H1; [|done].
  destruct done_ as [[]|e]; [by injection H as <- <-|].
  assert (Hs : same_disk d s'.2).
  { enough (same_checkpoint (s.1, d) s') by done. eapply preserves_run; [|exact H]. frame. }
  assert (Hr : r ≠ Ok tt).
  { apply M_bind_case in H as [(? & -> & _)|(? & ? & _ & H)]; [done|].
    apply M_bind_case in H as [(? & -> & _)|(? & ? & _ & H)]; [done|].
    injection H as <- _. by destruct (isinstance_exn e _). }
  destruct H1 as [[_ H1]|[H1 _]]; [left; split; [done|by etrans]|right; split; [by eapply holds_same|done]].
Qed.

(** ** One admission *)
(** Either the checkpoint stays, and then an admitted observation is the one it
    holds; or it becomes the observation's, later than what it was. *)
Definition observes (c : TrustSequenceState) (sequence : Z) (bundle : string) : Prop :=
  highest_sequence c = sequence ∧ highest_bundle_sha256 c = bundle.
Definition admits (sequence : Z) (bundle : string) (d : TrustDisk) (admitted : bool) (d' : TrustDisk) : Prop :=
  (same_disk d d' ∧ (admitted = true → ∃ c, holds d c ∧ observes c sequence bundle))
  ∨ ∃ c, holds d' c ∧ observes c sequence bundle
      ∧ (td_state d = NoEntry ∨ ∃ c0, holds d c0 ∧ (highest_sequence c0 < sequence)%Z).

Lemma admits_refused sequence bundle d d' : same_disk d d' → admits sequence bundle d false d'.
Proof using Type. by left. Qed.

(** What the lock holder found. *)
Definition found (d : TrustDisk) (current : option TrustSequenceState) : Prop :=
  match current with Some c => holds d c | None => td_state d = NoEntry end.
Lemma found_same d d' current : same_disk d d' → found d current → found d' current.
Proof using Type. intros Hs. destruct current; [by apply holds_same|]. intros E. unfold found. by rewrite (proj1 Hs). Qed.
#[export] Instance same_disk_sym : Symmetric same_disk.
Proof using Type. by intros d d' [? ?]. Qed.

Lemma write_observation_run cf sequence bundle (s : StoreState) r s' :
  write_observation cf sequence bundle s = (r, s') →
  (is_Ok r = false ∧ same_disk s.2 s'.2) ∨ ∃ c, holds s'.2 c ∧ observes c sequence bundle.
Proof using Type.
  unfold write_observation. intros H.
  apply M_bind_case in H as [(e & -> & H)|(c & s1 & [Hc ->]%lift_Ok & H)]; [left; by injection H as _ <-|].
  apply state_create_Ok in Hc as (_ & _ & Hc).
  apply M_bind_case in H as [(e & -> & H)|([] & s1 & Hw & H)].
  - apply write_locked_run in H as [[_ H]|[H _]]; [by left|right; by exists c].
  - apply write_locked_run in Hw as [[Hw _]|[Hw _]]; [done|]. right. exists c. split; [|exact Hc].
    eapply holds_same; [|exact Hw]. enough (same_checkpoint s1 s') by done. eapply preserves_run; [|exact H]. frame.
Qed.

Lemma check_sequence_Some c st sequence bundle :
  check_sequence (Some c) st sequence bundle = Ok tt →
  (highest_sequence c <= sequence)%Z ∧ (sequence = highest_sequence c → bundle = highest_bundle_sha256 c).
Proof using Type.
  unfold check_sequence. intros H. apply result_bind_Ok in H as ([] & H & _).
  apply require_bind in H as [H1 H2]. apply require_Ok in H2. bool_split. split; [lia|]. intros ->.
  rewrite Z.eqb_refl in H2. apply andb_false_iff in H2 as [?|H2]; [done|]. by bool_split.
Qed.

Lemma observe_run cf current sequence bundle (s : StoreState) r s' :
  found s.2 current → check_sequence current s.1 sequence bundle = Ok tt →
  observe cf current sequence bundle s = (r, s') → admits sequence bundle s.2 (is_Ok r) s'.2.
Proof using Type.
  intros Hf Hchk H. unfold observe in H.
  assert (Hwrite : ∀ r s', write_observation cf sequence bundle s = (r, s') →
    (td_state s.2 = NoEntry ∨ ∃ c0, holds s.2 c0 ∧ (highest_sequence c0 < sequence)%Z) →
    admits sequence bundle s.2 (is_Ok r) s'.2).
  { intros r0 s0 Hw Hold. apply write_observation_run in Hw as [[-> Hs]|(c & Hc & Ho)]; [by apply admits_refused|].
    right. by exists c. }
  destruct current as [c|]; [|apply Hwrite; [done|by left]].
  destruct (highest_sequence c <? sequence)%Z eqn:Hlt; bool_split.
  - apply Hwrite; [done|right; by exists c].
  - injection H as <- <-. left. split; [done|]. intros _. exists c. split; [exact Hf|].
    apply check_sequence_Some in Hchk as [Hle Heq]. assert (sequence = highest_sequence c) as -> by lia. by rewrite Heq.
Qed.

Lemma admits_same sequence bundle d d1 b d2 d' :
  same_disk d d1 → same_disk d2 d' → admits sequence bundle d1 b d2 → admits sequence bundle d b d'.
Proof using Type.
  intros H1 H2 [[Hs Ha]|(c & Hc & Ho & Hold)].
  - left. split; [by etrans; [|etrans]|]. intros Hb. destruct (Ha Hb) as (c & Hc & Ho). exists c. split; [|done].
    by eapply holds_same.
  - right. exists c. split; [by eapply holds_same|]. split; [done|]. destruct Hold as [Hold|(c0 & Hc0 & Hlt)].
    + left. by rewrite <- (proj1 H1).
    + right. exists c0. split; [by eapply holds_same|done].
Qed.

Lemma admit_run cf sequence bundle bootstrap (s : StoreState) r s' :
  admit_sequence cf sequence bundle bootstrap s = (r, s') → admits sequence bundle s.2 (is_Ok r) s'.2.
Proof using Type.
  unfold admit_sequence. intros H.
  apply M_bind_case in H as [(e & -> & H)|([] & s1 & H1 & H)].
  { apply admits_refused. by apply (preserves_run same_checkpoint _ _ _ _ same_stable) in H. }
  apply (preserves_run same_checkpoint _ _ _ _ same_stable) in H1.
  apply M_bind_case in H as [(e & -> & H)|(current & s2 & H2 & H)].
  { apply admits_refused. apply (preserves_run same_checkpoint _ _ _ _ (same_current_state _ _)) in H. by etrans. }
  pose proof (current_state_Ok _ _ _ _ _ H2) as Hcur.
  apply (preserves_run same_checkpoint _ _ _ _ (same_current_state _ _)) in H2.
  apply M_bind_case in H as [(e & -> & [=])|(s3 & s4 & [= <- <-] & H)].
  apply M_bind_case in H as [(e & -> & H)|([] & s3 & [Hchk ->]%lift_Ok & H)].
  { injection H as _ <-. apply admits_refused. by etrans. }
  apply (admits_same _ _ _ s2.2 _ s'.2); [by etrans|done|].
  apply (found_same _ _ _ H2) in Hcur. apply M_bind_case in H as [(e & -> & H)|(observed & s3 & Hw & H)].
  - by apply observe_run in H.
  - apply observe_run in Hw; [|done..]. injection H as <- <-. exact Hw.
Qed.

Lemma admit_or_release_run cf sequence bundle bootstrap (s : StoreState) r s' :
  admit_or_release cf sequence bundle bootstrap s = (r, s') → admits sequence bundle s.2 (is_Ok r) s'.2.
Proof using Type.
  unfold admit_or_release. destruct (admit_sequence _ _ _ _ s) as [[c|e] s1] eqn:E; apply admit_run in E.
  - by intros [= <- <-].
  - intros H. assert (Hs : same_checkpoint s1 s').
    { eapply preserves_run; [|exact H]. pose proof same_release_lock. frame. }
    assert (is_Ok r = false) as ->.
    { apply M_bind_case in H as [(? & -> & _)|(? & ? & _ & H)]; [done|]. by injection H as <- _. }
    apply (admits_same _ _ _ s.2 _ s1.2); [done..|]. exact E.
Qed.
End frames.
#[export] Hint Resolve same_prepare same_release_lock same_acquire same_stable same_current_state : frames.
