(* ===== verification/TrustRuns.v ===== *)
(** * Processes that share a trust-sequence checkpoint

    Any number of processes, each with its own store, interleave between the
    operating-system visible phases of a transaction: up to the lock, with the
    lock until the caller's admission ends, and the release.  Processes die and
    are started at any point, and the machine may lose power.
    [trust_never_rolls_back] is about every such run; [transaction_contract] says
    what one undisturbed transaction does. *)
From S2P Require Import Prelude PyStr PyJson Sha256 Models PyModel TrustState.

Section runs.
Context {TE : TrustEnv}.

Inductive Phase := Idle | Waiting (sequence : Z) (bundle : string) (bootstrap : bool) | Holding.
Record Process := mk_Process { pr_config : TrustStoreConfig; pr_store : TrustStore; pr_phase : Phase }.
Record System := mk_System {
  sy_disk : TrustDisk;
  sy_holder : option Z;
  sy_processes : gmap Z Process;
}.
Definition set_process (p : Z) (q : Process) (d : TrustDisk) (h : option Z) (s : System) : System :=
  mk_System d h (<[p := q]> (sy_processes s)).
(** A process that dies gives its lock up. *)
Definition without (p : Z) (h : option Z) : option Z := if bool_decide (h = Some p) then None else h.
Definition observed : Type := Z * string.

(** Steps of one process or of the machine; an admission shows what was observed.
    [lossy]: power may be lost while the directory is not synced. *)
Inductive trust_step (lossy : bool) : System → option observed → System → Prop :=
  | step_start s p cf st d :
      FileWorkloadTrustSequenceStateStore_init cf (sy_disk s) = (Ok st, d) →
      trust_step lossy s None (set_process p (mk_Process cf st Idle) d (without p (sy_holder s)) s)
  | step_prepare s p cf st sequence bundle r st' d :
      sy_processes s !! p = Some (mk_Process cf st Idle) →
      prepare sequence bundle (st, sy_disk s) = (r, (st', d)) →
      trust_step lossy s None
        (set_process p (mk_Process cf st' (match r with Ok b => Waiting sequence bundle b | Raise _ => Idle end))
           d (sy_holder s) s)
  | step_timeout s p cf st sequence bundle b e st' d :
      sy_processes s !! p = Some (mk_Process cf st (Waiting sequence bundle b)) →
      on_disk (acquire_lock (bool_decide (is_Some (sy_holder s)))) (st, sy_disk s) = (Raise e, (st', d)) →
      trust_step lossy s None (set_process p (mk_Process cf st' Idle) d (sy_holder s) s)
  | step_admit s p cf st sequence bundle b d0 r st' d :
      sy_processes s !! p = Some (mk_Process cf st (Waiting sequence bundle b)) →
      sy_holder s = None →
      on_disk (acquire_lock false) (st, sy_disk s) = (Ok tt, (st, d0)) →
      admit_or_release cf sequence bundle b (st, d0) = (r, (st', d)) →
      trust_step lossy s (if is_Ok r then Some (sequence, bundle) else None)
        (set_process p (mk_Process cf st' (if is_Ok r then Holding else Idle)) d
           (if is_Ok r then Some p else None) s)
  | step_release s p cf st st' d :
      sy_processes s !! p = Some (mk_Process cf st Holding) →
      release_lock (st, sy_disk s) = (Ok tt, (st', d)) →
      trust_step lossy s None (set_process p (mk_Process cf st' Idle) d (without p (sy_holder s)) s)
  | step_crash s p :
      trust_step lossy s None
        (mk_System (sy_disk s) (without p (sy_holder s)) (delete p (sy_processes s)))
  | step_power_loss s :
      lossy = true ∨ td_synced (sy_disk s) = td_state (sy_disk s) →
      trust_step lossy s None
        (mk_System (set_state_entry (td_synced (sy_disk s)) (td_synced (sy_disk s)) (sy_disk s)) None ∅).

Inductive trust_run (lossy : bool) (s : System) : list observed → System → Prop :=
  | run_start : trust_run lossy s [] s
  | run_step es s1 e s2 :
      trust_run lossy s es s1 → trust_step lossy s1 e s2 → trust_run lossy s (es ++ option_list e) s2.

(** ** The invariant: the checkpoint bounds what was observed *)
Definition bounded_by (d : TrustDisk) (o : observed) : Prop :=
  ∃ c, holds d c ∧ (o.1 <= highest_sequence c)%Z ∧ (o.1 = highest_sequence c → o.2 = highest_bundle_sha256 c).
Definition follows (a b : observed) : Prop := (a.1 <= b.1)%Z ∧ (a.1 = b.1 → a.2 = b.2).

Lemma bounded_same d d' o : same_disk d d' → bounded_by d o → bounded_by d' o.
Proof using Type. intros Hs (c & Hc & H). exists c. split; [by eapply holds_same|done]. Qed.

Lemma bounded_admits sequence bundle d b d' o :
  admits sequence bundle d b d' → bounded_by d o →
  bounded_by d' o ∧ (b = true → follows o (sequence, bundle)).
Proof using Type.
  intros H (c & Hc & Hle & Heq). destruct H as [[Hs Ha]|(c' & Hc' & [Hseq Hb] & Hold)].
  - split; [by apply (bounded_same d); [|exists c]|]. intros Ht. destruct (Ha Ht) as (c' & Hc' & <- & <-).
    assert (c' = c) as -> by by eapply holds_inj. done.
  - destruct Hold as [Hn|(c0 & Hc0 & Hlt)]; [destruct Hc as (n & Hn' & _); congruence|].
    assert (c0 = c) as -> by by eapply holds_inj. split.
    + exists c'. split; [done|]. split; [lia|]. intros E. lia.
    + intros _. split; simpl; [lia|]. intros E. lia.
Qed.
Lemma admitted_holds sequence bundle d d' :
  admits sequence bundle d true d' → ∃ c, holds d' c ∧ observes c sequence bundle.
Proof using Type.
  intros [[Hs Ha]|(c & Hc & Ho & _)]; [|by exists c].
  destruct (Ha eq_refl) as (c & Hc & Ho). exists c. split; [by eapply holds_same|done].
Qed.
Lemma bounded_admitted sequence bundle d d' :
  admits sequence bundle d true d' → bounded_by d' (sequence, bundle).
Proof using Type.
  intros (c & Hc & <- & <-)%admitted_holds. by exists c.
Qed.

(** Appending to a list whose elements are ordered by what they show. *)
Lemma pairwise_snoc {A} (f : A → observed) es e :
  (∀ i j a b, i < j → es !! i = Some a → es !! j = Some b → follows (f a) (f b)) →
  (∀ a x, a ∈ es → e = Some x → follows (f a) (f x)) →
  ∀ i j a b, i < j → (es ++ option_list e) !! i = Some a → (es ++ option_list e) !! j = Some b →
    follows (f a) (f b).
Proof using Type.
  intros Hes He i j a b Hij Ha Hb. destruct (decide (j < length es)) as [Hj|Hj].
  - rewrite lookup_app_l in Ha, Hb by lia. by apply (Hes i j).
  - rewrite (lookup_app_r es) in Hb by lia. destruct e as [x|]; [|done].
    destruct (j - length es) as [|k] eqn:Ek; [|done]. injection Hb as <-.
    rewrite lookup_app_l in Ha by lia. apply He; [by eapply list_elem_of_lookup_2|done].
Qed.

(** A step adds an observation not before the earlier ones and keeps the bound. *)
Lemma trust_step_bounded s e s' :
  trust_step false s e s' →
  (∀ o, bounded_by (sy_disk s) o → bounded_by (sy_disk s') o ∧ (∀ o', e = Some o' → follows o o'))
  ∧ (∀ o', e = Some o' → bounded_by (sy_disk s') o').
Proof using Type.
  assert (Hquiet : ∀ (s s' : System), same_disk (sy_disk s) (sy_disk s') →
    (∀ o, bounded_by (sy_disk s) o → bounded_by (sy_disk s') o ∧ (∀ o', None = Some o' → follows o o'))
    ∧ (∀ o', None = Some o' → bounded_by (sy_disk s') o')).
  { clear. intros s s' Hs. split; [|done]. intros o Ho. split; [by eapply bounded_same|done]. }
  destruct 1 as [s p cf st d H|s p cf st sequence bundle r st' d _ H|s p cf st sequence bundle b e st' d _ H
    |s p cf st sequence bundle b d0 r st' d _ _ Ha H|s p cf st st' d _ H|s p|s [H|H]]; try discriminate H.
  - apply Hquiet. apply (preserves_run same_disk _ _ _ _ (same_init cf) H).
  - apply Hquiet. apply (preserves_run same_checkpoint _ _ _ _ (same_prepare _ _) H).
  - apply Hquiet. apply (preserves_run same_checkpoint _ _ _ _ (same_acquire _) H).
  - apply (preserves_run same_checkpoint _ _ _ _ (same_acquire _)) in Ha. apply admit_or_release_run in H. cbn [fst snd] in H.
    assert (Hadm : admits sequence bundle (sy_disk s) (is_Ok r) d) by (eapply admits_same; [exact Ha|done|exact H]).
    split.
    + intros o Ho. destruct (bounded_admits _ _ _ _ _ _ Hadm Ho) as [H1 H2]. split; [exact H1|].
      intros o' E. destruct (is_Ok r); [|discriminate E]. injection E as <-. by apply H2.
    + intros o' E. destruct (is_Ok r); [|discriminate E]. injection E as <-. by eapply bounded_admitted.
  - apply Hquiet. apply (preserves_run same_checkpoint _ _ _ _ same_release_lock H).
  - by apply Hquiet.
  - apply Hquiet. simpl. split; simpl; [by rewrite H|done].
Qed.

Lemma trust_run_bounded s es s' :
  trust_run false s es s' →
  (∀ o, o ∈ es → bounded_by (sy_disk s') o)
  ∧ ∀ i j a b, i < j → es !! i = Some a → es !! j = Some b → follows a b.
Proof using Type.
  induction 1 as [|es s1 e s2 _ [IHb IHo] Hstep]; [by split; [intros o ?%elem_of_nil|intros ? ? ? ? ? ?]|].
  apply trust_step_bounded in Hstep as [Hold Hnew]. split.
  - intros o [Ho|Ho]%elem_of_app; [by apply Hold, IHb|].
    destruct e as [o'|]; [|by apply elem_of_nil in Ho]. apply list_elem_of_singleton in Ho as ->. by apply Hnew.
  - apply (pairwise_snoc id); [done|]. intros a x Ha ->. by apply (Hold a); [apply IHb|].
Qed.

(** C38 Trust never rolls back: in every run of any processes over one
    directory, with failing operating-system calls, timeouts, deaths and restarts
    at any point and power losses that find the directory synced, an observation
    that is admitted is never followed by an earlier one, nor by another bundle
    under the same sequence number, and the checkpoint bounds all of them. *)
Theorem trust_never_rolls_back s es s' :
  trust_run false s es s' →
  (∀ i j a b, i < j → es !! i = Some a → es !! j = Some b → (a.1 <= b.1)%Z ∧ (a.1 = b.1 → a.2 = b.2))
  ∧ ∀ o, o ∈ es → ∃ c, holds (sy_disk s') c ∧ (o.1 <= highest_sequence c)%Z
      ∧ (o.1 = highest_sequence c → o.2 = highest_bundle_sha256 c).
Proof using Type. intros H. apply trust_run_bounded in H as [H1 H2]. split; [exact H2|exact H1]. Qed.
End runs.

(** ** One undisturbed transaction *)
Section contract.
Context {TE : TrustEnv}.
Abbreviation StoreState := (TrustStore * TrustDisk)%type.

Record quiet : Prop := {
  quiet_calls : ∀ n, os_fails n = false;
  quiet_updates : ∀ n, update_outcome n = Updated;
}.
Definition config_ok (cf : TrustStoreConfig) : Prop :=
  identity_bounds (cf_trust_domain cf) = true ∧ identity_bounds (cf_authority_key_id cf) = true
  ∧ is_sha256 (cf_authority_public_key_sha256 cf) = true.

(** A readable checkpoint file of the configured trust. *)
Definition state_entry (cf : TrustStoreConfig) (c : TrustSequenceState) (e : DirEntry) : Prop :=
  ∃ n, e = NodeEntry n ∧ validate_private_file "checkpoint" n = Ok tt
    ∧ (1 <= str_len (fn_bytes n) <= MAX_STATE_BYTES)%Z ∧ state_file_bytes c = Ok (fn_bytes n)
    ∧ TrustSequenceState_validate c = Ok c ∧ of_config cf c.
(** A private directory with this checkpoint, and the lock if [lock]. *)
Record layout (cf : TrustStoreConfig) (cur : option TrustSequenceState) (lock : bool) (d : TrustDisk) : Prop := {
  ly_parent : ∃ n, td_parent d = Some n ∧ dn_directory n && dn_owned n && (dn_mode n =? 448)%Z = true;
  ly_others : td_others d = [];
  ly_lock : if lock then ∃ n, td_lock d = NodeEntry n ∧ validate_private_file "stable lock" n = Ok tt
            else td_lock d = NoEntry;
  ly_state : match cur with Some c => state_entry cf c (td_state d) | None => td_state d = NoEntry end;
}.

Context (Q : quiet).
(** [m] succeeds on what satisfies [P] and leaves what satisfies [P']. *)
Definition succeeds {A} (P : TrustDisk → Prop) (m : M TrustDisk A) (a : A) (P' : TrustDisk → Prop) : Prop :=
  ∀ d, P d → ∃ d', m d = (Ok a, d') ∧ P' d'.

Lemma layout_step cf cur lock d : layout cf cur lock d → layout cf cur lock (next_step d).
Proof using Type. by intros []. Qed.
Lemma succeeds_call cf cur lock msg : succeeds (layout cf cur lock) (os_call msg) tt (layout cf cur lock).
Proof using Q.
  intros d Hd. exists (next_step d). split; [|by apply layout_step]. unfold os_call.
  by rewrite (quiet_calls Q).
Qed.
Lemma succeeds_bind {A B} (m : M TrustDisk A) (k : A → M TrustDisk B) P P1 P2 a b :
  succeeds P m a P1 → succeeds P1 (k a) b P2 → succeeds P (m ≫= k) b P2.
Proof using Type.
  intros Hm Hk d Hd. destruct (Hm d Hd) as (d1 & H1 & Hd1). destruct (Hk d1 Hd1) as (d2 & H2 & Hd2).
  exists d2. split; [|done]. by rewrite (M_bind_run _ _ _ _ _ H1).
Qed.
Lemma succeeds_get {B} (k : TrustDisk → M TrustDisk B) P b P' :
  (∀ d, P d → ∃ d', k d d = (Ok b, d') ∧ P' d') → succeeds P (get ≫= k) b P'.
Proof using Type. intros H d Hd. by apply H. Qed.
Lemma succeeds_lift {A} (r : result A) a P : r = Ok a → succeeds P (lift r) a P.
Proof using Type. intros -> d Hd. by exists d. Qed.
Ltac run := erewrite M_bind_run by reflexivity; cbn [fst snd].
Ltac call := eapply succeeds_bind; [apply succeeds_call|].

Lemma succeeds_open_parent cf cur lock : succeeds (layout cf cur lock) open_parent tt (layout cf cur lock).
Proof using Q.
  unfold open_parent. call. apply succeeds_get. intros d Hd. destruct (ly_parent _ _ _ _ Hd) as (n & -> & Hn).
  revert d Hd. change (succeeds (layout cf cur lock)
    (_ ← lift (ensure (dn_directory n && dn_owned n && (dn_mode n =? 448)%Z) "directory must be an owner-matching 0700 directory");
     _ ← os_call "directory cannot be opened safely"; os_call "directory changed during validation") tt (layout cf cur lock)).
  eapply succeeds_bind; [apply succeeds_lift; by rewrite Hn|]. call. apply succeeds_call.
Qed.

Lemma layout_present cf cur lock d : layout cf cur lock d →
  present (td_state d) = bool_decide (is_Some cur) ∧ present (td_lock d) = lock.
Proof using Type.
  intros [_ _ Hl Hs]. split.
  - destruct cur as [c|]; [destruct Hs as (n & -> & _); by rewrite bool_decide_eq_true_2 by eauto|].
    rewrite Hs. symmetry. by apply bool_decide_eq_false_2, is_Some_None.
  - destruct lock; [by destruct Hl as (n & -> & _)|by rewrite Hl].
Qed.

Lemma succeeds_classify cf cur :
  let lock := bool_decide (is_Some cur) in
  succeeds (layout cf cur lock) classify_layout (negb lock) (layout cf cur lock).
Proof using Q.
  intros lock. unfold classify_layout. call. apply succeeds_get. intros d Hd.
  destruct (layout_present _ _ _ _ Hd) as [-> ->]. fold lock. destruct lock; [by exists d|].
  exists d. split; [|done]. unfold mbind, M_bind, lift, ensure. by rewrite (ly_others _ _ _ _ Hd).
Qed.

Lemma succeeds_require_entries cf cur :
  succeeds (layout cf cur true) (require_entries (bool_decide (is_Some cur)) true) tt (layout cf cur true).
Proof using Q.
  unfold require_entries. call. apply succeeds_get. intros d Hd. exists d. split; [|done].
  destruct (layout_present _ _ _ _ Hd) as [-> ->]. rewrite (ly_others _ _ _ _ Hd).
  by rewrite !bool_decide_eq_true_2.
Qed.

Lemma succeeds_open_lock cf cur :
  let lock := bool_decide (is_Some cur) in
  succeeds (layout cf cur lock) (open_lock (negb lock)) tt (layout cf cur true).
Proof using Q.
  intros lock. unfold open_lock. call. apply succeeds_get. intros d Hd. pose proof (ly_lock _ _ _ _ Hd) as Hl.
  destruct lock.
  - destruct Hl as (n & -> & Hn). exists d. split; [by cbn; rewrite Hn|done].
  - rewrite Hl. cbn [negb]. rewrite (M_bind_run (modify _) _ d tt _ eq_refl).
    assert (Hd' : layout cf cur true (set_lock_entry (NodeEntry (private_file "")) d)).
    { destruct Hd as [? ? _ ?]. split; try done. by exists (private_file ""). }
    revert Hd'. generalize (set_lock_entry (NodeEntry (private_file "")) d) as d'.
    change (succeeds (layout cf cur true) (_ ← os_call "stable lock is unavailable"; os_call "stable lock is unavailable")
      tt (layout cf cur true)). call. apply succeeds_call.
Qed.

Lemma succeeds_stable cf cur : succeeds (layout cf cur true) require_stable_lock tt (layout cf cur true).
Proof using Q.
  unfold require_stable_lock. apply succeeds_get. intros d Hd. destruct (ly_lock _ _ _ _ Hd) as (n & -> & Hn).
  rewrite Hn. by apply (succeeds_call cf cur true).
Qed.

Lemma succeeds_load cf c lock : succeeds (layout cf (Some c) lock) (load_locked cf) c (layout cf (Some c) lock).
Proof using Q.
  unfold load_locked. call. apply succeeds_get. intros d Hd.
  destruct (ly_state _ _ _ _ Hd) as (n & -> & Hn & [H1 H2] & Hb & Hv & Hc).
  rewrite Hn. rewrite (proj2 (Z.leb_le _ _) H1), (proj2 (Z.leb_le _ _) H2). rewrite (read_state_file cf c) by done.
  revert d Hd. change (succeeds (layout cf (Some c) lock)
    (_ ← os_call "checkpoint cannot be read"; _ ← os_call "checkpoint changed while it was read"; lift (Ok c))
    c (layout cf (Some c) lock)). call. call. by apply succeeds_lift.
Qed.

Lemma succeeds_on_disk {A} (m : M TrustDisk A) P a P' st d :
  succeeds P m a P' → P d → ∃ d', on_disk m (st, d) = (Ok a, (st, d')) ∧ P' d'.
Proof using Type.
  intros Hm Hd. destruct (Hm d Hd) as (d' & H & Hd'). exists d'. split; [|done]. unfold on_disk, zoom. cbn [snd].
  by rewrite H.
Qed.

(** *** The parts of a transaction *)
Definition acceptable (st : TrustStore) (sequence : Z) (bundle : string) : bool :=
  is_sha256 bundle && (1 <=? sequence)%Z && negb (st_poisoned st).
Lemma prepare_accepts cf cur st sequence bundle d :
  let lock := bool_decide (is_Some cur) in
  acceptable st sequence bundle = true → layout cf cur lock d →
  ∃ d', prepare sequence bundle (st, d) = (Ok (negb lock), (st, d')) ∧ layout cf cur true d'.
Proof using Q.
  intros lock Hacc Hd. unfold acceptable in Hacc. apply andb_true_iff in Hacc as [[H1 H2]%andb_true_iff H3].
  destruct (succeeds_on_disk _ _ _ _ st d (succeeds_open_parent cf cur lock) Hd) as (d1 & E1 & Hd1).
  destruct (succeeds_on_disk _ _ _ _ st d1 (succeeds_classify cf cur) Hd1) as (d2 & E2 & Hd2).
  destruct (succeeds_on_disk _ _ _ _ st d2 (succeeds_open_lock cf cur) Hd2) as (d3 & E3 & Hd3).
  exists d3. split; [|exact Hd3]. unfold prepare. rewrite H1, H2.
  do 2 rewrite (M_bind_run (lift _) _ (st, d) tt (st, d) eq_refl). rewrite (M_bind_run get _ (st, d) _ _ eq_refl).
  cbn [fst]. rewrite H3. rewrite (M_bind_run (lift _) _ (st, d) tt (st, d) eq_refl).
  by rewrite (M_bind_run _ _ _ _ _ E1), (M_bind_run _ _ _ _ _ E2), (M_bind_run _ _ _ _ _ E3).
Qed.
Lemma prepare_refuses st sequence bundle d :
  acceptable st sequence bundle = false → ∃ e, prepare sequence bundle (st, d) = (Raise e, (st, d)).
Proof using Type.
  unfold acceptable, prepare, require, mbind, M_bind, lift, ensure, get. cbn [fst].
  destruct (is_sha256 bundle); [|by eexists]. destruct (1 <=? sequence)%Z; [|by eexists].
  destruct (st_poisoned st); [by eexists|done].
Qed.

Lemma current_state_finds cf cur st d :
  layout cf cur true d →
  ∃ d', current_state cf (negb (bool_decide (is_Some cur))) (st, d) = (Ok cur, (st, d')) ∧ layout cf cur true d'.
Proof using Q.
  intros Hd. unfold current_state.
  destruct (succeeds_on_disk _ _ _ _ st d (succeeds_require_entries cf cur) Hd) as (d1 & E1 & Hd1).
  destruct cur as [c|].
  - rewrite (bool_decide_eq_true_2 (is_Some (Some c))) in * by eauto. cbn [negb].
    destruct (succeeds_on_disk _ _ _ _ st d1 (succeeds_load cf c true) Hd1) as (d2 & E2 & Hd2).
    exists d2. split; [|exact Hd2]. rewrite (M_bind_run _ _ _ _ _ E1). by rewrite (M_bind_run (attempt _) _ (st, d1) (Ok c) (st, d2))
      by (unfold attempt; by rewrite E2).
  - rewrite (bool_decide_eq_false_2 (is_Some None)) in * by by apply is_Some_None. cbn [negb].
    exists d1. split; [|exact Hd1]. by rewrite (M_bind_run _ _ _ _ _ E1).
Qed.

(** *** Writing the checkpoint *)
Definition observation (cf : TrustStoreConfig) (sequence : Z) (bundle : string) : TrustSequenceState :=
  mk_TrustSequenceState (cf_trust_domain cf) (cf_authority_key_id cf) (cf_authority_public_key_sha256 cf)
    sequence bundle
    (sha256_hex (STATE_INTEGRITY_DOMAIN +:+ dumps (JObj (checkpoint_fields (cf_trust_domain cf)
       (cf_authority_key_id cf) (cf_authority_public_key_sha256 cf) sequence bundle)))).
Definition state_bytes (c : TrustSequenceState) : string := dumps (JObj (state_dump c)) +:+ newline.
Definition fits (c : TrustSequenceState) : bool := (str_len (state_bytes c) <=? MAX_STATE_BYTES)%Z.

Lemma checkpoint_integrity td ak pk sequence bundle :
  state_integrity_sha256 (checkpoint_fields td ak pk sequence bundle)
  = Ok (sha256_hex (STATE_INTEGRITY_DOMAIN +:+ dumps (JObj (checkpoint_fields td ak pk sequence bundle)))).
Proof using Type. reflexivity. Qed.
Lemma state_create_total cf sequence bundle :
  config_ok cf → is_sha256 bundle = true → (1 <=? sequence)%Z = true →
  state_create (cf_trust_domain cf) (cf_authority_key_id cf) (cf_authority_public_key_sha256 cf) sequence bundle
  = Ok (observation cf sequence bundle).
Proof using Type.
  intros (H1 & H2 & H3) Hb Hs. unfold state_create, observation.
  pose proof (checkpoint_integrity (cf_trust_domain cf) (cf_authority_key_id cf) (cf_authority_public_key_sha256 cf)
    sequence bundle) as Hd.
  pose proof (sha256_hex_shape (STATE_INTEGRITY_DOMAIN +:+ dumps (JObj (checkpoint_fields (cf_trust_domain cf)
    (cf_authority_key_id cf) (cf_authority_public_key_sha256 cf) sequence bundle)))) as Hshape.
  revert Hd Hshape. generalize (sha256_hex (STATE_INTEGRITY_DOMAIN +:+ dumps (JObj (checkpoint_fields
    (cf_trust_domain cf) (cf_authority_key_id cf) (cf_authority_public_key_sha256 cf) sequence bundle)))) as d.
  intros d Hd Hshape. rewrite Hd. cbn [mbind result_bind]. unfold TrustSequenceState_validate, integrity_fields.
  cbn [trust_domain authority_key_id authority_public_key_sha256 highest_sequence highest_bundle_sha256 integrity_sha256].
  rewrite H1, H2, H3, Hb, Hs, Hshape, Hd. cbn [andb require mbind result_bind].
  by rewrite bool_decide_eq_true_2.
Qed.

Lemma write_locked_fits cf c st cur d :
  TrustSequenceState_validate c = Ok c → of_config cf c → fits c = true → layout cf cur true d →
  ∃ d', write_locked cf c (st, d) = (Ok tt, (st, d')) ∧ layout cf (Some c) true d'.
Proof using Q.
  intros Hv Hc Hf Hd. unfold write_locked. rewrite state_file. fold (state_bytes c).
  run. unfold fits in Hf. rewrite Hf. run. run.
  rewrite (quiet_updates Q). set (file := NodeEntry (private_file (state_bytes c))).
  set (d1 := next_step (set_state_entry file file d)).
  assert (Hd1 : layout cf (Some c) true d1).
  { destruct Hd as [? ? ? _]. split; try done. exists (private_file (state_bytes c)).
    split_and!; try done; [|by apply Z.leb_le]. unfold state_bytes, str_len. cbn [fn_bytes private_file].
    rewrite str_length_app. cbn [newline String.length]. lia. }
  destruct (succeeds_load cf c true d1 Hd1) as (d2 & E2 & Hd2). exists d2. split; [|exact Hd2].
  rewrite (M_bind_run (attempt _) _ (st, d) (Ok tt) (st, d2)); [done|].
  unfold attempt, on_disk, zoom, install. cbn [snd fst]. rewrite (M_bind_run _ _ d tt d1) by reflexivity.
  rewrite (M_bind_run _ _ _ _ _ E2).
  by rewrite bool_decide_eq_true_2.
Qed.
Lemma write_locked_too_long cf c (s : StoreState) :
  fits c = false → ∃ e, write_locked cf c s = (Raise e, s).
Proof using Type.
  intros Hf. unfold write_locked. rewrite state_file. fold (state_bytes c).
  run. unfold fits in Hf. rewrite Hf. by eexists.
Qed.

(** *** The transaction *)
Definition unchanged (current : option TrustSequenceState) (sequence : Z) : bool :=
  match current with Some c => negb (highest_sequence c <? sequence)%Z | None => false end.
(** What an undisturbed transaction accepts. *)
Definition admissible (cf : TrustStoreConfig) (current : option TrustSequenceState) (st : TrustStore)
    (sequence : Z) (bundle : string) : bool :=
  acceptable st sequence bundle && is_Ok (check_sequence current st sequence bundle)
  && (unchanged current sequence || fits (observation cf sequence bundle)).

Lemma observe_contract cf cur st sequence bundle d :
  config_ok cf → acceptable st sequence bundle = true → check_sequence cur st sequence bundle = Ok tt →
  layout cf cur true d →
  ∃ r d', observe cf cur sequence bundle (st, d) = (r, (st, d'))
    ∧ is_Ok r = unchanged cur sequence || fits (observation cf sequence bundle)
    ∧ (∀ c, r = Ok c → observes c sequence bundle ∧ layout cf (Some c) true d')
    ∧ (is_Ok r = false → same_disk d d').
Proof using Q.
  intros Hcf Hacc Hchk Hd. unfold observe.
  assert (Hwrite : ∃ r d', write_observation cf sequence bundle (st, d) = (r, (st, d'))
    ∧ is_Ok r = fits (observation cf sequence bundle)
    ∧ (∀ c, r = Ok c → observes c sequence bundle ∧ layout cf (Some c) true d')
    ∧ (is_Ok r = false → same_disk d d')).
  { unfold acceptable in Hacc. apply andb_true_iff in Hacc as [[H1 H2]%andb_true_iff H3].
    pose proof (state_create_total cf sequence bundle Hcf H1 H2) as Hc. unfold write_observation. rewrite Hc.
    apply state_create_Ok in Hc as (Hv & Hof & Hobs). set (c := observation cf sequence bundle) in *. clearbody c. run.
    destruct (fits c) eqn:Hf.
    - destruct (write_locked_fits cf c st cur d Hv Hof Hf Hd) as (d1 & E1 & Hd1).
      destruct (succeeds_on_disk _ _ _ _ st d1 (succeeds_require_entries cf (Some c)) Hd1) as (d2 & E2 & Hd2).
      rewrite (bool_decide_eq_true_2 (is_Some (Some c))) in E2 by eauto.
      exists (Ok c), d2. rewrite (M_bind_run _ _ _ _ _ E1), (M_bind_run _ _ _ _ _ E2).
      split_and!; [done|done| |done]. by intros ? [= <-].
    - destruct (write_locked_too_long cf c (st, d) Hf) as [e E1]. exists (Raise e), d.
      split_and!; [unfold mbind, M_bind; by rewrite E1|done|done|done]. }
  destruct cur as [c|]; [|exact Hwrite]. unfold unchanged. destruct (highest_sequence c <? sequence)%Z eqn:Hlt; [exact Hwrite|].
  exists (Ok c), d. split_and!; [done|done| |done]. intros ? [= <-]. split; [|done].
  apply check_sequence_Some in Hchk as [Hle Heq]. apply Z.ltb_ge in Hlt. assert (sequence = highest_sequence c) as -> by lia.
  by rewrite Heq.
Qed.

Lemma release_run {A} (e : exn) (s : StoreState) :
  (_ ← release_lock; lift (Raise e : result A)) s = (Raise e, (s.1, next_step s.2)).
Proof using Q. unfold release_lock, mbind, M_bind, get. cbn. by rewrite (quiet_calls Q). Qed.
Lemma admit_contract cf cur st sequence bundle d :
  config_ok cf → acceptable st sequence bundle = true → layout cf cur true d →
  ∃ r st' d', admit_or_release cf sequence bundle (negb (bool_decide (is_Some cur))) (st, d) = (r, (st', d'))
    ∧ is_Ok r = admissible cf cur st sequence bundle
    ∧ (∀ c, r = Ok c → observes c sequence bundle ∧ layout cf (Some c) true d'
         ∧ st' = mk_TrustStore sequence bundle false)
    ∧ (is_Ok r = false → st' = st ∧ same_disk d d').
Proof using Q.
  intros Hcf Hacc Hd. unfold admissible. rewrite Hacc.
  destruct (succeeds_on_disk _ _ _ _ st d (succeeds_stable cf cur) Hd) as (d1 & E1 & Hd1).
  destruct (current_state_finds cf cur st d1 Hd1) as (d2 & E2 & Hd2).
  assert (Hs : same_disk d d2).
  { pose proof (preserves_run same_checkpoint _ _ _ _ same_stable E1) as H1.
    pose proof (preserves_run same_checkpoint _ _ _ _ (same_current_state _ _) E2) as H2. by etrans. }
  unfold admit_or_release, admit_sequence. rewrite (M_bind_run _ _ _ _ _ E1), (M_bind_run _ _ _ _ _ E2). run.
  destruct (check_sequence cur st sequence bundle) as [[]|e] eqn:Hchk; cycle 1.
  { exists (Raise e), st, (next_step d2). split; [|done]. exact (release_run e (st, d2)). }
  run. destruct (observe_contract cf cur st sequence bundle d2 Hcf Hacc Hchk Hd2) as (r & d3 & E3 & Hr & Hok & Hno).
  cbn [is_Ok andb]. rewrite <- Hr. destruct r as [c|e].
  - exists (Ok c), (mk_TrustStore sequence bundle (st_poisoned st)), d3. rewrite (M_bind_run _ _ _ _ _ E3).
    destruct (Hok c eq_refl) as [Ho Hl]. split_and!; [done|done| |done]. intros ? [= <-]. split_and!; [done|done|].
    unfold acceptable in Hacc. by destruct (st_poisoned st); [rewrite andb_false_r in Hacc|].
  - exists (Raise e), st, (next_step d3).
    split_and!; [unfold mbind at 1, M_bind at 1; rewrite E3; exact (release_run e (st, d3))|done|done|].
    intros _. split; [done|]. etrans; [exact Hs|]. etrans; [by apply Hno|done].
Qed.
End contract.

(** One undisturbed transaction is decided exactly: over a private directory
    that is empty or holds the configured trust's checkpoint, with the lock free
    and no call failing, it accepts just the well-formed observations that are not
    poisoned, not earlier than or in conflict with the checkpoint or this
    instance's last one, and that fit the file; then checkpoint and instance hold
    the observation, and otherwise both are what they were. *)
Theorem transaction_contract {TE : TrustEnv} cf cur st sequence bundle d :
  quiet → config_ok cf → layout cf cur (bool_decide (is_Some cur)) d →
  ∃ r st' d', transaction cf sequence bundle false (st, d) = (r, (st', d'))
    ∧ is_Ok r = admissible cf cur st sequence bundle
    ∧ (∀ c, r = Ok c → observes c sequence bundle ∧ layout cf (Some c) true d'
         ∧ st' = mk_TrustStore sequence bundle false)
    ∧ (is_Ok r = false → st' = st ∧ same_disk d d').
Proof.
  intros Q Hcf Hd. unfold transaction. destruct (acceptable st sequence bundle) eqn:Hacc; cycle 1.
  { destruct (prepare_refuses st sequence bundle d Hacc) as [e E]. exists (Raise e), st, d.
    unfold admissible. rewrite Hacc. split_and!; [unfold mbind, M_bind; by rewrite E|done|done|done]. }
  destruct (prepare_accepts Q cf cur st sequence bundle d Hacc Hd) as (d1 & E1 & Hd1).
  destruct (succeeds_on_disk (acquire_lock false) (layout cf cur true) tt (layout cf cur true) st d1) as (d2 & E2 & Hd2); [|done|].
  { eapply succeeds_bind; [by apply succeeds_call|]. by apply succeeds_lift. }
  destruct (admit_contract Q cf cur st sequence bundle d2 Hcf Hacc Hd2) as (r & st' & d' & E & Hr & Hok & Hno).
  exists r, st', d'. rewrite (M_bind_run _ _ _ _ _ E1), (M_bind_run _ _ _ _ _ E2). split_and!; [done|done|done|].
  intros Hn. destruct (Hno Hn) as [-> Hs]. split; [done|].
  pose proof (preserves_run same_checkpoint _ _ _ _ (same_prepare _ _) E1) as H1.
  pose proof (preserves_run same_checkpoint _ _ _ _ (same_acquire _) E2) as H2. etrans; [exact H1|]. by etrans.
Qed.

(** ** Executing a schedule *)
Inductive schedule_action :=
  | Start (p : Z) (cf : TrustStoreConfig)
  | Prepare (p : Z) (sequence : Z) (bundle : string)
  | Admit (p : Z)
  | Release (p : Z)
  | PowerLoss.

Section schedule.
Context {TE : TrustEnv}.
Variable lossy : bool.

Definition perform (a : schedule_action) (s : System) : option (option observed * System) :=
  match a with
  | Start p cf =>
      match FileWorkloadTrustSequenceStateStore_init cf (sy_disk s) with
      | (Ok st, d) => Some (None, set_process p (mk_Process cf st Idle) d (without p (sy_holder s)) s)
      | _ => None
      end
  | Prepare p sequence bundle =>
      match sy_processes s !! p with
      | Some (mk_Process cf st Idle) =>
          let '(r, (st', d)) := prepare sequence bundle (st, sy_disk s) in
          Some (None, set_process p (mk_Process cf st'
                  (match r with Ok b => Waiting sequence bundle b | Raise _ => Idle end)) d (sy_holder s) s)
      | _ => None
      end
  | Admit p =>
      match sy_processes s !! p, sy_holder s with
      | Some (mk_Process cf st (Waiting sequence bundle b)), None =>
          match on_disk (acquire_lock false) (st, sy_disk s) with
          | (Ok _, (_, d0)) =>
              let '(r, (st', d)) := admit_or_release cf sequence bundle b (st, d0) in
              Some (if is_Ok r then Some (sequence, bundle) else None,
                    set_process p (mk_Process cf st' (if is_Ok r then Holding else Idle)) d
                      (if is_Ok r then Some p else None) s)
          | _ => None
          end
      | _, _ => None
      end
  | Release p =>
      match sy_processes s !! p with
      | Some (mk_Process cf st Holding) =>
          match release_lock (st, sy_disk s) with
          | (Ok _, (st', d)) => Some (None, set_process p (mk_Process cf st' Idle) d (without p (sy_holder s)) s)
          | _ => None
          end
      | _ => None
      end
  | PowerLoss =>
      if lossy || bool_decide (td_synced (sy_disk s) = td_state (sy_disk s))
      then Some (None, mk_System (set_state_entry (td_synced (sy_disk s)) (td_synced (sy_disk s)) (sy_disk s)) None ∅)
      else None
  end.

Lemma perform_sound a s e s' : perform a s = Some (e, s') → trust_step lossy s e s'.
Proof using Type.
  destruct a as [p cf|p sequence bundle|p|p|]; cbn [perform]; intros H.
  - destruct (FileWorkloadTrustSequenceStateStore_init _ _) as [[st|] d] eqn:E; [|done]. injection H as <- <-. by apply step_start.
  - destruct (sy_processes s !! p) as [[cf st []]|] eqn:E; try done.
    destruct (prepare _ _ _) as [r [st' d]] eqn:Ep. injection H as <- <-. by eapply step_prepare.
  - destruct (sy_processes s !! p) as [[cf st []]|] eqn:E; try done. destruct (sy_holder s) eqn:Eh; [done|].
    destruct (on_disk _ _) as [[[]|] [st0 d0]] eqn:El; [|done].
    assert (st0 = st) as -> by (unfold on_disk, zoom in El; destruct (acquire_lock false _); by injection El).
    destruct (admit_or_release _ _ _ _ _) as [r [st' d]] eqn:Ea. injection H as <- <-. by eapply step_admit.
  - destruct (sy_processes s !! p) as [[cf st []]|] eqn:E; try done.
    destruct (release_lock _) as [[[]|] [st' d]] eqn:Er; [|done]. injection H as <- <-. by eapply step_release.
  - destruct (_ || _) eqn:E; [|done]. injection H as <- <-. apply step_power_loss.
    apply orb_true_iff in E as [->|E%bool_decide_eq_true]; [by left|by right].
Qed.

Fixpoint schedule (l : list schedule_action) (es : list observed) (s : System) : option (list observed * System) :=
  match l with
  | [] => Some (es, s)
  | a :: l => match perform a s with Some (e, s') => schedule l (es ++ option_list e) s' | None => None end
  end.
Lemma schedule_sound l s0 es s es' s' :
  trust_run lossy s0 es s → schedule l es s = Some (es', s') → trust_run lossy s0 es' s'.
Proof using Type.
  revert es s. induction l as [|a l IH]; intros es s Hr; cbn [schedule]; [by intros [= <- <-]|].
  destruct (perform a s) as [[e s1]|] eqn:Hp; [|done]. apply IH. eapply run_step; [exact Hr|]. by apply (perform_sound a).
Qed.
End schedule.

(** ** Concrete runs *)
Module TrustDemo.
Definition key_digest : string := zeros 64.
Definition cf : TrustStoreConfig := mk_TrustStoreConfig "example.org" "authority-1" key_digest.
Definition bundle_1 : string := sha256_hex "bundle-1".
Definition bundle_2 : string := sha256_hex "bundle-2".
Definition private_directory : DirNode := mk_DirNode true true 448.
Definition empty_directory : TrustDisk := mk_TrustDisk (Some private_directory) NoEntry NoEntry [] NoEntry 0.
Definition nothing_runs : System := mk_System empty_directory None ∅.
Definition fresh : TrustStore := mk_TrustStore 0 "" false.

Definition calm : TrustEnv := {| os_fails _ := false; update_outcome _ := Updated |}.
Lemma calm_quiet : quiet (TE := calm).
Proof. by split. Qed.

(** Two processes; the second waits while the first holds the lock, and the
    machine is restarted in between. *)
Definition two_processes : list schedule_action :=
  [Start 1 cf; Prepare 1 1 bundle_1; Admit 1; Start 2 cf; Prepare 2 2 bundle_2; Release 1; Admit 2; Release 2;
   Prepare 1 1 bundle_1; Admit 1; PowerLoss; Start 3 cf; Prepare 3 2 bundle_2; Admit 3].
Definition two_observed : list observed := [(1%Z, bundle_1); (2%Z, bundle_2); (2%Z, bundle_2)].
Definition end_of (r : option (list observed * System)) : System :=
  match r with Some (_, s) => s | None => nothing_runs end.
Lemma two_run : trust_run (TE := calm) false nothing_runs two_observed
  (end_of (schedule (TE := calm) false two_processes [] nothing_runs)).
Proof.
  apply (schedule_sound (TE := calm) false two_processes nothing_runs [] nothing_runs); [apply run_start|].
  vm_compute. reflexivity.
Qed.
Lemma trust_never_rolls_back_witness :
  ∃ a b c, two_observed = [a; b; c] ∧ (a.1 < b.1)%Z ∧ (a.1 <= c.1)%Z ∧ b.1 = c.1 ∧ b.2 = c.2.
Proof.
  pose proof (proj1 (trust_never_rolls_back (TE := calm) _ _ _ two_run)) as H.
  exists (1%Z, bundle_1), (2%Z, bundle_2), (2%Z, bundle_2). split; [reflexivity|]. split; [reflexivity|].
  split; [refine (proj1 (H 0 2 (1%Z, bundle_1) (2%Z, bundle_2) _ eq_refl eq_refl)); lia|]. split; [reflexivity|].
  refine (proj2 (H 1 2 (2%Z, bundle_2) (2%Z, bundle_2) _ eq_refl eq_refl) eq_refl). lia.
Defined.

(** An undisturbed first observation is accepted. *)
Lemma transaction_contract_witness :
  quiet (TE := calm) ∧ config_ok cf ∧ layout cf None false empty_directory
  ∧ ∃ r st' d', transaction (TE := calm) cf 1 bundle_1 false (fresh, empty_directory) = (r, (st', d'))
      ∧ is_Ok r = admissible cf None fresh 1 bundle_1.
Proof.
  assert (Hcf : config_ok cf) by done.
  assert (Hl : layout cf None false empty_directory) by (split; try done; by exists private_directory).
  split_and!; [exact calm_quiet|exact Hcf|exact Hl|].
  destruct (transaction_contract (TE := calm) cf None fresh 1 bundle_1 empty_directory calm_quiet Hcf Hl)
    as (r & st' & d' & H1 & H2 & _). exists r, st', d'. split; [exact H1|exact H2].
Defined.
Lemma first_admissible : admissible cf None fresh 1 bundle_1 = true.
Proof. vm_compute. reflexivity. Qed.

(** ** An observation that was never synced *)
(** The directory's [fsync] of the second update fails: the writer is refused,
    but the replaced file is visible, another process admits its sequence without
    writing, and a power loss brings the earlier checkpoint back. *)
Definition unsynced_update : TrustEnv :=
  {| os_fails _ := false; update_outcome n := if decide (n < 20) then Updated else Unsynced |}.
Definition lossy_schedule : list schedule_action :=
  [Start 1 cf; Prepare 1 1 bundle_1; Admit 1; Release 1; Start 2 cf; Prepare 1 2 bundle_2; Admit 1;
   Prepare 2 2 bundle_2; Admit 2; Release 2; PowerLoss; Start 3 cf; Prepare 3 1 bundle_1; Admit 3].
Lemma unsynced_observation_lost :
  ∃ s, trust_run (TE := unsynced_update) true nothing_runs
         [(1%Z, bundle_1); (2%Z, bundle_2); (1%Z, bundle_1)] s.
Proof.
  exists (end_of (schedule (TE := unsynced_update) true lossy_schedule [] nothing_runs)).
  apply (schedule_sound (TE := unsynced_update) true lossy_schedule nothing_runs [] nothing_runs); [apply run_start|].
  vm_compute. reflexivity.
Qed.
End TrustDemo.
