(* ===== verification/Workload.v ===== *)
(** * Workload credentials and trust bundles
    ([src/src/aegis_ot/workload_identity.py], the models and their files)

    A pinned authority signs short-lived credentials and a bundle of revocations
    with a sequence number.  [Ed25519Raw] is the [cryptography] package's raw key
    encoding and [ModelLoad] pydantic's reading of JSON into typed fields, before
    the validators written here. *)
From S2P Require Import Prelude PyStr PyTime PyJson Sha256 Crypto Models PyModel.

Class Ed25519Raw `{Ed25519} := {
  public_raw : public_key → string;
  (** [from_public_bytes], [from_private_bytes] of 32 octets. *)
  from_public_bytes : string → public_key;
  from_private_bytes : string → private_key;
}.
Class Ed25519RawLaws `{Ed25519Raw} : Prop := {
  public_raw_length : ∀ k, str_len (public_raw k) = 32%Z;
  from_public_raw : ∀ k, from_public_bytes (public_raw k) = k;
}.
Class ModelLoad (A : Type) := model_load : json → option A.

Definition CREDENTIAL_SIGNATURE_DOMAIN : string :=
  "aegis-ot:m4g:workload-credential:v2" +:+ String (chr 0) "".
Definition TRUST_BUNDLE_SIGNATURE_DOMAIN : string :=
  "aegis-ot:m4g:workload-trust-bundle:v1" +:+ String (chr 0) "".
Definition MAX_IDENTITY_FILE_BYTES : Z := 262144.

Inductive WorkloadRole :=
  | AGENT | CANDIDATE | GATEWAY | OT_ADAPTER | OBSERVER | POLICY | PLANT | PERMIT_ISSUER | SIMULATION.
#[export] Instance WorkloadRole_eq_dec : EqDecision WorkloadRole.
Proof. solve_decision. Defined.

Definition field_error (msg : string) : exn := mk_exn "ValidationError" msg.
Definition field_check (c : bool) (msg : string) : result unit := require c "ValidationError" msg.
Definition text_between (lo hi : Z) (v : string) : bool := (lo <=? str_len v)%Z && (str_len v <=? hi)%Z.
(** A bounded text that [_validate_identity_text] accepts. *)
Definition identity_text (lo hi : Z) (v : string) : bool := text_between lo hi v && negb (has_space v).
(** [value.astimezone(UTC)] *)
Definition as_utc (d : datetime) : datetime := utc (dt_utc d).
(** [items == tuple(sorted(set(items)))] *)
Definition sorted_unique (l : list string) : bool := bool_decide (l = sorted_strs (fromkeys l)).

(** ** Keys *)
Section keys.
Context {ED : Ed25519} {ER : Ed25519Raw}.

Definition public_key_base64 (k : public_key) : string := urlsafe_b64encode (public_raw k).
Definition workload_key_id (k : public_key) : string := "ed25519:" +:+ sha256_hex (public_raw k).
Definition public_key_from_base64 (value : string) : result public_key :=
  raw ← match decode_urlsafe_b64 value with
        | Ok raw => Ok raw
        | Raise e => if isinstance_exn e "ValueError"
                     then raise_ "ValueError" "workload public key encoding is invalid" else Raise e
        end;
  _ ← require (str_len raw =? 32)%Z "ValueError" "workload public key must contain exactly 32 raw bytes";
  Ok (from_public_bytes raw).

Lemma public_key_round_trip `{!Ed25519RawLaws} k : public_key_from_base64 (public_key_base64 k) = Ok k.
Proof.
  unfold public_key_from_base64, public_key_base64. rewrite decode_encode. cbn [mbind result_bind].
  rewrite public_raw_length. cbn. by rewrite from_public_raw.
Qed.
End keys.

(** ** Credentials *)
Record WorkloadCredential := mk_WorkloadCredential {
  credential_id : string;
  cr_trust_domain : string;
  cr_subject : string;
  cr_role : WorkloadRole;
  cr_actor_id : option string;
  cr_key_id : string;
  cr_public_key_b64 : string;
  cr_authority_key_id : string;
  audiences : list string;
  cr_issued_at : datetime;
  not_before : datetime;
  cr_expires_at : datetime;
}.
Record SignedWorkloadCredential := mk_SignedWorkloadCredential {
  credential : WorkloadCredential;
  cred_signature : string;
}.
#[export] Instance WorkloadCredential_eq_dec : EqDecision WorkloadCredential.
Proof. solve_decision. Defined.
#[export] Instance SignedWorkloadCredential_eq_dec : EqDecision SignedWorkloadCredential.
Proof. solve_decision. Defined.

Record WorkloadRevocation := mk_WorkloadRevocation {
  revoked_credential_id : string;
  revoked_at : datetime;
  revocation_reason : string;
}.
#[export] Instance WorkloadRevocation_eq_dec : EqDecision WorkloadRevocation.
Proof. solve_decision. Defined.
Record WorkloadTrustBundle := mk_WorkloadTrustBundle {
  bundle_id : string;
  sequence : Z;
  tb_trust_domain : string;
  tb_authority_key_id : string;
  authority_public_key_b64 : string;
  tb_issued_at : datetime;
  tb_expires_at : datetime;
  revocations : list WorkloadRevocation;
  tb_signature : string;
}.
#[export] Instance WorkloadTrustBundle_eq_dec : EqDecision WorkloadTrustBundle.
Proof. solve_decision. Defined.
Definition bundle_with_signature (b : WorkloadTrustBundle) (sig : string) : WorkloadTrustBundle :=
  mk_WorkloadTrustBundle (bundle_id b) (sequence b) (tb_trust_domain b) (tb_authority_key_id b)
    (authority_public_key_b64 b) (tb_issued_at b) (tb_expires_at b) (revocations b) sig.

Section credentials.
Context {ED : Ed25519} {ER : Ed25519Raw} {DC : ModelDump WorkloadCredential} {DB : ModelDump WorkloadTrustBundle}.

(** A [ValueError] of a validator becomes a [ValidationError]. *)
Definition field_key (value : string) : result public_key :=
  match public_key_from_base64 value with Ok k => Ok k | Raise e => Raise (field_error (exn_str e)) end.
Definition credential_public_key (c : WorkloadCredential) : result public_key :=
  public_key_from_base64 (cr_public_key_b64 c).

Definition WorkloadCredential_validate (c : WorkloadCredential) : result WorkloadCredential :=
  _ ← field_check (identity_text 16 128 (credential_id c) && identity_text 3 128 (cr_trust_domain c)
                   && identity_text 3 256 (cr_subject c)
                   && match cr_actor_id c with Some a => identity_text 1 256 a | None => true end
                   && identity_text 3 128 (cr_key_id c) && text_between 44 44 (cr_public_key_b64 c)
                   && identity_text 3 128 (cr_authority_key_id c)
                   && (1 <=? Z.of_nat (length (audiences c)))%Z && (Z.of_nat (length (audiences c)) <=? 16)%Z
                   && forallb (λ a, negb (has_space a)) (audiences c))
      "field constraint";
  k ← field_key (cr_public_key_b64 c);
  _ ← field_check (dt_aware (cr_issued_at c) && dt_aware (not_before c) && dt_aware (cr_expires_at c))
      "workload credential timestamps must be timezone-aware";
  let c := mk_WorkloadCredential (credential_id c) (cr_trust_domain c) (cr_subject c) (cr_role c) (cr_actor_id c)
             (cr_key_id c) (cr_public_key_b64 c) (cr_authority_key_id c) (audiences c)
             (as_utc (cr_issued_at c)) (as_utc (not_before c)) (as_utc (cr_expires_at c)) in
  _ ← field_check (sorted_unique (audiences c)) "workload credential audiences must be unique and sorted";
  _ ← field_check (dt_leb (cr_issued_at c) (not_before c) && dt_ltb (not_before c) (cr_expires_at c))
      "workload credential validity window is invalid";
  _ ← field_check (bool_decide (cr_key_id c = workload_key_id k))
      "workload credential key ID does not match its public key";
  _ ← field_check (negb (bool_decide (cr_key_id c = cr_authority_key_id c)))
      "workload leaf key must differ from the authority key";
  _ ← field_check (Bool.eqb (bool_decide (cr_role c = AGENT)) (bool_decide (is_Some (cr_actor_id c))))
      "agent workload credentials require one actor ID and non-agent credentials require a null actor ID";
  Ok c.

Definition credential_payload (c : WorkloadCredential) : result string :=
  b ← dumps_strict (model_dump c); Ok (CREDENTIAL_SIGNATURE_DOMAIN +:+ b).
Definition SignedWorkloadCredential_validate (s : SignedWorkloadCredential) : result SignedWorkloadCredential :=
  c ← WorkloadCredential_validate (credential s);
  _ ← field_check (text_between 88 88 (cred_signature s)) "field constraint";
  Ok (mk_SignedWorkloadCredential c (cred_signature s)).
Definition credential_issue (c : WorkloadCredential) (authority : private_key) : result SignedWorkloadCredential :=
  b ← credential_payload c;
  let signature := sign_bytes authority b in
  _ ← field_check (text_between 88 88 signature) "field constraint";
  Ok (mk_SignedWorkloadCredential c signature).
Definition credential_verify (s : SignedWorkloadCredential) (authority : public_key) : result bool :=
  b ← credential_payload (credential s); Ok (verify_bytes authority b (cred_signature s)).

(** ** Trust bundles *)
Definition WorkloadRevocation_validate (r : WorkloadRevocation) : result WorkloadRevocation :=
  _ ← field_check (text_between 16 128 (revoked_credential_id r) && text_between 1 256 (revocation_reason r))
      "field constraint";
  _ ← field_check (dt_aware (revoked_at r)) "workload revocation timestamp must be timezone-aware";
  Ok (mk_WorkloadRevocation (revoked_credential_id r) (as_utc (revoked_at r)) (revocation_reason r)).

Definition WorkloadTrustBundle_validate (b : WorkloadTrustBundle) : result WorkloadTrustBundle :=
  rs ← result_mapM WorkloadRevocation_validate (revocations b);
  _ ← field_check (identity_text 16 128 (bundle_id b) && (1 <=? sequence b)%Z
                   && identity_text 3 128 (tb_trust_domain b) && identity_text 3 128 (tb_authority_key_id b)
                   && text_between 44 44 (authority_public_key_b64 b))
      "field constraint";
  k ← field_key (authority_public_key_b64 b);
  _ ← field_check (dt_aware (tb_issued_at b) && dt_aware (tb_expires_at b))
      "workload trust-bundle timestamps must be timezone-aware";
  let b := mk_WorkloadTrustBundle (bundle_id b) (sequence b) (tb_trust_domain b) (tb_authority_key_id b)
             (authority_public_key_b64 b) (as_utc (tb_issued_at b)) (as_utc (tb_expires_at b)) rs (tb_signature b) in
  _ ← field_check (negb (dt_leb (tb_expires_at b) (tb_issued_at b)))
      "workload trust-bundle validity window is invalid";
  _ ← field_check (bool_decide (tb_authority_key_id b = workload_key_id k))
      "workload authority key ID does not match its public key";
  _ ← field_check (sorted_unique (map revoked_credential_id (revocations b)))
      "workload revocations must be unique and sorted";
  Ok b.

Definition bundle_payload (b : WorkloadTrustBundle) : result string :=
  s ← dumps_strict (json_exclude ["signature"] (model_dump b)); Ok (TRUST_BUNDLE_SIGNATURE_DOMAIN +:+ s).
Definition bundle_signed (b : WorkloadTrustBundle) (authority : private_key) : result WorkloadTrustBundle :=
  s ← bundle_payload b; Ok (bundle_with_signature b (sign_bytes authority s)).
Definition bundle_verify (b : WorkloadTrustBundle) (authority : public_key) : result bool :=
  signature_valid authority (tb_signature b) (bundle_payload b).
End credentials.

(** ** Files *)
Definition strict_json_loads (material : string) : result json :=
  strict_loads "UTF-8 BOM is forbidden" "duplicate JSON key" material.

Section files.
Context {ED : Ed25519} {ER : Ed25519Raw} {DC : ModelDump WorkloadCredential} {DB : ModelDump WorkloadTrustBundle}
  {DS : ModelDump SignedWorkloadCredential} {LS : ModelLoad SignedWorkloadCredential}
  {LB : ModelLoad WorkloadTrustBundle}.

Definition canonical_json_file_bytes {A} `{ModelDump A} (v : A) : result string :=
  b ← dumps_strict (model_dump v); Ok (b +:+ newline).
(** [model.model_validate(parsed)] *)
Definition model_validate {A} `{ModelLoad A} (validate : A → result A) (j : json) : result A :=
  match model_load j with Some a => validate a | None => Raise (field_error "field type") end.
(** [_load_closed_model]; a file that cannot be read has no octets. *)
Definition load_closed_model {A} `{ModelDump A} `{ModelLoad A} (validate : A → result A)
    (file : option string) : result A :=
  match file with
  | None => raise_ "WorkloadIdentityError" "workload identity file is unavailable"
  | Some material =>
      _ ← require (negb (bool_decide (material = "")) && (str_len material <=? MAX_IDENTITY_FILE_BYTES)%Z)
          "WorkloadIdentityError" "workload identity file size is invalid";
      v ← match (j ← strict_json_loads material; model_validate validate j) with
          | Ok v => Ok v
          | Raise e => if isinstance_exn e "ValueError"
                       then raise_ "WorkloadIdentityError" "workload identity file is invalid" else Raise e
          end;
      b ← canonical_json_file_bytes v;
      _ ← require (bool_decide (material = b)) "WorkloadIdentityError" "workload identity file is not canonical";
      Ok v
  end.

(** [except WorkloadIdentityError] of the two loaders. *)
Definition reraise {A} (cls msg : string) (r : result A) : result A :=
  match r with
  | Ok a => Ok a
  | Raise e => if isinstance_exn e "WorkloadIdentityError" then raise_ cls msg else Raise e
  end.
Definition load_signed_workload_credential (file : option string) : result SignedWorkloadCredential :=
  reraise "WorkloadIdentityUnavailable" "workload credential file is unavailable"
    (load_closed_model SignedWorkloadCredential_validate file).
Definition load_workload_trust_bundle (file : option string) : result WorkloadTrustBundle :=
  reraise "WorkloadTrustStateUnavailable" "workload trust-bundle file is unavailable"
    (load_closed_model WorkloadTrustBundle_validate file).
End files.
