(* ===== verification/WorkloadVerifier.v ===== *)
(** * The workload identity verifier ([src/src/aegis_ot/workload_identity.py])

    A verifier reloads the signed trust bundle for each decision, records its
    sequence in the checkpoint of [TrustState.v] and, while it holds the lock,
    checks one credential: as of now, or as of a retained admission. *)
From S2P Require Import Prelude PyStr PyTime PyJson Sha256 Crypto Models PyModel TrustState Workload.

Section verifier.
Context {ED : Ed25519} {ER : Ed25519Raw} {TE : TrustEnv}.
Context {DC : ModelDump WorkloadCredential} {DB : ModelDump WorkloadTrustBundle}
  {DS : ModelDump SignedWorkloadCredential} {LS : ModelLoad SignedWorkloadCredential}
  {LB : ModelLoad WorkloadTrustBundle}.

Record VerifierConfig := mk_VerifierConfig {
  trust_root_public_key : public_key;
  trust_root_key_id : string;
  vc_trust_domain : string;
  maximum_credential_lifetime : timedelta;
  maximum_bundle_lifetime : timedelta;
}.
Record Verifier := mk_Verifier {
  vf_highest_sequence : Z;
  vf_highest_digest : string;
  vf_store : TrustStore;
}.
Abbreviation VerifierState := (Verifier * TrustDisk)%type.

Definition store_config (vc : VerifierConfig) : TrustStoreConfig :=
  mk_TrustStoreConfig (vc_trust_domain vc) (trust_root_key_id vc)
    (sha256_hex (public_raw (trust_root_public_key vc))).
(** [except WorkloadTrustSequenceStateError] *)
Definition state_unavailable (e : exn) : exn :=
  if isinstance_exn e "WorkloadTrustSequenceStateError"
  then mk_exn "WorkloadTrustStateUnavailable" (exn_str e) else e.
Definition unavailable (c : bool) (msg : string) : result unit := require c "WorkloadTrustStateUnavailable" msg.
Definition rejected (c : bool) (msg : string) : result unit := require c "WorkloadCredentialRejected" msg.

(** [__post_init__] *)
Definition WorkloadIdentityVerifier_init (vc : VerifierConfig) : M TrustDisk Verifier := λ d,
  match FileWorkloadTrustSequenceStateStore_init (store_config vc) d with
  | (Ok st, d') => (Ok (mk_Verifier 0 "" st), d')
  | (Raise e, d') => (Raise (state_unavailable e), d')
  end.

Definition bundle_digest (b : WorkloadTrustBundle) : result string :=
  s ← dumps_strict (model_dump b); Ok (sha256_hex s).
(** [_trusted_bundle] on the octets of the bundle file. *)
Definition trusted_bundle (vc : VerifierConfig) (file : option string) (now : datetime) :
    result (WorkloadTrustBundle * string) :=
  _ ← unavailable (dt_aware now) "workload verification time must be timezone-aware";
  bundle ← load_workload_trust_bundle file;
  rooted ← (if bool_decide (tb_trust_domain bundle = vc_trust_domain vc)
               && bool_decide (tb_authority_key_id bundle = trust_root_key_id vc)
               && bool_decide (authority_public_key_b64 bundle = public_key_base64 (trust_root_public_key vc))
            then bundle_verify bundle (trust_root_public_key vc) else Ok false);
  _ ← unavailable rooted "workload trust bundle is not rooted in configured trust";
  _ ← unavailable (dt_sub (tb_expires_at bundle) (tb_issued_at bundle) <=? maximum_bundle_lifetime vc)%Z
        "workload trust bundle lifetime exceeds policy";
  _ ← unavailable (dt_leb (tb_issued_at bundle) now && dt_ltb now (tb_expires_at bundle))
        "workload trust bundle is not currently valid";
  d ← bundle_digest bundle;
  Ok (bundle, d).

Definition on_store {A} (m : M (TrustStore * TrustDisk) A) : M VerifierState A :=
  zoom (λ s, (vf_store s.1, s.2))
       (λ t s, (mk_Verifier (vf_highest_sequence s.1) (vf_highest_digest s.1) t.1, t.2)) m.
Definition observe_bundle (seq : Z) (digest : string) : M VerifierState unit :=
  modify (λ s, (mk_Verifier seq digest (vf_store s.1), s.2)).

(** What a call of the [with] statement returned or raised. *)
Definition returned {S A} (m : M S A) : M S (result A) := λ s, let (r, s') := m s in (Ok r, s').
Definition map_exn {A} (f : exn → exn) (r : result A) : result A :=
  match r with Ok a => Ok a | Raise e => Raise (f e) end.
(** What this verifier object observed before. *)
Definition check_observed (v : Verifier) (seq : Z) (digest : string) : result unit :=
  _ ← unavailable (negb (seq <? vf_highest_sequence v)%Z) "workload trust bundle sequence rolled back";
  unavailable (negb ((seq =? vf_highest_sequence v)%Z && negb (bool_decide (vf_highest_digest v = ""))
                     && negb (bool_decide (digest = vf_highest_digest v))))
    "workload trust bundle sequence was equivocated".

(** [_trusted_bundle_transaction] around a decision that reads the bundle.
    [held]: the sequence lock is held elsewhere up to the timeout. *)
Definition trusted_bundle_transaction {A} (vc : VerifierConfig) (file : option string) (held : bool)
    (now : datetime) (body : WorkloadTrustBundle → string → result A) : M VerifierState A :=
  bd ← lift (trusted_bundle vc file now);
  let '(bundle, digest) := bd in
  s ← get;
  _ ← lift (check_observed s.1 (sequence bundle) digest);
  entered ← returned (on_store (transaction (store_config vc) (sequence bundle) digest held));
  match entered with
  | Raise e => lift (Raise (state_unavailable e))
  | Ok _ =>
      _ ← observe_bundle (sequence bundle) digest;
      let decided := body bundle digest in
      _ ← on_store release_lock;
      lift (map_exn state_unavailable decided)
  end.

(** ** Decisions *)
Record WorkloadVerificationReceipt := mk_WorkloadVerificationReceipt {
  rc_public_key : public_key;
  verified_at : datetime;
  rc_credential_id : string;
  rc_trust_domain : string;
  rc_subject : string;
  rc_role : WorkloadRole;
  rc_actor_id : option string;
  rc_key_id : string;
  rc_authority_key_id : string;
  trust_bundle_id : string;
  trust_bundle_sequence : Z;
  trust_bundle_sha256 : string;
}.
(** What the caller expects of a credential; a subject of [None] is any. *)
Record Expected := mk_Expected {
  expected_role : WorkloadRole;
  expected_audience : string;
  expected_subject : option string;
  expected_actor_id : option string;
}.
Record Messages := mk_Messages {
  m_issuer : string; m_lifetime : string; m_window : string; m_role : string; m_subject : string;
  m_actor : string; m_audience : string; m_revoked : string;
}.
Definition current_messages : Messages := mk_Messages
  "workload credential issuer or signature is invalid" "workload credential lifetime exceeds policy"
  "workload credential is not currently valid" "workload credential role is not authorized"
  "workload credential subject is not authorized" "workload credential actor is not authorized"
  "workload credential audience is not authorized" "workload credential is revoked".
Definition historical_messages : Messages := mk_Messages
  "historical workload credential issuer or signature is invalid"
  "historical workload credential lifetime exceeds policy"
  "workload credential was not valid at historical admission"
  "historical workload credential role is not authorized" "historical workload credential subject is not authorized"
  "historical workload credential actor is not authorized" "historical workload credential audience is not authorized"
  "workload credential was revoked at historical admission".

(** The checks both verifications share, at the time [at_]; [revoked] says which
    revocations of the credential count. *)
Definition credential_checks (vc : VerifierConfig) (signed : SignedWorkloadCredential) (x : Expected)
    (at_ : datetime) (revoked : WorkloadRevocation → bool) (m : Messages) (bundle : WorkloadTrustBundle) :
    result unit :=
  let c := credential signed in
  rooted ← (if bool_decide (cr_trust_domain c = vc_trust_domain vc)
               && bool_decide (cr_authority_key_id c = trust_root_key_id vc)
            then credential_verify signed (trust_root_public_key vc) else Ok false);
  _ ← rejected rooted (m_issuer m);
  _ ← rejected (dt_sub (cr_expires_at c) (not_before c) <=? maximum_credential_lifetime vc)%Z (m_lifetime m);
  _ ← rejected (dt_leb (not_before c) at_ && dt_ltb at_ (cr_expires_at c)) (m_window m);
  _ ← rejected (bool_decide (cr_role c = expected_role x)) (m_role m);
  _ ← rejected (match expected_subject x with Some s => bool_decide (cr_subject c = s) | None => true end)
        (m_subject m);
  _ ← rejected (bool_decide (cr_actor_id c = expected_actor_id x)) (m_actor m);
  _ ← rejected (bool_decide (expected_audience x ∈ audiences c)) (m_audience m);
  rejected (negb (existsb (λ r, bool_decide (revoked_credential_id r = credential_id c) && revoked r)
                    (revocations bundle)))
    (m_revoked m).

Definition current_decision (vc : VerifierConfig) (signed : SignedWorkloadCredential) (x : Expected)
    (at_ : datetime) (bundle : WorkloadTrustBundle) (digest : string) : result WorkloadVerificationReceipt :=
  let c := credential signed in
  _ ← credential_checks vc signed x at_ (λ _, true) current_messages bundle;
  k ← credential_public_key c;
  Ok (mk_WorkloadVerificationReceipt k at_ (credential_id c) (cr_trust_domain c) (cr_subject c) (cr_role c)
        (cr_actor_id c) (cr_key_id c) (cr_authority_key_id c) (bundle_id bundle) (sequence bundle) digest).
Definition verify_credential_with_receipt (vc : VerifierConfig) (file : option string) (held : bool)
    (signed : SignedWorkloadCredential) (x : Expected) (now : datetime) :
    M VerifierState WorkloadVerificationReceipt :=
  _ ← lift (rejected (dt_aware now) "workload verification time must be timezone-aware");
  let now := as_utc now in
  trusted_bundle_transaction vc file held now (current_decision vc signed x now).
Definition verify_credential (vc : VerifierConfig) (file : option string) (held : bool)
    (signed : SignedWorkloadCredential) (x : Expected) (now : datetime) : M VerifierState public_key :=
  r ← verify_credential_with_receipt vc file held signed x now; mret (rc_public_key r).

Definition historical_decision (vc : VerifierConfig) (signed : SignedWorkloadCredential) (x : Expected)
    (at_ : datetime) (bundle : WorkloadTrustBundle) (digest : string) : result public_key :=
  _ ← credential_checks vc signed x at_ (λ r, dt_leb (revoked_at r) at_) historical_messages bundle;
  credential_public_key (credential signed).
Definition verify_historical_credential (vc : VerifierConfig) (file : option string) (held : bool)
    (signed : SignedWorkloadCredential) (x : Expected) (authenticated_at now : datetime)
    (maximum_future_skew : timedelta) : M VerifierState public_key :=
  _ ← lift (rejected (dt_aware now && dt_aware authenticated_at && (0 <=? maximum_future_skew)%Z)
              "historical workload verification time must be timezone-aware");
  let now := as_utc now in
  let authenticated_at := as_utc authenticated_at in
  _ ← lift (rejected (dt_leb authenticated_at (dt_plus now maximum_future_skew))
              "historical workload authentication time is in the future");
  trusted_bundle_transaction vc file held now (historical_decision vc signed x authenticated_at).

(** ** Bindings and signers *)
Record WorkloadSigner := mk_WorkloadSigner {
  sg_credential : SignedWorkloadCredential;
  sg_private_key : private_key;
}.
Record ResolvedWorkloadIdentity := mk_ResolvedWorkloadIdentity {
  ri_credential : SignedWorkloadCredential;
  ri_public_key : public_key;
  ri_verification : WorkloadVerificationReceipt;
}.

(** [WorkloadCredentialBinding.resolve] *)
Definition resolve (vc : VerifierConfig) (bundle_file credential_file : option string) (held : bool)
    (x : Expected) (now : datetime) : M VerifierState ResolvedWorkloadIdentity :=
  signed ← lift (load_signed_workload_credential credential_file);
  r ← verify_credential_with_receipt vc bundle_file held signed x now;
  mret (mk_ResolvedWorkloadIdentity signed (rc_public_key r) r).

(** [WorkloadSigner.from_files] *)
Definition signer_from_files (credential_file private_key_file : option string) : result WorkloadSigner :=
  signed ← load_signed_workload_credential credential_file;
  raw ← match private_key_file with
        | Some raw => Ok raw
        | None => raise_ "WorkloadIdentityUnavailable" "workload private key is unavailable"
        end;
  _ ← require (str_len raw =? 32)%Z "WorkloadIdentityUnavailable"
        "workload private key must contain exactly 32 raw bytes";
  let k := from_private_bytes raw in
  claimed ← credential_public_key (credential signed);
  _ ← require (bool_decide (public_raw (public_of k) = public_raw claimed)) "WorkloadIdentityUnavailable"
        "workload private key does not match credential";
  Ok (mk_WorkloadSigner signed k).
End verifier.
