(* ===== verification/WorkloadRuns.v ===== *)
(** * Verifying processes over one trust-sequence checkpoint

    Verifiers of any number of processes interleave between the operating-system
    visible phases of a call: up to the lock, with the lock until the credential
    is decided, and the release.  [verification_call_steps] says that every call
    is a path of these steps, [revocation_survives] what every run of them keeps. *)
From S2P Require Import Prelude PyStr PyTime PyJson Sha256 Crypto Models PyModel TrustState TrustRuns Workload.
From S2P Require Import WorkloadVerifier.

Section runs.
Context {ED : Ed25519} {ER : Ed25519Raw} {TE : TrustEnv}.
Context {DC : ModelDump WorkloadCredential} {DB : ModelDump WorkloadTrustBundle}
  {LB : ModelLoad WorkloadTrustBundle}.

(** ** Calls *)
(** A call's credential, what is expected of it, and its times. *)
Inductive VerificationRequest :=
  | Current (signed : SignedWorkloadCredential) (x : Expected) (now : datetime)
  | Historical (signed : SignedWorkloadCredential) (x : Expected) (authenticated_at now : datetime).
Definition request_credential (q : VerificationRequest) : SignedWorkloadCredential :=
  match q with Current s _ _ => s | Historical s _ _ _ => s end.
Definition request_time (q : VerificationRequest) : datetime :=
  match q with Current _ _ now => now | Historical _ _ _ now => now end.
Definition decision (vc : VerifierConfig) (q : VerificationRequest) (b : WorkloadTrustBundle) (digest : string) :
    result public_key :=
  match q with
  | Current s x now => r ← current_decision vc s x now b digest; Ok (rc_public_key r)
  | Historical s x at_ _ => historical_decision vc s x at_ b digest
  end.
(** A call once its times are checked. *)
Definition verify (vc : VerifierConfig) (file : option string) (held : bool) (q : VerificationRequest) :
    M (Verifier * TrustDisk) public_key :=
  trusted_bundle_transaction vc file held (request_time q) (decision vc q).

Lemma verify_credential_call vc file held signed x now s :
  dt_aware now = true →
  verify_credential vc file held signed x now s = verify vc file held (Current signed x (as_utc now)) s.
Proof using Type.
  intros Hn. unfold verify_credential, verify_credential_with_receipt, verify, trusted_bundle_transaction.
  unfold mbind, M_bind, rejected, lift, require. rewrite Hn. cbn [request_time]. cbv zeta.
  destruct (trusted_bundle _ _ _) as [[b d]|e]; [|done]. unfold get. cbn [fst snd].
  destruct (check_observed _ _ _) as [[]|e]; [|done].
  unfold returned. destruct (on_store _ s) as [[c|e] s1]; [|done].
  unfold observe_bundle, modify. cbn [decision]. unfold mbind, result_bind.
  destruct (on_store release_lock _) as [[[]|] ?]; [|done]. by destruct (current_decision _ _ _ _ _ _).
Qed.

Lemma verify_historical_call vc file held signed x at_ now skew s :
  dt_aware now && dt_aware at_ && (0 <=? skew)%Z = true → dt_leb (as_utc at_) (dt_plus (as_utc now) skew) = true →
  verify_historical_credential vc file held signed x at_ now skew s
  = verify vc file held (Historical signed x (as_utc at_) (as_utc now)) s.
Proof using Type.
  intros Hn Hs. unfold verify_historical_credential, verify, mbind at 1 2, M_bind at 1 2, rejected, lift at 1 2, require at 1 2.
  rewrite Hn. cbv zeta. by rewrite Hs.
Qed.

Definition with_store (v : Verifier) (st : TrustStore) : Verifier :=
  mk_Verifier (vf_highest_sequence v) (vf_highest_digest v) st.
Lemma on_store_run {A} (m : M (TrustStore * TrustDisk) A) v d :
  on_store m (v, d) = let '(r, (st, d')) := m (vf_store v, d) in (r, (with_store v st, d')).
Proof using Type. unfold on_store, zoom. cbn [fst snd]. by destruct (m _) as [? [? ?]]. Qed.

(** Up to the lock. *)
Definition enter (vc : VerifierConfig) (file : option string) (q : VerificationRequest) :
    M (Verifier * TrustDisk) (WorkloadTrustBundle * string * bool) :=
  bd ← lift (trusted_bundle vc file (request_time q));
  s ← get;
  _ ← lift (check_observed s.1 (sequence bd.1) bd.2);
  bootstrap ← on_store (prepare (sequence bd.1) bd.2);
  mret (bd.1, bd.2, bootstrap).

Lemma on_disk_store {A} (m : M TrustDisk A) st d r st' d' : on_disk m (st, d) = (r, (st', d')) → st' = st.
Proof using Type. unfold on_disk, zoom. destruct (m _). by intros [= _ <- _]. Qed.
Lemma release_lock_Ok s : ∃ st d, release_lock s = (Ok tt, (st, d)).
Proof using Type.
  unfold release_lock, mbind, M_bind, get, on_disk, zoom, modify. destruct (os_fails _); cbn; by eexists _, _.
Qed.

Lemma acquire_free (h : option Z) s s' : on_disk (acquire_lock (bool_decide (is_Some h))) s = (Ok tt, s') → h = None.
Proof using Type.
  intros E. apply zoom_run in E as (d & E & _). unfold acquire_lock in E. apply M_bind_Ok in E as ([] & s1 & _ & E).
  destruct h; [|done]. discriminate E.
Qed.

(** A call is: enter; take the lock; admit the bundle; decide and release. *)
Lemma verify_phases vc file held q v d r v' d' :
  verify vc file held q (v, d) = (r, (v', d')) →
  (∃ e, enter vc file q (v, d) = (Raise e, (v', d')) ∧ is_Ok r = false)
  ∨ ∃ b digest bootstrap v1 d1, enter vc file q (v, d) = (Ok (b, digest, bootstrap), (v1, d1))
    ∧ ((∃ e, on_disk (acquire_lock held) (vf_store v1, d1) = (Raise e, (vf_store v', d'))
          ∧ v' = with_store v1 (vf_store v') ∧ is_Ok r = false)
      ∨ ∃ d2 ra st d3, on_disk (acquire_lock held) (vf_store v1, d1) = (Ok tt, (vf_store v1, d2))
          ∧ admit_or_release (store_config vc) (sequence b) digest bootstrap (vf_store v1, d2) = (ra, (st, d3))
          ∧ if is_Ok ra
            then ∃ st', release_lock (st, d3) = (Ok tt, (st', d')) ∧ v' = mk_Verifier (sequence b) digest st'
                 ∧ r = map_exn state_unavailable (decision vc q b digest)
            else v' = with_store v1 st ∧ d' = d3 ∧ is_Ok r = false).
Proof using Type.
  unfold verify, enter, trusted_bundle_transaction, transaction, observe_bundle, modify, mbind, M_bind, lift, get, returned.
  destruct (trusted_bundle _ _ _) as [[b digest]|e]; cbn [fst snd];
    [|intros [= <- <- <-]; left; by eexists].
  destruct (check_observed _ _ _) as [[]|e]; [|intros [= <- <- <-]; left; by eexists].
  rewrite !on_store_run. destruct (prepare _ _ _) as [[bootstrap|e] [st d1]];
    [|intros [= <- <- <-]; left; by eexists].
  intros H. right. exists b, digest, bootstrap, (with_store v st), d1. split; [done|]. cbn [vf_store with_store].
  destruct (on_disk (acquire_lock held) (st, d1)) as [[[]|e] [st2 d2]] eqn:Ea; apply on_disk_store in Ea as E2; subst st2.
  2: { injection H as <- <- <-. left. by eexists. }
  right. exists d2. destruct (admit_or_release _ _ _ _ _) as [[c|e] [st3 d3]] eqn:Ed.
  - rewrite on_store_run in H. cbn [vf_store with_store fst snd] in H.
    exists (Ok c), st3, d3. split; [done|]. split; [done|]. cbn [is_Ok].
    destruct (release_lock_Ok (st3, d3)) as [st4 [d4 E4]]. rewrite E4 in H. injection H as <- <- <-. by exists st4.
  - injection H as <- <- <-. by exists (Raise e), st3, d3.
Qed.

(** ** What an accepted credential satisfies *)
Lemma rejected_bind {A} c msg (k : unit → result A) a : (u ← rejected c msg; k u) = Ok a → c = true ∧ k tt = Ok a.
Proof using Type. unfold rejected. apply require_bind. Qed.

(** Which revocations count at the time the request is checked. *)
Definition checked_at (q : VerificationRequest) : datetime :=
  match q with Current _ _ now => now | Historical _ _ at_ _ => at_ end.
Definition counts (q : VerificationRequest) (r : WorkloadRevocation) : bool :=
  match q with Current _ _ _ => true | Historical _ _ at_ _ => dt_leb (revoked_at r) at_ end.
Definition request_expected (q : VerificationRequest) : Expected :=
  match q with Current _ x _ => x | Historical _ x _ _ => x end.

Record Admissible (vc : VerifierConfig) (q : VerificationRequest) (b : WorkloadTrustBundle) : Prop := {
  ad_signed : credential_verify (request_credential q) (trust_root_public_key vc) = Ok true;
  ad_window : (dt_utc (not_before (credential (request_credential q))) <= dt_utc (checked_at q)
               < dt_utc (cr_expires_at (credential (request_credential q))))%Z;
  ad_lifetime : (dt_sub (cr_expires_at (credential (request_credential q)))
                   (not_before (credential (request_credential q))) <= maximum_credential_lifetime vc)%Z;
  ad_role : cr_role (credential (request_credential q)) = expected_role (request_expected q);
  ad_subject : ∀ s, expected_subject (request_expected q) = Some s →
    cr_subject (credential (request_credential q)) = s;
  ad_actor : cr_actor_id (credential (request_credential q)) = expected_actor_id (request_expected q);
  ad_audience : expected_audience (request_expected q) ∈ audiences (credential (request_credential q));
  ad_unrevoked : ∀ r, r ∈ revocations b → counts q r = true →
    revoked_credential_id r ≠ credential_id (credential (request_credential q));
}.

Lemma credential_checks_Ok vc q b m :
  credential_checks vc (request_credential q) (request_expected q) (checked_at q) (counts q) m b = Ok tt →
  Admissible vc q b.
Proof using Type.
  unfold credential_checks. intros E. apply result_bind_Ok in E as (rooted & Hr & E).
  repeat (let Hn := fresh "C" in apply rejected_bind in E as [Hn E]). apply require_Ok in E.
  subst rooted. destruct (_ && _) in Hr; [|discriminate Hr]. bool_split. split; try done.
  - unfold dt_leb, dt_ltb in *. bool_split. lia.
  - intros s Hs. rewrite Hs in *. by bool_split.
  - intros r Hin Hc Heq. apply not_true_iff_false in E. apply E, existsb_exists.
    exists r. split; [by apply list_elem_of_In|].
    apply andb_true_iff. split; [by apply bool_decide_eq_true_2|exact Hc].
Qed.

Lemma decision_Ok vc q b digest k :
  decision vc q b digest = Ok k →
  Admissible vc q b ∧ credential_public_key (credential (request_credential q)) = Ok k.
Proof using Type.
  destruct q as [signed x now|signed x at_ now]; cbn [decision].
  - unfold current_decision. intros E. apply result_bind_Ok in E as (r & E & Hk%Ok_inj).
    apply result_bind_Ok in E as ([] & Hc & E). apply result_bind_Ok in E as (k' & Hk' & E%Ok_inj). subst r k.
    split; [by eapply (credential_checks_Ok vc (Current signed x now))|done].
  - unfold historical_decision. intros E. apply result_bind_Ok in E as ([] & Hc & E).
    split; [by eapply (credential_checks_Ok vc (Historical signed x at_ now))|done].
Qed.

Record Trusted (vc : VerifierConfig) (now : datetime) (b : WorkloadTrustBundle) (digest : string) : Prop := {
  tr_signed : bundle_verify b (trust_root_public_key vc) = Ok true;
  tr_domain : tb_trust_domain b = vc_trust_domain vc;
  tr_window : (dt_utc (tb_issued_at b) <= dt_utc now < dt_utc (tb_expires_at b))%Z;
  tr_lifetime : (dt_sub (tb_expires_at b) (tb_issued_at b) <= maximum_bundle_lifetime vc)%Z;
  tr_digest : bundle_digest b = Ok digest;
}.
Lemma trusted_bundle_Ok vc file now b digest :
  trusted_bundle vc file now = Ok (b, digest) →
  load_workload_trust_bundle file = Ok b ∧ Trusted vc now b digest.
Proof using Type.
  unfold trusted_bundle, unavailable. intros E. apply require_bind in E as [_ E].
  apply result_bind_Ok in E as (b' & Hb & E). apply result_bind_Ok in E as (rooted & Hr & E).
  apply require_bind in E as [-> E]. apply require_bind in E as [Hl E]. apply require_bind in E as [Hw E].
  apply result_bind_Ok in E as (d & Hd & [= -> ->]). split; [done|].
  destruct (_ && _) eqn:Hc in Hr; [|discriminate Hr]. bool_split. split; try done.
  unfold dt_leb, dt_ltb in *. bool_split. lia.
Qed.

Lemma enter_Ok vc file q v d b digest bootstrap v1 d1 :
  enter vc file q (v, d) = (Ok (b, digest, bootstrap), (v1, d1)) →
  trusted_bundle vc file (request_time q) = Ok (b, digest) ∧ same_disk d d1.
Proof using Type.
  unfold enter. intros E. apply M_bind_Ok in E as ([b' digest'] & s1 & [Hb ->]%lift_Ok & E).
  apply M_bind_Ok in E as (s2 & s3 & [= <- <-] & E). apply M_bind_Ok in E as ([] & s2 & [_ ->]%lift_Ok & E).
  apply M_bind_Ok in E as (bs & s2 & Hp & [= -> -> -> ->]). split; [done|].
  rewrite on_store_run in Hp. destruct (prepare _ _ _) as [r [st d2]] eqn:Ep. injection Hp as -> _ ->.
  by apply (preserves_run same_checkpoint _ _ _ _ (same_prepare _ _)) in Ep.
Qed.
Lemma enter_same vc file q v d r v1 d1 : enter vc file q (v, d) = (r, (v1, d1)) → same_disk d d1.
Proof using Type.
  intros E. destruct r as [[[b digest] bootstrap]|e]; [by apply enter_Ok in E as [_ ?]|].
  unfold enter in E. apply M_bind_case in E as [(e1 & _ & E)|([b' digest'] & s1 & [Hb ->]%lift_Ok & E)].
  { unfold lift in E. destruct (trusted_bundle _ _ _); [done|]. by injection E as _ _ <-. }
  apply M_bind_case in E as [(e1 & _ & [=])|(s2 & s3 & [= <- <-] & E)].
  apply M_bind_case in E as [(e1 & _ & E)|([] & s2 & [_ ->]%lift_Ok & E)].
  { unfold lift in E. destruct (check_observed _ _ _); [done|]. by injection E as _ _ <-. }
  apply M_bind_case in E as [(e1 & _ & Hp)|(bs & s2 & _ & [=])].
  rewrite on_store_run in Hp. destruct (prepare _ _ _) as [r [st d2]] eqn:Ep. injection Hp as _ _ ->.
  by apply (preserves_run same_checkpoint _ _ _ _ (same_prepare _ _)) in Ep.
Qed.

(** A call that returns a key admitted a current bundle and decided on it. *)
Lemma verify_decided vc file held q v d k v' d' :
  verify vc file held q (v, d) = (Ok k, (v', d')) →
  ∃ b digest, trusted_bundle vc file (request_time q) = Ok (b, digest) ∧ decision vc q b digest = Ok k
    ∧ ∃ bs s ra st d3 st', admit_or_release (store_config vc) (sequence b) digest bs s = (ra, (st, d3)) ∧ is_Ok ra = true
      ∧ release_lock (st, d3) = (Ok tt, (st', d')) ∧ v' = mk_Verifier (sequence b) digest st'.
Proof using Type.
  intros E. apply verify_phases in E as [(e & _ & [=])|(b & digest & bootstrap & v1 & d1 & He & E)].
  apply enter_Ok in He as [Hb _].
  destruct E as [(e & _ & _ & [=])|(d2 & ra & st & d3 & _ & Ha & E)].
  destruct (is_Ok ra) eqn:Hra; [|by destruct E as (_ & _ & [=])].
  destruct E as (st' & Hrel & -> & Hd). destruct (decision vc q b digest) as [k'|e] eqn:Hdec; [|discriminate Hd].
  injection Hd as ->. exists b, digest. split; [done|]. split; [done|]. by exists bootstrap, (vf_store v1, d2), ra, st, d3, st'.
Qed.
(** What a call that returns the key [k] found: the bundle it read, trusted at the
    call's time, the credential, admissible under that bundle, and the checkpoint
    and the verifier that now remember the bundle. *)
Definition verified_under (vc : VerifierConfig) (file : option string) (q : VerificationRequest) (k : public_key)
    (v' : Verifier) (d' : TrustDisk) (b : WorkloadTrustBundle) (digest : string) : Prop :=
  load_workload_trust_bundle file = Ok b ∧ Trusted vc (request_time q) b digest
  ∧ Admissible vc q b ∧ credential_public_key (credential (request_credential q)) = Ok k
  ∧ (∃ c, holds d' c ∧ observes c (sequence b) digest)
  ∧ vf_highest_sequence v' = sequence b ∧ vf_highest_digest v' = digest.
Lemma verify_verified vc file held q v d k v' d' :
  verify vc file held q (v, d) = (Ok k, (v', d')) → ∃ b digest, verified_under vc file q k v' d' b digest.
Proof using Type.
  intros E. apply verify_decided in E as (b & digest & [Hb Ht]%trusted_bundle_Ok & Hdec & bs & s & ra & st & d3 & st' & Ha & Hra & Hrel & ->).
  apply decision_Ok in Hdec as [Hadm Hk]. exists b, digest. unfold verified_under. split_and!; try done.
  apply admit_or_release_run in Ha. cbn [fst snd] in Ha. rewrite Hra in Ha.
  apply (preserves_run same_checkpoint _ _ _ _ same_release_lock) in Hrel.
  apply admitted_holds in Ha as (c & Hc & Ho). exists c. split; [|done]. by eapply holds_same.
Qed.

(** C39 Both verifications return a key only for a credential and a bundle that
    the configured authority signed, the bundle being current at the call and the
    one the checkpoint then remembers, and only for exactly the expected role,
    subject, actor and audience.  The current verification returns it only for a
    credential inside its window at the call that the bundle does not revoke at
    all.  The historical one judges the credential at the retained admission time,
    which is at most the allowed skew after the call: the credential was inside
    its window then, and every revocation the bundle lists for it is later. *)
Theorem verification_sound vc file held signed x now v d k v' d' :
  (verify_credential vc file held signed x now (v, d) = (Ok k, (v', d')) →
   ∃ b digest, verified_under vc file (Current signed x (as_utc now)) k v' d' b digest
     ∧ (dt_utc (not_before (credential signed)) <= dt_utc (as_utc now) < dt_utc (cr_expires_at (credential signed)))%Z
     ∧ credential_id (credential signed) ∉ map revoked_credential_id (revocations b))
  ∧ ∀ authenticated_at skew,
   verify_historical_credential vc file held signed x authenticated_at now skew (v, d) = (Ok k, (v', d')) →
   ∃ b digest, verified_under vc file (Historical signed x (as_utc authenticated_at) (as_utc now)) k v' d' b digest
     ∧ dt_leb (as_utc authenticated_at) (dt_plus (as_utc now) skew) = true
     ∧ (dt_utc (not_before (credential signed)) <= dt_utc (as_utc authenticated_at)
        < dt_utc (cr_expires_at (credential signed)))%Z
     ∧ ∀ r, r ∈ revocations b → revoked_credential_id r = credential_id (credential signed) →
         dt_ltb (as_utc authenticated_at) (revoked_at r) = true.
Proof using Type.
  split.
  - intros E. destruct (dt_aware now) eqn:Hn.
    + rewrite verify_credential_call in E by done. apply verify_verified in E as (b & digest & H).
      exists b, digest. split; [exact H|]. destruct H as (_ & _ & Had & _). split; [apply (ad_window _ _ _ Had)|].
      intros (r & E & Hr)%list_elem_of_fmap. by apply (ad_unrevoked _ _ _ Had r Hr).
    + unfold verify_credential, verify_credential_with_receipt, rejected, require, mbind, M_bind, lift in E.
      rewrite Hn in E. discriminate E.
  - intros at_ skew E. pose proof E as E'. unfold verify_historical_credential in E'.
    apply M_bind_Ok in E' as ([] & s1 & [Hn%require_Ok ->]%lift_Ok & E').
    apply M_bind_Ok in E' as ([] & s2 & [Hs%require_Ok ->]%lift_Ok & _).
    rewrite verify_historical_call in E by done. apply verify_verified in E as (b & digest & H).
    exists b, digest. split; [exact H|]. split; [exact Hs|]. destruct H as (_ & _ & Had & _).
    split; [apply (ad_window _ _ _ Had)|]. intros r Hr Heq. destruct (dt_ltb _ _) eqn:Hlt; [done|]. exfalso.
    apply (ad_unrevoked _ _ _ Had r Hr); [|done]. unfold counts, dt_leb. apply Z.leb_le. unfold dt_ltb in Hlt.
    by apply Z.ltb_ge.
Qed.

(** ** Runs *)
Inductive VPhase :=
  | VIdle
  | VWaiting (q : VerificationRequest) (b : WorkloadTrustBundle) (digest : string) (bootstrap : bool)
  | VHolding.
Record VProcess := mk_VProcess { vp_config : VerifierConfig; vp_verifier : Verifier; vp_phase : VPhase }.
Record VSystem := mk_VSystem {
  vs_disk : TrustDisk;
  vs_holder : option Z;
  vs_processes : gmap Z VProcess;
}.
Definition set_vprocess (p : Z) (q : VProcess) (d : TrustDisk) (h : option Z) (s : VSystem) : VSystem :=
  mk_VSystem d h (<[p := q]> (vs_processes s)).

(** A decided call: the bundle it was decided on and the request. *)
Record Verification := mk_Verification {
  vn_config : VerifierConfig;
  vn_request : VerificationRequest;
  vn_bundle : WorkloadTrustBundle;
  vn_digest : string;
}.
Definition verdict (e : Verification) : result public_key :=
  decision (vn_config e) (vn_request e) (vn_bundle e) (vn_digest e).

Inductive verify_step : VSystem → option Verification → VSystem → Prop :=
  | vstep_start s p vc v d :
      WorkloadIdentityVerifier_init vc (vs_disk s) = (Ok v, d) →
      verify_step s None (set_vprocess p (mk_VProcess vc v VIdle) d (without p (vs_holder s)) s)
  | vstep_enter s p vc v file q r v' d :
      vs_processes s !! p = Some (mk_VProcess vc v VIdle) →
      enter vc file q (v, vs_disk s) = (r, (v', d)) →
      verify_step s None
        (set_vprocess p (mk_VProcess vc v'
             (match r with Ok (b, digest, bs) => VWaiting q b digest bs | Raise _ => VIdle end))
           d (vs_holder s) s)
  | vstep_timeout s p vc v q b digest bs e st d :
      vs_processes s !! p = Some (mk_VProcess vc v (VWaiting q b digest bs)) →
      on_disk (acquire_lock (bool_decide (is_Some (vs_holder s)))) (vf_store v, vs_disk s) = (Raise e, (st, d)) →
      verify_step s None (set_vprocess p (mk_VProcess vc (with_store v st) VIdle) d (vs_holder s) s)
  | vstep_decide s p vc v q b digest bs d0 ra st d :
      vs_processes s !! p = Some (mk_VProcess vc v (VWaiting q b digest bs)) →
      vs_holder s = None →
      on_disk (acquire_lock false) (vf_store v, vs_disk s) = (Ok tt, (vf_store v, d0)) →
      admit_or_release (store_config vc) (sequence b) digest bs (vf_store v, d0) = (ra, (st, d)) →
      verify_step s (if is_Ok ra then Some (mk_Verification vc q b digest) else None)
        (set_vprocess p
           (if is_Ok ra then mk_VProcess vc (mk_Verifier (sequence b) digest st) VHolding
            else mk_VProcess vc (with_store v st) VIdle)
           d (if is_Ok ra then Some p else None) s)
  | vstep_release s p vc v st d :
      vs_processes s !! p = Some (mk_VProcess vc v VHolding) →
      release_lock (vf_store v, vs_disk s) = (Ok tt, (st, d)) →
      verify_step s None
        (set_vprocess p (mk_VProcess vc (with_store v st) VIdle) d (without p (vs_holder s)) s)
  | vstep_crash s p :
      verify_step s None (mk_VSystem (vs_disk s) (without p (vs_holder s)) (delete p (vs_processes s)))
  | vstep_power_loss s :
      td_synced (vs_disk s) = td_state (vs_disk s) → verify_step s None (mk_VSystem (vs_disk s) None ∅).

Inductive verify_run (s : VSystem) : list Verification → VSystem → Prop :=
  | vrun_start : verify_run s [] s
  | vrun_step es s1 e s2 :
      verify_run s es s1 → verify_step s1 e s2 → verify_run s (es ++ option_list e) s2.

Lemma verify_run_trans s es s1 es2 s2 : verify_run s es s1 → verify_run s1 es2 s2 → verify_run s (es ++ es2) s2.
Proof using Type.
  intros H1. induction 1 as [|es2 s3 e s4 _ IH Hs]; [by rewrite app_nil_r|].
  rewrite app_assoc. by eapply vrun_step.
Qed.

Ltac others := intros p' Hp'; cbn; by rewrite ?lookup_insert_ne.

(** A call and its path. *)
Lemma call_path vc file q s p v r v' d' :
  vs_processes s !! p = Some (mk_VProcess vc v VIdle) →
  verify vc file (bool_decide (is_Some (vs_holder s))) q (v, vs_disk s) = (r, (v', d')) →
  ∃ es s', verify_run s es s' ∧ vs_disk s' = d' ∧ vs_processes s' !! p = Some (mk_VProcess vc v' VIdle)
    ∧ vs_holder s' = vs_holder s ∧ (∀ p', p' ≠ p → vs_processes s' !! p' = vs_processes s !! p')
    ∧ (∀ k, r = Ok k → ∃ e, es = [e] ∧ vn_config e = vc ∧ vn_request e = q
         ∧ load_workload_trust_bundle file = Ok (vn_bundle e) ∧ verdict e = Ok k).
Proof using Type.
  intros Hp E. apply verify_phases in E as [(e & He & Hr)|(b & digest & bs & v1 & d1 & He & E)].
  { exists [], (set_vprocess p (mk_VProcess vc v' VIdle) d' (vs_holder s) s). split_and!; try done.
    - eapply (vrun_step _ [] _ None); [apply vrun_start|]. by eapply (vstep_enter s p vc v file q (Raise e)).
    - apply lookup_insert_eq.
    - others.
    - by intros k ->. }
  set (s1 := set_vprocess p (mk_VProcess vc v1 (VWaiting q b digest bs)) d1 (vs_holder s) s).
  assert (H1 : verify_run s [] s1).
  { eapply (vrun_step _ [] _ None); [apply vrun_start|].
    by eapply (vstep_enter s p vc v file q (Ok (b, digest, bs))). }
  assert (Hp1 : vs_processes s1 !! p = Some (mk_VProcess vc v1 (VWaiting q b digest bs))) by apply lookup_insert_eq.
  destruct E as [(e & Ha & Hv & Hr)|(d2 & ra & st & d3 & Ha & Hd & E)].
  { exists [], (set_vprocess p (mk_VProcess vc v' VIdle) d' (vs_holder s) s1). split_and!; try done.
    - eapply (vrun_step _ [] _ None); [exact H1|]. rewrite Hv. by eapply (vstep_timeout s1 p vc v1).
    - apply lookup_insert_eq.
    - others.
    - by intros k ->. }
  assert (Hh : vs_holder s = None) by by apply (acquire_free (vs_holder s) (vf_store v1, d1) (vf_store v1, d2)).
  rewrite Hh in Ha. destruct (is_Ok ra) eqn:Hra.
  - destruct E as (st' & Hrel & -> & ->).
    set (e := mk_Verification vc q b digest).
    set (s2 := set_vprocess p (mk_VProcess vc (mk_Verifier (sequence b) digest st) VHolding) d3 (Some p) s1).
    exists [e], (set_vprocess p (mk_VProcess vc (mk_Verifier (sequence b) digest st') VIdle) d' (without p (Some p)) s2).
    assert (H2 : verify_run s [e] s2).
    { eapply (vrun_step _ [] _ (Some e)); [exact H1|].
      pose proof (vstep_decide s1 p vc v1 q b digest bs d2 ra st d3 Hp1 Hh Ha Hd) as Hs. by rewrite Hra in Hs. }
    split_and!; try done.
    + eapply (vrun_step _ [e] _ None); [exact H2|].
      eapply (vstep_release s2 p vc (mk_Verifier (sequence b) digest st) st' d'); [apply lookup_insert_eq|exact Hrel].
    + apply lookup_insert_eq.
    + cbn [vs_holder set_vprocess]. rewrite Hh. unfold without. by rewrite bool_decide_eq_true_2.
    + others.
    + intros k Hk. exists e. apply enter_Ok in He as [[Hb _]%trusted_bundle_Ok _].
      split_and!; try done. unfold verdict, e. cbn [vn_config vn_request vn_bundle vn_digest].
      by destruct (decision vc q b digest); [|discriminate Hk]; injection Hk as ->.
  - destruct E as (-> & -> & Hr).
    exists [], (set_vprocess p (mk_VProcess vc (with_store v1 st) VIdle) d3 None s1). split_and!; try done.
    + eapply (vrun_step _ [] _ None); [exact H1|].
      pose proof (vstep_decide s1 p vc v1 q b digest bs d2 ra st d3 Hp1 Hh Ha Hd) as Hs. by rewrite Hra in Hs.
    + apply lookup_insert_eq.
    + others.
    + by intros k ->.
Qed.

(** Every call of a verifier is a path of these steps: from any system in
    which its process is idle, the call's effects on the verifier and the
    directory are those of entering, of waiting for the lock in vain or deciding,
    and of releasing, no other process is touched, and a key is returned only with a verification that accepts. *)
Theorem verification_call_steps vc file q s p v r v' d' :
  vs_processes s !! p = Some (mk_VProcess vc v VIdle) →
  verify vc file (bool_decide (is_Some (vs_holder s))) q (v, vs_disk s) = (r, (v', d')) →
  ∃ es s', verify_run s es s' ∧ vs_disk s' = d' ∧ vs_processes s' !! p = Some (mk_VProcess vc v' VIdle)
    ∧ vs_holder s' = vs_holder s ∧ (∀ p', p' ≠ p → vs_processes s' !! p' = vs_processes s !! p')
    ∧ (∀ k, r = Ok k → ∃ e, es = [e] ∧ vn_config e = vc ∧ vn_request e = q
         ∧ load_workload_trust_bundle file = Ok (vn_bundle e) ∧ verdict e = Ok k).
Proof using Type. apply call_path. Qed.

(** ** What every run keeps *)
Definition seen (e : Verification) : observed := (sequence (vn_bundle e), vn_digest e).
(** A waiting call holds a bundle trusted at its time. *)
Definition waiting_trusted (s : VSystem) : Prop :=
  ∀ p vc v q b digest bs, vs_processes s !! p = Some (mk_VProcess vc v (VWaiting q b digest bs)) →
    Trusted vc (request_time q) b digest.
Definition kept (s : VSystem) (es : list Verification) : Prop :=
  waiting_trusted s
  ∧ (∀ e, e ∈ es → bounded_by (vs_disk s) (seen e)
       ∧ Trusted (vn_config e) (request_time (vn_request e)) (vn_bundle e) (vn_digest e))
  ∧ ∀ i j a b, i < j → es !! i = Some a → es !! j = Some b → follows (seen a) (seen b).

Lemma waiting_set p q d h s :
  waiting_trusted s → (∀ vc v r b digest bs, q = mk_VProcess vc v (VWaiting r b digest bs) →
    Trusted vc (request_time r) b digest) → waiting_trusted (set_vprocess p q d h s).
Proof using Type.
  intros Hs Hq p' vc v r b digest bs Hp. cbn in Hp. apply lookup_insert_Some in Hp as [[_ E]|[_ E]].
  - by eapply Hq.
  - by eapply Hs.
Qed.
Lemma kept_quiet s s' es :
  kept s es → waiting_trusted s' → same_disk (vs_disk s) (vs_disk s') → kept s' es.
Proof using Type.
  intros (_ & He & Ho) Hw Hs. split_and!; [done| |done]. intros e Hin. destruct (He e Hin) as [Hb Ht].
  split; [|done]. by eapply bounded_same.
Qed.

Lemma kept_step es s e s' : kept s es → verify_step s e s' → kept s' (es ++ option_list e).
Proof using Type.
  intros Hk. pose proof Hk as (Hw & He & Ho).
  destruct 1 as [s p vc v d E|s p vc v file q r v' d Hp E|s p vc v q b digest bs e st d Hp E
    |s p vc v q b digest bs d0 ra st d Hp Hh Ha E|s p vc v st d Hp E|s p|s E]; cbn [option_list]; rewrite ?app_nil_r.
  - apply (kept_quiet s); [done|by apply waiting_set|]. unfold WorkloadIdentityVerifier_init in E.
    destruct (FileWorkloadTrustSequenceStateStore_init _ _) as [[st|] d'] eqn:Ei; [|done]. injection E as _ <-.
    by apply (preserves_run same_disk _ _ _ _ (same_init _) Ei).
  - apply (kept_quiet s); [done| |by eapply enter_same]. apply waiting_set; [done|].
    intros vc0 v0 q0 b0 digest0 bs0 Heq. destruct r as [[[b digest] bs]|]; [|done]. injection Heq as <- <- <- <- <- <-.
    by apply enter_Ok in E as [[_ ?]%trusted_bundle_Ok _].
  - apply (kept_quiet s); [done|by apply waiting_set|]. apply (preserves_run same_checkpoint _ _ _ _ (same_acquire _) E).
  - pose proof (Hw _ _ _ _ _ _ _ Hp) as Ht.
    apply (preserves_run same_checkpoint _ _ _ _ (same_acquire _)) in Ha. apply admit_or_release_run in E.
    cbn [fst snd] in Ha, E.
    assert (Hadm : admits (sequence b) digest (vs_disk s) (is_Ok ra) d) by (eapply admits_same; [exact Ha|done|exact E]).
    split_and!; [apply waiting_set; [done|by destruct (is_Ok ra)]| |].
    + intros e [Hin|Hin]%elem_of_app.
      * destruct (He e Hin) as [Hb Ht']. split; [|done]. by eapply bounded_admits.
      * destruct (is_Ok ra); [|by apply elem_of_nil in Hin]. apply list_elem_of_singleton in Hin as ->.
        split; [|done]. by eapply bounded_admitted.
    + apply (pairwise_snoc seen); [done|]. intros a x Hin Hx. destruct (is_Ok ra); [|discriminate Hx]. injection Hx as <-.
      destruct (He a Hin) as [Hb _]. by eapply bounded_admits.
  - apply (kept_quiet s); [done|by apply waiting_set|]. apply (preserves_run same_checkpoint _ _ _ _ same_release_lock E).
  - apply (kept_quiet s); [done| |done]. intros p' vc v r b digest bs Hp. cbn in Hp.
    apply lookup_delete_Some in Hp as [_ Hp]. by eapply Hw.
  - apply (kept_quiet s); [done|intros p' vc v r b digest bs Hp; cbn in Hp; by rewrite lookup_empty in Hp|].
    done.
Qed.
Lemma kept_run s es s' : waiting_trusted s → verify_run s es s' → kept s' es.
Proof using Type.
  intros Hw. induction 1 as [|es s1 e s2 _ IH Hs]; [|by eapply kept_step].
  split_and!; [done|by intros e ?%elem_of_nil|done].
Qed.

(** C40 Revocation survives processes: when the bundles a run sees from sequence
    [n] on list a credential and any process decided a call on such a bundle, no
    later call of any process accepts the credential as current, and a later
    historical call of any process accepts it only for an admission time before
    every revocation of it that the call's bundle lists; no process ever goes back
    to an earlier bundle. *)
Theorem revocation_survives s es s' n cid i j a b k :
  vs_processes s = ∅ → verify_run s es s' →
  (∀ e, e ∈ es → (n <= sequence (vn_bundle e))%Z →
     cid ∈ map revoked_credential_id (revocations (vn_bundle e))) →
  i < j → es !! i = Some a → es !! j = Some b → (n <= sequence (vn_bundle a))%Z → verdict b = Ok k →
  (sequence (vn_bundle a) <= sequence (vn_bundle b))%Z
  ∧ match vn_request b with
    | Current signed _ _ => credential_id (credential signed) ≠ cid
    | Historical signed _ at_ _ =>
        credential_id (credential signed) = cid →
        ∀ r, r ∈ revocations (vn_bundle b) → revoked_credential_id r = cid → dt_ltb at_ (revoked_at r) = true
    end.
Proof using Type.
  intros Hs Hrun Hlist Hij Ha Hb Hn Hk.
  assert (Hw : waiting_trusted s) by (intros p vc v q b0 digest bs Hp; by rewrite Hs, lookup_empty in Hp).
  apply (kept_run _ _ _ Hw) in Hrun as (_ & _ & Ho). destruct (Ho i j a b Hij Ha Hb) as [Hle _].
  cbn [seen fst] in Hle. split; [exact Hle|].
  assert (Hin : cid ∈ map revoked_credential_id (revocations (vn_bundle b))).
  { apply Hlist; [by eapply list_elem_of_lookup_2|lia]. }
  apply list_elem_of_fmap in Hin as (r & -> & Hr). apply decision_Ok in Hk as [Had _].
  pose proof (ad_unrevoked _ _ _ Had) as Hun. destruct (vn_request b) as [signed x now|signed x at_ now].
  - intros Heq. by apply (Hun r Hr).
  - intros Heq r' Hr' E. destruct (dt_ltb at_ (revoked_at r')) eqn:Hlt; [done|]. exfalso.
    apply (Hun r' Hr'); [|by rewrite E]. unfold counts, dt_leb. apply Z.leb_le. unfold dt_ltb in Hlt. by apply Z.ltb_ge.
Qed.
End runs.
