(* ===== verification/WorkloadDemo.v ===== *)
(** * Concrete verifications

    A scheme of three keys whose signatures are digests of the key and the
    message, JSON forms of the models and a table of known bundles instantiate the
    parameters; the calls are computed. *)
From S2P Require Import Prelude PyStr PyTime PyJson Sha256 Crypto Models PyModel TrustState TrustRuns Workload.
From S2P Require Import WorkloadVerifier WorkloadRuns.

Inductive DemoKey := Root | Leaf | Other.
Definition demo_raw (k : DemoKey) : string :=
  match k with
  | Root => "0123456789abcdef0123456789abcdef"
  | Leaf => "fedcba9876543210fedcba9876543210"
  | Other => "00000000000000000000000000000000"
  end.
Definition demo_key_of (s : string) : DemoKey :=
  if bool_decide (s = demo_raw Root) then Root else if bool_decide (s = demo_raw Leaf) then Leaf else Other.
#[local] Instance digest_scheme : Ed25519 := {|
  private_key := DemoKey;
  public_key := DemoKey;
  public_of := λ k, k;
  ed_sign := λ k m, sha256_hex (demo_raw k +:+ m);
  ed_verify := λ k s m, bool_decide (s = sha256_hex (demo_raw k +:+ m));
|}.
#[local] Instance digest_scheme_laws : Ed25519Laws.
Proof. constructor. intros. by apply bool_decide_eq_true. Qed.
#[local] Instance digest_scheme_raw : Ed25519Raw := {|
  public_raw := demo_raw;
  from_public_bytes := demo_key_of;
  from_private_bytes := demo_key_of;
|}.
#[local] Instance digest_scheme_raw_laws : Ed25519RawLaws.
Proof. split; by intros []. Qed.

(** ** JSON forms *)
Definition role_value (r : WorkloadRole) : string :=
  match r with
  | AGENT => "agent" | CANDIDATE => "candidate" | GATEWAY => "gateway" | OT_ADAPTER => "ot-adapter"
  | OBSERVER => "observer" | POLICY => "policy" | PLANT => "plant" | PERMIT_ISSUER => "permit-issuer"
  | SIMULATION => "simulation"
  end.
Definition time_json (d : datetime) : json := JStr (isoformat d).
#[local] Instance credential_dump : ModelDump WorkloadCredential := λ c, JObj
  [("schema_version", JStr "m4g-workload-credential-v2"); ("credential_id", JStr (credential_id c));
   ("trust_domain", JStr (cr_trust_domain c)); ("subject", JStr (cr_subject c));
   ("role", JStr (role_value (cr_role c))); ("actor_id", opt_str (cr_actor_id c));
   ("key_id", JStr (cr_key_id c)); ("public_key_b64", JStr (cr_public_key_b64 c));
   ("authority_key_id", JStr (cr_authority_key_id c)); ("audiences", JArr (map JStr (audiences c)));
   ("issued_at", time_json (cr_issued_at c)); ("not_before", time_json (not_before c));
   ("expires_at", time_json (cr_expires_at c))].
Definition revocation_json (r : WorkloadRevocation) : json := JObj
  [("credential_id", JStr (revoked_credential_id r)); ("revoked_at", time_json (revoked_at r));
   ("reason", JStr (revocation_reason r))].
#[local] Instance bundle_dump : ModelDump WorkloadTrustBundle := λ b, JObj
  [("schema_version", JStr "m4g-workload-trust-bundle-v1"); ("bundle_id", JStr (bundle_id b));
   ("sequence", JInt (sequence b)); ("trust_domain", JStr (tb_trust_domain b));
   ("authority_key_id", JStr (tb_authority_key_id b));
   ("authority_public_key_b64", JStr (authority_public_key_b64 b)); ("issued_at", time_json (tb_issued_at b));
   ("expires_at", time_json (tb_expires_at b)); ("revocations", JArr (map revocation_json (revocations b)));
   ("signature", JStr (tb_signature b))].

(** ** The artifacts *)
Definition at_hour (n : Z) : datetime := utc (1787529600000000 + hours n).
Definition root_id : string := workload_key_id (Root : public_key).
Definition sign_credential (id : string) (role : WorkloadRole) (subject : string) (actor : option string) :
    SignedWorkloadCredential :=
  let c := mk_WorkloadCredential id "example.org" subject role actor (workload_key_id (Leaf : public_key))
             (public_key_base64 (Leaf : public_key)) root_id ["gateway"] (at_hour 0) (at_hour 0) (at_hour 20) in
  match credential_issue c Root with Ok s => s | Raise _ => mk_SignedWorkloadCredential c "" end.
Definition agent : SignedWorkloadCredential :=
  sign_credential "credential-agent-1" AGENT "workload/agent" (Some "agent-1").
Definition observer : SignedWorkloadCredential :=
  sign_credential "credential-observer-1" OBSERVER "workload/observer" None.
Definition expect_agent : Expected := mk_Expected AGENT "gateway" (Some "workload/agent") (Some "agent-1").
Definition expect_observer : Expected := mk_Expected OBSERVER "gateway" None None.

Definition issue_bundle (n : Z) (rs : list WorkloadRevocation) : WorkloadTrustBundle :=
  let b := mk_WorkloadTrustBundle ("trust-bundle-" +:+ zpad 6 n) n "example.org" root_id
             (public_key_base64 (Root : public_key)) (at_hour 0) (at_hour 20) rs "" in
  match bundle_signed b Root with Ok b => b | Raise _ => b end.
Definition revoked_agent : WorkloadRevocation :=
  mk_WorkloadRevocation "credential-agent-1" (at_hour 2) "key compromise".
Definition first_bundle : WorkloadTrustBundle := issue_bundle 1 [].
Definition second_bundle : WorkloadTrustBundle := issue_bundle 2 [revoked_agent].
Definition bundle_file (b : WorkloadTrustBundle) : option string :=
  match canonical_json_file_bytes b with Ok s => Some s | Raise _ => None end.
(** Reading the JSON of the known bundles. *)
#[local] Instance bundle_load : ModelLoad WorkloadTrustBundle := λ j,
  List.find (λ b, json_eqb (canon (model_dump b)) (canon j)) [first_bundle; second_bundle].

Definition root_config : VerifierConfig := mk_VerifierConfig (Root : public_key) root_id "example.org" (hours 24) (hours 24).
Definition calm_env : TrustEnv := TrustDemo.calm.
#[local] Existing Instance calm_env.
Definition new_verifier : Verifier := mk_Verifier 0 "" TrustDemo.fresh.
Definition private_disk : TrustDisk := TrustDemo.empty_directory.

Definition ask (b : WorkloadTrustBundle) (q : VerificationRequest) : M (Verifier * TrustDisk) public_key :=
  verify root_config (bundle_file b) false q.
Definition agent_now (h : Z) : VerificationRequest := Current agent expect_agent (at_hour h).
Definition observer_now (h : Z) : VerificationRequest := Current observer expect_observer (at_hour h).
Definition after (b : WorkloadTrustBundle) (q : VerificationRequest) (s : Verifier * TrustDisk) : Verifier * TrustDisk :=
  (ask b q s).2.

Example agent_before_revocation : (ask first_bundle (agent_now 1) (new_verifier, private_disk)).1 = Ok Leaf.
Proof. vm_compute. reflexivity. Qed.
Example agent_after_revocation :
  (ask second_bundle (agent_now 3) (new_verifier, private_disk)).1
  = raise_ "WorkloadCredentialRejected" "workload credential is revoked".
Proof. vm_compute. reflexivity. Qed.

(** ** Witnesses *)
(** A call by its result and what it leaves. *)
Lemma asked b q s k :
  (ask b q s).1 = Ok k →
  verify root_config (bundle_file b) false q (s.1, s.2) = (Ok k, ((after b q s).1, (after b q s).2)).
Proof. unfold after, ask. destruct s as [v d]. destruct (verify _ _ _ _ _) as [r [v' d']]. cbn. by intros ->. Qed.

(** The agent while it is current, and its admission of the first hour, judged
    once it is revoked. *)
Definition agent_current (s : Verifier * TrustDisk) :=
  verify_credential root_config (bundle_file first_bundle) false agent expect_agent (at_hour 1) s.
Definition agent_retained (s : Verifier * TrustDisk) :=
  verify_historical_credential root_config (bundle_file second_bundle) false agent expect_agent (at_hour 1) (at_hour 3) 0%Z s.
Lemma current_returned s k :
  (agent_current s).1 = Ok k →
  verify_credential root_config (bundle_file first_bundle) false agent expect_agent (at_hour 1) (s.1, s.2)
  = (Ok k, ((agent_current s).2.1, (agent_current s).2.2)).
Proof. unfold agent_current. destruct s as [v d]. destruct (verify_credential _ _ _ _ _ _ _) as [r [v' d']]. cbn. by intros ->. Qed.
Lemma retained_returned s k :
  (agent_retained s).1 = Ok k →
  verify_historical_credential root_config (bundle_file second_bundle) false agent expect_agent (at_hour 1) (at_hour 3) 0%Z (s.1, s.2)
  = (Ok k, ((agent_retained s).2.1, (agent_retained s).2.2)).
Proof.
  unfold agent_retained. destruct s as [v d]. destruct (verify_historical_credential _ _ _ _ _ _ _ _ _) as [r [v' d']].
  cbn. by intros ->.
Qed.
Lemma verification_sound_witness :
  (∃ b digest, Trusted root_config (as_utc (at_hour 1)) b digest
     ∧ credential_id (credential agent) ∉ map revoked_credential_id (revocations b))
  ∧ ∃ b digest, Trusted root_config (as_utc (at_hour 3)) b digest
     ∧ ∀ r, r ∈ revocations b → revoked_credential_id r = credential_id (credential agent) →
         dt_ltb (as_utc (at_hour 1)) (revoked_at r) = true.
Proof.
  assert (H1 : (agent_current (new_verifier, private_disk)).1 = Ok Leaf) by (vm_compute; reflexivity).
  assert (H2 : (agent_retained (new_verifier, private_disk)).1 = Ok Leaf) by (vm_compute; reflexivity).
  apply current_returned in H1. apply retained_returned in H2. cbn [fst snd] in H1, H2. split.
  - destruct (proj1 (verification_sound root_config (bundle_file first_bundle) false agent expect_agent (at_hour 1)
      new_verifier private_disk Leaf _ _) H1) as (b & digest & (_ & Ht & _) & _ & Hr).
    exists b, digest. exact (conj Ht Hr).
  - destruct (proj2 (verification_sound root_config (bundle_file second_bundle) false agent expect_agent (at_hour 3)
      new_verifier private_disk Leaf _ _) (at_hour 1) 0%Z H2) as (b & digest & (_ & Ht & _) & _ & _ & Hr).
    exists b, digest. exact (conj Ht Hr).
Defined.

(** A system with one idle process, and what its next accepted call adds. *)
Definition idle_system (p : Z) (s : Verifier * TrustDisk) (sys : VSystem) : Prop :=
  vs_processes sys !! p = Some (mk_VProcess root_config s.1 VIdle) ∧ vs_disk sys = s.2 ∧ vs_holder sys = None.
Lemma start_process p sys :
  (WorkloadIdentityVerifier_init root_config (vs_disk sys)).1 = Ok new_verifier → vs_holder sys = None →
  ∃ sys', verify_run sys [] sys'
    ∧ idle_system p (new_verifier, (WorkloadIdentityVerifier_init root_config (vs_disk sys)).2) sys'.
Proof.
  destruct (WorkloadIdentityVerifier_init _ _) as [r d] eqn:E. cbn. intros -> Hh.
  eexists. split; [eapply (vrun_step _ [] _ None); [apply vrun_start|exact (vstep_start sys p root_config new_verifier d E)]|].
  split_and!; [apply lookup_insert_eq|done|]. cbn. by rewrite Hh.
Qed.
Lemma accepted_call p s sys b q k :
  idle_system p s sys → (ask b q s).1 = Ok k → load_workload_trust_bundle (bundle_file b) = Ok b →
  ∃ e sys', verify_run sys [e] sys' ∧ idle_system p (after b q s) sys'
    ∧ vn_bundle e = b ∧ vn_request e = q ∧ verdict e = Ok k.
Proof.
  intros (Hp & Hd & Hh) Hk Hb. apply asked in Hk. destruct s as [v d]. cbn [fst snd] in Hp, Hd, Hk. subst d.
  destruct (call_path root_config (bundle_file b) q sys p v (Ok k)
    (after b q (v, vs_disk sys)).1 (after b q (v, vs_disk sys)).2 Hp) as (es & sys' & Hr & Hd' & Hp' & Hh' & _ & He).
  { rewrite Hh. exact Hk. }
  destruct (He k eq_refl) as (e & -> & _ & Hq & Hl & Hv). exists e, sys'. split; [exact Hr|].
  rewrite Hb in Hl. apply Ok_inj in Hl. split; [|done].
  split; [exact Hp'|split; [exact Hd'|by rewrite Hh']].
Qed.

(** The first process learns of the revocation; the second uses the same bundle. *)
Definition no_process : VSystem := mk_VSystem private_disk None ∅.
Definition started (d : TrustDisk) : Verifier * TrustDisk :=
  (new_verifier, (WorkloadIdentityVerifier_init root_config d).2).
Definition s1 : Verifier * TrustDisk := started private_disk.
Definition s2 : Verifier * TrustDisk := after first_bundle (agent_now 1) s1.
Definition s3 : Verifier * TrustDisk := after second_bundle (observer_now 3) s2.
Definition s4 : Verifier * TrustDisk := started s3.2.

Lemma revocation_run :
  ∃ a b c s', verify_run no_process [a; b; c] s'
    ∧ vn_bundle a = first_bundle ∧ vn_bundle b = second_bundle ∧ vn_bundle c = second_bundle
    ∧ vn_request c = observer_now 4 ∧ verdict c = Ok Leaf.
Proof.
  destruct (start_process 1 no_process) as (y1 & R1 & I1); [vm_compute; reflexivity|reflexivity|].
  destruct (accepted_call 1 s1 y1 first_bundle (agent_now 1) Leaf I1) as (a & y2 & R2 & I2 & Ba & _);
    [vm_compute; reflexivity..|].
  destruct (accepted_call 1 s2 y2 second_bundle (observer_now 3) Leaf I2) as (b & y3 & R3 & I3 & Bb & _);
    [vm_compute; reflexivity..|].
  destruct I3 as (_ & Hd & Hh).
  destruct (start_process 2 y3) as (y4 & R4 & I4); [rewrite Hd; vm_compute; reflexivity|exact Hh|].
  rewrite Hd in I4.
  destruct (accepted_call 2 s4 y4 second_bundle (observer_now 4) Leaf I4) as (c & y5 & R5 & _ & Bc & Qc & Vc);
    [vm_compute; reflexivity..|].
  exists a, b, c, y5. split; [|split; [exact Ba|split; [exact Bb|split; [exact Bc|split; [exact Qc|exact Vc]]]]].
  apply (verify_run_trans _ [a; b] y4 [c]); [|exact R5].
  apply (verify_run_trans _ [a; b] y3 []); [|exact R4].
  apply (verify_run_trans _ [a] y2 [b]); [|exact R3].
  by apply (verify_run_trans _ [] y1 [a]).
Qed.

Lemma revocation_survives_witness :
  ∃ a b c s', verify_run no_process [a; b; c] s' ∧ verdict c = Ok Leaf ∧ vn_request c = observer_now 4
    ∧ (sequence (vn_bundle b) <= sequence (vn_bundle c))%Z.
Proof.
  destruct revocation_run as (a & b & c & s' & R & Ba & Bb & Bc & Qc & Vc).
  exists a, b, c, s'. split; [exact R|]. split; [exact Vc|]. split; [exact Qc|].
  refine (proj1 (revocation_survives no_process [a; b; c] s' 2 "credential-agent-1" 1 2 b c Leaf
    eq_refl R _ _ eq_refl eq_refl _ Vc)).
  - intros e He. assert (vn_bundle e = first_bundle ∨ vn_bundle e = second_bundle) as [->| ->].
    { apply elem_of_cons in He as [->|He]; [by left|]. apply elem_of_cons in He as [->|He]; [by right|].
      apply list_elem_of_singleton in He as ->. by right. }
    + intros Hn. exfalso. revert Hn. vm_compute. congruence.
    + intros _. vm_compute. by apply list_elem_of_singleton.
  - lia.
  - rewrite Bb. vm_compute. congruence.
Defined.

(** One call is a path of the steps. *)
Lemma verification_call_steps_witness :
  ∃ s es s', idle_system 1 s1 s ∧ verify_run s es s' ∧ ∃ e, es = [e] ∧ verdict e = Ok Leaf.
Proof.
  destruct (start_process 1 no_process) as (s & _ & Hs); [vm_compute; reflexivity|reflexivity|].
  assert (Hs1 : idle_system 1 s1 s) by exact Hs. clear Hs.
  assert (Hk : (ask first_bundle (agent_now 1) s1).1 = Ok Leaf) by (vm_compute; reflexivity).
  pose proof (asked first_bundle (agent_now 1) s1 Leaf Hk) as E. clear Hk. revert Hs1 E.
  generalize (after first_bundle (agent_now 1) s1). generalize s1.
  intros [v d] [v' d'] (Hp & Hd & Hh) E. cbn [fst snd] in Hp, Hd, E. subst d.
  destruct (verification_call_steps root_config (bundle_file first_bundle) (agent_now 1) s 1 v (Ok Leaf) v' d' Hp)
    as (es & s' & Hr & _ & _ & _ & _ & He).
  { rewrite Hh. exact E. }
  destruct (He Leaf eq_refl) as (e & -> & _ & _ & _ & Hv). exists s, [e], s'.
  split; [|split; [exact Hr|exact (ex_intro _ e (conj eq_refl Hv))]].
  split; [exact Hp|split; [done|exact Hh]].
Defined.
