(* ===== verification/CoordinationModels.v ===== *)
(** * Effect-coordination contracts ([src/src/aegis_ot/coordination_models.py])

    The signed messages of the prepare, commit and query protocol: the dispatch a
    gateway admitted, the stable identity of its effect, requests, the
    coordinator's receipt, its commit acceptance and its outcomes.  A message's
    constant fields are left out; comparing messages compares their fields. *)
From S2P Require Import Prelude PyFloat PyStr PyTime PyJson Sha256 Crypto Models PhysicalModels CapabilityModels.
From S2P Require Import DurableReplay Workload WorkloadVerifier.

Definition MAX_COORDINATION_REQUEST_TTL : timedelta := seconds 60.
Definition MAX_COORDINATION_FUTURE_SKEW : timedelta := seconds 1.
Definition EFFECT_COORDINATOR_AUDIENCE : string := "aegis-ot:m4i:effect-coordinator".
Definition GATEWAY_COORDINATION_AUDIENCE : string := "aegis-ot:m4i:gateway".

(** ** States and dispositions *)
Inductive CoordinationState :=
  | RECEIVED | DISPATCH_ARMED | COMMIT_ACCEPTED
  | STATE_NOT_DISPATCHED | STATE_UNKNOWN_EFFECT | STATE_APPLIED | STATE_REJECTED.
#[export] Instance CoordinationState_eq_dec : EqDecision CoordinationState.
Proof. solve_decision. Defined.
Definition terminal (s : CoordinationState) : bool :=
  bool_decide (s ∈ [STATE_NOT_DISPATCHED; STATE_APPLIED; STATE_REJECTED]).
(** [_LEGAL_TRANSITIONS] *)
Definition LEGAL_TRANSITIONS (s : CoordinationState) : list CoordinationState :=
  match s with
  | RECEIVED => [DISPATCH_ARMED; STATE_NOT_DISPATCHED]
  | DISPATCH_ARMED => [COMMIT_ACCEPTED; STATE_NOT_DISPATCHED]
  | COMMIT_ACCEPTED => [STATE_UNKNOWN_EFFECT; STATE_APPLIED; STATE_REJECTED]
  | STATE_UNKNOWN_EFFECT => [STATE_APPLIED; STATE_REJECTED]
  | STATE_NOT_DISPATCHED | STATE_APPLIED | STATE_REJECTED => []
  end.
Definition can_transition_to (s target : CoordinationState) : bool := bool_decide (target ∈ LEGAL_TRANSITIONS s).

Inductive EffectDisposition := EFFECT_NOT_DISPATCHED | EFFECT_UNKNOWN | EFFECT_APPLIED | EFFECT_REJECTED.
#[export] Instance EffectDisposition_eq_dec : EqDecision EffectDisposition.
Proof. solve_decision. Defined.
(** [EffectDisposition.for_state] *)
Definition for_state (s : CoordinationState) : option EffectDisposition :=
  match s with
  | RECEIVED | DISPATCH_ARMED | COMMIT_ACCEPTED => None
  | STATE_NOT_DISPATCHED => Some EFFECT_NOT_DISPATCHED
  | STATE_UNKNOWN_EFFECT => Some EFFECT_UNKNOWN
  | STATE_APPLIED => Some EFFECT_APPLIED
  | STATE_REJECTED => Some EFFECT_REJECTED
  end.

(** ** Messages *)
Record SegmentedCapabilityDispatch := mk_SegmentedCapabilityDispatch {
  dp_request : CapabilityActionRequest;
  dp_observation : SignedObservationEnvelope;
  dp_decision : Decision;
  dp_assessment : CandidateAssessment;
  dp_permit : CapabilityExecutionPermit;
}.
#[export] Instance SegmentedCapabilityDispatch_eq_dec : EqDecision SegmentedCapabilityDispatch.
Proof. solve_decision. Defined.

Record EffectIdentity := mk_EffectIdentity {
  effect_id : string;
  ei_request_sha256 : string;
  command_semantics_sha256 : string;
  ei_target_id : string;
  authorized_state_sha256 : string;
  authorized_state_version : Z;
  authorized_observation_sha256 : string;
  authorized_topology_sha256 : string;
  authorized_model_sha256 : string;
  expected_post_state_sha256 : string;
  ei_post_state_version : Z;
  expected_post_topology_sha256 : string;
}.
#[export] Instance EffectIdentity_eq_dec : EqDecision EffectIdentity.
Proof. solve_decision. Defined.

(** The fields of [_SignedRequest]. *)
Record RequestEnvelope := mk_RequestEnvelope {
  rv_effect : EffectIdentity;
  rv_effect_sha256 : string;
  rv_audience : string;
  sender_credential : SignedWorkloadCredential;
  request_nonce : string;
  rv_issued_at : datetime;
  rv_expires_at : datetime;
  rv_signature : string;
}.
#[export] Instance RequestEnvelope_eq_dec : EqDecision RequestEnvelope.
Proof. solve_decision. Defined.
Record SignedEffectPrepareRequest := mk_SignedEffectPrepareRequest {
  pr_envelope : RequestEnvelope;
  pr_dispatch : SegmentedCapabilityDispatch;
  pr_dispatch_sha256 : string;
}.
#[export] Instance SignedEffectPrepareRequest_eq_dec : EqDecision SignedEffectPrepareRequest.
Proof. solve_decision. Defined.
Record CoordinationReceipt := mk_CoordinationReceipt {
  re_effect : EffectIdentity;
  re_effect_sha256 : string;
  re_prepare : SignedEffectPrepareRequest;
  re_prepare_sha256 : string;
  re_audience : string;
  re_coordinator : SignedWorkloadCredential;
  prepared_at : datetime;
  re_signature : string;
}.
#[export] Instance CoordinationReceipt_eq_dec : EqDecision CoordinationReceipt.
Proof. solve_decision. Defined.
Record SignedEffectCommitRequest := mk_SignedEffectCommitRequest {
  cm_envelope : RequestEnvelope;
  cm_receipt : CoordinationReceipt;
  cm_receipt_sha256 : string;
}.
#[export] Instance SignedEffectCommitRequest_eq_dec : EqDecision SignedEffectCommitRequest.
Proof. solve_decision. Defined.
Record DurableCommitAcceptance := mk_DurableCommitAcceptance {
  ac_effect : EffectIdentity;
  ac_effect_sha256 : string;
  ac_request : SignedEffectCommitRequest;
  ac_request_sha256 : string;
  ac_audience : string;
  ac_coordinator : SignedWorkloadCredential;
  accepted_at : datetime;
  ac_signature : string;
}.
#[export] Instance DurableCommitAcceptance_eq_dec : EqDecision DurableCommitAcceptance.
Proof. solve_decision. Defined.
Record SignedEffectQueryRequest := mk_SignedEffectQueryRequest { qr_envelope : RequestEnvelope }.
#[export] Instance SignedEffectQueryRequest_eq_dec : EqDecision SignedEffectQueryRequest.
Proof. solve_decision. Defined.
Inductive RequestKind := KIND_COMMIT | KIND_QUERY.
#[export] Instance RequestKind_eq_dec : EqDecision RequestKind.
Proof. solve_decision. Defined.
Record SignedEffectOutcome := mk_SignedEffectOutcome {
  oc_kind : RequestKind;
  oc_request_sha256 : string;
  oc_effect : EffectIdentity;
  oc_effect_sha256 : string;
  oc_disposition : EffectDisposition;
  oc_acceptance : option DurableCommitAcceptance;
  oc_acknowledgment : option PlcCommandAcknowledgment;
  oc_reason : string;
  oc_audience : string;
  oc_coordinator : SignedWorkloadCredential;
  signed_at : datetime;
  oc_signature : string;
}.
#[export] Instance SignedEffectOutcome_eq_dec : EqDecision SignedEffectOutcome.
Proof. solve_decision. Defined.
(** What an outcome answers. *)
Inductive OutcomeRequest := CommitRequest (r : SignedEffectCommitRequest) | QueryRequest (r : SignedEffectQueryRequest).

Definition env_with_signature (e : RequestEnvelope) (s : string) : RequestEnvelope :=
  mk_RequestEnvelope (rv_effect e) (rv_effect_sha256 e) (rv_audience e) (sender_credential e) (request_nonce e)
    (rv_issued_at e) (rv_expires_at e) s.
Definition pr_with_signature (r : SignedEffectPrepareRequest) (s : string) : SignedEffectPrepareRequest :=
  mk_SignedEffectPrepareRequest (env_with_signature (pr_envelope r) s) (pr_dispatch r) (pr_dispatch_sha256 r).
Definition cm_with_signature (r : SignedEffectCommitRequest) (s : string) : SignedEffectCommitRequest :=
  mk_SignedEffectCommitRequest (env_with_signature (cm_envelope r) s) (cm_receipt r) (cm_receipt_sha256 r).
Definition qr_with_signature (r : SignedEffectQueryRequest) (s : string) : SignedEffectQueryRequest :=
  mk_SignedEffectQueryRequest (env_with_signature (qr_envelope r) s).
Definition re_with_signature (r : CoordinationReceipt) (s : string) : CoordinationReceipt :=
  mk_CoordinationReceipt (re_effect r) (re_effect_sha256 r) (re_prepare r) (re_prepare_sha256 r) (re_audience r)
    (re_coordinator r) (prepared_at r) s.
Definition ac_with_signature (a : DurableCommitAcceptance) (s : string) : DurableCommitAcceptance :=
  mk_DurableCommitAcceptance (ac_effect a) (ac_effect_sha256 a) (ac_request a) (ac_request_sha256 a) (ac_audience a)
    (ac_coordinator a) (accepted_at a) s.
Definition oc_with_signature (o : SignedEffectOutcome) (s : string) : SignedEffectOutcome :=
  mk_SignedEffectOutcome (oc_kind o) (oc_request_sha256 o) (oc_effect o) (oc_effect_sha256 o) (oc_disposition o)
    (oc_acceptance o) (oc_acknowledgment o) (oc_reason o) (oc_audience o) (oc_coordinator o) (signed_at o) s.
Definition oc_receipt (o : SignedEffectOutcome) : option CoordinationReceipt :=
  (λ a, cm_receipt (ac_request a)) <$> oc_acceptance o.
Definition request_envelope (r : OutcomeRequest) : RequestEnvelope :=
  match r with CommitRequest c => cm_envelope c | QueryRequest q => qr_envelope q end.

(** ** Time windows *)
Definition validate_request_window (issued expires : datetime) (label : string) : result unit :=
  _ ← closed (dt_aware issued && dt_aware expires) (label +:+ " timestamps must be timezone-aware");
  _ ← closed (negb (dt_leb expires issued)) (label +:+ " expiry must follow issuance");
  closed (dt_sub expires issued <=? MAX_COORDINATION_REQUEST_TTL)%Z
    (label +:+ " lifetime exceeds the registered maximum").
Definition within (issued at_ expires : datetime) : bool := dt_leb issued at_ && dt_ltb at_ expires.
Definition valid_at (issued expires evaluated : datetime) : bool := dt_aware evaluated && within issued evaluated expires.
Definition credential_claim_valid_at (s : SignedWorkloadCredential) (asserted : datetime) : bool :=
  let c := credential s in
  dt_aware asserted && dt_leb (cr_issued_at c) (not_before c) && within (not_before c) asserted (cr_expires_at c).

Definition is_effect_id (s : string) : bool :=
  match PyJson.strip_prefix "sha256:" s with Some d => is_sha256 d | None => false end.
(** [value == value.strip()] for 1 to 256 characters. *)
Definition bounded_id (s : string) : bool := text_between 1 256 s && is_stripped s.

Section models.
Context {ED : Ed25519} {ER : Ed25519Raw}.
Context {DSt : ModelDump PhysicalStateSnapshot} {DCo : ModelDump PhysicalControlCommand}
  {DAs : ModelDump CandidateAssessment} {DPe : ModelDump ExecutionPermit} {DPr : ModelDump ActionProposal}
  {DOb : ModelDump SignedObservationEnvelope} {DRq : ModelDump CapabilityActionRequest}
  {DCp : ModelDump CapabilityExecutionPermit} {DPa : ModelDump PlcCommandAcknowledgment}
  {DDp : ModelDump SegmentedCapabilityDispatch} {DEi : ModelDump EffectIdentity}
  {DPq : ModelDump SignedEffectPrepareRequest} {DRe : ModelDump CoordinationReceipt}
  {DCm : ModelDump SignedEffectCommitRequest} {DAc : ModelDump DurableCommitAcceptance}
  {DQr : ModelDump SignedEffectQueryRequest} {DOc : ModelDump SignedEffectOutcome}.

Definition digest_of {A} `{ModelDump A} (a : A) : result string := canonical_digest (model_dump a).
Definition payload_of {A} `{ModelDump A} (a : A) : result string :=
  dumps_strict (json_exclude ["signature"] (model_dump a)).
(** [public_key or credential.public_key] *)
Definition signer_key (k : option public_key) (s : SignedWorkloadCredential) : result public_key :=
  match k with Some k => Ok k | None => credential_public_key (credential s) end.

(** ** Dispatches ([segmented_capability_models.py]) *)
Definition eq_s (a b : string) : bool := bool_decide (a = b).
Definition bindings_match (d : SegmentedCapabilityDispatch) : result bool :=
  let r := dp_request d in let o := dp_observation d in let p := rq_proposal r in
  let de := dp_decision d in let a := dp_assessment d in let pm := dp_permit d in
  let base := base_permit pm in let s := snapshot o in
  rd ← request_digest r;
  pd ← proposal_digest p;
  cd ← command_digest (pm_command base);
  ad ← assessment_digest a;
  Ok (bool_decide (so_phase o = PRE_AUTHORIZATION)
      && eq_s (correlation_id r) (so_correlation_id o) && eq_s (rq_observation_id r) (observation_id o)
      && eq_s (observation_envelope_digest r) (envelope_digest o)
      && eq_s (observation_challenge_nonce r) (challenge_nonce o)
      && (observed_state_version p =? ps_state_version s)%Z && dt_eqb (proposal_observed_at p) (ps_observed_at s)
      && dt_aware (decided_at de) && bool_decide (outcome de = PERMIT)
      && eq_s (decision_proposal_id de) (proposal_id p) && bool_decide (is_Some (evidence_record_hash de))
      && as_safe a && eq_s (cp_request_digest pm) rd && eq_s (cp_observation_id pm) (observation_id o)
      && eq_s (cp_observation_envelope_digest pm) (envelope_digest o) && eq_s (cp_observer_id pm) (observer_id o)
      && eq_s (cp_observer_key_id pm) (observer_key_id o)
      && eq_s (cp_observer_boot_epoch pm) (observer_boot_epoch o)
      && eq_s (audience base) (target_plc_id pm) && eq_s (pm_proposal_id base) (proposal_id p)
      && eq_s (pm_proposal_digest base) pd && eq_s (pm_decision_id base) (decision_id de)
      && bool_decide (Some (pm_evidence_record_hash base) = evidence_record_hash de)
      && eq_s (pm_policy_version base) (policy_version de) && eq_s (pm_safety_version base) (safety_version de)
      && (pm_state_version base =? state_version de)%Z && (state_version de =? ps_state_version s)%Z
      && eq_s (pm_state_digest base) (ps_state_digest s) && eq_s (pm_observation_digest base) (ps_observation_digest s)
      && eq_s (pm_topology_digest base) (ps_topology_digest s) && eq_s (pm_model_digest base) (ps_model_digest s)
      && eq_s cd (pm_command_digest base) && eq_s (pm_command_digest base) (as_command_digest a)
      && eq_s (pm_assessment_digest base) ad && bool_decide (pre_state a = s)
      && (ps_state_version (post_state a) =? expected_post_state_version base)%Z
      && eq_s (ps_state_digest (post_state a)) (expected_post_state_digest base)
      && eq_s (ps_topology_digest (post_state a)) (expected_post_topology_digest base)).
Definition SegmentedCapabilityDispatch_validate (d : SegmentedCapabilityDispatch) : result SegmentedCapabilityDispatch :=
  ok ← bindings_match d;
  _ ← closed ok "segmented capability dispatch bindings are inconsistent"; Ok d.

(** ** Effect identities *)
Definition stable_material (e : EffectIdentity) : json := JObj
  [("schema_version", JStr "m4i-effect-material-v1"); ("request_sha256", JStr (ei_request_sha256 e));
   ("command_semantics_sha256", JStr (command_semantics_sha256 e)); ("target_id", JStr (ei_target_id e));
   ("authorized_state_sha256", JStr (authorized_state_sha256 e));
   ("authorized_state_version", JInt (authorized_state_version e));
   ("authorized_observation_sha256", JStr (authorized_observation_sha256 e));
   ("authorized_topology_sha256", JStr (authorized_topology_sha256 e));
   ("authorized_model_sha256", JStr (authorized_model_sha256 e));
   ("expected_post_state_sha256", JStr (expected_post_state_sha256 e));
   ("expected_post_state_version", JInt (ei_post_state_version e));
   ("expected_post_topology_sha256", JStr (expected_post_topology_sha256 e))].
Definition derived_effect_id (e : EffectIdentity) : result string :=
  d ← canonical_digest (stable_material e); Ok ("sha256:" +:+ d).
Definition EffectIdentity_validate (e : EffectIdentity) : result EffectIdentity :=
  _ ← closed (is_effect_id (effect_id e) && is_sha256 (ei_request_sha256 e) && is_sha256 (command_semantics_sha256 e)
              && bounded_id (ei_target_id e) && is_sha256 (authorized_state_sha256 e)
              && (0 <=? authorized_state_version e)%Z && is_sha256 (authorized_observation_sha256 e)
              && is_sha256 (authorized_topology_sha256 e) && is_sha256 (authorized_model_sha256 e)
              && is_sha256 (expected_post_state_sha256 e) && (0 <=? ei_post_state_version e)%Z
              && is_sha256 (expected_post_topology_sha256 e))
      "field constraint";
  _ ← closed (ei_post_state_version e =? authorized_state_version e + 1)%Z
      "effect identity must advance exactly one state version";
  d ← derived_effect_id e;
  _ ← closed (eq_s (effect_id e) d) "effect ID is not derived from its stable semantic material";
  Ok e.
Definition with_effect_id (e : EffectIdentity) (id : string) : EffectIdentity :=
  mk_EffectIdentity id (ei_request_sha256 e) (command_semantics_sha256 e) (ei_target_id e) (authorized_state_sha256 e)
    (authorized_state_version e) (authorized_observation_sha256 e) (authorized_topology_sha256 e)
    (authorized_model_sha256 e) (expected_post_state_sha256 e) (ei_post_state_version e)
    (expected_post_topology_sha256 e).
Definition from_dispatch (d : SegmentedCapabilityDispatch) : result EffectIdentity :=
  let base := base_permit (dp_permit d) in
  rd ← request_digest (dp_request d);
  sd ← canonical_digest (json_exclude ["command_id"; "proposal_id"] (model_dump (pm_command base)));
  let e := mk_EffectIdentity "" rd sd (target_plc_id (dp_permit d)) (pm_state_digest base) (pm_state_version base)
             (pm_observation_digest base) (pm_topology_digest base) (pm_model_digest base)
             (expected_post_state_digest base) (expected_post_state_version base)
             (expected_post_topology_digest base) in
  id ← derived_effect_id e;
  EffectIdentity_validate (with_effect_id e id).
End models.
