(* ===== verification/CoordinationMessages.v ===== *)
(** * Effect-coordination messages: construction, issue and signatures
    ([src/src/aegis_ot/coordination_models.py])

    [<Model>_validate] is a model's own construction check; nested models were
    constructed before.  [issue] builds, checks and signs.  A message refers to
    another by the digest of the whole message, signature included. *)
From S2P Require Import Prelude PyFloat PyStr PyTime PyJson Sha256 Crypto Models PhysicalModels CapabilityModels.
From S2P Require Import DurableReplay Workload WorkloadVerifier CoordinationModels.

(** The dumps of every message and of what they contain. *)
Class MessageDumps := {
  #[global] md_snapshot :: ModelDump PhysicalStateSnapshot;
  #[global] md_command :: ModelDump PhysicalControlCommand;
  #[global] md_assessment :: ModelDump CandidateAssessment;
  #[global] md_permit :: ModelDump ExecutionPermit;
  #[global] md_proposal :: ModelDump ActionProposal;
  #[global] md_observation :: ModelDump SignedObservationEnvelope;
  #[global] md_request :: ModelDump CapabilityActionRequest;
  #[global] md_capability_permit :: ModelDump CapabilityExecutionPermit;
  #[global] md_acknowledgment :: ModelDump PlcCommandAcknowledgment;
  #[global] md_dispatch :: ModelDump SegmentedCapabilityDispatch;
  #[global] md_effect :: ModelDump EffectIdentity;
  #[global] md_prepare :: ModelDump SignedEffectPrepareRequest;
  #[global] md_receipt :: ModelDump CoordinationReceipt;
  #[global] md_commit :: ModelDump SignedEffectCommitRequest;
  #[global] md_acceptance :: ModelDump DurableCommitAcceptance;
  #[global] md_query :: ModelDump SignedEffectQueryRequest;
  #[global] md_outcome :: ModelDump SignedEffectOutcome;
}.

Section messages.
Context {ED : Ed25519} {ER : Ed25519Raw} {MD : MessageDumps}.

(** [field == value.digest] *)
Definition digest_is {A} `{ModelDump A} (field : string) (a : A) : result bool :=
  d ← digest_of a; Ok (eq_s field d).

(** ** Requests *)
Definition validate_common (e : RequestEnvelope) (label : string) : result unit :=
  let c := credential (sender_credential e) in
  _ ← validate_request_window (rv_issued_at e) (rv_expires_at e) label;
  bound ← digest_is (rv_effect_sha256 e) (rv_effect e);
  _ ← closed bound (label +:+ " effect hash is inconsistent");
  _ ← closed (bool_decide (cr_role c = GATEWAY)) (label +:+ " requires a gateway workload credential");
  _ ← closed (bool_decide (rv_audience e ∈ audiences c)) (label +:+ " audience is not authorized by its credential");
  closed (credential_claim_valid_at (sender_credential e) (rv_issued_at e))
    (label +:+ " credential is not valid at issuance").
Definition envelope_fields (e : RequestEnvelope) : result unit :=
  closed (is_sha256 (rv_effect_sha256 e) && min_length 1 (rv_audience e) && text_between 16 256 (request_nonce e))
    "field constraint".
Definition request_verify (e : RequestEnvelope) (payload : result string) (k : option public_key) : result bool :=
  k ← signer_key k (sender_credential e); signature_valid k (rv_signature e) payload.

Definition SignedEffectPrepareRequest_validate (r : SignedEffectPrepareRequest) : result SignedEffectPrepareRequest :=
  _ ← envelope_fields (pr_envelope r);
  _ ← closed (is_sha256 (pr_dispatch_sha256 r)) "field constraint";
  _ ← validate_common (pr_envelope r) "effect prepare request";
  bound ← digest_is (pr_dispatch_sha256 r) (pr_dispatch r);
  _ ← closed bound "effect prepare dispatch hash is inconsistent";
  e ← from_dispatch (pr_dispatch r);
  _ ← closed (bool_decide (rv_effect (pr_envelope r) = e)) "effect prepare identity does not match its exact dispatch";
  Ok r.
Definition prepare_verify (r : SignedEffectPrepareRequest) (k : option public_key) : result bool :=
  request_verify (pr_envelope r) (payload_of r) k.

Definition in_receipt_window (r : CoordinationReceipt) : bool :=
  within (rv_issued_at (pr_envelope (re_prepare r))) (prepared_at r) (rv_expires_at (pr_envelope (re_prepare r))).
Definition CoordinationReceipt_validate (r : CoordinationReceipt) : result CoordinationReceipt :=
  let c := credential (re_coordinator r) in
  _ ← closed (is_sha256 (re_effect_sha256 r) && is_sha256 (re_prepare_sha256 r) && min_length 1 (re_audience r))
      "field constraint";
  bound ← digest_is (re_effect_sha256 r) (re_effect r);
  _ ← closed bound "coordination receipt effect hash is inconsistent";
  same ← (if bool_decide (rv_effect (pr_envelope (re_prepare r)) = re_effect r)
          then digest_is (re_prepare_sha256 r) (re_prepare r) else Ok false);
  _ ← closed same "coordination receipt prepare binding is inconsistent";
  _ ← closed (dt_aware (prepared_at r)) "coordination receipt time must be timezone-aware";
  _ ← closed (in_receipt_window r) "coordination receipt time is outside the prepare window";
  _ ← closed (bool_decide (cr_role c = OT_ADAPTER)) "coordination receipt requires an OT coordinator credential";
  _ ← closed (bool_decide (re_audience r ∈ audiences c)) "coordination receipt audience is not authorized";
  _ ← closed (credential_claim_valid_at (re_coordinator r) (prepared_at r))
      "coordination receipt credential is not valid at preparation";
  _ ← closed (eq_s (cr_key_id c) (target_plc_key_id (dp_permit (pr_dispatch (re_prepare r)))))
      "coordination receipt signer is not the prepared OT target";
  Ok r.
Definition receipt_verify (r : CoordinationReceipt) (k : option public_key) : result bool :=
  k ← signer_key k (re_coordinator r); signature_valid k (re_signature r) (payload_of r).

Definition SignedEffectCommitRequest_validate (r : SignedEffectCommitRequest) : result SignedEffectCommitRequest :=
  _ ← envelope_fields (cm_envelope r);
  _ ← closed (is_sha256 (cm_receipt_sha256 r)) "field constraint";
  _ ← validate_common (cm_envelope r) "effect commit request";
  _ ← closed (bool_decide (re_effect (cm_receipt r) = rv_effect (cm_envelope r)))
      "effect commit receipt refers to a different effect";
  bound ← digest_is (cm_receipt_sha256 r) (cm_receipt r);
  _ ← closed bound "effect commit receipt hash is inconsistent";
  _ ← closed (negb (dt_ltb (rv_issued_at (cm_envelope r)) (prepared_at (cm_receipt r))))
      "effect commit cannot precede preparation";
  Ok r.
Definition commit_verify (r : SignedEffectCommitRequest) (k : option public_key) : result bool :=
  request_verify (cm_envelope r) (payload_of r) k.

Definition DurableCommitAcceptance_validate (a : DurableCommitAcceptance) : result DurableCommitAcceptance :=
  let r := ac_request a in let c := credential (ac_coordinator a) in
  _ ← closed (is_sha256 (ac_effect_sha256 a) && is_sha256 (ac_request_sha256 a) && min_length 1 (ac_audience a))
      "field constraint";
  same ← (if bool_decide (ac_effect a = rv_effect (cm_envelope r))
          then digest_is (ac_effect_sha256 a) (rv_effect (cm_envelope r)) else Ok false);
  _ ← closed same "commit acceptance effect binding is inconsistent";
  bound ← digest_is (ac_request_sha256 a) r;
  _ ← closed bound "commit acceptance request hash is inconsistent";
  _ ← closed (dt_aware (accepted_at a)) "commit acceptance time must be timezone-aware";
  _ ← closed (within (rv_issued_at (cm_envelope r)) (accepted_at a) (rv_expires_at (cm_envelope r)))
      "commit acceptance time is outside the commit window";
  _ ← closed (negb (dt_ltb (accepted_at a) (prepared_at (cm_receipt r))))
      "commit acceptance cannot precede durable preparation";
  _ ← closed (bool_decide (cr_role c = OT_ADAPTER)) "commit acceptance requires an OT coordinator credential";
  _ ← closed (bool_decide (ac_audience a ∈ audiences c)) "commit acceptance audience is not authorized";
  _ ← closed (bool_decide (ac_coordinator a = re_coordinator (cm_receipt r)))
      "commit acceptance signer differs from the prepared OT target";
  _ ← closed (credential_claim_valid_at (ac_coordinator a) (accepted_at a))
      "commit acceptance credential is not valid at acceptance";
  Ok a.
Definition acceptance_verify (a : DurableCommitAcceptance) (k : option public_key) : result bool :=
  k ← signer_key k (ac_coordinator a); signature_valid k (ac_signature a) (payload_of a).

Definition SignedEffectQueryRequest_validate (r : SignedEffectQueryRequest) : result SignedEffectQueryRequest :=
  _ ← envelope_fields (qr_envelope r);
  _ ← validate_common (qr_envelope r) "effect query request";
  Ok r.
Definition query_verify (r : SignedEffectQueryRequest) (k : option public_key) : result bool :=
  request_verify (qr_envelope r) (payload_of r) k.
Definition outcome_request_verify (r : OutcomeRequest) (k : option public_key) : result bool :=
  match r with CommitRequest c => commit_verify c k | QueryRequest q => query_verify q k end.
Definition outcome_request_digest (r : OutcomeRequest) : result string :=
  match r with CommitRequest c => digest_of c | QueryRequest q => digest_of q end.

(** ** Outcomes *)
Definition expected_status (d : EffectDisposition) : option CommandStatus :=
  match d with
  | EFFECT_APPLIED => Some APPLIED | EFFECT_REJECTED => Some REJECTED | EFFECT_UNKNOWN => Some UNKNOWN_EFFECT
  | EFFECT_NOT_DISPATCHED => None
  end.
Definition terminal_disposition (d : EffectDisposition) : bool := bool_decide (d ∈ [EFFECT_APPLIED; EFFECT_REJECTED]).
Definition dispatch_target (d : SegmentedCapabilityDispatch) : PlcTarget :=
  mk_PlcTarget (target_plc_id (dp_permit d)) (target_plc_key_id (dp_permit d)) (target_plc_boot_epoch (dp_permit d)).
(** The acknowledgment under the accepted coordinator's key, for the accepted dispatch. *)
Definition acknowledgment_for (a : DurableCommitAcceptance) (k : PlcCommandAcknowledgment) : result bool :=
  let d := pr_dispatch (re_prepare (cm_receipt (ac_request a))) in
  key ← credential_public_key (credential (ac_coordinator a));
  pa_verify_for_transaction k key (dp_request d) (dp_permit d) (dp_observation d) (dispatch_target d).

Definition acknowledgment_check (o : SignedEffectOutcome) (a : DurableCommitAcceptance) : result unit :=
  match oc_acknowledgment o with
  | None => Ok tt
  | Some k =>
      _ ← closed (dt_leb (accepted_at a) (acknowledged_at k) && dt_leb (acknowledged_at k) (signed_at o))
          "effect outcome acknowledgment chronology is inconsistent";
      ok ← acknowledgment_for a k;
      closed ok "effect outcome acknowledgment transaction is invalid"
  end.
Definition status_of (o : SignedEffectOutcome) : option CommandStatus := pa_status <$> oc_acknowledgment o.
Definition dispatched_check (o : SignedEffectOutcome) : result unit :=
  a ← match oc_acceptance o with
      | Some a => _ ← closed (bool_decide (ac_effect a = oc_effect o))
                      "dispatched outcome requires its exact durable commit acceptance"; Ok a
      | None => raise_ "ValidationError" "dispatched outcome requires its exact durable commit acceptance"
      end;
  _ ← closed (negb (dt_ltb (signed_at o) (accepted_at a))) "effect outcome cannot precede durable commit acceptance";
  _ ← closed (eq_s (cr_subject (credential (oc_coordinator o))) (cr_subject (credential (ac_coordinator a))))
      "effect outcome coordinator differs from the accepted commit";
  _ ← closed (negb (terminal_disposition (oc_disposition o)
                    && negb (bool_decide (status_of o = expected_status (oc_disposition o)))))
      "terminal effect outcome requires a matching PLC acknowledgment";
  _ ← closed (negb (bool_decide (oc_disposition o = EFFECT_UNKNOWN)
                    && negb (bool_decide (status_of o = None)) && negb (bool_decide (status_of o = Some UNKNOWN_EFFECT))))
      "unknown outcome cannot retain known-effect evidence";
  acknowledgment_check o a.
Definition SignedEffectOutcome_validate (o : SignedEffectOutcome) : result SignedEffectOutcome :=
  let c := credential (oc_coordinator o) in
  _ ← closed (is_sha256 (oc_request_sha256 o) && is_sha256 (oc_effect_sha256 o) && text_between 1 512 (oc_reason o)
              && min_length 1 (oc_audience o))
      "field constraint";
  bound ← digest_is (oc_effect_sha256 o) (oc_effect o);
  _ ← closed bound "effect outcome hash is inconsistent";
  _ ← closed (dt_aware (signed_at o)) "effect outcome time must be timezone-aware";
  _ ← closed (bool_decide (cr_role c = OT_ADAPTER)) "effect outcome requires an OT coordinator credential";
  _ ← closed (bool_decide (oc_audience o ∈ audiences c)) "effect outcome audience is not authorized";
  _ ← closed (credential_claim_valid_at (oc_coordinator o) (signed_at o))
      "effect outcome credential is not valid at signing";
  _ ← (if bool_decide (oc_disposition o = EFFECT_NOT_DISPATCHED) then
         _ ← closed (bool_decide (oc_kind o = KIND_QUERY)) "not-dispatched outcome is only valid for a query";
         closed (bool_decide (oc_acceptance o = None) && bool_decide (oc_acknowledgment o = None))
           "not-dispatched outcome cannot assert dispatch evidence"
       else dispatched_check o);
  Ok o.
Definition outcome_verify (o : SignedEffectOutcome) (k : option public_key) : result bool :=
  k ← signer_key k (oc_coordinator o); signature_valid k (oc_signature o) (payload_of o).

(** ** Issue *)
(** Signs the payload; the signature must verify under the credential's key. *)
Definition sign_matching (g : WorkloadSigner) (payload : result string) : result string :=
  b ← payload;
  let s := sign_bytes (sg_private_key g) b in
  k ← credential_public_key (credential (sg_credential g));
  _ ← require (verify_bytes k b s) "ValueError" "workload signer does not match its authority-issued credential";
  Ok s.

Definition prepare_issue (d : SegmentedCapabilityDispatch) (g : WorkloadSigner) (request_nonce aud : string)
    (issued expires : datetime) : result SignedEffectPrepareRequest :=
  e ← from_dispatch d;
  es ← digest_of e;
  ds ← digest_of d;
  r ← SignedEffectPrepareRequest_validate (mk_SignedEffectPrepareRequest
        (mk_RequestEnvelope e es aud (sg_credential g) request_nonce issued expires "") d ds);
  s ← sign_matching g (payload_of r);
  Ok (pr_with_signature r s).
Definition receipt_issue (r : SignedEffectPrepareRequest) (g : WorkloadSigner) (prepared : datetime) (aud : string) :
    result CoordinationReceipt :=
  es ← digest_of (rv_effect (pr_envelope r));
  rs ← digest_of r;
  c ← CoordinationReceipt_validate
        (mk_CoordinationReceipt (rv_effect (pr_envelope r)) es r rs aud (sg_credential g) prepared "");
  s ← sign_matching g (payload_of c);
  Ok (re_with_signature c s).
Definition commit_issue (c : CoordinationReceipt) (g : WorkloadSigner) (request_nonce aud : string)
    (issued expires : datetime) : result SignedEffectCommitRequest :=
  es ← digest_of (re_effect c);
  cs ← digest_of c;
  r ← SignedEffectCommitRequest_validate (mk_SignedEffectCommitRequest
        (mk_RequestEnvelope (re_effect c) es aud (sg_credential g) request_nonce issued expires "") c cs);
  s ← sign_matching g (payload_of r);
  Ok (cm_with_signature r s).
(** The request chain must be intact. *)
Definition chain_verifies (r : SignedEffectCommitRequest) : result bool :=
  a ← commit_verify r None;
  if negb a then Ok false else
  b ← receipt_verify (cm_receipt r) None;
  if negb b then Ok false else prepare_verify (re_prepare (cm_receipt r)) None.
Definition acceptance_issue (r : SignedEffectCommitRequest) (g : WorkloadSigner) (accepted : datetime) (aud : string) :
    result DurableCommitAcceptance :=
  ok ← chain_verifies r;
  _ ← require ok "ValueError" "commit acceptance requires an intact signed request chain";
  es ← digest_of (rv_effect (cm_envelope r));
  rs ← digest_of r;
  a ← DurableCommitAcceptance_validate
        (mk_DurableCommitAcceptance (rv_effect (cm_envelope r)) es r rs aud (sg_credential g) accepted "");
  s ← sign_matching g (payload_of a);
  Ok (ac_with_signature a s).
Definition query_issue (e : EffectIdentity) (g : WorkloadSigner) (request_nonce aud : string)
    (issued expires : datetime) : result SignedEffectQueryRequest :=
  es ← digest_of e;
  r ← SignedEffectQueryRequest_validate (mk_SignedEffectQueryRequest
        (mk_RequestEnvelope e es aud (sg_credential g) request_nonce issued expires ""));
  s ← sign_matching g (payload_of r);
  Ok (qr_with_signature r s).
Definition outcome_issue (r : OutcomeRequest) (disposition : EffectDisposition) (reason : string) (g : WorkloadSigner)
    (signed : datetime) (acceptance : option DurableCommitAcceptance)
    (acknowledgment : option PlcCommandAcknowledgment) (aud : string) : result SignedEffectOutcome :=
  let e := request_envelope r in
  let refuse c msg := require (negb c) "ValueError" msg in
  _ ← refuse (negb (within (rv_issued_at e) signed (rv_expires_at e))) "effect outcome time is outside the request window";
  _ ← match r with
      | CommitRequest c => refuse (negb (bool_decide (ac_request <$> acceptance = Some c)))
                             "commit outcome requires its exact durable acceptance"
      | QueryRequest _ => Ok tt
      end;
  _ ← (if bool_decide (disposition = EFFECT_NOT_DISPATCHED)
       then refuse (bool_decide (is_Some acceptance) || bool_decide (is_Some acknowledgment))
              "not-dispatched outcome cannot retain dispatch evidence"
       else refuse (negb (bool_decide (ac_effect <$> acceptance = Some (rv_effect e))))
              "dispatched outcome requires durable commit acceptance");
  _ ← match acceptance with
      | Some a => ok ← acceptance_verify a None;
                  refuse (negb ok) "effect outcome durable commit acceptance signature is invalid"
      | None => Ok tt
      end;
  rs ← outcome_request_digest r;
  es ← digest_of (rv_effect e);
  o ← SignedEffectOutcome_validate (mk_SignedEffectOutcome
        (match r with CommitRequest _ => KIND_COMMIT | QueryRequest _ => KIND_QUERY end) rs (rv_effect e) es
        disposition acceptance acknowledgment reason aud (sg_credential g) signed "");
  s ← sign_matching g (payload_of o);
  Ok (oc_with_signature o s).
End messages.
