(* ===== verification/CoordinationVerify.v ===== *)
(** * Verification of coordination messages ([src/src/aegis_ot/coordination_models.py])

    A message is believed under keys that a workload verifier returns for the
    credentials it carries, so verification reads and advances the verifier's
    state.  [CredentialVerifier] is what it asks of the verifier, whose law is that
    a returned key is vouched for by the configured authority; the verifier of
    [WorkloadVerifier.v] implements it at the end of the file. *)
From S2P Require Import Prelude PyStr PyTime PyJson Sha256 Crypto Models PhysicalModels CapabilityModels TrustState.
From S2P Require Import TrustRuns Workload WorkloadVerifier WorkloadRuns CoordinationModels CoordinationMessages.

Definition GATEWAY_CAPABILITY_AUDIENCE : string := "aegis-ot:m4g:gateway".

(** The keys and identities a verifying process is configured with. *)
Record DispatchPins `{Ed25519} := mk_DispatchPins {
  observer_public_key : public_key;
  expected_observer_id : string;
  expected_observer_key_id : string;
  expected_observer_boot_epoch : string;
  permit_public_key : public_key;
  expected_permit_key_id : string;
  expected_plc_id : string;
  expected_plc_key_id : string;
  expected_plc_boot_epoch : string;
}.
Arguments mk_DispatchPins {_}.
Record Parties := mk_Parties { expected_gateway_subject : string; expected_coordinator_subject : string }.

(** ** The verifier a message is checked with *)
Class CredentialVerifier `{Ed25519} (V : Type) := {
  verify_now : SignedWorkloadCredential → Expected → datetime → M V public_key;
  verify_as_of : SignedWorkloadCredential → Expected → datetime → datetime → timedelta → M V public_key;
}.

Section verify.
Context {ED : Ed25519} {ER : Ed25519Raw} {MD : MessageDumps}.
Context {DRec : ModelDump WorkloadCredential}.
Context {V : Type} {CV : CredentialVerifier V}.

(** [except WorkloadIdentityError: return None] *)
Definition key_or_none (m : M V public_key) : M V (option public_key) :=
  try_except (k ← m; mret (Some k)) (λ e, if isinstance_exn e "WorkloadIdentityError" then Some (mret None) else None).
Definition credential_key_now (s : SignedWorkloadCredential) (x : Expected) (evaluated_at : datetime) :
    M V (option public_key) := key_or_none (verify_now s x evaluated_at).
Definition historical_credential_key (s : SignedWorkloadCredential) (x : Expected)
    (authenticated_at evaluated_at : datetime) (skew : timedelta) : M V (option public_key) :=
  key_or_none (verify_as_of s x authenticated_at evaluated_at skew).
Definition gateway_expected (audience subject : string) : Expected := mk_Expected GATEWAY audience (Some subject) None.
Definition coordinator_expected (audience subject : string) : Expected :=
  mk_Expected OT_ADAPTER audience (Some subject) None.
(** [key is not None and ... verify(key)] *)
Definition with_key (k : option public_key) (check : public_key → result bool) : result bool :=
  match k with Some k => check k | None => Ok false end.

(** ** The dispatch *)
Definition verify_inner_dispatch (d : SegmentedCapabilityDispatch) (x : DispatchPins) (evaluated_at : datetime) :
    result bool :=
  let o := dp_observation d in
  let p := dp_permit d in
  let base := base_permit p in
  all_true [
    bindings_match d;
    Ok (eq_s (observer_id o) (expected_observer_id x));
    Ok (eq_s (observer_key_id o) (expected_observer_key_id x));
    Ok (eq_s (observer_boot_epoch o) (expected_observer_boot_epoch x));
    observation_verify o (observer_public_key x);
    Ok (eq_s (cp_signing_key_id p) (expected_permit_key_id x));
    Ok (eq_s (pm_signing_key_id base) (expected_permit_key_id x));
    Ok (eq_s (target_plc_id p) (expected_plc_id x));
    Ok (eq_s (target_plc_key_id p) (expected_plc_key_id x));
    Ok (eq_s (target_plc_boot_epoch p) (expected_plc_boot_epoch x));
    Ok (eq_s (audience base) (expected_plc_id x));
    Ok (valid_at (pm_issued_at base) (pm_expires_at base) evaluated_at);
    cp_verify p (permit_public_key x)].

(** ** Requests *)
(** [verify_workload_envelope_for_admission]; [check] is the request's [verify]. *)
Definition verify_envelope (e : RequestEnvelope) (check : option public_key → result bool)
    (audience subject : string) (evaluated_at : datetime) : M V bool :=
  k ← credential_key_now (sender_credential e) (gateway_expected audience subject) evaluated_at;
  lift (with_key k (λ k, all_true [
    digest_is (rv_effect_sha256 e) (rv_effect e);
    Ok (eq_s (rv_audience e) audience);
    Ok (eq_s (cr_subject (credential (sender_credential e))) subject);
    Ok (valid_at (rv_issued_at e) (rv_expires_at e) evaluated_at);
    check (Some k)])).
Definition query_envelope_valid (q : SignedEffectQueryRequest) (audience subject : string) (evaluated_at : datetime) :
    M V bool := verify_envelope (qr_envelope q) (query_verify q) audience subject evaluated_at.
(** [SignedEffectPrepareRequest.verify_complete_for_admission] *)
Definition prepare_complete (q : SignedEffectPrepareRequest) (x : DispatchPins) (gateway audience : string)
    (evaluated_at : datetime) : M V bool :=
  all_hold [
    verify_envelope (pr_envelope q) (prepare_verify q) audience gateway evaluated_at;
    lift (verify_inner_dispatch (pr_dispatch q) x evaluated_at)].

(** ** Receipts *)
Definition times_usable (evaluated_at : datetime) (skew : timedelta) : bool :=
  negb (skew <? 0)%Z && dt_aware evaluated_at.
Definition receipt_verify_for_request (c : CoordinationReceipt) (q : SignedEffectPrepareRequest) (x : Parties)
    (audience request_audience : string) (evaluated_at : datetime) (skew : timedelta) : M V bool :=
  if negb (times_usable evaluated_at skew) then mret false else
  gk ← historical_credential_key (sender_credential (pr_envelope q))
         (gateway_expected request_audience (expected_gateway_subject x)) (prepared_at c) evaluated_at skew;
  ck ← historical_credential_key (re_coordinator c)
         (coordinator_expected audience (expected_coordinator_subject x)) (prepared_at c) evaluated_at skew;
  let r := pr_envelope q in
  lift (with_key gk (λ gk, with_key ck (λ ck, all_true [
    Ok (bool_decide (re_prepare c = q));
    Ok (bool_decide (re_effect c = rv_effect r));
    digest_is (re_effect_sha256 c) (rv_effect r);
    digest_is (re_prepare_sha256 c) q;
    Ok (eq_s (rv_audience r) request_audience);
    Ok (eq_s (re_audience c) audience);
    Ok (eq_s (cr_subject (credential (re_coordinator c))) (expected_coordinator_subject x));
    Ok (eq_s (cr_key_id (credential (re_coordinator c))) (target_plc_key_id (dp_permit (pr_dispatch q))));
    Ok (within (rv_issued_at r) (prepared_at c) (rv_expires_at r));
    Ok (dt_leb (prepared_at c) (dt_plus evaluated_at skew));
    prepare_verify q (Some gk);
    receipt_verify c (Some ck)]))).
(** [verify_historical_for_request] has the same text. *)
Definition receipt_verify_historical (c : CoordinationReceipt) (q : SignedEffectPrepareRequest) (x : Parties)
    (audience request_audience : string) (evaluated_at : datetime) (skew : timedelta) : M V bool :=
  receipt_verify_for_request c q x audience request_audience evaluated_at skew.

(** ** Commits and acceptances *)
(** [SignedEffectCommitRequest.verify_complete_for_admission] *)
Definition commit_complete (q : SignedEffectCommitRequest) (x : DispatchPins) (p : Parties) (audience : string)
    (evaluated_at : datetime) (skew : timedelta) : M V bool :=
  all_hold [
    verify_envelope (cm_envelope q) (commit_verify q) audience (expected_gateway_subject p) evaluated_at;
    receipt_verify_historical (cm_receipt q) (re_prepare (cm_receipt q)) p GATEWAY_COORDINATION_AUDIENCE
      EFFECT_COORDINATOR_AUDIENCE evaluated_at skew;
    lift (verify_inner_dispatch (pr_dispatch (re_prepare (cm_receipt q))) x evaluated_at)].
Definition acceptance_verify_for_commit (a : DurableCommitAcceptance) (q : SignedEffectCommitRequest)
    (x : DispatchPins) (p : Parties) (audience : string) (evaluated_at : datetime) (skew : timedelta) : M V bool :=
  if negb (times_usable evaluated_at skew) then mret false else
  gk ← historical_credential_key (sender_credential (cm_envelope q))
         (gateway_expected EFFECT_COORDINATOR_AUDIENCE (expected_gateway_subject p)) (accepted_at a) evaluated_at skew;
  ck ← historical_credential_key (ac_coordinator a)
         (coordinator_expected audience (expected_coordinator_subject p)) (accepted_at a) evaluated_at skew;
  let r := cm_envelope q in
  let c := cm_receipt q in
  all_hold [
    lift (with_key gk (λ gk, with_key ck (λ ck, all_true [
      Ok (bool_decide (ac_request a = q));
      digest_is (ac_request_sha256 a) q;
      Ok (bool_decide (ac_effect a = rv_effect r));
      digest_is (ac_effect_sha256 a) (rv_effect r);
      Ok (eq_s (ac_audience a) audience);
      Ok (bool_decide (ac_coordinator a = re_coordinator c));
      Ok (within (rv_issued_at r) (accepted_at a) (rv_expires_at r));
      Ok (dt_leb (prepared_at c) (accepted_at a));
      Ok (dt_leb (accepted_at a) (dt_plus evaluated_at skew));
      commit_verify q (Some gk)])));
    receipt_verify_historical c (re_prepare c) p GATEWAY_COORDINATION_AUDIENCE EFFECT_COORDINATOR_AUDIENCE
      evaluated_at skew;
    lift (all_true [
      verify_inner_dispatch (pr_dispatch (re_prepare c)) x (accepted_at a);
      with_key ck (λ ck, acceptance_verify a (Some ck))])].

(** ** Outcomes *)
Definition kind_of (r : OutcomeRequest) : RequestKind :=
  match r with CommitRequest _ => KIND_COMMIT | QueryRequest _ => KIND_QUERY end.
(** A commit's outcome has the acceptance of exactly that commit. *)
Definition accepts_request (o : SignedEffectOutcome) (r : OutcomeRequest) : bool :=
  match r with
  | CommitRequest c => match oc_acceptance o with Some a => bool_decide (ac_request a = c) | None => false end
  | QueryRequest _ => true
  end.
Definition outcome_acceptance_valid (o : SignedEffectOutcome) (x : DispatchPins) (p : Parties)
    (absent : bool) (evaluated_at : datetime) (skew : timedelta) : M V bool :=
  match oc_acceptance o with
  | None => mret absent
  | Some a => acceptance_verify_for_commit a (ac_request a) x p GATEWAY_COORDINATION_AUDIENCE evaluated_at skew
  end.
Definition outcome_acknowledgment_valid (o : SignedEffectOutcome) : result bool :=
  match oc_acknowledgment o, oc_acceptance o with
  | None, _ => Ok true
  | Some _, None => Ok false
  | Some k, Some a => acknowledgment_for a k
  end.
Definition outcome_bindings (o : SignedEffectOutcome) (r : OutcomeRequest) : list (result bool) := [
  Ok (bool_decide (oc_kind o = kind_of r));
  (d ← outcome_request_digest r; Ok (eq_s (oc_request_sha256 o) d));
  Ok (bool_decide (oc_effect o = rv_effect (request_envelope r)));
  digest_is (oc_effect_sha256 o) (rv_effect (request_envelope r))].
Definition outcome_verify_for_request (o : SignedEffectOutcome) (r : OutcomeRequest) (x : DispatchPins) (p : Parties)
    (audience : string) (evaluated_at : datetime) (skew : timedelta) : M V bool :=
  if negb (times_usable evaluated_at skew) then mret false else
  request_valid ← verify_envelope (request_envelope r) (outcome_request_verify r) EFFECT_COORDINATOR_AUDIENCE
                    (expected_gateway_subject p) evaluated_at;
  ck ← credential_key_now (oc_coordinator o) (coordinator_expected audience (expected_coordinator_subject p)) evaluated_at;
  acceptance_valid ← outcome_acceptance_valid o x p true evaluated_at skew;
  acknowledgment_valid ← lift (outcome_acknowledgment_valid o);
  let e := request_envelope r in
  lift (if negb request_valid then Ok false else with_key ck (λ ck, all_true (outcome_bindings o r ++ [
    Ok (accepts_request o r);
    Ok acceptance_valid;
    Ok acknowledgment_valid;
    Ok (eq_s (oc_audience o) audience);
    Ok (eq_s (cr_subject (credential (oc_coordinator o))) (expected_coordinator_subject p));
    Ok (within (rv_issued_at e) (signed_at o) (rv_expires_at e));
    Ok (dt_leb (signed_at o) (dt_plus evaluated_at skew));
    outcome_verify o (Some ck)]))).

(** The time as of which a retained outcome's request is authenticated. *)
Definition request_authenticated_at (o : SignedEffectOutcome) (r : OutcomeRequest) : datetime :=
  match r, oc_acceptance o with CommitRequest _, Some a => accepted_at a | _, _ => signed_at o end.
Definition retained_acknowledgment_valid (o : SignedEffectOutcome) : result bool :=
  match oc_acknowledgment o, oc_acceptance o with
  | None, _ => Ok (negb (terminal_disposition (oc_disposition o)))
  | Some _, None => Ok false
  | Some k, Some a =>
      match expected_status (oc_disposition o) with
      | None => Ok false
      | Some status => all_true [
          Ok (bool_decide (pa_status k = status));
          Ok (dt_leb (accepted_at a) (acknowledged_at k) && dt_leb (acknowledged_at k) (signed_at o));
          acknowledgment_for a k]
      end
  end.
Definition outcome_verify_historical (o : SignedEffectOutcome) (r : OutcomeRequest) (x : DispatchPins) (p : Parties)
    (audience : string) (evaluated_at : datetime) (skew : timedelta) : M V bool :=
  if negb (times_usable evaluated_at skew) then mret false else
  let e := request_envelope r in
  gk ← historical_credential_key (sender_credential e)
         (gateway_expected EFFECT_COORDINATOR_AUDIENCE (expected_gateway_subject p))
         (request_authenticated_at o r) evaluated_at skew;
  ck ← historical_credential_key (oc_coordinator o)
         (coordinator_expected audience (expected_coordinator_subject p)) (signed_at o) evaluated_at skew;
  acceptance_valid ← outcome_acceptance_valid o x p (bool_decide (oc_disposition o = EFFECT_NOT_DISPATCHED))
                       evaluated_at skew;
  acknowledgment_valid ← lift (retained_acknowledgment_valid o);
  lift (with_key gk (λ gk, with_key ck (λ ck, all_true (outcome_bindings o r ++ [
    Ok (eq_s (rv_audience e) EFFECT_COORDINATOR_AUDIENCE);
    Ok (eq_s (cr_subject (credential (sender_credential e))) (expected_gateway_subject p));
    Ok (within (rv_issued_at e) (signed_at o) (rv_expires_at e));
    outcome_request_verify r (Some gk);
    Ok (accepts_request o r);
    Ok acceptance_valid;
    Ok acknowledgment_valid;
    Ok (eq_s (oc_audience o) audience);
    Ok (eq_s (cr_subject (credential (oc_coordinator o))) (expected_coordinator_subject p));
    Ok (dt_leb (signed_at o) (dt_plus evaluated_at skew));
    outcome_verify o (Some ck)])))).
End verify.

(** ** What a verified message rests on *)
Lemma eq_s_true a b : (Ok (eq_s a b) : result bool) = Ok true → a = b.
Proof. intros [= H]. by apply bool_decide_eq_true in H. Qed.
Lemma decided_true (P : Prop) `{base.Decision P} : (Ok (bool_decide P) : result bool) = Ok true → P.
Proof. intros [= Hb]. by apply bool_decide_eq_true in Hb. Qed.
(** Takes the conditions of a conjunction apart. *)
Ltac all_apart :=
  repeat match goal with
  | H : all_true _ = Ok true |- _ => apply all_true_Forall in H
  | H : Forall _ [] |- _ => clear H
  | H : Forall _ (_ :: _) |- _ =>
      let h := fresh "C" in apply Forall_cons in H as [h H]; try (apply eq_s_true in h); try (apply decided_true in h)
  end.

Section authentic.
Context {ED : Ed25519} {ER : Ed25519Raw} {MD : MessageDumps}.
Context {DC : ModelDump WorkloadCredential} {DB : ModelDump WorkloadTrustBundle}.
Context {V : Type} {CV : CredentialVerifier V}.
Variable vc : VerifierConfig.

(** The authority of [vc] vouches for the key: a current bundle it signed admits
    the credential as requested. *)
Definition vouched (q : VerificationRequest) (k : public_key) : Prop :=
  ∃ b digest, Trusted vc (request_time q) b digest ∧ Admissible vc q b
    ∧ credential_public_key (credential (request_credential q)) = Ok k.
Class VerifierLaws : Prop := {
  verify_now_vouched s x now v k v' :
    verify_now s x now v = (Ok k, v') → vouched (Current s x (as_utc now)) k;
  verify_as_of_vouched s x at_ now skew v k v' :
    verify_as_of s x at_ now skew v = (Ok k, v') → vouched (Historical s x (as_utc at_) (as_utc now)) k;
}.
Context {VL : VerifierLaws}.

Record DispatchAuthentic (d : SegmentedCapabilityDispatch) (x : DispatchPins) (at_ : datetime) : Prop := {
  da_bound : bindings_match d = Ok true;
  da_observed : observation_verify (dp_observation d) (observer_public_key x) = Ok true;
  da_observer : observer_id (dp_observation d) = expected_observer_id x;
  da_boot : observer_boot_epoch (dp_observation d) = expected_observer_boot_epoch x;
  da_permitted : cp_verify (dp_permit d) (permit_public_key x) = Ok true;
  da_target : target_plc_id (dp_permit d) = expected_plc_id x;
  da_target_key : target_plc_key_id (dp_permit d) = expected_plc_key_id x;
  da_target_boot : target_plc_boot_epoch (dp_permit d) = expected_plc_boot_epoch x;
  da_window : valid_at (pm_issued_at (base_permit (dp_permit d))) (pm_expires_at (base_permit (dp_permit d))) at_ = true;
}.
Record EnvelopeAuthentic (e : RequestEnvelope) (check : option public_key → result bool) (audience subject : string)
    (at_ : datetime) : Prop := {
  ea_key : ∃ k, vouched (Current (sender_credential e) (gateway_expected audience subject) (as_utc at_)) k
                ∧ check (Some k) = Ok true;
  ea_audience : rv_audience e = audience;
  ea_subject : cr_subject (credential (sender_credential e)) = subject;
  ea_effect : digest_of (rv_effect e) = Ok (rv_effect_sha256 e);
  ea_window : valid_at (rv_issued_at e) (rv_expires_at e) at_ = true;
}.
(** The prepare request and the receipt, each under a key vouched for as of the preparation. *)
Record ReceiptAuthentic (c : CoordinationReceipt) (q : SignedEffectPrepareRequest) (p : Parties)
    (audience request_audience : string) (now : datetime) (skew : timedelta) : Prop := {
  ra_request : re_prepare c = q;
  ra_effect : re_effect c = rv_effect (pr_envelope q);
  ra_gateway : ∃ k, vouched (Historical (sender_credential (pr_envelope q))
      (gateway_expected request_audience (expected_gateway_subject p)) (as_utc (prepared_at c)) (as_utc now)) k
    ∧ prepare_verify q (Some k) = Ok true;
  ra_coordinator : ∃ k, vouched (Historical (re_coordinator c)
      (coordinator_expected audience (expected_coordinator_subject p)) (as_utc (prepared_at c)) (as_utc now)) k
    ∧ receipt_verify c (Some k) = Ok true;
  ra_window : within (rv_issued_at (pr_envelope q)) (prepared_at c) (rv_expires_at (pr_envelope q)) = true;
  ra_not_future : dt_leb (prepared_at c) (dt_plus now skew) = true;
}.

Lemma digest_is_Ok {A} `{ModelDump A} field (a : A) : digest_is field a = Ok true → digest_of a = Ok field.
Proof using Type.
  intros E. apply result_bind_Ok in E as (d & Hd & E). apply eq_s_true in E. by subst field.
Qed.
Lemma key_or_none_Some (m : M V public_key) v k v' : key_or_none m v = (Ok (Some k), v') → m v = (Ok k, v').
Proof using Type.
  unfold key_or_none, try_except, mbind, M_bind, mret, M_ret. destruct (m v) as [[a|e] v1]; [by intros [= -> ->]|].
  by destruct (isinstance_exn _ _).
Qed.
Lemma with_key_true k check : with_key k check = Ok true → ∃ a, k = Some a ∧ check a = Ok true.
Proof using Type. destruct k as [a|]; [by exists a|discriminate]. Qed.

Lemma inner_dispatch_authentic d x at_ : verify_inner_dispatch d x at_ = Ok true → DispatchAuthentic d x at_.
Proof using Type.
  unfold verify_inner_dispatch. intros H. all_apart.
  match goal with H : Ok (valid_at _ _ _) = _ |- _ => apply Ok_inj in H end. by split.
Qed.
Lemma envelope_authentic e check audience subject at_ v v' :
  verify_envelope e check audience subject at_ v = (Ok true, v') → EnvelopeAuthentic e check audience subject at_.
Proof using VL.
  unfold verify_envelope. intros H. apply M_bind_Ok in H as (k & v1 & Hk & H). apply lift_Ok in H as [H _].
  apply with_key_true in H as (a & -> & H). apply key_or_none_Some in Hk. apply verify_now_vouched in Hk. all_apart.
  match goal with H : Ok (valid_at _ _ _) = _ |- _ => apply Ok_inj in H end.
  split; [by exists a|done|done|by apply digest_is_Ok|done].
Qed.
Lemma receipt_authentic c q p audience raud now skew v v' :
  receipt_verify_for_request c q p audience raud now skew v = (Ok true, v') →
  ReceiptAuthentic c q p audience raud now skew.
Proof using VL.
  unfold receipt_verify_for_request. destruct (negb (times_usable _ _)); [discriminate|]. intros H.
  apply M_bind_Ok in H as (gk & v1 & Hg & H). apply M_bind_Ok in H as (ck & v2 & Hc & H). apply lift_Ok in H as [H _].
  apply with_key_true in H as (g & -> & H). apply with_key_true in H as (k & -> & H).
  apply key_or_none_Some in Hg, Hc. apply verify_as_of_vouched in Hg, Hc. all_apart.
  repeat match goal with H : Ok _ = Ok true |- _ => apply Ok_inj in H end.
  split; [done|done|by exists g|by exists k|done|done].
Qed.

(** A commit request that is complete for admission is signed under a key that
    the authority currently vouches for as the gateway's, carries a receipt and a
    prepare request signed under keys it vouches for as of the preparation, and a
    dispatch whose observation and current permit the pinned keys signed for this
    device. *)
Theorem commit_complete_authentic q x p audience at_ skew v v' :
  commit_complete q x p audience at_ skew v = (Ok true, v') →
  EnvelopeAuthentic (cm_envelope q) (commit_verify q) audience (expected_gateway_subject p) at_
  ∧ ReceiptAuthentic (cm_receipt q) (re_prepare (cm_receipt q)) p GATEWAY_COORDINATION_AUDIENCE
      EFFECT_COORDINATOR_AUDIENCE at_ skew
  ∧ DispatchAuthentic (pr_dispatch (re_prepare (cm_receipt q))) x at_.
Proof using VL.
  intros H. apply all_hold_cons in H as (v1 & He & H). apply all_hold_cons in H as (v2 & Hr & H).
  apply all_hold_cons in H as (v3 & Hd & _). apply lift_Ok in Hd as [Hd _].
  split; [by eapply envelope_authentic|]. split; [by eapply receipt_authentic|by apply inner_dispatch_authentic].
Qed.
End authentic.

(** ** The workload verifier as the verifier of messages *)
(** What the n-th verification of a process finds: the bundle's file, and whether
    the sequence lock is held elsewhere up to the timeout. *)
Class TrustSource := { bundle_reading : nat → option string; lock_held : nat → bool }.
Section implemented.
Context {ED : Ed25519} {ER : Ed25519Raw} {TE : TrustEnv} {TS : TrustSource}.
Context {DC : ModelDump WorkloadCredential} {DB : ModelDump WorkloadTrustBundle} {LB : ModelLoad WorkloadTrustBundle}.
Variable vc : VerifierConfig.
(** A verifier with its checkpoint, and the number of verifications so far. *)
Definition VerifierWorld : Type := (Verifier * TrustDisk) * nat.
Definition verification {A} (f : option string → bool → M (Verifier * TrustDisk) A) : M VerifierWorld A := λ w,
  let '(r, s) := f (bundle_reading w.2) (lock_held w.2) w.1 in (r, (s, S w.2)).
#[export] Instance workload_verifier : CredentialVerifier VerifierWorld := {|
  verify_now s x now := verification (λ file held, verify_credential vc file held s x now);
  verify_as_of s x at_ now skew :=
    verification (λ file held, verify_historical_credential vc file held s x at_ now skew);
|}.
Lemma verify_vouched file held q s k s' : verify vc file held q s = (Ok k, s') → vouched vc q k.
Proof using Type.
  destruct s as [v d], s' as [v' d']. intros (b & digest & [_ Ht]%trusted_bundle_Ok & [Ha Hk]%decision_Ok & _)%verify_decided.
  by exists b, digest.
Qed.
Lemma verification_Ok {A} f w (a : A) w' : verification f w = (Ok a, w') → ∃ file held s, f file held w.1 = (Ok a, s).
Proof using Type.
  unfold verification. destruct (f _ _ _) as [r s] eqn:E. intros [= -> _]. by exists (bundle_reading w.2), (lock_held w.2), s.
Qed.
#[export] Instance workload_verifier_laws : VerifierLaws (V := VerifierWorld) vc.
Proof using Type.
  split.
  - intros s x now w k w' H.
    apply (verification_Ok (λ file held, verify_credential vc file held s x now)) in H as (file & held & s' & H). destruct (dt_aware now) eqn:Hn.
    + rewrite verify_credential_call in H by done. by eapply verify_vouched.
    + exfalso. unfold verify_credential, verify_credential_with_receipt, mbind, M_bind, lift, rejected, require in H.
      by rewrite Hn in H.
  - intros s x at_ now skew w k w' H.
    apply (verification_Ok (λ file held, verify_historical_credential vc file held s x at_ now skew)) in H
      as (file & held & s' & H).
    destruct (dt_aware now && dt_aware at_ && (0 <=? skew)%Z) eqn:Hn.
    2: { exfalso. unfold verify_historical_credential, mbind, M_bind, lift, rejected, require in H. by rewrite Hn in H. }
    destruct (dt_leb (as_utc at_) (dt_plus (as_utc now) skew)) eqn:Hs.
    2: { exfalso. unfold verify_historical_credential, mbind, M_bind, lift, rejected, require in H. by rewrite Hn, Hs in H. }
    rewrite verify_historical_call in H by done. by eapply verify_vouched.
Qed.
End implemented.
