(* ===== verification/CoordinationRecord.v ===== *)
(** * Journal records of one effect ([src/src/aegis_ot/coordination_journal.py])

    Attempts to prepare, commit or query an effect, the state transitions they
    justified, and [require_legal_history], the check every stored record
    passes.  A record never has an empty list of transitions or attempts. *)
From S2P Require Import Prelude PyFloat PyStr PyTime PyJson Sha256 Crypto Models PhysicalModels CapabilityModels.
From S2P Require Import DurableReplay Workload WorkloadVerifier CoordinationModels CoordinationMessages.

Definition MAX_TRANSITIONS_PER_EFFECT : Z := 16.
Definition MAX_ATTEMPTS_PER_EFFECT : Z := 128.

Inductive CoordinationAttemptStatus := REQUEST_RETAINED | RESPONSE_RETAINED | OUTCOME_UNKNOWN.
#[export] Instance CoordinationAttemptStatus_eq_dec : EqDecision CoordinationAttemptStatus.
Proof. solve_decision. Defined.

Record CoordinationTransition := mk_CoordinationTransition {
  tr_sequence : Z;
  tr_state : CoordinationState;
  tr_disposition : option EffectDisposition;
  tr_evidence_sha256 : option string;
  tr_reason : string;
  recorded_at : datetime;
}.
#[export] Instance CoordinationTransition_eq_dec : EqDecision CoordinationTransition.
Proof. solve_decision. Defined.
Record AttemptBase := mk_AttemptBase {
  at_sequence : Z;
  at_request_sha256 : string;
  at_status : CoordinationAttemptStatus;
  retained_at : datetime;
  updated_at : datetime;
}.
#[export] Instance AttemptBase_eq_dec : EqDecision AttemptBase.
Proof. solve_decision. Defined.
Record EffectPrepareAttempt := mk_EffectPrepareAttempt {
  tp_base : AttemptBase;
  tp_request : SignedEffectPrepareRequest;
  tp_receipt : option CoordinationReceipt;
}.
Record EffectCommitAttempt := mk_EffectCommitAttempt {
  tc_base : AttemptBase;
  tc_request : SignedEffectCommitRequest;
  tc_acceptance : option DurableCommitAcceptance;
  tc_outcome : option SignedEffectOutcome;
  tc_failure_reason : option string;
  tc_failure_evidence : option string;
}.
Record EffectQueryAttempt := mk_EffectQueryAttempt {
  tq_base : AttemptBase;
  tq_request : SignedEffectQueryRequest;
  tq_outcome : option SignedEffectOutcome;
  tq_failure_reason : option string;
  tq_failure_evidence : option string;
}.
#[export] Instance EffectPrepareAttempt_eq_dec : EqDecision EffectPrepareAttempt.
Proof. solve_decision. Defined.
#[export] Instance EffectCommitAttempt_eq_dec : EqDecision EffectCommitAttempt.
Proof. solve_decision. Defined.
#[export] Instance EffectQueryAttempt_eq_dec : EqDecision EffectQueryAttempt.
Proof. solve_decision. Defined.
Inductive CoordinationAttempt :=
  | Prepare (a : EffectPrepareAttempt)
  | Commit (a : EffectCommitAttempt)
  | Query (a : EffectQueryAttempt).
#[export] Instance CoordinationAttempt_eq_dec : EqDecision CoordinationAttempt.
Proof. solve_decision. Defined.
Record CoordinationJournalRecord := mk_CoordinationJournalRecord {
  jr_effect : EffectIdentity;
  jr_effect_sha256 : string;
  jr_transitions : list CoordinationTransition;
  jr_attempts : list CoordinationAttempt;
}.
#[export] Instance CoordinationJournalRecord_eq_dec : EqDecision CoordinationJournalRecord.
Proof. solve_decision. Defined.

Definition attempt_base (a : CoordinationAttempt) : AttemptBase :=
  match a with Prepare p => tp_base p | Commit c => tc_base c | Query q => tq_base q end.
Definition attempt_effect (a : CoordinationAttempt) : EffectIdentity :=
  match a with
  | Prepare p => rv_effect (pr_envelope (tp_request p))
  | Commit c => rv_effect (cm_envelope (tc_request c))
  | Query q => rv_effect (qr_envelope (tq_request q))
  end.
(** The outcome a commit or query attempt retains. *)
Definition attempt_outcome (a : CoordinationAttempt) : option SignedEffectOutcome :=
  match a with Prepare _ => None | Commit c => tc_outcome c | Query q => tq_outcome q end.

(** ** Properties of a record *)
Definition with_transitions (r : CoordinationJournalRecord) (l : list CoordinationTransition) : CoordinationJournalRecord :=
  mk_CoordinationJournalRecord (jr_effect r) (jr_effect_sha256 r) l (jr_attempts r).
Definition with_attempts (r : CoordinationJournalRecord) (l : list CoordinationAttempt) : CoordinationJournalRecord :=
  mk_CoordinationJournalRecord (jr_effect r) (jr_effect_sha256 r) (jr_transitions r) l.
Definition state_of_transitions (l : list CoordinationTransition) : CoordinationState :=
  match last l with Some t => tr_state t | None => RECEIVED end.
Definition jr_state (r : CoordinationJournalRecord) : CoordinationState := state_of_transitions (jr_transitions r).
Definition latest_evidence (r : CoordinationJournalRecord) : option string := last (jr_transitions r) ≫= tr_evidence_sha256.
(** The last element on which [f] is defined. *)
Definition last_such {A B} (f : A → option B) (l : list A) : option B := last (omap f l).
Definition latest_receipt (r : CoordinationJournalRecord) : option CoordinationReceipt :=
  last_such (λ a, match a with Prepare p => tp_receipt p | _ => None end) (jr_attempts r).
Definition latest_acceptance (r : CoordinationJournalRecord) : option DurableCommitAcceptance :=
  last_such (λ a, match a with Commit c => tc_acceptance c | _ => None end) (jr_attempts r).
Definition terminal_attempt_outcome (a : CoordinationAttempt) : option SignedEffectOutcome :=
  match attempt_outcome a with
  | Some o => if terminal_disposition (oc_disposition o) then Some o else None
  | None => None
  end.
Definition terminal_outcome (r : CoordinationJournalRecord) : option SignedEffectOutcome :=
  last_such terminal_attempt_outcome (jr_attempts r).

Section record_checks.
Context {ED : Ed25519} {ER : Ed25519Raw} {MD : MessageDumps}.

Definition CoordinationTransition_validate (t : CoordinationTransition) : result CoordinationTransition :=
  _ ← closed ((1 <=? tr_sequence t)%Z && (tr_sequence t <=? MAX_TRANSITIONS_PER_EFFECT)%Z
              && opt_field is_sha256 (tr_evidence_sha256 t) && text_between 1 512 (tr_reason t)) "field constraint";
  _ ← closed (bool_decide (tr_disposition t = for_state (tr_state t)))
      "coordination transition disposition is inconsistent";
  _ ← closed (dt_aware (recorded_at t)) "coordination transition time must be timezone-aware";
  _ ← closed (negb (bool_decide (tr_state t ∈ [STATE_APPLIED; STATE_REJECTED])
                    && bool_decide (tr_evidence_sha256 t = None)))
      "terminal dispatch transition requires exact outcome evidence";
  Ok t.

(** ** Attempts *)
Definition base_check (b : AttemptBase) : result unit :=
  _ ← closed ((1 <=? at_sequence b)%Z && (at_sequence b <=? MAX_ATTEMPTS_PER_EFFECT)%Z
              && is_sha256 (at_request_sha256 b)) "field constraint";
  _ ← closed (dt_aware (retained_at b) && dt_aware (updated_at b)) "coordination attempt times must be timezone-aware";
  closed (negb (dt_ltb (updated_at b) (retained_at b))) "coordination attempt update cannot precede retention".
(** [and] of checks that may raise: the second only when the first holds. *)
Definition and_then (a b : result bool) : result bool := x ← a; if (x : bool) then b else Ok false.
Definition failure_fields (reason evidence : option string) : result unit :=
  closed (opt_field (text_between 1 512) reason && opt_field is_sha256 evidence) "field constraint".

Definition receipt_answers (c : CoordinationReceipt) (r : SignedEffectPrepareRequest) : result bool :=
  and_then (receipt_verify c None)
    (and_then (Ok (bool_decide (re_prepare c = r)))
      (and_then (digest_is (re_prepare_sha256 c) r) (Ok (bool_decide (re_effect c = rv_effect (pr_envelope r)))))).
Definition EffectPrepareAttempt_validate (a : EffectPrepareAttempt) : result EffectPrepareAttempt :=
  let b := tp_base a in let r := tp_request a in
  _ ← base_check b;
  bound ← and_then (digest_is (at_request_sha256 b) r) (prepare_verify r None);
  _ ← closed bound "prepare attempt request binding is inconsistent";
  _ ← closed (negb (dt_ltb (retained_at b) (rv_issued_at (pr_envelope r))))
      "prepare attempt cannot predate its signed request";
  _ ← closed (negb (bool_decide (at_status b = OUTCOME_UNKNOWN))) "prepare attempts cannot assert an unknown outcome";
  _ ← (if bool_decide (at_status b = REQUEST_RETAINED)
       then closed (bool_decide (tp_receipt a = None)) "request-only prepare attempt cannot retain a receipt"
       else ok ← match tp_receipt a with Some c => receipt_answers c r | None => Ok false end;
            closed ok "prepared response does not bind its exact request");
  _ ← closed (match tp_receipt a with Some c => negb (dt_ltb (updated_at b) (prepared_at c)) | None => true end)
      "prepare response retention cannot predate its receipt";
  Ok a.

Definition acceptance_answers (x : DurableCommitAcceptance) (r : SignedEffectCommitRequest) : result bool :=
  and_then (acceptance_verify x None)
    (and_then (Ok (bool_decide (ac_request x = r)))
      (and_then (digest_is (ac_request_sha256 x) r) (Ok (bool_decide (ac_effect x = rv_effect (cm_envelope r)))))).
(** An outcome's kind, request digest and effect, and its signature. *)
Definition outcome_answers (o : SignedEffectOutcome) (k : RequestKind) (digest : result string) (e : EffectIdentity) :
    result bool :=
  and_then (outcome_verify o None)
    (and_then (Ok (bool_decide (oc_kind o = k)))
      (d ← digest; Ok (eq_s (oc_request_sha256 o) d && bool_decide (oc_effect o = e)))).
(** The status's shape: whether an answered attempt's outcome is [answered]. *)
Definition status_check (b : AttemptBase) (outcome : option SignedEffectOutcome) (reason evidence : option string)
    (answered : SignedEffectOutcome → result bool) (kind : string) : result unit :=
  match at_status b with
  | RESPONSE_RETAINED =>
      ok ← match outcome with Some o => answered o | None => Ok false end;
      _ ← closed ok (kind +:+ " outcome does not bind its exact request");
      _ ← closed (bool_decide (reason = None) && bool_decide (evidence = None))
          ("retained " +:+ kind +:+ " response cannot assert delivery failure");
      closed (match outcome with Some o => negb (dt_ltb (updated_at b) (signed_at o)) | None => true end)
        (kind +:+ " response retention cannot predate its outcome")
  | OUTCOME_UNKNOWN =>
      closed (bool_decide (outcome = None) && bool_decide (is_Some reason))
        ("unknown " +:+ kind +:+ " attempt requires bounded failure evidence")
  | REQUEST_RETAINED =>
      closed (bool_decide (outcome = None) && bool_decide (reason = None) && bool_decide (evidence = None))
        ("request-only " +:+ kind +:+ " attempt cannot assert an outcome")
  end.
Definition EffectCommitAttempt_validate (a : EffectCommitAttempt) : result EffectCommitAttempt :=
  let b := tc_base a in let r := tc_request a in
  _ ← failure_fields (tc_failure_reason a) (tc_failure_evidence a);
  _ ← base_check b;
  bound ← and_then (digest_is (at_request_sha256 b) r)
            (and_then (commit_verify r None) (receipt_verify (cm_receipt r) None));
  _ ← closed bound "commit attempt request binding is inconsistent";
  _ ← closed (negb (dt_ltb (retained_at b) (rv_issued_at (cm_envelope r))))
      "commit attempt cannot predate its signed request";
  _ ← match tc_acceptance a with
      | Some x => ok ← acceptance_answers x r;
                  _ ← closed ok "commit acceptance does not bind its exact request";
                  closed (negb (dt_ltb (updated_at b) (accepted_at x)))
                    "commit acceptance retention cannot predate acceptance"
      | None => Ok tt
      end;
  _ ← status_check b (tc_outcome a) (tc_failure_reason a) (tc_failure_evidence a)
        (λ o, and_then (outcome_answers o KIND_COMMIT (digest_of r) (rv_effect (cm_envelope r)))
                (Ok (bool_decide (oc_receipt o = Some (cm_receipt r)) && bool_decide (is_Some (tc_acceptance a))
                     && bool_decide (oc_acceptance o = tc_acceptance a)))) "commit";
  Ok a.
Definition EffectQueryAttempt_validate (a : EffectQueryAttempt) : result EffectQueryAttempt :=
  let b := tq_base a in let r := tq_request a in
  _ ← failure_fields (tq_failure_reason a) (tq_failure_evidence a);
  _ ← base_check b;
  bound ← and_then (digest_is (at_request_sha256 b) r) (query_verify r None);
  _ ← closed bound "query attempt request binding is inconsistent";
  _ ← closed (negb (dt_ltb (retained_at b) (rv_issued_at (qr_envelope r))))
      "query attempt cannot predate its signed request";
  _ ← status_check b (tq_outcome a) (tq_failure_reason a) (tq_failure_evidence a)
        (λ o, outcome_answers o KIND_QUERY (digest_of r) (rv_effect (qr_envelope r))) "query";
  Ok a.

(** ** [require_legal_history] *)
(** The transitions: numbered from 1, legal and in order of time. *)
Fixpoint transitions_legal (n : Z) (prior : option CoordinationTransition) (l : list CoordinationTransition) :
    result unit :=
  match l with
  | [] => Ok tt
  | t :: l =>
      _ ← closed (tr_sequence t =? n)%Z "journal transition sequence is not contiguous";
      _ ← match prior with
          | Some p =>
              _ ← closed (negb (dt_ltb (recorded_at t) (recorded_at p))) "journal transition chronology is inconsistent";
              closed (can_transition_to (tr_state p) (tr_state t)) "journal contains an illegal state transition"
          | None => Ok tt
          end;
      transitions_legal (n + 1) (Some t) l
  end.

(** What the loop over the attempts collects. *)
Record History := mk_History {
  h_prior : option datetime;
  h_receipts : list string;
  h_commits : list string;
  h_commit_count : nat;
  h_acceptances : list (string * DurableCommitAcceptance);
  h_terminal : list (EffectDisposition * string);
  h_not_dispatched : list string;
}.
Definition no_history : History := mk_History None [] [] 0 [] [] [].

Definition history_receipt (h : History) (a : CoordinationAttempt) : result History :=
  match a with
  | Prepare p =>
      match tp_receipt p with
      | Some c => d ← digest_of c;
                  Ok (mk_History (h_prior h) (d :: h_receipts h) (h_commits h) (h_commit_count h) (h_acceptances h)
                        (h_terminal h) (h_not_dispatched h))
      | None => Ok h
      end
  | _ => Ok h
  end.
Definition history_commit (h : History) (a : CoordinationAttempt) : result History :=
  match a with
  | Commit c =>
      d ← digest_of (tc_request c);
      rd ← digest_of (cm_receipt (tc_request c));
      _ ← closed (bool_decide (rd ∈ h_receipts h)) "commit attempt lacks its retained prepare receipt";
      Ok (mk_History (h_prior h) (h_receipts h) (d :: h_commits h) (S (h_commit_count h))
            (match tc_acceptance c with Some x => dict_set d x (h_acceptances h) | None => h_acceptances h end)
            (h_terminal h) (h_not_dispatched h))
  | _ => Ok h
  end.
Definition history_query (h : History) (a : CoordinationAttempt) : result unit :=
  match a with
  | Query q =>
      match tq_outcome q with
      | Some o =>
          if bool_decide (oc_disposition o = EFFECT_NOT_DISPATCHED) then Ok tt else
          _ ← match oc_receipt o with
              | Some c => d ← digest_of c;
                          closed (bool_decide (d ∈ h_receipts h)) "query outcome lacks its retained prepare receipt"
              | None => closed false "query outcome lacks its retained prepare receipt"
              end;
          match oc_acceptance o with
          | Some x => d ← digest_of (ac_request x);
                      closed (bool_decide (dict_get d (h_acceptances h) = Some x))
                        "query outcome lacks its exact retained commit acceptance"
          | None => closed false "query outcome lacks its exact retained commit acceptance"
          end
      | None => Ok tt
      end
  | _ => Ok tt
  end.
Definition is_query (a : CoordinationAttempt) : bool := match a with Query _ => true | _ => false end.
Definition history_outcome (h : History) (a : CoordinationAttempt) : result History :=
  match attempt_outcome a with
  | Some o =>
      if terminal_disposition (oc_disposition o) then
        d ← digest_of o;
        Ok (mk_History (h_prior h) (h_receipts h) (h_commits h) (h_commit_count h) (h_acceptances h)
              ((oc_disposition o, d) :: h_terminal h) (h_not_dispatched h))
      else if is_query a && bool_decide (oc_disposition o = EFFECT_NOT_DISPATCHED) then
        d ← digest_of o;
        Ok (mk_History (h_prior h) (h_receipts h) (h_commits h) (h_commit_count h) (h_acceptances h)
              (h_terminal h) (d :: h_not_dispatched h))
      else Ok h
  | None => Ok h
  end.
Definition history_step (e : EffectIdentity) (n : Z) (h : History) (a : CoordinationAttempt) : result History :=
  let b := attempt_base a in
  _ ← closed (at_sequence b =? n)%Z "journal attempt sequence is not contiguous";
  _ ← closed (bool_decide (attempt_effect a = e)) "journal attempt refers to a different effect";
  _ ← closed (match h_prior h with Some p => negb (dt_ltb (retained_at b) p) | None => true end)
      "journal attempt chronology is inconsistent";
  let h := mk_History (Some (retained_at b)) (h_receipts h) (h_commits h) (h_commit_count h) (h_acceptances h)
             (h_terminal h) (h_not_dispatched h) in
  h ← history_receipt h a;
  h ← history_commit h a;
  _ ← history_query h a;
  history_outcome h a.
Fixpoint history_of (e : EffectIdentity) (n : Z) (h : History) (l : list CoordinationAttempt) : result History :=
  match l with
  | [] => Ok h
  | a :: l => h ← history_step e n h a; history_of e (n + 1) h l
  end.

Definition post_commit (s : CoordinationState) : bool :=
  bool_decide (s ∈ [COMMIT_ACCEPTED; STATE_UNKNOWN_EFFECT; STATE_APPLIED; STATE_REJECTED]).
Definition acceptance_bound (r : CoordinationJournalRecord) (x : DurableCommitAcceptance) : result unit :=
  match jr_transitions r !! 2%nat with
  | None => closed false "commit acceptance transition is missing"
  | Some t =>
      d ← digest_of x;
      closed (bool_decide (tr_state t = COMMIT_ACCEPTED) && bool_decide (tr_evidence_sha256 t = Some d)
              && negb (dt_ltb (recorded_at t) (accepted_at x)))
        "commit acceptance transition binding is inconsistent"
  end.
(** What the state needs of the retained outcomes. *)
Definition terminal_bound (r : CoordinationJournalRecord) (h : History) : result unit :=
  let evidence_in l := bool_decide (latest_evidence r ∈ Some <$> l) in
  match jr_state r with
  | STATE_APPLIED | STATE_REJECTED =>
      let expected := default EFFECT_APPLIED (for_state (jr_state r)) in
      _ ← closed (negb (bool_decide (h_terminal h = [])) && forallb (λ t, bool_decide (t.1 = expected)) (h_terminal h))
          "terminal state lacks one consistent exact outcome";
      closed (evidence_in (h_terminal h).*2) "terminal transition does not bind a retained outcome"
  | _ => closed (bool_decide (h_terminal h = [])) "nonterminal state cannot retain terminal outcome evidence"
  end.
Definition not_dispatched_bound (r : CoordinationJournalRecord) (h : History) : result unit :=
  if bool_decide (h_not_dispatched h = []) then Ok tt else
  _ ← closed (bool_decide (jr_state r = STATE_NOT_DISPATCHED)) "not-dispatched outcome lacks its terminal transition";
  closed (bool_decide (latest_evidence r ∈ Some <$> h_not_dispatched h))
    "not-dispatched transition does not bind a retained outcome".
Definition starts_with_prepare (r : CoordinationJournalRecord) : bool :=
  match jr_attempts r with Prepare _ :: _ => true | _ => false end.

Definition require_legal_history (r : CoordinationJournalRecord) : result unit :=
  bound ← digest_is (jr_effect_sha256 r) (jr_effect r);
  _ ← closed bound "journal record effect hash is inconsistent";
  _ ← closed (bool_decide (tr_state <$> head (jr_transitions r) = Some RECEIVED))
      "journal record must begin in received state";
  _ ← transitions_legal 1 None (jr_transitions r);
  h ← history_of (jr_effect r) 1 no_history (jr_attempts r);
  _ ← closed (starts_with_prepare r) "journal record must begin with a prepare attempt";
  _ ← closed (h_commit_count h <=? 1)%nat "journal record retains conflicting commit requests";
  _ ← closed (bool_decide (jr_state r ∈ [RECEIVED; STATE_NOT_DISPATCHED]) || negb (bool_decide (h_receipts h = [])))
      "dispatched state lacks an exact prepare receipt";
  let committed := existsb (λ t, post_commit (tr_state t)) (jr_transitions r) in
  _ ← closed (negb (committed && bool_decide (h_commits h = []))) "post-prepare history lacks a retained commit intent";
  _ ← closed (negb (committed && bool_decide (latest_acceptance r = None)))
      "post-prepare history lacks durable commit acceptance";
  _ ← match latest_acceptance r with Some x => acceptance_bound r x | None => Ok tt end;
  _ ← terminal_bound r h;
  not_dispatched_bound r h.

(** The record's own check; its transitions and attempts were constructed before. *)
Definition CoordinationJournalRecord_validate (r : CoordinationJournalRecord) : result CoordinationJournalRecord :=
  _ ← closed (is_sha256 (jr_effect_sha256 r)
              && (1 <=? Z.of_nat (length (jr_transitions r)))%Z
              && (Z.of_nat (length (jr_transitions r)) <=? MAX_TRANSITIONS_PER_EFFECT)%Z
              && (1 <=? Z.of_nat (length (jr_attempts r)))%Z
              && (Z.of_nat (length (jr_attempts r)) <=? MAX_ATTEMPTS_PER_EFFECT)%Z)
      "field constraint";
  _ ← require_legal_history r;
  Ok r.
End record_checks.
