(* ===== verification/CoordinationJournal.v ===== *)
(** * The durable coordination journals ([src/src/aegis_ot/coordination_journal.py])

    One algorithm with two roles, the gateway's and the OT effect coordinator's:
    a file of one record per effect, replaced as a whole at every update, held
    under a lifetime writer lock.  [now] is the clock's reading of a call that was
    given no time; pydantic's reading of a record from JSON is a parameter, the
    nested construction checks it runs are not. *)
From S2P Require Import Prelude PyFloat PyStr PyTime PyJson Sha256 Crypto Models PhysicalModels CapabilityModels.
From S2P Require Import DurableReplay Workload WorkloadVerifier CoordinationModels CoordinationMessages.
From S2P Require Import CoordinationRecord.

Inductive JournalRole := ROLE_GATEWAY | ROLE_EFFECT_COORDINATOR.
#[export] Instance JournalRole_eq_dec : EqDecision JournalRole.
Proof. solve_decision. Defined.
Definition role_value (r : JournalRole) : string :=
  match r with ROLE_GATEWAY => "gateway" | ROLE_EFFECT_COORDINATOR => "effect_coordinator" end.
Definition SCHEMA_VERSION : string := "m4i-coordination-journal-v2".
Definition MAX_JOURNAL_BYTES : Z := 8 * 1024 * 1024.
Definition MAX_ENTRIES : Z := 8192.

Definition journal_error {A} (msg : string) : result A := raise_ "CoordinationJournalError" msg.
Definition collision {A} (msg : string) : result A := raise_ "CoordinationCollisionError" msg.
Definition illegal {A} (msg : string) : result A := raise_ "IllegalCoordinationTransition" msg.
Definition ensure (c : bool) (msg : string) : result unit := if c then Ok tt else journal_error msg.
Definition no_collision (c : bool) (msg : string) : result unit := if c then Ok tt else collision msg.
Definition legal (c : bool) (msg : string) : result unit := if c then Ok tt else illegal msg.

Abbreviation Records := (gmap string CoordinationJournalRecord).
Record Journal := mk_Journal {
  jn_writer : option Z;
  jn_records : Records;
  jn_unusable : bool;
}.
Abbreviation JournalState := (Journal * Disk)%type.

(** A journal's role and owner. *)
Record JournalConfig := mk_JournalConfig { jc_role : JournalRole; jc_owner_subject : string }.

Section journal.
Context {ED : Ed25519} {ER : Ed25519Raw} {MD : MessageDumps} {FS : FsEnv}
  {DJ : ModelDump CoordinationJournalRecord} {LJ : ModelLoad CoordinationJournalRecord}.
Context {DCr : ModelDump WorkloadCredential}.
Variable jc : JournalConfig.

(** ** Rereading a record: every nested construction check runs again *)
Definition dispatch_reread (d : SegmentedCapabilityDispatch) : result SegmentedCapabilityDispatch :=
  _ ← ActionProposal_validate (rq_proposal (dp_request d));
  _ ← CapabilityActionRequest_validate (dp_request d);
  _ ← PhysicalStateSnapshot_validate (snapshot (dp_observation d));
  _ ← SignedObservationEnvelope_validate (dp_observation d);
  _ ← CandidateAssessment_validate (dp_assessment d);
  _ ← ExecutionPermit_validate (base_permit (dp_permit d));
  _ ← CapabilityExecutionPermit_validate (dp_permit d);
  SegmentedCapabilityDispatch_validate d.
Definition envelope_reread (e : RequestEnvelope) : result RequestEnvelope :=
  _ ← EffectIdentity_validate (rv_effect e);
  c ← SignedWorkloadCredential_validate (sender_credential e);
  Ok (mk_RequestEnvelope (rv_effect e) (rv_effect_sha256 e) (rv_audience e) c (request_nonce e) (rv_issued_at e)
        (rv_expires_at e) (rv_signature e)).
Definition prepare_reread (r : SignedEffectPrepareRequest) : result SignedEffectPrepareRequest :=
  e ← envelope_reread (pr_envelope r);
  d ← dispatch_reread (pr_dispatch r);
  SignedEffectPrepareRequest_validate (mk_SignedEffectPrepareRequest e d (pr_dispatch_sha256 r)).
Definition receipt_reread (r : CoordinationReceipt) : result CoordinationReceipt :=
  _ ← EffectIdentity_validate (re_effect r);
  p ← prepare_reread (re_prepare r);
  c ← SignedWorkloadCredential_validate (re_coordinator r);
  CoordinationReceipt_validate (mk_CoordinationReceipt (re_effect r) (re_effect_sha256 r) p (re_prepare_sha256 r)
    (re_audience r) c (prepared_at r) (re_signature r)).
Definition commit_reread (r : SignedEffectCommitRequest) : result SignedEffectCommitRequest :=
  e ← envelope_reread (cm_envelope r);
  c ← receipt_reread (cm_receipt r);
  SignedEffectCommitRequest_validate (mk_SignedEffectCommitRequest e c (cm_receipt_sha256 r)).
Definition acceptance_reread (a : DurableCommitAcceptance) : result DurableCommitAcceptance :=
  _ ← EffectIdentity_validate (ac_effect a);
  r ← commit_reread (ac_request a);
  c ← SignedWorkloadCredential_validate (ac_coordinator a);
  DurableCommitAcceptance_validate (mk_DurableCommitAcceptance (ac_effect a) (ac_effect_sha256 a) r
    (ac_request_sha256 a) (ac_audience a) c (accepted_at a) (ac_signature a)).
Definition query_reread (r : SignedEffectQueryRequest) : result SignedEffectQueryRequest :=
  e ← envelope_reread (qr_envelope r); SignedEffectQueryRequest_validate (mk_SignedEffectQueryRequest e).
Definition option_reread {A} (f : A → result A) (o : option A) : result (option A) :=
  match o with Some a => b ← f a; Ok (Some b) | None => Ok None end.
Definition outcome_reread (o : SignedEffectOutcome) : result SignedEffectOutcome :=
  _ ← EffectIdentity_validate (oc_effect o);
  a ← option_reread acceptance_reread (oc_acceptance o);
  k ← option_reread (λ k, _ ← PhysicalStateSnapshot_validate (pa_pre_state k); PlcCommandAcknowledgment_validate k)
        (oc_acknowledgment o);
  c ← SignedWorkloadCredential_validate (oc_coordinator o);
  SignedEffectOutcome_validate (mk_SignedEffectOutcome (oc_kind o) (oc_request_sha256 o) (oc_effect o)
    (oc_effect_sha256 o) (oc_disposition o) a k (oc_reason o) (oc_audience o) c (signed_at o) (oc_signature o)).
Definition attempt_reread (a : CoordinationAttempt) : result CoordinationAttempt :=
  match a with
  | Prepare p =>
      r ← prepare_reread (tp_request p);
      c ← option_reread receipt_reread (tp_receipt p);
      p ← EffectPrepareAttempt_validate (mk_EffectPrepareAttempt (tp_base p) r c); Ok (Prepare p)
  | Commit c =>
      r ← commit_reread (tc_request c);
      x ← option_reread acceptance_reread (tc_acceptance c);
      o ← option_reread outcome_reread (tc_outcome c);
      c ← EffectCommitAttempt_validate
            (mk_EffectCommitAttempt (tc_base c) r x o (tc_failure_reason c) (tc_failure_evidence c)); Ok (Commit c)
  | Query q =>
      r ← query_reread (tq_request q);
      o ← option_reread outcome_reread (tq_outcome q);
      q ← EffectQueryAttempt_validate
            (mk_EffectQueryAttempt (tq_base q) r o (tq_failure_reason q) (tq_failure_evidence q)); Ok (Query q)
  end.
Definition record_reread (r : CoordinationJournalRecord) : result CoordinationJournalRecord :=
  _ ← EffectIdentity_validate (jr_effect r);
  ts ← result_mapM CoordinationTransition_validate (jr_transitions r);
  ats ← result_mapM attempt_reread (jr_attempts r);
  CoordinationJournalRecord_validate (mk_CoordinationJournalRecord (jr_effect r) (jr_effect_sha256 r) ts ats).
(** [model_validate_json] of a record's JSON. *)
Definition record_of_json (j : json) : result CoordinationJournalRecord :=
  match model_load j with Some r => record_reread r | None => Raise (field_error "field type") end.

(** ** Action material and its indexes *)
Definition identity (label v : string) : result string :=
  if text_between 1 256 v && is_stripped v then Ok v
  else journal_error ("coordination journal " +:+ label +:+ " is invalid").
Definition ActionMaterial : Type := string * (string * string).
Definition attempt_material (a : EffectPrepareAttempt) : result ActionMaterial :=
  let action := dp_request (pr_dispatch (tp_request a)) in
  d ← request_digest action;
  actor ← identity "action actor ID" (actor_id (rq_proposal action));
  nonce ← identity "action proposal nonce" (nonce (rq_proposal action));
  Ok (d, (actor, nonce)).
Fixpoint materials (known : option ActionMaterial) (l : list CoordinationAttempt) : result (option ActionMaterial) :=
  match l with
  | [] => Ok known
  | Prepare p :: l =>
      m ← attempt_material p;
      match known with
      | None => materials (Some m) l
      | Some m0 =>
          _ ← no_collision (bool_decide (m0 = m)) "coordination effect retains conflicting agent action material";
          materials known l
      end
  | _ :: l => materials known l
  end.
Definition action_material (r : CoordinationJournalRecord) : result ActionMaterial :=
  m ← materials None (jr_attempts r);
  match m with
  | Some m => _ ← no_collision (eq_s m.1 (ei_request_sha256 (jr_effect r)))
                  "coordination effect lacks its exact agent action request"; Ok m
  | None => collision "coordination effect lacks its exact agent action request"
  end.

Definition sorted_records (rs : Records) : list CoordinationJournalRecord :=
  omap (λ k, rs !! k) (sorted_strs (map_to_list rs).*1).
Definition Indexes : Type := gmap string CoordinationJournalRecord * gmap (string * string) CoordinationJournalRecord.
Definition index_record (ix : Indexes) (r : CoordinationJournalRecord) : result Indexes :=
  m ← action_material r;
  _ ← no_collision (match ix.1 !! m.1 with Some q => bool_decide (jr_effect q = jr_effect r) | None => true end)
      "coordination action request digest maps to multiple effects";
  _ ← no_collision (match ix.2 !! m.2 with
                    | Some q => bool_decide (jr_effect q = jr_effect r) && eq_s (ei_request_sha256 (jr_effect q)) m.1
                    | None => true end)
      "coordination agent replay key maps to multiple actions or effects";
  Ok (<[m.1 := r]> ix.1, <[m.2 := r]> ix.2).
Fixpoint index_all (ix : Indexes) (l : list CoordinationJournalRecord) : result Indexes :=
  match l with [] => Ok ix | r :: l => ix ← index_record ix r; index_all ix l end.
Definition action_indexes (rs : Records) : result Indexes := index_all (∅, ∅) (sorted_records rs).

Definition validate_role_history (r : CoordinationJournalRecord) : result unit :=
  if bool_decide (jc_role jc = ROLE_EFFECT_COORDINATOR) then
    ensure (forallb (λ a, match a with Commit c => bool_decide (is_Some (tc_acceptance c)) | _ => true end)
              (jr_attempts r))
      "effect-coordinator commit history lacks durable acceptance"
  else Ok tt.

(** ** The document *)
Definition document (rs : Records) : json := JObj
  [("entries", JArr (model_dump <$> sorted_records rs)); ("journal_role", JStr (role_value (jc_role jc)));
   ("owner_subject", JStr (jc_owner_subject jc)); ("schema_version", JStr SCHEMA_VERSION)].

Definition load_entry (prior : option string) (entry : json) : result CoordinationJournalRecord :=
  match entry with
  | JObj kv =>
      b ← dumps_strict (JObj kv);
      r ← record_of_json (canon (JObj kv));
      _ ← validate_role_history r;
      _ ← ensure (match prior with Some p => str_ltb p (effect_id (jr_effect r)) | None => true end)
          "coordination journal entries are not sorted and unique";
      Ok r
  | _ => journal_error "coordination journal entry shape is invalid"
  end.
Fixpoint load_entries (prior : option string) (rs : Records) (entries : list json) : result Records :=
  match entries with
  | [] => Ok rs
  | entry :: entries =>
      r ← load_entry prior entry;
      load_entries (Some (effect_id (jr_effect r))) (<[effect_id (jr_effect r) := r]> rs) entries
  end.

(** [except CoordinationJournalError: raise; except ValueError: raise ... (msg)] *)
Definition as_journal_error {A} (r : result A) (msg : string) : result A :=
  match r with
  | Ok a => Ok a
  | Raise e => if isinstance_exn e "CoordinationJournalError" then Raise e
               else if isinstance_exn e "ValueError" || isinstance_exn e "TypeError" then journal_error msg else Raise e
  end.
Definition parse_journal (material : string) : result json :=
  match utf8_decode material with
  | None => journal_error "coordination journal is not strict UTF-8 JSON"
  | Some text =>
      as_journal_error (loads (closed_object "CoordinationJournalError" "coordination journal has a duplicate JSON key") text)
        "coordination journal is not strict UTF-8 JSON"
  end.
Definition load_document (material : string) : result Records :=
  parsed ← parse_journal material;
  match parsed with
  | JObj kv =>
      _ ← ensure (keys_are ["schema_version"; "journal_role"; "owner_subject"; "entries"] kv)
          "coordination journal has unexpected or missing fields";
      _ ← ensure (field_is kv "schema_version" SCHEMA_VERSION) "coordination journal schema is unsupported";
      _ ← ensure (field_is kv "journal_role" (role_value (jc_role jc)) && field_is kv "owner_subject" (jc_owner_subject jc))
          "coordination journal identity does not match configuration";
      rs ← match dict_get "entries" kv with
           | Some (JArr entries) =>
               _ ← ensure (Z.of_nat (length entries) <=? MAX_ENTRIES)%Z "coordination journal entry set is invalid";
               as_journal_error (rs ← load_entries None ∅ entries; _ ← action_indexes rs; Ok rs)
                 "coordination journal contains an invalid record"
           | _ => journal_error "coordination journal entry set is invalid"
           end;
      b ← as_journal_error (dumps_strict (document rs)) "coordination journal contains noncanonical values";
      _ ← ensure (bool_decide (material = b)) "coordination journal encoding is not canonical";
      Ok rs
  | _ => journal_error "coordination journal has unexpected or missing fields"
  end.

(** ** The file *)
Definition on_disk {A} (m : M Disk A) : M JournalState A := zoom snd (λ d s, (s.1, d)) m.
Definition assert_writer (pid : Z) : M JournalState unit := λ s,
  (if jn_unusable s.1 then journal_error "coordination journal is unusable after an uncertain update" else
   match jn_writer s.1 with
   | None => journal_error "coordination writer lock is closed"
   | Some owner => if (owner =? pid)%Z then Ok tt
                   else journal_error "coordination writer lock cannot be used by an inherited child process"
   end, s).
Definition check_parent : M Disk unit := λ d,
  (match dk_parent d with
   | ParentUnavailable => journal_error "coordination journal directory is unavailable"
   | ParentSymlink | ParentNotDirectory => journal_error "coordination journal directory must be a non-symlink directory"
   | ParentDirectory mode => ensure (mode =? 448)%Z "coordination journal directory mode must be 0700"
   end, d).
Definition read_entry : M Disk string := λ d,
  (match dk_entry d with
   | EntryAbsent | EntrySymlink => journal_error "coordination journal is missing or unavailable"
   | EntryIrregular => journal_error "coordination journal must be a regular non-symlink file"
   | EntryFile mode bytes =>
       _ ← ensure (mode =? mode_0600)%Z "coordination journal mode must be 0600";
       _ ← ensure (str_len bytes <=? MAX_JOURNAL_BYTES)%Z "coordination journal exceeds its size limit";
       if read_fails (dk_step d) then journal_error "coordination journal cannot be read" else Ok bytes
   end, next_step d).
Definition journal_load (pid : Z) : M JournalState Records :=
  _ ← assert_writer pid;
  _ ← on_disk check_parent;
  material ← on_disk read_entry;
  lift (load_document material).

Definition set_records (rs : Records) : M JournalState unit :=
  modify (λ s, (mk_Journal (jn_writer s.1) rs (jn_unusable s.1), s.2)).
Definition set_unusable : M JournalState unit :=
  modify (λ s, (mk_Journal (jn_writer s.1) (jn_records s.1) true, s.2)).
(** The temporary file, its [fsync], the replacement and the directory's [fsync]:
    an [OSError] leaves the journal unusable. *)
Definition replace_file (material : string) : M JournalState unit :=
  s ← get;
  let written := set_entry (EntryFile mode_0600 material) in
  match write_outcome (dk_step s.2) with
  | Written => on_disk (modify (λ d, next_step (written d)))
  | FailedBefore =>
      _ ← set_unusable; _ ← on_disk (modify next_step);
      throw "CoordinationJournalError" "coordination journal update failed"
  | FailedAfter =>
      _ ← set_unusable; _ ← on_disk (modify (λ d, next_step (written d)));
      throw "CoordinationJournalError" "coordination journal update failed"
  | CleanupFailed =>
      _ ← set_unusable; _ ← on_disk (modify next_step); throw "OSError" "temporary file cannot be removed"
  end.
Definition journal_persist (pid : Z) (rs : Records) : M JournalState unit :=
  _ ← assert_writer pid;
  _ ← on_disk check_parent;
  _ ← lift (ensure (Z.of_nat (size rs) <=? MAX_ENTRIES)%Z "coordination journal is at capacity");
  material ← lift (dumps_strict (document rs));
  _ ← lift (ensure (str_len material <=? MAX_JOURNAL_BYTES)%Z "coordination journal is at capacity");
  replace_file material.

Definition acquire_writer_lock : M Disk unit := λ d,
  let held := "coordination writer lock is already held or unavailable" in
  match dk_sidecar d with
  | SidecarUnopenable => (raise_ "_WriterLockError" held, d)
  | SidecarIrregular => (raise_ "_WriterLockError" "coordination writer lock must be a regular non-symlink file", d)
  | SidecarAbsent =>
      if dk_locked d then (raise_ "_WriterLockError" held, set_lock (SidecarFile mode_0600) true d)
      else (Ok tt, set_lock (SidecarFile mode_0600) true d)
  | SidecarFile mode =>
      if negb (mode =? mode_0600)%Z then (raise_ "_WriterLockError" "coordination writer lock mode must be 0600", d)
      else if dk_locked d then (raise_ "_WriterLockError" held, d)
      else (Ok tt, set_lock (SidecarFile mode) true d)
  end.
Definition journal_close : M JournalState unit := λ s,
  match jn_writer s.1 with
  | None => (Ok tt, s)
  | Some _ => (Ok tt, (mk_Journal None (jn_records s.1) (jn_unusable s.1), set_lock (dk_sidecar s.2) false s.2))
  end.
(** The constructor's [try] body after the lock. *)
Definition journal_open_locked (pid : Z) (initialize : bool) : M JournalState unit :=
  _ ← (if initialize then
         s ← get;
         _ ← lift (ensure (match dk_entry s.2 with EntryAbsent => true | _ => false end)
                     "coordination journal already exists; refusing to initialize");
         journal_persist pid ∅
       else mret tt);
  rs ← journal_load pid;
  set_records rs.
(** [__init__]: on failure the lock is released again. *)
Definition journal_init (pid : Z) (initialize : bool) : M Disk Journal := λ d,
  match identity "owner subject" (jc_owner_subject jc) with
  | Raise e => (Raise e, d)
  | Ok _ =>
      match check_parent d with
      | (Raise e, d) => (Raise e, d)
      | (Ok _, d) =>
          match acquire_writer_lock d with
          | (Raise e, d) => (journal_error (exn_str e), d)
          | (Ok _, d) =>
              match journal_open_locked pid initialize (mk_Journal (Some pid) ∅ false, d) with
              | (Ok _, (j, d)) => (Ok j, d)
              | (Raise e, s) => (Raise e, (journal_close s).2.2)
              end
          end
      end
  end.

(** ** Lookups *)
Definition lookup_effect (rs : Records) (e : EffectIdentity) : result (option CoordinationJournalRecord) :=
  match rs !! effect_id e with
  | Some r => _ ← no_collision (bool_decide (jr_effect r = e))
                  "coordination effect ID collides with different immutable material"; Ok (Some r)
  | None => Ok None
  end.
(** [_lookup], [None] being an error. *)
Definition find_effect (rs : Records) (e : EffectIdentity) (msg : string) : result CoordinationJournalRecord :=
  r ← lookup_effect rs e;
  match r with Some r => Ok r | None => illegal msg end.
Definition records_read {A} (pid : Z) (f : Records → result A) : M JournalState A :=
  _ ← assert_writer pid; s ← get; lift (f (jn_records s.1)).
Definition journal_get (pid : Z) (e : EffectIdentity) : M JournalState (option CoordinationJournalRecord) :=
  records_read pid (λ rs, lookup_effect rs e).
Definition journal_get_id (pid : Z) (id : string) : M JournalState (option CoordinationJournalRecord) :=
  records_read pid (λ rs, i ← identity "effect ID" id; Ok (rs !! i)).
Definition find_action (pid : Z) (request_sha256 actor proposal_nonce : string) :
    M JournalState (option CoordinationJournalRecord) :=
  _ ← lift (ensure (is_sha256 request_sha256) "coordination journal action request digest is invalid");
  a ← lift (identity "action actor ID" actor);
  n ← lift (identity "action proposal nonce" proposal_nonce);
  records_read pid (λ rs,
    ix ← action_indexes rs;
    match ix.1 !! request_sha256, ix.2 !! (a, n) with
    | None, None => Ok None
    | Some r, Some q => _ ← no_collision (bool_decide (r = q))
                            "coordination action lookup collides with retained replay material"; Ok (Some r)
    | _, _ => collision "coordination action lookup collides with retained replay material"
    end).
Definition journal_records (pid : Z) : M JournalState (list CoordinationJournalRecord) :=
  records_read pid (λ rs, Ok (sorted_records rs)).
Definition journal_pending (pid : Z) : M JournalState (list CoordinationJournalRecord) :=
  records_read pid (λ rs, Ok (List.filter (λ r, negb (terminal (jr_state r))) (sorted_records rs))).

(** ** Storing *)
Definition validated_record (r : CoordinationJournalRecord) : result CoordinationJournalRecord :=
  v ← match record_of_json (model_dump r) with
      | Ok v => Ok v
      | Raise e => if isinstance_exn e "ValueError" then journal_error "coordination journal record is invalid" else Raise e
      end;
  _ ← validate_role_history v;
  Ok v.
Definition store_record (pid : Z) (r : CoordinationJournalRecord) : M JournalState CoordinationJournalRecord :=
  v ← lift (validated_record r);
  s ← get;
  let candidate := <[effect_id (jr_effect v) := v]> (jn_records s.1) in
  _ ← lift (action_indexes candidate);
  _ ← journal_persist pid candidate;
  _ ← set_records candidate;
  mret v.

(** ** Changes of one record *)
Definition when_ (recorded : option datetime) (now : datetime) : result datetime :=
  let value := default now recorded in
  _ ← ensure (dt_aware value) "coordination transition time must be timezone-aware"; Ok value.
Definition transition (r : CoordinationJournalRecord) (state : CoordinationState) (evidence : option string)
    (reason : string) (recorded : datetime) : result CoordinationJournalRecord :=
  _ ← legal (negb (terminal (jr_state r))) "terminal coordination state is immutable";
  _ ← legal (can_transition_to (jr_state r) state) "illegal coordination transition";
  t ← CoordinationTransition_validate (mk_CoordinationTransition (Z.of_nat (length (jr_transitions r)) + 1) state
        (for_state state) evidence reason recorded);
  Ok (with_transitions r (jr_transitions r ++ [t])).
(** The first prepare, commit or query attempt with this request digest. *)
Definition prepare_attempt (r : CoordinationJournalRecord) (digest : string) : option EffectPrepareAttempt :=
  head (omap (λ a, match a with
                   | Prepare p => if eq_s (at_request_sha256 (tp_base p)) digest then Some p else None | _ => None end)
          (jr_attempts r)).
Definition commit_attempt (r : CoordinationJournalRecord) (digest : string) : option EffectCommitAttempt :=
  head (omap (λ a, match a with
                   | Commit c => if eq_s (at_request_sha256 (tc_base c)) digest then Some c else None | _ => None end)
          (jr_attempts r)).
Definition query_attempt (r : CoordinationJournalRecord) (digest : string) : option EffectQueryAttempt :=
  head (omap (λ a, match a with
                   | Query q => if eq_s (at_request_sha256 (tq_base q)) digest then Some q else None | _ => None end)
          (jr_attempts r)).
Definition add_attempt (r : CoordinationJournalRecord) (a : CoordinationAttempt) : CoordinationJournalRecord :=
  with_attempts r (jr_attempts r ++ [a]).
Definition replace_attempt (r : CoordinationJournalRecord) (a : CoordinationAttempt) : CoordinationJournalRecord :=
  with_attempts r (map (λ x, if (at_sequence (attempt_base x) =? at_sequence (attempt_base a))%Z then a else x)
                     (jr_attempts r)).
Definition require_attempt_capacity (r : CoordinationJournalRecord) : result unit :=
  ensure (Z.of_nat (length (jr_attempts r)) <? MAX_ATTEMPTS_PER_EFFECT)%Z
    "coordination journal effect attempt history is at capacity".
Definition next_base (r : CoordinationJournalRecord) (digest : string) (status : CoordinationAttemptStatus)
    (at_ : datetime) : AttemptBase :=
  mk_AttemptBase (Z.of_nat (length (jr_attempts r)) + 1) digest status at_ at_.
Definition with_status (b : AttemptBase) (status : CoordinationAttemptStatus) (at_ : datetime) : AttemptBase :=
  mk_AttemptBase (at_sequence b) (at_request_sha256 b) status (retained_at b) at_.
Definition retains_receipt (r : CoordinationJournalRecord) (c : CoordinationReceipt) : bool :=
  existsb (λ a, match a with Prepare p => bool_decide (tp_receipt p = Some c) | _ => false end) (jr_attempts r).
Definition has_commit (r : CoordinationJournalRecord) : bool :=
  existsb (λ a, match a with Commit _ => true | _ => false end) (jr_attempts r).

(** ** Checks of what arrives *)
Definition validate_receipt (r : SignedEffectPrepareRequest) (c : CoordinationReceipt) : result unit :=
  ok ← (if eq_s (re_signature c) "" then Ok false
        else and_then (prepare_verify r None) (receipt_answers c r));
  no_collision ok "coordination receipt does not bind the exact prepare request".
Definition validate_acceptance (r : SignedEffectCommitRequest) (x : DurableCommitAcceptance)
    (accepted : option datetime) : result unit :=
  ok ← (if eq_s (ac_signature x) "" then Ok false
        else and_then (commit_verify r None) (and_then (receipt_verify (cm_receipt r) None)
               (and_then (acceptance_answers x r)
                  (Ok (match accepted with Some t => dt_eqb (accepted_at x) t | None => true end)))));
  no_collision ok "durable commit acceptance does not bind the exact retained request".
Definition request_kind (r : OutcomeRequest) : RequestKind :=
  match r with CommitRequest _ => KIND_COMMIT | QueryRequest _ => KIND_QUERY end.
Definition validate_outcome (r : OutcomeRequest) (o : SignedEffectOutcome) : result unit :=
  ok ← (if eq_s (oc_signature o) "" then Ok false
        else and_then (outcome_request_verify r None)
               (and_then (outcome_answers o (request_kind r) (outcome_request_digest r) (rv_effect (request_envelope r)))
                  (Ok (match r with
                       | CommitRequest c => bool_decide (oc_receipt o = Some (cm_receipt c))
                       | QueryRequest _ => true end))));
  _ ← no_collision ok "coordination outcome does not bind the exact request";
  legal (negb (bool_decide (request_kind r = KIND_COMMIT) && bool_decide (oc_disposition o = EFFECT_NOT_DISPATCHED)))
    "a commit response cannot assert that the effect was not dispatched".
Definition state_for_outcome (o : SignedEffectOutcome) : CoordinationState :=
  match oc_disposition o with
  | EFFECT_NOT_DISPATCHED => STATE_NOT_DISPATCHED | EFFECT_UNKNOWN => STATE_UNKNOWN_EFFECT
  | EFFECT_APPLIED => STATE_APPLIED | EFFECT_REJECTED => STATE_REJECTED
  end.
End journal.
