(* ===== verification/CoordinationRecovery.v ===== *)
(** * Alignment of the coordination journal with the plant
    ([src/src/aegis_ot/coordination_recovery.py])

    A pure check of retained records against the plant's version and digest: the
    applied effects must form one chain from version 0, at most one effect may be
    pending, and the plant must be where the chain ends or where the pending effect
    starts or ends. *)
From S2P Require Import Prelude PyStr PyTime PyJson Sha256 Crypto Models PhysicalModels CapabilityModels DurableReplay Workload.
From S2P Require Import CoordinationModels CoordinationMessages CoordinationRecord CoordinationJournal.
From stdpp Require Import sorting.

Definition MAX_RECOVERY_RECORDS : Z := 8192.
Record PlantInfo := mk_PlantInfo { pl_model_digest : string; pl_state_version : Z; pl_state_digest : string }.
#[export] Instance PlantInfo_eq_dec : EqDecision PlantInfo.
Proof. solve_decision. Defined.

Inductive CoordinationRecoveryStatus := ALIGNED | RECOVERY_REQUIRED | INCONSISTENT | UNAVAILABLE.
#[export] Instance CoordinationRecoveryStatus_eq_dec : EqDecision CoordinationRecoveryStatus.
Proof. solve_decision. Defined.
Inductive CoordinationRecoveryReason :=
  | ALIGNED_EMPTY_BASELINE | ALIGNED_APPLIED_CHAIN | PENDING_EFFECT_AT_PRE_STATE | PENDING_EFFECT_AT_POST_STATE
  | PLANT_INFO_INVALID | RECORD_LIMIT_EXCEEDED | DUPLICATE_EFFECT_RECORD | MULTIPLE_PENDING_EFFECTS
  | JOURNAL_RECORD_INVALID | APPLIED_ACKNOWLEDGMENT_MISSING | APPLIED_ACKNOWLEDGMENT_INCONSISTENT
  | APPLIED_EVIDENCE_INVALID | APPLIED_CHAIN_BROKEN | PENDING_CHAIN_BROKEN | PLANT_MODEL_MISMATCH
  | BASELINE_STATE_NOT_ZERO | PLANT_STATE_ROLLBACK | PLANT_STATE_ADVANCED | PLANT_STATE_DIGEST_MISMATCH
  | PENDING_PLANT_STATE_MISMATCH.
#[export] Instance CoordinationRecoveryReason_eq_dec : EqDecision CoordinationRecoveryReason.
Proof. solve_decision. Defined.
Record CoordinationRecoveryResult := mk_CoordinationRecoveryResult {
  rr_status : CoordinationRecoveryStatus;
  rr_reason : CoordinationRecoveryReason;
  record_count : Z;
  applied_effect_count : Z;
  pending_effect_count : Z;
  plant_state_version : Z;
  plant_state_digest : string;
  latest_applied_state_version : option Z;
  latest_applied_state_digest : option string;
  pending_effect_id : option string;
  pending_expected_post_state_version : option Z;
  pending_expected_post_state_digest : option string;
}.

(** An applied effect with the outcome and acknowledgment that say so. *)
Record AppliedLink := mk_AppliedLink {
  al_record : CoordinationJournalRecord;
  al_outcome : SignedEffectOutcome;
  al_acknowledgment : PlcCommandAcknowledgment;
}.
Definition pre_version (l : AppliedLink) : Z := authorized_state_version (jr_effect (al_record l)).
Definition pre_digest (l : AppliedLink) : string := authorized_state_sha256 (jr_effect (al_record l)).
Definition post_version (l : AppliedLink) : Z := ei_post_state_version (jr_effect (al_record l)).
Definition post_digest (l : AppliedLink) : string := expected_post_state_sha256 (jr_effect (al_record l)).

Definition bounded_records (rs : list CoordinationJournalRecord) : option (list CoordinationJournalRecord) :=
  if (Z.of_nat (length rs) <=? MAX_RECOVERY_RECORDS)%Z then Some rs else None.
Definition valid_plant_info (p : PlantInfo) : bool :=
  (0 <=? pl_state_version p)%Z && is_sha256 (pl_model_digest p) && is_sha256 (pl_state_digest p).
Definition recovery_result (status : CoordinationRecoveryStatus) (reason : CoordinationRecoveryReason)
    (rs : list CoordinationJournalRecord) (p : PlantInfo) (applied : list AppliedLink)
    (pending : option CoordinationJournalRecord) : CoordinationRecoveryResult :=
  mk_CoordinationRecoveryResult status reason (Z.of_nat (length rs)) (Z.of_nat (length applied))
    (match pending with Some _ => 1 | None => 0 end) (pl_state_version p) (pl_state_digest p)
    (post_version <$> last applied) (post_digest <$> last applied)
    ((λ r, effect_id (jr_effect r)) <$> pending) ((λ r, ei_post_state_version (jr_effect r)) <$> pending)
    ((λ r, expected_post_state_sha256 (jr_effect r)) <$> pending).

(** The order of the links: pre-version, post-version, effect identifier. *)
Definition link_le (a b : AppliedLink) : Prop :=
  (pre_version a < pre_version b)%Z ∨ (pre_version a = pre_version b ∧
    ((post_version a < post_version b)%Z ∨ (post_version a = post_version b ∧
      str_le (effect_id (jr_effect (al_record a))) (effect_id (jr_effect (al_record b)))))).
#[export] Instance link_le_dec : RelDecision link_le.
Proof. intros a b. unfold link_le. apply _. Defined.
Fixpoint chain_matches (prior : option AppliedLink) (l : list AppliedLink) : bool :=
  match l with
  | [] => true
  | x :: l =>
      match prior with
      | None => (pre_version x =? 0)%Z
      | Some y => (pre_version x =? post_version y)%Z && bool_decide (pre_digest x = post_digest y)
      end && chain_matches (Some x) l
  end.

Section recovery.
Context {ED : Ed25519} {ER : Ed25519Raw} {MD : MessageDumps}
  {DJ : ModelDump CoordinationJournalRecord} {LJ : ModelLoad CoordinationJournalRecord}.

(** The last attempt's outcome that the last transition names. *)
Fixpoint transition_outcome (evidence : option string) (l : list CoordinationAttempt) :
    result (option SignedEffectOutcome) :=
  match l with
  | [] => Ok None
  | a :: l =>
      match attempt_outcome a with
      | Some o => d ← digest_of o;
                  if bool_decide (Some d = evidence) then Ok (Some o) else transition_outcome evidence l
      | None => transition_outcome evidence l
      end
  end.
Definition acknowledgment_consistent (e : EffectIdentity) (o : SignedEffectOutcome) (k : PlcCommandAcknowledgment) : bool :=
  bool_decide (oc_disposition o = EFFECT_APPLIED) && bool_decide (pa_status k = APPLIED)
  && (pa_pre_state_version k =? authorized_state_version e)%Z
  && bool_decide (pa_pre_state_digest k = authorized_state_sha256 e)
  && (ps_state_version (pa_pre_state k) =? authorized_state_version e)%Z
  && bool_decide (ps_state_digest (pa_pre_state k) = authorized_state_sha256 e)
  && bool_decide (ps_observation_digest (pa_pre_state k) = authorized_observation_sha256 e)
  && bool_decide (ps_topology_digest (pa_pre_state k) = authorized_topology_sha256 e)
  && bool_decide (ps_model_digest (pa_pre_state k) = authorized_model_sha256 e)
  && bool_decide (pa_post_state_version k = Some (ei_post_state_version e))
  && bool_decide (pa_post_state_digest k = Some (expected_post_state_sha256 e))
  && bool_decide (post_topology_digest k = Some (expected_post_topology_sha256 e)).
Definition applied_link (r : CoordinationJournalRecord) : result (AppliedLink + CoordinationRecoveryReason) :=
  t ← transition_outcome (latest_evidence r) (rev (jr_attempts r));
  let outcome := match t with Some o => Some o | None => terminal_outcome r end in
  Ok match outcome with
     | Some o => match oc_acknowledgment o with
                 | Some k => if acknowledgment_consistent (jr_effect r) o k then inl (mk_AppliedLink r o k)
                             else inr APPLIED_ACKNOWLEDGMENT_INCONSISTENT
                 | None => inr APPLIED_ACKNOWLEDGMENT_MISSING
                 end
     | None => inr APPLIED_ACKNOWLEDGMENT_MISSING
     end.
(** [except (AttributeError, IndexError, TypeError, ValueError)] *)
Definition caught (e : exn) : bool :=
  existsb (isinstance_exn e) ["AttributeError"; "IndexError"; "TypeError"; "ValueError"].
Fixpoint applied_links (rs : list CoordinationJournalRecord) (links : list AppliedLink) :
    result (list AppliedLink + (CoordinationRecoveryReason * list AppliedLink)) :=
  match rs with
  | [] => Ok (inl links)
  | r :: rs =>
      if bool_decide (jr_state r = STATE_APPLIED) then
        match applied_link r with
        | Ok (inl l) => applied_links rs (links ++ [l])
        | Ok (inr reason) => Ok (inr (reason, links))
        | Raise e => if caught e then Ok (inr (JOURNAL_RECORD_INVALID, links)) else Raise e
        end
      else applied_links rs links
  end.

(** *** [_applied_evidence_valid] *)
Definition applied_attempt (a : CoordinationAttempt) : option (CoordinationAttempt * SignedEffectOutcome) :=
  match attempt_outcome a with
  | Some o => if bool_decide (oc_disposition o = EFFECT_APPLIED) then Some (a, o) else None
  | None => None
  end.
Definition attempt_binds_outcome (r : CoordinationJournalRecord) (a : CoordinationAttempt) (o : SignedEffectOutcome) :
    result bool :=
  match a with
  | Prepare _ => Ok false
  | Commit c => all_true [
      commit_verify (tc_request c) None; outcome_verify o None; Ok (bool_decide (oc_kind o = KIND_COMMIT));
      digest_is (oc_request_sha256 o) (tc_request c);
      Ok (bool_decide (oc_effect o = attempt_effect a) && bool_decide (attempt_effect a = jr_effect r));
      Ok (bool_decide (tc_acceptance c = oc_acceptance o)
          && bool_decide (oc_receipt o = Some (cm_receipt (tc_request c))))]
  | Query q => all_true [
      query_verify (tq_request q) None; outcome_verify o None; Ok (bool_decide (oc_kind o = KIND_QUERY));
      digest_is (oc_request_sha256 o) (tq_request q);
      Ok (bool_decide (oc_effect o = attempt_effect a) && bool_decide (attempt_effect a = jr_effect r))]
  end.
Definition applied_evidence_valid (l : AppliedLink) : result bool :=
  let r := al_record l in
  let o := al_outcome l in
  match oc_acceptance o with
  | None => Ok false
  | Some a =>
      let commit := ac_request a in
      let receipt := cm_receipt commit in
      let prepare := re_prepare receipt in
      let e := rv_effect (cm_envelope commit) in
      _ ← credential_public_key (credential (ac_coordinator a));
      let terminal_attempts := omap applied_attempt (jr_attempts r) in
      if negb (existsb (λ ao, bool_decide (ao.2 = o)) terminal_attempts) then Ok false else
      all_true ([
        Ok (bool_decide (jr_effect r = oc_effect o) && bool_decide (oc_effect o = ac_effect a)
            && bool_decide (ac_effect a = e));
        Ok (bool_decide (e = re_effect receipt) && bool_decide (re_effect receipt = rv_effect (pr_envelope prepare)));
        (d ← digest_of o; Ok (bool_decide (Some d = latest_evidence r)));
        Ok (bool_decide (latest_acceptance r = Some a))]
        ++ flat_map (λ ao, [
             attempt_binds_outcome r ao.1 ao.2;
             Ok (bool_decide (oc_acceptance ao.2 = Some a)
                 && bool_decide (oc_acknowledgment ao.2 = Some (al_acknowledgment l)))]) terminal_attempts
        ++ [prepare_verify prepare None; receipt_verify receipt None; commit_verify commit None;
            acceptance_verify a None; outcome_verify o None; acknowledgment_for a (al_acknowledgment l)])
  end.

(** *** [validate_coordination_recovery] *)
Fixpoint records_reload (rs : list CoordinationJournalRecord) : result unit :=
  match rs with [] => Ok tt | r :: rs => _ ← record_of_json (model_dump r); records_reload rs end.
Definition records_readable (rs : list CoordinationJournalRecord) : result bool :=
  match records_reload rs with
  | Ok _ => Ok true
  | Raise e => if existsb (isinstance_exn e) ["AttributeError"; "TypeError"; "ValueError"] then Ok false else Raise e
  end.
Definition evidence_valid (applied : list AppliedLink) : result bool :=
  match all_true (applied_evidence_valid <$> applied) with
  | Ok b => Ok b
  | Raise e => if caught e then Ok false else Raise e
  end.
Definition pending_continues (applied : list AppliedLink) (e : EffectIdentity) : bool :=
  match last applied with
  | Some l => (authorized_state_version e =? post_version l)%Z && bool_decide (authorized_state_sha256 e = post_digest l)
  | None => (authorized_state_version e =? 0)%Z
  end.
Definition models_match (p : PlantInfo) (applied : list AppliedLink) (pending : option CoordinationJournalRecord) : bool :=
  forallb (λ m, bool_decide (m = pl_model_digest p))
    (((λ l, authorized_model_sha256 (jr_effect (al_record l))) <$> applied)
     ++ option_list ((λ r, authorized_model_sha256 (jr_effect r)) <$> pending)).
(** The end of the check: where the plant is. *)
Definition plant_alignment (p : PlantInfo) (applied : list AppliedLink) (pending : option CoordinationJournalRecord) :
    CoordinationRecoveryStatus * CoordinationRecoveryReason :=
  match pending, last applied with
  | Some r, _ =>
      let e := jr_effect r in
      let at_ v d := (pl_state_version p =? v)%Z && bool_decide (pl_state_digest p = d) in
      if at_ (authorized_state_version e) (authorized_state_sha256 e)
      then (RECOVERY_REQUIRED, PENDING_EFFECT_AT_PRE_STATE)
      else if at_ (ei_post_state_version e) (expected_post_state_sha256 e)
      then (RECOVERY_REQUIRED, PENDING_EFFECT_AT_POST_STATE)
      else if (pl_state_version p <? authorized_state_version e)%Z then (INCONSISTENT, PLANT_STATE_ROLLBACK)
      else if (ei_post_state_version e <? pl_state_version p)%Z then (INCONSISTENT, PLANT_STATE_ADVANCED)
      else (INCONSISTENT, PENDING_PLANT_STATE_MISMATCH)
  | None, None =>
      if negb (pl_state_version p =? 0)%Z then (INCONSISTENT, BASELINE_STATE_NOT_ZERO)
      else (ALIGNED, ALIGNED_EMPTY_BASELINE)
  | None, Some l =>
      if (pl_state_version p <? post_version l)%Z then (INCONSISTENT, PLANT_STATE_ROLLBACK)
      else if (post_version l <? pl_state_version p)%Z then (INCONSISTENT, PLANT_STATE_ADVANCED)
      else if negb (bool_decide (pl_state_digest p = post_digest l)) then (INCONSISTENT, PLANT_STATE_DIGEST_MISMATCH)
      else (ALIGNED, ALIGNED_APPLIED_CHAIN)
  end.
Definition validate_coordination_recovery (rs : list CoordinationJournalRecord) (p : PlantInfo) :
    result CoordinationRecoveryResult :=
  match bounded_records rs with
  | None => Ok (mk_CoordinationRecoveryResult UNAVAILABLE RECORD_LIMIT_EXCEEDED (MAX_RECOVERY_RECORDS + 1) 0 0
                  (pl_state_version p) (pl_state_digest p) None None None None None)
  | Some rs =>
  if negb (valid_plant_info p) then Ok (recovery_result UNAVAILABLE PLANT_INFO_INVALID rs p [] None) else
  let pending_records := filter (λ r, terminal (jr_state r) = false) rs in
  let pending := head pending_records in
  if (1 <? Z.of_nat (length pending_records))%Z
  then Ok (recovery_result UNAVAILABLE MULTIPLE_PENDING_EFFECTS rs p [] None) else
  if negb (bool_decide (NoDup ((λ r, effect_id (jr_effect r)) <$> rs)))
  then Ok (recovery_result UNAVAILABLE DUPLICATE_EFFECT_RECORD rs p [] None) else
  links ← applied_links rs [];
  match links with
  | inr (reason, links) => Ok (recovery_result UNAVAILABLE reason rs p links pending)
  | inl links =>
      let applied := merge_sort link_le links in
      if negb (chain_matches None applied)
      then Ok (recovery_result UNAVAILABLE APPLIED_CHAIN_BROKEN rs p applied pending) else
      readable ← records_readable rs;
      if negb readable then Ok (recovery_result UNAVAILABLE JOURNAL_RECORD_INVALID rs p applied pending) else
      evidence ← evidence_valid applied;
      if negb evidence then Ok (recovery_result UNAVAILABLE APPLIED_EVIDENCE_INVALID rs p applied pending) else
      if negb (match pending with Some r => pending_continues applied (jr_effect r) | None => true end)
      then Ok (recovery_result UNAVAILABLE PENDING_CHAIN_BROKEN rs p applied pending) else
      if negb (models_match p applied pending)
      then Ok (recovery_result INCONSISTENT PLANT_MODEL_MISMATCH rs p applied pending) else
      let '(status, reason) := plant_alignment p applied pending in
      Ok (recovery_result status reason rs p applied pending)
  end
  end.

(** ** What an aligned journal says *)
Lemma applied_links_Ok rs links links' :
  applied_links rs links = Ok (inl links') →
  ∃ ls, links' = links ++ ls ∧ al_record <$> ls = filter (λ r, jr_state r = STATE_APPLIED) rs
    ∧ Forall (λ l, applied_link (al_record l) = Ok (inl l)) ls.
Proof using Type.
  revert links. induction rs as [|r rs IH]; intros links; cbn [applied_links].
  { intros [= <-]. exists []. by rewrite app_nil_r. }
  rewrite filter_cons. case_bool_decide as Hs.
  - rewrite decide_True by done. destruct (applied_link r) as [[l|reason]|e] eqn:El; [|discriminate|by destruct (caught e)].
    intros (ls & -> & Hl & Hf)%IH. exists (l :: ls). rewrite <- app_assoc. split; [done|].
    assert (Er : al_record l = r).
    { unfold applied_link in El. apply result_bind_Ok in El as (t & _ & El). repeat case_match; by simplify_eq. }
    split; [cbn [fmap list_fmap]; by rewrite Hl, Er|]. constructor; [by rewrite Er|done].
  - rewrite decide_False by done. apply IH.
Qed.
Lemma chain_matches_steps prior l :
  chain_matches prior l = true →
  (∀ i x y, l !! i = Some x → l !! S i = Some y → pre_version y = post_version x ∧ pre_digest y = post_digest x)
  ∧ (prior = None → ∀ x, head l = Some x → pre_version x = 0%Z).
Proof using Type.
  revert prior. induction l as [|x l IH]; intros prior; cbn [chain_matches]; [by split|]. intros [Hx Hl]%andb_prop.
  split; [|intros -> y [= <-]; by apply Z.eqb_eq in Hx].
  intros [|i] a b Ha Hb; [|by apply (proj1 (IH _ Hl) i)]. injection Ha as <-.
  destruct l as [|y l]; [discriminate Hb|]. injection Hb as <-. cbn [chain_matches] in Hl.
  apply andb_prop in Hl as [[Hv%Z.eqb_eq Hd%bool_decide_eq_true]%andb_prop _]. done.
Qed.
(** The plant's version and digest where a chain of applied effects ends. *)
Definition chain_ends (p : PlantInfo) (chain : list AppliedLink) : Prop :=
  match last chain with
  | None => pl_state_version p = 0%Z
  | Some l => pl_state_version p = post_version l ∧ pl_state_digest p = post_digest l
  end.
Lemma plant_alignment_aligned p chain pending reason :
  plant_alignment p chain pending = (ALIGNED, reason) → pending = None ∧ chain_ends p chain.
Proof using Type.
  unfold plant_alignment, chain_ends. destruct pending as [r|]; [cbv zeta; by repeat case_match|].
  destruct (last chain) as [l|].
  - destruct (_ <? _)%Z eqn:A; [discriminate|]. destruct (post_version l <? _)%Z eqn:B; [discriminate|].
    destruct (bool_decide _) eqn:C; [|discriminate]. apply bool_decide_eq_true in C. intros _. split; [done|].
    split; [lia|done].
  - destruct (Z.eqb_spec (pl_state_version p) 0); [done|discriminate].
Qed.
Lemma evidence_valid_true l : evidence_valid l = Ok true → Forall (λ x, applied_evidence_valid x = Ok true) l.
Proof using Type.
  unfold evidence_valid. destruct (all_true _) as [b|e] eqn:E; [|by destruct (caught e)]. intros [= ->].
  apply all_true_Forall in E. by apply Forall_fmap in E.
Qed.
(** A journal aligned with the plant: nothing is pending, and the applied effects,
    in some order, are a chain of states from version 0 to the plant's state, each
    with valid evidence and of the plant's model. *)
Record Aligned (rs : list CoordinationJournalRecord) (p : PlantInfo) (chain : list AppliedLink) : Prop := {
  an_settled : Forall (λ r, terminal (jr_state r) = true) rs;
  an_records : al_record <$> chain ≡ₚ filter (λ r, jr_state r = STATE_APPLIED) rs;
  an_starts x : head chain = Some x → pre_version x = 0%Z;
  an_steps i x y : chain !! i = Some x → chain !! S i = Some y →
    pre_version y = post_version x ∧ pre_digest y = post_digest x;
  an_ends : chain_ends p chain;
  an_evidence : Forall (λ l, applied_evidence_valid l = Ok true) chain;
  an_acknowledged : Forall (λ l, applied_link (al_record l) = Ok (inl l)) chain;
  an_model : Forall (λ l, authorized_model_sha256 (jr_effect (al_record l)) = pl_model_digest p) chain;
}.
(** C27 When the check says ALIGNED, no retained effect is pending and the applied
    effects form one chain of plant states, each with its device acknowledgment and
    signed evidence, that starts at version 0 and ends in the plant's state. *)
Theorem aligned_is_chain rs p r :
  validate_coordination_recovery rs p = Ok r → rr_status r = ALIGNED → ∃ chain, Aligned rs p chain.
Proof using Type.
  unfold validate_coordination_recovery, bounded_records. intros H Hs.
  destruct (_ <=? _)%Z; [|by injection H as <-]. destruct (negb (valid_plant_info p)); [by injection H as <-|].
  cbv zeta in H. destruct (1 <? _)%Z; [by injection H as <-|]. destruct (negb _); [by injection H as <-|].
  apply result_bind_Ok in H as ([links|[reason l]] & Hl & H); [|by injection H as <-].
  apply applied_links_Ok in Hl as (ls & E & Hrec & Hlinks). cbn [app] in E. subst links. cbv zeta in H.
  destruct (chain_matches _ _) eqn:Hc; [|by injection H as <-]. cbn [negb] in H.
  apply result_bind_Ok in H as ([] & _ & H); [|by injection H as <-]. cbn [negb] in H.
  apply result_bind_Ok in H as ([] & He & H); [|by injection H as <-]. cbn [negb] in H.
  destruct (negb _); [by injection H as <-|]. destruct (models_match _ _ _) eqn:Hm; [|by injection H as <-]. cbn [negb] in H.
  destruct (plant_alignment _ _ _) as [st rea] eqn:Hp. injection H as <-. cbn [rr_status recovery_result] in Hs. subst st.
  apply plant_alignment_aligned in Hp as [Hpend Hend]. apply chain_matches_steps in Hc as [Hsteps Hstart].
  pose proof (merge_sort_Permutation link_le ls) as P. exists (merge_sort link_le ls). split; try done.
  - apply Forall_forall. intros x Hx. destruct (terminal (jr_state x)) eqn:Ht; [done|].
    assert (Hin : x ∈ filter (λ r, terminal (jr_state r) = false) rs) by by apply list_elem_of_filter.
    apply head_None in Hpend. rewrite Hpend in Hin. by apply not_elem_of_nil in Hin.
  - rewrite <- Hrec. by apply fmap_Permutation.
  - by apply Hstart.
  - by apply evidence_valid_true.
  - by rewrite P.
  - unfold models_match in Hm. apply Forall_forall. intros l Hin. rewrite forallb_forall in Hm.
    specialize (Hm (authorized_model_sha256 (jr_effect (al_record l)))). apply bool_decide_eq_true in Hm; [done|].
    apply list_elem_of_In, elem_of_app. left. apply list_elem_of_fmap. by exists l.
Qed.
End recovery.
