(* ===== verification/CoordinationOps.v ===== *)
(** * The operations of the coordination journals ([src/src/aegis_ot/coordination_journal.py])

    Each operation reads the retained record, builds the next one and stores it
    before anything is returned.  Issuers of receipts, acceptances and outcomes
    are the caller's functions. *)
From S2P Require Import Prelude PyFloat PyStr PyTime PyJson Sha256 Crypto Models PhysicalModels CapabilityModels.
From S2P Require Import DurableReplay Workload WorkloadVerifier CoordinationModels CoordinationMessages.
From S2P Require Import CoordinationRecord CoordinationJournal.

Inductive CommitAdmissionStatus := NEW | TERMINAL | INDETERMINATE.
#[export] Instance CommitAdmissionStatus_eq_dec : EqDecision CommitAdmissionStatus.
Proof. solve_decision. Defined.
Record CommitAdmission := mk_CommitAdmission {
  ca_status : CommitAdmissionStatus;
  ca_request : SignedEffectCommitRequest;
  ca_record : CoordinationJournalRecord;
  ca_acceptance : DurableCommitAcceptance;
  ca_retained_outcome : option SignedEffectOutcome;
}.

Section operations.
Context {ED : Ed25519} {ER : Ed25519Raw} {MD : MessageDumps} {FS : FsEnv}
  {DJ : ModelDump CoordinationJournalRecord} {LJ : ModelLoad CoordinationJournalRecord}.
Variable jc : JournalConfig.
Variable pid : Z.
Abbreviation JournalM := (M JournalState).

(** The retained records, under the mutex of a usable writer. *)
Definition current_records : JournalM Records := _ ← assert_writer pid; s ← get; mret (jn_records s.1).
Definition store (r : CoordinationJournalRecord) : JournalM CoordinationJournalRecord := store_record jc pid r.

(** [CommitAdmission]'s construction check. *)
Definition CommitAdmission_validate (a : CommitAdmission) : result CommitAdmission :=
  d ← digest_of (ca_request a);
  attempt ← match commit_attempt (ca_record a) d with
            | Some c => Ok c | None => raise_ "ValidationError" "commit admission lacks its retained intent" end;
  _ ← closed (bool_decide (tc_acceptance attempt = Some (ca_acceptance a)))
      "commit admission does not expose its retained acceptance";
  _ ← match ca_status a with
      | NEW => closed (bool_decide (at_status (tc_base attempt) = REQUEST_RETAINED)
                       && bool_decide (jr_state (ca_record a) = COMMIT_ACCEPTED)
                       && bool_decide (ca_retained_outcome a = None)) "new commit admission is inconsistent"
      | TERMINAL => closed (bool_decide (is_Some (ca_retained_outcome a))
                            && bool_decide (terminal_outcome (ca_record a) = ca_retained_outcome a)
                            && terminal (jr_state (ca_record a))) "terminal commit admission is inconsistent"
      | INDETERMINATE => closed (bool_decide (ca_retained_outcome a = None)
                                 && bool_decide (jr_state (ca_record a) ∈ [COMMIT_ACCEPTED; STATE_UNKNOWN_EFFECT]))
                           "indeterminate commit admission is inconsistent"
      end;
  Ok a.

(** ** Commit intents *)
(** The updated record of a new commit intent. *)
Definition commit_intent (r : CoordinationJournalRecord) (q : SignedEffectCommitRequest) (digest : string)
    (issue_acceptance : option (SignedEffectCommitRequest → datetime → result DurableCommitAcceptance))
    (recorded : option datetime) (now : datetime) : result CoordinationJournalRecord :=
  _ ← no_collision (negb (has_commit r)) "coordination effect already retains a different commit request";
  _ ← legal (negb (terminal (jr_state r))) "terminal coordination state is immutable";
  _ ← legal (bool_decide (jr_state r = DISPATCH_ARMED)) "commit intent requires a durably prepared effect";
  _ ← no_collision (retains_receipt r (cm_receipt q)) "commit request receipt was not retained by this journal";
  _ ← require_attempt_capacity r;
  at_ ← when_ recorded now;
  acceptance ← match issue_acceptance with
               | Some issue => x ← issue q at_; _ ← validate_acceptance q x (Some at_); Ok (Some x)
               | None => Ok None
               end;
  a ← EffectCommitAttempt_validate
        (mk_EffectCommitAttempt (next_base r digest REQUEST_RETAINED at_) q acceptance None None None);
  let updated := add_attempt r (Commit a) in
  match acceptance with
  | Some x => xd ← digest_of x;
              transition updated COMMIT_ACCEPTED (Some xd) "signed_commit_acceptance_durably_retained" at_
  | None => Ok updated
  end.
Definition begin_commit_record (q : SignedEffectCommitRequest)
    (issue_acceptance : option (SignedEffectCommitRequest → datetime → result DurableCommitAcceptance))
    (recorded : option datetime) (now : datetime) : JournalM (CoordinationJournalRecord * bool) :=
  rs ← current_records;
  r ← lift (find_effect rs (rv_effect (cm_envelope q)) "cannot commit an unprepared effect");
  d ← lift (digest_of q);
  match commit_attempt r d with
  | Some _ => mret (r, false)
  | None =>
      updated ← lift (commit_intent r q d issue_acceptance recorded now);
      stored ← store updated;
      mret (stored, true)
  end.

(** ** Outcomes *)
Definition acceptance_transition (r : CoordinationJournalRecord) (x : DurableCommitAcceptance) (at_ : datetime) :
    result CoordinationJournalRecord :=
  if bool_decide (jr_state r = DISPATCH_ARMED) then
    d ← digest_of x;
    transition r COMMIT_ACCEPTED (Some d) "signed_commit_acceptance_durably_retained" at_
  else
    _ ← legal (post_commit (jr_state r)) "durable commit acceptance cannot bind from this state"; Ok r.
Definition bind_outcome_acceptance (r : CoordinationJournalRecord) (o : SignedEffectOutcome) (at_ : datetime) :
    result CoordinationJournalRecord :=
  if bool_decide (oc_disposition o = EFFECT_NOT_DISPATCHED) then
    _ ← no_collision (bool_decide (oc_acceptance o = None) && bool_decide (latest_acceptance r = None))
        "not-dispatched outcome conflicts with durable commit acceptance";
    Ok r
  else
    match oc_acceptance o with
    | None => collision "dispatched outcome lacks durable commit acceptance"
    | Some x =>
        d ← digest_of (ac_request x);
        match commit_attempt r d with
        | None => collision "outcome acceptance was not retained with an exact commit intent"
        | Some c =>
            _ ← validate_acceptance (tc_request c) x None;
            _ ← no_collision (negb (dt_ltb at_ (accepted_at x))) "outcome retention predates durable commit acceptance";
            _ ← no_collision (bool_decide (tc_acceptance c = None) || bool_decide (tc_acceptance c = Some x))
                "commit attempt already retains a different durable acceptance";
            let r := match tc_acceptance c with
                     | Some _ => r
                     | None => replace_attempt r (Commit (mk_EffectCommitAttempt
                                 (with_status (tc_base c) (at_status (tc_base c)) at_) (tc_request c) (Some x)
                                 (tc_outcome c) (tc_failure_reason c) (tc_failure_evidence c)))
                     end in
            acceptance_transition r x at_
        end
    end.
(** The transition to an outcome's state, unless the record has it. *)
Definition outcome_transition (r : CoordinationJournalRecord) (target : CoordinationState) (o : SignedEffectOutcome)
    (reason : string) (at_ : datetime) : result CoordinationJournalRecord :=
  if bool_decide (jr_state r = target) then Ok r
  else d ← digest_of o; transition r target (Some d) reason at_.

Definition mark_commit_unknown_record (q : SignedEffectCommitRequest) (reason : string) (evidence : option string)
    (recorded : option datetime) (now : datetime) : JournalM CoordinationJournalRecord :=
  rs ← current_records;
  r ← lift (find_effect rs (rv_effect (cm_envelope q)) "cannot update an unknown effect");
  d ← lift (digest_of q);
  match commit_attempt r d with
  | None => lift (illegal "commit intent was not retained")
  | Some c =>
      _ ← lift (legal (negb (terminal (jr_state r))) "terminal coordination state is immutable");
      _ ← lift (no_collision (negb (bool_decide (at_status (tc_base c) = RESPONSE_RETAINED)))
                  "commit already retains a signed outcome");
      if bool_decide (at_status (tc_base c) = OUTCOME_UNKNOWN) then
        _ ← lift (no_collision (bool_decide (tc_failure_reason c = Some reason)
                                && bool_decide (tc_failure_evidence c = evidence))
                    "commit attempt already retains different failure evidence");
        mret r
      else
        updated ← lift (
          at_ ← when_ recorded now;
          a ← EffectCommitAttempt_validate (mk_EffectCommitAttempt (with_status (tc_base c) OUTCOME_UNKNOWN at_)
                (tc_request c) (tc_acceptance c) None (Some reason) evidence);
          let updated := replace_attempt r (Commit a) in
          if bool_decide (jr_state updated = COMMIT_ACCEPTED)
          then transition updated STATE_UNKNOWN_EFFECT (Some (default d evidence)) reason at_
          else _ ← legal (bool_decide (jr_state updated ∈ [DISPATCH_ARMED; STATE_UNKNOWN_EFFECT]))
                   "commit cannot become unknown from this state"; Ok updated);
        store updated
  end.

Definition finish_commit_record (q : SignedEffectCommitRequest) (o : SignedEffectOutcome)
    (recorded : option datetime) (now : datetime) : JournalM CoordinationJournalRecord :=
  rs ← current_records;
  _ ← lift (validate_outcome (CommitRequest q) o);
  r ← lift (find_effect rs (rv_effect (cm_envelope q)) "cannot update an unknown effect");
  d ← lift (digest_of q);
  match commit_attempt r d with
  | None => lift (illegal "commit intent was not retained")
  | Some c =>
      let target := state_for_outcome o in
      if bool_decide (at_status (tc_base c) = RESPONSE_RETAINED) then
        _ ← lift (no_collision (bool_decide (tc_outcome c = Some o) && bool_decide (jr_state r = target))
                    "commit already retains a different outcome");
        mret r
      else
        updated ← lift (
          _ ← legal (negb (terminal (jr_state r))) "terminal coordination state is immutable";
          at_ ← when_ recorded now;
          r ← bind_outcome_acceptance r o at_;
          b ← match commit_attempt r d with
              | Some b => _ ← ensure (bool_decide (is_Some (tc_acceptance b)))
                              "commit outcome lost its durable acceptance binding"; Ok b
              | None => journal_error "commit outcome lost its durable acceptance binding"
              end;
          a ← EffectCommitAttempt_validate (mk_EffectCommitAttempt (with_status (tc_base b) RESPONSE_RETAINED at_)
                (tc_request b) (tc_acceptance b) (Some o) None None);
          outcome_transition (replace_attempt r (Commit a)) target o "signed_commit_outcome_retained" at_);
        store updated
  end.

(** ** Queries *)
Definition query_intent (r : CoordinationJournalRecord) (q : SignedEffectQueryRequest) (digest : string)
    (recorded : option datetime) (now : datetime) (allow_terminal : bool) :
    result (CoordinationJournalRecord * EffectQueryAttempt) :=
  let t := terminal (jr_state r) in
  let ambiguous := bool_decide (jc_role jc = ROLE_GATEWAY)
    && existsb (λ a, match a with Commit c => bool_decide (at_status (tc_base c) = OUTCOME_UNKNOWN) | _ => false end)
         (jr_attempts r) in
  _ ← legal (negb (t && negb allow_terminal)) "terminal coordination state is immutable";
  _ ← legal (negb (negb t && bool_decide (jr_state r = DISPATCH_ARMED)
                   && negb (bool_decide (jc_role jc = ROLE_EFFECT_COORDINATOR) || ambiguous)))
      "gateway reconciliation requires an ambiguous commit attempt";
  _ ← legal (t || bool_decide (jr_state r ∈ [DISPATCH_ARMED; COMMIT_ACCEPTED; STATE_UNKNOWN_EFFECT]))
      "reconciliation query requires a prepared or accepted effect";
  _ ← require_attempt_capacity r;
  at_ ← when_ recorded now;
  a ← EffectQueryAttempt_validate (mk_EffectQueryAttempt (next_base r digest REQUEST_RETAINED at_) q None None None);
  Ok (add_attempt r (Query a), a).
Definition begin_query_record (q : SignedEffectQueryRequest) (recorded : option datetime) (now : datetime)
    (allow_terminal : bool) : JournalM (CoordinationJournalRecord * EffectQueryAttempt) :=
  rs ← current_records;
  r ← lift (find_effect rs (rv_effect (qr_envelope q)) "cannot query an unrecorded effect");
  d ← lift (digest_of q);
  match query_attempt r d with
  | Some a => mret (r, a)
  | None =>
      ra ← lift (query_intent r q d recorded now allow_terminal);
      stored ← store ra.1;
      mret (stored, ra.2)
  end.
(** The record after a query's answer. *)
Definition answered_query (r : CoordinationJournalRecord) (a : EffectQueryAttempt) (o : SignedEffectOutcome)
    (at_ : datetime) : result CoordinationJournalRecord :=
  let target := state_for_outcome o in
  _ ← legal (negb (terminal (jr_state r) && negb (bool_decide (target = jr_state r))))
      "terminal coordination state is immutable";
  r ← bind_outcome_acceptance r o at_;
  _ ← legal (negb (bool_decide (target = STATE_NOT_DISPATCHED)
                   && negb (bool_decide (jr_state r ∈ [DISPATCH_ARMED; STATE_NOT_DISPATCHED]))))
      "not-dispatched query outcome requires an uncommitted prepared effect";
  a ← EffectQueryAttempt_validate (mk_EffectQueryAttempt (with_status (tq_base a) RESPONSE_RETAINED at_)
        (tq_request a) (Some o) None None);
  let updated := replace_attempt r (Query a) in
  if terminal (jr_state updated) then Ok updated
  else outcome_transition updated target o "signed_query_outcome_retained" at_.
Definition complete_query_record (q : SignedEffectQueryRequest) (o : SignedEffectOutcome)
    (recorded : option datetime) (now : datetime) (create : bool) : JournalM CoordinationJournalRecord :=
  rs ← current_records;
  _ ← lift (validate_outcome (QueryRequest q) o);
  r ← lift (find_effect rs (rv_effect (qr_envelope q)) "cannot update an unrecorded effect");
  _ ← lift (no_collision (match oc_receipt o with Some c => retains_receipt r c | None => true end)
              "query outcome receipt was not retained by this journal");
  at_ ← lift (when_ recorded now);
  d ← lift (digest_of q);
  ra ← match query_attempt r d with
       | Some a => mret (r, a)
       | None => if create then begin_query_record q (Some at_) now true
                 else lift (illegal "query intent was not retained")
       end;
  let '(r, a) := ra in
  match at_status (tq_base a) with
  | RESPONSE_RETAINED =>
      _ ← lift (no_collision (bool_decide (tq_outcome a = Some o)) "query already retains a different outcome");
      mret r
  | OUTCOME_UNKNOWN => lift (collision "query failure is immutable; issue a new reconciliation query")
  | REQUEST_RETAINED => updated ← lift (answered_query r a o at_); store updated
  end.
Definition fail_query_record (q : SignedEffectQueryRequest) (reason : string) (evidence : option string)
    (recorded : option datetime) (now : datetime) : JournalM CoordinationJournalRecord :=
  rs ← current_records;
  r ← lift (find_effect rs (rv_effect (qr_envelope q)) "cannot update an unrecorded effect");
  d ← lift (digest_of q);
  match query_attempt r d with
  | None => lift (illegal "query intent was not retained")
  | Some a =>
      _ ← lift (legal (negb (terminal (jr_state r))) "terminal coordination state is immutable");
      _ ← lift (no_collision (negb (bool_decide (at_status (tq_base a) = RESPONSE_RETAINED)))
                  "query already retains a signed outcome");
      if bool_decide (at_status (tq_base a) = OUTCOME_UNKNOWN) then
        _ ← lift (no_collision (bool_decide (tq_failure_reason a = Some reason)
                                && bool_decide (tq_failure_evidence a = evidence))
                    "query attempt already retains different failure evidence");
        mret r
      else
        updated ← lift (
          at_ ← when_ recorded now;
          x ← EffectQueryAttempt_validate (mk_EffectQueryAttempt (with_status (tq_base a) OUTCOME_UNKNOWN at_)
                (tq_request a) None (Some reason) evidence);
          let updated := replace_attempt r (Query x) in
          if bool_decide (jr_state updated = COMMIT_ACCEPTED)
          then transition updated STATE_UNKNOWN_EFFECT (Some (default d evidence)) reason at_
          else _ ← legal (bool_decide (jr_state updated ∈ [DISPATCH_ARMED; STATE_UNKNOWN_EFFECT]))
                   "query cannot become unknown from this state"; Ok updated);
        store updated
  end.

(** ** Preparation *)
Definition received (q : SignedEffectPrepareRequest) (digest : string) (at_ : datetime) : CoordinationTransition :=
  mk_CoordinationTransition 1 RECEIVED None (Some digest) "prepare_request_durably_retained" at_.
(** A record of one prepare attempt, through its constructors. *)
Definition first_record (q : SignedEffectPrepareRequest) (digest : string) (ts : list CoordinationTransition)
    (status : CoordinationAttemptStatus) (receipt : option CoordinationReceipt) (at_ : datetime) :
    result CoordinationJournalRecord :=
  let e := rv_effect (pr_envelope q) in
  a ← EffectPrepareAttempt_validate (mk_EffectPrepareAttempt (mk_AttemptBase 1 digest status at_ at_) q receipt);
  ed ← digest_of e;
  ts ← result_mapM CoordinationTransition_validate ts;
  CoordinationJournalRecord_validate (mk_CoordinationJournalRecord e ed ts [Prepare a]).

(** [DurableGatewayCoordinationJournal.begin] *)
Definition gateway_begin (q : SignedEffectPrepareRequest) (recorded : option datetime) (now : datetime) :
    JournalM CoordinationJournalRecord :=
  rs ← current_records;
  known ← lift (lookup_effect rs (rv_effect (pr_envelope q)));
  d ← lift (digest_of q);
  match known with
  | Some r =>
      match prepare_attempt r d with
      | Some _ => mret r
      | None =>
          updated ← lift (
            _ ← legal (negb (terminal (jr_state r))) "terminal coordination state is immutable";
            _ ← require_attempt_capacity r;
            at_ ← when_ recorded now;
            a ← EffectPrepareAttempt_validate (mk_EffectPrepareAttempt (next_base r d REQUEST_RETAINED at_) q None);
            Ok (add_attempt r (Prepare a)));
          store updated
      end
  | None =>
      r ← lift (
        _ ← ensure (Z.of_nat (size rs) <? MAX_ENTRIES)%Z "coordination journal is at capacity";
        at_ ← when_ recorded now;
        first_record q d [received q d at_] REQUEST_RETAINED None at_);
      store r
  end.

(** A retained receipt arms the effect. *)
Definition arm (r : CoordinationJournalRecord) (c : CoordinationReceipt) (at_ : datetime) :
    result CoordinationJournalRecord :=
  if bool_decide (jr_state r = RECEIVED)
  then d ← digest_of c; transition r DISPATCH_ARMED (Some d) "signed_prepare_receipt_durably_retained" at_
  else Ok r.
Definition retain_preparation (q : SignedEffectPrepareRequest) (c : CoordinationReceipt)
    (recorded : option datetime) : JournalM CoordinationJournalRecord :=
  rs ← current_records;
  _ ← lift (validate_receipt q c);
  r ← lift (find_effect rs (rv_effect (pr_envelope q)) "prepare intent was not retained");
  d ← lift (digest_of q);
  match prepare_attempt r d with
  | None => lift (illegal "prepare intent was not retained")
  | Some a =>
      match tp_receipt a with
      | Some c' => _ ← lift (no_collision (bool_decide (c' = c)) "prepare attempt already retains a different receipt");
                   mret r
      | None =>
          updated ← lift (
            _ ← legal (negb (terminal (jr_state r))) "terminal coordination state is immutable";
            at_ ← when_ (Some (default (prepared_at c) recorded)) (prepared_at c);
            x ← EffectPrepareAttempt_validate
                  (mk_EffectPrepareAttempt (with_status (tp_base a) RESPONSE_RETAINED at_) (tp_request a) (Some c));
            arm (replace_attempt r (Prepare x)) c at_);
          store updated
      end
  end.

(** [DurableEffectCoordinationJournal.prepare_effect] *)
Definition prepared_record (known : option CoordinationJournalRecord) (q : SignedEffectPrepareRequest) (d : string)
    (c : CoordinationReceipt) (at_ : datetime) : result CoordinationJournalRecord :=
  match known with
  | None =>
      cd ← digest_of c;
      first_record q d [received q d at_;
        mk_CoordinationTransition 2 DISPATCH_ARMED None (Some cd) "signed_prepare_receipt_durably_retained" at_]
        RESPONSE_RETAINED (Some c) at_
  | Some r =>
      match prepare_attempt r d with
      | Some a =>
          x ← EffectPrepareAttempt_validate
                (mk_EffectPrepareAttempt (with_status (tp_base a) RESPONSE_RETAINED at_) (tp_request a) (Some c));
          arm (replace_attempt r (Prepare x)) c at_
      | None =>
          x ← EffectPrepareAttempt_validate
                (mk_EffectPrepareAttempt (next_base r d RESPONSE_RETAINED at_) q (Some c));
          Ok (add_attempt r (Prepare x))
      end
  end.
Definition prepare_effect (q : SignedEffectPrepareRequest)
    (issue_receipt : SignedEffectPrepareRequest → datetime → result CoordinationReceipt)
    (recorded : option datetime) (now : datetime) : JournalM CoordinationReceipt :=
  rs ← current_records;
  known ← lift (lookup_effect rs (rv_effect (pr_envelope q)));
  d ← lift (digest_of q);
  let retained := match known with Some r => option_bind _ _ tp_receipt (prepare_attempt r d) | None => None end in
  match retained with
  | Some c => mret c
  | None =>
      _ ← lift match known with
               | Some r => _ ← legal (negb (terminal (jr_state r))) "terminal coordination state is immutable";
                           require_attempt_capacity r
               | None => ensure (Z.of_nat (size rs) <? MAX_ENTRIES)%Z "coordination journal is at capacity"
               end;
      at_ ← lift (when_ recorded now);
      c ← lift (issue_receipt q at_);
      _ ← lift (validate_receipt q c);
      r ← lift (prepared_record known q d c at_);
      _ ← store r;
      mret c
  end.

(** ** Coordinator commits, closing and answering *)
Definition begin_commit (q : SignedEffectCommitRequest)
    (issue_acceptance : SignedEffectCommitRequest → datetime → result DurableCommitAcceptance)
    (recorded : option datetime) (now : datetime) : JournalM CommitAdmission :=
  rc ← begin_commit_record q (Some issue_acceptance) recorded now;
  let '(r, created) := rc in
  x ← match latest_acceptance r with
      | Some x => mret x
      | None => throw "CoordinationJournalError" "effect-coordinator commit admission lacks durable acceptance"
      end;
  let o := terminal_outcome r in
  lift (CommitAdmission_validate (mk_CommitAdmission
    (if (created : bool) then NEW else match o with Some _ => TERMINAL | None => INDETERMINATE end) q r x o)).
(** [DurableGatewayCoordinationJournal.begin_commit] *)
Definition gateway_begin_commit (q : SignedEffectCommitRequest) (recorded : option datetime) (now : datetime) :
    JournalM CoordinationJournalRecord :=
  rc ← begin_commit_record q None recorded now; mret rc.1.
Definition gateway_begin_query (q : SignedEffectQueryRequest) (recorded : option datetime) (now : datetime) :
    JournalM CoordinationJournalRecord :=
  ra ← begin_query_record q recorded now false; mret ra.1.
Definition close_not_dispatched (e : EffectIdentity) (reason : string) (evidence : option string)
    (recorded : option datetime) (now : datetime) : JournalM CoordinationJournalRecord :=
  rs ← current_records;
  r ← lift (find_effect rs e "cannot close an unrecorded effect as not dispatched");
  if terminal (jr_state r) then
    _ ← lift (legal (match last (jr_transitions r) with
                     | Some t => bool_decide (tr_state t = STATE_NOT_DISPATCHED) && eq_s (tr_reason t) reason
                                 && bool_decide (tr_evidence_sha256 t = evidence)
                     | None => false end) "terminal coordination state is immutable");
    mret r
  else
    updated ← lift (at_ ← when_ recorded now; transition r STATE_NOT_DISPATCHED evidence reason at_);
    store updated.
(** The method over a state in which the journal lies, for an issuer that needs
    more of that state. *)
Definition answer_query_in {S} (on : ∀ A, JournalM A → M S A) (q : SignedEffectQueryRequest)
    (issue_outcome : SignedEffectQueryRequest → CoordinationJournalRecord → datetime → M S SignedEffectOutcome)
    (recorded : option datetime) (now : datetime) : M S SignedEffectOutcome :=
  rs ← on _ current_records;
  r ← lift (find_effect rs (rv_effect (qr_envelope q)) "cannot answer an unrecorded effect");
  d ← lift (digest_of q);
  match option_bind _ _ tq_outcome (query_attempt r d) with
  | Some o => mret o
  | None =>
      at_ ← lift (when_ recorded now);
      o ← issue_outcome q r at_;
      _ ← on _ (complete_query_record q o (Some at_) now true);
      mret o
  end.
Definition answer_query (q : SignedEffectQueryRequest)
    (issue_outcome : SignedEffectQueryRequest → CoordinationJournalRecord → datetime → result SignedEffectOutcome)
    (recorded : option datetime) (now : datetime) : JournalM SignedEffectOutcome :=
  answer_query_in (λ _ m, m) q (λ q r at_, lift (issue_outcome q r at_)) recorded now.

(** ** The remaining public methods *)
Definition mark_commit_unknown := mark_commit_unknown_record.
Definition retain_commit_outcome := finish_commit_record.
Definition finish_commit := finish_commit_record.
Definition complete_query (q : SignedEffectQueryRequest) (o : SignedEffectOutcome) (recorded : option datetime)
    (now : datetime) : JournalM CoordinationJournalRecord := complete_query_record q o recorded now false.
Definition retain_query_outcome (q : SignedEffectQueryRequest) (o : SignedEffectOutcome) (recorded : option datetime)
    (now : datetime) : JournalM CoordinationJournalRecord := complete_query_record q o recorded now true.
Definition fail_query := fail_query_record.
End operations.
