(* ===== verification/OtRuntime.v ===== *)
(** * The OT effect coordinator ([src/src/aegis_ot/segmented_capability_runtime.py])

    [CapabilityOtRuntime]'s prepare, commit and query of one physical effect: each
    authenticates the request with the workload verifier, checks the journal
    against the plant, and retains what it answers.  A commit calls the device only
    for an admission that the journal answered NEW.  The device, the plant's health
    and the anchor port are the environment's functions of the calls made so far. *)
From S2P Require Import Prelude PyStr PyTime PyJson Sha256 Crypto Models PhysicalModels CapabilityModels.
From S2P Require Import DurableReplay TrustState Workload WorkloadVerifier.
From S2P Require Import CoordinationModels CoordinationMessages CoordinationVerify CoordinationRecord CoordinationJournal.
From S2P Require Import CoordinationRecovery CoordinationOps.

(** ** Data *)
(** [PlantHealthMetadata]: the pinned identity and the current state. *)
Record PlantHealth := mk_PlantHealth {
  ph_boot_epoch : string;
  ph_key_id : string;
  ph_public_key_b64 : string;
  ph_backend : string;
  ph_simulator_version : string;
  ph_observation_source_id : string;
  ph_info : PlantInfo;
}.
Record LiveCommitMarker := mk_LiveCommitMarker {
  lm_effect_id : string;
  lm_prepare_sha256 : string;
  lm_receipt_sha256 : string;
  lm_boot_epoch : string;
}.
Inductive AnchorPhase := ANCHOR_PREPARE | ANCHOR_COMMIT.
(** A decision of the anchor port: its status is ADMISSION_READY; admission is allowed. *)
Record AnchorDecision := mk_AnchorDecision { admission_ready : bool; admission_allowed : bool }.

(** What a runtime is constructed with. *)
Record OtConfig `{Ed25519} := mk_OtConfig {
  ot_journal : JournalConfig;
  ot_observer_key : public_key;
  ot_observer_id : string;
  ot_observer_key_id : string;
  ot_observer_boot_epoch : string;
  ot_permit_key : public_key;
  ot_permit_key_id : string;
  ot_key : public_key;
  ot_key_id : string;
  ot_plc_id : string;
  ot_boot_epoch : string;
  ot_plant : PlantHealth;
  ot_local_signer : WorkloadSigner;
  ot_anchor_required : bool;
  ot_terminal_hook : option (result unit);
}.
(** [_EffectCoordinationContext] *)
Record EffectContext `{Ed25519} := mk_EffectContext {
  cx_gateway : ResolvedWorkloadIdentity;
  cx_local : ResolvedWorkloadIdentity;
  cx_signer : WorkloadSigner;
}.

Arguments mk_OtConfig {_}. Arguments mk_EffectContext {_}.

(** The runtime's own fields; counters number its readings of the environment. *)
Record OtLocal (V : Type) := mk_OtLocal {
  ol_trust : V;
  ol_clock : nat;
  ol_plant_reads : nat;
  ol_anchor_calls : nat;
  ol_recovery : option (CoordinationRecoveryResult * PlantHealth);
  ol_marker : option LiveCommitMarker;
  ol_hook_armed : bool;
  execute_requests : Z;
}.
Arguments mk_OtLocal {V}. Arguments ol_trust {V}. Arguments ol_clock {V}. Arguments ol_plant_reads {V}.
Arguments ol_anchor_calls {V}. Arguments ol_recovery {V}. Arguments ol_marker {V}. Arguments ol_hook_armed {V}.
Arguments execute_requests {V}.
(** A call's state: the runtime, its journal with the file, and what the device was
    asked to execute, oldest first. *)
Record OtState (V : Type) := mk_OtState {
  os_local : OtLocal V;
  os_journal : JournalState;
  os_calls : list SegmentedCapabilityDispatch;
}.
Arguments mk_OtState {V}. Arguments os_local {V}. Arguments os_journal {V}. Arguments os_calls {V}.

(** [gateway_workload_identity.resolve] and the local identity's [binding.resolve]. *)
Class CredentialBindings `{Ed25519} (V : Type) := {
  resolve_gateway : datetime → M V ResolvedWorkloadIdentity;
  resolve_local_binding : datetime → M V ResolvedWorkloadIdentity;
}.
(** The environment: the n-th clock reading, plant health and anchor decision, and
    what the device answers or raises to the last of the calls made so far. *)
Class OtEnvironment := {
  clock_reading : nat → datetime;
  plant_health : nat → result PlantHealth;
  anchor_admission : nat → AnchorPhase → string → string → datetime → result AnchorDecision;
  device_answer : list SegmentedCapabilityDispatch → result PlcCommandAcknowledgment;
}.

Section runtime.
Context {ED : Ed25519} {ER : Ed25519Raw} {MD : MessageDumps} {FS : FsEnv} {DRec : ModelDump WorkloadCredential}
  {DJ : ModelDump CoordinationJournalRecord} {LJ : ModelLoad CoordinationJournalRecord}.
Context {V : Type} {CV : CredentialVerifier V} {CB : CredentialBindings V} {OE : OtEnvironment}.
Variable cf : OtConfig.
Variable pid : Z.
Abbreviation OtM := (M (OtState V)).
Abbreviation jc := (ot_journal cf).

Definition rejected {A} (msg : string) : result A := raise_ "CapabilityAdmissionRejected" msg.
Definition unavailable {A} (msg : string) : result A := raise_ "CapabilityRuntimeUnavailable" msg.
Definition indeterminate {A} : result A :=
  raise_ "EffectCommitIndeterminate" "effect_commit_indeterminate_query_required".

(** *** Parts of the state *)
Definition set_local (l : OtLocal V) (s : OtState V) : OtState V := mk_OtState l (os_journal s) (os_calls s).
Definition modify_local (f : OtLocal V → OtLocal V) : OtM unit := modify (λ s, set_local (f (os_local s)) s).
Definition on_journal {A} (m : M JournalState A) : OtM A :=
  zoom os_journal (λ j s, mk_OtState (os_local s) j (os_calls s)) m.
Definition on_trust {A} (m : M V A) : OtM A :=
  zoom (λ s, ol_trust (os_local s))
    (λ v s, let l := os_local s in
       set_local (mk_OtLocal v (ol_clock l) (ol_plant_reads l) (ol_anchor_calls l) (ol_recovery l) (ol_marker l)
                    (ol_hook_armed l) (execute_requests l)) s) m.
Definition local : OtM (OtLocal V) := s ← get; mret (os_local s).
Definition set_marker (m : option LiveCommitMarker) : OtM unit :=
  modify_local (λ l, mk_OtLocal (ol_trust l) (ol_clock l) (ol_plant_reads l) (ol_anchor_calls l) (ol_recovery l) m
                       (ol_hook_armed l) (execute_requests l)).
Definition set_recovery (r : CoordinationRecoveryResult) (p : PlantHealth) : OtM unit :=
  modify_local (λ l, mk_OtLocal (ol_trust l) (ol_clock l) (ol_plant_reads l) (ol_anchor_calls l) (Some (r, p))
                       (ol_marker l) (ol_hook_armed l) (execute_requests l)).
Definition clock : OtM datetime :=
  l ← local;
  _ ← modify_local (λ l, mk_OtLocal (ol_trust l) (S (ol_clock l)) (ol_plant_reads l) (ol_anchor_calls l)
                          (ol_recovery l) (ol_marker l) (ol_hook_armed l) (execute_requests l));
  mret (clock_reading (ol_clock l)).
Definition load_plant_health : OtM PlantHealth :=
  l ← local;
  _ ← modify_local (λ l, mk_OtLocal (ol_trust l) (ol_clock l) (S (ol_plant_reads l)) (ol_anchor_calls l)
                          (ol_recovery l) (ol_marker l) (ol_hook_armed l) (execute_requests l));
  lift (plant_health (ol_plant_reads l)).
Definition ask_anchor (phase : AnchorPhase) (effect request : string) (evaluated_at : datetime) : OtM AnchorDecision :=
  l ← local;
  _ ← modify_local (λ l, mk_OtLocal (ol_trust l) (ol_clock l) (ol_plant_reads l) (S (ol_anchor_calls l))
                          (ol_recovery l) (ol_marker l) (ol_hook_armed l) (execute_requests l));
  lift (anchor_admission (ol_anchor_calls l) phase effect request evaluated_at).
(** [device.execute] on a dispatch's parts *)
Definition device_execute (d : SegmentedCapabilityDispatch) : OtM PlcCommandAcknowledgment := λ s,
  let calls := os_calls s ++ [d] in (device_answer calls, mk_OtState (os_local s) (os_journal s) calls).

(** *** Admission by the anchor *)
Definition anchor_unavailable (phase : AnchorPhase) : string :=
  match phase with
  | ANCHOR_PREPARE => "effect_coordination_anchor_prepare_unavailable"
  | ANCHOR_COMMIT => "effect_coordination_anchor_commit_unavailable"
  end.
Definition require_anchor_admission (phase : AnchorPhase) (effect request : string) (evaluated_at : datetime) : OtM unit :=
  if negb (ot_anchor_required cf) then mret tt else
  decision ← attempt (ask_anchor phase effect request evaluated_at);
  lift match decision with
       | Ok d => if admission_ready d && admission_allowed d then Ok tt else unavailable (anchor_unavailable phase)
       | Raise _ => unavailable (anchor_unavailable phase)
       end.

(** *** Alignment with the plant *)
Definition same_pinned_plant_identity (a b : PlantHealth) : bool :=
  eq_s (ph_boot_epoch a) (ph_boot_epoch b) && eq_s (ph_key_id a) (ph_key_id b)
  && eq_s (ph_public_key_b64 a) (ph_public_key_b64 b) && eq_s (ph_backend a) (ph_backend b)
  && eq_s (pl_model_digest (ph_info a)) (pl_model_digest (ph_info b))
  && eq_s (ph_simulator_version a) (ph_simulator_version b)
  && eq_s (ph_observation_source_id a) (ph_observation_source_id b).
(** The marked effect is the one pending where its commit starts. *)
Definition marker_current (r : CoordinationRecoveryResult) (m : LiveCommitMarker) : bool :=
  bool_decide (rr_status r = RECOVERY_REQUIRED) && bool_decide (rr_reason r = PENDING_EFFECT_AT_PRE_STATE)
  && bool_decide (pending_effect_id r = Some (lm_effect_id m)).
Definition refresh_recovery : OtM CoordinationRecoveryResult :=
  checked ← attempt (plant ← load_plant_health;
                     _ ← lift (require (same_pinned_plant_identity plant (ot_plant cf)) "ValueError"
                                 "current plant health changed its pinned identity");
                     rs ← on_journal (journal_records pid);
                     r ← lift (validate_coordination_recovery rs (ph_info plant));
                     mret (r, plant));
  match checked with
  | Raise _ => lift (unavailable "effect_coordination_recovery_unavailable")
  | Ok (r, plant) =>
      _ ← set_recovery r plant;
      l ← local;
      _ ← match ol_marker l with
          | Some m => if marker_current r m then mret tt else set_marker None
          | None => mret tt
          end;
      if bool_decide (rr_status r ∈ [INCONSISTENT; UNAVAILABLE])
      then lift (unavailable "effect_coordination_recovery_unavailable")
      else mret r
  end.
Definition matches_prepare (m : LiveCommitMarker) (q : SignedEffectPrepareRequest) : result bool := all_true [
  Ok (eq_s (lm_effect_id m) (effect_id (rv_effect (pr_envelope q))));
  digest_is (lm_prepare_sha256 m) q;
  Ok (eq_s (lm_boot_epoch m) (ot_boot_epoch cf))].
Definition matches_commit (m : LiveCommitMarker) (q : SignedEffectCommitRequest) : result bool := all_true [
  Ok (eq_s (lm_effect_id m) (effect_id (rv_effect (cm_envelope q))));
  digest_is (lm_prepare_sha256 m) (re_prepare (cm_receipt q));
  digest_is (lm_receipt_sha256 m) (cm_receipt q);
  Ok (eq_s (lm_boot_epoch m) (ot_boot_epoch cf))].
(** What asks for alignment; a query needs none. *)
Inductive AlignmentRequest :=
  | AlignQuery
  | AlignPrepare (q : SignedEffectPrepareRequest)
  | AlignCommit (q : SignedEffectCommitRequest).
Definition require_alignment (a : AlignmentRequest) : OtM CoordinationRecoveryResult :=
  r ← refresh_recovery;
  if bool_decide (rr_status r = ALIGNED) then mret r else
  l ← local;
  let with_marker (matches : LiveCommitMarker → result bool) : result bool :=
    match ol_marker l with
    | Some m => if marker_current r m then matches m else Ok false
    | None => Ok false
    end in
  continues ← lift match a with
                   | AlignQuery => Ok true
                   | AlignPrepare q => with_marker (λ m, matches_prepare m q)
                   | AlignCommit q => with_marker (λ m, matches_commit m q)
                   end;
  if (continues : bool) then mret r else lift (rejected "effect_reconciliation_required").

(** *** Identities *)
(** [LocalWorkloadIdentity.resolve] *)
Definition resolve_local (now : datetime) : M V ResolvedWorkloadIdentity :=
  r ← resolve_local_binding now;
  _ ← lift (require (eq_s (cr_key_id (credential (ri_credential r)))
                       (cr_key_id (credential (sg_credential (ot_local_signer cf)))))
              "WorkloadIdentityUnavailable" "local workload credential changed without its signer");
  _ ← lift (require (eq_s (public_raw (ri_public_key r)) (public_raw (public_of (sg_private_key (ot_local_signer cf)))))
              "WorkloadIdentityUnavailable" "local workload signer no longer matches its credential");
  mret r.
Definition identity_failure (e : exn) : result (ResolvedWorkloadIdentity * ResolvedWorkloadIdentity) :=
  if isinstance_exn e "WorkloadCredentialRejected" then rejected "effect_coordination_workload_identity_rejected"
  else if isinstance_exn e "WorkloadIdentityUnavailable"
  then unavailable "effect_coordination_workload_trust_unavailable"
  else Raise e.
Definition coordination_context (evaluated_at : datetime) : OtM EffectContext :=
  resolved ← on_trust (try_except (g ← resolve_gateway evaluated_at; l ← resolve_local evaluated_at; mret (g, l))
                         (λ e, Some (lift (identity_failure e))));
  let '(g, l) := resolved in
  if negb (eq_s (cr_key_id (credential (ri_credential l))) (ot_key_id cf))
     || negb (eq_s (public_raw (ri_public_key l)) (public_raw (ot_key cf)))
  then lift (rejected "effect_coordination_workload_identity_rejected")
  else mret (mk_EffectContext g l (mk_WorkloadSigner (ri_credential l) (sg_private_key (ot_local_signer cf)))).
Definition parties (cx : EffectContext) : Parties :=
  mk_Parties (cr_subject (credential (ri_credential (cx_gateway cx))))
             (cr_subject (credential (ri_credential (cx_local cx)))).
(** [_raise_coordination_journal_failure] and the handlers around the journal. *)
Definition journal_failure {A} (e : exn) : result A :=
  if isinstance_exn e "CoordinationCollisionError" || isinstance_exn e "IllegalCoordinationTransition"
  then rejected "effect_coordination_state_rejected"
  else unavailable "effect_coordination_journal_unavailable".
Definition handled {A} (msg : string) (m : OtM A) : OtM A :=
  try_except m (λ e,
    if isinstance_exn e "CoordinationJournalError" then Some (lift (journal_failure e))
    else if isinstance_exn e "OSError" || isinstance_exn e "ValueError" then Some (lift (unavailable msg))
    else None).

(** *** What a believed artifact must satisfy *)
Definition ot_pins : DispatchPins :=
  mk_DispatchPins (ot_observer_key cf) (ot_observer_id cf) (ot_observer_key_id cf) (ot_observer_boot_epoch cf)
    (ot_permit_key cf) (ot_permit_key_id cf) (ot_plc_id cf) (ot_key_id cf) (ot_boot_epoch cf).
(** The same roles, with the processes and the key that a retained dispatch names. *)
Definition retained_pins (d : SegmentedCapabilityDispatch) (plc_key : string) : DispatchPins :=
  mk_DispatchPins (ot_observer_key cf) (ot_observer_id cf) (ot_observer_key_id cf)
    (observer_boot_epoch (dp_observation d)) (ot_permit_key cf) (ot_permit_key_id cf) (ot_plc_id cf) plc_key
    (target_plc_boot_epoch (dp_permit d)).
Definition dispatch_complete_for_ot (d : SegmentedCapabilityDispatch) (evaluated_at : datetime) : result bool :=
  let o := dp_observation d in
  let p := dp_permit d in
  let base := base_permit p in
  all_true [
    Ok (dt_aware evaluated_at);
    bindings_match d;
    Ok (eq_s (observer_id o) (ot_observer_id cf));
    Ok (eq_s (observer_key_id o) (ot_observer_key_id cf));
    Ok (eq_s (observer_boot_epoch o) (ot_observer_boot_epoch cf));
    observation_verify o (ot_observer_key cf);
    Ok (eq_s (cp_signing_key_id p) (ot_permit_key_id cf));
    Ok (eq_s (pm_signing_key_id base) (ot_permit_key_id cf));
    Ok (eq_s (target_plc_id p) (ot_plc_id cf));
    Ok (eq_s (target_plc_key_id p) (ot_key_id cf));
    Ok (eq_s (target_plc_boot_epoch p) (ot_boot_epoch cf));
    Ok (eq_s (audience base) (ot_plc_id cf));
    Ok (within (pm_issued_at base) evaluated_at (pm_expires_at base));
    cp_verify p (ot_permit_key cf)].
Definition dispatch_complete_for_reconciliation (d : SegmentedCapabilityDispatch) (plc_key : string)
    (evaluated_at : datetime) : result bool :=
  let o := dp_observation d in
  let p := dp_permit d in
  let base := base_permit p in
  all_true [
    Ok (dt_aware evaluated_at);
    bindings_match d;
    Ok (eq_s (observer_id o) (ot_observer_id cf));
    Ok (eq_s (observer_key_id o) (ot_observer_key_id cf));
    observation_verify o (ot_observer_key cf);
    Ok (eq_s (cp_signing_key_id p) (ot_permit_key_id cf));
    Ok (eq_s (pm_signing_key_id base) (ot_permit_key_id cf));
    Ok (eq_s (target_plc_id p) (ot_plc_id cf));
    Ok (eq_s (target_plc_key_id p) plc_key);
    Ok (eq_s (audience base) (ot_plc_id cf));
    Ok (within (pm_issued_at base) evaluated_at (pm_expires_at base));
    cp_verify p (ot_permit_key cf)].
Definition coordinator_key_id (c : CoordinationReceipt) : string := cr_key_id (credential (re_coordinator c)).
Definition stored_receipt_complete (c : CoordinationReceipt) (cx : EffectContext) (evaluated_at : datetime) : OtM bool :=
  all_hold [
    on_trust (receipt_verify_historical c (re_prepare c) (parties cx) GATEWAY_COORDINATION_AUDIENCE
                EFFECT_COORDINATOR_AUDIENCE evaluated_at MAX_COORDINATION_FUTURE_SKEW);
    lift (dispatch_complete_for_reconciliation (pr_dispatch (re_prepare c)) (coordinator_key_id c) (prepared_at c))].
Definition receipt_complete_for_response (c : CoordinationReceipt) (q : SignedEffectPrepareRequest) (cx : EffectContext)
    (evaluated_at : datetime) : OtM bool :=
  all_hold [
    mret (bool_decide (re_prepare c = q));
    on_trust (receipt_verify_for_request c q (parties cx) GATEWAY_COORDINATION_AUDIENCE EFFECT_COORDINATOR_AUDIENCE
                evaluated_at MAX_COORDINATION_FUTURE_SKEW);
    lift (dispatch_complete_for_ot (pr_dispatch q) evaluated_at)].
Definition accepted_dispatch (a : DurableCommitAcceptance) : SegmentedCapabilityDispatch :=
  pr_dispatch (re_prepare (cm_receipt (ac_request a))).
Definition acceptance_key_id (a : DurableCommitAcceptance) : string := cr_key_id (credential (ac_coordinator a)).
Definition stored_acceptance_complete (a : DurableCommitAcceptance) (cx : EffectContext) (evaluated_at : datetime) :
    OtM bool :=
  on_trust (acceptance_verify_for_commit a (ac_request a) (retained_pins (accepted_dispatch a) (acceptance_key_id a))
              (parties cx) GATEWAY_COORDINATION_AUDIENCE evaluated_at MAX_COORDINATION_FUTURE_SKEW).
Definition stored_acknowledgment_complete (k : PlcCommandAcknowledgment) (a : DurableCommitAcceptance) : result bool :=
  let d := accepted_dispatch a in
  key ← credential_public_key (credential (ac_coordinator a));
  pa_verify_for_transaction k key (dp_request d) (dp_permit d) (dp_observation d)
    (mk_PlcTarget (ot_plc_id cf) (acceptance_key_id a) (target_plc_boot_epoch (dp_permit d))).

(** ** Prepare *)
Definition authenticated (e : RequestEnvelope) (cx : EffectContext) (checks : list (OtM bool)) : OtM bool :=
  all_hold (mret (bool_decide (sender_credential e = ri_credential (cx_gateway cx))) :: checks).
Definition must (ok : bool) (otherwise : result unit) : result unit := if ok then Ok tt else otherwise.
Definition new_marker (q : SignedEffectPrepareRequest) (c : CoordinationReceipt) : result LiveCommitMarker :=
  d ← digest_of q;
  r ← digest_of c;
  Ok (mk_LiveCommitMarker (effect_id (rv_effect (pr_envelope q))) d r (ot_boot_epoch cf)).
Definition prepare_effect_call (q : SignedEffectPrepareRequest) : OtM CoordinationReceipt :=
  evaluated_at ← clock;
  cx ← coordination_context evaluated_at;
  ok ← authenticated (pr_envelope q) cx [
         on_trust (prepare_complete q ot_pins (expected_gateway_subject (parties cx)) EFFECT_COORDINATOR_AUDIENCE
                     evaluated_at);
         lift (dispatch_complete_for_ot (pr_dispatch q) evaluated_at)];
  _ ← lift (must ok (rejected "effect_prepare_authentication_rejected"));
  handled "effect_prepare_outcome_unavailable" (
    let e := rv_effect (pr_envelope q) in
    digest ← lift (digest_of q);
    _ ← require_anchor_admission ANCHOR_PREPARE (effect_id e) digest evaluated_at;
    _ ← require_alignment (AlignPrepare q);
    pending ← on_journal (journal_pending pid);
    _ ← lift (must (forallb (λ r, bool_decide (jr_effect r = e)) pending)
                (rejected "effect_reconciliation_required"));
    existing ← on_journal (journal_get pid e);
    receipt ← on_journal (prepare_effect jc pid q
                 (λ q at_, receipt_issue q (cx_signer cx) at_ GATEWAY_COORDINATION_AUDIENCE)
                 (Some evaluated_at) evaluated_at);
    complete ← receipt_complete_for_response receipt q cx evaluated_at;
    _ ← lift (must complete (unavailable "effect_prepare_stored_receipt_rejected"));
    _ ← match existing with
        | None => m ← lift (new_marker q receipt); set_marker (Some m)
        | Some _ => mret tt
        end;
    mret receipt).

(** ** Commit *)
(** A commit that was admitted as new: what the rest of the call knows. *)
Record InFlight := mk_InFlight {
  fl_request : SignedEffectCommitRequest;
  fl_acceptance : DurableCommitAcceptance;
  fl_context : EffectContext;
}.
Definition commit_dispatch (q : SignedEffectCommitRequest) : SegmentedCapabilityDispatch :=
  pr_dispatch (re_prepare (cm_receipt q)).
Definition or_indeterminate (e : exn) : bool :=
  isinstance_exn e "CoordinationJournalError" || isinstance_exn e "OSError" || isinstance_exn e "ValueError".
(** The outcome retained with the last commit attempt of this request. *)
Definition retained_commit_outcome (r : CoordinationJournalRecord) (digest : string) : option SignedEffectOutcome :=
  last_such (λ a, match a with
                  | Commit c => if eq_s (at_request_sha256 (tc_base c)) digest then Some (tc_outcome c) else None
                  | _ => None end) (jr_attempts r) ≫= id.
Definition retained_outcome_complete (q : SignedEffectCommitRequest) (a : DurableCommitAcceptance) (cx : EffectContext)
    (evaluated_at : datetime) (o : SignedEffectOutcome) : OtM bool :=
  all_hold [
    mret (bool_decide (oc_kind o = KIND_COMMIT));
    lift (digest_is (oc_request_sha256 o) q);
    mret (bool_decide (oc_acceptance o = Some a));
    on_trust (outcome_verify_for_request o (CommitRequest q) ot_pins (parties cx) GATEWAY_COORDINATION_AUDIENCE
                evaluated_at MAX_COORDINATION_FUTURE_SKEW)].
(** [journal.begin_commit] and its handlers: the marker is spent either way. *)
Definition begin_effect_commit (q : SignedEffectCommitRequest) (cx : EffectContext) (evaluated_at : datetime) :
    OtM CommitAdmission :=
  begun ← attempt (on_journal (begin_commit jc pid q
            (λ q at_, acceptance_issue q (cx_signer cx) at_ GATEWAY_COORDINATION_AUDIENCE)
            (Some evaluated_at) evaluated_at));
  match begun with
  | Ok a => _ ← set_marker None; mret a
  | Raise e =>
      if isinstance_exn e "CoordinationJournalError" then _ ← set_marker None; lift (journal_failure e)
      else if isinstance_exn e "OSError" || isinstance_exn e "ValueError"
      then _ ← set_marker None; lift (unavailable "effect_commit_acceptance_unavailable")
      else lift (Raise e)
  end.
(** [commit_effect] up to the device: the answer, or a commit to carry out. *)
Definition commit_admit (q : SignedEffectCommitRequest) : OtM (SignedEffectOutcome + InFlight) :=
  evaluated_at ← clock;
  cx ← coordination_context evaluated_at;
  ok ← authenticated (cm_envelope q) cx [
         on_trust (commit_complete q ot_pins (parties cx) EFFECT_COORDINATOR_AUDIENCE evaluated_at
                     MAX_COORDINATION_FUTURE_SKEW);
         lift (dispatch_complete_for_ot (commit_dispatch q) evaluated_at)];
  _ ← lift (must ok (rejected "effect_commit_authentication_rejected"));
  digest ← lift (digest_of q);
  _ ← require_anchor_admission ANCHOR_COMMIT (effect_id (rv_effect (cm_envelope q))) digest evaluated_at;
  _ ← require_alignment (AlignCommit q);
  admission ← begin_effect_commit q cx evaluated_at;
  let acceptance := ca_acceptance admission in
  stored ← all_hold [mret (bool_decide (ac_request acceptance = q));
                     stored_acceptance_complete acceptance cx evaluated_at];
  _ ← lift (must stored (indeterminate));
  match ca_status admission with
  | TERMINAL =>
      match retained_commit_outcome (ca_record admission) digest with
      | None => lift indeterminate
      | Some o =>
          complete ← retained_outcome_complete q acceptance cx evaluated_at o;
          _ ← lift (must complete (indeterminate));
          _ ← refresh_recovery;
          mret (inl o)
      end
  | INDETERMINATE => lift indeterminate
  | NEW => mret (inr (mk_InFlight q acceptance cx))
  end.
(** The device is asked; an [Exception] it raises is kept for the outcome. *)
Definition commit_execute (f : InFlight) : OtM (result PlcCommandAcknowledgment) :=
  _ ← modify_local (λ l, mk_OtLocal (ol_trust l) (ol_clock l) (ol_plant_reads l) (ol_anchor_calls l) (ol_recovery l)
                           (ol_marker l) (ol_hook_armed l) (execute_requests l + 1));
  attempt (device_execute (commit_dispatch (fl_request f))).
Definition retain_unknown_commit_outcome (f : InFlight) : OtM SignedEffectOutcome :=
  signed ← clock;
  match outcome_issue (CommitRequest (fl_request f)) EFFECT_UNKNOWN "device_outcome_unavailable_after_commit_acceptance"
          (cx_signer (fl_context f)) signed (Some (fl_acceptance f)) None GATEWAY_COORDINATION_AUDIENCE with
  | Raise e =>
      if isinstance_exn e "OSError" || isinstance_exn e "ValueError" then
        _ ← try_except (_ ← on_journal (mark_commit_unknown jc pid (fl_request f)
                              "signed_unknown_outcome_unavailable_after_commit_acceptance" None (Some signed) signed);
                        mret tt)
              (λ e, if isinstance_exn e "CoordinationJournalError" then Some (mret tt) else None);
        lift indeterminate
      else lift (Raise e)
  | Ok o =>
      _ ← try_except (on_journal (finish_commit jc pid (fl_request f) o (Some signed) signed))
            (λ e, if or_indeterminate e then Some (lift indeterminate) else None);
      mret o
  end.
Definition disposition_of (s : CommandStatus) : EffectDisposition :=
  match s with APPLIED => EFFECT_APPLIED | REJECTED => EFFECT_REJECTED | UNKNOWN_EFFECT => EFFECT_UNKNOWN end.
Definition run_terminal_hook : OtM unit :=
  l ← local;
  match ot_terminal_hook cf with
  | Some r =>
      if ol_hook_armed l then
        _ ← modify_local (λ l, mk_OtLocal (ol_trust l) (ol_clock l) (ol_plant_reads l) (ol_anchor_calls l)
                                 (ol_recovery l) (ol_marker l) false (execute_requests l));
        lift r
      else mret tt
  | None => mret tt
  end.
(** The outcome of what the device answered or raised, retained and returned. *)
Definition commit_record (f : InFlight) (answer : result PlcCommandAcknowledgment) : OtM SignedEffectOutcome :=
  issued ← attempt (k ← lift answer;
                    signed ← clock;
                    lift (outcome_issue (CommitRequest (fl_request f)) (disposition_of (pa_status k)) (pa_reason k)
                            (cx_signer (fl_context f)) signed (Some (fl_acceptance f)) (Some k)
                            GATEWAY_COORDINATION_AUDIENCE));
  match issued with
  | Raise _ => retain_unknown_commit_outcome f
  | Ok o =>
      _ ← try_except (on_journal (finish_commit jc pid (fl_request f) o (Some (signed_at o)) (signed_at o)))
            (λ e, if or_indeterminate e then Some (lift indeterminate) else None);
      _ ← (if terminal_disposition (oc_disposition o) then _ ← refresh_recovery; run_terminal_hook else mret tt);
      mret o
  end.
Definition commit_effect (q : SignedEffectCommitRequest) : OtM SignedEffectOutcome :=
  admitted ← commit_admit q;
  match admitted with
  | inl o => mret o
  | inr f => answer ← commit_execute f; commit_record f answer
  end.

(** ** Query *)
(** [_latest_retained_effect_outcome] *)
Definition latest_retained_outcome (r : CoordinationJournalRecord) : option SignedEffectOutcome :=
  last_such attempt_outcome (jr_attempts r).
(** The acknowledgment of the latest retained outcome, when it has this status. *)
Definition prior_acknowledgment (r : CoordinationJournalRecord) (status : CommandStatus) : option PlcCommandAcknowledgment :=
  match latest_retained_outcome r ≫= oc_acknowledgment with
  | Some k => if bool_decide (pa_status k = status) then Some k else None
  | None => None
  end.
Definition QueryAnswer : Type := EffectDisposition * string * option PlcCommandAcknowledgment.
(** What an effect with a retained acceptance is answered. *)
Definition accepted_answer (r : CoordinationJournalRecord) : result QueryAnswer :=
  let terminal_answer disposition status reason :=
    match prior_acknowledgment r status with
    | Some k => Ok (disposition, reason, Some k)
    | None => unavailable "effect_query_record_lacks_terminal_acknowledgment"
    end in
  match jr_state r with
  | STATE_APPLIED => terminal_answer EFFECT_APPLIED APPLIED "stored_plc_acknowledgment_reports_applied"
  | STATE_REJECTED => terminal_answer EFFECT_REJECTED REJECTED "stored_plc_acknowledgment_reports_rejected"
  | COMMIT_ACCEPTED | STATE_UNKNOWN_EFFECT =>
      Ok match prior_acknowledgment r UNKNOWN_EFFECT with
         | Some k => (EFFECT_UNKNOWN, "stored_plc_acknowledgment_reports_unknown", Some k)
         | None => (EFFECT_UNKNOWN, "commit_accepted_effect_outcome_unknown", None)
         end
  | _ => unavailable "effect_query_record_state_is_inconsistent"
  end.
Definition query_answer (cx : EffectContext) (r : CoordinationJournalRecord) (at_ : datetime) : OtM QueryAnswer :=
  match latest_acceptance r with
  | None =>
      ok ← (if bool_decide (jr_state r ∈ [DISPATCH_ARMED; STATE_NOT_DISPATCHED]) then
              match latest_receipt r with Some c => stored_receipt_complete c cx at_ | None => mret false end
            else mret false);
      _ ← lift (must ok (unavailable "effect_query_stored_receipt_rejected"));
      mret (EFFECT_NOT_DISPATCHED, "no_commit_was_durably_accepted", None)
  | Some a =>
      ok ← stored_acceptance_complete a cx at_;
      _ ← lift (must ok (unavailable "effect_query_stored_acceptance_rejected"));
      lift (accepted_answer r)
  end.
(** The [issue_outcome] of [query_effect] *)
Definition issue_query_outcome (cx : EffectContext) (q : SignedEffectQueryRequest) (r : CoordinationJournalRecord)
    (at_ : datetime) : OtM SignedEffectOutcome :=
  answer ← query_answer cx r at_;
  let '(disposition, reason, acknowledgment) := answer in
  let acceptance := latest_acceptance r in
  known ← lift match acknowledgment, acceptance with
               | Some k, Some a => stored_acknowledgment_complete k a
               | Some _, None => Ok false
               | None, _ => Ok true
               end;
  _ ← lift (must known (unavailable "effect_query_stored_acknowledgment_rejected"));
  lift (outcome_issue (QueryRequest q) disposition reason (cx_signer cx) at_ acceptance acknowledgment
          GATEWAY_COORDINATION_AUDIENCE).

(** The disposition a record's state stands for in an answer. *)
Definition answered_disposition (s : CoordinationState) : option EffectDisposition :=
  match s with
  | STATE_NOT_DISPATCHED => Some EFFECT_NOT_DISPATCHED
  | COMMIT_ACCEPTED | STATE_UNKNOWN_EFFECT => Some EFFECT_UNKNOWN
  | STATE_APPLIED => Some EFFECT_APPLIED
  | STATE_REJECTED => Some EFFECT_REJECTED
  | _ => None
  end.
Definition query_outcome_complete (q : SignedEffectQueryRequest) (o : SignedEffectOutcome) (cx : EffectContext)
    (evaluated_at : datetime) : OtM bool :=
  record ← on_journal (journal_get pid (rv_effect (qr_envelope q)));
  match record with
  | None => mret false
  | Some r =>
      let verified d key :=
        all_hold [
          mret (bool_decide (answered_disposition (jr_state r) = Some (oc_disposition o)));
          on_trust (outcome_verify_for_request o (QueryRequest q) (retained_pins d key) (parties cx)
                      GATEWAY_COORDINATION_AUDIENCE evaluated_at MAX_COORDINATION_FUTURE_SKEW)] in
      match oc_acceptance o with
      | None =>
          match latest_acceptance r, latest_receipt r with
          | None, Some c =>
              all_hold [stored_receipt_complete c cx evaluated_at;
                        verified (pr_dispatch (re_prepare c)) (coordinator_key_id c)]
          | _, _ => mret false
          end
      | Some a =>
          all_hold [
            mret (bool_decide (latest_acceptance r = Some a));
            stored_acceptance_complete a cx evaluated_at;
            lift match oc_acknowledgment o with Some k => stored_acknowledgment_complete k a | None => Ok true end;
            verified (accepted_dispatch a) (acceptance_key_id a)]
      end
  end.
Definition query_effect (q : SignedEffectQueryRequest) : OtM SignedEffectOutcome :=
  evaluated_at ← clock;
  cx ← coordination_context evaluated_at;
  ok ← authenticated (qr_envelope q) cx [
         on_trust (query_envelope_valid q EFFECT_COORDINATOR_AUDIENCE (expected_gateway_subject (parties cx)) evaluated_at)];
  _ ← lift (must ok (rejected "effect_query_authentication_rejected"));
  handled "effect_query_outcome_unavailable" (
    _ ← require_alignment AlignQuery;
    o ← answer_query_in jc pid (@on_journal) q (issue_query_outcome cx) (Some evaluated_at) evaluated_at;
    complete ← query_outcome_complete q o cx evaluated_at;
    _ ← lift (must complete (unavailable "effect_query_stored_outcome_rejected"));
    final ← on_journal (journal_get pid (rv_effect (qr_envelope q)));
    match final with
    | None => lift (unavailable "effect_coordination_recovery_unavailable")
    | Some r =>
        if negb (terminal (jr_state r)) then mret o else
        l ← local;
        _ ← match ol_marker l with
            | Some m => if eq_s (lm_effect_id m) (effect_id (rv_effect (qr_envelope q))) then set_marker None else mret tt
            | None => mret tt
            end;
        _ ← refresh_recovery;
        mret o
    end).

(** [__init__] with coordination required: the first alignment check. *)
Definition ot_init : OtM unit := _ ← refresh_recovery; mret tt.
End runtime.

(** ** The bindings of a coordinator's workload verifier *)
Definition OT_CAPABILITY_AUDIENCE : string := "aegis-ot:m4g:ot-adapter".
(** What the n-th resolution reads from the credential files. *)
Class CredentialFiles := {
  gateway_credential_file : nat → option string;
  local_credential_file : nat → option string;
}.
Section bindings.
Context {ED : Ed25519} {ER : Ed25519Raw} {TE : TrustEnv} {TS : TrustSource} {CF : CredentialFiles}.
Context {DC : ModelDump WorkloadCredential} {DB : ModelDump WorkloadTrustBundle} {LB : ModelLoad WorkloadTrustBundle}
  {DS : ModelDump SignedWorkloadCredential} {LS : ModelLoad SignedWorkloadCredential}.
Variable vc : VerifierConfig.
Variables gateway_subject local_subject : string.
(** [credential_binding_from_environment] for the gateway and for the coordinator itself *)
Definition gateway_binding : Expected := mk_Expected GATEWAY OT_CAPABILITY_AUDIENCE (Some gateway_subject) None.
Definition local_binding : Expected := mk_Expected OT_ADAPTER GATEWAY_CAPABILITY_AUDIENCE (Some local_subject) None.
#[export] Instance runtime_bindings : CredentialBindings VerifierWorld := {|
  resolve_gateway now := λ w,
    verification (λ file held, resolve vc file (gateway_credential_file w.2) held gateway_binding now) w;
  resolve_local_binding now := λ w,
    verification (λ file held, resolve vc file (local_credential_file w.2) held local_binding now) w;
|}.
End bindings.
