(* ===== verification/CoordinationHistory.v ===== *)
(** * How a retained record may change

    [evolves] is what an update of a record keeps: its effect, its transitions up
    to new ones at the end, its attempts up to an answer or a failure of one that
    was open and new ones at the end.  Every update the journals compute is one of
    these ([grows]); from a terminal state no legal record has a new transition. *)
From S2P Require Import Prelude PyFloat PyStr PyTime PyJson Sha256 Crypto Models PhysicalModels CapabilityModels.
From S2P Require Import DurableReplay Workload WorkloadVerifier CoordinationModels CoordinationMessages.
From S2P Require Import CoordinationRecord CoordinationJournal CoordinationOps.

(** ** The relation *)
Inductive AttemptKind := KPrepare | KCommit | KQuery.
Definition attempt_kind (a : CoordinationAttempt) : AttemptKind :=
  match a with Prepare _ => KPrepare | Commit _ => KCommit | Query _ => KQuery end.
Definition AttemptShape : Type := AttemptKind * AttemptBase.
Definition shape (a : CoordinationAttempt) : AttemptShape := (attempt_kind a, attempt_base a).
Definition shapes (r : CoordinationJournalRecord) : list AttemptShape := map shape (jr_attempts r).

(** An open attempt is answered or fails; a failed commit may still be answered. *)
Definition status_advances (s s' : CoordinationAttemptStatus) : Prop :=
  s = s' ∨ s = REQUEST_RETAINED ∨ (s = OUTCOME_UNKNOWN ∧ s' = RESPONSE_RETAINED).
Definition shape_advances (x y : AttemptShape) : Prop :=
  x.1 = y.1 ∧ at_sequence x.2 = at_sequence y.2 ∧ at_request_sha256 x.2 = at_request_sha256 y.2
  ∧ retained_at x.2 = retained_at y.2 ∧ status_advances (at_status x.2) (at_status y.2).
Definition shapes_advance (l l' : list AttemptShape) : Prop :=
  ∃ l1 l2, l' = l1 ++ l2 ∧ Forall2 shape_advances l l1.

Record evolves (r r' : CoordinationJournalRecord) : Prop := {
  ev_effect : jr_effect r' = jr_effect r;
  ev_transitions : jr_transitions r `prefix_of` jr_transitions r';
  ev_attempts : shapes_advance (shapes r) (shapes r');
}.
(** The attempts are numbered from 1. *)
Definition numbered (r : CoordinationJournalRecord) : Prop :=
  ∀ i a, jr_attempts r !! i = Some a → at_sequence (attempt_base a) = (Z.of_nat i + 1)%Z.
Definition grows (r r' : CoordinationJournalRecord) : Prop := numbered r → numbered r' ∧ evolves r r'.

#[export] Instance status_advances_pre : PreOrder status_advances.
Proof.
  split; [by left|]. intros s1 s2 s3 [->|[->|[-> ->]]]; [done|by right; left|].
  intros [<-|[?|[? _]]]; [by right; right|done..].
Qed.
#[export] Instance shape_advances_pre : PreOrder shape_advances.
Proof.
  split; [by intros [k b]; unfold shape_advances; split_and!|].
  intros x y z (A & B & C & D & E) (A' & B' & C' & D' & E'). unfold shape_advances.
  split_and!; [congruence..|]. by etrans.
Qed.
#[export] Instance shapes_advance_pre : PreOrder shapes_advance.
Proof.
  split; [intros l; exists l, []; split; [by rewrite app_nil_r|reflexivity]|].
  intros l l' l'' (l1 & l2 & -> & H) (m1 & m2 & -> & H').
  apply Forall2_app_inv_l in H' as (m11 & m12 & H1 & H2 & ->).
  exists m11, (m12 ++ m2). split; [by rewrite app_assoc|]. by etrans; [exact H|exact H1].
Qed.
#[export] Instance evolves_pre : PreOrder evolves.
Proof. split; [by split|]. intros r1 r2 r3 [A B C] [A' B' C']. split; [congruence|by etrans..]. Qed.
#[export] Instance grows_pre : PreOrder grows.
Proof.
  split; [by split|]. intros r1 r2 r3 H H' Hn. destruct (H Hn) as [N E]. destruct (H' N) as [N' E'].
  split; [done|]. by etrans.
Qed.

(** What later theorems read off an evolution. *)
Lemma evolves_commit r r' : evolves r r' → has_commit r = true → has_commit r' = true.
Proof.
  intros [_ _ (l1 & l2 & E & H)] Hc. unfold has_commit in *.
  assert (K : ∀ l, existsb (λ a, match a with Commit _ => true | _ => false end) l = true
              ↔ ∃ x, x ∈ map shape l ∧ x.1 = KCommit).
  { induction l as [|a l IH]; cbn [existsb map].
    - split; [done|]. by intros (x & ?%not_elem_of_nil & _).
    - rewrite orb_true_iff, IH. split.
      + intros [Ha|(x & Hx & ?)]; [exists (shape a)|exists x]; (split; [set_solver|]); [by destruct a|done].
      + intros (x & [->|Hx]%elem_of_cons & ?); [left; by destruct a|right; by exists x]. }
  apply K in Hc as (x & Hx & Hk). apply K. fold (shapes r') (shapes r) in *. rewrite E.
  apply list_elem_of_lookup in Hx as [i Hx]. destruct (Forall2_lookup_l _ _ _ _ _ H Hx) as (y & Hy & A & _).
  exists y. split; [|congruence]. apply elem_of_app. left. by apply list_elem_of_lookup_2 in Hy.
Qed.

Lemma existsb_shapes r r' : shapes r' = shapes r → has_commit r' = has_commit r.
Proof.
  unfold shapes, has_commit. generalize (jr_attempts r) (jr_attempts r').
  induction l as [|a l IH]; intros [|a' l'] H; [done|discriminate H..|]. injection H as Hk _ Hl.
  cbn [existsb]. rewrite (IH l' Hl). f_equal. by destruct a, a'.
Qed.

(** ** Updates that grow a record *)
Lemma numbered_shapes r r' :
  (map at_sequence (map attempt_base (jr_attempts r'))) = map at_sequence (map attempt_base (jr_attempts r)) →
  numbered r → numbered r'.
Proof.
  intros E H i a Ha. rewrite !map_map in E. set (f := λ a, at_sequence (attempt_base a)) in E.
  assert (L : (f <$> jr_attempts r) !! i = Some (f a)).
  { change (f <$> jr_attempts r) with (map f (jr_attempts r)). rewrite <- E.
    change (map f (jr_attempts r')) with (f <$> jr_attempts r'). by rewrite list_lookup_fmap, Ha. }
  rewrite list_lookup_fmap in L. unfold f in L.
  destruct (jr_attempts r !! i) as [b|] eqn:Hb; [|done]. injection L as L. rewrite <- L. by apply H.
Qed.

(** Splits the checks of a computed update. *)
Ltac checks H :=
  repeat match type of H with
  | _ ≫= _ = Ok _ => let E := fresh "E" in apply result_bind_Ok in H as (? & E & H)
  end.

Section growth.
Context {ED : Ed25519} {ER : Ed25519Raw} {MD : MessageDumps}.

Lemma transition_shape r st ev reason at_ r' :
  transition r st ev reason at_ = Ok r' →
  jr_attempts r' = jr_attempts r ∧ jr_effect r' = jr_effect r
  ∧ ∃ t, jr_transitions r' = jr_transitions r ++ [t] ∧ tr_state t = st ∧ can_transition_to (jr_state r) st = true.
Proof using Type.
  unfold transition, legal. intros H.
  destruct (negb _); [|discriminate H]. destruct (can_transition_to _ _) eqn:Hc; [|discriminate H]. cbn [mbind result_bind] in H.
  apply result_bind_Ok in H as (t & Ht & [= <-]). split; [done|]. split; [done|]. exists t.
  split; [done|]. split; [|done]. unfold CoordinationTransition_validate, closed in Ht.
  apply result_bind_Ok in Ht as (? & _ & Ht). apply result_bind_Ok in Ht as (? & _ & Ht).
  apply result_bind_Ok in Ht as (? & _ & Ht). apply result_bind_Ok in Ht as (? & _ & Ht). by injection Ht as <-.
Qed.
Lemma transition_grows r st ev reason at_ r' : transition r st ev reason at_ = Ok r' → grows r r'.
Proof using Type.
  intros (Ha & He & t & Ht & _)%transition_shape Hn. split.
  - intros i a. rewrite Ha. apply Hn.
  - split; [done|rewrite Ht; by eexists|unfold shapes; by rewrite Ha].
Qed.

Lemma add_grows r a :
  at_sequence (attempt_base a) = (Z.of_nat (length (jr_attempts r)) + 1)%Z → grows r (add_attempt r a).
Proof using Type.
  intros Hs Hn. split.
  - intros i x. cbn [add_attempt with_attempts jr_attempts]. intros [Hx|[Hl Hx]]%lookup_app_Some; [by apply Hn|].
    apply list_lookup_singleton_Some in Hx as [E <-]. rewrite Hs. lia.
  - split; [done|done|]. exists (shapes r), [shape a]. split; [|reflexivity].
    unfold shapes. cbn [add_attempt with_attempts jr_attempts]. by rewrite map_app.
Qed.

(** Replacing one attempt of a numbered record changes that attempt alone. *)
Lemma replace_shapes (R : relation AttemptShape) `{!Reflexive R} r a b :
  numbered r → b ∈ jr_attempts r → at_sequence (attempt_base a) = at_sequence (attempt_base b) → R (shape b) (shape a) →
  Forall2 R (shapes r) (shapes (replace_attempt r a)).
Proof using Type.
  intros Hn Hb Eb Ha. apply list_elem_of_lookup in Hb as [i Hi]. pose proof (Hn _ _ Hi) as Si.
  unfold shapes. cbn [replace_attempt with_attempts jr_attempts]. rewrite map_map.
  change (Forall2 R (shape <$> jr_attempts r)
            ((λ x, shape (if (at_sequence (attempt_base x) =? at_sequence (attempt_base a))%Z then a else x))
               <$> jr_attempts r)).
  apply Forall2_fmap_l, Forall2_fmap_r, Forall_Forall2_diag, Forall_lookup. intros k x Hk. cbn [compose].
  destruct (_ =? _)%Z eqn:E; [|done]. apply Z.eqb_eq in E. rewrite (Hn _ _ Hk), Eb, Si in E.
  replace k with i in Hk by lia. rewrite Hi in Hk. by injection Hk as <-.
Qed.
Lemma replace_numbered r a : numbered r → numbered (replace_attempt r a).
Proof using Type.
  apply numbered_shapes. cbn [replace_attempt with_attempts jr_attempts]. rewrite !map_map.
  apply map_ext_in. intros x _. destruct (_ =? _)%Z eqn:E; [|done]. by apply Z.eqb_eq in E.
Qed.
Lemma replace_grows r a b :
  b ∈ jr_attempts r → shape_advances (shape b) (shape a) → grows r (replace_attempt r a).
Proof using Type.
  intros Hb Ha Hn. split; [by apply replace_numbered|]. split; [done|done|].
  eexists _, []. split; [by rewrite app_nil_r|]. apply (replace_shapes shape_advances r a b); [done..| |done].
  symmetry. apply Ha.
Qed.
(** The shapes but for the time of the last update. *)
Definition shape_same (x y : AttemptShape) : Prop :=
  x.1 = y.1 ∧ at_sequence x.2 = at_sequence y.2 ∧ at_request_sha256 x.2 = at_request_sha256 y.2
  ∧ retained_at x.2 = retained_at y.2 ∧ at_status x.2 = at_status y.2.
#[local] Instance shape_same_refl : Reflexive shape_same.
Proof using Type. by intros x; split_and!. Qed.

(** ** The attempt an operation finds and what replaces it *)
Lemma found {A} (f : CoordinationAttempt → option A) l x : head (omap f l) = Some x → ∃ a, a ∈ l ∧ f a = Some x.
Proof using Type. intros H%head_Some_elem_of. by apply list_elem_of_omap in H. Qed.
Lemma prepare_attempt_In r d p : prepare_attempt r d = Some p → Prepare p ∈ jr_attempts r.
Proof using Type. intros ([p'|c|q] & Hin & E)%found; [|done..]. destruct (eq_s _ _); [|done]. by injection E as <-. Qed.
Lemma commit_attempt_In r d c : commit_attempt r d = Some c → Commit c ∈ jr_attempts r.
Proof using Type. intros ([p|c'|q] & Hin & E)%found; [done| |done]. destruct (eq_s _ _); [|done]. by injection E as <-. Qed.
Lemma query_attempt_In r d q : query_attempt r d = Some q → Query q ∈ jr_attempts r.
Proof using Type. intros ([p|c|q'] & Hin & E)%found; [done..|]. destruct (eq_s _ _); [|done]. by injection E as <-. Qed.

Lemma answered_status s : status_advances s RESPONSE_RETAINED.
Proof using Type. unfold status_advances. destruct s; auto. Qed.
Lemma answers_shape k b status at_ :
  status_advances (at_status b) status → shape_advances (k, b) (k, with_status b status at_).
Proof using Type. intros H. by split_and!. Qed.

(** A construction check returns what it checked. *)
Lemma validate_prepare a a' : EffectPrepareAttempt_validate a = Ok a' → a' = a.
Proof using Type.
  unfold EffectPrepareAttempt_validate. intros H.
  repeat (apply result_bind_Ok in H as (? & _ & H)). by injection H as <-.
Qed.
Lemma validate_commit a a' : EffectCommitAttempt_validate a = Ok a' → a' = a.
Proof using Type.
  unfold EffectCommitAttempt_validate. intros H.
  repeat (apply result_bind_Ok in H as (? & _ & H)). by injection H as <-.
Qed.
Lemma validate_query a a' : EffectQueryAttempt_validate a = Ok a' → a' = a.
Proof using Type.
  unfold EffectQueryAttempt_validate. intros H.
  repeat (apply result_bind_Ok in H as (? & _ & H)). by injection H as <-.
Qed.
Lemma validate_record r r' : CoordinationJournalRecord_validate r = Ok r' → r' = r.
Proof using Type.
  unfold CoordinationJournalRecord_validate. intros H.
  repeat (apply result_bind_Ok in H as (? & _ & H)). by injection H as <-.
Qed.



Lemma acceptance_transition_grows r x at_ r' : acceptance_transition r x at_ = Ok r' → grows r r'.
Proof using Type.
  unfold acceptance_transition. case_bool_decide; intros Hr; checks Hr; [by eapply transition_grows|].
  by injection Hr as <-.
Qed.
Lemma outcome_transition_grows r st o reason at_ r' : outcome_transition r st o reason at_ = Ok r' → grows r r'.
Proof using Type.
  unfold outcome_transition. case_bool_decide; [by intros [= <-]|]. intros Hr; checks Hr. by eapply transition_grows.
Qed.
Lemma arm_grows r c at_ r' : arm r c at_ = Ok r' → grows r r'.
Proof using Type.
  unfold arm. case_bool_decide; [|by intros [= <-]]. intros Hr; checks Hr. by eapply transition_grows.
Qed.
Lemma bind_acceptance_grows r o at_ r' : bind_outcome_acceptance r o at_ = Ok r' → grows r r'.
Proof using Type.
  unfold bind_outcome_acceptance. case_bool_decide; intros Hr.
  { checks Hr. by injection Hr as <-. }
  destruct (oc_acceptance o) as [x|]; [|discriminate Hr]. apply result_bind_Ok in Hr as (d & Ed & Hr).
  destruct (commit_attempt r d) as [c|] eqn:Hc; [|discriminate Hr]. apply commit_attempt_In in Hc.
  checks Hr. apply acceptance_transition_grows in Hr. destruct (tc_acceptance c); [done|].
  etrans; [|exact Hr]. eapply replace_grows; [exact Hc|]. apply answers_shape. by left.
Qed.

(** ** The computed updates *)
Lemma commit_intent_grows r q d issue recorded now r' :
  commit_intent r q d issue recorded now = Ok r' →
  grows r r' ∧ has_commit r = false ∧ has_commit r' = true ∧ jr_state r = DISPATCH_ARMED
  ∧ retains_receipt r (cm_receipt q) = true.
Proof using Type.
  unfold commit_intent, no_collision, legal. destruct (has_commit r) eqn:Hc; [intros [=]|].
  destruct (terminal _); [intros [=]|]. case_bool_decide as Ha; [|intros [=]].
  destruct (retains_receipt _ _) eqn:Hp; [|intros [=]]. cbn [negb mbind result_bind]. intros H.
  apply result_bind_Ok in H as (? & _ & H). apply result_bind_Ok in H as (at_ & _ & H).
  apply result_bind_Ok in H as (acceptance & _ & H). apply result_bind_Ok in H as (a & Ea & H).
  apply validate_commit in Ea. subst a.
  set (u := add_attempt r _) in *. assert (G : grows r u) by by apply add_grows.
  assert (Hu : has_commit u = true).
  { unfold has_commit, u. cbn [add_attempt with_attempts jr_attempts]. by rewrite existsb_app, orb_true_r. }
  destruct acceptance; [|injection H as <-; done]. checks H. split; [etrans; [exact G|by eapply transition_grows]|].
  apply transition_shape in H as [Ha' _]. split; [done|]. split; [|done]. unfold has_commit. by rewrite Ha'.
Qed.
Lemma acceptance_transition_attempts r x at_ r' : acceptance_transition r x at_ = Ok r' → jr_attempts r' = jr_attempts r.
Proof using Type.
  unfold acceptance_transition. case_bool_decide; intros Hr; checks Hr; [by apply transition_shape in Hr as [? _]|].
  by injection Hr as <-.
Qed.
Lemma bind_acceptance_shapes r o at_ r' :
  numbered r → bind_outcome_acceptance r o at_ = Ok r' → Forall2 shape_same (shapes r) (shapes r').
Proof using Type.
  intros Hn. unfold bind_outcome_acceptance. case_bool_decide; intros Hr.
  { checks Hr. by injection Hr as <-. }
  destruct (oc_acceptance o) as [x|]; [|discriminate Hr]. apply result_bind_Ok in Hr as (d & Ed & Hr).
  destruct (commit_attempt r d) as [c|] eqn:Hc; [|discriminate Hr]. apply commit_attempt_In in Hc.
  checks Hr. apply acceptance_transition_attempts in Hr. unfold shapes at 2. rewrite Hr.
  destruct (tc_acceptance c); [done|]. by apply (replace_shapes shape_same r _ (Commit c)).
Qed.
(** Answering an attempt that is still there after its acceptance is bound. *)
Lemma answer_grows r r1 a b :
  numbered r → grows r r1 → Forall2 shape_same (shapes r) (shapes r1) →
  b ∈ jr_attempts r → shape_advances (shape b) (shape a) → grows r (replace_attempt r1 a).
Proof using Type.
  intros Hn G Hs Hb Ha. etrans; [exact G|].
  assert (Hin : shape b ∈ shapes r) by by apply (list_elem_of_fmap_2 shape).
  apply list_elem_of_lookup in Hin as [i Hi]. destruct (Forall2_lookup_l _ _ _ _ _ Hs Hi) as (y & Hy & A & B & C & D & E).
  apply list_elem_of_lookup_2, (list_elem_of_fmap shape) in Hy as (b' & -> & Hb'). apply (replace_grows r1 a b' Hb').
  destruct Ha as (A' & B' & C' & D' & E'). unfold shape_advances.
  rewrite <- A, <- B, <- C, <- D, <- E. by split_and!.
Qed.
Lemma answered_query_grows r a o at_ r' :
  shape (Query a) ∈ shapes r → answered_query r a o at_ = Ok r' → grows r r'.
Proof using Type.
  intros (b & Eb & Hin)%(list_elem_of_fmap shape) H Hn. revert Hn. change (grows r r'). unfold answered_query in H.
  apply result_bind_Ok in H as (? & _ & H). apply result_bind_Ok in H as (r1 & E1 & H).
  apply result_bind_Ok in H as (? & _ & H). apply result_bind_Ok in H as (v & Ev & H).
  apply validate_query in Ev. subst v. intros Hn.
  assert (G : grows r (replace_attempt r1 (Query (mk_EffectQueryAttempt
    (with_status (tq_base a) RESPONSE_RETAINED at_) (tq_request a) (Some o) None None)))).
  { apply (answer_grows r r1 _ b); [done|by eapply bind_acceptance_grows|by eapply bind_acceptance_shapes|done|].
    rewrite <- Eb. apply answers_shape, answered_status. }
  revert Hn. change (grows r r').
  destruct (terminal _); [by injection H as <-|]. etrans; [exact G|]. by eapply outcome_transition_grows.
Qed.
(** The answer to a commit. *)
Definition answer_commit (b : EffectCommitAttempt) (o : SignedEffectOutcome) (at_ : datetime) : CoordinationAttempt :=
  Commit (mk_EffectCommitAttempt (with_status (tc_base b) RESPONSE_RETAINED at_) (tc_request b) (tc_acceptance b)
            (Some o) None None).
Lemma answer_commit_grows r1 b o at_ : Commit b ∈ jr_attempts r1 → grows r1 (replace_attempt r1 (answer_commit b o at_)).
Proof using Type.
  intros Hin. eapply replace_grows; [exact Hin|]. apply answers_shape, answered_status.
Qed.

(** ** Rereading *)
Definition same_record (r v : CoordinationJournalRecord) : Prop :=
  jr_effect v = jr_effect r ∧ jr_transitions v = jr_transitions r ∧ shapes v = shapes r.
Lemma envelope_reread_effect e e' : envelope_reread e = Ok e' → rv_effect e' = rv_effect e.
Proof using Type. unfold envelope_reread. intros H. checks H. by injection H as <-. Qed.
Lemma attempt_reread_shape a a' : attempt_reread a = Ok a' → shape a' = shape a.
Proof using Type.
  unfold attempt_reread. destruct a as [p|c|q]; intros H.
  - apply result_bind_Ok in H as (? & _ & H). apply result_bind_Ok in H as (? & _ & H).
    apply result_bind_Ok in H as (v & Ev & H). apply validate_prepare in Ev. subst v. by injection H as <-.
  - apply result_bind_Ok in H as (? & _ & H). apply result_bind_Ok in H as (? & _ & H).
    apply result_bind_Ok in H as (? & _ & H).
    apply result_bind_Ok in H as (v & Ev & H). apply validate_commit in Ev. subst v. by injection H as <-.
  - apply result_bind_Ok in H as (? & _ & H). apply result_bind_Ok in H as (? & _ & H).
    apply result_bind_Ok in H as (v & Ev & H). apply validate_query in Ev. subst v. by injection H as <-.
Qed.
Lemma transition_validate_same t t' : CoordinationTransition_validate t = Ok t' → t' = t.
Proof using Type. unfold CoordinationTransition_validate. intros H. checks H. by injection H as <-. Qed.
Lemma record_reread_same r v : record_reread r = Ok v → same_record r v ∧ CoordinationJournalRecord_validate v = Ok v.
Proof using Type.
  unfold record_reread. intros H. apply result_bind_Ok in H as (? & _ & H).
  apply result_bind_Ok in H as (ts & Et & H). apply result_bind_Ok in H as (l & El & H).
  pose proof (validate_record _ _ H) as E. subst v. split; [|done]. split; [done|]. cbn [jr_transitions].
  apply result_mapM_Ok in Et, El. unfold shapes. cbn [jr_attempts]. split.
  - clear -Et. induction Et as [|? ? ? ? E%transition_validate_same]; congruence.
  - clear -El. induction El as [|? ? ? ? E%attempt_reread_shape]; cbn [map]; congruence.
Qed.
Lemma same_record_evolves r r' v : evolves r r' → same_record r' v → evolves r v.
Proof using Type. intros [A B C] (A' & B' & C'). split; [congruence|by rewrite B'|by rewrite C']. Qed.

(** ** What a checked record satisfies *)
Lemma history_numbered e l : ∀ n h h', history_of e n h l = Ok h' →
  ∀ i a, l !! i = Some a → at_sequence (attempt_base a) = (n + Z.of_nat i)%Z ∧ attempt_effect a = e.
Proof using Type.
  induction l as [|a l IH]; intros n h h' H i x Hx; [done|]. cbn [history_of] in H.
  apply result_bind_Ok in H as (h1 & H1 & H).
  destruct i as [|i]; [|destruct (IH _ _ _ H i x Hx); split; [lia|done]].
  injection Hx as <-. unfold history_step, closed in H1. apply result_bind_Ok in H1 as (? & E%require_Ok & H1).
  apply result_bind_Ok in H1 as (? & E'%require_Ok & _). bool_split. split; [lia|done].
Qed.
Lemma closed_bind {A} c msg (k : unit → result A) a : (u ← closed c msg; k u) = Ok a → c = true ∧ k tt = Ok a.
Proof using Type. unfold closed. apply require_bind. Qed.
Lemma closed_Ok c msg u : closed c msg = Ok u → c = true.
Proof using Type. apply require_Ok. Qed.

(** The parts of [require_legal_history]. *)
Lemma record_checks r :
  CoordinationJournalRecord_validate r = Ok r →
  ∃ h, digest_is (jr_effect_sha256 r) (jr_effect r) = Ok true
    ∧ tr_state <$> head (jr_transitions r) = Some RECEIVED
    ∧ transitions_legal 1 None (jr_transitions r) = Ok tt
    ∧ history_of (jr_effect r) 1 no_history (jr_attempts r) = Ok h
    ∧ (existsb (λ t, post_commit (tr_state t)) (jr_transitions r) = true → is_Some (latest_acceptance r))
    ∧ terminal_bound r h = Ok tt
    ∧ (Z.of_nat (length (jr_transitions r)) <= MAX_TRANSITIONS_PER_EFFECT)%Z
    ∧ (Z.of_nat (length (jr_attempts r)) <= MAX_ATTEMPTS_PER_EFFECT)%Z.
Proof using Type.
  unfold CoordinationJournalRecord_validate. intros [Hf H]%closed_bind. apply result_bind_Ok in H as (u & H & _).
  unfold require_legal_history in H.
  apply result_bind_Ok in H as (bound & Hd & H). apply closed_bind in H as [-> H]. apply closed_bind in H as [Hh H].
  apply result_bind_Ok in H as ([] & Ht & H). apply result_bind_Ok in H as (h & Ha & H).
  apply closed_bind in H as [_ H]. apply closed_bind in H as [_ H]. apply closed_bind in H as [_ H]. cbv zeta in H.
  apply closed_bind in H as [_ H]. apply closed_bind in H as [Hc H]. apply result_bind_Ok in H as (? & _ & H).
  apply result_bind_Ok in H as ([] & Htb & _). exists h. bool_split.
  split_and!; try done. intros E. cbn [andb] in *. rewrite E in *. cbn [andb] in *. bool_split. by destruct (latest_acceptance r).
Qed.
Lemma checked_numbered r : CoordinationJournalRecord_validate r = Ok r → numbered r.
Proof using Type.
  intros (h & _ & _ & _ & Hh & _)%record_checks i a Ha.
  destruct (history_numbered _ _ _ _ _ Hh _ _ Ha) as [E _]. lia.
Qed.

(** The transitions are a path of [LEGAL_TRANSITIONS] from [RECEIVED]. *)
Definition state_path (l : list CoordinationState) : Prop :=
  head l = Some RECEIVED ∧ ∀ i s t, l !! i = Some s → l !! S i = Some t → t ∈ LEGAL_TRANSITIONS s.
Lemma transitions_legal_steps l : ∀ n prior, transitions_legal n prior l = Ok tt →
  (∀ p t, prior = Some p → head l = Some t → tr_state t ∈ LEGAL_TRANSITIONS (tr_state p))
  ∧ ∀ i s t, l !! i = Some s → l !! S i = Some t → tr_state t ∈ LEGAL_TRANSITIONS (tr_state s).
Proof using Type.
  induction l as [|x l IH]; intros n prior H; [done|]. cbn [transitions_legal] in H.
  apply closed_bind in H as [_ H]. apply result_bind_Ok in H as (? & Hp & H). destruct (IH _ _ H) as [H1 H2]. split.
  - intros p t -> [= <-]. apply closed_bind in Hp as [_ Hp]. apply closed_Ok in Hp. by apply bool_decide_eq_true in Hp.
  - intros [|i] s t; cbn [lookup list_lookup]; [|apply H2]. intros [= <-] Ht. apply H1; [done|]. by destruct l.
Qed.
Lemma checked_path r : CoordinationJournalRecord_validate r = Ok r → state_path (tr_state <$> jr_transitions r).
Proof using Type.
  intros (h & _ & Hh & Ht & _)%record_checks. split; [by destruct (jr_transitions r)|].
  intros i s t Hs Hs'. rewrite list_lookup_fmap in Hs, Hs'.
  destruct (jr_transitions r !! i) eqn:E, (jr_transitions r !! S i) eqn:E'; simplify_eq/=.
  by apply (proj2 (transitions_legal_steps _ _ _ Ht) i).
Qed.
Lemma terminal_no_successor s t : terminal s = true → t ∉ LEGAL_TRANSITIONS s.
Proof using Type. destruct s; cbn; try done; intros _; apply not_elem_of_nil. Qed.
Lemma terminal_fixed r r' :
  evolves r r' → CoordinationJournalRecord_validate r' = Ok r' → terminal (jr_state r) = true →
  jr_transitions r' = jr_transitions r.
Proof using Type.
  intros [_ [l E] _] Hv Ht. destruct l as [|t l]; [by rewrite E, app_nil_r|]. exfalso.
  destruct (checked_path _ Hv) as [_ Hp]. unfold jr_state, state_of_transitions in Ht.
  destruct (last (jr_transitions r)) as [x|] eqn:Hx; [|done].
  rewrite last_lookup in Hx. apply (terminal_no_successor _ (tr_state t) Ht), (Hp (pred (length (jr_transitions r)))).
  - rewrite list_lookup_fmap, E, lookup_app_l; [by rewrite Hx|]. by apply lookup_lt_Some in Hx.
  - apply lookup_lt_Some in Hx as Hl. rewrite list_lookup_fmap, E, lookup_app_r by lia.
    by replace (S _ - _) with 0 by lia.
Qed.

(** ** Terminal records *)
Lemma history_receipt_terminal h a h' : history_receipt h a = Ok h' → h_terminal h' = h_terminal h.
Proof using Type.
  unfold history_receipt. destruct a as [p|c|q]; [|by intros [= <-]..].
  destruct (tp_receipt p); [|by intros [= <-]]. intros H. checks H. by injection H as <-.
Qed.
Lemma history_commit_terminal h a h' : history_commit h a = Ok h' → h_terminal h' = h_terminal h.
Proof using Type.
  unfold history_commit. destruct a as [p|c|q]; [by intros [= <-]| |by intros [= <-]].
  intros H. checks H. by injection H as <-.
Qed.
Definition retained_outcome (l : list CoordinationAttempt) (o : SignedEffectOutcome) : Prop :=
  ∃ a, a ∈ l ∧ attempt_outcome a = Some o.
Lemma history_outcome_terminal h a h' x :
  history_outcome h a = Ok h' → x ∈ h_terminal h' →
  x ∈ h_terminal h ∨ ∃ o, attempt_outcome a = Some o ∧ oc_disposition o = x.1 ∧ digest_of o = Ok x.2.
Proof using Type.
  unfold history_outcome. destruct (attempt_outcome a) as [o|]; [|intros [= <-]; by left].
  destruct (terminal_disposition _).
  - intros H. apply result_bind_Ok in H as (d & Hd & H). injection H as <-. cbn [h_terminal].
    intros [->|Hx]%elem_of_cons; [right; by exists o|by left].
  - destruct (_ && _); intros H; [checks H|]; injection H as <-; by left.
Qed.
Lemma history_terminal e l : ∀ n h h' x, history_of e n h l = Ok h' → x ∈ h_terminal h' →
  x ∈ h_terminal h ∨ ∃ o, retained_outcome l o ∧ oc_disposition o = x.1 ∧ digest_of o = Ok x.2.
Proof using Type.
  induction l as [|a l IH]; intros n h h' x H Hx; [injection H as <-; by left|]. cbn [history_of] in H.
  apply result_bind_Ok in H as (h1 & H1 & H). destruct (IH _ _ _ _ H Hx) as [Hx1|(o & (b & Hb & Ho) & Hd)]; cycle 1.
  { right. exists o. split; [|done]. exists b. split; [by right|done]. }
  unfold history_step in H1. apply result_bind_Ok in H1 as (? & _ & H1). apply result_bind_Ok in H1 as (? & _ & H1).
  apply result_bind_Ok in H1 as (? & _ & H1). cbv zeta in H1. apply result_bind_Ok in H1 as (h2 & E2%history_receipt_terminal & H1).
  apply result_bind_Ok in H1 as (h3 & E3%history_commit_terminal & H1). apply result_bind_Ok in H1 as (? & _ & H1).
  destruct (history_outcome_terminal _ _ _ _ H1 Hx1) as [Hx3|(o & Ho & Hd)].
  - left. by rewrite E3, E2 in Hx3.
  - right. exists o. split; [|done]. exists a. split; [by left|done].
Qed.

(** The outcome behind a terminal transition. *)
Lemma terminal_has_outcome r :
  CoordinationJournalRecord_validate r = Ok r → jr_state r ∈ [STATE_APPLIED; STATE_REJECTED] →
  ∃ o d, retained_outcome (jr_attempts r) o ∧ for_state (jr_state r) = Some (oc_disposition o)
    ∧ digest_of o = Ok d ∧ latest_evidence r = Some d.
Proof using Type.
  intros (h & _ & _ & _ & Hh & _ & Hb & _)%record_checks Hs.
  assert (H : forallb (λ t, bool_decide (t.1 = default EFFECT_APPLIED (for_state (jr_state r)))) (h_terminal h) = true
    ∧ latest_evidence r ∈ Some <$> (h_terminal h).*2).
  { unfold terminal_bound in Hb. set_unfold in Hs. destruct Hs as [E|[E|[]]]; rewrite E in Hb |- *;
      apply closed_bind in Hb as [Hf Hb]; apply closed_Ok in Hb; bool_split; by split. }
  destruct H as [Hf Hl]. apply list_elem_of_fmap in Hl as (d & Hl & Hd). apply list_elem_of_fmap in Hd as ([x d'] & -> & Hx).
  destruct (history_terminal _ _ _ _ _ _ Hh Hx) as [?%not_elem_of_nil|(o & Ho & Hd & He)]; [done|].
  exists o, d'. split_and!; [done| |done|done]. rewrite forallb_forall in Hf.
  apply list_elem_of_In in Hx. apply Hf in Hx. cbn [fst] in *. bool_split. rewrite Hd.
  set_unfold in Hs. by destruct Hs as [E|[E|[]]]; rewrite E in *; cbn in *; subst x.
Qed.

(** What a retained attempt's construction established. *)
Lemma reread_attempt r v a :
  record_reread r = Ok v → a ∈ jr_attempts v → ∃ a0, attempt_reread a0 = Ok a.
Proof using Type.
  unfold record_reread. intros H. apply result_bind_Ok in H as (? & _ & H).
  apply result_bind_Ok in H as (ts & Et & H). apply result_bind_Ok in H as (l & El & H).
  apply validate_record in H. subst v. cbn [jr_attempts]. apply result_mapM_Ok in El.
  intros [i Hi]%list_elem_of_lookup. destruct (Forall2_lookup_r _ _ _ _ _ El Hi) as (a0 & _ & Ha). by exists a0.
Qed.
Lemma and_then_true a b : and_then a b = Ok true → a = Ok true ∧ b = Ok true.
Proof using Type. unfold and_then. destruct a as [[|]|]; cbn; naive_solver. Qed.
Lemma validate_outcome_same o o' : SignedEffectOutcome_validate o = Ok o' → o' = o.
Proof using Type.
  unfold SignedEffectOutcome_validate. intros H. cbv zeta in H.
  repeat (apply result_bind_Ok in H as (? & _ & H)). by injection H as <-.
Qed.
Lemma outcome_reread_valid o o' : outcome_reread o = Ok o' → SignedEffectOutcome_validate o' = Ok o'.
Proof using Type.
  unfold outcome_reread. intros H. do 4 (apply result_bind_Ok in H as (? & _ & H)).
  pose proof (validate_outcome_same _ _ H) as E. by subst o'.
Qed.
Lemma option_reread_Some {A} (f : A → result A) o a : option_reread f o = Ok (Some a) → ∃ a0, f a0 = Ok a.
Proof using Type. unfold option_reread. destruct o as [a0|]; [|done]. intros H. apply result_bind_Ok in H as (b & Hb & [= <-]). by exists a0. Qed.

(** An answered attempt's outcome is signed, by a construction that passed. *)
Lemma status_check_answered b o reason evidence answered kind :
  status_check b (Some o) reason evidence answered kind = Ok tt → answered o = Ok true.
Proof using Type.
  unfold status_check. destruct (at_status b).
  - intros H%closed_Ok. by bool_split.
  - intros H. apply result_bind_Ok in H as (ok & Ho & H). by apply closed_bind in H as [-> _].
  - intros H%closed_Ok. by bool_split.
Qed.
Lemma answers_effect o k d e : outcome_answers o k d e = Ok true → outcome_verify o None = Ok true ∧ oc_effect o = e.
Proof using Type.
  unfold outcome_answers. intros [Hv [_ H]%and_then_true]%and_then_true. split; [done|].
  apply result_bind_Ok in H as (d' & _ & H). apply Ok_inj in H. by bool_split.
Qed.
Lemma attempt_outcome_checked a0 a o :
  attempt_reread a0 = Ok a → attempt_outcome a = Some o →
  SignedEffectOutcome_validate o = Ok o ∧ outcome_verify o None = Ok true ∧ oc_effect o = attempt_effect a
  ∧ (∀ c, a = Commit c → oc_acceptance o = tc_acceptance c).
Proof using Type.
  unfold attempt_reread. destruct a0 as [p|c|q]; intros H Ho.
  - apply result_bind_Ok in H as (? & _ & H). apply result_bind_Ok in H as (? & _ & H).
    apply result_bind_Ok in H as (v & _ & [= <-]). discriminate Ho.
  - apply result_bind_Ok in H as (? & _ & H). apply result_bind_Ok in H as (? & _ & H).
    apply result_bind_Ok in H as (o' & Eo & H). apply result_bind_Ok in H as (v & Ev & [= <-]).
    pose proof (validate_commit _ _ Ev) as E. subst v. cbn [attempt_outcome tc_outcome] in Ho. subst o'.
    apply option_reread_Some in Eo as (o0 & Eo). split; [by eapply outcome_reread_valid|].
    unfold EffectCommitAttempt_validate in Ev. cbv zeta in Ev. cbn [tc_base tc_request tc_acceptance tc_outcome tc_failure_reason tc_failure_evidence] in Ev.
    apply result_bind_Ok in Ev as (? & _ & Ev). apply result_bind_Ok in Ev as (? & _ & Ev).
    apply result_bind_Ok in Ev as (? & _ & Ev). apply result_bind_Ok in Ev as (? & _ & Ev).
    apply result_bind_Ok in Ev as (? & _ & Ev). apply result_bind_Ok in Ev as (? & _ & Ev).
    apply result_bind_Ok in Ev as ([] & Hs & _). apply status_check_answered, and_then_true in Hs as [Ha Hs].
    apply answers_effect in Ha as [Hv He]. apply Ok_inj in Hs. bool_split. split_and!; [done|done|]. by intros c' [= <-].
  - apply result_bind_Ok in H as (? & _ & H).
    apply result_bind_Ok in H as (o' & Eo & H). apply result_bind_Ok in H as (v & Ev & [= <-]).
    pose proof (validate_query _ _ Ev) as E. subst v. cbn [attempt_outcome tq_outcome] in Ho. subst o'.
    apply option_reread_Some in Eo as (o0 & Eo). split; [by eapply outcome_reread_valid|].
    unfold EffectQueryAttempt_validate in Ev. cbv zeta in Ev. cbn [tq_base tq_request tq_outcome tq_failure_reason tq_failure_evidence] in Ev.
    apply result_bind_Ok in Ev as (? & _ & Ev). apply result_bind_Ok in Ev as (? & _ & Ev).
    apply result_bind_Ok in Ev as (? & _ & Ev). apply result_bind_Ok in Ev as (? & _ & Ev).
    apply result_bind_Ok in Ev as (? & _ & Ev). apply result_bind_Ok in Ev as ([] & Hs & _).
    apply status_check_answered, answers_effect in Hs as [Hv He]. by split_and!.
Qed.

(** A terminal outcome carries the device's acknowledgment of the accepted dispatch. *)
Record Acknowledged (o : SignedEffectOutcome) (x : DurableCommitAcceptance) (k : PlcCommandAcknowledgment) : Prop := {
  ak_acceptance : oc_acceptance o = Some x;
  ak_acknowledgment : oc_acknowledgment o = Some k;
  ak_effect : ac_effect x = oc_effect o;
  ak_status : Some (pa_status k) = expected_status (oc_disposition o);
  ak_verified : acknowledgment_for x k = Ok true;
  ak_times : (dt_utc (accepted_at x) <= dt_utc (acknowledged_at k) <= dt_utc (signed_at o))%Z;
}.
Lemma outcome_acknowledged o :
  SignedEffectOutcome_validate o = Ok o → terminal_disposition (oc_disposition o) = true → ∃ x k, Acknowledged o x k.
Proof using Type.
  intros H Ht. unfold SignedEffectOutcome_validate in H. cbv zeta in H.
  do 7 (apply result_bind_Ok in H as (? & _ & H)). apply result_bind_Ok in H as ([] & H & _).
  case_bool_decide as Hn; [by rewrite Hn in Ht|]. unfold dispatched_check in H.
  apply result_bind_Ok in H as (y & Hy & H). destruct (oc_acceptance o) as [z|] eqn:Ea; [|done].
  apply closed_bind in Hy as [He Hy]. apply Ok_inj in Hy. subst y.
  apply closed_bind in H as [_ H]. apply closed_bind in H as [_ H]. apply closed_bind in H as [Hs H].
  apply closed_bind in H as [_ H]. rewrite Ht, andb_true_l, negb_involutive in Hs. bool_split. unfold status_of, acknowledgment_check in *.
  destruct (oc_acknowledgment o) as [k|] eqn:Ek; [|by destruct (oc_disposition o)].
  apply closed_bind in H as [Hc H]. apply result_bind_Ok in H as (ok & Hk & H). apply closed_Ok in H. subst ok.
  exists z, k. unfold dt_leb in Hc. bool_split. by split.
Qed.

(** The acceptances the query checks refer to are those of commit attempts. *)
Definition retained_acceptance (l : list CoordinationAttempt) (x : DurableCommitAcceptance) : Prop :=
  ∃ c, Commit c ∈ l ∧ tc_acceptance c = Some x.
Lemma dict_set_get {A} k k' (v w : A) d : dict_get k (dict_set k' v d) = Some w → w = v ∨ dict_get k d = Some w.
Proof using Type.
  induction d as [|[k0 v0] d IH]; cbn [dict_set dict_get].
  - case_bool_decide; [|done]. intros [= <-]. by left.
  - case_bool_decide as E; cbn [dict_get]; case_bool_decide as E'; intros H; auto.
    injection H as <-. by left.
Qed.
Lemma history_step_acceptances e n h a h' d x :
  history_step e n h a = Ok h' → dict_get d (h_acceptances h') = Some x →
  dict_get d (h_acceptances h) = Some x ∨ ∃ c, a = Commit c ∧ tc_acceptance c = Some x.
Proof using Type.
  unfold history_step. intros H. do 3 (apply result_bind_Ok in H as (? & _ & H)). cbv zeta in H.
  apply result_bind_Ok in H as (h1 & H1 & H). apply result_bind_Ok in H as (h2 & H2 & H).
  apply result_bind_Ok in H as (? & _ & H).
  assert (E1 : h_acceptances h1 = h_acceptances h).
  { unfold history_receipt in H1. destruct a as [p|c|q]; [|by injection H1 as <-..].
    destruct (tp_receipt p); [checks H1|]; by injection H1 as <-. }
  assert (E3 : h_acceptances h' = h_acceptances h2).
  { unfold history_outcome in H. destruct (attempt_outcome a) as [o|]; [|by injection H as <-].
    destruct (terminal_disposition _); [checks H; by injection H as <-|]. destruct (_ && _); [checks H|]; by injection H as <-. }
  rewrite E3, <- E1. unfold history_commit in H2. destruct a as [p|c|q]; [injection H2 as <-; by left| |injection H2 as <-; by left].
  do 3 (apply result_bind_Ok in H2 as (? & _ & H2)). injection H2 as <-. cbn [h_acceptances].
  destruct (tc_acceptance c) as [y|] eqn:Ey; [|by left].
  intros [->|Hx]%dict_set_get; [right; by exists c|by left].
Qed.
Lemma history_acceptances e l : ∀ n h h' d x, history_of e n h l = Ok h' → dict_get d (h_acceptances h') = Some x →
  dict_get d (h_acceptances h) = Some x ∨ retained_acceptance l x.
Proof using Type.
  induction l as [|a l IH]; intros n h h' d x H Hx; [injection H as <-; by left|]. cbn [history_of] in H.
  apply result_bind_Ok in H as (h1 & H1 & H). destruct (IH _ _ _ _ _ H Hx) as [Hx1|(c & Hc & E)].
  - destruct (history_step_acceptances _ _ _ _ _ _ _ H1 Hx1) as [?|(c & -> & E)]; [by left|right].
    exists c. split; [by left|done].
  - right. exists c. split; [by right|done].
Qed.
(** The acceptance of a dispatched query outcome is retained when it is checked. *)
Lemma history_query_acceptance e l : ∀ n h h' q o,
  history_of e n h l = Ok h' → Query q ∈ l → tq_outcome q = Some o → oc_disposition o ≠ EFFECT_NOT_DISPATCHED →
  (∀ d x, dict_get d (h_acceptances h) = Some x → False) → ∃ x, oc_acceptance o = Some x ∧ retained_acceptance l x.
Proof using Type.
  intros n h h' q o H [i Hi]%list_elem_of_lookup Ho Hd Hn.
  rewrite <- (take_drop_middle _ _ _ Hi) in H |- *. revert H. generalize (take i l) (drop (S i) l). intros l1 l2 H.
  assert (Hsplit : ∃ n1 h1, history_of e n h l1 = Ok h1 ∧ history_of e n1 h1 (Query q :: l2) = Ok h').
  { clear -H. revert n h H. induction l1 as [|a l1 IH]; intros n h H; [by exists n, h|].
    cbn [app history_of] in H |- *. apply result_bind_Ok in H as (h1 & H1 & H). rewrite H1. cbn [mbind result_bind].
    by apply (IH (n + 1)%Z h1). }
  destruct Hsplit as (n1 & h1 & H1 & H2). cbn [history_of] in H2. apply result_bind_Ok in H2 as (h2 & H2 & _).
  unfold history_step in H2. do 3 (apply result_bind_Ok in H2 as (? & _ & H2)). cbv zeta in H2.
  cbn [history_receipt history_commit mbind result_bind] in H2. apply result_bind_Ok in H2 as (? & Hq & _).
  unfold history_query in Hq. rewrite Ho, (bool_decide_eq_false_2 _ Hd) in Hq. apply result_bind_Ok in Hq as (? & _ & Hq).
  destruct (oc_acceptance o) as [z|]; [|done]. apply result_bind_Ok in Hq as (d & _ & Hq). apply closed_Ok in Hq. bool_split.
  cbn [h_acceptances] in Hq. exists z. split; [done|].
  destruct (history_acceptances _ _ _ _ _ _ _ H1 Hq) as [?|(c & Hc & E)]; [by edestruct Hn|].
  exists c. split; [|done]. apply elem_of_app. by left.
Qed.
Lemma acceptance_checked a0 c x :
  attempt_reread a0 = Ok (Commit c) → tc_acceptance c = Some x →
  acceptance_verify x None = Ok true ∧ ac_request x = tc_request c ∧ commit_verify (tc_request c) None = Ok true
  ∧ receipt_verify (cm_receipt (tc_request c)) None = Ok true.
Proof using Type.
  unfold attempt_reread. destruct a0 as [p|c0|q]; intros H Hx.
  - do 3 (apply result_bind_Ok in H as (? & _ & H)). discriminate H.
  - do 3 (apply result_bind_Ok in H as (? & _ & H)). apply result_bind_Ok in H as (v & Ev & [= ->]).
    pose proof (validate_commit _ _ Ev) as E. subst c. cbn [tc_acceptance tc_request] in *. subst.
    unfold EffectCommitAttempt_validate in Ev. cbv zeta in Ev.
    cbn [tc_base tc_request tc_acceptance tc_outcome tc_failure_reason tc_failure_evidence] in Ev.
    do 2 (apply result_bind_Ok in Ev as (? & _ & Ev)). apply result_bind_Ok in Ev as (bound & Hb & Ev).
    apply closed_bind in Ev as [-> Ev]. apply and_then_true in Hb as [_ Hb]. apply and_then_true in Hb as [Hc Hr].
    apply closed_bind in Ev as [_ Ev]. apply result_bind_Ok in Ev as (? & Ha & _).
    apply result_bind_Ok in Ha as (ok & Ha & Ev). apply closed_bind in Ev as [-> _].
    apply and_then_true in Ha as [Hv Ha]. apply and_then_true in Ha as [Hq _]. apply Ok_inj in Hq. by bool_split.
  - do 2 (apply result_bind_Ok in H as (? & _ & H)). apply result_bind_Ok in H as (v & _ & H). discriminate H.
Qed.

(** The evidence behind a record in an applied or rejected state. *)
Record TerminalEvidence (r : CoordinationJournalRecord) (o : SignedEffectOutcome) (x : DurableCommitAcceptance)
    (k : PlcCommandAcknowledgment) : Prop := {
  te_digest : ∃ d, digest_of o = Ok d ∧ latest_evidence r = Some d;
  te_disposition : for_state (jr_state r) = Some (oc_disposition o);
  te_effect : oc_effect o = jr_effect r;
  te_signed : outcome_verify o None = Ok true;
  te_acknowledged : Acknowledged o x k;
  te_accepted : retained_acceptance (jr_attempts r) x;
  te_acceptance_signed : acceptance_verify x None = Ok true;
  te_commit_signed : commit_verify (ac_request x) None = Ok true;
}.
Lemma terminal_evidence r0 r :
  record_reread r0 = Ok r → jr_state r ∈ [STATE_APPLIED; STATE_REJECTED] → ∃ o x k, TerminalEvidence r o x k.
Proof using Type.
  intros Hr Hs. pose proof (proj2 (record_reread_same _ _ Hr)) as Hv.
  destruct (terminal_has_outcome r Hv Hs) as (o & d & (a & Ha & Ho) & Hf & Hd & Hl).
  destruct (reread_attempt _ _ _ Hr Ha) as (a0 & Ha0).
  destruct (attempt_outcome_checked _ _ _ Ha0 Ho) as (Hov & Hsig & He & Hc).
  destruct (record_checks r Hv) as (h & _ & _ & _ & Hh & _).
  apply list_elem_of_lookup in Ha as Hi. destruct Hi as [i Hi]. destruct (history_numbered _ _ _ _ _ Hh _ _ Hi) as [_ Hae].
  assert (Ht : terminal_disposition (oc_disposition o) = true).
  { set_unfold in Hs. destruct Hs as [E|[E|[]]]; rewrite E in Hf; by injection Hf as <-. }
  destruct (outcome_acknowledged o Hov Ht) as (x & k & Hk).
  assert (Hx : retained_acceptance (jr_attempts r) x).
  { destruct a as [p|c|q]; [done| |].
    - exists c. split; [done|]. rewrite <- (Hc c eq_refl). by apply ak_acceptance in Hk.
    - destruct (history_query_acceptance _ _ _ _ _ q o Hh Ha Ho) as (y & Hy & ?);
        [by intros E; rewrite E in Ht|done|]. rewrite (ak_acceptance _ _ _ Hk) in Hy. by injection Hy as <-. }
  destruct Hx as (c & Hc' & Ec). destruct (reread_attempt _ _ _ Hr Hc') as (c0 & Hc0).
  destruct (acceptance_checked _ _ _ Hc0 Ec) as (V1 & V2 & V3 & _).
  exists o, x, k. split; try done; [by exists d|congruence|by exists c|by rewrite V2].
Qed.
End growth.
