(* ===== verification/CoordinationRuns.v ===== *)
(** * Runs of the coordination journals

    A journal's records load from its file as they were stored ([RecordLaws] is what
    that asks of pydantic's reader and printer).  [coherent] ties a usable writer's
    records to the file, and every operation keeps it while the file operations
    fail as the environment says: each has a [triple]. *)
From S2P Require Import Prelude PyFloat PyStr PyTime PyJson Sha256 Crypto Models PhysicalModels CapabilityModels.
From S2P Require Import DurableReplay Workload WorkloadVerifier CoordinationModels CoordinationMessages.
From S2P Require Import CoordinationRecord CoordinationJournal CoordinationOps CoordinationHistory.
From stdpp Require Import sorting.

(** Pydantic's round trip of a record: the dump keeps every field, the order of
    keys does not matter, and a record with a number that is not finite may lose
    that number only.  As for [ModelDumpLaws], a dict field is taken with its
    entries in key order. *)
Class RecordLaws `{ModelDump CoordinationJournalRecord, ModelLoad CoordinationJournalRecord} : Prop := {
  #[global] rl_dump :: ModelDumpLaws CoordinationJournalRecord;
  rl_object : ∀ r, ∃ kv, model_dump r = JObj kv;
  rl_canon : ∀ r, model_load (canon (model_dump r)) = model_load (model_dump r);
  rl_load : ∀ r, has_nan (model_dump r) = false → model_load (model_dump r) = Some r;
  rl_same : ∀ r r', model_load (model_dump r) = Some r' → same_record r r';
}.

(** Every record is still there, evolved. *)
Definition records_evolve (rs rs' : Records) : Prop :=
  ∀ k r, rs !! k = Some r → ∃ r', rs' !! k = Some r' ∧ evolves r r'.
#[export] Instance records_evolve_pre : PreOrder records_evolve.
Proof.
  split; [intros rs k r Hr; by exists r|]. intros rs1 rs2 rs3 H H' k r Hr.
  destruct (H _ _ Hr) as (r' & Hr' & E). destruct (H' _ _ Hr') as (r'' & Hr'' & E'). exists r''. split; [done|by etrans].
Qed.

Section files.
Context {ED : Ed25519} {ER : Ed25519Raw} {MD : MessageDumps} {FS : FsEnv}
  {DJ : ModelDump CoordinationJournalRecord} {LJ : ModelLoad CoordinationJournalRecord} {RL : RecordLaws}.
Variable jc : JournalConfig.

(** ** What a file holds *)
Definition retained (r : CoordinationJournalRecord) : Prop :=
  (∃ r0, record_reread r0 = Ok r) ∧ validate_role_history jc r = Ok tt.
Definition wf_records (rs : Records) : Prop := map_Forall (λ k r, effect_id (jr_effect r) = k ∧ retained r) rs.
Record Stored (rs : Records) (bytes : string) : Prop := {
  st_bytes : dumps_strict (document jc rs) = Ok bytes;
  st_records : wf_records rs;
  st_indexes : ∃ ix, action_indexes rs = Ok ix;
  st_entries : (Z.of_nat (size rs) <= MAX_ENTRIES)%Z;
  st_length : (str_len bytes <= MAX_JOURNAL_BYTES)%Z;
}.
Definition holds (d : Disk) (rs : Records) : Prop :=
  ∃ bytes, dk_entry d = EntryFile mode_0600 bytes ∧ Stored rs bytes.

Lemma retained_valid r : retained r → CoordinationJournalRecord_validate r = Ok r.
Proof using Type. intros [[r0 H] _]. by apply record_reread_same in H as [_ ?]. Qed.

Lemma elem_of_sorted rs r : r ∈ sorted_records rs ↔ ∃ k, rs !! k = Some r.
Proof using Type.
  unfold sorted_records. rewrite list_elem_of_omap. split; [intros (k & _ & ?); by exists k|].
  intros (k & Hk). exists k. split; [|done]. unfold sorted_strs. rewrite merge_sort_Permutation.
  apply list_elem_of_fmap. exists (k, r). split; [done|]. by apply elem_of_map_to_list.
Qed.
Lemma sorted_inj rs rs' : wf_records rs → wf_records rs' → sorted_records rs = sorted_records rs' → rs = rs'.
Proof using Type.
  intros W W' E.
  assert (H : ∀ a b, wf_records a → wf_records b → sorted_records a = sorted_records b →
                ∀ k r, a !! k = Some r → b !! k = Some r).
  { intros a b Wa Wb Eab k r Hr. destruct (Wa _ _ Hr) as [Hk _].
    assert (Hin : r ∈ sorted_records b) by (rewrite <- Eab; apply elem_of_sorted; by exists k).
    apply elem_of_sorted in Hin as [k' Hk']. destruct (Wb _ _ Hk') as [E' _]. congruence. }
  apply map_eq. intros k. apply option_eq. intros r. split; [by apply H|]. symmetry in E. by apply H.
Qed.

Lemma document_ok rs : json_ok (document jc rs) = true.
Proof using RL.
  unfold document. cbn [json_ok]. rewrite !andb_true_iff. split; [reflexivity|]. cbn [forallb].
  rewrite !andb_true_r. cbn [json_ok]. apply forallb_forall. intros j Hj.
  apply list_elem_of_In, list_elem_of_fmap in Hj as (r & -> & _). apply model_dump_ok.
Qed.
(** What reading the file's JSON finds under its keys. *)
Definition document_items (rs : Records) : list (string * json) :=
  [("entries", JArr (model_dump <$> sorted_records rs)); ("journal_role", JStr (role_value (jc_role jc)));
   ("owner_subject", JStr (jc_owner_subject jc)); ("schema_version", JStr SCHEMA_VERSION)].
Definition canon_items (rs : Records) : list (string * json) :=
  merge_sort key_le (map (λ '(k, x), (k, canon x)) (document_items rs)).
Lemma canon_journal rs : canon (document jc rs) = JObj (canon_items rs).
Proof using Type. reflexivity. Qed.
Lemma canon_items_lookup rs k : dict_get k (canon_items rs) = canon <$> dict_get k (document_items rs).
Proof using Type. unfold canon_items. apply dict_get_canon. by apply (bool_decide_unpack _). Qed.
Lemma canon_items_entries rs :
  dict_get "entries" (canon_items rs) = Some (JArr ((λ r, canon (model_dump r)) <$> sorted_records rs)).
Proof using Type.
  rewrite canon_items_lookup. cbn [document_items dict_get]. rewrite bool_decide_eq_true_2 by done.
  cbn [fmap option_fmap option_map canon]. do 2 f_equal. by rewrite <- list_fmap_compose.
Qed.

Lemma stored_inj rs rs' bytes : Stored rs bytes → Stored rs' bytes → rs = rs'.
Proof using RL.
  intros [E W _ _ _] [E' W' _ _ _]. apply sorted_inj; [done..|].
  unfold dumps_strict in E, E'. destruct (has_nan _); [discriminate E|]. destruct (has_nan (document jc rs')); [discriminate E'|].
  assert (D : dumps (document jc rs) = dumps (document jc rs')) by congruence.
  apply dumps_inj in D; [|by apply document_ok..]. rewrite !canon_journal in D.
  assert (D' : canon_items rs = canon_items rs') by congruence. apply (f_equal (dict_get "entries")) in D'.
  rewrite !canon_items_entries in D'. assert (D2 : (λ r, canon (model_dump r)) <$> sorted_records rs
    = (λ r, canon (model_dump r)) <$> sorted_records rs') by congruence.
  revert D2. clear -RL. generalize (sorted_records rs) (sorted_records rs').
  induction l as [|a l IH]; intros [|b l'] H; [done|discriminate H..|]. cbn [fmap list_fmap] in H.
  injection H as Hab Hl. apply model_dump_inj in Hab. f_equal; [done|by apply IH].
Qed.
Lemma held_records_inj d rs rs' : holds d rs → holds d rs' → rs = rs'.
Proof using RL. intros (b & E & H) (b' & E' & H'). rewrite E in E'. injection E' as <-. by eapply stored_inj. Qed.

(** ** Loading *)
Lemma load_entry_retained prior j r : load_entry jc prior j = Ok r → retained r.
Proof using Type.
  unfold load_entry. destruct j as [| | | | |l|kv]; try discriminate. intros H.
  apply result_bind_Ok in H as (b & _ & H). apply result_bind_Ok in H as (r1 & Hr & H).
  apply result_bind_Ok in H as ([] & Hv & H). apply result_bind_Ok in H as (? & _ & H). apply Ok_inj in H. subst r1.
  split; [|done]. unfold record_of_json in Hr. destruct (model_load _) as [r0|]; [by exists r0|done].
Qed.
Lemma loaded_wf entries : ∀ prior rs rs',
  wf_records rs → load_entries jc prior rs entries = Ok rs' →
  wf_records rs' ∧ (size rs' <= size rs + length entries)%nat.
Proof using Type.
  induction entries as [|j l IH]; intros prior rs rs' W H; [injection H as <-; split; [done|cbn; lia]|].
  cbn [load_entries] in H. apply result_bind_Ok in H as (r & Hr%load_entry_retained & H).
  apply IH in H as [W' Hs]; [|by apply map_Forall_insert_2].
  split; [done|]. cbn [length]. etrans; [exact Hs|].
  rewrite map_size_insert. destruct (rs !! _); unfold id; lia.
Qed.
Lemma as_journal_error_Ok {A} (r : result A) msg a : as_journal_error r msg = Ok a → r = Ok a.
Proof using Type. unfold as_journal_error. destruct r as [x|e]; [done|]. by repeat case_match. Qed.
Lemma load_document_stored material rs :
  load_document jc material = Ok rs → (str_len material <= MAX_JOURNAL_BYTES)%Z → Stored rs material.
Proof using Type.
  unfold load_document. intros H Hlen. apply result_bind_Ok in H as (parsed & _ & H).
  destruct parsed as [| | | | |l|kv]; try discriminate H.
  do 3 (apply result_bind_Ok in H as (? & _ & H)). apply result_bind_Ok in H as (rs1 & Hrs & H).
  apply result_bind_Ok in H as (b & Hb%as_journal_error_Ok & H). apply result_bind_Ok in H as ([] & Hc & H).
  apply Ok_inj in H. subst rs1. unfold ensure in Hc. case_bool_decide as Hm; [|discriminate Hc]. subst material.
  destruct (dict_get "entries" kv) as [[| | | | |entries|]|]; try discriminate Hrs.
  apply result_bind_Ok in Hrs as ([] & Hn & Hrs). apply as_journal_error_Ok in Hrs.
  apply result_bind_Ok in Hrs as (rs2 & Hl & Hrs). apply result_bind_Ok in Hrs as (ix & Hix & Hrs).
  apply Ok_inj in Hrs. subst rs2. apply loaded_wf in Hl as [W Hs]; [|apply map_Forall_empty].
  unfold ensure in Hn. destruct (_ <=? _)%Z eqn:Hle; [|discriminate Hn]. apply Z.leb_le in Hle.
  rewrite map_size_empty in Hs. split; [done|done|by exists ix|lia|done].
Qed.

(** ** What an operation may do to a journal and its file *)
(** The records of a usable journal that has the lock are the file's. *)
Definition coherent (s : JournalState) : Prop :=
  jn_unusable s.1 = false → is_Some (jn_writer s.1) → holds s.2 (jn_records s.1).
(** The lock is where it was and without it nothing changes; from a coherent
    state, the state is coherent and what the file held it still holds, evolved. *)
Record advances (s s' : JournalState) : Prop := {
  av_writer : jn_writer s'.1 = jn_writer s.1;
  av_locked : dk_locked s'.2 = dk_locked s.2;
  av_closed : jn_writer s.1 = None → s' = s;
  av_coherent : coherent s → coherent s';
  av_file : ∀ rs, coherent s → holds s.2 rs → ∃ rs', holds s'.2 rs' ∧ records_evolve rs rs';
}.
#[local] Instance advances_pre : PreOrder advances.
Proof using Type.
  split; [intros s; split; try done; intros rs _ H; by exists rs|]. intros s1 s2 s3 [A B O C D] [A' B' O' C' D'].
  split; [congruence..| |auto|].
  { intros N. rewrite O' by congruence. by apply O. } intros rs Hc Hh. destruct (D _ Hc Hh) as (rs' & Hh' & E).
  destruct (D' _ (C Hc) Hh') as (rs'' & ? & E'). exists rs''. split; [done|by etrans].
Qed.

(** [{P} m {Q}] from coherent states: [m] advances, and ends in [Q] unless it raises. *)
Definition triple {A} (P : JournalState → Prop) (m : M JournalState A) (Q : A → JournalState → Prop) : Prop :=
  ∀ s r s', coherent s → P s → m s = (r, s') → advances s s' ∧ ∀ a, r = Ok a → Q a s'.

Lemma triple_ret {A} (P : JournalState → Prop) (a : A) : triple P (mret a) (λ b s, b = a ∧ P s).
Proof using Type. intros s r s' _ HP [= <- <-]. split; [done|]. by intros b [= <-]. Qed.
Lemma triple_lift {A} (P : JournalState → Prop) (x : result A) : triple P (lift x) (λ a s, x = Ok a ∧ P s).
Proof using Type. intros s r s' _ HP [= <- <-]. split; [done|]. by intros a ->. Qed.
Lemma triple_bind {A B} P (m : M JournalState A) (k : A → M JournalState B) Q Q' :
  triple P m Q → (∀ a, triple (Q a) (k a) Q') → triple P (a ← m; k a) Q'.
Proof using Type.
  intros Hm Hk s r s' Hc HP H. apply M_bind_case in H as [(e & -> & H)|(a & s1 & H1 & H2)].
  - destruct (Hm _ _ _ Hc HP H) as [? _]. split; [done|]. discriminate.
  - destruct (Hm _ _ _ Hc HP H1) as [A1 HQ]. destruct (Hk a _ _ _ (av_coherent _ _ A1 Hc) (HQ _ eq_refl) H2) as [A2 ?].
    split; [by etrans|done].
Qed.
Lemma triple_weaken {A} (P P' : JournalState → Prop) (m : M JournalState A) (Q Q' : A → JournalState → Prop) :
  (∀ s, P' s → P s) → (∀ a s, Q a s → Q' a s) → triple P m Q → triple P' m Q'.
Proof using Type. intros HP HQ H s r s' Hc HP' E. destruct (H s r s' Hc (HP _ HP') E) as [? HQ']. split; [done|auto]. Qed.
Lemma triple_post {A} (P : JournalState → Prop) (m : M JournalState A) (Q Q' : A → JournalState → Prop) :
  triple P m Q → (∀ a s, Q a s → Q' a s) → triple P m Q'.
Proof using Type. intros H HQ. by eapply triple_weaken; [|exact HQ|exact H]. Qed.
Lemma triple_pure {A} (φ : Prop) P (m : M JournalState A) Q : (φ → triple P m Q) → triple (λ s, φ ∧ P s) m Q.
Proof using Type. intros H s r s' Hc [Hφ HP]. by apply H. Qed.
(** A computation that raises or one whose result is checked. *)
Lemma triple_lift_bind {A B} P (x : result A) (k : A → M JournalState B) Q :
  (∀ a, x = Ok a → triple P (k a) Q) → triple P (a ← lift x; k a) Q.
Proof using Type. intros H. eapply triple_bind; [apply triple_lift|]. intros a. apply triple_pure, H. Qed.
Lemma triple_raise {A} P e Q : triple P (lift (Raise e : result A)) Q.
Proof using Type. eapply triple_post; [apply triple_lift|]. intros a s [[=] _]. Qed.

(** ** Reading and storing *)
Variable pid : Z.
(** The usable writer's state. *)
Definition live (rs : Records) (s : JournalState) : Prop :=
  jn_unusable s.1 = false ∧ jn_writer s.1 = Some pid ∧ jn_records s.1 = rs ∧ holds s.2 rs.
Lemma assert_writer_run s r s' :
  assert_writer pid s = (r, s') → s' = s ∧ (r = Ok tt → jn_unusable s.1 = false ∧ jn_writer s.1 = Some pid).
Proof using Type.
  unfold assert_writer, journal_error. destruct (jn_unusable _); [by intros [= <- <-]|].
  destruct (jn_writer _) as [o|]; [|by intros [= <- <-]]. destruct (o =? pid)%Z eqn:E; [|by intros [= <- <-]].
  intros [= <- <-]. apply Z.eqb_eq in E as ->. done.
Qed.
Lemma triple_current (P : JournalState → Prop) : triple P (current_records pid) (λ rs s, live rs s ∧ P s).
Proof using Type.
  intros s r s' Hc HP H. unfold current_records in H. apply M_bind_case in H as [(e & -> & H)|([] & s1 & H1 & H2)].
  - apply assert_writer_run in H as [-> _]. split; [done|]. discriminate.
  - apply assert_writer_run in H1 as [-> Hw]. destruct (Hw eq_refl) as [U W]. injection H2 as <- <-. split; [done|].
    intros rs [= <-]. split; [|done]. split_and!; [done..|]. apply Hc; [done|by rewrite W].
Qed.

Lemma validated_record_retained r v : validated_record jc r = Ok v → same_record r v ∧ retained v.
Proof using RL.
  unfold validated_record. intros H. apply result_bind_Ok in H as (w & Hw & H). apply result_bind_Ok in H as ([] & Hv & H).
  apply Ok_inj in H. subst w. unfold record_of_json in Hw. destruct (model_load _) as [r0|] eqn:E; [|by repeat case_match].
  apply rl_same in E as (E1 & E2 & E3). destruct (record_reread r0) as [v0|e] eqn:Er; [|by repeat case_match].
  apply Ok_inj in Hw. subst v0. pose proof (record_reread_same _ _ Er) as [(F1 & F2 & F3) _].
  split; [|split; [by exists r0|done]]. split_and!; congruence.
Qed.

Definition made_unusable (j : Journal) : Journal := mk_Journal (jn_writer j) (jn_records j) true.
(** A replacement ends in the new file, or fails with the old or the new one and
    an unusable journal. *)
Lemma replace_file_run material s r s' :
  replace_file material s = (r, s') →
  let d := set_entry (EntryFile mode_0600 material) s.2 in
  (r = Ok tt ∧ s' = (s.1, next_step d))
  ∨ (∃ e, r = Raise e) ∧ s'.1 = made_unusable s.1 ∧ (s'.2 = next_step s.2 ∨ s'.2 = next_step d).
Proof using Type.
  unfold replace_file, mbind, M_bind, get, on_disk, zoom, modify, set_unusable, throw, raise_.
  destruct s as [j d]. cbn [fst snd]. destruct (write_outcome _); intros [= <- <-]; cbn [fst snd];
    [by left|right; split_and!; [by eexists|done|auto]..].
Qed.
Lemma check_parent_same d : (check_parent d).2 = d.
Proof using Type. done. Qed.
Lemma ensure_true c msg : ensure c msg = Ok tt → c = true.
Proof using Type. by destruct c. Qed.
Lemma persist_run rs s r s' :
  journal_persist jc pid rs s = (r, s') →
  (s' = s ∧ ∃ e, r = Raise e)
  ∨ ∃ material, dumps_strict (document jc rs) = Ok material ∧ (Z.of_nat (size rs) <= MAX_ENTRIES)%Z
    ∧ (str_len material <= MAX_JOURNAL_BYTES)%Z ∧ replace_file material s = (r, s').
Proof using Type.
  unfold journal_persist. intros H.
  apply M_bind_case in H as [(e & -> & H)|([] & s1 & H1 & H)]; [left; apply assert_writer_run in H as [-> _]; eauto|].
  apply assert_writer_run in H1 as [-> _].
  apply M_bind_case in H as [(e & -> & H)|([] & s1 & H1 & H)].
  { left. apply zoom_run in H as (d & H & ->). split; [|eauto]. assert (E := check_parent_same s.2). rewrite H in E.
    cbn in E. subst d. by destruct s. }
  apply zoom_run in H1 as (d & H1 & ->). assert (E := check_parent_same s.2). rewrite H1 in E. cbn in E. subst d.
  destruct s as [j d]. cbn [fst snd] in *.
  apply M_bind_case in H as [(e & -> & [= _ <-])|([] & s1 & [E1%ensure_true ->]%lift_Ok & H)]; [left; eauto|].
  apply M_bind_case in H as [(e & -> & [= _ <-])|(m & s1 & [E2 ->]%lift_Ok & H)]; [left; eauto|].
  apply M_bind_case in H as [(e & -> & [= _ <-])|([] & s1 & [E3%ensure_true ->]%lift_Ok & H)]; [left; eauto|].
  right. exists m. apply Z.leb_le in E1, E3. done.
Qed.

(** Storing an evolved or a new record. *)
Lemma triple_store rs r :
  (∀ r0, rs !! effect_id (jr_effect r) = Some r0 → evolves r0 r) →
  triple (live rs) (store_record jc pid r)
    (λ v s, live (<[effect_id (jr_effect r) := v]> rs) s ∧ same_record r v ∧ retained v).
Proof using RL.
  intros Hev. unfold store_record. apply triple_lift_bind. intros v Hv.
  destruct (validated_record_retained _ _ Hv) as [Hs Hr]. clear Hv. destruct (Hs) as (Heq & _).
  intros s res s' Hc (U & W & Hrs & Hh) H.
  apply M_bind_case in H as [(? & _ & [=])|(s0 & s1 & [= <- <-] & H)]. rewrite Hrs in H. cbv zeta in H.
  rewrite Heq in H. set (candidate := <[_ := v]> rs) in *.
  apply M_bind_case in H as [(e & -> & [= _ <-])|(ix & s1 & [Hix ->]%lift_Ok & H)]; [by split|].
  assert (Hgrow : records_evolve rs candidate).
  { intros k r0 Hk. unfold candidate. destruct (decide (k = effect_id (jr_effect r))) as [->|Hne].
    - exists v. rewrite lookup_insert_eq. split; [done|]. eapply same_record_evolves; [by apply Hev|done].
    - exists r0. rewrite lookup_insert_ne by done. done. }
  assert (Hwf : wf_records candidate).
  { apply map_Forall_insert_2; [split; [by rewrite Heq|done]|]. by destruct Hh as (? & _ & [_ ? _ _ _]). }
  assert (Hfile : ∀ m j d, Stored candidate m → dk_entry d = EntryFile mode_0600 m → dk_locked d = dk_locked s.2 →
    jn_writer j = Some pid → (jn_unusable j = false → jn_records j = candidate) → advances s (j, d)).
  { intros m j d Hst Ed El Ew Ej. assert (Hd : holds d candidate) by by exists m. split; cbn [fst snd]; [congruence|done|congruence| |].
    - intros _ U' _. cbn [fst snd] in *. by rewrite (Ej U').
    - intros rs' _ Hh'. rewrite (held_records_inj _ _ _ Hh' Hh). by exists candidate. }
  assert (Hst : ∀ m, dumps_strict (document jc candidate) = Ok m → (Z.of_nat (size candidate) <= MAX_ENTRIES)%Z →
    (str_len m <= MAX_JOURNAL_BYTES)%Z → Stored candidate m) by (intros m; split; [done|done|by exists ix|done|done]).
  apply M_bind_case in H as [(e & -> & H)|([] & t & H1 & H)].
  - split; [|done]. apply persist_run in H as [[-> _]|(m & Em & E1 & E2 & Hm)]; [done|].
    apply replace_file_run in Hm as [[[=] _]|(_ & Ej & Ed)]. destruct s' as [j d]. cbn [fst snd] in *. subst j.
    destruct Ed as [->| ->]; [|by apply (Hfile m); [by apply Hst|..]].
    split; cbn [fst snd]; [done|done|congruence|done|]. intros rs' _ (m' & Hm' & ?). exists rs'. split; [by exists m'|done].
  - apply persist_run in H1 as [[_ [e [=]]]|(m & Em & E1 & E2 & Hm)].
    apply replace_file_run in Hm as [[_ ->]|([e [=]] & _)]. injection H as <- <-. cbn [fst snd jn_writer jn_unusable].
    split; [by apply (Hfile m); [by apply Hst|..]|]. intros v' [= <-]. split; [|done].
    split_and!; [done..|]. exists m. split; [done|by apply Hst].
Qed.

(** ** The operations *)
Lemma triple_begin {A} P (k : Records → M JournalState A) Q :
  (∀ rs, wf_records rs → triple (λ s, live rs s ∧ P s) (k rs) Q) → triple P (rs ← current_records pid; k rs) Q.
Proof using Type.
  intros H. eapply triple_bind; [apply triple_current|]. intros rs s r s' Hc [Hl HP] Hr.
  assert (W : wf_records rs) by by destruct Hl as (_ & _ & _ & b & _ & [_ ? _ _ _]). by apply (H rs W s r s').
Qed.
Lemma lookup_effect_Ok rs e r : lookup_effect rs e = Ok (Some r) → rs !! effect_id e = Some r ∧ jr_effect r = e.
Proof using Type.
  unfold lookup_effect, no_collision. destruct (rs !! _) as [r'|]; [|done]. case_bool_decide; [|done]. by intros [= ->].
Qed.
Lemma find_effect_Ok rs e msg r : find_effect rs e msg = Ok r → rs !! effect_id e = Some r ∧ jr_effect r = e.
Proof using Type.
  unfold find_effect. intros H. apply result_bind_Ok in H as ([r'|] & Hl & H); [|discriminate H].
  apply Ok_inj in H. subst r'. by apply lookup_effect_Ok.
Qed.
Lemma wf_numbered rs k r : wf_records rs → rs !! k = Some r → numbered r.
Proof using Type. intros W H. apply checked_numbered. destruct (W _ _ H) as [_ R]. by apply retained_valid in R. Qed.

(** Nothing more happens. *)
Lemma triple_done {A} P (m : M JournalState A) : (∀ s, (m s).2 = s) → triple P m (λ _ _, True).
Proof using Type. intros H s r s' _ _ E. specialize (H s). rewrite E in H. cbn in H. by subst s'. Qed.
Lemma triple_store_grown rs r u :
  wf_records rs → rs !! effect_id (jr_effect r) = Some r → grows r u →
  triple (live rs) (store_record jc pid u)
    (λ v s, live (<[effect_id (jr_effect r) := v]> rs) s ∧ evolves r v ∧ same_record u v).
Proof using RL.
  intros W Hr G. destruct (G (wf_numbered _ _ _ W Hr)) as [_ E]. pose proof (ev_effect _ _ E) as Ee.
  eapply triple_post.
  - apply triple_store. rewrite Ee. intros r0 Hr0. rewrite Hr in Hr0. by injection Hr0 as <-.
  - rewrite Ee. intros v s (Hl & Hs & _). split; [done|]. split; [by eapply same_record_evolves|done].
Qed.
(** The shape of most operations: find the record, compute an update, store it. *)
Lemma triple_update P rs r (x : result CoordinationJournalRecord) :
  wf_records rs → rs !! effect_id (jr_effect r) = Some r → (∀ u, x = Ok u → grows r u) →
  triple (λ s, live rs s ∧ P s) (u ← lift x; store jc pid u) (λ _ _, True).
Proof using RL.
  intros W Hr G. apply triple_lift_bind. intros u Hu.
  eapply triple_weaken; [by intros s [? _]| |apply (triple_store_grown rs r u W Hr (G _ Hu))]. done.
Qed.
(** Walks an operation that finds a record [r] and may end without storing. *)
Ltac operation :=
  repeat first
    [ apply triple_begin; intros ? ?
    | match goal with |- triple _ (_ ← lift (find_effect _ _ _); _) _ => fail 1 end
    | apply triple_lift_bind; intros ? ?
    | solve [apply triple_done; done] ].
(** Finds the record. *)
Lemma triple_find {A} P rs e msg (k : CoordinationJournalRecord → M JournalState A) Q :
  (∀ r, rs !! effect_id (jr_effect r) = Some r → jr_effect r = e → triple P (k r) Q) →
  triple P (r ← lift (find_effect rs e msg); k r) Q.
Proof using Type. intros H. apply triple_lift_bind. intros r [Hl He]%find_effect_Ok. apply H; [by rewrite He|done]. Qed.

Lemma no_collision_true c msg u : no_collision c msg = Ok u → c = true.
Proof using Type. by destruct c. Qed.
Lemma legal_true c msg u : legal c msg = Ok u → c = true.
Proof using Type. by destruct c. Qed.
(** An attempt whose delivery failed. *)
Lemma failed_grows r (a b : CoordinationAttempt) reason evidence at_ msg u :
  b ∈ jr_attempts r → shape_advances (shape b) (shape a) →
  (let updated := replace_attempt r a in
   if bool_decide (jr_state updated = COMMIT_ACCEPTED)
   then transition updated STATE_UNKNOWN_EFFECT evidence reason at_
   else _ ← legal (bool_decide (jr_state updated ∈ [DISPATCH_ARMED; STATE_UNKNOWN_EFFECT])) msg; Ok updated) = Ok u →
  grows r u.
Proof using Type.
  intros Hb Ha H. assert (G : grows r (replace_attempt r a)) by by eapply replace_grows.
  cbv zeta in H. case_bool_decide; [etrans; [exact G|by eapply transition_grows]|].
  apply result_bind_Ok in H as (? & _ & H). by injection H as <-.
Qed.
Lemma fails_shape k b at_ :
  at_status b ≠ RESPONSE_RETAINED → at_status b ≠ OUTCOME_UNKNOWN →
  shape_advances (k, b) (k, with_status b OUTCOME_UNKNOWN at_).
Proof using Type. intros. apply answers_shape. destruct (at_status b); [by right; left|done|done]. Qed.
Lemma triple_mark_unknown P q reason evidence recorded now :
  triple P (mark_commit_unknown_record jc pid q reason evidence recorded now) (λ _ _, True).
Proof using RL.
  unfold mark_commit_unknown_record. apply triple_begin. intros rs W. apply triple_find. intros r Hr He.
  apply triple_lift_bind. intros d _. destruct (commit_attempt r d) as [c|] eqn:Hc; [|operation].
  apply commit_attempt_In in Hc. apply triple_lift_bind. intros _ _. apply triple_lift_bind. intros _ E%no_collision_true.
  bool_split. case_bool_decide as Hs; [operation|]. apply triple_update with (r := r); [done..|]. intros u Hu.
  apply result_bind_Ok in Hu as (at_ & _ & Hu). apply result_bind_Ok in Hu as (a & ->%validate_commit & Hu).
  eapply failed_grows; [exact Hc| |exact Hu]. by apply fails_shape.
Qed.
Lemma triple_fail_query P q reason evidence recorded now :
  triple P (fail_query_record jc pid q reason evidence recorded now) (λ _ _, True).
Proof using RL.
  unfold fail_query_record. apply triple_begin. intros rs W. apply triple_find. intros r Hr He.
  apply triple_lift_bind. intros d _. destruct (query_attempt r d) as [c|] eqn:Hc; [|operation].
  apply query_attempt_In in Hc. apply triple_lift_bind. intros _ _. apply triple_lift_bind. intros _ E%no_collision_true.
  bool_split. case_bool_decide as Hs; [operation|]. apply triple_update with (r := r); [done..|]. intros u Hu.
  apply result_bind_Ok in Hu as (at_ & _ & Hu). apply result_bind_Ok in Hu as (a & ->%validate_query & Hu).
  eapply failed_grows; [exact Hc| |exact Hu]. by apply fails_shape.
Qed.
Lemma triple_finish_commit P q o recorded now :
  triple P (finish_commit_record jc pid q o recorded now) (λ _ _, True).
Proof using RL.
  unfold finish_commit_record. apply triple_begin. intros rs W. apply triple_lift_bind. intros _ _.
  apply triple_find. intros r Hr He. apply triple_lift_bind. intros d _.
  destruct (commit_attempt r d) as [c|] eqn:Hc; [|operation]. cbv zeta. case_bool_decide as Hs; [operation|].
  apply triple_update with (r := r); [done..|]. intros u Hu.
  apply result_bind_Ok in Hu as (_ & _ & Hu). apply result_bind_Ok in Hu as (at_ & _ & Hu).
  apply result_bind_Ok in Hu as (r1 & Hb & Hu). apply result_bind_Ok in Hu as (b & Eb & Hu).
  apply result_bind_Ok in Hu as (a & ->%validate_commit & Hu).
  destruct (commit_attempt r1 d) as [b'|] eqn:Hc1; [|discriminate Eb]. apply commit_attempt_In in Hc1.
  apply result_bind_Ok in Eb as (_ & _ & Eb). apply Ok_inj in Eb. subst b'.
  etrans; [by eapply bind_acceptance_grows|]. etrans; [|by eapply outcome_transition_grows].
  by apply (answer_commit_grows r1 b o at_).
Qed.
Lemma triple_close P e reason evidence recorded now :
  triple P (close_not_dispatched jc pid e reason evidence recorded now) (λ _ _, True).
Proof using RL.
  unfold close_not_dispatched. apply triple_begin. intros rs W. apply triple_find. intros r Hr He.
  destruct (terminal _); [operation|]. apply triple_update with (r := r); [done..|]. intros u Hu.
  apply result_bind_Ok in Hu as (at_ & _ & Hu). by eapply transition_grows.
Qed.
Lemma triple_retain_preparation P q c recorded :
  triple P (retain_preparation jc pid q c recorded) (λ _ _, True).
Proof using RL.
  unfold retain_preparation. apply triple_begin. intros rs W. apply triple_lift_bind. intros _ _.
  apply triple_find. intros r Hr He. apply triple_lift_bind. intros d _.
  destruct (prepare_attempt r d) as [a|] eqn:Ha; [|operation]. apply prepare_attempt_In in Ha.
  destruct (tp_receipt a) eqn:Et; [operation|]. apply triple_update with (r := r); [done..|]. intros u Hu.
  apply result_bind_Ok in Hu as (_ & _ & Hu). apply result_bind_Ok in Hu as (at_ & _ & Hu).
  apply result_bind_Ok in Hu as (x & ->%validate_prepare & Hu). etrans; [|by eapply arm_grows].
  eapply replace_grows; [exact Ha|]. apply answers_shape, answered_status.
Qed.

(** A first record of an effect. *)
Lemma first_record_effect q d ts status receipt at_ r :
  first_record q d ts status receipt at_ = Ok r → jr_effect r = rv_effect (pr_envelope q).
Proof using Type.
  unfold first_record. intros H. do 3 (apply result_bind_Ok in H as (? & _ & H)). apply validate_record in H. by subst r.
Qed.
Lemma lookup_effect_None rs e : lookup_effect rs e = Ok None → rs !! effect_id e = None.
Proof using Type. unfold lookup_effect, no_collision. destruct (rs !! _); [|done]. by case_bool_decide. Qed.
Lemma triple_store_new P rs e x :
  lookup_effect rs e = Ok None → (∀ r, x = Ok r → jr_effect r = e) →
  triple (λ s, live rs s ∧ P s) (r ← lift x; store jc pid r) (λ _ _, True).
Proof using RL.
  intros Hn%lookup_effect_None Hx. apply triple_lift_bind. intros r Hr. apply Hx in Hr.
  eapply triple_weaken; [by intros s [? _]| |apply (triple_store rs r)]; [done|]. intros r0. by rewrite Hr, Hn.
Qed.
Lemma triple_gateway_begin P q recorded now : triple P (gateway_begin jc pid q recorded now) (λ _ _, True).
Proof using RL.
  unfold gateway_begin. apply triple_begin. intros rs W. apply triple_lift_bind. intros [r|] Hl; apply triple_lift_bind; intros d _.
  - apply lookup_effect_Ok in Hl as [Hr He]. destruct (prepare_attempt r d); [operation|].
    apply triple_update with (r := r); [done|by rewrite He|]. intros u Hu.
    apply result_bind_Ok in Hu as (_ & _ & Hu). apply result_bind_Ok in Hu as (_ & _ & Hu).
    apply result_bind_Ok in Hu as (at_ & _ & Hu). apply result_bind_Ok in Hu as (a & ->%validate_prepare & Hu).
    injection Hu as <-. by apply add_grows.
  - eapply triple_store_new; [exact Hl|]. intros r Hr.
    apply result_bind_Ok in Hr as (_ & _ & Hr). apply result_bind_Ok in Hr as (at_ & _ & Hr). by apply first_record_effect in Hr.
Qed.
Lemma prepared_record_grows r q d c at_ u : prepared_record (Some r) q d c at_ = Ok u → grows r u.
Proof using Type.
  unfold prepared_record. destruct (prepare_attempt r d) as [a|] eqn:Ha; intros H.
  - apply prepare_attempt_In in Ha. apply result_bind_Ok in H as (x & ->%validate_prepare & H).
    etrans; [|by eapply arm_grows]. eapply replace_grows; [exact Ha|]. apply answers_shape, answered_status.
  - apply result_bind_Ok in H as (x & ->%validate_prepare & H). injection H as <-. by apply add_grows.
Qed.
Lemma triple_prepare_effect P q issue recorded now :
  triple P (prepare_effect jc pid q issue recorded now) (λ _ _, True).
Proof using RL.
  unfold prepare_effect. apply triple_begin. intros rs W. apply triple_lift_bind. intros known Hl.
  apply triple_lift_bind. intros d _. cbv zeta. case_match; [operation|].
  apply triple_lift_bind. intros _ _. apply triple_lift_bind. intros at_ _. apply triple_lift_bind. intros c _.
  apply triple_lift_bind. intros _ _. apply triple_lift_bind. intros r Hr.
  apply (triple_bind _ _ _ (λ _ _, True)); [|intros v; by apply triple_done].
  destruct known as [r0|].
  - apply lookup_effect_Ok in Hl as [Hk He]. eapply triple_weaken; [by intros s [? _]| |apply (triple_store_grown rs r0)];
      [done|done|by rewrite He|by eapply prepared_record_grows].
  - apply lookup_effect_None in Hl. unfold prepared_record in Hr. apply result_bind_Ok in Hr as (cd & _ & Hr).
    apply first_record_effect in Hr. eapply triple_weaken; [by intros s [? _]| |apply (triple_store rs r)]; [done|].
    intros r0. by rewrite Hr, Hl.
Qed.

(** ** Queries *)
(** The journal holds the record, and the record the attempt. *)
Definition queried (ra : CoordinationJournalRecord * EffectQueryAttempt) (s : JournalState) : Prop :=
  ∃ rs, wf_records rs ∧ live rs s ∧ rs !! effect_id (jr_effect ra.1) = Some ra.1 ∧ shape (Query ra.2) ∈ shapes ra.1.
Lemma live_wf rs s : live rs s → wf_records rs.
Proof using Type. by intros (_ & _ & _ & b & _ & [_ ? _ _ _]). Qed.
Lemma query_attempt_shape r d a : query_attempt r d = Some a → shape (Query a) ∈ shapes r.
Proof using Type. intros H%query_attempt_In. by apply (list_elem_of_fmap_2 shape) in H. Qed.
Lemma triple_begin_query P q recorded now allow :
  triple P (begin_query_record jc pid q recorded now allow) queried.
Proof using RL.
  unfold begin_query_record. apply triple_begin. intros rs W. apply triple_find. intros r Hr He.
  apply triple_lift_bind. intros d _. destruct (query_attempt r d) as [a|] eqn:Ha.
  { eapply triple_post; [apply triple_ret|]. intros ra s (-> & Hl & _). exists rs.
    split_and!; [done..|by eapply query_attempt_shape]. }
  apply triple_lift_bind. intros [u a] Hu. cbn [fst snd]. unfold query_intent in Hu. cbv zeta in Hu.
  do 4 (apply result_bind_Ok in Hu as (_ & _ & Hu)).
  apply result_bind_Ok in Hu as (at_ & _ & Hu). apply result_bind_Ok in Hu as (x & ->%validate_query & Hu).
  injection Hu as <- <-. set (a := mk_EffectQueryAttempt _ _ _ _ _).
  assert (G : grows r (add_attempt r (Query a))) by by apply add_grows.
  destruct (G (wf_numbered _ _ _ W Hr)) as [_ E]. eapply triple_bind.
  - eapply triple_weaken; [by intros s [? _]|intros v s H; exact H|apply (triple_store rs)]. cbn [add_attempt with_attempts jr_effect].
    intros r0 Hr0. rewrite Hr in Hr0. by injection Hr0 as <-.
  - intros v. eapply triple_post; [apply triple_ret|]. intros ra s (-> & Hl & (Ev & _ & Es) & Hv). cbn [fst snd].
    cbn [add_attempt with_attempts jr_effect] in *. eexists. split; [by eapply live_wf|]. split; [exact Hl|]. split.
    + cbn [fst]. rewrite Ev. by rewrite lookup_insert_eq.
    + cbn [fst snd]. rewrite Es. unfold shapes. cbn [add_attempt with_attempts jr_attempts]. rewrite map_app. apply elem_of_app. right.
      by apply list_elem_of_singleton.
Qed.
Lemma triple_complete_query P q o recorded now create :
  triple P (complete_query_record jc pid q o recorded now create) (λ _ _, True).
Proof using RL.
  unfold complete_query_record. apply triple_begin. intros rs W. apply triple_lift_bind. intros _ _.
  apply triple_find. intros r Hr He. apply triple_lift_bind. intros _ _. apply triple_lift_bind. intros at_ _.
  apply triple_lift_bind. intros d _. apply (triple_bind _ _ _ queried).
  { destruct (query_attempt r d) as [a|] eqn:Ha.
    - eapply triple_post; [apply triple_ret|]. intros ra s (-> & Hl & _). exists rs.
      split_and!; [done..|by eapply query_attempt_shape].
    - destruct create; [apply triple_begin_query|]. apply triple_raise. }
  intros [r1 a]. destruct (at_status (tq_base a)) eqn:Hs; [|operation..].
  intros s res s' Hc (rs1 & W1 & Hl & Hr1 & Hin). cbn [fst snd] in Hr1, Hin.
  apply (triple_update (λ _, True) rs1 r1); [done..| |done|done]. intros u Hu. by eapply answered_query_grows.
Qed.
Lemma triple_answer_query P q issue recorded now :
  triple P (answer_query jc pid q issue recorded now) (λ _ _, True).
Proof using RL.
  unfold answer_query, answer_query_in. apply triple_begin. intros rs W. apply triple_find. intros r Hr He.
  apply triple_lift_bind. intros d _. case_match; [operation|]. apply triple_lift_bind. intros at_ _.
  apply triple_lift_bind. intros o _. eapply triple_bind; [apply triple_complete_query|]. intros v. by apply triple_done.
Qed.

(** ** Commits *)
(** A new commit: before it the effect had none, now it has one. *)
Definition admitted_from (d : Disk) (id : string) (d' : Disk) : Prop :=
  (∃ rs r, holds d rs ∧ rs !! id = Some r ∧ has_commit r = false)
  ∧ ∃ rs r, holds d' rs ∧ rs !! id = Some r ∧ has_commit r = true.
Lemma triple_start {A} P (m : M JournalState A) Q : (∀ s0, triple (λ s, s = s0) m Q) → triple P m Q.
Proof using Type. intros H s r s' Hc _. by apply (H s). Qed.
Lemma triple_begin_commit_record s0 q issue recorded now :
  triple (λ s, s = s0) (begin_commit_record jc pid q issue recorded now)
    (λ rc s, rc.2 = true → admitted_from s0.2 (effect_id (rv_effect (cm_envelope q))) s.2).
Proof using RL.
  unfold begin_commit_record. apply triple_begin. intros rs W. apply triple_find. intros r Hr He.
  apply triple_lift_bind. intros d _. destruct (commit_attempt r d).
  { eapply triple_post; [apply triple_ret|]. by intros rc s [-> _]. }
  apply triple_lift_bind. intros u Hu. destruct (commit_intent_grows _ _ _ _ _ _ _ Hu) as (G & Hn & Hn' & _).
  apply (triple_bind _ _ _ (λ v s, live (<[effect_id (jr_effect r) := v]> rs) s ∧ has_commit v = true ∧ holds s0.2 rs)).
  - intros s res s' Hc [Hl ->] H. destruct (triple_store_grown rs r u W Hr G s0 res s' Hc Hl H) as [A HQ].
    split; [done|]. intros v E. destruct (HQ v E) as (Hl' & _ & _ & _ & Es).
    split; [done|]. split; [by rewrite (existsb_shapes _ _ Es)|apply Hl].
  - intros v. eapply triple_post; [apply triple_ret|]. intros rc s (-> & Hl & Hv & Hh) _. cbn [fst snd]. rewrite <- He.
    split; [by exists rs, r|]. eexists _, v. split; [apply Hl|]. split; [by rewrite lookup_insert_eq|done].
Qed.
Lemma triple_gateway_begin_commit P q recorded now : triple P (gateway_begin_commit jc pid q recorded now) (λ _ _, True).
Proof using RL.
  apply triple_start. intros s0. unfold gateway_begin_commit. eapply triple_bind; [apply triple_begin_commit_record|].
  intros rc. by apply triple_done.
Qed.
Lemma triple_gateway_begin_query P q recorded now : triple P (gateway_begin_query jc pid q recorded now) (λ _ _, True).
Proof using RL.
  unfold gateway_begin_query. eapply triple_bind; [apply triple_begin_query|]. intros ra. by apply triple_done.
Qed.
Lemma triple_begin_commit s0 q issue recorded now :
  triple (λ s, s = s0) (begin_commit jc pid q issue recorded now)
    (λ a s, ca_status a = NEW → admitted_from s0.2 (effect_id (rv_effect (cm_envelope q))) s.2).
Proof using RL.
  unfold begin_commit. eapply triple_bind; [apply triple_begin_commit_record|]. intros [r created].
  assert (K : ∀ x, triple (λ s, created = true → admitted_from s0.2 (effect_id (rv_effect (cm_envelope q))) s.2)
    (let o := terminal_outcome r in lift (CommitAdmission_validate (mk_CommitAdmission
      (if created then NEW else match o with Some _ => TERMINAL | None => INDETERMINATE end) q r x o)))
    (λ a s, ca_status a = NEW → admitted_from s0.2 (effect_id (rv_effect (cm_envelope q))) s.2)).
  { intros x. cbv zeta. eapply triple_post; [apply triple_lift|]. intros a s [Ha H] Hs. apply H.
    unfold CommitAdmission_validate in Ha. do 4 (apply result_bind_Ok in Ha as (? & _ & Ha)). apply Ok_inj in Ha. subst a.
    cbn [ca_status] in Hs. destruct created; [done|]. by destruct (terminal_outcome r). }
  cbn [snd]. eapply (triple_bind _ _ _ (λ _ s, created = true → admitted_from s0.2 (effect_id (rv_effect (cm_envelope q))) s.2)).
  - destruct (latest_acceptance r); [|apply triple_raise]. eapply triple_post; [apply triple_ret|]. by intros a s [_ ?].
  - intros x. apply K.
Qed.
End files.
