(* ===== verification/CoordinationSystem.v ===== *)
(** * Processes over one coordination journal

    Processes open the journal's file, perform the operations of its role, close
    it or die at any point between them; a file operation may fail before or after
    it took effect.  An effect is admitted as new at most once over every run,
    what was retained only evolves, and a record in an applied or rejected state
    has the evidence for it. *)
From S2P Require Import Prelude PyFloat PyStr PyTime PyJson Sha256 Crypto Models PhysicalModels CapabilityModels.
From S2P Require Import DurableReplay Workload WorkloadVerifier CoordinationModels CoordinationMessages.
From S2P Require Import CoordinationRecord CoordinationJournal CoordinationOps CoordinationHistory CoordinationRuns.

(** ** Operations *)
Inductive JournalOp :=
  | GatewayBegin (q : SignedEffectPrepareRequest)
  | RetainPreparation (q : SignedEffectPrepareRequest) (c : CoordinationReceipt)
  | GatewayBeginCommit (q : SignedEffectCommitRequest)
  | RetainCommitOutcome (q : SignedEffectCommitRequest) (o : SignedEffectOutcome)
  | GatewayBeginQuery (q : SignedEffectQueryRequest)
  | CompleteQuery (q : SignedEffectQueryRequest) (o : SignedEffectOutcome)
  | FailQuery (q : SignedEffectQueryRequest) (reason : string) (evidence : option string)
  | CloseNotDispatched (e : EffectIdentity) (reason : string) (evidence : option string)
  | PrepareEffect (q : SignedEffectPrepareRequest)
      (issue : SignedEffectPrepareRequest → datetime → result CoordinationReceipt)
  | BeginCommit (q : SignedEffectCommitRequest)
      (issue : SignedEffectCommitRequest → datetime → result DurableCommitAcceptance)
  | FinishCommit (q : SignedEffectCommitRequest) (o : SignedEffectOutcome)
  | RetainQueryOutcome (q : SignedEffectQueryRequest) (o : SignedEffectOutcome)
  | AnswerQuery (q : SignedEffectQueryRequest)
      (issue : SignedEffectQueryRequest → CoordinationJournalRecord → datetime → result SignedEffectOutcome)
  | MarkCommitUnknown (q : SignedEffectCommitRequest) (reason : string) (evidence : option string).
(** The class that has the operation; both have [mark_commit_unknown]. *)
Definition op_role (op : JournalOp) : option JournalRole :=
  match op with
  | GatewayBegin _ | RetainPreparation _ _ | GatewayBeginCommit _ | RetainCommitOutcome _ _ | GatewayBeginQuery _
  | CompleteQuery _ _ | FailQuery _ _ _ | CloseNotDispatched _ _ _ => Some ROLE_GATEWAY
  | PrepareEffect _ _ | BeginCommit _ _ | FinishCommit _ _ | RetainQueryOutcome _ _ | AnswerQuery _ _ =>
      Some ROLE_EFFECT_COORDINATOR
  | MarkCommitUnknown _ _ _ => None
  end.
Inductive Reply :=
  | ReplyRecord (r : CoordinationJournalRecord)
  | ReplyReceipt (c : CoordinationReceipt)
  | ReplyAdmission (a : CommitAdmission)
  | ReplyOutcome (o : SignedEffectOutcome).

Section system.
Context {ED : Ed25519} {ER : Ed25519Raw} {MD : MessageDumps} {FS : FsEnv}
  {DJ : ModelDump CoordinationJournalRecord} {LJ : ModelLoad CoordinationJournalRecord} {RL : RecordLaws}.
Variable jc : JournalConfig.

Definition reply_with {A} (f : A → Reply) (m : M JournalState A) : M JournalState Reply := a ← m; mret (f a).
(** An operation of process [pid] with [recorded] as its time argument, the clock at [now]. *)
Definition perform (pid : Z) (op : JournalOp) (recorded : option datetime) (now : datetime) : M JournalState Reply :=
  match op with
  | GatewayBegin q => reply_with ReplyRecord (gateway_begin jc pid q recorded now)
  | RetainPreparation q c => reply_with ReplyRecord (retain_preparation jc pid q c recorded)
  | GatewayBeginCommit q => reply_with ReplyRecord (gateway_begin_commit jc pid q recorded now)
  | RetainCommitOutcome q o => reply_with ReplyRecord (retain_commit_outcome jc pid q o recorded now)
  | GatewayBeginQuery q => reply_with ReplyRecord (gateway_begin_query jc pid q recorded now)
  | CompleteQuery q o => reply_with ReplyRecord (complete_query jc pid q o recorded now)
  | FailQuery q reason evidence => reply_with ReplyRecord (fail_query jc pid q reason evidence recorded now)
  | CloseNotDispatched e reason evidence =>
      reply_with ReplyRecord (close_not_dispatched jc pid e reason evidence recorded now)
  | PrepareEffect q issue => reply_with ReplyReceipt (prepare_effect jc pid q issue recorded now)
  | BeginCommit q issue => reply_with ReplyAdmission (begin_commit jc pid q issue recorded now)
  | FinishCommit q o => reply_with ReplyRecord (finish_commit jc pid q o recorded now)
  | RetainQueryOutcome q o => reply_with ReplyRecord (retain_query_outcome jc pid q o recorded now)
  | AnswerQuery q issue => reply_with ReplyOutcome (answer_query jc pid q issue recorded now)
  | MarkCommitUnknown q reason evidence =>
      reply_with ReplyRecord (mark_commit_unknown jc pid q reason evidence recorded now)
  end.

(** The effect an answer admits for execution. *)
Definition admitted (op : JournalOp) (r : result Reply) : option string :=
  match op, r with
  | BeginCommit q _, Ok (ReplyAdmission a) =>
      if bool_decide (ca_status a = NEW) then Some (effect_id (rv_effect (cm_envelope q))) else None
  | _, _ => None
  end.

(** ** Steps *)
Record JSystem := mk_JSystem { js_disk : Disk; js_processes : gmap Z Journal }.
(** The operating system releases a dead process's lock. *)
Definition released (j : Journal) (d : Disk) : Disk :=
  match jn_writer j with Some _ => set_lock (dk_sidecar d) false d | None => d end.
Definition JEvent : Type := Z * JournalOp * result Reply.
Inductive jstep : JSystem → list JEvent → JSystem → Prop :=
  | jstep_open d ps p initialize r d' :
      ps !! p = None → journal_init jc p initialize d = (r, d') →
      jstep (mk_JSystem d ps) [] (mk_JSystem d' (match r with Ok j => <[p := j]> ps | Raise _ => ps end))
  | jstep_perform d ps p j caller op recorded now r j' d' :
      ps !! p = Some j → (∀ role, op_role op = Some role → role = jc_role jc) →
      perform caller op recorded now (j, d) = (r, (j', d')) →
      jstep (mk_JSystem d ps) [(p, op, r)] (mk_JSystem d' (<[p := j']> ps))
  | jstep_close d ps p j r j' d' :
      ps !! p = Some j → journal_close (j, d) = (r, (j', d')) →
      jstep (mk_JSystem d ps) [] (mk_JSystem d' (<[p := j']> ps))
  | jstep_die d ps p j :
      ps !! p = Some j → jstep (mk_JSystem d ps) [] (mk_JSystem (released j d) (delete p ps)).
Inductive jrun : JSystem → list JEvent → JSystem → Prop :=
  | jrun_nil s : jrun s [] s
  | jrun_cons s es1 s1 es2 s2 : jstep s es1 s1 → jrun s1 es2 s2 → jrun s (es1 ++ es2) s2.

(** The effects admitted for execution over a run. *)
Definition admissions (es : list JEvent) : list string := omap (λ e, admitted e.1.2 e.2) es.

(** ** One operation *)
Lemma triple_reply {A} (m : M JournalState A) (f : A → Reply) P :
  triple jc P m (λ _ _, True) → triple jc P (reply_with f m) (λ _ _, True).
Proof using Type. intros H. unfold reply_with. eapply triple_bind; [exact H|]. intros a. by apply triple_done. Qed.
Create HintDb triples.
#[local] Hint Resolve triple_gateway_begin triple_retain_preparation triple_gateway_begin_commit triple_finish_commit
  triple_gateway_begin_query triple_complete_query triple_fail_query triple_close triple_prepare_effect
  triple_answer_query triple_mark_unknown : triples.
Lemma triple_perform pid s0 op recorded now :
  triple jc (λ s, s = s0) (perform pid op recorded now)
    (λ r s, ∀ id, admitted op (Ok r) = Some id → admitted_from jc s0.2 id s.2).
Proof using RL.
  destruct op; cbn [perform];
    try (eapply triple_post; [apply triple_reply; eauto with triples|by intros r s _ id [=]]).
  eapply triple_bind; [apply triple_begin_commit|]. intros a. eapply triple_post; [apply triple_ret|].
  intros r s [-> H] id. cbn [admitted]. case_bool_decide; [|done]. intros [= <-]. by apply H.
Qed.

(** ** Opening and closing *)
Lemma acquire_run d r d' :
  acquire_writer_lock d = (r, d') →
  dk_entry d' = dk_entry d
  ∧ match r with Ok _ => dk_locked d = false ∧ dk_locked d' = true | Raise _ => dk_locked d' = dk_locked d end.
Proof using Type.
  unfold acquire_writer_lock. destruct (dk_sidecar d) as [| | |mode]; [|by intros [= <- <-]..|].
  - destruct (dk_locked d) eqn:E; by intros [= <- <-].
  - destruct (negb _); [by intros [= <- <-]|]. destruct (dk_locked d) eqn:E; by intros [= <- <-].
Qed.
Lemma load_run pid s r s' :
  journal_load jc pid s = (r, s') →
  s'.1 = s.1 ∧ dk_entry s'.2 = dk_entry s.2 ∧ dk_locked s'.2 = dk_locked s.2 ∧ ∀ rs, r = Ok rs → holds jc s'.2 rs.
Proof using Type.
  unfold journal_load. intros H.
  apply M_bind_case in H as [(e & -> & [-> _]%assert_writer_run)|([] & s1 & [-> _]%assert_writer_run & H)]; [done|].
  apply M_bind_case in H as [(e & -> & (d & Hd & ->)%zoom_run)|([] & s1 & (d & Hd & ->)%zoom_run & H)];
    (assert (E := check_parent_same s.2); rewrite Hd in E; cbn in E; subst d); [done|].
  apply M_bind_case in H as [(e & -> & (d & Hr & ->)%zoom_run)|(m & s1 & (d & Hr & ->)%zoom_run & H)]; cbn [fst snd] in *.
  { by injection Hr as _ <-. }
  injection H as <- <-. unfold read_entry in Hr. injection Hr as Hm <-. cbn [fst snd]. split_and!; [done..|].
  intros rs Hl. destruct (dk_entry s.2) as [| | |mode bytes] eqn:E; try discriminate Hm.
  apply result_bind_Ok in Hm as ([] & Hmode%ensure_true & Hm). apply result_bind_Ok in Hm as ([] & Hlen%ensure_true & Hm).
  destruct (read_fails _); [discriminate Hm|]. apply Ok_inj in Hm. subst m. bool_split. subst mode.
  exists bytes. split; [done|]. by apply load_document_stored.
Qed.
Lemma open_locked_run pid initialize s r s' :
  journal_open_locked jc pid initialize s = (r, s') → is_Some (jn_writer s.1) →
  jn_writer s'.1 = jn_writer s.1 ∧ dk_locked s'.2 = dk_locked s.2 ∧ (∀ rs, holds jc s.2 rs → holds jc s'.2 rs)
  ∧ (r = Ok tt → holds jc s'.2 (jn_records s'.1)).
Proof using Type.
  intros H Hw. unfold journal_open_locked in H.
  assert (Hinit : ∀ u s1, (if initialize then
       s ← get;
       _ ← lift (ensure (match dk_entry s.2 with EntryAbsent => true | _ => false end)
                     "coordination journal already exists; refusing to initialize");
       journal_persist jc pid ∅
     else mret tt) s = (u, s1) →
     jn_writer s1.1 = jn_writer s.1 ∧ dk_locked s1.2 = dk_locked s.2 ∧ ∀ rs, holds jc s.2 rs → holds jc s1.2 rs).
  { intros u s1 Hi. destruct initialize; [|by injection Hi as _ <-].
    apply M_bind_case in Hi as [(e & _ & [=])|(s2 & s3 & [= <- <-] & Hi)].
    apply M_bind_case in Hi as [(e & -> & [= _ <-])|([] & s2 & [He%ensure_true ->]%lift_Ok & Hi)]; [done|].
    apply persist_run in Hi as [[-> _]|(m & _ & _ & _ & Hm)]; [done|].
    assert (Hno : ∀ rs, holds jc s.2 rs → False) by (intros rs (b & Eb & _); by rewrite Eb in He).
    apply replace_file_run in Hm as [[_ ->]|(_ & Ej & [Ed|Ed])]; rewrite ?Ej, ?Ed; (split; [done|split; [done|]]);
      intros rs Hh; by destruct (Hno rs). }
  apply M_bind_case in H as [(e & -> & (A & B & C)%Hinit)|(u & s1 & (A & B & C)%Hinit & H)]; [done|].
  apply M_bind_case in H as [(e & -> & H)|(rs & s2 & H1 & H)].
  - apply load_run in H as (E1 & E2 & E3 & _). rewrite E1, E3. split_and!; [done..| |done].
    intros rs (b & Eb & Hs)%C. exists b. by rewrite E2.
  - apply load_run in H1 as (E1 & E2 & E3 & Hh). injection H as <- <-. cbn [fst snd jn_writer jn_records].
    rewrite E1, E3. split_and!; [done..| |intros _; by apply Hh].
    intros rs' (b & Eb & Hs)%C. exists b. by rewrite E2.
Qed.
Lemma init_run pid initialize d r d' :
  journal_init jc pid initialize d = (r, d') →
  (∀ rs, holds jc d rs → holds jc d' rs)
  ∧ match r with
    | Ok j => dk_locked d = false ∧ dk_locked d' = true ∧ holds jc d' (jn_records j)
    | Raise _ => dk_locked d' = dk_locked d
    end.
Proof using Type.
  unfold journal_init. destruct (identity _ _); [|by intros [= <- <-]].
  destruct (check_parent d) as [[[]|e] d1] eqn:Hp; assert (E := check_parent_same d); rewrite Hp in E; cbn in E; subst d1;
    [|by intros [= <- <-]].
  destruct (acquire_writer_lock d) as [[[]|e] d1] eqn:Ha; apply acquire_run in Ha as [Ee Hl].
  2: { intros [= <- <-]. split; [|done]. intros rs (b & Eb & ?). exists b. by rewrite Ee. }
  destruct Hl as [Hf Ht]. destruct (journal_open_locked _ _ _ _) as [r1 [j d2]] eqn:Ho.
  apply open_locked_run in Ho as (A & B & C & D); [|done]. cbn [fst snd jn_writer] in *.
  assert (K : ∀ rs, holds jc d rs → holds jc d2 rs) by (intros rs (b & Eb & ?); apply C; exists b; by rewrite Ee).
  destruct r1 as [[]|e]; intros [= <- <-].
  - split; [done|]. split_and!; [done|congruence|by apply D].
  - unfold journal_close. cbn [fst snd]. rewrite A. cbn [snd set_lock dk_locked]. by rewrite Hf.
Qed.
Lemma init_writer pid initialize d j d' : journal_init jc pid initialize d = (Ok j, d') → is_Some (jn_writer j).
Proof using Type.
  unfold journal_init. destruct (identity _ _); [|discriminate]. destruct (check_parent d) as [[[]|e] d1]; [|discriminate].
  destruct (acquire_writer_lock d1) as [[[]|e] d2]; [|discriminate].
  destruct (journal_open_locked _ _ _ _) as [[[]|e] [j1 d3]] eqn:Ho; [|discriminate]. intros [= <- <-].
  apply open_locked_run in Ho as (A & _); [|done]. cbn [fst snd jn_writer] in A. by rewrite A.
Qed.
Lemma init_failed_file pid initialize d e d' rs :
  journal_init jc pid initialize d = (Raise e, d') → holds jc d rs → holds jc d' rs.
Proof using Type. intros [H _]%init_run. apply H. Qed.

(** ** The invariant *)
(** At most one process has the lock, and its records are the file's. *)
Record sound (s : JSystem) : Prop := {
  so_locked : ∀ p j, js_processes s !! p = Some j → is_Some (jn_writer j) →
    dk_locked (js_disk s) = true ∧ coherent jc (j, js_disk s);
  so_unique : ∀ p q j k, js_processes s !! p = Some j → js_processes s !! q = Some k →
    is_Some (jn_writer j) → is_Some (jn_writer k) → p = q;
}.
Lemma sound_idle d : sound (mk_JSystem d ∅).
Proof using Type. split; cbn [js_processes]; intros p; [intros j|intros q j k]; rewrite lookup_empty; discriminate. Qed.
(** A process without the lock sees nothing of a change. *)
Lemma other_unlocked s p j q k :
  sound s → js_processes s !! p = Some j → is_Some (jn_writer j) → js_processes s !! q = Some k → q ≠ p →
  jn_writer k = None.
Proof using Type.
  intros I Hp Hj Hq Hne. destruct (jn_writer k) eqn:E; [|done]. exfalso. apply Hne.
  by eapply (so_unique s I); [exact Hq|exact Hp|rewrite E|].
Qed.
(** Process [p] goes on as [j'] over [d'] when no other process has the lock. *)
Lemma sound_insert d ps p j' :
  (∀ q k, ps !! q = Some k → q ≠ p → jn_writer k = None) →
  (is_Some (jn_writer j') → dk_locked d = true ∧ coherent jc (j', d)) → sound (mk_JSystem d (<[p := j']> ps)).
Proof using Type.
  intros Ho H.
  assert (K : ∀ q k, <[p := j']> ps !! q = Some k → is_Some (jn_writer k) → q = p ∧ k = j').
  { intros q k Hq Hk. destruct (decide (q = p)) as [->|N]; [rewrite lookup_insert_eq in Hq; by injection Hq as <-|].
    rewrite lookup_insert_ne in Hq by done. rewrite (Ho q k Hq N) in Hk. by destruct Hk. }
  split; cbn [js_processes js_disk].
  - intros q k Hq Hk. destruct (K q k Hq Hk) as [_ ->]. by apply H.
  - intros q1 q2 k1 k2 H1 H2 K1 K2. destruct (K _ _ H1 K1) as [-> _]. by destruct (K _ _ H2 K2) as [-> _].
Qed.
Lemma sound_same d ps p j : ps !! p = Some j → sound (mk_JSystem d ps) → sound (mk_JSystem d (<[p := j]> ps)).
Proof using Type. intros Hp I. by rewrite insert_id. Qed.

(** What every step keeps and admits. *)
Definition grown (d d' : Disk) : Prop := ∀ rs, holds jc d rs → ∃ rs', holds jc d' rs' ∧ records_evolve rs rs'.
#[local] Instance grown_pre : PreOrder grown.
Proof using Type.
  split; [intros d rs H; by exists rs|]. intros d1 d2 d3 H H' rs Hh. destruct (H _ Hh) as (rs' & Hh' & E).
  destruct (H' _ Hh') as (rs'' & ? & E'). exists rs''. split; [done|by etrans].
Qed.
Lemma kept_grown d d' : (∀ rs, holds jc d rs → holds jc d' rs) → grown d d'.
Proof using Type. intros H rs Hh. exists rs. split; [by apply H|done]. Qed.
Lemma entry_kept d d' : dk_entry d' = dk_entry d → ∀ rs, holds jc d rs → holds jc d' rs.
Proof using Type. intros E rs (b & Eb & ?). exists b. by rewrite E. Qed.

Lemma released_holds j d rs : holds jc d rs → holds jc (released j d) rs.
Proof using Type. apply entry_kept. unfold released. by destruct (jn_writer j). Qed.

(** One step: the invariant, growth, and the admissions. *)
Definition step_ok (s : JSystem) (es : list JEvent) (s' : JSystem) : Prop :=
  sound s' ∧ grown (js_disk s) (js_disk s') ∧ ∀ id, id ∈ admissions es → admitted_from jc (js_disk s) id (js_disk s').
Lemma open_ok d ps p initialize r d' :
  sound (mk_JSystem d ps) → journal_init jc p initialize d = (r, d') →
  step_ok (mk_JSystem d ps) [] (mk_JSystem d' (match r with Ok j => <[p := j]> ps | Raise _ => ps end)).
Proof using Type.
  intros I Hi. apply init_run in Hi as [Hk Hj]. split; [|split; [by apply kept_grown|by intros ? ?%not_elem_of_nil]].
  destruct r as [j|e].
  - destruct Hj as (Hf & Ht & Hh). apply sound_insert; [|intros _; split; [done|by intros _ _]].
    intros q k Hq _. destruct (jn_writer k) eqn:E; [|done].
    destruct (so_locked _ I q k Hq) as [L _]; [by rewrite E|]. cbn in L. congruence.
  - split; cbn [js_processes js_disk]; [|apply (so_unique _ I)]. intros q k Hq Hw.
    destruct (so_locked _ I q k Hq Hw) as [L C]. cbn in L. split; [congruence|].
    intros U W. cbn [fst snd] in *. by apply Hk, C.
Qed.
Lemma perform_ok d ps p j caller op recorded now r j' d' :
  sound (mk_JSystem d ps) → ps !! p = Some j → perform caller op recorded now (j, d) = (r, (j', d')) →
  step_ok (mk_JSystem d ps) [(p, op, r)] (mk_JSystem d' (<[p := j']> ps)).
Proof using RL.
  intros I Hp Ho.
  assert (C : coherent jc (j, d)).
  { intros U W. by apply (so_locked _ I p j Hp W). }
  destruct (triple_perform caller (j, d) op recorded now (j, d) r (j', d') C eq_refl Ho) as [A HQ].
  split; [|split; [intros rs Hh; by apply (av_file _ _ _ A)|]].
  - cbn [js_disk]. destruct (jn_writer j) as [o|] eqn:Hw.
    + destruct (so_locked _ I p j Hp) as [L _]; [by rewrite Hw|]. apply sound_insert.
      * intros q k Hq N. by apply (other_unlocked _ p j q k I Hp); [rewrite Hw|..].
      * intros _. split; [|by apply A]. pose proof (av_locked _ _ _ A) as E. cbn in E, L. congruence.
    + pose proof (av_closed _ _ _ A Hw) as [= -> ->]. by apply sound_same.
  - intros id. unfold admissions. cbn [omap list_omap fst snd js_disk].
    destruct (admitted op r) as [i|] eqn:Ea; [|by intros ?%not_elem_of_nil].
    intros ->%list_elem_of_singleton. destruct r as [a|e]; [|by destruct op]. by apply (HQ a).
Qed.
Lemma close_ok d ps p j r j' d' :
  sound (mk_JSystem d ps) → ps !! p = Some j → journal_close (j, d) = (r, (j', d')) →
  step_ok (mk_JSystem d ps) [] (mk_JSystem d' (<[p := j']> ps)).
Proof using Type.
  intros I Hp Hc. unfold journal_close in Hc. cbn [fst snd] in Hc.
  destruct (jn_writer j) as [o|] eqn:Hw; injection Hc as <- <- <-;
    (split; [|split; [by apply kept_grown, entry_kept|by intros ? ?%not_elem_of_nil]]); [|by apply sound_same].
  apply sound_insert; [|intros K; by destruct K]. intros q k Hq N. by apply (other_unlocked _ p j q k I Hp); [rewrite Hw|..].
Qed.
Lemma die_ok d ps p j :
  sound (mk_JSystem d ps) → ps !! p = Some j → step_ok (mk_JSystem d ps) [] (mk_JSystem (released j d) (delete p ps)).
Proof using Type.
  intros I Hp. split; [|split; [|by intros ? ?%not_elem_of_nil]].
  - assert (Hd : ∀ q k, delete p ps !! q = Some k → ps !! q = Some k ∧ q ≠ p).
    { intros q k Hq. destruct (decide (q = p)) as [->|N]; [by rewrite lookup_delete_eq in Hq|]. by rewrite lookup_delete_ne in Hq. }
    split; cbn [js_processes js_disk].
    + intros q k [Hq N]%Hd Hk. unfold released. destruct (jn_writer j) eqn:Hw; [|by apply (so_locked _ I q k)].
      exfalso. apply N. by eapply (so_unique _ I); [exact Hq|exact Hp|done|rewrite Hw].
    + intros q1 q2 k1 k2 [H1 _]%Hd [H2 _]%Hd. by apply (so_unique _ I).
  - apply kept_grown. intros rs. apply released_holds.
Qed.
Lemma step_sound s es s' : jstep s es s' → sound s → step_ok s es s'.
Proof using RL. intros [] I; [by eapply open_ok|by eapply perform_ok|by eapply close_ok|by apply die_ok]. Qed.
Lemma run_sound s es s' : jrun s es s' → sound s → sound s' ∧ grown (js_disk s) (js_disk s').
Proof using RL.
  induction 1 as [s|s es1 s1 es2 s2 Hs Hr IH]; intros I; [done|].
  destruct (step_sound _ _ _ Hs I) as (I1 & G1 & _). destruct (IH I1) as [I2 G2]. split; [done|by etrans].
Qed.

Lemma jrun_app s es s1 es' s2 : jrun s es s1 → jrun s1 es' s2 → jrun s (es ++ es') s2.
Proof using Type. induction 1; [done|]. intros H'. rewrite <- app_assoc. econstructor; eauto. Qed.

(** ** At most one execution *)
(** The file holds a commit of the effect. *)
Definition committed (d : Disk) (id : string) : Prop :=
  ∃ rs r, holds jc d rs ∧ rs !! id = Some r ∧ has_commit r = true.
Lemma grown_committed d d' id : grown d d' → committed d id → committed d' id.
Proof using Type.
  intros G (rs & r & Hh & Hr & Hc). destruct (G _ Hh) as (rs' & Hh' & E). destruct (E _ _ Hr) as (r' & Hr' & Ev).
  exists rs', r'. split; [done|]. split; [done|by eapply evolves_commit].
Qed.
Lemma admitted_uncommitted d d' id : admitted_from jc d id d' → ¬ committed d id.
Proof using RL.
  intros [(rs & r & Hh & Hr & Hc) _] (rs' & r' & Hh' & Hr' & Hc'). assert (rs' = rs) as -> by by eapply held_records_inj.
  congruence.
Qed.
Lemma run_committed s es s' :
  jrun s es s' → sound s → ∀ id, id ∈ admissions es → committed (js_disk s') id.
Proof using RL.
  induction 1 as [s|s es1 s1 es2 s2 Hs Hr IH]; intros I id; [by intros ?%not_elem_of_nil|].
  destruct (step_sound _ _ _ Hs I) as (I1 & _ & HA). unfold admissions. rewrite omap_app.
  intros [Hid|Hid]%elem_of_app; [|by apply IH]. destruct (run_sound _ _ _ Hr I1) as [_ G].
  eapply grown_committed; [exact G|]. by destruct (HA id Hid) as [_ ?].
Qed.
Lemma step_admits_one s es s' : jstep s es s' → (length (admissions es) <= 1)%nat.
Proof using Type. destruct 1; unfold admissions; cbn; try lia. destruct (admitted _ _); cbn; lia. Qed.
Lemma admissions_app l l' : admissions (l ++ l') = admissions l ++ admissions l'.
Proof using Type. apply omap_app. Qed.
Lemma run_admissions s es s' :
  jrun s es s' → sound s → NoDup (admissions es) ∧ ∀ id, id ∈ admissions es → ¬ committed (js_disk s) id.
Proof using RL.
  induction 1 as [s|s es1 s1 es2 s2 Hs Hr IH]; intros I; [split; [constructor|by intros ? ?%not_elem_of_nil]|].
  destruct (step_sound _ _ _ Hs I) as (I1 & G & HA). destruct (IH I1) as [Hn Hf].
  rewrite admissions_app. split.
  - apply NoDup_app. split; [|split; [|done]].
    + pose proof (step_admits_one _ _ _ Hs) as L.
      destruct (admissions es1) as [|x [|y l]]; [constructor|apply NoDup_singleton|cbn in L; lia].
    + intros id Hid Hid'. apply (Hf id Hid'). by destruct (HA id Hid) as [_ ?].
  - intros id [Hid|Hid]%elem_of_app; [by eapply admitted_uncommitted, HA|].
    intros Hc. apply (Hf id Hid). by eapply grown_committed.
Qed.

(** Over every run of processes over an effect coordinator's journal, across
    deaths and restarts of processes and file operations that fail before or after
    they took effect, [begin_commit] answers NEW at most once for an effect. *)
Theorem executed_at_most_once d es s' : jrun (mk_JSystem d ∅) es s' → NoDup (admissions es).
Proof using RL. intros H. by apply (run_admissions _ _ _ H (sound_idle d)). Qed.

(** ** What is retained only evolves *)
Definition legal_step (s t : CoordinationState) : Prop := t ∈ LEGAL_TRANSITIONS s.
Lemma path_reaches l l' s t :
  state_path (l ++ l') → last l = Some s → last (l ++ l') = Some t → rtc legal_step s t.
Proof using Type.
  intros [_ Hp]. revert t. induction l' as [|x l' IH] using rev_ind; intros t Hs Ht; [rewrite app_nil_r, Hs in Ht; by injection Ht as <-|].
  rewrite app_assoc in Hp, Ht. rewrite last_snoc in Ht. injection Ht as <-.
  destruct (last (l ++ l')) as [y|] eqn:Hy.
  - eapply rtc_r; [apply IH; [|done|done]|].
    + intros i a b Ha Hb. apply (Hp i); [by apply lookup_app_l_Some|by apply lookup_app_l_Some].
    + rewrite last_lookup in Hy. apply lookup_lt_Some in Hy as L. apply (Hp (pred (length (l ++ l')))).
      * by apply lookup_app_l_Some.
      * rewrite lookup_app_r by lia. by replace (S _ - _) with 0 by lia.
  - apply last_None, app_eq_nil in Hy as [-> _]. discriminate Hs.
Qed.
Lemma evolves_reaches r r' :
  evolves r r' → CoordinationJournalRecord_validate r = Ok r → CoordinationJournalRecord_validate r' = Ok r' →
  rtc legal_step (jr_state r) (jr_state r').
Proof using Type.
  intros E Hv Hv'. destruct (ev_transitions _ _ E) as [l El]. pose proof (checked_path _ Hv') as Hp.
  pose proof (checked_path _ Hv) as [Hh _]. unfold jr_state, state_of_transitions in *. rewrite El in *.
  rewrite fmap_app in Hp. destruct (last (jr_transitions r)) as [x|] eqn:Hx.
  - destruct (last (jr_transitions r ++ l)) as [y|] eqn:Hy.
    + apply (path_reaches (tr_state <$> jr_transitions r) (tr_state <$> l)); [done|by rewrite fmap_last, Hx|].
      by rewrite <- fmap_app, fmap_last, Hy.
    + apply last_None, app_eq_nil in Hy as [E1 _]. by rewrite E1 in Hx.
  - apply last_None in Hx. by rewrite Hx in Hh.
Qed.
(** C28 Over every run a retained record keeps its effect, its transitions as a
    prefix and its attempts, its state moves along the legal transitions only, and
    from a terminal state it never moves again. *)
Theorem retained_records_evolve d es s' rs id r :
  jrun (mk_JSystem d ∅) es s' → holds jc d rs → rs !! id = Some r →
  ∃ rs' r', holds jc (js_disk s') rs' ∧ rs' !! id = Some r' ∧ evolves r r'
    ∧ rtc legal_step (jr_state r) (jr_state r')
    ∧ (terminal (jr_state r) = true → jr_transitions r' = jr_transitions r).
Proof using RL.
  intros H Hh Hr. destruct (run_sound _ _ _ H (sound_idle d)) as [_ G]. destruct (G _ Hh) as (rs' & Hh' & E).
  destruct (E _ _ Hr) as (r' & Hr' & Ev).
  assert (V : ∀ rs k r d, holds jc d rs → rs !! k = Some r → CoordinationJournalRecord_validate r = Ok r).
  { intros ? k ? ? (b & _ & [_ W _ _ _]) Hk. destruct (W _ _ Hk) as [_ R]. by eapply retained_valid. }
  exists rs', r'. pose proof (V _ _ _ _ Hh Hr) as V1. pose proof (V _ _ _ _ Hh' Hr') as V2.
  split; [done|]. split; [done|]. split; [done|]. split; [by apply evolves_reaches|]. by apply terminal_fixed.
Qed.
End system.
