(* ===== verification/CoordinationReopen.v ===== *)
(** * Opening a coordination journal again

    Rereading a reread record changes nothing, so a file that was written loads
    as exactly the records it holds: after any run, with no process alive, a
    process can open the journal again. *)
From S2P Require Import Prelude PyFloat PyStr PyTime PyJson Sha256 Crypto Models PyModel PhysicalModels.
From S2P Require Import CapabilityModels DurableReplay Workload WorkloadVerifier CoordinationModels.
From S2P Require Import CoordinationMessages CoordinationRecord CoordinationJournal CoordinationOps.
From S2P Require Import CoordinationHistory CoordinationRuns CoordinationSystem.
From stdpp Require Import sorting.

Section reread.
Context {ED : Ed25519} {ER : Ed25519Raw} {MD : MessageDumps}.

(** ** Rereading is idempotent *)
(** A construction check that returns its argument. *)
Ltac returns_argument :=
  let H := fresh in intros H; cbv zeta in H; repeat (apply result_bind_Ok in H as (? & _ & H)); by injection H as <-.
Lemma prepare_request_same r r' : SignedEffectPrepareRequest_validate r = Ok r' → r' = r.
Proof using Type. unfold SignedEffectPrepareRequest_validate. returns_argument. Qed.
Lemma receipt_same r r' : CoordinationReceipt_validate r = Ok r' → r' = r.
Proof using Type. unfold CoordinationReceipt_validate. returns_argument. Qed.
Lemma commit_request_same r r' : SignedEffectCommitRequest_validate r = Ok r' → r' = r.
Proof using Type. unfold SignedEffectCommitRequest_validate. returns_argument. Qed.
Lemma acceptance_same r r' : DurableCommitAcceptance_validate r = Ok r' → r' = r.
Proof using Type. unfold DurableCommitAcceptance_validate. returns_argument. Qed.
Lemma query_request_same r r' : SignedEffectQueryRequest_validate r = Ok r' → r' = r.
Proof using Type. unfold SignedEffectQueryRequest_validate. returns_argument. Qed.
Lemma dispatch_same d d' : dispatch_reread d = Ok d' → d' = d ∧ dispatch_reread d = Ok d.
Proof using Type.
  intros H. assert (E : d' = d); [|by subst d'].
  unfold dispatch_reread in H. do 7 (apply result_bind_Ok in H as (? & _ & H)).
  unfold SegmentedCapabilityDispatch_validate in H. revert H. returns_argument.
Qed.

Definition idempotent {A} (f : A → result A) : Prop := ∀ a a', f a = Ok a' → f a' = Ok a'.
Lemma credential_idem : idempotent WorkloadCredential_validate.
Proof using Type.
  intros c c' H. unfold WorkloadCredential_validate in H |- *. cbv zeta in H |- *.
  apply result_bind_Ok in H as (? & E1 & H). apply result_bind_Ok in H as (k & E2 & H).
  apply result_bind_Ok in H as (? & E3 & H). apply result_bind_Ok in H as (? & E4 & H).
  apply result_bind_Ok in H as (? & E5 & H). apply result_bind_Ok in H as (? & E6 & H).
  apply result_bind_Ok in H as (? & E7 & H). apply result_bind_Ok in H as (? & E8 & H).
  apply Ok_inj in H. subst c'.
  cbn [credential_id cr_trust_domain cr_subject cr_role cr_actor_id cr_key_id cr_public_key_b64 cr_authority_key_id
       audiences cr_issued_at not_before cr_expires_at] in *.
  rewrite E1. cbn [mbind result_bind]. rewrite E2. cbn [mbind result_bind].
  change (field_check (dt_aware (as_utc (cr_issued_at c)) && dt_aware (as_utc (not_before c)) && dt_aware (as_utc (cr_expires_at c)))
    "workload credential timestamps must be timezone-aware") with (Ok tt : result unit). cbn [mbind result_bind].
  rewrite E4. cbn [mbind result_bind]. change (as_utc (as_utc ?x)) with (as_utc x). rewrite E5. cbn [mbind result_bind].
  rewrite E6. cbn [mbind result_bind]. rewrite E7. cbn [mbind result_bind]. by rewrite E8.
Qed.
Lemma signed_idem : idempotent SignedWorkloadCredential_validate.
Proof using Type.
  intros s s' H. unfold SignedWorkloadCredential_validate in *. apply result_bind_Ok in H as (c & Hc & H).
  apply result_bind_Ok in H as (? & E & H). apply Ok_inj in H. subst s'. cbn [credential cred_signature].
  rewrite (credential_idem _ _ Hc). cbn [mbind result_bind]. by rewrite E.
Qed.
Lemma envelope_idem : idempotent envelope_reread.
Proof using Type.
  intros e e' H. unfold envelope_reread in *. apply result_bind_Ok in H as (? & E & H).
  apply result_bind_Ok in H as (c & Hc & H). apply Ok_inj in H. subst e'. cbn [rv_effect sender_credential].
  rewrite E. cbn [mbind result_bind]. by rewrite (signed_idem _ _ Hc).
Qed.
Lemma prepare_idem : idempotent prepare_reread.
Proof using Type.
  intros r r' H. unfold prepare_reread in *. apply result_bind_Ok in H as (e & He & H).
  apply result_bind_Ok in H as (d & Hd & H). pose proof (prepare_request_same _ _ H) as E. subst r'.
  apply dispatch_same in Hd as [-> Hd]. cbn [pr_envelope pr_dispatch pr_dispatch_sha256].
  rewrite (envelope_idem _ _ He). cbn [mbind result_bind]. by rewrite Hd.
Qed.
Lemma receipt_idem : idempotent receipt_reread.
Proof using Type.
  intros r r' H. unfold receipt_reread in *. apply result_bind_Ok in H as (? & E & H).
  apply result_bind_Ok in H as (p & Hp & H). apply result_bind_Ok in H as (c & Hc & H).
  pose proof (receipt_same _ _ H) as Er. subst r'.
  cbn [re_effect re_effect_sha256 re_prepare re_prepare_sha256 re_audience re_coordinator prepared_at re_signature].
  rewrite E. cbn [mbind result_bind]. rewrite (prepare_idem _ _ Hp). cbn [mbind result_bind]. by rewrite (signed_idem _ _ Hc).
Qed.
Lemma commit_idem : idempotent commit_reread.
Proof using Type.
  intros r r' H. unfold commit_reread in *. apply result_bind_Ok in H as (e & He & H).
  apply result_bind_Ok in H as (c & Hc & H). pose proof (commit_request_same _ _ H) as Er. subst r'.
  cbn [cm_envelope cm_receipt cm_receipt_sha256]. rewrite (envelope_idem _ _ He). cbn [mbind result_bind].
  by rewrite (receipt_idem _ _ Hc).
Qed.
Lemma acceptance_idem : idempotent acceptance_reread.
Proof using Type.
  intros a a' H. unfold acceptance_reread in *. apply result_bind_Ok in H as (? & E & H).
  apply result_bind_Ok in H as (r & Hr & H). apply result_bind_Ok in H as (c & Hc & H).
  pose proof (acceptance_same _ _ H) as Er. subst a'.
  cbn [ac_effect ac_effect_sha256 ac_request ac_request_sha256 ac_audience ac_coordinator accepted_at ac_signature].
  rewrite E. cbn [mbind result_bind]. rewrite (commit_idem _ _ Hr). cbn [mbind result_bind]. by rewrite (signed_idem _ _ Hc).
Qed.
Lemma query_idem : idempotent query_reread.
Proof using Type.
  intros r r' H. unfold query_reread in *. apply result_bind_Ok in H as (e & He & H).
  pose proof (query_request_same _ _ H) as Er. subst r'. cbn [qr_envelope]. by rewrite (envelope_idem _ _ He).
Qed.
Lemma option_idem {A} (f : A → result A) : idempotent f → idempotent (option_reread f).
Proof using Type.
  intros Hf o o' H. unfold option_reread in *. destruct o as [a|]; [|by injection H as <-].
  apply result_bind_Ok in H as (b & Hb & H). apply Ok_inj in H. subst o'. by rewrite (Hf _ _ Hb).
Qed.
Definition acknowledgment_reread (k : PlcCommandAcknowledgment) : result PlcCommandAcknowledgment :=
  _ ← PhysicalStateSnapshot_validate (pa_pre_state k); PlcCommandAcknowledgment_validate k.
Lemma acknowledgment_idem : idempotent acknowledgment_reread.
Proof using Type.
  intros k k' H. unfold acknowledgment_reread in *. apply result_bind_Ok in H as (s & E & H).
  assert (Ek : k' = k) by (revert H; unfold PlcCommandAcknowledgment_validate; returns_argument). subst k'. by rewrite E.
Qed.
Lemma outcome_idem : idempotent outcome_reread.
Proof using Type.
  intros o o' H. unfold outcome_reread in *. fold acknowledgment_reread in *. apply result_bind_Ok in H as (? & E & H).
  apply result_bind_Ok in H as (a & Ha & H). apply result_bind_Ok in H as (k & Hk & H).
  apply result_bind_Ok in H as (c & Hc & H). pose proof (validate_outcome_same _ _ H) as Eo. subst o'.
  cbn [oc_kind oc_request_sha256 oc_effect oc_effect_sha256 oc_disposition oc_acceptance oc_acknowledgment oc_reason
       oc_audience oc_coordinator signed_at oc_signature].
  rewrite E. cbn [mbind result_bind]. rewrite (option_idem _ acceptance_idem _ _ Ha). cbn [mbind result_bind].
  rewrite (option_idem _ acknowledgment_idem _ _ Hk). cbn [mbind result_bind]. by rewrite (signed_idem _ _ Hc).
Qed.
Lemma attempt_idem : idempotent attempt_reread.
Proof using Type.
  intros a a' H. unfold attempt_reread in H. destruct a as [p|c|q].
  - apply result_bind_Ok in H as (r & Hr & H). apply result_bind_Ok in H as (x & Hx & H).
    apply result_bind_Ok in H as (v & Hv & H). apply Ok_inj in H. subst a'. pose proof (validate_prepare _ _ Hv) as E.
    subst v. unfold attempt_reread. cbn [tp_base tp_request tp_receipt]. rewrite (prepare_idem _ _ Hr).
    cbn [mbind result_bind]. rewrite (option_idem _ receipt_idem _ _ Hx). cbn [mbind result_bind]. by rewrite Hv.
  - apply result_bind_Ok in H as (r & Hr & H). apply result_bind_Ok in H as (x & Hx & H).
    apply result_bind_Ok in H as (o & Ho & H). apply result_bind_Ok in H as (v & Hv & H). apply Ok_inj in H. subst a'.
    pose proof (validate_commit _ _ Hv) as E. subst v. unfold attempt_reread.
    cbn [tc_base tc_request tc_acceptance tc_outcome tc_failure_reason tc_failure_evidence]. rewrite (commit_idem _ _ Hr).
    cbn [mbind result_bind]. rewrite (option_idem _ acceptance_idem _ _ Hx). cbn [mbind result_bind].
    rewrite (option_idem _ outcome_idem _ _ Ho). cbn [mbind result_bind]. by rewrite Hv.
  - apply result_bind_Ok in H as (r & Hr & H). apply result_bind_Ok in H as (o & Ho & H).
    apply result_bind_Ok in H as (v & Hv & H). apply Ok_inj in H. subst a'. pose proof (validate_query _ _ Hv) as E.
    subst v. unfold attempt_reread. cbn [tq_base tq_request tq_outcome tq_failure_reason tq_failure_evidence].
    rewrite (query_idem _ _ Hr). cbn [mbind result_bind]. rewrite (option_idem _ outcome_idem _ _ Ho).
    cbn [mbind result_bind]. by rewrite Hv.
Qed.
Lemma mapM_idem {A} (f : A → result A) : idempotent f → idempotent (result_mapM f).
Proof using Type.
  intros Hf l l' H. apply result_mapM_Ok in H. apply result_mapM_Ok. induction H as [|x y l l' Hx _ IH]; constructor; [|done].
  by apply (Hf x).
Qed.
Lemma transition_idem : idempotent CoordinationTransition_validate.
Proof using Type. intros t t' H. pose proof (transition_validate_same _ _ H) as E. by subst t'. Qed.
Lemma record_idem : idempotent record_reread.
Proof using Type.
  intros r r' H. unfold record_reread in *. apply result_bind_Ok in H as (? & E & H).
  apply result_bind_Ok in H as (ts & Ht & H). apply result_bind_Ok in H as (l & Hl & H).
  pose proof (validate_record _ _ H) as Er. subst r'. cbn [jr_effect jr_effect_sha256 jr_transitions jr_attempts].
  rewrite E. cbn [mbind result_bind]. rewrite (mapM_idem _ transition_idem _ _ Ht). cbn [mbind result_bind].
  by rewrite (mapM_idem _ attempt_idem _ _ Hl).
Qed.
End reread.

Section reopen.
Context {ED : Ed25519} {ER : Ed25519Raw} {MD : MessageDumps} {FS : FsEnv}
  {DJ : ModelDump CoordinationJournalRecord} {LJ : ModelLoad CoordinationJournalRecord} {RL : RecordLaws}.
Variable jc : JournalConfig.

(** ** A stored file loads as its records *)
Lemma record_reads r :
  retained jc r → has_nan (model_dump r) = false → record_of_json (canon (canon (model_dump r))) = Ok r.
Proof using RL.
  intros [[r0 H] _] Hn. unfold record_of_json. rewrite canon_idem by apply model_dump_ok. rewrite rl_canon, rl_load by done.
  by apply (record_idem r0).
Qed.
Lemma entry_reads prior r :
  retained jc r → has_nan (model_dump r) = false →
  match prior with Some p => str_ltb p (effect_id (jr_effect r)) | None => true end = true →
  load_entry jc prior (canon (model_dump r)) = Ok r.
Proof using RL.
  intros Hr Hn Hp. pose proof (record_reads r Hr Hn) as E. destruct (rl_object r) as [kv Hkv].
  assert (Hd : dumps_strict (canon (model_dump r)) = Ok (dumps (canon (model_dump r))))
    by (unfold dumps_strict; by rewrite has_nan_canon, Hn).
  assert (Hc : ∃ kv', canon (model_dump r) = JObj kv') by (rewrite Hkv; cbn [canon]; by eexists).
  destruct Hc as [kv' Hc]. rewrite Hc in *. unfold load_entry. rewrite Hd. cbn [mbind result_bind]. rewrite E.
  cbn [mbind result_bind]. destruct Hr as [_ Hv]. rewrite Hv. cbn [mbind result_bind]. by rewrite Hp.
Qed.
Definition in_order (a b : string) : Prop := str_ltb a b = true.
Lemma entries_read (rs : Records) ks : ∀ prior (acc : Records),
  wf_records jc rs → (∀ k, k ∈ ks → is_Some (rs !! k)) → StronglySorted in_order ks →
  (∀ p k, prior = Some p → k ∈ ks → str_ltb p k = true) →
  existsb (λ r, has_nan (model_dump r)) (omap (λ k, rs !! k) ks) = false →
  ∃ rs', load_entries jc prior acc ((λ r, canon (model_dump r)) <$> omap (λ k, rs !! k) ks) = Ok rs'
    ∧ ∀ k, rs' !! k = if bool_decide (k ∈ ks) then rs !! k else acc !! k.
Proof using RL.
  induction ks as [|k ks IH]; intros prior acc W Hin Hs Hp Hn.
  { exists acc. split; [done|]. intros k. by rewrite bool_decide_eq_false_2 by apply not_elem_of_nil. }
  destruct (Hin k) as [r Hr]; [by left|]. destruct (W _ _ Hr) as [Hk Hret]. cbn [omap list_omap] in Hn |- *.
  rewrite Hr in Hn |- *. cbn [existsb] in Hn. apply orb_false_iff in Hn as [Hn1 Hn2].
  inversion Hs as [|? ? Hs' Hall]; subst. cbn [fmap list_fmap load_entries].
  rewrite entry_reads; [|done|done|destruct prior as [p|]; [apply Hp; [done|by left]|done]].
  cbn [mbind result_bind].
  destruct (IH (Some (effect_id (jr_effect r))) (<[effect_id (jr_effect r) := r]> acc)) as (rs' & E & Hrs').
  - done.
  - intros k Hk. apply Hin. by right.
  - done.
  - intros p k [= <-] Hk. rewrite Forall_forall in Hall. by apply Hall.
  - done.
  - exists rs'. split; [exact E|]. intros k. rewrite Hrs'. destruct (decide (k ∈ ks)) as [H|H].
    { by rewrite !bool_decide_eq_true_2 by (by right || done). }
    rewrite (bool_decide_eq_false_2 (k ∈ ks)) by done. destruct (decide (k = effect_id (jr_effect r))) as [->|N].
    + rewrite lookup_insert_eq, bool_decide_eq_true_2 by by left. done.
    + rewrite lookup_insert_ne, bool_decide_eq_false_2; [done| |done]. by intros [?|?]%elem_of_cons.
Qed.

Lemma keys_sorted (rs : Records) : StronglySorted in_order (sorted_strs (map_to_list rs).*1).
Proof using Type.
  assert (Hnd : NoDup (sorted_strs (map_to_list rs).*1))
    by (unfold sorted_strs; rewrite merge_sort_Permutation; apply NoDup_fst_map_to_list).
  revert Hnd. pose proof (StronglySorted_merge_sort str_le (map_to_list rs).*1) as Hs. fold (sorted_strs (map_to_list rs).*1) in Hs.
  revert Hs. induction (sorted_strs _) as [|k l IH]; intros Hs Hnd; [constructor|].
  inversion Hs as [|? ? Hs' Hall]; subst. apply NoDup_cons in Hnd as [Hr Hnd]. constructor; [by apply IH|].
  rewrite Forall_forall in Hall |- *. intros x Hx. apply le_ne_lt; [by apply Hall|]. by intros ->.
Qed.
Lemma elem_of_keys (rs : Records) k : k ∈ sorted_strs (map_to_list rs).*1 ↔ is_Some (rs !! k).
Proof using Type.
  unfold sorted_strs. rewrite merge_sort_Permutation. split.
  - intros ([k' r] & -> & Hkr)%list_elem_of_fmap. apply elem_of_map_to_list in Hkr. by exists r.
  - intros [r Hr]. apply list_elem_of_fmap. exists (k, r). split; [done|by apply elem_of_map_to_list].
Qed.
Lemma length_omap_all {A B} (f : A → option B) l : (∀ x, x ∈ l → is_Some (f x)) → length (omap f l) = length l.
Proof using Type.
  induction l as [|x l IH]; intros H; [done|]. cbn [omap list_omap]. destruct (H x) as [y ->]; [by left|].
  cbn [length]. f_equal. apply IH. intros z Hz. apply H. by right.
Qed.
Lemma length_sorted (rs : Records) : length (sorted_records rs) = size rs.
Proof using Type.
  unfold sorted_records. rewrite length_omap_all by (intros k; apply elem_of_keys).
  unfold sorted_strs. by rewrite merge_sort_Permutation, length_fmap, length_map_to_list.
Qed.

Lemma canon_entry_keys rs : (canon_items jc rs).*1 ≡ₚ ["schema_version"; "journal_role"; "owner_subject"; "entries"].
Proof using Type.
  unfold canon_items. rewrite merge_sort_Permutation. cbn. by apply (bool_decide_unpack _).
Qed.
Lemma field_reads rs k v :
  dict_get k (document_items jc rs) = Some (JStr v) → field_is (canon_items jc rs) k v = true.
Proof using Type. intros H. unfold field_is. rewrite canon_items_lookup, H. cbn. by rewrite bool_decide_eq_true_2. Qed.
(** What was written loads. *)
Lemma stored_loads rs bytes : Stored jc rs bytes → load_document jc bytes = Ok rs.
Proof using RL.
  intros [Hb W [ix Hix] Hsize _].
  assert (Hn : has_nan (document jc rs) = false) by (unfold dumps_strict in Hb; by destruct (has_nan _)).
  unfold dumps_strict in Hb. rewrite Hn in Hb. apply Ok_inj in Hb. subst bytes.
  unfold load_document, parse_journal. rewrite utf8_decode_ascii by (apply print_ascii, json_ok_canon, document_ok).
  rewrite loads_dumps by (apply closed_object_good || apply document_ok). cbn [as_journal_error mbind result_bind].
  rewrite canon_journal. rewrite keys_are_perm by apply canon_entry_keys. cbn [ensure mbind result_bind].
  rewrite !field_reads by reflexivity. cbn [ensure andb mbind result_bind].
  rewrite canon_items_entries. rewrite length_fmap, length_sorted. rewrite (proj2 (Z.leb_le _ _)) by done.
  cbn [ensure mbind result_bind]. destruct (entries_read rs (sorted_strs (map_to_list rs).*1) None ∅) as (rs' & E & Hrs').
  - done.
  - intros k. by rewrite elem_of_keys.
  - apply keys_sorted.
  - done.
  - fold (sorted_records rs). unfold document in Hn. cbn [has_nan existsb] in Hn. rewrite !orb_false_r in Hn.
    clear -Hn. induction (sorted_records rs) as [|r l IH]; [done|]. cbn [fmap list_fmap existsb] in *.
    apply orb_false_iff in Hn as [-> Hn]. by apply IH.
  - fold (sorted_records rs) in E. assert (rs' = rs) as ->.
    { apply map_eq. intros k. rewrite Hrs', lookup_empty. case_bool_decide as Hk; [done|].
      rewrite elem_of_keys in Hk. by apply eq_None_not_Some in Hk. }
    rewrite E. cbn [mbind result_bind]. rewrite Hix. cbn [mbind result_bind as_journal_error].
    unfold dumps_strict. rewrite Hn. cbn [as_journal_error mbind result_bind]. by rewrite bool_decide_eq_true_2.
Qed.

(** ** The lock is some process's *)
Definition lock_owned (s : JSystem) : Prop :=
  dk_locked (js_disk s) = true → ∃ p j, js_processes s !! p = Some j ∧ is_Some (jn_writer j).
Lemma lock_owned_insert d d' ps p j j' :
  lock_owned (mk_JSystem d ps) → ps !! p = Some j → jn_writer j' = jn_writer j → dk_locked d' = dk_locked d →
  lock_owned (mk_JSystem d' (<[p := j']> ps)).
Proof using Type.
  intros H Hp Hw E L. cbn [js_disk js_processes] in *. rewrite E in L. destruct (H L) as (q & k & Hq & Hk).
  destruct (decide (q = p)) as [->|N].
  - exists p, j'. rewrite lookup_insert_eq. split; [done|]. cbn [js_processes] in Hq. rewrite Hp in Hq. injection Hq as <-. by rewrite Hw.
  - exists q, k. by rewrite lookup_insert_ne.
Qed.
Lemma step_lock_owned s es s' : jstep jc s es s' → sound jc s → lock_owned s → lock_owned s'.
Proof using RL.
  intros H I O. destruct H as [d ps p initialize r d' Hp Hi|d ps p j caller op recorded now r j' d' Hp Hr Ho
    |d ps p j r j' d' Hp Hc|d ps p j Hp].
  - pose proof (init_run jc _ _ _ _ _ Hi) as [_ Hj]. destruct r as [j|e].
    + intros _. exists p, j. cbn [js_processes]. rewrite lookup_insert_eq. split; [done|]. by eapply init_writer.
    + intros L. cbn [js_disk] in L. rewrite Hj in L. by apply O.
  - assert (C : coherent jc (j, d)) by (intros U W; by apply (so_locked _ _ I p j Hp W)).
    destruct (triple_perform jc caller (j, d) op recorded now (j, d) r (j', d') C eq_refl Ho) as [A _].
    eapply lock_owned_insert; [exact O|exact Hp|exact (av_writer _ _ _ A)|exact (av_locked _ _ _ A)].
  - unfold journal_close in Hc. cbn [fst snd] in Hc. destruct (jn_writer j) eqn:Hw; injection Hc as <- <- <-; [by intros ?|].
    by apply (lock_owned_insert d d ps p j j).
  - unfold released. destruct (jn_writer j) eqn:Hw; [by intros ?|]. intros L. destruct (O L) as (q & k & Hq & Hk).
    cbn [js_processes] in *. exists q, k. rewrite lookup_delete_ne; [done|]. intros <-. rewrite Hp in Hq. injection Hq as <-.
    rewrite Hw in Hk. by destruct Hk.
Qed.
Lemma run_lock_owned s es s' : jrun jc s es s' → sound jc s → lock_owned s → lock_owned s'.
Proof using RL.
  induction 1 as [s|s es1 s1 es2 s2 Hs Hr IH]; intros I O; [done|].
  pose proof (step_sound _ _ _ _ Hs I) as (I1 & _). apply IH; [done|by eapply step_lock_owned].
Qed.

(** ** Opening *)
Record openable (d : Disk) : Prop := {
  op_parent : dk_parent d = ParentDirectory 448;
  op_sidecar : dk_sidecar d = SidecarAbsent ∨ dk_sidecar d = SidecarFile mode_0600;
  op_unlocked : dk_locked d = false;
  op_reads : read_fails (dk_step d) = false;
}.
Lemma opens d rs p :
  openable d → holds jc d rs → identity "owner subject" (jc_owner_subject jc) = Ok (jc_owner_subject jc) →
  ∃ d', journal_init jc p false d = (Ok (mk_Journal (Some p) rs false), d').
Proof using RL.
  intros [Hp Hs Hl Hr] (bytes & He & Hst) Hid. pose proof (stored_loads _ _ Hst) as Hload. destruct Hst as [_ _ _ _ Hlen].
  unfold journal_init. rewrite Hid. unfold check_parent at 1. rewrite Hp. cbn [ensure Z.eqb Pos.eqb].
  assert (Ha : ∃ sc, acquire_writer_lock d = (Ok tt, set_lock sc true d)).
  { unfold acquire_writer_lock. destruct Hs as [-> | ->]; rewrite Hl; by eexists. }
  destruct Ha as [sc ->]. unfold journal_open_locked, journal_load, mbind, M_bind, assert_writer. cbn [fst snd jn_unusable jn_writer mret M_ret].
  rewrite Z.eqb_refl. unfold on_disk, zoom, check_parent, read_entry. cbn [fst snd set_lock dk_parent dk_entry dk_step].
  rewrite Hp. cbn [ensure Z.eqb Pos.eqb]. rewrite He. cbn [mode_0600 ensure Z.eqb Pos.eqb result_bind].
  rewrite (proj2 (Z.leb_le _ _) Hlen). cbn [ensure result_bind]. rewrite Hr. unfold lift, mbind, result_bind. rewrite Hload. by eexists.
Qed.

(** Every process has closed its journal or died. *)
Definition no_writer (ps : gmap Z Journal) : Prop := ∀ q j, ps !! q = Some j → jn_writer j = None.

(** C30 After any run, when every process has closed its journal or died, another
    process that can read the directory opens the journal again and finds every
    record that was retained, evolved. *)
Theorem journal_reopens d es d' ps rs p :
  jrun jc (mk_JSystem d ∅) es (mk_JSystem d' ps) → dk_locked d = false → holds jc d rs →
  no_writer ps → ps !! p = None →
  identity "owner subject" (jc_owner_subject jc) = Ok (jc_owner_subject jc) →
  dk_parent d' = ParentDirectory 448 → dk_sidecar d' = SidecarAbsent ∨ dk_sidecar d' = SidecarFile mode_0600 →
  read_fails (dk_step d') = false →
  ∃ j d2, jstep jc (mk_JSystem d' ps) [] (mk_JSystem d2 (<[p := j]> ps))
    ∧ ∀ id r, rs !! id = Some r →
        ∃ r', journal_get p (jr_effect r) (j, d2) = (Ok (Some r'), (j, d2)) ∧ evolves r r'.
Proof using RL.
  intros H Hl Hh Hclosed Hp Hid Hpar Hs Hr.
  destruct (run_sound _ _ _ _ H (sound_idle jc d)) as [_ G]. destruct (G _ Hh) as (rs' & Hh' & E).
  assert (O : lock_owned (mk_JSystem d' ps)).
  { apply (run_lock_owned _ _ _ H (sound_idle jc d)). intros L. cbn in L. congruence. }
  assert (Hl' : dk_locked d' = false).
  { destruct (dk_locked d') eqn:L; [|done]. destruct (O L) as (q & j & Hq & Hj). rewrite (Hclosed q j Hq) in Hj. by destruct Hj. }
  destruct (opens d' rs' p) as [d2 Ho]; [by split|done|done|].
  exists (mk_Journal (Some p) rs' false), d2. split; [exact (jstep_open jc d' ps p false _ d2 Hp Ho)|].
  intros id r Hid'. destruct (E _ _ Hid') as (r' & Hr' & Ev). exists r'. split; [|done].
  destruct Hh as (b & _ & [_ W _ _ _]). destruct (W _ _ Hid') as [Hk _].
  unfold journal_get, records_read, mbind, M_bind, assert_writer. cbn [fst snd jn_unusable jn_writer]. rewrite Z.eqb_refl.
  unfold get, lift. cbn [fst snd jn_records]. unfold lookup_effect. rewrite Hk, Hr'. unfold no_collision.
  rewrite bool_decide_eq_true_2 by apply (ev_effect _ _ Ev). done.
Qed.

(** ** What a journal hands out *)
(** A process's [get] of an effect returns a record. *)
Definition hands_out (s : JSystem) (e : EffectIdentity) (r : CoordinationJournalRecord) : Prop :=
  ∃ p j caller t, js_processes s !! p = Some j ∧ journal_get caller e (j, js_disk s) = (Ok (Some r), t).
(** A record a process reads is one the file holds. *)
Lemma hands_out_held s e r :
  sound jc s → hands_out s e r → jr_effect r = e ∧ ∃ rs, holds jc (js_disk s) rs ∧ rs !! effect_id e = Some r.
Proof using RL.
  intros I (p & j & caller & t & Hp & Hg).
  unfold journal_get, records_read in Hg. apply M_bind_Ok in Hg as ([] & t1 & Ha & Hg).
  apply assert_writer_run in Ha as [-> Hw]. destruct (Hw eq_refl) as [U W]. cbn [fst snd] in U, W.
  apply M_bind_Ok in Hg as (s1 & t2 & [= <- <-] & Hg). apply lift_Ok in Hg as [Hg _]. cbn [fst snd] in Hg.
  apply lookup_effect_Ok in Hg as [Hl He]. split; [done|].
  destruct (so_locked _ _ I p j Hp) as [_ C]; [by rewrite W|]. exists (jn_records j). split; [|done].
  apply (C U). cbn [fst]. by rewrite W.
Qed.
Lemma held_retained d rs id r : holds jc d rs → rs !! id = Some r → effect_id (jr_effect r) = id ∧ retained jc r.
Proof using Type. intros (b & _ & [_ W _ _ _]) H. by apply (W _ _ H). Qed.
Lemma get_holds d es s' e r :
  jrun jc (mk_JSystem d ∅) es s' → hands_out s' e r → jr_effect r = e ∧ retained jc r.
Proof using RL.
  intros H Hg. destruct (run_sound _ _ _ _ H (sound_idle jc d)) as [I _].
  destruct (hands_out_held _ _ _ I Hg) as (He & rs & Hh & Hl). split; [done|by eapply held_retained].
Qed.

(** C31 Every record a journal hands out, in whatever state its processes and its
    file are, is the record asked for and passes every construction check again;
    its states are a legal path, its attempts are numbered and all its own, and a
    coordinator's commits have their acceptance. *)
Theorem records_well_formed d es s' e r :
  jrun jc (mk_JSystem d ∅) es s' → hands_out s' e r →
  jr_effect r = e ∧ record_reread r = Ok r ∧ state_path (tr_state <$> jr_transitions r)
  ∧ (∀ i a, jr_attempts r !! i = Some a → at_sequence (attempt_base a) = (Z.of_nat i + 1)%Z ∧ attempt_effect a = e)
  ∧ (jc_role jc = ROLE_EFFECT_COORDINATOR → ∀ c, Commit c ∈ jr_attempts r → is_Some (tc_acceptance c)).
Proof using RL.
  intros H Hg. destruct (get_holds _ _ _ _ _ H Hg) as [He Hr].
  pose proof (retained_valid jc _ Hr) as Hv. destruct Hr as [[r0 Hr] Hrole].
  split; [done|]. split; [by apply (record_idem r0)|]. split; [by apply checked_path|]. split.
  - intros i a Ha. destruct (record_checks r Hv) as (h & _ & _ & _ & Hh & _).
    destruct (history_numbered _ _ _ _ _ Hh _ _ Ha) as [E E']. split; [lia|congruence].
  - intros Hc c Hin. unfold validate_role_history in Hrole. rewrite bool_decide_eq_true_2 in Hrole by done.
    apply ensure_true in Hrole. rewrite forallb_forall in Hrole. apply list_elem_of_In in Hin.
    apply Hrole in Hin. by apply bool_decide_eq_true in Hin.
Qed.

(** C29 A record that a journal hands out as applied or rejected has its evidence:
    a retained, signed outcome whose digest is the last transition's evidence, the
    device's verified acknowledgment of that status for the accepted dispatch, and
    the signed acceptance of a signed commit request, all for this effect. *)
Theorem applied_is_acknowledged d es s' e r :
  jrun jc (mk_JSystem d ∅) es s' → hands_out s' e r → jr_state r ∈ [STATE_APPLIED; STATE_REJECTED] →
  jr_effect r = e ∧ ∃ o x k, TerminalEvidence r o x k.
Proof using RL.
  intros H Hg Hs. destruct (get_holds _ _ _ _ _ H Hg) as [He [[r0 Hr] _]].
  split; [done|by eapply terminal_evidence].
Qed.
End reopen.
