(* ===== verification/OtRuns.v ===== *)
(** * Runs of OT coordinators over one journal

    Coordinators open the journal's file, prepare, commit and answer queries, and
    die at any point, also between a commit's admission, the device's answer and
    the record of the outcome.  Over every run the device is asked at most once to
    carry out an effect, only for an authenticated commit the journal retained, and
    never for an effect that was answered as not dispatched. *)
From S2P Require Import Prelude PyStr PyTime PyJson Sha256 Crypto Models PhysicalModels CapabilityModels.
From S2P Require Import DurableReplay TrustState Workload WorkloadVerifier WorkloadRuns CoordinationModels CoordinationMessages.
From S2P Require Import CoordinationVerify CoordinationRecord CoordinationJournal CoordinationRecovery CoordinationOps.
From S2P Require Import OtRuntime CoordinationHistory CoordinationRuns CoordinationSystem CoordinationReopen.

Section ot_runs.
Context {ED : Ed25519} {ER : Ed25519Raw} {MD : MessageDumps} {FS : FsEnv} {DRec : ModelDump WorkloadCredential}
  {DJ : ModelDump CoordinationJournalRecord} {LJ : ModelLoad CoordinationJournalRecord} {RL : RecordLaws}.
Context {V : Type} {CV : CredentialVerifier V} {CB : CredentialBindings V} {OE : OtEnvironment}.
Variable cf : OtConfig.
Abbreviation jc := (ot_journal cf).
Hypothesis coordinator_role : jc_role jc = ROLE_EFFECT_COORDINATOR.
Abbreviation OtM := (M (OtState V)).

(** ** What a call does to the journal *)
(** Operations of the coordinator's journal in sequence. *)
Inductive jcalls (p : Z) : JournalState → list JEvent → JournalState → Prop :=
  | jcalls_nil s : jcalls p s [] s
  | jcalls_cons s op recorded now r s1 es s2 :
      (∀ role, op_role op = Some role → role = ROLE_EFFECT_COORDINATOR) →
      perform jc p op recorded now s = (r, s1) → jcalls p s1 es s2 → jcalls p s ((p, op, r) :: es) s2.
Lemma jcalls_trans p s es s1 es' s2 : jcalls p s es s1 → jcalls p s1 es' s2 → jcalls p s (es ++ es') s2.
Proof using Type. induction 1; [done|]. intros H'. cbn [app]. by eapply jcalls_cons; [..|auto]. Qed.
Lemma jcalls_one p s op recorded now r s1 :
  (∀ role, op_role op = Some role → role = ROLE_EFFECT_COORDINATOR) →
  perform jc p op recorded now s = (r, s1) → jcalls p s [(p, op, r)] s1.
Proof using Type. intros Ho H. by eapply jcalls_cons; [..|constructor]. Qed.
Lemma jcalls_run p es d ps j d' j' :
  jcalls p (j, d) es (j', d') → ps !! p = Some j → jrun jc (mk_JSystem d ps) es (mk_JSystem d' (<[p := j']> ps)).
Proof using coordinator_role.
  remember (j, d) as s eqn:Es. remember (j', d') as s' eqn:Es'. intros H. revert j d ps Es Es'.
  induction H as [s|s op recorded now r s1 es s2 Ho Hp Hr IH]; intros j d ps -> Es' Hj.
  - injection Es' as -> ->. rewrite insert_id by done. constructor.
  - destruct s1 as [j1 d1]. rewrite <- (insert_insert_eq ps p j' j1).
    apply (jrun_cons jc (mk_JSystem d ps) [(p, op, r)] (mk_JSystem d1 (<[p := j1]> ps)) es).
    + apply (jstep_perform jc d ps p j p op recorded now r j1 d1); [done| |exact Hp].
      intros role Hrole. rewrite (Ho role Hrole). by rewrite coordinator_role.
    + apply (IH j1 d1 (<[p := j1]> ps) eq_refl Es'). apply lookup_insert_eq.
Qed.

(** The journal and the device are untouched. *)
Definition quiet (s s' : OtState V) : Prop := os_journal s' = os_journal s ∧ os_calls s' = os_calls s.
#[global] Instance quiet_pre : PreOrder quiet.
Proof using Type. split; [by intros s|]. intros s1 s2 s3 [A B] [C D]. split; congruence. Qed.
(** Only operations of the journal happened. *)
Definition path (p : Z) (s s' : OtState V) : Prop :=
  ∃ es, jcalls p (os_journal s) es (os_journal s') ∧ os_calls s' = os_calls s.
#[global] Instance path_pre p : PreOrder (path p).
Proof using Type.
  split; [intros s; exists []; split; [constructor|done]|].
  intros s1 s2 s3 (es & H & E) (es' & H' & E'). exists (es ++ es'). split; [by eapply jcalls_trans|congruence].
Qed.
Lemma quiet_path p s s' : quiet s s' → path p s s'.
Proof using Type. intros [E E']. exists []. rewrite E. split; [constructor|done]. Qed.
Lemma preserves_path {A} p (m : OtM A) : preserves quiet m → preserves (path p) m.
Proof using Type. intros H s. by apply quiet_path. Qed.
Lemma preserves_try {S A} (R : relation S) `{!PreOrder R} (m : M S A) h :
  preserves R m → (∀ e k, h e = Some k → preserves R k) → preserves R (try_except m h).
Proof using Type.
  intros Hm Hh s. unfold try_except. specialize (Hm s). destruct (m s) as [[a|e] s1]; [done|].
  destruct (h e) as [k|] eqn:E; [|done]. etrans; [exact Hm|]. by apply (Hh e).
Qed.
Lemma preserves_all_hold {S} (R : relation S) `{!PreOrder R} (l : list (M S bool)) :
  Forall (preserves R) l → preserves R (all_hold l).
Proof using Type.
  induction 1 as [|m l Hm Hl IH]; cbn [all_hold]; [apply preserves_ret, _|].
  apply preserves_bind; [apply _|done|]. intros []; [done|apply preserves_ret, _].
Qed.

(** *** What leaves the journal alone *)
Lemma quiet_local f : preserves quiet (modify_local (V := V) f).
Proof using Type. by intros s. Qed.
Lemma quiet_trust {A} (m : M V A) : preserves quiet (on_trust m).
Proof using Type. intros s. unfold on_trust, zoom. by destruct (m _). Qed.
Lemma quiet_read {A} (m : M JournalState A) : (∀ s, (m s).2 = s) → preserves quiet (on_journal (V := V) m).
Proof using Type. intros H s. unfold on_journal, zoom. specialize (H (os_journal s)). by destruct (m _) as [r j]; cbn in H; subst. Qed.
Lemma records_read_same {A} pid (f : Records → result A) s : (records_read pid f s).2 = s.
Proof using Type.
  unfold records_read, mbind, M_bind. destruct (assert_writer pid s) as [[[]|e] s1] eqn:E; apply assert_writer_run in E as [-> _];
    [|done]. done.
Qed.
Lemma quiet_records pid : preserves quiet (on_journal (V := V) (journal_records pid)).
Proof using Type. apply quiet_read. intros s. apply records_read_same. Qed.
Lemma quiet_pending pid : preserves quiet (on_journal (V := V) (journal_pending pid)).
Proof using Type. apply quiet_read. intros s. apply records_read_same. Qed.
Lemma quiet_get pid e : preserves quiet (on_journal (V := V) (journal_get pid e)).
Proof using Type. apply quiet_read. intros s. apply records_read_same. Qed.
Hint Resolve quiet_local quiet_trust quiet_records quiet_pending quiet_get : frames.
Lemma quiet_get_local : preserves quiet (local (V := V)).
Proof using Type. unfold local. frame. Qed.
Hint Resolve quiet_get_local : frames.
Lemma quiet_marker m : preserves quiet (set_marker (V := V) m).
Proof using Type. apply quiet_local. Qed.
Lemma quiet_recovery r pl : preserves quiet (set_recovery (V := V) r pl).
Proof using Type. apply quiet_local. Qed.
Lemma quiet_clock : preserves quiet (clock (V := V)).
Proof using Type. unfold clock. frame. Qed.
Lemma quiet_plant : preserves quiet (load_plant_health (V := V)).
Proof using Type. unfold load_plant_health. frame. Qed.
Lemma quiet_anchor phase e q t : preserves quiet (ask_anchor (V := V) phase e q t).
Proof using Type. unfold ask_anchor. frame. Qed.
Hint Resolve quiet_marker quiet_recovery quiet_clock quiet_plant quiet_anchor : frames.
Lemma quiet_refresh pid : preserves quiet (refresh_recovery (V := V) cf pid).
Proof using Type. unfold refresh_recovery. frame. Qed.
Hint Resolve quiet_refresh : frames.
Lemma quiet_alignment pid a : preserves quiet (require_alignment (V := V) cf pid a).
Proof using Type. unfold require_alignment. frame. Qed.
Lemma quiet_admission phase e q t : preserves quiet (require_anchor_admission (V := V) cf phase e q t).
Proof using Type. unfold require_anchor_admission. frame. Qed.
Lemma quiet_context t : preserves quiet (coordination_context (V := V) cf t).
Proof using OE. unfold coordination_context. frame. Qed.
Hint Resolve quiet_alignment quiet_admission quiet_context : frames.
Ltac quiet_all :=
  apply preserves_all_hold; [apply _|]; repeat first [apply Forall_nil_2 | apply Forall_cons_2];
  eauto with frames typeclass_instances.
Lemma quiet_stored_receipt c cx t : preserves quiet (stored_receipt_complete (V := V) cf c cx t).
Proof using OE. unfold stored_receipt_complete. quiet_all. Qed.
Lemma quiet_receipt_response c q cx t : preserves quiet (receipt_complete_for_response (V := V) cf c q cx t).
Proof using OE. unfold receipt_complete_for_response. quiet_all. Qed.
Lemma quiet_stored_acceptance a cx t : preserves quiet (stored_acceptance_complete (V := V) cf a cx t).
Proof using Type. apply quiet_trust. Qed.
Lemma quiet_retained_outcome q a cx t o : preserves quiet (retained_outcome_complete (V := V) cf q a cx t o).
Proof using OE. unfold retained_outcome_complete. quiet_all. Qed.
Hint Resolve quiet_stored_receipt quiet_receipt_response quiet_stored_acceptance quiet_retained_outcome : frames.
Lemma quiet_query_answer cx r t : preserves quiet (query_answer (V := V) cf cx r t).
Proof using OE. unfold query_answer. frame. Qed.
Hint Resolve quiet_query_answer : frames.
Lemma quiet_issue_query cx q r t : preserves quiet (issue_query_outcome (V := V) cf cx q r t).
Proof using OE. unfold issue_query_outcome. frame. Qed.
Lemma quiet_query_complete pid q o cx t : preserves quiet (query_outcome_complete (V := V) cf pid q o cx t).
Proof using OE. unfold query_outcome_complete. frame; quiet_all. all: quiet_all. Qed.
Lemma quiet_hook : preserves quiet (run_terminal_hook (V := V) cf).
Proof using OE. unfold run_terminal_hook. frame. Qed.
Hint Resolve quiet_issue_query quiet_query_complete quiet_hook : frames.

(** *** Operations of the journal *)
Lemma path_op {A} p op recorded now (m : M JournalState A) f :
  (∀ role, op_role op = Some role → role = ROLE_EFFECT_COORDINATOR) → perform jc p op recorded now = reply_with f m →
  preserves (path p) (on_journal (V := V) m).
Proof using Type.
  intros Ho Hm s. unfold on_journal, zoom. exists [(p, op, (perform jc p op recorded now (os_journal s)).1)].
  assert (E : (perform jc p op recorded now (os_journal s)).2 = (m (os_journal s)).2).
  { rewrite Hm. unfold reply_with, mbind, M_bind. by destruct (m (os_journal s)) as [[a|e] j]. }
  destruct (m (os_journal s)) as [r j] eqn:Em. cbn [snd os_journal os_calls]. split; [|done].
  apply (jcalls_one p _ op recorded now); [done|]. cbn [snd] in E. rewrite <- E. by destruct (perform _ _ _ _ _ _).
Qed.
Lemma path_prepare p q issue t now : preserves (path p) (on_journal (V := V) (prepare_effect jc p q issue t now)).
Proof using Type. apply (path_op p (PrepareEffect q issue) t now _ ReplyReceipt); [by intros role [= <-]|done]. Qed.
Lemma path_begin p q issue t now : preserves (path p) (on_journal (V := V) (begin_commit jc p q issue t now)).
Proof using Type. apply (path_op p (BeginCommit q issue) t now _ ReplyAdmission); [by intros role [= <-]|done]. Qed.
Lemma path_finish p q o t now : preserves (path p) (on_journal (V := V) (finish_commit jc p q o t now)).
Proof using Type. apply (path_op p (FinishCommit q o) t now _ ReplyRecord); [by intros role [= <-]|done]. Qed.
Lemma path_mark p q reason ev t now : preserves (path p) (on_journal (V := V) (mark_commit_unknown jc p q reason ev t now)).
Proof using Type. apply (path_op p (MarkCommitUnknown q reason ev) t now _ ReplyRecord); [by intros role [=]|done]. Qed.
Lemma current_same p s : (current_records p s).2 = s.
Proof using Type.
  unfold current_records, mbind, M_bind. destruct (assert_writer p s) as [[[]|e] s1] eqn:E;
    apply assert_writer_run in E as [-> _]; done.
Qed.
(** An issuer that leaves the journal alone answers as a function of the call's state. *)
Lemma path_answer p q issue t now :
  (∀ q r t, preserves quiet (issue q r t)) →
  preserves (path p) (answer_query_in (S := OtState V) jc p (@on_journal V) q issue t now).
Proof using Type.
  intros Hq s. set (issue' := λ q r t, (issue q r t s).1).
  assert (K : os_journal (answer_query_in jc p (@on_journal V) q issue t now s).2
              = (answer_query jc p q issue' t now (os_journal s)).2
              ∧ os_calls (answer_query_in jc p (@on_journal V) q issue t now s).2 = os_calls s).
  { unfold answer_query, answer_query_in, mbind, M_bind, on_journal, zoom, lift, mret, M_ret.
    pose proof (current_same p (os_journal s)) as E. destruct (current_records p (os_journal s)) as [[rs|e] j];
      cbn [snd] in E; subst j; [|done]. set (s' := mk_OtState _ _ _). assert (Es : s' = s) by by destruct s.
    rewrite Es. clear Es s'.
    destruct (find_effect _ _ _) as [r|e]; [|done]. destruct (digest_of q) as [d|e]; [|done].
    destruct (option_bind _ _ _ _) as [o|]; [done|]. destruct (when_ t now) as [at_|e]; [|done].
    unfold issue'. pose proof (Hq q r at_ s) as [Ej Ec].
    destruct (issue q r at_ s) as [[o|e] s1]; cbn [fst snd] in *; [|done].
    rewrite Ej. destruct (complete_query_record _ _ _ _ _ _ _ _) as [[v|e] j]; done. }
  destruct K as [Kj Kc]. exists [(p, AnswerQuery q issue', (perform jc p (AnswerQuery q issue') t now (os_journal s)).1)].
  split; [|done]. rewrite Kj. apply (jcalls_one p _ _ t now); [by intros role [= <-]|].
  cbn [perform]. unfold reply_with, mbind, M_bind. by destruct (answer_query _ _ _ _ _ _ _) as [[a|e] j].
Qed.

Hint Resolve preserves_path path_prepare path_begin path_finish path_mark path_answer : frames.
Lemma path_handled {A} p msg (m : OtM A) : preserves (path p) m → preserves (path p) (handled msg m).
Proof using Type.
  intros H. apply preserves_try; [apply _|done|]. intros e k Hk.
  repeat (case_match; [injection Hk as <-; apply preserves_lift, _|]). discriminate Hk.
Qed.
Lemma path_prepare_call p q : preserves (path p) (prepare_effect_call cf p q).
Proof using OE.
  unfold prepare_effect_call, authenticated. apply preserves_bind; [apply _|eauto with frames|intros t].
  apply preserves_bind; [apply _|eauto with frames|intros cx].
  apply preserves_bind; [apply _|apply preserves_path; quiet_all|intros ok].
  apply preserves_bind; [apply _|apply preserves_lift, _|intros _]. apply path_handled. frame.
Qed.
Lemma path_query_call p q : preserves (path p) (query_effect cf p q).
Proof using OE.
  unfold query_effect, authenticated. apply preserves_bind; [apply _|eauto with frames|intros t].
  apply preserves_bind; [apply _|eauto with frames|intros cx].
  apply preserves_bind; [apply _|apply preserves_path; quiet_all|intros ok].
  apply preserves_bind; [apply _|apply preserves_lift, _|intros _]. apply path_handled.
  apply preserves_bind; [apply _|eauto with frames|intros r].
  apply preserves_bind; [apply _|apply path_answer; eauto with frames|intros o]. frame.
Qed.
Lemma path_begin_effect p q cx t : preserves (path p) (begin_effect_commit (V := V) cf p q cx t).
Proof using OE. unfold begin_effect_commit. frame. Qed.
Hint Resolve path_begin_effect : frames.
Lemma path_admit p q : preserves (path p) (commit_admit cf p q).
Proof using OE.
  unfold commit_admit, authenticated. apply preserves_bind; [apply _|eauto with frames|intros t].
  apply preserves_bind; [apply _|eauto with frames|intros cx].
  apply preserves_bind; [apply _|apply preserves_path; quiet_all|intros ok].
  frame.
Qed.
Lemma path_unknown p f : preserves (path p) (retain_unknown_commit_outcome (V := V) cf p f).
Proof using OE.
  unfold retain_unknown_commit_outcome. frame; (apply preserves_try; [apply _|frame|]);
    (intros x k Hk; case_match; [injection Hk as <-|discriminate Hk]; frame).
Qed.
Hint Resolve path_unknown : frames.
Lemma path_record p f a : preserves (path p) (commit_record (V := V) cf p f a).
Proof using OE.
  unfold commit_record. apply preserves_bind; [apply _|apply preserves_path; frame|intros issued].
  destruct issued as [o|e]; [|apply path_unknown]. apply preserves_bind; [apply _| |intros v; frame].
  apply preserves_try; [apply _|eauto with frames|].
  intros x k Hk. case_match; [injection Hk as <-|discriminate Hk]; frame.
Qed.
Lemma path_init p : preserves (path p) (ot_init (V := V) cf p).
Proof using OE. unfold ot_init. frame. Qed.

(** *** A commit that goes on to the device *)
Lemma must_Ok ok r : must ok r = Ok tt → ok = true ∨ r = Ok tt.
Proof using Type. destruct ok; [by left|by right]. Qed.
Lemma on_trust_Ok {A} (m : M V A) s a s' :
  on_trust m s = (Ok a, s') → ∃ v', m (ol_trust (os_local s)) = (Ok a, v').
Proof using Type. unfold on_trust, zoom. destruct (m _) as [r v]. intros [= -> _]. by exists v. Qed.
(** The request as it was authenticated, at a time and in a state of the verifier. *)
Definition authenticated_commit (q : SignedEffectCommitRequest) : Prop :=
  ∃ cx t v v', commit_complete q (ot_pins cf) (parties cx) EFFECT_COORDINATOR_AUDIENCE t MAX_COORDINATION_FUTURE_SKEW v
                 = (Ok true, v')
    ∧ sender_credential (cm_envelope q) = ri_credential (cx_gateway cx).
Lemma begin_effect_new p q cx t (s : OtState V) a (s' : OtState V) :
  begin_effect_commit cf p q cx t s = (Ok a, s') → ca_status a = NEW →
  os_calls s' = os_calls s
  ∧ ∃ es, jcalls p (os_journal s) es (os_journal s') ∧ effect_id (rv_effect (cm_envelope q)) ∈ admissions es.
Proof using Type.
  unfold begin_effect_commit. intros H Hn.
  apply M_bind_Ok in H as (begun & s1 & Hb & H). apply attempt_Ok in Hb as [Hb _].
  destruct begun as [a'|e].
  2:{ exfalso. unfold journal_failure, rejected, unavailable, raise_ in H. repeat case_match;
      try (apply M_bind_Ok in H as (? & ? & _ & H)); discriminate H. }
  apply M_bind_Ok in H as ([] & s2 & Hm & [= <- <-]). injection Hm as <-. cbn [os_calls os_journal set_local].
  apply zoom_run in Hb as (j & Hb & ->). cbn [os_calls os_journal os_local]. split; [done|].
  set (issue := λ (q : SignedEffectCommitRequest) (at_ : datetime),
    acceptance_issue q (cx_signer cx) at_ GATEWAY_COORDINATION_AUDIENCE) in Hb. exists [(p, BeginCommit q issue, Ok (ReplyAdmission a'))]. split.
  - apply (jcalls_one p _ _ (Some t) t); [by intros role [= <-]|]. cbn [perform]. unfold reply_with, mbind, M_bind.
    by rewrite Hb.
  - unfold admissions. cbn. rewrite bool_decide_eq_true_2 by done. apply list_elem_of_here.
Qed.
Lemma admit_new p q (s : OtState V) f (s' : OtState V) :
  commit_admit cf p q s = (Ok (inr f), s') →
  fl_request f = q ∧ authenticated_commit q ∧ os_calls s' = os_calls s
  ∧ ∃ es, jcalls p (os_journal s) es (os_journal s') ∧ effect_id (rv_effect (cm_envelope q)) ∈ admissions es.
Proof using OE.
  intros H. unfold commit_admit in H. apply M_bind_Ok in H as (t & s1 & Q1 & H).
  apply M_bind_Ok in H as (cx & s2 & Q2 & H). apply M_bind_Ok in H as (ok & s3 & Ha & H).
  apply M_bind_Ok in H as ([] & s4 & [Hok ->]%lift_Ok & H). apply M_bind_Ok in H as (d & s4 & [_ ->]%lift_Ok & H).
  apply M_bind_Ok in H as ([] & s4 & Q4 & H). apply M_bind_Ok in H as (r & s5 & Q5 & H).
  apply M_bind_Ok in H as (a & s6 & Hb & H). cbv zeta in H. apply M_bind_Ok in H as (st & s7 & Q7 & H).
  apply M_bind_Ok in H as ([] & s8 & [_ ->]%lift_Ok & H).
  assert (Hn : ca_status a = NEW ∧ f = mk_InFlight q (ca_acceptance a) cx ∧ s' = s7).
  { destruct (ca_status a); [injection H as <- <-; done| |discriminate H]. exfalso.
    destruct (retained_commit_outcome _ _); [|discriminate H].
    repeat (apply M_bind_Ok in H as (? & ? & _ & H)). discriminate H. }
  destruct Hn as (Hn & -> & ->). cbn [fl_request].
  assert (P1 : quiet s s5).
  { transitivity s1; [by apply (preserves_run quiet _ _ _ _ quiet_clock Q1)|].
    transitivity s2; [by apply (preserves_run quiet _ _ _ _ (quiet_context t) Q2)|].
    transitivity s3; [eapply (preserves_run quiet); [|exact Ha]; unfold authenticated; quiet_all|].
    transitivity s4; [eapply (preserves_run quiet); [|exact Q4]; apply quiet_admission|].
    eapply (preserves_run quiet); [|exact Q5]. apply quiet_alignment. }
  assert (P2 : quiet s6 s7) by (eapply (preserves_run quiet); [|exact Q7]; quiet_all).
  apply begin_effect_new in Hb as [Ec (es & Hj & Hin)]; [|done]. destruct P1 as [A B], P2 as [C D].
  split; [done|]. split; [|split; [congruence|exists es; rewrite C, <- A; done]].
  apply must_Ok in Hok as [->|[=]]. unfold authenticated in Ha. apply all_hold_cons in Ha as (u1 & Hs & Ha).
  injection Hs as Hs _. apply bool_decide_eq_true in Hs. apply all_hold_cons in Ha as (u2 & Hc & _).
  apply on_trust_Ok in Hc as [v' Hc]. by exists cx, t, (ol_trust (os_local u1)), v'.
Qed.

(** *** What an answered query says *)
Lemma handled_Ok {A} msg (m : OtM A) s a s' : handled msg m s = (Ok a, s') → m s = (Ok a, s').
Proof using Type.
  unfold handled, try_except. destruct (m s) as [[b|e] s1]; [done|]. intros H. exfalso.
  unfold journal_failure, rejected, unavailable, raise_ in H. repeat case_match; simplify_eq; discriminate.
Qed.
(** The record the journal has for the effect. *)
Definition has_record (p : Z) (s : OtState V) (e : EffectIdentity) (r : CoordinationJournalRecord) : Prop :=
  (journal_get p e (os_journal s)).1 = Ok (Some r).
Lemma has_record_quiet p s s' e r : quiet s s' → has_record p s e r → has_record p s' e r.
Proof using Type. unfold has_record. by intros [-> _]. Qed.
Lemma get_record p e (s : OtState V) r s' : on_journal (journal_get p e) s = (Ok (Some r), s') → has_record p s e r.
Proof using Type. intros H. apply zoom_run in H as (j & H & _). unfold has_record. by rewrite H. Qed.
Lemma complete_record p q o cx t (s s' : OtState V) :
  query_outcome_complete cf p q o cx t s = (Ok true, s') →
  ∃ r, has_record p s (rv_effect (qr_envelope q)) r ∧ answered_disposition (jr_state r) = Some (oc_disposition o).
Proof using Type.
  unfold query_outcome_complete. intros H. apply M_bind_Ok in H as (r & s1 & Hg & H).
  destruct r as [r|]; [|discriminate H]. exists r. split; [by eapply get_record|].
  cbv zeta in H. destruct (oc_acceptance o) as [a|].
  - do 3 (apply all_hold_cons in H as (? & _ & H)). apply all_hold_cons in H as (s2 & H & _).
    apply all_hold_cons in H as (s3 & H & _). injection H as H _. by apply bool_decide_eq_true in H.
  - destruct (latest_acceptance r); [discriminate H|]. destruct (latest_receipt r); [|discriminate H].
    apply all_hold_cons in H as (? & _ & H). apply all_hold_cons in H as (s2 & H & _).
    apply all_hold_cons in H as (s3 & H & _). injection H as H _. by apply bool_decide_eq_true in H.
Qed.
Lemma query_answered p q (s : OtState V) o (s' : OtState V) :
  query_effect cf p q s = (Ok o, s') →
  ∃ r, has_record p s' (rv_effect (qr_envelope q)) r ∧ answered_disposition (jr_state r) = Some (oc_disposition o).
Proof using OE.
  intros H. unfold query_effect in H. apply M_bind_Ok in H as (t & s1 & _ & H). apply M_bind_Ok in H as (cx & s2 & _ & H).
  apply M_bind_Ok in H as (ok & s3 & _ & H). apply M_bind_Ok in H as ([] & s4 & [_ ->]%lift_Ok & H).
  apply handled_Ok in H. apply M_bind_Ok in H as (al & s4 & _ & H). apply M_bind_Ok in H as (o' & s5 & _ & H).
  apply M_bind_Ok in H as (ok' & s6 & Hc & H). apply M_bind_Ok in H as ([] & s7 & [Hok ->]%lift_Ok & H).
  apply must_Ok in Hok as [->|[=]]. pose proof (preserves_run quiet _ _ _ _ (quiet_query_complete p q o' cx t) Hc) as Q.
  apply complete_record in Hc as (r & Hr & Ho). apply (has_record_quiet _ _ _ _ _ Q) in Hr.
  assert (K : preserves quiet (final ← on_journal (journal_get p (rv_effect (qr_envelope q)));
     match final with
     | None => lift (unavailable "effect_coordination_recovery_unavailable")
     | Some r =>
         if negb (terminal (jr_state r)) then mret o' else
         l ← local;
         _ ← match ol_marker l with
             | Some m => if eq_s (lm_effect_id m) (effect_id (rv_effect (qr_envelope q))) then set_marker None else mret tt
             | None => mret tt
             end;
         _ ← refresh_recovery cf p;
         mret o'
     end : OtM SignedEffectOutcome)) by frame.
  assert (o' = o).
  { apply M_bind_Ok in H as ([r'|] & s8 & _ & H); [|discriminate H]. destruct (negb _); [by injection H as <- _|].
    do 3 (apply M_bind_Ok in H as (? & ? & _ & H)). by injection H as <- _. }
  subst o'. exists r. split; [|done]. apply (preserves_run quiet _ _ _ _ K) in H. by eapply has_record_quiet.
Qed.
End ot_runs.
