(* ===== verification/OtSystem.v ===== *)
(** * Processes of OT coordinators

    A process opens the journal's file, prepares, commits and answers queries, and
    dies at any point, also between a commit's admission, the device's answer and
    the record of the outcome; the verifier's state may change under it.  The
    device is asked at most once to carry out an effect, only for an authenticated
    commit, and never for an effect that was answered as not dispatched. *)
From S2P Require Import Prelude PyStr PyTime PyJson Sha256 Crypto Models PhysicalModels CapabilityModels.
From S2P Require Import DurableReplay TrustState Workload WorkloadVerifier WorkloadRuns CoordinationModels CoordinationMessages.
From S2P Require Import CoordinationVerify CoordinationRecord CoordinationJournal CoordinationRecovery CoordinationOps.
From S2P Require Import OtRuntime CoordinationHistory CoordinationRuns CoordinationSystem CoordinationReopen OtRuns.

(** Where a process is in a commit. *)
Inductive Flight `{Ed25519} :=
  | Idle
  | InProgress (f : InFlight)
  | Executed (f : InFlight) (answer : result PlcCommandAcknowledgment).
Record OtProcess `{Ed25519} (V : Type) := mk_OtProcess {
  pr_journal : Journal;
  pr_local : OtLocal V;
  pr_flight : Flight;
}.
Arguments mk_OtProcess {_ V}. Arguments pr_journal {_ V}. Arguments pr_local {_ V}. Arguments pr_flight {_ V}.
(** The journal's file, what the device was asked to execute, and the processes. *)
Record OtSystem `{Ed25519} (V : Type) := mk_OtSystem {
  sy_disk : Disk;
  sy_calls : list SegmentedCapabilityDispatch;
  sy_processes : gmap Z (OtProcess V);
}.
Arguments mk_OtSystem {_ V}. Arguments sy_disk {_ V}. Arguments sy_calls {_ V}. Arguments sy_processes {_ V}.
(** What a caller was answered. *)
Inductive OtEvent :=
  | PrepareAnswered (q : SignedEffectPrepareRequest) (r : result CoordinationReceipt)
  | CommitAnswered (q : SignedEffectCommitRequest) (r : result SignedEffectOutcome)
  | QueryAnswered (q : SignedEffectQueryRequest) (r : result SignedEffectOutcome).

Section ot_system.
Context {ED : Ed25519} {ER : Ed25519Raw} {MD : MessageDumps} {FS : FsEnv} {DRec : ModelDump WorkloadCredential}
  {DJ : ModelDump CoordinationJournalRecord} {LJ : ModelLoad CoordinationJournalRecord} {RL : RecordLaws}.
Context {V : Type} {CV : CredentialVerifier V} {CB : CredentialBindings V} {OE : OtEnvironment}.
Variable cf : OtConfig.
Abbreviation jc := (ot_journal cf).
Hypothesis coordinator_role : jc_role jc = ROLE_EFFECT_COORDINATOR.

(** ** Steps *)
(** A process before its first call; its counters are wherever the environment is. *)
Definition initial_local (v : V) (clock plant anchor : nat) : OtLocal V :=
  mk_OtLocal v clock plant anchor None None (match ot_terminal_hook cf with Some _ => true | None => false end) 0.
Definition with_trust (v : V) (l : OtLocal V) : OtLocal V :=
  mk_OtLocal v (ol_clock l) (ol_plant_reads l) (ol_anchor_calls l) (ol_recovery l) (ol_marker l) (ol_hook_armed l)
    (execute_requests l).
Definition call_state (s : OtSystem V) (pr : OtProcess V) : OtState V :=
  mk_OtState (pr_local pr) (pr_journal pr, sy_disk s) (sy_calls s).
(** The system after a call of process [p]. *)
Definition after (s : OtSystem V) (p : Z) (t : OtState V) (fl : Flight) : OtSystem V :=
  mk_OtSystem (os_journal t).2 (os_calls t) (<[p := mk_OtProcess (os_journal t).1 (os_local t) fl]> (sy_processes s)).
(** Models are constructed: their checks hold. *)
Definition constructed (q : SignedEffectCommitRequest) : Prop := commit_reread q = Ok q.
Definition flight_of (r : result (SignedEffectOutcome + InFlight)) : Flight :=
  match r with Ok (inr f) => InProgress f | _ => Idle end.
Definition answer_of (q : SignedEffectCommitRequest) (r : result (SignedEffectOutcome + InFlight)) : list OtEvent :=
  match r with
  | Ok (inl o) => [CommitAnswered q (Ok o)] | Ok (inr _) => [] | Raise e => [CommitAnswered q (Raise e)]
  end.
Definition executed_flight (f : InFlight) (r : result (result PlcCommandAcknowledgment)) : Flight :=
  match r with Ok a => Executed f a | Raise _ => Idle end.

Inductive otstep (s : OtSystem V) : list OtEvent → OtSystem V → Prop :=
  | otstep_open p initialize v n1 n2 n3 j d t :
      sy_processes s !! p = None → journal_init jc p initialize (sy_disk s) = (Ok j, d) →
      ot_init cf p (mk_OtState (initial_local v n1 n2 n3) (j, d) (sy_calls s)) = (Ok tt, t) →
      otstep s [] (after s p t Idle)
  | otstep_open_fails p initialize e d :
      sy_processes s !! p = None → journal_init jc p initialize (sy_disk s) = (Raise e, d) →
      otstep s [] (mk_OtSystem d (sy_calls s) (sy_processes s))
  | otstep_open_refused p initialize v n1 n2 n3 j d e t :
      sy_processes s !! p = None → journal_init jc p initialize (sy_disk s) = (Ok j, d) →
      ot_init cf p (mk_OtState (initial_local v n1 n2 n3) (j, d) (sy_calls s)) = (Raise e, t) →
      otstep s [] (mk_OtSystem (released (os_journal t).1 (os_journal t).2) (os_calls t) (sy_processes s))
  | otstep_prepare p pr q r t :
      sy_processes s !! p = Some pr → pr_flight pr = Idle →
      prepare_effect_call cf p q (call_state s pr) = (r, t) → otstep s [PrepareAnswered q r] (after s p t Idle)
  | otstep_query p pr q r t :
      sy_processes s !! p = Some pr → pr_flight pr = Idle →
      query_effect cf p q (call_state s pr) = (r, t) → otstep s [QueryAnswered q r] (after s p t Idle)
  | otstep_admit p pr q r t :
      sy_processes s !! p = Some pr → pr_flight pr = Idle → constructed q →
      commit_admit cf p q (call_state s pr) = (r, t) → otstep s (answer_of q r) (after s p t (flight_of r))
  | otstep_execute p pr f r t :
      sy_processes s !! p = Some pr → pr_flight pr = InProgress f →
      commit_execute f (call_state s pr) = (r, t) → otstep s [] (after s p t (executed_flight f r))
  | otstep_record p pr f a r t :
      sy_processes s !! p = Some pr → pr_flight pr = Executed f a →
      commit_record cf p f a (call_state s pr) = (r, t) →
      otstep s [CommitAnswered (fl_request f) r] (after s p t Idle)
  | otstep_trust p pr v :
      sy_processes s !! p = Some pr →
      otstep s [] (mk_OtSystem (sy_disk s) (sy_calls s)
                     (<[p := mk_OtProcess (pr_journal pr) (with_trust v (pr_local pr)) (pr_flight pr)]> (sy_processes s)))
  | otstep_die p pr :
      sy_processes s !! p = Some pr →
      otstep s [] (mk_OtSystem (released (pr_journal pr) (sy_disk s)) (sy_calls s) (delete p (sy_processes s))).
Inductive otrun : OtSystem V → list OtEvent → OtSystem V → Prop :=
  | otrun_nil s : otrun s [] s
  | otrun_cons s ev1 s1 ev2 s2 : otstep s ev1 s1 → otrun s1 ev2 s2 → otrun s (ev1 ++ ev2) s2.

(** ** The journal's part of a run *)
Definition view (s : OtSystem V) : JSystem := mk_JSystem (sy_disk s) (pr_journal <$> sy_processes s).
Lemma view_after s p t fl es j :
  (pr_journal <$> sy_processes s) !! p = Some j → jcalls cf p (j, sy_disk s) es (os_journal t) →
  jrun jc (view s) es (view (after s p t fl)).
Proof using coordinator_role.
  intros Hj H. unfold view, after. cbn [sy_disk sy_processes]. rewrite fmap_insert. cbn [pr_journal].
  destruct (os_journal t) as [j' d'] eqn:E. cbn [fst snd]. by apply (jcalls_run cf coordinator_role p es _ _ j).
Qed.
Lemma view_path s p pr t fl :
  sy_processes s !! p = Some pr → path cf p (call_state s pr) t →
  (∃ es, jrun jc (view s) es (view (after s p t fl))) ∧ os_calls t = sy_calls s.
Proof using coordinator_role.
  intros Hp (es & Hj & Hc). split; [|done]. exists es. eapply view_after; [|exact Hj].
  by rewrite lookup_fmap, Hp.
Qed.
(** Opening: the journal opens and the first check reads it. *)
Lemma open_quiet p v n1 n2 n3 j d calls r t :
  ot_init cf p (mk_OtState (initial_local v n1 n2 n3) (j, d) calls) = (r, t) →
  os_journal t = (j, d) ∧ os_calls t = calls.
Proof using Type.
  intros H. assert (Q : preserves (quiet (V := V)) (ot_init cf p)).
  { unfold ot_init. apply preserves_bind; [apply _|apply quiet_refresh|intros r1; apply preserves_ret, _]. }
  apply (preserves_run _ _ _ _ _ Q) in H as [Hj Hc]. done.
Qed.
Lemma view_open s p initialize r d :
  sy_processes s !! p = None → journal_init jc p initialize (sy_disk s) = (r, d) →
  jrun jc (view s) [] (mk_JSystem d (match r with
    | Ok j => <[p := j]> (pr_journal <$> sy_processes s) | Raise _ => pr_journal <$> sy_processes s end)).
Proof using Type.
  intros Hp Hi. rewrite <- (app_nil_r ([] : list JEvent)). eapply jrun_cons; [|constructor].
  eapply jstep_open; [by rewrite lookup_fmap, Hp|exact Hi].
Qed.

(** ** Closed effects *)
Lemma record_acceptance_bound r x :
  CoordinationJournalRecord_validate r = Ok r → latest_acceptance r = Some x →
  ∃ t, jr_transitions r !! 2%nat = Some t ∧ tr_state t = COMMIT_ACCEPTED.
Proof using Type.
  unfold CoordinationJournalRecord_validate, require_legal_history. intros [_ H]%closed_bind Hx.
  apply result_bind_Ok in H as (u & H & _). checks H. rewrite Hx in *.
  repeat match goal with H : acceptance_bound _ _ = _ |- _ => revert H end. unfold acceptance_bound.
  destruct (jr_transitions r !! 2%nat) as [t|]; [|discriminate]. intros Hb. exists t. split; [done|].
  apply result_bind_Ok in Hb as (d & _ & Hb). unfold closed in Hb.
  apply require_Ok, andb_prop in Hb as [[Hb _]%andb_prop _]. by apply bool_decide_eq_true in Hb.
Qed.
Lemma committed_has_acceptance r :
  retained jc r → has_commit r = true → is_Some (latest_acceptance r).
Proof using coordinator_role.
  intros [_ Hr] Hc. unfold validate_role_history in Hr. rewrite bool_decide_eq_true_2 in Hr by done.
  apply ensure_true in Hr. unfold has_commit in Hc. unfold latest_acceptance, last_such. rewrite <- not_eq_None_Some.
  intros Hl. apply last_None in Hl. apply existsb_exists in Hc as (a & Hin & Ha). destruct a as [|c|]; try discriminate Ha.
  rewrite forallb_forall in Hr. specialize (Hr _ Hin). apply bool_decide_eq_true in Hr as [x Hx].
  assert (K : x ∈ omap (λ a, match a with Commit c => tc_acceptance c | _ => None end) (jr_attempts r)).
  { apply list_elem_of_omap. exists (Commit c). split; [by apply list_elem_of_In|done]. }
  rewrite Hl in K. by apply not_elem_of_nil in K.
Qed.
Lemma post_commit_step s t : t ∈ LEGAL_TRANSITIONS s → post_commit s = true → post_commit t = true.
Proof using Type. rewrite <- (bool_decide_eq_true (_ ∈ _)). by destruct s, t. Qed.
Lemma path_post_commit l i s n t :
  state_path l → l !! i = Some s → post_commit s = true → l !! (n + i)%nat = Some t → post_commit t = true.
Proof using Type.
  intros [_ Hp] Hi Hs. revert t. induction n as [|n IH]; intros t Ht; [cbn in Ht; congruence|].
  destruct (l !! (n + i)%nat) as [u|] eqn:Hu; [|apply lookup_ge_None in Hu; apply lookup_lt_Some in Ht; lia].
  apply (post_commit_step u); [by apply (Hp (n + i)%nat)|by apply IH].
Qed.
(** An effect with a retained commit is never one that was closed undispatched. *)
Lemma committed_not_closed r : retained jc r → has_commit r = true → jr_state r ≠ STATE_NOT_DISPATCHED.
Proof using coordinator_role.
  intros Hr Hc Hs. destruct (committed_has_acceptance r Hr Hc) as [x Hx]. pose proof (retained_valid jc _ Hr) as Hv.
  destruct (record_acceptance_bound r x Hv Hx) as (t & Ht & Et). pose proof (checked_path _ Hv) as Hp.
  unfold jr_state, state_of_transitions in Hs. destruct (last (jr_transitions r)) as [y|] eqn:Hy; [|discriminate Hs].
  rewrite last_lookup in Hy. pose proof (lookup_lt_Some _ _ _ Ht) as L.
  assert (K : post_commit (tr_state y) = true).
  { apply (path_post_commit (tr_state <$> jr_transitions r) 2 COMMIT_ACCEPTED (pred (length (jr_transitions r)) - 2));
      [done|by rewrite list_lookup_fmap, Ht; cbn; rewrite Et|done|].
    rewrite list_lookup_fmap. replace (_ - 2 + 2)%nat with (pred (length (jr_transitions r))) by lia. by rewrite Hy. }
  rewrite Hs in K. discriminate K.
Qed.
Definition closed_effect (d : Disk) (id : string) : Prop :=
  ∃ rs r, holds jc d rs ∧ rs !! id = Some r ∧ jr_state r = STATE_NOT_DISPATCHED.
Lemma closed_grown d d' id : grown jc d d' → closed_effect d id → closed_effect d' id.
Proof using Type.
  intros G (rs & r & Hh & Hr & Hs). destruct (G _ Hh) as (rs' & Hh' & E). destruct (E _ _ Hr) as (r' & Hr' & Ev).
  exists rs', r'. split; [done|]. split; [done|]. destruct (held_retained _ _ _ _ _ Hh' Hr') as [_ Hv%retained_valid].
  unfold jr_state in *. by rewrite (terminal_fixed r r' Ev Hv) by by unfold jr_state; rewrite Hs.
Qed.
Lemma closed_uncommitted d id : closed_effect d id → ¬ committed jc d id.
Proof using coordinator_role RL.
  intros (rs & r & Hh & Hr & Hs) (rs' & r' & Hh' & Hr' & Hc). assert (rs' = rs) as -> by by eapply held_records_inj.
  assert (r' = r) as -> by congruence. apply (committed_not_closed r); [|done..]. by eapply held_retained.
Qed.

(** ** What was asked of the device, and what is about to be *)
Definition commit_id (q : SignedEffectCommitRequest) : string := effect_id (rv_effect (cm_envelope q)).
(** An authenticated commit request. *)
Definition genuine (q : SignedEffectCommitRequest) : Prop := authenticated_commit cf q ∧ constructed q.
Definition flying (s : OtSystem V) (p : Z) (q : SignedEffectCommitRequest) : Prop :=
  ∃ pr f, sy_processes s !! p = Some pr ∧ pr_flight pr = InProgress f ∧ fl_request f = q.
(** The calls came from genuine commits of distinct effects among those admitted,
    and so will the calls of the commits in progress. *)
Record accounted (s : OtSystem V) (ids : list string) (qs : list SignedEffectCommitRequest) : Prop := {
  ac_calls : sy_calls s = commit_dispatch <$> qs;
  ac_genuine : Forall genuine qs;
  ac_once : NoDup (commit_id <$> qs);
  ac_admitted : ∀ id, id ∈ commit_id <$> qs → id ∈ ids;
  ac_flying p q : flying s p q → genuine q ∧ commit_id q ∈ ids ∧ commit_id q ∉ commit_id <$> qs;
  ac_apart p p' q q' : flying s p q → flying s p' q' → commit_id q = commit_id q' → p = p';
}.
Lemma flying_after s p t fl p' q :
  flying (after s p t fl) p' q →
  p' ≠ p ∧ flying s p' q ∨ p' = p ∧ ∃ f, fl = InProgress f ∧ fl_request f = q.
Proof using Type.
  intros (pr & f & Hp & Hf & Hq). unfold after in Hp. cbn [sy_processes] in Hp.
  destruct (decide (p' = p)) as [->|N].
  - rewrite lookup_insert_eq in Hp. injection Hp as <-. right. split; [done|]. by exists f.
  - rewrite lookup_insert_ne in Hp by done. left. split; [done|]. by exists pr, f.
Qed.
(** A step that calls nothing, with at most one new commit in progress. *)
Lemma accounted_step s s' ids ids' qs p :
  accounted s ids qs → sy_calls s' = sy_calls s → NoDup (ids ++ ids') →
  (∀ p' q, flying s' p' q → flying s p' q ∨ p' = p ∧ genuine q ∧ commit_id q ∈ ids') →
  accounted s' (ids ++ ids') qs.
Proof using Type.
  intros [Hc Hg Ho Hi Hf Ha] E Hn K. apply NoDup_app in Hn as (_ & Hn & _). split; [congruence|done|done| | |].
  - intros id Hid. apply elem_of_app. left. by apply Hi.
  - intros p' q [Hq|(-> & Hq & Hin)]%K.
    + destruct (Hf _ _ Hq) as (? & ? & ?). split; [done|]. split; [apply elem_of_app; by left|done].
    + split; [done|]. split; [apply elem_of_app; by right|]. intros Hin'. by apply (Hn (commit_id q)); [apply Hi|].
  - intros p1 p2 q1 q2 H1 H2 Hid. apply K in H1 as [H1|(-> & _ & H1)]; apply K in H2 as [H2|(-> & _ & H2)]; [|exfalso..|done].
    + by eapply Ha.
    + apply (Hn (commit_id q2)); [|done]. rewrite <- Hid. by eapply Hf.
    + apply (Hn (commit_id q1)); [|done]. rewrite Hid. by eapply Hf.
Qed.
(** A commit in progress is carried out. *)
Lemma accounted_execute s s' ids qs p q :
  accounted s ids qs → flying s p q → sy_calls s' = sy_calls s ++ [commit_dispatch q] →
  (∀ p' q', flying s' p' q' → p' ≠ p ∧ flying s p' q') → accounted s' ids (qs ++ [q]).
Proof using Type.
  intros [Hc Hg Ho Hi Hf Ha] Hp E K. destruct (Hf _ _ Hp) as (Hq & Hin & Hnot). split.
  - rewrite E, Hc, fmap_app. done.
  - apply Forall_app. split; [done|]. by apply Forall_singleton.
  - rewrite fmap_app. apply NoDup_app. split; [done|]. split; [|apply NoDup_singleton].
    intros id Hid Hid'%list_elem_of_singleton. congruence.
  - intros id. rewrite fmap_app. intros [Hid|Hid%list_elem_of_singleton]%elem_of_app; [by apply Hi|congruence].
  - intros p' q' [N Hq']%K. destruct (Hf _ _ Hq') as (? & ? & Hn). split; [done|]. split; [done|].
    rewrite fmap_app. intros [Hid|Hid%list_elem_of_singleton]%elem_of_app; [done|]. apply N. by eapply Ha.
  - intros p1 p2 q1 q2 [_ H1]%K [_ H2]%K. by apply Ha.
Qed.

(** ** The invariant over a run *)
Definition tracked (d : Disk) (s : OtSystem V) (es : list JEvent) (qs : list SignedEffectCommitRequest) : Prop :=
  jrun jc (mk_JSystem d ∅) es (view s) ∧ accounted s (admissions es) qs.
Lemma track_calm d s es qs s' es' p :
  tracked d s es qs → jrun jc (view s) es' (view s') → sy_calls s' = sy_calls s →
  (∀ p' q, flying s' p' q → flying s p' q ∨ p' = p ∧ genuine q ∧ commit_id q ∈ admissions es') →
  tracked d s' (es ++ es') qs.
Proof using RL.
  intros [Hr Ha] Hr' Hc Hf. assert (R : jrun jc (mk_JSystem d ∅) (es ++ es') (view s')) by by eapply jrun_app.
  split; [done|]. rewrite admissions_app. eapply accounted_step; [done|done| |exact Hf].
  rewrite <- admissions_app. by apply (run_admissions jc _ _ _ R (sound_idle jc d)).
Qed.
(** A step of the system as the run that follows it. *)
Definition followed (s : OtSystem V) (s' : OtSystem V) : Prop := ∀ d es qs, tracked d s es qs →
  ∃ es' qs', jrun jc (view s) es' (view s') ∧ tracked d s' (es ++ es') qs'.
Lemma follow_calm s s' es' p :
  jrun jc (view s) es' (view s') → sy_calls s' = sy_calls s →
  (∀ p' q, flying s' p' q → flying s p' q ∨ p' = p ∧ genuine q ∧ commit_id q ∈ admissions es') → followed s s'.
Proof using RL. intros Hr Hc Hf d es qs Ht. exists es', qs. split; [done|]. by eapply track_calm. Qed.
Lemma follow_path s p pr t fl :
  sy_processes s !! p = Some pr → path cf p (call_state s pr) t → (∀ f, fl ≠ InProgress f) → followed s (after s p t fl).
Proof using RL coordinator_role.
  intros Hp P Hfl. destruct (view_path s p pr t fl Hp P) as [(es & Hr) Hc]. apply (follow_calm _ _ es p); [done|done|].
  intros p' q [[_ H]|(_ & f & Hf & _)]%flying_after; [by left|by destruct (Hfl f)].
Qed.
Lemma flying_open s p es d calls j l :
  ∀ p' q, flying (after s p (mk_OtState l (j, d) calls) Idle) p' q →
  flying s p' q ∨ p' = p ∧ genuine q ∧ commit_id q ∈ admissions es.
Proof using Type. intros p' q [[_ H]|(_ & f & [=] & _)]%flying_after. by left. Qed.
Lemma attempt_state {S A} (m : M S A) s : (attempt m s).2 = (m s).2.
Proof using Type. unfold attempt. destruct (m s) as [[a|e] s1]; [done|]. by destruct (isinstance_exn _ _). Qed.
Lemma commit_execute_run f (s : OtState V) r t :
  commit_execute f s = (r, t) →
  os_journal t = os_journal s ∧ os_calls t = os_calls s ++ [commit_dispatch (fl_request f)].
Proof using Type.
  intros H. unfold commit_execute in H. apply M_bind_case in H as [(e & _ & H)|(u & s1 & H1 & H)]; [discriminate H|].
  injection H1 as <- <-. apply (f_equal snd) in H. rewrite attempt_state in H. cbn [snd] in H. by subst t.
Qed.

Lemma step_followed s ev s' : otstep s ev s' → followed s s'.
Proof using RL coordinator_role.
  intros H. destruct H as [p initialize v n1 n2 n3 j d t Hp Hi Ht|p initialize e d Hp Hi
    |p initialize v n1 n2 n3 j d e t Hp Hi Ht|p pr q r t Hp _ Ht|p pr q r t Hp _ Ht|p pr q r t Hp Hidle Hq Ht
    |p pr f r t Hp Hf Ht|p pr f a r t Hp _ Ht|p pr v Hp|p pr Hp].
  - apply open_quiet in Ht as [Ej Ec]. apply (follow_calm _ _ [] p); [|done|].
    + pose proof (view_open s p initialize _ _ Hp Hi) as R. unfold view, after. cbn [sy_disk sy_processes].
      rewrite fmap_insert, Ej. exact R.
    + destruct t as [l js calls]. cbn [os_journal os_calls] in *. subst js. apply flying_open.
  - apply (follow_calm _ _ [] p); [exact (view_open s p initialize _ _ Hp Hi)|done|by left].
  - apply open_quiet in Ht as [Ej Ec]. apply (follow_calm _ _ ([] ++ []) p); [|done|by left].
    eapply jrun_app; [exact (view_open s p initialize _ _ Hp Hi)|]. rewrite Ej. cbn [fst snd].
    rewrite <- (app_nil_r ([] : list JEvent)). eapply jrun_cons; [|constructor].
    unfold view. cbn [sy_disk sy_processes].
    rewrite <- (delete_insert_id (pr_journal <$> sy_processes s) p j) at 2 by by rewrite lookup_fmap, Hp.
    apply jstep_die, lookup_insert_eq.
  - apply (follow_path s p pr); [done| |done]. by apply (preserves_run _ _ _ _ _ (path_prepare_call cf p q) Ht).
  - apply (follow_path s p pr); [done| |done]. by apply (preserves_run _ _ _ _ _ (path_query_call cf p q) Ht).
  - destruct r as [[o|f]|e]; cbn [flight_of];
      [by apply (follow_path s p pr); [|by apply (preserves_run _ _ _ _ _ (path_admit cf p q) Ht)|]| |
       by apply (follow_path s p pr); [|by apply (preserves_run _ _ _ _ _ (path_admit cf p q) Ht)|]].
    apply admit_new in Ht as (Ef & Hg & Ec & es & Hj & Hin). apply (follow_calm _ _ es p).
    + eapply view_after; [|exact Hj]. by rewrite lookup_fmap, Hp.
    + exact Ec.
    + intros p' q' [[_ H]|(-> & f' & [= <-] & <-)]%flying_after; [by left|right]. by rewrite Ef.
  - apply commit_execute_run in Ht as [Ej Ec].
    intros d es qs [R A]. exists [], (qs ++ [fl_request f]).
    assert (R' : jrun jc (view s) [] (view (after s p t (executed_flight f r)))).
    { eapply view_after; [by rewrite lookup_fmap, Hp|]. rewrite Ej. constructor. }
    split; [done|]. split; [by eapply jrun_app|]. rewrite app_nil_r.
    eapply (accounted_execute s _ _ _ p); [done|by exists pr, f|done|].
    intros p' q' [H|(_ & f' & K & _)]%flying_after; [exact H|by destruct r].
  - apply (follow_path s p pr); [done| |done]. by apply (preserves_run _ _ _ _ _ (path_record cf p f a) Ht).
  - apply (follow_calm _ _ [] p); [|done|].
    + unfold view. cbn [sy_disk sy_processes]. rewrite fmap_insert. cbn [pr_journal].
      rewrite insert_id by by rewrite lookup_fmap, Hp. constructor.
    + intros p' q (pr' & f & H & Hf & Hq). cbn [sy_processes] in H. left.
      destruct (decide (p' = p)) as [->|N]; [rewrite lookup_insert_eq in H; injection H as <-; by exists pr, f|].
      rewrite lookup_insert_ne in H by done. by exists pr', f.
  - apply (follow_calm _ _ ([] ++ []) p); [|done|].
    + eapply jrun_cons; [|constructor]. unfold view. cbn [sy_disk sy_processes]. rewrite fmap_delete.
      apply jstep_die. by rewrite lookup_fmap, Hp.
    + intros p' q (pr' & f & H & Hf & Hq). cbn [sy_processes] in H. left. apply lookup_delete_Some in H as [_ H]. by exists pr', f.
Qed.
(** An effect that a query answers as not dispatched is closed in the journal's file. *)
Lemma query_closes d s es qs p pr q o t :
  tracked d s es qs → sy_processes s !! p = Some pr → query_effect cf p q (call_state s pr) = (Ok o, t) →
  oc_disposition o = EFFECT_NOT_DISPATCHED → closed_effect (os_journal t).2 (effect_id (rv_effect (qr_envelope q))).
Proof using RL coordinator_role.
  intros [R _] Hp Hq Ho. destruct (query_answered cf p q _ _ _ Hq) as (r & Hr & Hs). rewrite Ho in Hs.
  destruct (view_path s p pr t Idle Hp) as [(es' & R') _]; [by apply (preserves_run _ _ _ _ _ (path_query_call cf p q) Hq)|].
  destruct (run_sound jc _ _ _ (jrun_app jc _ _ _ _ _ R R') (sound_idle jc d)) as [I _].
  assert (H : hands_out (view (after s p t Idle)) (rv_effect (qr_envelope q)) r).
  { exists p, (os_journal t).1, p. unfold view, after. cbn [sy_disk sy_processes js_processes js_disk].
    rewrite fmap_insert, lookup_insert_eq. unfold has_record in Hr.
    destruct (os_journal t) as [j d']. cbn [fst snd pr_journal]. destruct (journal_get _ _ _) as [x t'].
    exists t'. split; [done|]. cbn [fst] in Hr. by subst x. }
  apply (hands_out_held jc _ _ _ I) in H as (_ & rs & Hh & Hl). exists rs, r. split; [exact Hh|]. split; [exact Hl|].
  by destruct (jr_state r); try discriminate Hs.
Qed.
Definition closes (ev : list OtEvent) (d : Disk) : Prop := ∀ q o,
  QueryAnswered q (Ok o) ∈ ev → oc_disposition o = EFFECT_NOT_DISPATCHED →
  closed_effect d (effect_id (rv_effect (qr_envelope q))).
Lemma step_closes d s es qs ev s' : otstep s ev s' → tracked d s es qs → closes ev (sy_disk s').
Proof using RL coordinator_role.
  intros H T q o Hin Ho.
  destruct H as [| | |p pr q0 r t _ _ _|p pr q0 r t Hp _ Ht|p pr q0 r t _ _ _ _| |p pr f a r t _ _ _| |];
    try (by apply not_elem_of_nil in Hin).
  - by apply list_elem_of_singleton in Hin.
  - apply list_elem_of_singleton in Hin. injection Hin as -> <-. by eapply query_closes.
  - destruct r as [[x|x]|x]; cbn [answer_of] in Hin; [by apply list_elem_of_singleton in Hin|by apply not_elem_of_nil in Hin
      |by apply list_elem_of_singleton in Hin].
  - by apply list_elem_of_singleton in Hin.
Qed.
Lemma run_tracked s ev s' : otrun s ev s' → ∀ d es qs, tracked d s es qs →
  ∃ es' qs', jrun jc (view s) es' (view s') ∧ tracked d s' (es ++ es') qs' ∧ closes ev (sy_disk s').
Proof using RL coordinator_role.
  induction 1 as [s|s ev1 s1 ev2 s2 Hs Hr IH]; intros d es qs T.
  - exists [], qs. rewrite app_nil_r. split; [constructor|]. split; [done|]. by intros q o ?%not_elem_of_nil.
  - destruct (step_followed _ _ _ Hs _ _ _ T) as (es1 & qs1 & R1 & T1). pose proof (step_closes _ _ _ _ _ _ Hs T) as C1.
    destruct (IH _ _ _ T1) as (es2 & qs2 & R2 & T2 & C2). exists (es1 ++ es2), qs2. rewrite app_assoc.
    split; [by eapply jrun_app|]. split; [done|]. intros q o [Hq|Hq]%elem_of_app Ho; [|by apply (C2 q o)].
    destruct T1 as [T1 _]. destruct (run_sound jc _ _ _ T1 (sound_idle jc d)) as [I1 _].
    destruct (run_sound jc _ _ _ R2 I1) as [_ G]. eapply closed_grown; [exact G|]. by apply (C1 q o).
Qed.
(** Every coordinator starts from no process and no call. *)
Definition ot_start (d : Disk) : OtSystem V := mk_OtSystem d [] ∅.
Lemma start_tracked d : tracked d (ot_start d) [] [].
Proof using Type.
  split.
  - unfold view, ot_start. cbn [sy_disk sy_processes]. rewrite fmap_empty. constructor.
  - split; cbn [sy_calls ot_start fmap list_fmap]; [done|constructor|constructor|by intros id ?%not_elem_of_nil|..].
    + intros p q (pr & f & H & _). discriminate H.
    + intros p p' q q' (pr & f & H & _). discriminate H.
Qed.

(** ** What a run may ask of the device *)
Lemma prepare_effect_of r r' : prepare_reread r = Ok r' → from_dispatch (pr_dispatch r') = Ok (rv_effect (pr_envelope r')).
Proof using Type.
  unfold prepare_reread. intros H. apply result_bind_Ok in H as (e & _ & H). apply result_bind_Ok in H as (d & _ & H).
  pose proof (prepare_request_same _ _ H) as E. subst r'. unfold SignedEffectPrepareRequest_validate in H.
  checks H. cbn [pr_dispatch pr_envelope] in *.
  match goal with K : from_dispatch d = Ok ?x, L : closed (bool_decide (_ = ?x)) _ = _ |- _ =>
    rewrite K; apply closed_Ok, bool_decide_eq_true in L; by rewrite L end.
Qed.
Lemma receipt_effect_of c c' : receipt_reread c = Ok c' →
  from_dispatch (pr_dispatch (re_prepare c')) = Ok (re_effect c').
Proof using Type.
  unfold receipt_reread. intros H. apply result_bind_Ok in H as (u & _ & H). apply result_bind_Ok in H as (p & Hp & H).
  apply result_bind_Ok in H as (k & _ & H). pose proof (receipt_same _ _ H) as E. subst c'.
  unfold CoordinationReceipt_validate in H. cbv zeta in H. cbn [re_prepare re_effect re_prepare_sha256 prepared_at] in *.
  apply closed_bind in H as [_ H]. apply result_bind_Ok in H as (b & _ & H). apply closed_bind in H as [_ H].
  apply result_bind_Ok in H as (same & Hs & H). apply closed_bind in H as [-> _].
  case_bool_decide as E; [|discriminate Hs]. rewrite <- E. by apply (prepare_effect_of (re_prepare c)).
Qed.
Lemma commit_effect_of q q' : commit_reread q = Ok q' → from_dispatch (commit_dispatch q') = Ok (rv_effect (cm_envelope q')).
Proof using Type.
  unfold commit_reread. intros H. apply result_bind_Ok in H as (e & _ & H). apply result_bind_Ok in H as (c & Hc & H).
  pose proof (commit_request_same _ _ H) as E. subst q'. unfold SignedEffectCommitRequest_validate in H.
  apply closed_bind in H as [_ H]. apply closed_bind in H as [_ H]. apply result_bind_Ok in H as (u & _ & H).
  apply closed_bind in H as [He _]. apply bool_decide_eq_true in He. cbn [cm_envelope cm_receipt] in *.
  unfold commit_dispatch. cbn [cm_receipt]. rewrite <- He. by eapply receipt_effect_of.
Qed.
Lemma constructed_effect q : constructed q → from_dispatch (commit_dispatch q) = Ok (rv_effect (cm_envelope q)).
Proof using Type. apply commit_effect_of. Qed.
(** The effects the device was asked to carry out. *)
Definition asked (s : OtSystem V) : list string :=
  omap (λ call, match from_dispatch call with Ok e => Some (effect_id e) | Raise _ => None end) (sy_calls s).
Lemma genuine_asked qs :
  Forall genuine qs →
  omap (λ call, match from_dispatch call with Ok e => Some (effect_id e) | Raise _ => None end)
    (commit_dispatch <$> qs) = commit_id <$> qs.
Proof using Type.
  induction 1 as [|q qs [_ Hq] _ IH]; [done|]. cbn [fmap list_fmap omap list_omap].
  rewrite (constructed_effect q Hq). by rewrite <- IH.
Qed.

(** C24 Over every run of OT coordinators, across deaths at any point of a commit,
    failing file operations and devices that answer nothing, the device is asked
    at most once to carry out an effect. *)
Theorem device_asked_once d ev s :
  otrun (ot_start d) ev s → NoDup (asked s) ∧ length (asked s) = length (sy_calls s).
Proof using RL coordinator_role.
  intros H. destruct (run_tracked _ _ _ H d [] [] (start_tracked d)) as (es & qs & _ & [_ A] & _).
  unfold asked. rewrite (ac_calls _ _ _ A), (genuine_asked qs (ac_genuine _ _ _ A)), !length_fmap.
  split; [apply (ac_once _ _ _ A)|done].
Qed.

(** C25 An effect that a coordinator answered as not dispatched is never asked of
    the device, neither before the answer nor at any time after it, also when its
    commit request arrives at a restarted coordinator. *)
Theorem not_dispatched_never_asked d ev s q o :
  otrun (ot_start d) ev s → QueryAnswered q (Ok o) ∈ ev → oc_disposition o = EFFECT_NOT_DISPATCHED →
  effect_id (rv_effect (qr_envelope q)) ∉ asked s.
Proof using RL coordinator_role.
  intros H Hq Ho Hin. destruct (run_tracked _ _ _ H d [] [] (start_tracked d)) as (es & qs & _ & [R A] & C).
  apply (closed_uncommitted (sy_disk s) _ (C q o Hq Ho)), (run_committed jc _ _ _ R (sound_idle jc d)), (ac_admitted _ _ _ A).
  unfold asked in Hin. apply list_elem_of_omap in Hin as (call & Hc & Hid). rewrite (ac_calls _ _ _ A) in Hc.
  apply list_elem_of_fmap in Hc as (c & -> & Hc). apply list_elem_of_fmap. exists c. split; [|done].
  pose proof (proj1 (Forall_forall _ _) (ac_genuine _ _ _ A) c Hc) as [_ Hg].
  rewrite (constructed_effect c Hg) in Hid. by injection Hid as <-.
Qed.

Context {DB : ModelDump WorkloadTrustBundle} (vc : VerifierConfig) {VL : VerifierLaws vc}.
(** C26 Whatever the device is asked came from a commit request signed under a key
    that the authority vouched for as the gateway's, with a receipt and a prepare
    request signed under keys it vouched for as of the preparation, and is a
    dispatch whose observation and permit the pinned keys signed for this device. *)
Theorem dispatched_authentic d ev s call :
  otrun (ot_start d) ev s → call ∈ sy_calls s →
  ∃ q (p : Parties) t, commit_dispatch q = call
    ∧ EnvelopeAuthentic vc (cm_envelope q) (commit_verify q) EFFECT_COORDINATOR_AUDIENCE (expected_gateway_subject p) t
    ∧ ReceiptAuthentic vc (cm_receipt q) (re_prepare (cm_receipt q)) p GATEWAY_COORDINATION_AUDIENCE
        EFFECT_COORDINATOR_AUDIENCE t MAX_COORDINATION_FUTURE_SKEW
    ∧ DispatchAuthentic call (ot_pins cf) t.
Proof using All.
  intros H Hc. destruct (run_tracked _ _ _ H d [] [] (start_tracked d)) as (es & qs & _ & [_ A] & _).
  rewrite (ac_calls _ _ _ A) in Hc. apply list_elem_of_fmap in Hc as (q & -> & Hin).
  pose proof (proj1 (Forall_forall _ _) (ac_genuine _ _ _ A) q Hin) as [(cx & t & v & v' & Hq & _) _].
  exists q, (parties cx), t. split; [done|]. by apply (commit_complete_authentic vc q _ _ _ _ _ v v').
Qed.
End ot_system.
