(* ===== verification/CoordinationCodec.v ===== *)
(** * A JSON form of the journals' records that reads back

    One instantiation of the parameters of the coordination files: every model of
    a journal record as nested arrays of its fields, with a reader that inverts it.
    It is not pydantic's form; it shows that the laws the theorems ask for are
    those of some dump and loader. *)
From S2P Require Import Prelude PyFloat PyStr PyTime PyJson Models PhysicalModels CapabilityModels Workload.
From S2P Require Import CoordinationModels CoordinationRecord.
From Stdlib Require Import SpecFloat.

(** Values as arrays without objects or floats. *)
Class Codec (A : Type) := {
  enc : A → json;
  dec : json → option A;
  dec_enc : ∀ a, dec (enc a) = Some a;
  enc_ok : ∀ a, json_ok (enc a) = true;
  enc_canon : ∀ a, canon (enc a) = enc a;
  enc_finite : ∀ a, has_nan (enc a) = false;
}.

(** ** Basic types *)
Definition string_dec_json (j : json) : option string := match j with JStr s => Some s | _ => None end.
Definition Z_dec_json (j : json) : option Z := match j with JInt z => Some z | _ => None end.
Definition bool_dec_json (j : json) : option bool := match j with JBool b => Some b | _ => None end.
#[export] Program Instance string_codec : Codec string := {| enc := JStr; dec := string_dec_json |}.
Solve All Obligations with done.
#[export] Program Instance Z_codec : Codec Z := {| enc := JInt; dec := Z_dec_json |}.
Solve All Obligations with done.
#[export] Program Instance bool_codec : Codec bool := {| enc := JBool; dec := bool_dec_json |}.
Solve All Obligations with done.
Definition pair_dec_json {A B} (f : json → option A) (g : json → option B) (j : json) : option (A * B) :=
  match j with
  | JArr [x; y] => match f x, g y with Some a, Some b => Some (a, b) | _, _ => None end
  | _ => None
  end.
#[export] Program Instance pair_codec {A B} `{Codec A, Codec B} : Codec (A * B) := {|
  enc := λ p, JArr [enc p.1; enc p.2]; dec := pair_dec_json dec dec |}.
Next Obligation. intros A B ? ? [a b]. cbn. by rewrite !dec_enc. Qed.
Next Obligation. intros A B ? ? [a b]. cbn. by rewrite !enc_ok. Qed.
Next Obligation. intros A B ? ? [a b]. cbn. by rewrite !enc_canon. Qed.
Next Obligation. intros A B ? ? [a b]. cbn. by rewrite !enc_finite. Qed.
Fixpoint dec_all {A} (f : json → option A) (l : list json) : option (list A) :=
  match l with
  | [] => Some []
  | x :: l => match f x, dec_all f l with Some a, Some r => Some (a :: r) | _, _ => None end
  end.
Definition list_dec_json {A} (f : json → option A) (j : json) : option (list A) :=
  match j with JArr l => dec_all f l | _ => None end.
#[export] Program Instance list_codec {A} `{Codec A} : Codec (list A) := {|
  enc := λ l, JArr (map enc l); dec := list_dec_json dec |}.
Next Obligation. intros A ? l. cbn. induction l as [|a l IH]; [done|]. cbn. by rewrite dec_enc, IH. Qed.
Next Obligation. intros A ? l. cbn. induction l as [|a l IH]; [done|]. cbn. by rewrite enc_ok, IH. Qed.
Next Obligation. intros A ? l. cbn. f_equal. induction l as [|a l IH]; [done|]. cbn. by rewrite enc_canon, IH. Qed.
Next Obligation. intros A ? l. cbn. induction l as [|a l IH]; [done|]. cbn. by rewrite enc_finite, IH. Qed.
Definition option_enc_json {A} (f : A → json) (o : option A) : json :=
  match o with Some a => JArr [f a] | None => JNull end.
Definition option_dec_json {A} (f : json → option A) (j : json) : option (option A) :=
  match j with JNull => Some None | JArr [x] => Some <$> f x | _ => None end.
#[export] Program Instance option_codec {A} `{Codec A} : Codec (option A) := {|
  enc := option_enc_json enc; dec := option_dec_json dec |}.
Next Obligation. intros A ? [a|]; cbn; [|done]. by rewrite dec_enc. Qed.
Next Obligation. intros A ? [a|]; cbn; [|done]. by rewrite enc_ok. Qed.
Next Obligation. intros A ? [a|]; cbn; [|done]. by rewrite enc_canon. Qed.
Next Obligation. intros A ? [a|]; cbn; [|done]. by rewrite enc_finite. Qed.

(** Types that are encoded as another, and enumerations. *)
Program Definition codec_iso {A B} `{Codec B} (f : A → B) (g : B → A) (gf : ∀ a, g (f a) = a) : Codec A := {|
  enc := λ a, enc (f a); dec := λ j, g <$> dec j |}.
Next Obligation. intros. cbn. by rewrite dec_enc; cbn; rewrite gf. Qed.
Next Obligation. intros. apply enc_ok. Qed.
Next Obligation. intros. apply enc_canon. Qed.
Next Obligation. intros. apply enc_finite. Qed.
Definition index_of {A} `{EqDecision A} (l : list A) (a : A) : Z :=
  (fix go (i : Z) (l : list A) : Z :=
     match l with [] => -1 | x :: l => if bool_decide (x = a) then i else go (i + 1) l end)%Z 0%Z l.
Program Definition codec_enum {A} `{EqDecision A} (l : list A)
    (H : ∀ a, (l !! Z.to_nat (index_of l a)) = Some a) : Codec A := {|
  enc := λ a, JInt (index_of l a); dec := λ j, Z_dec_json j ≫= λ i, l !! Z.to_nat i |}.
Next Obligation. intros A ? l H a. apply H. Qed.
Solve All Obligations with done.

#[export] Instance float_codec : Codec float := codec_iso
  (λ f, match f with
        | S754_zero s => (0, (s, (0, 0))) | S754_infinity s => (1, (s, (0, 0))) | S754_nan => (2, (false, (0, 0)))
        | S754_finite s m e => (3, (s, (Zpos m, e))) end)%Z
  (λ '(k, (s, (m, e))),
     if (k =? 0)%Z then S754_zero s else if (k =? 1)%Z then S754_infinity s else if (k =? 2)%Z then S754_nan
     else S754_finite s (Z.to_pos m) e)
  ltac:(by intros []).
#[export] Instance datetime_codec : Codec datetime := codec_iso (λ d, (dt_utc d, tzinfo d)) (λ '(u, z), mk_dt u z)
  ltac:(by intros []).

(** JSON values, tagged. *)
Fixpoint json_enc (j : json) : json :=
  match j with
  | JNull => JArr [JInt 0]
  | JBool b => JArr [JInt 1; JBool b]
  | JInt z => JArr [JInt 2; JInt z]
  | JFloat f => JArr [JInt 3; enc f]
  | JStr s => JArr [JInt 4; JStr s]
  | JArr l => JArr (JInt 5 :: map json_enc l)
  | JObj kv => JArr (JInt 6 :: map (λ '(k, x), JArr [JStr k; json_enc x]) kv)
  end.
Fixpoint json_dec (j : json) : option json :=
  match j with
  | JArr [JInt 0] => Some JNull
  | JArr [JInt 1; JBool b] => Some (JBool b)
  | JArr [JInt 2; JInt z] => Some (JInt z)
  | JArr [JInt 3; f] => match dec f with Some f => Some (JFloat f) | None => None end
  | JArr [JInt 4; JStr s] => Some (JStr s)
  | JArr (JInt 5 :: l) => match dec_all json_dec l with Some l => Some (JArr l) | None => None end
  | JArr (JInt 6 :: l) =>
      match dec_all (λ p, match p with JArr [JStr k; x] => match json_dec x with Some y => Some (k, y) | None => None end
                          | _ => None end) l with
      | Some kv => Some (JObj kv) | None => None end
  | _ => None
  end.
#[export] Program Instance json_codec : Codec json := {| enc := json_enc; dec := json_dec |}.
Next Obligation.
  induction a as [|b|z|f|s|l IH|kv IH] using json_nested_ind; try done.
  - change (match dec (enc f) with Some f => Some (JFloat f) | None => None end = Some (JFloat f)). by rewrite dec_enc.
  - cbn. assert (E : dec_all json_dec (map json_enc l) = Some l); [|by rewrite E].
    induction IH as [|x l Hx _ IHl]; [done|]. cbn. by rewrite Hx, IHl.
  - cbn. match goal with |- match ?d with _ => _ end = _ => assert (E : d = Some kv) end; [|by rewrite E].
    induction IH as [|[k x] l Hx _ IHl]; [done|]. cbn in *. by rewrite Hx, IHl.
Qed.
Next Obligation.
  induction a as [|b|z|f|s|l IH|kv IH] using json_nested_ind; try done.
  - cbn. induction IH as [|x l Hx _ IHl]; [done|]. cbn. by rewrite Hx, IHl.
  - cbn. induction IH as [|[k x] l Hx _ IHl]; [done|]. cbn in *. by rewrite Hx, IHl.
Qed.
Next Obligation.
  induction a as [|b|z|f|s|l IH|kv IH] using json_nested_ind; try done.
  - cbn. do 2 f_equal. induction IH as [|x l Hx _ IHl]; [done|]. cbn. by rewrite Hx, IHl.
  - cbn. do 2 f_equal. induction IH as [|[k x] l Hx _ IHl]; [done|]. cbn in *. by rewrite Hx, IHl.
Qed.
Next Obligation.
  induction a as [|b|z|f|s|l IH|kv IH] using json_nested_ind; try done.
  - cbn. induction IH as [|x l Hx _ IHl]; [done|]. cbn. by rewrite Hx, IHl.
  - cbn. induction IH as [|[k x] l Hx _ IHl]; [done|]. cbn in *. by rewrite Hx, IHl.
Qed.

(** ** The models *)
#[export] Instance Operation_codec : Codec Models.Operation := codec_enum [Models.ISOLATE_ASSET;
    Models.RESTORE_ASSET; Models.SHED_LOAD; Models.DISPATCH_BATTERY]
  ltac:(by intros []).
#[export] Instance DecisionOutcome_codec : Codec Models.DecisionOutcome := codec_enum [Models.PERMIT; Models.DENY;
    Models.MODIFY; Models.DEFER; Models.SIMULATE; Models.REQUIRE_APPROVAL; Models.QUARANTINE; Models.REVOKE]
  ltac:(by intros []).
#[export] Instance PhysicalCommandType_codec : Codec PhysicalModels.PhysicalCommandType := codec_enum
    [PhysicalModels.SET_LINE_SERVICE; PhysicalModels.SET_BATTERY_INJECTION]
  ltac:(by intros []).
#[export] Instance CommandStatus_codec : Codec PhysicalModels.CommandStatus := codec_enum [PhysicalModels.APPLIED;
    PhysicalModels.REJECTED; PhysicalModels.UNKNOWN_EFFECT]
  ltac:(by intros []).
#[export] Instance DispatchPhase_codec : Codec CapabilityModels.DispatchPhase := codec_enum
    [CapabilityModels.PRE_DISPATCH; CapabilityModels.KNOWN_NO_EFFECT; CapabilityModels.COMMITTED;
    CapabilityModels.EFFECT_UNKNOWN]
  ltac:(by intros []).
#[export] Instance ObservationPhase_codec : Codec CapabilityModels.ObservationPhase := codec_enum
    [CapabilityModels.PRE_AUTHORIZATION; CapabilityModels.POST_DISPATCH]
  ltac:(by intros []).
#[export] Instance WorkloadRole_codec : Codec Workload.WorkloadRole := codec_enum [Workload.AGENT;
    Workload.CANDIDATE; Workload.GATEWAY; Workload.OT_ADAPTER; Workload.OBSERVER; Workload.POLICY; Workload.PLANT;
    Workload.PERMIT_ISSUER; Workload.SIMULATION]
  ltac:(by intros []).
#[export] Instance CoordinationState_codec : Codec CoordinationModels.CoordinationState := codec_enum
    [CoordinationModels.RECEIVED; CoordinationModels.DISPATCH_ARMED; CoordinationModels.COMMIT_ACCEPTED;
    CoordinationModels.STATE_NOT_DISPATCHED; CoordinationModels.STATE_UNKNOWN_EFFECT;
    CoordinationModels.STATE_APPLIED; CoordinationModels.STATE_REJECTED]
  ltac:(by intros []).
#[export] Instance EffectDisposition_codec : Codec CoordinationModels.EffectDisposition := codec_enum
    [CoordinationModels.EFFECT_NOT_DISPATCHED; CoordinationModels.EFFECT_UNKNOWN; CoordinationModels.EFFECT_APPLIED;
    CoordinationModels.EFFECT_REJECTED]
  ltac:(by intros []).
#[export] Instance RequestKind_codec : Codec CoordinationModels.RequestKind := codec_enum
    [CoordinationModels.KIND_COMMIT; CoordinationModels.KIND_QUERY]
  ltac:(by intros []).
#[export] Instance CoordinationAttemptStatus_codec : Codec CoordinationRecord.CoordinationAttemptStatus := codec_enum
    [CoordinationRecord.REQUEST_RETAINED; CoordinationRecord.RESPONSE_RETAINED; CoordinationRecord.OUTCOME_UNKNOWN]
  ltac:(by intros []).
#[export] Instance PhysicalControlCommand_codec : Codec PhysicalModels.PhysicalControlCommand := codec_iso
  (λ x, (
    PhysicalModels.command_id x, PhysicalModels.command_proposal_id x, PhysicalModels.command_operation x,
    PhysicalModels.command_resource x, PhysicalModels.command_type x, PhysicalModels.target x,
    PhysicalModels.target_index x, PhysicalModels.setpoint x, PhysicalModels.unit_ x))
  (λ '(x0, x1, x2, x3, x4, x5, x6, x7, x8),
    PhysicalModels.mk_PhysicalControlCommand x0 x1 x2 x3 x4 x5 x6 x7 x8)
  ltac:(by intros []).
#[export] Instance PhysicalStateSnapshot_codec : Codec PhysicalModels.PhysicalStateSnapshot := codec_iso
  (λ x, (
    PhysicalModels.ps_model_id x, PhysicalModels.ps_simulator_version x, PhysicalModels.ps_model_digest x,
    PhysicalModels.ps_input_digest x, PhysicalModels.ps_topology_digest x, PhysicalModels.ps_state_digest x,
    PhysicalModels.ps_observation_digest x, PhysicalModels.ps_observation_sequence x,
    PhysicalModels.ps_observation_source_id x, PhysicalModels.ps_observation_clock_domain x,
    PhysicalModels.ps_state_version x, PhysicalModels.ps_simulation_time_s x, PhysicalModels.ps_observed_at x,
    PhysicalModels.ps_converged x, PhysicalModels.ps_total_load_demand_mw x, PhysicalModels.ps_served_load_mw x,
    PhysicalModels.ps_unserved_load_mw x, PhysicalModels.ps_total_load_served_pct x,
    PhysicalModels.ps_priority_load_demand_mw x, PhysicalModels.ps_priority_load_served_mw x,
    PhysicalModels.ps_priority_load_served_pct x, PhysicalModels.ps_minimum_voltage_pu x,
    PhysicalModels.ps_maximum_voltage_pu x, PhysicalModels.ps_maximum_line_loading_pct x,
    PhysicalModels.ps_voltage_violation_count x, PhysicalModels.ps_thermal_violation_count x,
    PhysicalModels.ps_unsafe_state x, PhysicalModels.ps_isolated_resources x,
    PhysicalModels.ps_battery_injection_mw x, PhysicalModels.ps_bus_voltage_pu x,
    PhysicalModels.ps_line_loading_pct x))
  (λ '(x0, x1, x2, x3, x4, x5, x6, x7, x8, x9, x10, x11, x12, x13, x14, x15, x16, x17, x18, x19, x20, x21, x22, x23,
    x24, x25, x26, x27, x28, x29, x30),
    PhysicalModels.mk_PhysicalStateSnapshot x0 x1 x2 x3 x4 x5 x6 x7 x8 x9 x10 x11 x12 x13 x14 x15 x16 x17 x18 x19
    x20 x21 x22 x23 x24 x25 x26 x27 x28 x29 x30)
  ltac:(by intros []).
#[export] Instance CandidateAssessment_codec : Codec PhysicalModels.CandidateAssessment := codec_iso
  (λ x, (
    PhysicalModels.assessment_id x, PhysicalModels.as_command_digest x, PhysicalModels.pre_state x,
    PhysicalModels.post_state x, PhysicalModels.as_safe x, PhysicalModels.as_reasons x))
  (λ '(x0, x1, x2, x3, x4, x5),
    PhysicalModels.mk_CandidateAssessment x0 x1 x2 x3 x4 x5)
  ltac:(by intros []).
#[export] Instance ExecutionPermit_codec : Codec PhysicalModels.ExecutionPermit := codec_iso
  (λ x, (
    PhysicalModels.permit_id x, PhysicalModels.permit_nonce x, PhysicalModels.pm_decision_id x,
    PhysicalModels.pm_proposal_id x, PhysicalModels.pm_proposal_digest x, PhysicalModels.pm_command x,
    PhysicalModels.pm_command_digest x, PhysicalModels.pm_assessment_digest x, PhysicalModels.pm_state_version x,
    PhysicalModels.pm_state_digest x, PhysicalModels.pm_observation_digest x, PhysicalModels.pm_topology_digest x,
    PhysicalModels.pm_model_digest x, PhysicalModels.expected_post_state_version x,
    PhysicalModels.expected_post_state_digest x, PhysicalModels.expected_post_topology_digest x,
    PhysicalModels.pm_evidence_record_hash x, PhysicalModels.pm_policy_version x,
    PhysicalModels.pm_safety_version x, PhysicalModels.audience x, PhysicalModels.pm_issued_at x,
    PhysicalModels.pm_expires_at x, PhysicalModels.pm_signing_key_id x, PhysicalModels.pm_signature x))
  (λ '(x0, x1, x2, x3, x4, x5, x6, x7, x8, x9, x10, x11, x12, x13, x14, x15, x16, x17, x18, x19, x20, x21, x22,
    x23),
    PhysicalModels.mk_ExecutionPermit x0 x1 x2 x3 x4 x5 x6 x7 x8 x9 x10 x11 x12 x13 x14 x15 x16 x17 x18 x19 x20 x21
    x22 x23)
  ltac:(by intros []).
#[export] Instance ActionProposal_codec : Codec Models.ActionProposal := codec_iso
  (λ x, (Models.proposal_id x,
    Models.actor_id x, Models.mission_id x, Models.resource x, Models.operation x, Models.parameters x,
    Models.observed_state_version x, Models.proposal_observed_at x, Models.submitted_at x, Models.nonce x,
    Models.confidence x, Models.risk_score x, Models.delegation_chain x, Models.human_approval_id x))
  (λ '(x0, x1, x2, x3, x4, x5, x6, x7, x8, x9, x10, x11, x12, x13),
    Models.mk_ActionProposal x0 x1 x2 x3 x4 x5 x6 x7 x8 x9 x10 x11 x12 x13)
  ltac:(by intros []).
#[export] Instance Decision_codec : Codec Models.Decision := codec_iso
  (λ x, (Models.decision_id x,
    Models.decision_proposal_id x, Models.outcome x, Models.decision_reasons x, Models.decided_at x,
    Models.policy_version x, Models.safety_version x, Models.state_version x, Models.evidence_record_hash x))
  (λ '(x0, x1, x2, x3, x4, x5, x6, x7, x8),
    Models.mk_Decision x0 x1 x2 x3 x4 x5 x6 x7 x8)
  ltac:(by intros []).
#[export] Instance SignedObservationEnvelope_codec : Codec CapabilityModels.SignedObservationEnvelope := codec_iso
  (λ x, (
    CapabilityModels.observation_id x, CapabilityModels.so_correlation_id x, CapabilityModels.so_phase x,
    CapabilityModels.challenge_nonce x, CapabilityModels.observer_id x, CapabilityModels.observer_key_id x,
    CapabilityModels.observer_boot_epoch x, CapabilityModels.observer_sequence x, CapabilityModels.captured_at x,
    CapabilityModels.logical_time_s x, CapabilityModels.snapshot x, CapabilityModels.so_permit_id x,
    CapabilityModels.so_command_digest x, CapabilityModels.plc_acknowledgment_digest x,
    CapabilityModels.previous_envelope_digest x, CapabilityModels.envelope_digest x,
    CapabilityModels.so_signature x))
  (λ '(x0, x1, x2, x3, x4, x5, x6, x7, x8, x9, x10, x11, x12, x13, x14, x15, x16),
    CapabilityModels.mk_SignedObservationEnvelope x0 x1 x2 x3 x4 x5 x6 x7 x8 x9 x10 x11 x12 x13 x14 x15 x16)
  ltac:(by intros []).
#[export] Instance CapabilityActionRequest_codec : Codec CapabilityModels.CapabilityActionRequest := codec_iso
  (λ x, (
    CapabilityModels.request_id x, CapabilityModels.correlation_id x, CapabilityModels.rq_proposal x,
    CapabilityModels.rq_observation_id x, CapabilityModels.observation_envelope_digest x,
    CapabilityModels.observation_challenge_nonce x))
  (λ '(x0, x1, x2, x3, x4, x5),
    CapabilityModels.mk_CapabilityActionRequest x0 x1 x2 x3 x4 x5)
  ltac:(by intros []).
#[export] Instance CapabilityExecutionPermit_codec : Codec CapabilityModels.CapabilityExecutionPermit := codec_iso
  (λ x, (
    CapabilityModels.base_permit x, CapabilityModels.cp_request_digest x, CapabilityModels.cp_observation_id x,
    CapabilityModels.cp_observation_envelope_digest x, CapabilityModels.cp_observer_id x,
    CapabilityModels.cp_observer_key_id x, CapabilityModels.cp_observer_boot_epoch x,
    CapabilityModels.target_plc_id x, CapabilityModels.target_plc_key_id x,
    CapabilityModels.target_plc_boot_epoch x, CapabilityModels.cp_signing_key_id x,
    CapabilityModels.cp_signature x))
  (λ '(x0, x1, x2, x3, x4, x5, x6, x7, x8, x9, x10, x11),
    CapabilityModels.mk_CapabilityExecutionPermit x0 x1 x2 x3 x4 x5 x6 x7 x8 x9 x10 x11)
  ltac:(by intros []).
#[export] Instance PlcCommandAcknowledgment_codec : Codec CapabilityModels.PlcCommandAcknowledgment := codec_iso
  (λ x, (
    CapabilityModels.pa_acknowledgment_id x, CapabilityModels.pa_request_digest x, CapabilityModels.permit_digest x,
    CapabilityModels.pa_observation_envelope_digest x, CapabilityModels.pa_permit_id x,
    CapabilityModels.pa_permit_nonce x, CapabilityModels.pa_command_id x, CapabilityModels.pa_command_digest x,
    CapabilityModels.pa_assessment_digest x, CapabilityModels.pa_proposal_id x, CapabilityModels.pa_decision_id x,
    CapabilityModels.plc_id x, CapabilityModels.plc_key_id x, CapabilityModels.plc_boot_epoch x,
    CapabilityModels.plc_scan x, CapabilityModels.pa_status x, CapabilityModels.dispatch_phase x,
    CapabilityModels.pa_reason x, CapabilityModels.acknowledged_at x, CapabilityModels.pa_pre_state x,
    CapabilityModels.pa_pre_state_digest x, CapabilityModels.pa_pre_state_version x,
    CapabilityModels.pa_post_state_digest x, CapabilityModels.pa_post_state_version x,
    CapabilityModels.post_topology_digest x, CapabilityModels.pa_pre_actuator_setpoint x,
    CapabilityModels.pa_post_actuator_setpoint x, CapabilityModels.simulation_time_s x,
    CapabilityModels.pa_signature x))
  (λ '(x0, x1, x2, x3, x4, x5, x6, x7, x8, x9, x10, x11, x12, x13, x14, x15, x16, x17, x18, x19, x20, x21, x22, x23,
    x24, x25, x26, x27, x28),
    CapabilityModels.mk_PlcCommandAcknowledgment x0 x1 x2 x3 x4 x5 x6 x7 x8 x9 x10 x11 x12 x13 x14 x15 x16 x17 x18
    x19 x20 x21 x22 x23 x24 x25 x26 x27 x28)
  ltac:(by intros []).
#[export] Instance WorkloadCredential_codec : Codec Workload.WorkloadCredential := codec_iso
  (λ x, (
    Workload.credential_id x, Workload.cr_trust_domain x, Workload.cr_subject x, Workload.cr_role x,
    Workload.cr_actor_id x, Workload.cr_key_id x, Workload.cr_public_key_b64 x, Workload.cr_authority_key_id x,
    Workload.audiences x, Workload.cr_issued_at x, Workload.not_before x, Workload.cr_expires_at x))
  (λ '(x0, x1, x2, x3, x4, x5, x6, x7, x8, x9, x10, x11),
    Workload.mk_WorkloadCredential x0 x1 x2 x3 x4 x5 x6 x7 x8 x9 x10 x11)
  ltac:(by intros []).
#[export] Instance SignedWorkloadCredential_codec : Codec Workload.SignedWorkloadCredential := codec_iso
  (λ x, (
    Workload.credential x, Workload.cred_signature x))
  (λ '(x0, x1),
    Workload.mk_SignedWorkloadCredential x0 x1)
  ltac:(by intros []).
#[export] Instance SegmentedCapabilityDispatch_codec : Codec CoordinationModels.SegmentedCapabilityDispatch := codec_iso
  (λ x, (
    CoordinationModels.dp_request x, CoordinationModels.dp_observation x, CoordinationModels.dp_decision x,
    CoordinationModels.dp_assessment x, CoordinationModels.dp_permit x))
  (λ '(x0, x1, x2, x3, x4),
    CoordinationModels.mk_SegmentedCapabilityDispatch x0 x1 x2 x3 x4)
  ltac:(by intros []).
#[export] Instance EffectIdentity_codec : Codec CoordinationModels.EffectIdentity := codec_iso
  (λ x, (
    CoordinationModels.effect_id x, CoordinationModels.ei_request_sha256 x,
    CoordinationModels.command_semantics_sha256 x, CoordinationModels.ei_target_id x,
    CoordinationModels.authorized_state_sha256 x, CoordinationModels.authorized_state_version x,
    CoordinationModels.authorized_observation_sha256 x, CoordinationModels.authorized_topology_sha256 x,
    CoordinationModels.authorized_model_sha256 x, CoordinationModels.expected_post_state_sha256 x,
    CoordinationModels.ei_post_state_version x, CoordinationModels.expected_post_topology_sha256 x))
  (λ '(x0, x1, x2, x3, x4, x5, x6, x7, x8, x9, x10, x11),
    CoordinationModels.mk_EffectIdentity x0 x1 x2 x3 x4 x5 x6 x7 x8 x9 x10 x11)
  ltac:(by intros []).
#[export] Instance RequestEnvelope_codec : Codec CoordinationModels.RequestEnvelope := codec_iso
  (λ x, (
    CoordinationModels.rv_effect x, CoordinationModels.rv_effect_sha256 x, CoordinationModels.rv_audience x,
    CoordinationModels.sender_credential x, CoordinationModels.request_nonce x, CoordinationModels.rv_issued_at x,
    CoordinationModels.rv_expires_at x, CoordinationModels.rv_signature x))
  (λ '(x0, x1, x2, x3, x4, x5, x6, x7),
    CoordinationModels.mk_RequestEnvelope x0 x1 x2 x3 x4 x5 x6 x7)
  ltac:(by intros []).
#[export] Instance SignedEffectPrepareRequest_codec : Codec CoordinationModels.SignedEffectPrepareRequest := codec_iso
  (λ x, (
    CoordinationModels.pr_envelope x, CoordinationModels.pr_dispatch x, CoordinationModels.pr_dispatch_sha256 x))
  (λ '(x0, x1, x2),
    CoordinationModels.mk_SignedEffectPrepareRequest x0 x1 x2)
  ltac:(by intros []).
#[export] Instance CoordinationReceipt_codec : Codec CoordinationModels.CoordinationReceipt := codec_iso
  (λ x, (
    CoordinationModels.re_effect x, CoordinationModels.re_effect_sha256 x, CoordinationModels.re_prepare x,
    CoordinationModels.re_prepare_sha256 x, CoordinationModels.re_audience x, CoordinationModels.re_coordinator x,
    CoordinationModels.prepared_at x, CoordinationModels.re_signature x))
  (λ '(x0, x1, x2, x3, x4, x5, x6, x7),
    CoordinationModels.mk_CoordinationReceipt x0 x1 x2 x3 x4 x5 x6 x7)
  ltac:(by intros []).
#[export] Instance SignedEffectCommitRequest_codec : Codec CoordinationModels.SignedEffectCommitRequest := codec_iso
  (λ x, (
    CoordinationModels.cm_envelope x, CoordinationModels.cm_receipt x, CoordinationModels.cm_receipt_sha256 x))
  (λ '(x0, x1, x2),
    CoordinationModels.mk_SignedEffectCommitRequest x0 x1 x2)
  ltac:(by intros []).
#[export] Instance DurableCommitAcceptance_codec : Codec CoordinationModels.DurableCommitAcceptance := codec_iso
  (λ x, (
    CoordinationModels.ac_effect x, CoordinationModels.ac_effect_sha256 x, CoordinationModels.ac_request x,
    CoordinationModels.ac_request_sha256 x, CoordinationModels.ac_audience x, CoordinationModels.ac_coordinator x,
    CoordinationModels.accepted_at x, CoordinationModels.ac_signature x))
  (λ '(x0, x1, x2, x3, x4, x5, x6, x7),
    CoordinationModels.mk_DurableCommitAcceptance x0 x1 x2 x3 x4 x5 x6 x7)
  ltac:(by intros []).
#[export] Instance SignedEffectQueryRequest_codec : Codec CoordinationModels.SignedEffectQueryRequest := codec_iso CoordinationModels.qr_envelope CoordinationModels.mk_SignedEffectQueryRequest ltac:(by intros []).
#[export] Instance SignedEffectOutcome_codec : Codec CoordinationModels.SignedEffectOutcome := codec_iso
  (λ x, (
    CoordinationModels.oc_kind x, CoordinationModels.oc_request_sha256 x, CoordinationModels.oc_effect x,
    CoordinationModels.oc_effect_sha256 x, CoordinationModels.oc_disposition x, CoordinationModels.oc_acceptance x,
    CoordinationModels.oc_acknowledgment x, CoordinationModels.oc_reason x, CoordinationModels.oc_audience x,
    CoordinationModels.oc_coordinator x, CoordinationModels.signed_at x, CoordinationModels.oc_signature x))
  (λ '(x0, x1, x2, x3, x4, x5, x6, x7, x8, x9, x10, x11),
    CoordinationModels.mk_SignedEffectOutcome x0 x1 x2 x3 x4 x5 x6 x7 x8 x9 x10 x11)
  ltac:(by intros []).
#[export] Instance CoordinationTransition_codec : Codec CoordinationRecord.CoordinationTransition := codec_iso
  (λ x, (
    CoordinationRecord.tr_sequence x, CoordinationRecord.tr_state x, CoordinationRecord.tr_disposition x,
    CoordinationRecord.tr_evidence_sha256 x, CoordinationRecord.tr_reason x, CoordinationRecord.recorded_at x))
  (λ '(x0, x1, x2, x3, x4, x5),
    CoordinationRecord.mk_CoordinationTransition x0 x1 x2 x3 x4 x5)
  ltac:(by intros []).
#[export] Instance AttemptBase_codec : Codec CoordinationRecord.AttemptBase := codec_iso
  (λ x, (
    CoordinationRecord.at_sequence x, CoordinationRecord.at_request_sha256 x, CoordinationRecord.at_status x,
    CoordinationRecord.retained_at x, CoordinationRecord.updated_at x))
  (λ '(x0, x1, x2, x3, x4),
    CoordinationRecord.mk_AttemptBase x0 x1 x2 x3 x4)
  ltac:(by intros []).
#[export] Instance EffectPrepareAttempt_codec : Codec CoordinationRecord.EffectPrepareAttempt := codec_iso
  (λ x, (
    CoordinationRecord.tp_base x, CoordinationRecord.tp_request x, CoordinationRecord.tp_receipt x))
  (λ '(x0, x1, x2),
    CoordinationRecord.mk_EffectPrepareAttempt x0 x1 x2)
  ltac:(by intros []).
#[export] Instance EffectCommitAttempt_codec : Codec CoordinationRecord.EffectCommitAttempt := codec_iso
  (λ x, (
    CoordinationRecord.tc_base x, CoordinationRecord.tc_request x, CoordinationRecord.tc_acceptance x,
    CoordinationRecord.tc_outcome x, CoordinationRecord.tc_failure_reason x,
    CoordinationRecord.tc_failure_evidence x))
  (λ '(x0, x1, x2, x3, x4, x5),
    CoordinationRecord.mk_EffectCommitAttempt x0 x1 x2 x3 x4 x5)
  ltac:(by intros []).
#[export] Instance EffectQueryAttempt_codec : Codec CoordinationRecord.EffectQueryAttempt := codec_iso
  (λ x, (
    CoordinationRecord.tq_base x, CoordinationRecord.tq_request x, CoordinationRecord.tq_outcome x,
    CoordinationRecord.tq_failure_reason x, CoordinationRecord.tq_failure_evidence x))
  (λ '(x0, x1, x2, x3, x4),
    CoordinationRecord.mk_EffectQueryAttempt x0 x1 x2 x3 x4)
  ltac:(by intros []).
#[export] Instance CoordinationAttempt_codec : Codec CoordinationAttempt := codec_iso
  (λ a, match a with
        | Prepare p => (0%Z, (Some p, None, None)) | Commit c => (1%Z, (None, Some c, None))
        | Query q => (2%Z, (None, None, Some q)) end)
  (λ x, match x with
        | (_, (Some p, _, _)) => Prepare p | (_, (None, Some c, _)) => Commit c | (_, (None, None, Some q)) => Query q
        | _ => Query (mk_EffectQueryAttempt (mk_AttemptBase 0 "" REQUEST_RETAINED (utc 0) (utc 0))
                 (mk_SignedEffectQueryRequest (mk_RequestEnvelope
                   (mk_EffectIdentity "" "" "" "" "" 0 "" "" "" "" 0 "") "" ""
                   (mk_SignedWorkloadCredential
                      (mk_WorkloadCredential "" "" "" GATEWAY None "" "" "" [] (utc 0) (utc 0) (utc 0)) "")
                   "" (utc 0) (utc 0) "")) None None None)
        end)
  ltac:(by intros []).
#[export] Instance CoordinationJournalRecord_codec : Codec CoordinationJournalRecord := codec_iso
  (λ r, (jr_effect r, jr_effect_sha256 r, jr_transitions r, jr_attempts r))
  (λ '(e, d, ts, l), mk_CoordinationJournalRecord e d ts l)
  ltac:(by intros []).
