(* ===== verification/CoordinationDemo.v ===== *)
(** * Coordination journals at concrete inputs

    The key scheme of [WorkloadDemo], the record form of [CoordinationCodec] and
    short forms of the messages instantiate the parameters; a coordinator prepares
    one effect, accepts its commit, dies, restarts and is asked to commit again. *)
From S2P Require Import Prelude PyFloat PyStr PyTime PyJson Sha256 Crypto Models PhysicalModels PhysicalControl.
From S2P Require Import PhysicalDemo CapabilityModels DurableReplay TrustState Workload WorkloadVerifier WorkloadDemo.
From S2P Require Import CoordinationModels CoordinationMessages CoordinationVerify CoordinationRecord CoordinationJournal.
From S2P Require Import CoordinationRecovery CoordinationOps OtRuntime CoordinationHistory CoordinationRuns CoordinationSystem CoordinationReopen.
From S2P Require Import CoordinationCodec.
Import ModelsDemo.
#[local] Existing Instance digest_scheme | 0.
#[local] Existing Instance digest_scheme_raw | 0.
#[local] Existing Instance credential_dump.

(** ** JSON forms *)
#[local] Instance co_proposal_dump : ModelDump ActionProposal | 0 := λ p, JObj
  [("proposal_id", JStr (proposal_id p)); ("actor_id", JStr (actor_id p)); ("nonce", JStr (nonce p))].
#[local] Instance co_observation_dump : ModelDump SignedObservationEnvelope := λ o, JObj
  [("observation_id", JStr (observation_id o)); ("challenge_nonce", JStr (challenge_nonce o));
   ("state_digest", JStr (ps_state_digest (CapabilityModels.snapshot o)));
   ("envelope_digest", JStr (envelope_digest o)); ("signature", JStr (so_signature o))].
#[local] Instance co_request_dump : ModelDump CapabilityActionRequest := λ r, JObj
  [("request_id", JStr (request_id r)); ("correlation_id", JStr (correlation_id r));
   ("proposal", model_dump (rq_proposal r)); ("observation", JStr (observation_envelope_digest r))].
#[local] Instance co_permit_dump : ModelDump CapabilityExecutionPermit := λ p, JObj
  [("permit", model_dump (base_permit p)); ("request_digest", JStr (cp_request_digest p));
   ("target_plc_id", JStr (target_plc_id p)); ("target_plc_key_id", JStr (target_plc_key_id p));
   ("signature", JStr (cp_signature p))].
#[local] Instance co_acknowledgment_dump : ModelDump PlcCommandAcknowledgment := λ a, JObj
  [("acknowledgment_id", JStr (pa_acknowledgment_id a)); ("permit_digest", JStr (permit_digest a));
   ("reason", JStr (pa_reason a)); ("signature", JStr (pa_signature a))].
#[local] Instance co_dispatch_dump : ModelDump SegmentedCapabilityDispatch := λ d, JObj
  [("request", model_dump (dp_request d)); ("observation", JStr (envelope_digest (dp_observation d)));
   ("decision_id", JStr (decision_id (dp_decision d))); ("permit", model_dump (dp_permit d))].
#[local] Instance co_effect_dump : ModelDump EffectIdentity := λ e, JObj [("effect_id", JStr (effect_id e))].
Definition envelope_json (e : RequestEnvelope) (body : string) : json := JObj
  [("effect_sha256", JStr (rv_effect_sha256 e)); ("audience", JStr (rv_audience e));
   ("sender", JStr (credential_id (credential (sender_credential e)))); ("nonce", JStr (request_nonce e));
   ("issued_at", time_json (rv_issued_at e)); ("expires_at", time_json (rv_expires_at e)); ("body", JStr body);
   ("signature", JStr (rv_signature e))].
#[local] Instance co_prepare_dump : ModelDump SignedEffectPrepareRequest := λ r,
  envelope_json (pr_envelope r) (pr_dispatch_sha256 r).
#[local] Instance co_receipt_dump : ModelDump CoordinationReceipt := λ r, JObj
  [("prepare_sha256", JStr (re_prepare_sha256 r)); ("coordinator", JStr (credential_id (credential (re_coordinator r))));
   ("prepared_at", time_json (prepared_at r)); ("signature", JStr (re_signature r))].
#[local] Instance co_commit_dump : ModelDump SignedEffectCommitRequest := λ r,
  envelope_json (cm_envelope r) (cm_receipt_sha256 r).
#[local] Instance co_acceptance_dump : ModelDump DurableCommitAcceptance := λ a, JObj
  [("request_sha256", JStr (ac_request_sha256 a)); ("coordinator", JStr (credential_id (credential (ac_coordinator a))));
   ("accepted_at", time_json (accepted_at a)); ("signature", JStr (ac_signature a))].
#[local] Instance co_query_dump : ModelDump SignedEffectQueryRequest := λ r, envelope_json (qr_envelope r) "".
#[local] Instance co_outcome_dump : ModelDump SignedEffectOutcome := λ o, JObj
  [("request_sha256", JStr (oc_request_sha256 o)); ("effect_sha256", JStr (oc_effect_sha256 o));
   ("reason", JStr (oc_reason o)); ("signed_at", time_json (signed_at o)); ("signature", JStr (oc_signature o))].
#[local] Instance co_dumps : MessageDumps := {|
  md_snapshot := demo_snapshot_dump; md_command := demo_command_dump; md_assessment := demo_assessment_dump;
  md_permit := demo_permit_dump; md_proposal := co_proposal_dump; md_observation := co_observation_dump;
  md_request := co_request_dump; md_capability_permit := co_permit_dump; md_acknowledgment := co_acknowledgment_dump;
  md_dispatch := co_dispatch_dump; md_effect := co_effect_dump; md_prepare := co_prepare_dump;
  md_receipt := co_receipt_dump; md_commit := co_commit_dump; md_acceptance := co_acceptance_dump;
  md_query := co_query_dump; md_outcome := co_outcome_dump;
|}.
(** The journal's records, in the form that reads back. *)
#[local] Instance co_record_dump : ModelDump CoordinationJournalRecord := λ r, JObj [("record", enc r)].
#[local] Instance co_record_load : ModelLoad CoordinationJournalRecord := λ j,
  match j with JObj [("record", x)] => dec x | _ => None end.
#[local] Instance co_record_laws : RecordLaws.
Proof.
  assert (C : ∀ r, canon (model_dump r) = model_dump r).
  { intros r. unfold model_dump, co_record_dump. cbn [canon map]. by rewrite enc_canon. }
  assert (L : ∀ r, model_load (model_dump r) = Some r) by (intros r; apply dec_enc).
  split.
  - split; [intros r; unfold model_dump, co_record_dump; cbn [json_ok forallb]; by rewrite enc_ok|]. intros a b. rewrite !C. intros E.
    apply (f_equal model_load) in E. rewrite !L in E. by injection E.
  - intros r. by eexists.
  - intros r. by rewrite C.
  - intros r _. apply L.
  - intros r r'. rewrite L. by intros [= <-].
Qed.

(** ** The messages *)
Definition or_else {A} (d : A) (r : result A) : A := match r with Ok a => a | Raise _ => d end.
Definition at_second (n : Z) : datetime := utc (t0 + seconds n).
Definition co_credential (id : string) (role : WorkloadRole) (subject : string) (k : DemoKey) (auds : list string) :
    SignedWorkloadCredential :=
  let c := mk_WorkloadCredential id "example.org" subject role None (workload_key_id (k : public_key))
             (public_key_base64 (k : public_key)) root_id auds (at_hour 0) (at_hour 0) (at_hour 20) in
  or_else (mk_SignedWorkloadCredential c "") (credential_issue c Root).
Definition gateway_signer : WorkloadSigner :=
  mk_WorkloadSigner (co_credential "credential-gateway-1" GATEWAY "workload/gateway" Leaf
       [OT_CAPABILITY_AUDIENCE; EFFECT_COORDINATOR_AUDIENCE])
    (Leaf : private_key).
Definition coordinator_signer : WorkloadSigner :=
  mk_WorkloadSigner (co_credential "credential-adapter-1" OT_ADAPTER "workload/adapter" Other
       [GATEWAY_CAPABILITY_AUDIENCE; GATEWAY_COORDINATION_AUDIENCE])
    (Other : private_key).

Definition co_command : PhysicalControlCommand := demo_command.
Definition co_candidate : CandidateAssessment := demo_candidate (mk_DemoPlant 0 [] false).
Definition co_state : PhysicalStateSnapshot := sealed 0 [] false.
Definition co_observation : SignedObservationEnvelope :=
  let o d := mk_SignedObservationEnvelope "observation-1" "correlation-1" PRE_AUTHORIZATION "challenge-0123456789"
               "observer-1" "observer-key-1" "observer-boot-epoch-1" 1 (ps_observed_at co_state)
               (ps_simulation_time_s co_state) co_state None None None None d "" in
  let o := o (or_else "" (canonical_digest (observation_digest_material (o "")))) in
  so_with o (envelope_digest o) (sign_bytes (Leaf : private_key) (or_else "" (observation_signing_payload o))).
(** The proposal, made of the plant's first state. *)
Definition co_proposal : ActionProposal :=
  let p := proposal in
  mk_ActionProposal (proposal_id p) (actor_id p) (mission_id p) (resource p) (operation p) (parameters p) 0
    (ps_observed_at co_state) (submitted_at p) (nonce p) (confidence p) (risk_score p) (delegation_chain p)
    (human_approval_id p).
Definition co_request : CapabilityActionRequest :=
  mk_CapabilityActionRequest "request-1" "correlation-1" co_proposal "observation-1" (envelope_digest co_observation)
    "challenge-0123456789".
Definition co_decision : Decision :=
  mk_Decision "decision-1" "proposal-1" Models.PERMIT [] (at_second 1) "policy-1" "safety-1" 0 (Some (zeros 64)).
Definition adapter_key_id : string := workload_key_id (Other : public_key).
Definition co_base_permit : ExecutionPermit :=
  let p := mk_ExecutionPermit "permit-1" "permit-nonce-012345" "decision-1" "proposal-1"
    (or_else "" (proposal_digest co_proposal)) co_command (or_else "" (command_digest co_command))
    (or_else "" (assessment_digest co_candidate)) 0 (ps_state_digest co_state) (ps_observation_digest co_state)
    (ps_topology_digest co_state) (ps_model_digest co_state) 1 (ps_state_digest (post_state co_candidate))
    (ps_topology_digest (post_state co_candidate)) (zeros 64) "policy-1" "safety-1" "plc-1" (at_second 2) (at_second 62)
    "issuer-1" "" in
  or_else p (permit_signed p (Root : private_key)).
Definition co_permit : CapabilityExecutionPermit :=
  let p := mk_CapabilityExecutionPermit co_base_permit (or_else "" (request_digest co_request)) "observation-1"
    (envelope_digest co_observation) "observer-1" "observer-key-1" "observer-boot-epoch-1" "plc-1" adapter_key_id
    "plc-boot-epoch-0001" "issuer-1" "" in
  or_else p (cp_signed p (Root : private_key)).
Definition co_dispatch : SegmentedCapabilityDispatch :=
  mk_SegmentedCapabilityDispatch co_request co_observation co_decision co_candidate co_permit.
Definition co_prepare : result SignedEffectPrepareRequest :=
  prepare_issue co_dispatch gateway_signer "prepare-nonce-0001" EFFECT_COORDINATOR_AUDIENCE (at_second 3) (at_second 33).
Definition co_prepare_request : SignedEffectPrepareRequest :=
  or_else (mk_SignedEffectPrepareRequest (mk_RequestEnvelope (mk_EffectIdentity "" "" "" "" "" 0 "" "" "" "" 0 "") "" ""
    (sg_credential gateway_signer) "" (at_second 3) (at_second 33) "") co_dispatch "") co_prepare.
Definition issue_receipt (r : SignedEffectPrepareRequest) (at_ : datetime) : result CoordinationReceipt :=
  receipt_issue r coordinator_signer at_ GATEWAY_COORDINATION_AUDIENCE.
Definition co_receipt : CoordinationReceipt :=
  or_else (mk_CoordinationReceipt (rv_effect (pr_envelope co_prepare_request)) "" co_prepare_request "" ""
    (sg_credential coordinator_signer) (at_second 4) "") (issue_receipt co_prepare_request (at_second 4)).
Definition commit_with (nonce : string) : SignedEffectCommitRequest :=
  or_else (mk_SignedEffectCommitRequest (pr_envelope co_prepare_request) co_receipt "")
    (commit_issue co_receipt gateway_signer nonce EFFECT_COORDINATOR_AUDIENCE (at_second 5) (at_second 35)).
Definition co_commit : SignedEffectCommitRequest := commit_with "commit-nonce-00001".
Definition issue_acceptance (r : SignedEffectCommitRequest) (at_ : datetime) : result DurableCommitAcceptance :=
  acceptance_issue r coordinator_signer at_ GATEWAY_COORDINATION_AUDIENCE.

(** ** A run of the coordinator's journal *)
Definition coordinator : JournalConfig := mk_JournalConfig ROLE_EFFECT_COORDINATOR "workload/adapter".
#[local] Instance calm_files : FsEnv := {| write_outcome := λ _, Written; read_fails := λ _, false |}.
Definition empty_dir : Disk := mk_Disk (ParentDirectory 448) EntryAbsent SidecarAbsent false 0.
Definition op_prepare : JournalOp := PrepareEffect co_prepare_request issue_receipt.
Definition op_commit : JournalOp := BeginCommit co_commit issue_acceptance.
Definition call (op : JournalOp) (n : Z) (s : JournalState) : result Reply * JournalState :=
  perform coordinator 1 op (Some (at_second n)) (at_second n) s.
(** What opening leaves. *)
Definition opened_state (r : result Journal * Disk) : JournalState :=
  (or_else (mk_Journal None ∅ true) r.1, r.2).
Definition c0 : JournalState := opened_state (journal_init coordinator 1 true empty_dir).
Definition c1 : JournalState := (call op_prepare 4 c0).2.
Definition c2 : JournalState := (call op_commit 6 c1).2.
(** The process dies; another opens the file. *)
Definition d2 : Disk := released c2.1 c2.2.
Definition c3 : JournalState := opened_state (journal_init coordinator 1 false d2).
(** The device applied the command; the coordinator retains the signed outcome. *)
Definition co_acceptance : DurableCommitAcceptance :=
  or_else (mk_DurableCommitAcceptance (re_effect co_receipt) "" co_commit "" "" (sg_credential coordinator_signer)
    (at_second 6) "") (issue_acceptance co_commit (at_second 6)).
Definition co_acknowledgment : PlcCommandAcknowledgment :=
  let b := co_base_permit in
  let a := mk_PlcCommandAcknowledgment "acknowledgment-1" (cp_request_digest co_permit)
    (or_else "" (capability_permit_digest co_permit)) (envelope_digest co_observation) (permit_id b) (permit_nonce b)
    (command_id (pm_command b)) (pm_command_digest b) (pm_assessment_digest b) (pm_proposal_id b) (pm_decision_id b)
    "plc-1" adapter_key_id "plc-boot-epoch-0001" 1 PhysicalModels.APPLIED CapabilityModels.COMMITTED "applied"
    (at_second 7) co_state (ps_state_digest co_state) (ps_state_version co_state)
    (Some (expected_post_state_digest b)) (Some (expected_post_state_version b)) (Some (expected_post_topology_digest b))
    (actuator_setpoint co_state (pm_command b)) (Some (setpoint (pm_command b))) f0 "" in
  or_else a (pa_signed a (Other : private_key)).
Definition co_outcome : result SignedEffectOutcome :=
  outcome_issue (CommitRequest co_commit) EFFECT_APPLIED "applied" coordinator_signer (at_second 8) (Some co_acceptance)
    (Some co_acknowledgment) GATEWAY_COORDINATION_AUDIENCE.
Definition co_outcome_value : SignedEffectOutcome :=
  or_else (mk_SignedEffectOutcome KIND_COMMIT "" (re_effect co_receipt) "" EFFECT_APPLIED None None "" ""
    (sg_credential coordinator_signer) (at_second 8) "") co_outcome.
Definition op_finish : JournalOp := FinishCommit co_commit co_outcome_value.
Definition c4 : JournalState := (call op_finish 9 c3).2.
Definition co_effect : EffectIdentity := re_effect co_receipt.

(** ** The values of the run *)
Definition world (s : JournalState) : JSystem := mk_JSystem s.2 {[1%Z := s.1]}.
Definition event (op : JournalOp) (n : Z) (s : JournalState) : JEvent := (1%Z, op, (call op n s).1).
(** Up to the first commit; then death, a second opening, the commit again. *)
Definition first_life : list JEvent := [event op_prepare 4 c0; event op_commit 6 c1].
Definition second_life : list JEvent := [event op_commit 8 c3].
Definition record_or (o : option CoordinationJournalRecord) : CoordinationJournalRecord :=
  default (mk_CoordinationJournalRecord co_effect "" [] []) o.
Definition co_record : CoordinationJournalRecord := record_or (jn_records c2.1 !! effect_id co_effect).
(** After the outcome is retained the process dies; any process can go on. *)
Definition d4 : Disk := released c4.1 c4.2.
(** The record that is read afterwards. *)
Definition reading : result (option CoordinationJournalRecord) * JournalState := journal_get 1 co_effect (c4.1, c4.2).
Definition co_final : CoordinationJournalRecord := record_or (or_else None reading.1).
(** What is computed of the run, once. *)
Definition same {A} `{EqDecision A} (a b : A) : bool := bool_decide (a = b).
Definition private_files (p : Parent) (s : Sidecar) : bool :=
  match p, s with
  | ParentDirectory mode, SidecarFile mode' => (mode =? 448)%Z && (mode' =? mode_0600)%Z
  | _, _ => false
  end.
Definition found {A} (r : result (option A)) : bool := match r with Ok (Some _) => true | _ => false end.
Definition present {A} (o : option A) : bool := match o with Some _ => true | None => false end.
Definition facts : list bool := [
  is_Ok (journal_init coordinator 1 true empty_dir).1;
  is_Ok (journal_init coordinator 1 false d2).1;
  same (admissions (first_life ++ second_life)) [effect_id co_effect];
  present (jn_records c2.1 !! effect_id co_effect);
  negb (jn_unusable c2.1);
  present (jn_writer c2.1);
  same (jr_state co_record) COMMIT_ACCEPTED;
  negb (dk_locked d2);
  private_files (dk_parent d4) (dk_sidecar d4);
  found reading.1;
  same (tr_state <$> jr_transitions co_final) [RECEIVED; DISPATCH_ARMED; COMMIT_ACCEPTED; STATE_APPLIED];
  same (jr_state co_final) STATE_APPLIED].
Lemma facts_hold : forallb id facts = true.
Proof. vm_compute. reflexivity. Qed.
Lemma fact n b : facts !! n = Some b → b = true.
Proof.
  intros H. pose proof facts_hold as F. rewrite forallb_forall in F. apply (F b).
  apply list_elem_of_In. by eapply list_elem_of_lookup_2.
Qed.
Lemma the_same {A} `{EqDecision A} (a b : A) : same a b = true → a = b.
Proof. apply bool_decide_eq_true. Qed.
Lemma negb_true b : negb b = true → b = false.
Proof. by destruct b. Qed.
Lemma private_files_Ok p s : private_files p s = true → p = ParentDirectory 448 ∧ s = SidecarFile mode_0600.
Proof. destruct p, s; try discriminate. by intros [->%Z.eqb_eq ->%Z.eqb_eq]%andb_prop. Qed.
Lemma d4_directory : dk_parent d4 = ParentDirectory 448 ∧ dk_sidecar d4 = SidecarFile mode_0600.
Proof. apply private_files_Ok. exact (fact 8 _ eq_refl). Qed.

(** ** The run as steps *)
Lemma opened_run (x : result Journal * Disk) : is_Ok x.1 = true → x = (Ok (opened_state x).1, (opened_state x).2).
Proof. by destruct x as [[] ?]. Qed.
Lemma jrun_one s es s' : jstep coordinator s es s' → jrun coordinator s es s'.
Proof. intros H. rewrite <- (app_nil_r es). econstructor; [exact H|constructor]. Qed.
Lemma open_step initialize d s :
  is_Ok (journal_init coordinator 1 initialize d).1 = true → s = opened_state (journal_init coordinator 1 initialize d) →
  jrun coordinator (mk_JSystem d ∅) [] (world s).
Proof.
  intros H%opened_run ->. apply jrun_one.
  exact (jstep_open coordinator d ∅ 1 initialize _ _ (lookup_empty 1%Z) H).
Qed.
Lemma call_step op n s :
  op_role op = Some ROLE_EFFECT_COORDINATOR → jrun coordinator (world s) [event op n s] (world (call op n s).2).
Proof.
  intros Hr. apply jrun_one. unfold world at 2.
  rewrite <- (insert_singleton_eq 1%Z (call op n s).2.1 s.1).
  apply (jstep_perform coordinator s.2 {[1%Z := s.1]} 1 s.1 1 op (Some (at_second n)) (at_second n)).
  - apply lookup_singleton_eq.
  - rewrite Hr. by intros role [= <-].
  - unfold call. destruct s as [j d]. cbn [fst snd]. by destruct (perform _ _ _ _ _ _) as [? [? ?]].
Qed.
Lemma die_step s : jrun coordinator (world s) [] (mk_JSystem (released s.1 s.2) ∅).
Proof.
  apply jrun_one.
  rewrite <- (delete_singleton_eq 1%Z s.1). exact (jstep_die coordinator s.2 {[1%Z := s.1]} 1 s.1 (lookup_singleton_eq 1%Z s.1)).
Qed.
Lemma jrun_trans s es s1 es' s2 : jrun coordinator s es s1 → jrun coordinator s1 es' s2 → jrun coordinator s (es ++ es') s2.
Proof. apply jrun_app. Qed.

Lemma first_run : jrun coordinator (mk_JSystem empty_dir ∅) first_life (world c2).
Proof.
  apply (jrun_trans _ [] (world c0) first_life); [by apply (open_step true); [exact (fact 0 _ eq_refl)|]|].
  apply (jrun_trans _ [event op_prepare 4 c0] (world c1) [event op_commit 6 c1]); by apply call_step.
Qed.
Lemma first_death : jrun coordinator (mk_JSystem empty_dir ∅) first_life (mk_JSystem d2 ∅).
Proof. rewrite <- (app_nil_r first_life). eapply jrun_trans; [exact first_run|apply die_step]. Qed.
Lemma second_open : jrun coordinator (mk_JSystem d2 ∅) [] (world c3).
Proof. by apply (open_step false); [exact (fact 1 _ eq_refl)|]. Qed.
Lemma second_run : jrun coordinator (mk_JSystem d2 ∅) second_life (world (call op_commit 8 c3).2).
Proof. apply (jrun_trans _ [] (world c3) second_life); [exact second_open|by apply call_step]. Qed.
Lemma finished_run : jrun coordinator (mk_JSystem empty_dir ∅) (first_life ++ [event op_finish 9 c3]) (world c4).
Proof.
  eapply jrun_trans; [exact first_death|].
  apply (jrun_trans _ [] (world c3) [event op_finish 9 c3]); [exact second_open|by apply call_step].
Qed.

Lemma executed_at_most_once_witness :
  ∃ es s', jrun coordinator (mk_JSystem empty_dir ∅) es s' ∧ length es = 3%nat
    ∧ admissions es = [effect_id co_effect] ∧ NoDup (admissions es).
Proof.
  exists (first_life ++ second_life), (world (call op_commit 8 c3).2).
  assert (R : jrun coordinator (mk_JSystem empty_dir ∅) (first_life ++ second_life) (world (call op_commit 8 c3).2))
    by exact (jrun_trans _ _ _ _ _ first_death second_run).
  split; [exact R|]. split; [reflexivity|]. split; [exact (the_same _ _ (fact 2 _ eq_refl))|].
  exact (executed_at_most_once coordinator empty_dir (first_life ++ second_life) _ R).
Defined.

(** ** What the first life retained *)
Lemma present_Some {A} (o : option A) : present o = true → is_Some o.
Proof. by destruct o. Qed.
Lemma known {A} (o : option A) d : present o = true → o = Some (default d o).
Proof. by destruct o. Qed.
Lemma co_record_retained : jn_records c2.1 !! effect_id co_effect = Some co_record.
Proof. apply known. exact (fact 3 _ eq_refl). Qed.
Lemma holds_reached d es s :
  jrun coordinator (mk_JSystem d ∅) es (world s) → jn_unusable s.1 = false → present (jn_writer s.1) = true →
  holds coordinator s.2 (jn_records s.1).
Proof.
  intros R U W%present_Some. destruct (run_sound _ _ _ _ R (sound_idle _ d)) as [I _].
  apply (so_locked _ _ I 1%Z s.1); [apply lookup_singleton_eq|done|done|done].
Qed.
Lemma d2_holds : holds coordinator d2 (jn_records c2.1).
Proof.
  unfold d2. apply released_holds.
  by apply (holds_reached empty_dir first_life); [exact first_run|exact (negb_true _ (fact 4 _ eq_refl))|exact (fact 5 _ eq_refl)].
Qed.
Lemma finish_run : jrun coordinator (mk_JSystem d2 ∅) [event op_finish 9 c3] (world c4).
Proof. apply (jrun_trans _ [] (world c3) [event op_finish 9 c3]); [exact second_open|by apply call_step]. Qed.

Lemma retained_records_evolve_witness :
  jr_state co_record = COMMIT_ACCEPTED
  ∧ ∃ rs r', holds coordinator c4.2 rs ∧ rs !! effect_id co_effect = Some r' ∧ evolves co_record r'
      ∧ rtc legal_step (jr_state co_record) (jr_state r').
Proof.
  split; [exact (the_same _ _ (fact 6 _ eq_refl))|].
  destruct (retained_records_evolve coordinator d2 [event op_finish 9 c3] (world c4) (jn_records c2.1)
    (effect_id co_effect) co_record finish_run d2_holds co_record_retained) as (rs' & r' & Hh & Hr & E & P & _).
  exists rs', r'. split; [exact Hh|]. split; [exact Hr|]. split; [exact E|exact P].
Defined.

Lemma journal_reopens_witness :
  ∃ j d r', jstep coordinator (mk_JSystem d4 ∅) [] (mk_JSystem d {[7%Z := j]})
    ∧ journal_get 7 (jr_effect co_record) (j, d) = (Ok (Some r'), (j, d)) ∧ evolves co_record r'.
Proof.
  assert (R : jrun coordinator (mk_JSystem d2 ∅) [event op_finish 9 c3] (mk_JSystem d4 ∅)).
  { rewrite <- (app_nil_r [event op_finish 9 c3]). eapply jrun_trans; [exact finish_run|apply die_step]. }
  destruct (journal_reopens coordinator d2 [event op_finish 9 c3] d4 ∅ (jn_records c2.1) 7 R) as (j & d & S & G).
  - exact (negb_true _ (fact 7 _ eq_refl)).
  - exact d2_holds.
  - intros q j H. rewrite lookup_empty in H. discriminate H.
  - apply lookup_empty.
  - reflexivity.
  - exact (proj1 d4_directory).
  - right. exact (proj2 d4_directory).
  - reflexivity.
  - destruct (G (effect_id co_effect) co_record co_record_retained) as (r' & Hg & E).
    exists j, d, r'. rewrite insert_empty in S. split; [exact S|]. split; [exact Hg|exact E].
Defined.

Lemma reading_run : journal_get 1 co_effect (c4.1, js_disk (world c4)) = (Ok (Some co_final), reading.2).
Proof.
  assert (H : found reading.1 = true) by exact (fact 9 _ eq_refl).
  unfold world. cbn [js_disk]. fold reading. revert H. unfold co_final. generalize reading.
  intros [[[r|]|e] t] H; [reflexivity|discriminate H..].
Qed.
Lemma co_final_handed_out : hands_out (world c4) co_effect co_final.
Proof. exists 1%Z, c4.1, 1%Z, reading.2. split; [exact (lookup_singleton_eq 1%Z c4.1)|exact reading_run]. Qed.
Lemma records_well_formed_witness :
  record_reread co_final = Ok co_final ∧ state_path (tr_state <$> jr_transitions co_final)
  ∧ tr_state <$> jr_transitions co_final = [RECEIVED; DISPATCH_ARMED; COMMIT_ACCEPTED; STATE_APPLIED].
Proof.
  destruct (records_well_formed coordinator empty_dir _ (world c4) co_effect co_final finished_run
    co_final_handed_out) as (_ & Hr & Hp & _).
  split; [exact Hr|]. split; [exact Hp|]. exact (the_same _ _ (fact 10 _ eq_refl)).
Defined.
Lemma applied_is_acknowledged_witness :
  jr_state co_final = STATE_APPLIED ∧ ∃ o x k, TerminalEvidence co_final o x k.
Proof.
  assert (Hs : jr_state co_final = STATE_APPLIED) by exact (the_same _ _ (fact 11 _ eq_refl)). split; [exact Hs|].
  refine (proj2 (applied_is_acknowledged coordinator empty_dir _ (world c4) co_effect co_final
    finished_run co_final_handed_out _)).
  rewrite Hs. apply list_elem_of_here.
Defined.
