(* ===== verification/OtDemo.v ===== *)
(** * An OT effect coordinator at concrete inputs

    The artefacts of [CoordinationDemo] and the trust root of [WorkloadDemo]: a
    coordinator prepares an effect, commits it, applies it and is asked to commit
    again; another one is asked about a prepared effect before its commit arrives. *)
From S2P Require Import Prelude PyFloat PyStr PyTime PyJson Sha256 Crypto Models PhysicalModels PhysicalDemo.
From S2P Require Import CapabilityModels DurableReplay TrustState TrustRuns Workload WorkloadVerifier WorkloadRuns WorkloadDemo.
From S2P Require Import CoordinationModels CoordinationMessages CoordinationVerify CoordinationRecord CoordinationJournal.
From S2P Require Import CoordinationRecovery CoordinationOps OtRuntime CoordinationHistory CoordinationRuns CoordinationSystem.
From S2P Require Import CoordinationReopen OtRuns OtSystem CoordinationCodec CoordinationDemo.
#[local] Existing Instance digest_scheme | 0.
#[local] Existing Instance digest_scheme_raw | 0.
#[local] Existing Instance credential_dump.
#[local] Existing Instance bundle_dump.
#[local] Existing Instance bundle_load.
#[local] Existing Instance calm_env.
#[local] Existing Instance co_dumps.
#[local] Existing Instance co_record_dump.
#[local] Existing Instance co_record_load.
#[local] Existing Instance co_record_laws.
#[local] Existing Instance calm_files.

(** ** The environment *)
Definition co_gateway : SignedWorkloadCredential := sg_credential gateway_signer.
Definition co_adapter : SignedWorkloadCredential := sg_credential coordinator_signer.
#[local] Instance signed_credential_dump : ModelDump SignedWorkloadCredential := λ s, JObj
  [("credential", model_dump (credential s)); ("signature", JStr (cred_signature s))].
#[local] Instance signed_credential_load : ModelLoad SignedWorkloadCredential := λ j,
  List.find (λ s, json_eqb (canon (model_dump s)) (canon j)) [co_gateway; co_adapter].
Definition credential_file (s : SignedWorkloadCredential) : option string :=
  match canonical_json_file_bytes s with Ok b => Some b | Raise _ => None end.
#[local] Instance co_trust : TrustSource := {| bundle_reading := λ _, bundle_file first_bundle; lock_held := λ _, false |}.
#[local] Instance co_credentials : CredentialFiles := {|
  gateway_credential_file := λ _, credential_file co_gateway;
  local_credential_file := λ _, credential_file co_adapter;
|}.
#[local] Instance co_verifier : CredentialVerifier VerifierWorld := workload_verifier root_config.
#[local] Instance co_verifier_laws : VerifierLaws root_config := workload_verifier_laws root_config.
#[local] Instance co_bindings : CredentialBindings VerifierWorld :=
  runtime_bindings root_config "workload/gateway" "workload/adapter".
(** The plant is where the proposal saw it, and moves when the command is applied,
    after a first process's third reading; a process that counts from 100 sees it unmoved. *)
Definition plant_at (s : PhysicalStateSnapshot) : PlantHealth :=
  mk_PlantHealth "plant-epoch-1" "plant-key-1" "plant-public-key" "demo" "demo-simulator" "meter"
    (mk_PlantInfo (zeros 64) (ps_state_version s) (ps_state_digest s)).
#[local] Instance co_environment : OtEnvironment := {|
  clock_reading := λ n, at_second (4 + 2 * Z.of_nat n);
  plant_health := λ n, Ok (plant_at (if decide (n < 3 ∨ 100 ≤ n) then co_state else post_state co_candidate));
  anchor_admission := λ _ _ _ _ _, Ok (mk_AnchorDecision true true);
  device_answer := λ _, Ok co_acknowledgment;
|}.
Definition co_config : OtConfig :=
  mk_OtConfig coordinator (Leaf : public_key) "observer-1" "observer-key-1" "observer-boot-epoch-1" (Root : public_key)
    "issuer-1" (Other : public_key) adapter_key_id "plc-1" "plc-boot-epoch-0001" (plant_at co_state) coordinator_signer
    true None.

(** ** A process and its calls *)
Abbreviation State := (OtState VerifierWorld).
Definition trust_start : VerifierWorld := ((new_verifier, private_disk), 0).
Definition opened (initialize : bool) (plant : nat) (d : Disk) (calls : list SegmentedCapabilityDispatch) : State :=
  (ot_init co_config 1 (mk_OtState (initial_local co_config trust_start 0 plant 0)
     (opened_state (journal_init coordinator 1 initialize d)) calls)).2.
Definition b0 : State := opened true 0 empty_dir [].
Definition prepared := prepare_effect_call co_config 1 co_prepare_request b0.
Definition admitted_call := commit_admit co_config 1 co_commit prepared.2.
Definition flight_or (r : result (SignedEffectOutcome + InFlight)) : InFlight :=
  match r with
  | Ok (inr f) => f
  | _ => mk_InFlight co_commit co_acceptance
           (mk_EffectContext (mk_ResolvedWorkloadIdentity co_gateway Leaf (mk_WorkloadVerificationReceipt Leaf (at_second 0)
              "" "" "" GATEWAY None "" "" "" 0 ""))
              (mk_ResolvedWorkloadIdentity co_adapter Other (mk_WorkloadVerificationReceipt Other (at_second 0)
              "" "" "" OT_ADAPTER None "" "" "" 0 "")) coordinator_signer)
  end.
Definition in_flight : InFlight := flight_or admitted_call.1.
Definition executed := commit_execute in_flight admitted_call.2.
Definition device_said : result PlcCommandAcknowledgment := or_else (Ok co_acknowledgment) executed.1.
Definition recorded := commit_record co_config 1 in_flight device_said executed.2.
Definition admitted_again := commit_admit co_config 1 co_commit recorded.2.
(** The effect is asked about before its commit arrives, and the commit after that. *)
Definition co_query : SignedEffectQueryRequest :=
  or_else (mk_SignedEffectQueryRequest (pr_envelope co_prepare_request))
    (query_issue co_effect gateway_signer "query-nonce-000001" EFFECT_COORDINATOR_AUDIENCE (at_second 5) (at_second 35)).
Definition u0 : State := opened true 100 empty_dir [].
Definition prepared_too := prepare_effect_call co_config 1 co_prepare_request u0.
Definition queried := query_effect co_config 1 co_query prepared_too.2.
Definition too_late := commit_admit co_config 1 co_commit queried.2.

(** ** The runs *)
Abbreviation System := (OtSystem VerifierWorld).
Definition alone (t : State) (fl : Flight) : System :=
  mk_OtSystem (os_journal t).2 (os_calls t) {[1%Z := mk_OtProcess (os_journal t).1 (os_local t) fl]}.
Definition is_flight (r : result (SignedEffectOutcome + InFlight)) : bool := match r with Ok (inr _) => true | _ => false end.
Definition not_dispatched_answer (r : result SignedEffectOutcome) : bool :=
  match r with Ok o => bool_decide (oc_disposition o = EFFECT_NOT_DISPATCHED) | Raise _ => false end.
(** A commit that is applied, and the same request again, to the same process. *)
Definition applied_events : list OtEvent :=
  [PrepareAnswered co_prepare_request prepared.1; CommitAnswered (fl_request in_flight) recorded.1].
Definition applied_system : System := alone recorded.2 Idle.
Definition repeated_events : list OtEvent := applied_events ++ answer_of co_commit admitted_again.1.
Definition repeated_system : System := alone admitted_again.2 (flight_of admitted_again.1).
(** A commit that arrives after its effect was answered as not dispatched. *)
Definition closed_events : list OtEvent :=
  [PrepareAnswered co_prepare_request prepared_too.1] ++ [QueryAnswered co_query queried.1]
  ++ answer_of co_commit too_late.1.
Definition closed_system : System := alone too_late.2 (flight_of too_late.1).
(** The journal after the commit, against the plant then. *)
Definition applied_records : list CoordinationJournalRecord := sorted_records (jn_records (os_journal recorded.2).1).
Definition applied_plant : PlantInfo := ph_info (plant_at (post_state co_candidate)).
Definition is_aligned (r : result CoordinationRecoveryResult) : bool :=
  match r with Ok r => bool_decide (rr_status r = ALIGNED) | Raise _ => false end.
(** What is computed of the runs, once. *)
Definition started (plant : nat) : bool :=
  is_Ok (ot_init co_config 1 (mk_OtState (initial_local co_config trust_start 0 plant 0)
    (opened_state (journal_init coordinator 1 true empty_dir)) [])).1.
Definition ot_facts : list bool := [
  is_Ok (journal_init coordinator 1 true empty_dir).1;
  started 0;
  is_flight admitted_call.1;
  is_Ok executed.1;
  same (asked repeated_system) [effect_id co_effect];
  is_Ok admitted_again.1;
  same (sy_calls applied_system) [co_dispatch];
  started 100;
  not_dispatched_answer queried.1;
  is_aligned (validate_coordination_recovery applied_records applied_plant);
  same (jr_state <$> applied_records) [STATE_APPLIED]].
Lemma ot_facts_hold : forallb id ot_facts = true.
Proof. vm_compute. reflexivity. Qed.
Lemma ot_fact n b : ot_facts !! n = Some b → b = true.
Proof.
  intros H. pose proof ot_facts_hold as F. rewrite forallb_forall in F. apply (F b).
  apply list_elem_of_In. by eapply list_elem_of_lookup_2.
Qed.

(** ** The calls as steps of a system with one process *)
Definition member (t : State) (fl : Flight) : OtProcess VerifierWorld := mk_OtProcess (os_journal t).1 (os_local t) fl.
Lemma alone_member t fl : sy_processes (alone t fl) !! 1%Z = Some (member t fl).
Proof. apply lookup_singleton_eq. Qed.
Lemma alone_call t fl : call_state (alone t fl) (member t fl) = t.
Proof. by destruct t as [l [j d] calls]. Qed.
Lemma alone_after t fl t' fl' : after (alone t fl) 1 t' fl' = alone t' fl'.
Proof. unfold after, alone. cbn [sy_processes]. by rewrite insert_singleton_eq. Qed.
Lemma otrun_one s ev s' : otstep co_config s ev s' → otrun co_config s ev s'.
Proof. intros H. rewrite <- (app_nil_r ev). econstructor; [exact H|constructor]. Qed.
Lemma run_alone t fl ev t' fl' :
  otstep co_config (alone t fl) ev (after (alone t fl) 1 t' fl') → otrun co_config (alone t fl) ev (alone t' fl').
Proof. rewrite alone_after. apply otrun_one. Qed.
Lemma otrun_trans s ev s1 ev' s2 : otrun co_config s ev s1 → otrun co_config s1 ev' s2 → otrun co_config s (ev ++ ev') s2.
Proof. induction 1; [done|]. intros H'. rewrite <- app_assoc. econstructor; eauto. Qed.
Lemma otrun_then s s1 ev s2 : otrun co_config s [] s1 → otrun co_config s1 ev s2 → otrun co_config s ev s2.
Proof. apply (otrun_trans s []). Qed.
Lemma run_open initialize plant d :
  is_Ok (journal_init coordinator 1 initialize d).1 = true →
  is_Ok (ot_init co_config 1 (mk_OtState (initial_local co_config trust_start 0 plant 0)
    (opened_state (journal_init coordinator 1 initialize d)) [])).1 = true →
  otrun co_config (ot_start d) [] (alone (opened initialize plant d []) Idle).
Proof.
  intros Hj Hi. apply opened_run in Hj. apply otrun_one.
  change (alone (opened initialize plant d []) Idle) with (after (ot_start d) 1 (opened initialize plant d []) Idle).
  eapply (otstep_open co_config (ot_start d) 1 initialize trust_start 0 plant 0); [apply lookup_empty|exact Hj|]. rewrite <- surjective_pairing. unfold opened. revert Hi.
  change (sy_calls (ot_start d)) with ([] : list SegmentedCapabilityDispatch).
  generalize (ot_init co_config 1 (mk_OtState (initial_local co_config trust_start 0 plant 0)
    (opened_state (journal_init coordinator 1 initialize d)) [])).
  by intros [[[]|e] t].
Qed.
Lemma run_prepare q t :
  otrun co_config (alone t Idle) [PrepareAnswered q (prepare_effect_call co_config 1 q t).1]
    (alone (prepare_effect_call co_config 1 q t).2 Idle).
Proof.
  apply run_alone. eapply otstep_prepare; [apply alone_member|done|].
  rewrite alone_call. apply surjective_pairing.
Qed.
Lemma run_query q t :
  otrun co_config (alone t Idle) [QueryAnswered q (query_effect co_config 1 q t).1]
    (alone (query_effect co_config 1 q t).2 Idle).
Proof.
  apply run_alone. eapply otstep_query; [apply alone_member|done|].
  rewrite alone_call. apply surjective_pairing.
Qed.
Lemma run_admit q t :
  constructed q →
  otrun co_config (alone t Idle) (answer_of q (commit_admit co_config 1 q t).1)
    (alone (commit_admit co_config 1 q t).2 (flight_of (commit_admit co_config 1 q t).1)).
Proof.
  intros Hq. apply run_alone. eapply otstep_admit; [apply alone_member|done|exact Hq|].
  rewrite alone_call. apply surjective_pairing.
Qed.
Lemma run_execute f t :
  otrun co_config (alone t (InProgress f)) [] (alone (commit_execute f t).2 (executed_flight f (commit_execute f t).1)).
Proof.
  apply run_alone. eapply otstep_execute; [apply alone_member|done|].
  rewrite alone_call. apply surjective_pairing.
Qed.
Lemma run_record f a t :
  otrun co_config (alone t (Executed f a)) [CommitAnswered (fl_request f) (commit_record co_config 1 f a t).1]
    (alone (commit_record co_config 1 f a t).2 Idle).
Proof.
  apply run_alone. eapply otstep_record; [apply alone_member|done|].
  rewrite alone_call. apply surjective_pairing.
Qed.

(** ** A commit that is applied, and the same request again *)
Lemma opened_empty plant : started plant = true → otrun co_config (ot_start empty_dir) [] (alone (opened true plant empty_dir []) Idle).
Proof. apply run_open. exact (ot_fact 0 _ eq_refl). Qed.
Lemma co_commit_constructed : constructed co_commit.
Proof. vm_compute. reflexivity. Qed.
Lemma flight_is r : is_flight r = true → flight_of r = InProgress (flight_or r) ∧ ∀ q, answer_of q r = [].
Proof. destruct r as [[o|f]|e]; [discriminate| |discriminate]. done. Qed.
Lemma executed_said (r : result (result PlcCommandAcknowledgment)) f d :
  is_Ok r = true → executed_flight f r = Executed f (or_else d r).
Proof. by destruct r. Qed.
Lemma applied_run : otrun co_config (ot_start empty_dir) applied_events applied_system.
Proof.
  apply (otrun_then _ (alone b0 Idle)); [exact (opened_empty 0 (ot_fact 1 _ eq_refl))|].
  apply (otrun_trans _ [PrepareAnswered co_prepare_request prepared.1] (alone prepared.2 Idle)); [apply run_prepare|].
  assert (F : is_flight admitted_call.1 = true) by exact (ot_fact 2 _ eq_refl). apply flight_is in F as [F A].
  apply (otrun_then _ (alone admitted_call.2 (InProgress in_flight))).
  { rewrite <- (A co_commit). unfold in_flight. rewrite <- F. apply run_admit, co_commit_constructed. }
  assert (E : is_Ok executed.1 = true) by exact (ot_fact 3 _ eq_refl).
  apply (executed_said _ in_flight (Ok co_acknowledgment)) in E.
  apply (otrun_then _ (alone executed.2 (Executed in_flight device_said))); [|apply run_record].
  unfold device_said. rewrite <- E. apply run_execute.
Qed.
Lemma repeated_run : otrun co_config (ot_start empty_dir) repeated_events repeated_system.
Proof. eapply otrun_trans; [exact applied_run|]. apply run_admit, co_commit_constructed. Qed.

Lemma device_asked_once_witness :
  asked repeated_system = [effect_id co_effect] ∧ is_Ok admitted_again.1 = true ∧ NoDup (asked repeated_system).
Proof.
  split; [exact (the_same _ _ (ot_fact 4 _ eq_refl))|]. split; [exact (ot_fact 5 _ eq_refl)|].
  exact (proj1 (device_asked_once co_config eq_refl empty_dir repeated_events repeated_system repeated_run)).
Defined.
Lemma dispatched_authentic_witness :
  ∃ q (p : Parties) t, commit_dispatch q = co_dispatch
    ∧ EnvelopeAuthentic root_config (cm_envelope q) (commit_verify q) EFFECT_COORDINATOR_AUDIENCE
        (expected_gateway_subject p) t
    ∧ DispatchAuthentic co_dispatch (ot_pins co_config) t.
Proof.
  assert (Hc : co_dispatch ∈ sy_calls applied_system).
  { assert (E : sy_calls applied_system = [co_dispatch]) by exact (the_same _ _ (ot_fact 6 _ eq_refl)). rewrite E. apply list_elem_of_here. }
  destruct (dispatched_authentic co_config eq_refl root_config empty_dir applied_events applied_system co_dispatch
    applied_run Hc) as (q & p & t & Hq & He & _ & Hd).
  exists q, p, t. split; [exact Hq|]. split; [exact He|exact Hd].
Defined.

(** ** A commit that arrives after its effect was answered as not dispatched *)
Lemma closed_run : otrun co_config (ot_start empty_dir) closed_events closed_system.
Proof.
  apply (otrun_then _ (alone u0 Idle)); [exact (opened_empty 100 (ot_fact 7 _ eq_refl))|].
  apply (otrun_trans _ [PrepareAnswered co_prepare_request prepared_too.1] (alone prepared_too.2 Idle)); [apply run_prepare|].
  apply (otrun_trans _ [QueryAnswered co_query queried.1] (alone queried.2 Idle)); [apply run_query|].
  apply run_admit, co_commit_constructed.
Qed.
Lemma not_dispatched_is r : not_dispatched_answer r = true → ∃ o, r = Ok o ∧ oc_disposition o = EFFECT_NOT_DISPATCHED.
Proof. destruct r as [o|e]; [|discriminate]. cbn. rewrite bool_decide_eq_true. by exists o. Qed.
Lemma not_dispatched_never_asked_witness :
  (∃ o, QueryAnswered co_query (Ok o) ∈ closed_events ∧ oc_disposition o = EFFECT_NOT_DISPATCHED)
  ∧ effect_id (rv_effect (qr_envelope co_query)) ∉ asked closed_system.
Proof.
  assert (A : not_dispatched_answer queried.1 = true) by exact (ot_fact 8 _ eq_refl).
  apply not_dispatched_is in A as (o & Hq & Ho).
  assert (Hin : QueryAnswered co_query (Ok o) ∈ closed_events).
  { unfold closed_events. rewrite Hq. apply elem_of_app. right. apply elem_of_app. left. apply list_elem_of_here. }
  split; [exists o; split; [exact Hin|exact Ho]|].
  exact (not_dispatched_never_asked co_config eq_refl empty_dir closed_events closed_system co_query o closed_run Hin Ho).
Defined.

(** ** The journal of the first run against the plant *)
Lemma aligned_is r : is_aligned r = true → ∃ a, r = Ok a ∧ rr_status a = ALIGNED.
Proof. destruct r as [a|e]; [|discriminate]. cbn. rewrite bool_decide_eq_true. by exists a. Qed.
Lemma aligned_is_chain_witness :
  jr_state <$> applied_records = [STATE_APPLIED] ∧ ∃ chain, Aligned applied_records applied_plant chain.
Proof.
  split; [exact (the_same _ _ (ot_fact 10 _ eq_refl))|].
  destruct (aligned_is _ (ot_fact 9 _ eq_refl)) as (r & Hr & Hs).
  exact (aligned_is_chain applied_records applied_plant r Hr Hs).
Defined.
