(* ===== verification/CapabilityIpc.v ===== *)
(** * Capability pipe frames and client ([src/src/aegis_ot/capability_ipc.py])

    Frames are canonical JSON of bounded size; the client sends one request at a
    time and believes only the answer to it.  The pipe is the class [Pipe]:
    [multiprocessing.connection] is the standard library's, and what the other
    process does is its environment. *)
From S2P Require Import Prelude PyFloat PyStr PyTime PyJson PyModel Sha256 Models.
From stdpp Require Import sorting.

Definition MAX_FRAME_BYTES : Z := 1048576.
Definition MAX_ERROR_REASON_CHARS : nat := 2048.

Inductive IpcResponseStatus := IPC_OK | IPC_REJECTED | IPC_ERROR.
#[export] Instance IpcResponseStatus_eq_dec : EqDecision IpcResponseStatus.
Proof. solve_decision. Defined.
Definition IpcResponseStatus_value (s : IpcResponseStatus) : string :=
  match s with IPC_OK => "ok" | IPC_REJECTED => "rejected" | IPC_ERROR => "error" end.
Definition IpcResponseStatus_of (s : string) : option IpcResponseStatus :=
  if bool_decide (s = "ok") then Some IPC_OK
  else if bool_decide (s = "rejected") then Some IPC_REJECTED
  else if bool_decide (s = "error") then Some IPC_ERROR else None.

Record IpcRequestFrame := mk_IpcRequestFrame {
  rq_request_id : string;
  rq_operation : string;
  rq_payload : list (string * json);
  rq_payload_digest : string;
}.
Record IpcResponseFrame := mk_IpcResponseFrame {
  rs_request_id : string;
  rs_operation : string;
  rs_request_payload_digest : string;
  rs_status : IpcResponseStatus;
  rs_payload : list (string * json);
  rs_payload_digest : string;
  rs_error_code : option string;
  rs_server_boot_epoch : string;
  rs_response_counter : Z;
}.

Definition IpcRequestFrame_validate (f : IpcRequestFrame) : result IpcRequestFrame :=
  _ ← require (min_length 1 (rq_request_id f) && max_length 128 (rq_request_id f)
               && min_length 1 (rq_operation f) && max_length 64 (rq_operation f)
               && is_sha256 (rq_payload_digest f)) "ValidationError" "field constraint";
  d ← canonical_digest (JObj (rq_payload f));
  _ ← require (bool_decide (rq_payload_digest f = d))
      "ValidationError" "IPC request payload digest is inconsistent";
  Ok f.

Definition IpcResponseFrame_validate (f : IpcResponseFrame) : result IpcResponseFrame :=
  _ ← require (min_length 1 (rs_request_id f) && max_length 128 (rs_request_id f)
               && min_length 1 (rs_operation f) && max_length 64 (rs_operation f)
               && is_sha256 (rs_request_payload_digest f) && is_sha256 (rs_payload_digest f)
               && match rs_error_code f with Some c => max_length 128 c | None => true end
               && min_length 16 (rs_server_boot_epoch f) && max_length 256 (rs_server_boot_epoch f)
               && (1 <=? rs_response_counter f)%Z) "ValidationError" "field constraint";
  d ← canonical_digest (JObj (rs_payload f));
  _ ← require (bool_decide (rs_payload_digest f = d))
      "ValidationError" "IPC response payload digest is inconsistent";
  _ ← require (negb (bool_decide (rs_status f = IPC_OK) && bool_decide (is_Some (rs_error_code f))))
      "ValidationError" "successful IPC response cannot contain an error code";
  _ ← require (negb (negb (bool_decide (rs_status f = IPC_OK))
                     && bool_decide (default "" (rs_error_code f) = "")))
      "ValidationError" "unsuccessful IPC response requires an error code";
  Ok f.

(** ** Frames as JSON

    [model_dump] of these field types is the object of the fields; [model_validate]
    reads it back.  A value the package would coerce to the field's type prints
    differently and is refused by [decode_frame] in either case; so are octets
    [json.loads] would read in another encoding than UTF-8. *)
Definition request_dump (f : IpcRequestFrame) : json :=
  JObj [("schema_version", JStr "capability-ipc-request-v1"); ("request_id", JStr (rq_request_id f));
        ("operation", JStr (rq_operation f)); ("payload", JObj (rq_payload f));
        ("payload_digest", JStr (rq_payload_digest f))].
Definition response_dump (f : IpcResponseFrame) : json :=
  JObj [("schema_version", JStr "capability-ipc-response-v1"); ("request_id", JStr (rs_request_id f));
        ("operation", JStr (rs_operation f)); ("request_payload_digest", JStr (rs_request_payload_digest f));
        ("status", JStr (IpcResponseStatus_value (rs_status f))); ("payload", JObj (rs_payload f));
        ("payload_digest", JStr (rs_payload_digest f)); ("error_code", opt_str (rs_error_code f));
        ("server_boot_epoch", JStr (rs_server_boot_epoch f));
        ("response_counter", JInt (rs_response_counter f))].

Definition request_of (kv : list (string * json)) : result IpcRequestFrame :=
  _ ← only_keys ["schema_version"; "request_id"; "operation"; "payload"; "payload_digest"] kv;
  _ ← literal_of kv "schema_version" "capability-ipc-request-v1";
  i ← str_of kv "request_id";
  o ← str_of kv "operation";
  p ← dict_of_field kv "payload";
  d ← str_of kv "payload_digest";
  IpcRequestFrame_validate (mk_IpcRequestFrame i o p d).

Definition response_of (kv : list (string * json)) : result IpcResponseFrame :=
  _ ← only_keys ["schema_version"; "request_id"; "operation"; "request_payload_digest"; "status"; "payload";
                 "payload_digest"; "error_code"; "server_boot_epoch"; "response_counter"] kv;
  _ ← literal_of kv "schema_version" "capability-ipc-response-v1";
  i ← str_of kv "request_id";
  o ← str_of kv "operation";
  q ← str_of kv "request_payload_digest";
  s ← str_of kv "status";
  st ← match IpcResponseStatus_of s with Some st => Ok st | None => invalid end;
  p ← dict_of_field kv "payload";
  d ← str_of kv "payload_digest";
  e ← match dict_get "error_code" kv with
      | None | Some JNull => Ok None | Some (JStr c) => Ok (Some c) | Some _ => invalid end;
  b ← str_of kv "server_boot_epoch";
  c ← match dict_get "response_counter" kv with Some (JInt n) => Ok n | _ => invalid end;
  IpcResponseFrame_validate (mk_IpcResponseFrame i o q st p d e b c).

#[export] Instance request_model : FrameModel IpcRequestFrame :=
  {| frame_dump := request_dump; frame_of := request_of |}.
#[export] Instance response_model : FrameModel IpcResponseFrame :=
  {| frame_dump := response_dump; frame_of := response_of |}.

Definition protocol_error {A} (msg : string) : result A := raise_ "IpcProtocolError" msg.

Definition encode_frame {F} `{FrameModel F} (f : F) : result string :=
  match dumps_strict (frame_dump f) with
  | Raise _ => protocol_error "IPC frame cannot be encoded as canonical JSON"
  | Ok payload =>
      if (MAX_FRAME_BYTES <? str_len payload)%Z
      then protocol_error "IPC frame exceeds the bounded payload size" else Ok payload
  end.

Definition decode_frame {F} `{FrameModel F} (payload : string) : result F :=
  if (MAX_FRAME_BYTES <? str_len payload)%Z
  then protocol_error "IPC frame exceeds the bounded payload size" else
  parsed ← match utf8_decode payload with
           | None => protocol_error "IPC frame is not canonical JSON data"
           | Some text =>
               match loads dict_of_pairs text with
               | Raise e => if recursion_or_value e
                            then protocol_error "IPC frame is not canonical JSON data" else Raise e
               | Ok v => Ok v
               end
           end;
  kv ← match parsed with JObj kv => Ok kv | _ => protocol_error "IPC frame root must be an object" end;
  f ← match frame_of kv with
      | Raise e => if recursion_or_value e
                   then protocol_error "IPC frame failed structural validation" else Raise e
      | Ok f => Ok f
      end;
  again ← encode_frame f;
  if bool_decide (again = payload) then Ok f
  else protocol_error "IPC frame is not in canonical JSON form".

Definition bounded_error_reason (e : exn) : string := str_take MAX_ERROR_REASON_CHARS (exn_str e).

(** ** Creation *)
Section create.
Context {E : Env}.
Definition IpcRequestFrame_create (operation : string) (payload : list (string * json)) :
    M World IpcRequestFrame :=
  d ← lift (canonical_digest (JObj payload));
  i ← uuid4;
  lift (IpcRequestFrame_validate (mk_IpcRequestFrame i operation payload d)).
End create.

Definition IpcResponseFrame_create (request : IpcRequestFrame) (status : IpcResponseStatus)
    (payload : list (string * json)) (error_code : option string) (server_boot_epoch : string)
    (response_counter : Z) : result IpcResponseFrame :=
  d ← canonical_digest (JObj payload);
  IpcResponseFrame_validate
    (mk_IpcResponseFrame (rq_request_id request) (rq_operation request) (rq_payload_digest request)
       status payload d error_code server_boot_epoch response_counter).

(** ** The client *)
Class Pipe (C : Type) := {
  pipe_send : string → M C unit;
  pipe_poll : M C bool;
  pipe_recv : M C string;
  pipe_close : C → C;
}.

Record JsonPipeClient := mk_JsonPipeClient {
  expected_boot_epoch : string;
  last_response_counter : Z;
  client_closed : bool;
  request_counts : list (string * Z);
}.
Definition new_client (epoch : string) : JsonPipeClient := mk_JsonPipeClient epoch 0 false [].
Definition JsonPipeClient_init (epoch : string) (timeout_seconds : float) : result JsonPipeClient :=
  if fleb timeout_seconds (f_of_Z 0) then raise_ "ValueError" "IPC timeout must be positive"
  else Ok (new_client epoch).

Section client.
Context {E : Env} {C : Type} {HC : Pipe C}.
Abbreviation ClientState := (JsonPipeClient * C * World)%type.

Definition on_client_world {A} (m : M World A) : M ClientState A :=
  zoom (λ s, s.2) (λ w s, (s.1, w)) m.
Definition on_pipe {A} (m : M C A) : M ClientState A :=
  zoom (λ s, s.1.2) (λ c s, (s.1.1, c, s.2)) m.
Definition modify_client (f : JsonPipeClient → JsonPipeClient) : M ClientState unit :=
  modify (λ s, (f s.1.1, s.1.2, s.2)).
Definition count_request (operation : string) (c : JsonPipeClient) : JsonPipeClient :=
  mk_JsonPipeClient (expected_boot_epoch c) (last_response_counter c) (client_closed c)
    (dict_set operation (default 0 (dict_get operation (request_counts c)) + 1)%Z (request_counts c)).
Definition mark_closed (c : JsonPipeClient) : JsonPipeClient :=
  mk_JsonPipeClient (expected_boot_epoch c) (last_response_counter c) true (request_counts c).
Definition set_counter (n : Z) (c : JsonPipeClient) : JsonPipeClient :=
  mk_JsonPipeClient (expected_boot_epoch c) n (client_closed c) (request_counts c).

(** [self._connection.close(); self._closed = True] *)
Definition close_client : M ClientState unit :=
  modify (λ s, (mark_closed s.1.1, pipe_close s.1.2, s.2)).

(** Close, then the error of the call's kind. *)
Definition fail_with {A} (consequential : bool) (unknown : string) (e : exn) : M ClientState A :=
  _ ← close_client;
  if consequential then throw "IpcOutcomeUnknownError" unknown else lift (Raise e).

Definition pipe_failure (e : exn) : bool :=
  isinstance_exn e "EOFError" || isinstance_exn e "OSError".

(** Send, count, poll, receive. *)
Definition exchange (consequential : bool) (operation raw : string) : M ClientState string :=
  try_except
    (_ ← on_pipe (pipe_send raw);
     _ ← modify_client (count_request operation);
     answered ← on_pipe pipe_poll;
     if negb answered
     then fail_with consequential "consequential IPC response timed out"
            (mk_exn "IpcTransportError" "IPC response timed out")
     else on_pipe pipe_recv)
    (λ e, if isinstance_exn e "IpcOutcomeUnknownError" then None
          else if pipe_failure e
          then Some (fail_with consequential "consequential IPC response became unavailable"
                       (mk_exn "IpcTransportError" "IPC peer became unavailable"))
          else None).

(** The checks on a decoded response, each with its two messages. *)
Definition response_checks (c : JsonPipeClient) (frame : IpcRequestFrame) (r : IpcResponseFrame) :
    list (bool * (string * string)) :=
  [(bool_decide (rs_request_id r = rq_request_id frame) && bool_decide (rs_operation r = rq_operation frame)
    && bool_decide (rs_request_payload_digest r = rq_payload_digest frame),
    ("consequential IPC response did not match the request", "IPC response does not match the request"));
   (bool_decide (rs_server_boot_epoch r = expected_boot_epoch c),
    ("consequential IPC response came from an unexpected boot epoch",
     "IPC response came from an unexpected boot epoch"));
   ((last_response_counter c <? rs_response_counter r)%Z,
    ("consequential IPC response counter did not advance", "IPC response counter did not advance"))].

Fixpoint first_refusal (checks : list (bool * (string * string))) : option (string * string) :=
  match checks with
  | [] => None
  | (passed, messages) :: rest => if (passed : bool) then first_refusal rest else Some messages
  end.

Definition accept_response (consequential : bool) (frame : IpcRequestFrame) (raw : string) :
    M ClientState IpcResponseFrame := λ s,
  match decode_frame (F := IpcResponseFrame) raw with
  | Raise e =>
      if isinstance_exn e "IpcProtocolError"
      then fail_with consequential "consequential IPC response failed protocol validation" e s
      else (Raise e, s)
  | Ok r =>
      match first_refusal (response_checks s.1.1 frame r) with
      | Some (unknown, msg) => fail_with consequential unknown (mk_exn "IpcProtocolError" msg) s
      | None => (Ok r, (set_counter (rs_response_counter r) s.1.1, s.1.2, s.2))
      end
  end.

Definition client_request (operation : string) (payload : list (string * json)) (consequential : bool) :
    M ClientState IpcResponseFrame :=
  frame ← on_client_world (IpcRequestFrame_create operation payload);
  raw ← lift (encode_frame frame);
  s ← get;
  if client_closed s.1.1 then throw "IpcTransportError" "IPC client is closed"
  else
    response_raw ← exchange consequential operation raw;
    accept_response consequential frame response_raw.

Definition client_close : M ClientState unit := λ s,
  if client_closed s.1.1 then (Ok tt, s) else close_client s.
End client.

(** ** The server's ends *)
Section server.
Context {C : Type} {HC : Pipe C}.
Definition receive_request : M C IpcRequestFrame :=
  try_except (raw ← pipe_recv; lift (decode_frame raw))
    (λ e, if pipe_failure e
          then Some (throw "IpcTransportError" "IPC request endpoint closed") else None).
Definition send_response (r : IpcResponseFrame) : M C unit :=
  try_except (raw ← lift (encode_frame r); pipe_send raw)
    (λ e, if isinstance_exn e "OSError"
          then Some (throw "IpcTransportError" "IPC response endpoint closed") else None).
End server.

(** ** Frames read back *)
Lemma encode_frame_Ok {F} `{FrameModel F} (f : F) raw :
  encode_frame f = Ok raw ↔ dumps_strict (frame_dump f) = Ok raw ∧ (str_len raw <= MAX_FRAME_BYTES)%Z.
Proof.
  unfold encode_frame. destruct (dumps_strict (frame_dump f)) as [p|e]; [|naive_solver].
  destruct (MAX_FRAME_BYTES <? str_len p)%Z eqn:Hlen.
  - apply Z.ltb_lt in Hlen. split; [done|]. intros [[= ->] ?]. lia.
  - apply Z.ltb_ge in Hlen. split; [by intros [= ->]|by intros [[= ->] _]].
Qed.

Lemma encode_norm {F} `{FrameLaws F} (f : F) :
  frame_valid f → encode_frame (norm f) = encode_frame f.
Proof. intros Hf. unfold encode_frame. by rewrite frame_norm_octets. Qed.

Lemma decode_encode_frame {F} `{FrameLaws F} (f : F) raw :
  frame_valid f → encode_frame f = Ok raw → decode_frame raw = Ok (norm f).
Proof.
  intros Hf Henc. pose proof Henc as [Hd Hlen]%encode_frame_Ok.
  destruct (frame_reads f raw Hf Hd) as (kv & Hu & Hl & Hkv). unfold decode_frame.
  replace (MAX_FRAME_BYTES <? str_len _)%Z with false by (symmetry; by apply Z.ltb_ge).
  rewrite Hu, Hl. cbn [mbind result_bind].
  rewrite Hkv. cbn [mbind result_bind]. rewrite encode_norm, Henc by done. cbn [mbind result_bind].
  by rewrite bool_decide_eq_true_2.
Qed.

(** A decoded frame is what its octets encode. *)
Lemma decode_frame_Ok {F} `{FrameModel F} raw (f : F) :
  decode_frame raw = Ok f →
  encode_frame f = Ok raw ∧ (str_len raw <= MAX_FRAME_BYTES)%Z ∧ ∃ kv, frame_of kv = Ok f.
Proof.
  unfold decode_frame. destruct (MAX_FRAME_BYTES <? str_len raw)%Z eqn:Hlen; [done|].
  apply Z.ltb_ge in Hlen. intros Hd.
  apply result_bind_Ok in Hd as (parsed & _ & Hd). apply result_bind_Ok in Hd as (kv & _ & Hd).
  apply result_bind_Ok in Hd as (f' & Hf & Hd). apply result_bind_Ok in Hd as (again & Ha & Hd).
  case_bool_decide as E; [|done]. injection Hd as ->. subst again. split_and!; [done|done|].
  exists kv. by destruct (frame_of kv) as [x|e]; [injection Hf as ->|destruct (recursion_or_value e)].
Qed.

(** ** The two frames are such codecs *)
Definition norm_request (f : IpcRequestFrame) : IpcRequestFrame :=
  mk_IpcRequestFrame (rq_request_id f) (rq_operation f) (canonical_payload (rq_payload f)) (rq_payload_digest f).
Definition norm_response (f : IpcResponseFrame) : IpcResponseFrame :=
  mk_IpcResponseFrame (rs_request_id f) (rs_operation f) (rs_request_payload_digest f) (rs_status f)
    (canonical_payload (rs_payload f)) (rs_payload_digest f) (rs_error_code f) (rs_server_boot_epoch f)
    (rs_response_counter f).
Definition request_valid (f : IpcRequestFrame) : Prop :=
  IpcRequestFrame_validate f = Ok f ∧ json_ok (JObj (rq_payload f)) = true.
Definition response_valid (f : IpcResponseFrame) : Prop :=
  IpcResponseFrame_validate f = Ok f ∧ json_ok (JObj (rs_payload f)) = true.

Lemma validate_norm_request f : request_valid f → IpcRequestFrame_validate (norm_request f) = Ok (norm_request f).
Proof.
  intros [Hv Hp]. unfold IpcRequestFrame_validate in *. simpl.
  apply require_bind in Hv as [-> Hv]. cbn [require mbind result_bind].
  rewrite canonical_payload_digest by done. destruct (canonical_digest _) as [d|]; [|done].
  cbn [mbind result_bind] in *. by apply require_bind in Hv as [-> _].
Qed.
Lemma validate_norm_response f : response_valid f → IpcResponseFrame_validate (norm_response f) = Ok (norm_response f).
Proof.
  intros [Hv Hp]. unfold IpcResponseFrame_validate in *. simpl.
  apply require_bind in Hv as [-> Hv]. cbn [require mbind result_bind].
  rewrite canonical_payload_digest by done. destruct (canonical_digest _) as [d|]; [|done].
  cbn [mbind result_bind] in *. apply require_bind in Hv as [-> Hv]. apply require_bind in Hv as [-> Hv].
  by apply require_bind in Hv as [-> _].
Qed.

Lemma IpcResponseStatus_of_value s : IpcResponseStatus_of (IpcResponseStatus_value s) = Some s.
Proof. by destruct s. Qed.

#[export] Program Instance request_laws : FrameLaws IpcRequestFrame := {|
  frame_valid := request_valid;
  norm := norm_request;
|}.
Next Obligation.
  intros f [_ Hp]. simpl. unfold request_dump. cbn [json_ok] in *. cbn [forallb]. by rewrite Hp.
Qed.
Next Obligation.
  intros f [_ Hp]. unfold frame_dump, request_model, request_dump, norm_request. rewrite !(canon_payload (_ :: _)).
  f_equal. unfold canonical_payload at 1 3. cbn [map]. cbn -[canon canonical_payload merge_sort].
  by rewrite !canon_payload, (canonical_payload_idem _ Hp).
Qed.
Next Obligation.
  intros f Hf. exists (canonical_payload
    [("schema_version", JStr "capability-ipc-request-v1"); ("request_id", JStr (rq_request_id f));
     ("operation", JStr (rq_operation f)); ("payload", JObj (rq_payload f));
     ("payload_digest", JStr (rq_payload_digest f))]).
  split; [reflexivity|]. simpl. unfold request_of.
  rewrite only_keys_canon by reflexivity. unfold literal_of, str_of, dict_of_field.
  rewrite !canonical_get by (by apply (bool_decide_unpack _)).
  change (canon <$> dict_get "schema_version" _) with (Some (JStr "capability-ipc-request-v1")).
  change (canon <$> dict_get "request_id" _) with (Some (JStr (rq_request_id f))).
  change (canon <$> dict_get "operation" _) with (Some (JStr (rq_operation f))).
  change (canon <$> dict_get "payload" _) with (Some (JObj (canonical_payload (rq_payload f)))).
  change (canon <$> dict_get "payload_digest" _) with (Some (JStr (rq_payload_digest f))).
  cbn [mbind result_bind]. rewrite bool_decide_eq_true_2 by done. cbn [mbind result_bind].
  by apply validate_norm_request.
Qed.
Next Obligation.
  intros f Hf. split; [by apply validate_norm_request|apply canonical_payload_ok, Hf].
Qed.

#[export] Program Instance response_laws : FrameLaws IpcResponseFrame := {|
  frame_valid := response_valid;
  norm := norm_response;
|}.
Next Obligation.
  intros f [_ Hp]. simpl. unfold response_dump. cbn [json_ok] in *. cbn [forallb]. rewrite Hp.
  by destruct (rs_error_code f).
Qed.
Next Obligation.
  intros f [_ Hp]. unfold frame_dump, response_model, response_dump, norm_response. rewrite !(canon_payload (_ :: _)).
  f_equal. unfold canonical_payload at 1 3. cbn [map]. cbn -[canon canonical_payload merge_sort].
  by rewrite !canon_payload, (canonical_payload_idem _ Hp).
Qed.
Next Obligation.
  intros f Hf. exists (canonical_payload
    [("schema_version", JStr "capability-ipc-response-v1"); ("request_id", JStr (rs_request_id f));
     ("operation", JStr (rs_operation f)); ("request_payload_digest", JStr (rs_request_payload_digest f));
     ("status", JStr (IpcResponseStatus_value (rs_status f))); ("payload", JObj (rs_payload f));
     ("payload_digest", JStr (rs_payload_digest f)); ("error_code", opt_str (rs_error_code f));
     ("server_boot_epoch", JStr (rs_server_boot_epoch f)); ("response_counter", JInt (rs_response_counter f))]).
  split; [reflexivity|]. simpl. unfold response_of.
  rewrite only_keys_canon by reflexivity. unfold literal_of, str_of, dict_of_field.
  rewrite !canonical_get by (by apply (bool_decide_unpack _)).
  change (canon <$> dict_get "schema_version" _) with (Some (JStr "capability-ipc-response-v1")).
  change (canon <$> dict_get "request_id" _) with (Some (JStr (rs_request_id f))).
  change (canon <$> dict_get "operation" _) with (Some (JStr (rs_operation f))).
  change (canon <$> dict_get "request_payload_digest" _) with (Some (JStr (rs_request_payload_digest f))).
  change (canon <$> dict_get "status" _) with (Some (JStr (IpcResponseStatus_value (rs_status f)))).
  change (canon <$> dict_get "payload" _) with (Some (JObj (canonical_payload (rs_payload f)))).
  change (canon <$> dict_get "payload_digest" _) with (Some (JStr (rs_payload_digest f))).
  change (canon <$> dict_get "error_code" _) with (Some (canon (opt_str (rs_error_code f)))).
  change (canon <$> dict_get "server_boot_epoch" _) with (Some (JStr (rs_server_boot_epoch f))).
  change (canon <$> dict_get "response_counter" _) with (Some (JInt (rs_response_counter f))).
  cbn [mbind result_bind]. rewrite bool_decide_eq_true_2 by done. cbn [mbind result_bind].
  rewrite IpcResponseStatus_of_value. cbn [mbind result_bind].
  pose proof (validate_norm_response f Hf) as Hv. unfold norm_response in Hv |- *.
  destruct (rs_error_code f); cbn [opt_str canon mbind result_bind]; exact Hv.
Qed.
Next Obligation.
  intros f Hf. split; [by apply validate_norm_response|apply canonical_payload_ok, Hf].
Qed.

(** C34 Requests and responses read back: what a valid frame encodes to is ASCII,
    within the size bound and decodes to the same frame with its payload keys in
    order; and whatever octets decode are the one encoding of the frame they
    decode to, so no two byte strings are read as the same frame. *)
Theorem frame_round_trip {F} `{FrameLaws F} (f : F) raw :
  (frame_valid f → encode_frame f = Ok raw →
     str_forallb is_ascii raw = true ∧ (str_len raw <= MAX_FRAME_BYTES)%Z ∧ decode_frame raw = Ok (norm f))
  ∧ (decode_frame raw = Ok f → encode_frame f = Ok raw ∧ (str_len raw <= MAX_FRAME_BYTES)%Z).
Proof.
  split.
  - intros Hf Henc. pose proof Henc as [Hd Hlen]%encode_frame_Ok. apply dumps_strict_Ok in Hd as [_ ->].
    split_and!; [by apply print_ascii, json_ok_canon, dump_ok|done|by apply decode_encode_frame].
  - intros (? & ? & _)%decode_frame_Ok. done.
Qed.

(** ** What the client believes *)
Lemma first_refusal_None checks : first_refusal checks = None ↔ Forall (λ c, c.1 = true) checks.
Proof.
  induction checks as [|[[] m] checks IH]; simpl; [by split|rewrite IH, Forall_cons; naive_solver|].
  rewrite Forall_cons. naive_solver.
Qed.

Section client_facts.
Context {E : Env} {C : Type} {HC : Pipe C}.
Abbreviation ClientState := (JsonPipeClient * C * World)%type.

(** What holds of a response the client returns to the caller. *)
Record answers (c : JsonPipeClient) (frame : IpcRequestFrame) (r : IpcResponseFrame) : Prop := {
  an_request : rs_request_id r = rq_request_id frame ∧ rs_operation r = rq_operation frame
    ∧ rs_request_payload_digest r = rq_payload_digest frame;
  an_epoch : rs_server_boot_epoch r = expected_boot_epoch c;
  an_counter : (last_response_counter c < rs_response_counter r)%Z;
  an_valid : IpcResponseFrame_validate r = Ok r;
}.

Lemma response_of_valid kv r : response_of kv = Ok r → IpcResponseFrame_validate r = Ok r.
Proof using Type.
  unfold response_of. intros H.
  do 12 (apply result_bind_Ok in H as (? & _ & H)). pose proof H as H'.
  unfold IpcResponseFrame_validate in H. inv_ok. exact H'.
Qed.

Lemma fail_with_not_Ok {A} consequential unknown e (s : ClientState) (a : A) s' :
  fail_with consequential unknown e s ≠ (Ok a, s').
Proof using Type. unfold fail_with. by destruct consequential. Qed.

Lemma accept_response_Ok consequential frame raw (s : ClientState) r s' :
  accept_response consequential frame raw s = (Ok r, s') →
  answers s.1.1 frame r ∧ decode_frame raw = Ok r
  ∧ s' = (set_counter (rs_response_counter r) s.1.1, s.1.2, s.2).
Proof using Type.
  unfold accept_response. destruct (decode_frame raw) as [r0|e] eqn:Hd; cycle 1.
  { destruct (isinstance_exn e _); [|done]. intros H. by apply fail_with_not_Ok in H. }
  destruct (first_refusal _) as [[u m]|] eqn:Hc; [intros H; by apply fail_with_not_Ok in H|].
  intros [= <- <-]. apply first_refusal_None in Hc. unfold response_checks in Hc.
  rewrite !Forall_cons in Hc. destruct Hc as (H1 & H2 & H3 & _). cbn [fst] in *. bool_split.
  split; [|done]. apply decode_frame_Ok in Hd as (_ & _ & kv & Hkv).
  split; [done|done|done|]. by apply (response_of_valid kv).
Qed.

(** The pipe raises nothing but what [multiprocessing.connection] documents. *)
Class PipeLaws : Prop := {
  send_raises : ∀ raw c e, (pipe_send raw c).1 = Raise e → pipe_failure e = true;
  poll_raises : ∀ c e, (pipe_poll c).1 = Raise e → pipe_failure e = true;
  recv_raises : ∀ c e, (pipe_recv c).1 = Raise e → pipe_failure e = true;
}.

(** How an exchange or an answer fails: the client is closed for good and the
    error is the one of the call's kind. *)
Definition failed_closed (consequential : bool) (s s' : ClientState) (e : exn) : Prop :=
  client_closed s'.1.1 = true ∧ last_response_counter s'.1.1 = last_response_counter s.1.1
  ∧ expected_boot_epoch s'.1.1 = expected_boot_epoch s.1.1
  ∧ (consequential = true → exn_type e = "IpcOutcomeUnknownError")
  ∧ (consequential = false → exn_type e = "IpcTransportError" ∨ exn_type e = "IpcProtocolError").

Lemma fail_with_run {A} consequential unknown e0 (s : ClientState) (r : result A) s' :
  fail_with consequential unknown e0 s = (r, s') →
  exn_type e0 = "IpcTransportError" ∨ exn_type e0 = "IpcProtocolError" →
  ∃ e, r = Raise e ∧ failed_closed consequential s s' e.
Proof using Type.
  unfold fail_with, mbind, M_bind, close_client, modify, throw, lift. intros H Hty.
  destruct consequential; injection H as <- <-; eexists; (split; [done|]); by split_and!.
Qed.

Lemma pipe_failure_not_unknown e :
  pipe_failure e = true → isinstance_exn e "IpcOutcomeUnknownError" = false.
Proof using Type.
  destruct e as [cls msg]. unfold pipe_failure, isinstance_exn. simpl. intros H.
  apply orb_false_iff. split; apply bool_decide_eq_false.
  - intros ->. vm_compute in H. discriminate H.
  - unfold exn_bases. repeat case_match; set_solver.
Qed.

Lemma exchange_run {PL : PipeLaws} consequential operation raw (s : ClientState) r s' :
  exchange consequential operation raw s = (r, s') →
  match r with
  | Ok _ => s'.1.1 = count_request operation s.1.1
  | Raise e => failed_closed consequential s s' e
  end.
Proof using Type.
  unfold exchange, try_except. intros H.
  destruct ((_ ← on_pipe (pipe_send raw); _) s) as [[a|e] s1] eqn:Hbody.
  - injection H as <- <-. apply M_bind_Ok in Hbody as ([] & t1 & H1 & Hbody).
    apply zoom_run in H1 as (c1 & _ & ->). apply M_bind_Ok in Hbody as ([] & t2 & [= <-] & Hbody).
    apply M_bind_Ok in Hbody as (answered & t3 & H3 & Hbody). apply zoom_run in H3 as (c3 & _ & ->).
    destruct answered; simpl in Hbody.
    + apply zoom_run in Hbody as (c4 & _ & ->). done.
    + by apply fail_with_not_Ok in Hbody.
  - assert (Hbase : (pipe_failure e = true ∧ last_response_counter s1.1.1 = last_response_counter s.1.1
        ∧ expected_boot_epoch s1.1.1 = expected_boot_epoch s.1.1)
      ∨ pipe_failure e = false ∧ failed_closed consequential s s1 e).
    { apply M_bind_case in Hbody as [(e' & [= <-] & Hbody)|([] & t1 & H1 & Hbody)].
      { left. apply zoom_run in Hbody as (c & Hc & ->). split; [|done].
        apply (send_raises raw s.1.2). by rewrite Hc. }
      apply zoom_run in H1 as (c1 & _ & ->).
      apply M_bind_case in Hbody as [(e' & [= <-] & Hbody)|([] & t2 & [= <-] & Hbody)]; [done|].
      apply M_bind_case in Hbody as [(e' & [= <-] & Hbody)|(answered & t3 & H3 & Hbody)].
      { left. apply zoom_run in Hbody as (c & Hc & ->). split; [|done].
        eapply poll_raises. by rewrite Hc. }
      apply zoom_run in H3 as (c3 & _ & ->). destruct answered; simpl in Hbody.
      - left. apply zoom_run in Hbody as (c & Hc & ->). split; [|done].
        eapply recv_raises. by rewrite Hc.
      - right. pose proof Hbody as Hb.
        apply fail_with_run in Hb as (e' & [= <-] & Hf); [|by left]. split; [|exact Hf].
        unfold fail_with, mbind, M_bind, close_client, modify, throw, lift in Hbody.
        by destruct consequential; injection Hbody as <- _. }
    destruct Hbase as [(Hpf & Hc & He)|[Hpf Hf]].
    + rewrite (pipe_failure_not_unknown e Hpf), Hpf in H.
      apply fail_with_run in H as (e' & -> & (H1 & H2 & H3 & H4 & H5)); [|by left].
      split_and!; [exact H1|congruence|congruence|exact H4|exact H5].
    + rewrite Hpf in H. destruct (isinstance_exn e _); by injection H as <- <-.
Qed.

(** [decode_frame] refuses a response only with a protocol error. *)
Ltac raises_validation :=
  repeat match goal with
  | X : Raise _ = Raise _ |- _ => injection X as <-
  | X : raise_ _ _ = Raise _ |- _ => injection X as <-
  | X : invalid = Raise _ |- _ => injection X as <-
  | X : Ok _ = Raise _ |- _ => discriminate X
  | X : require ?c _ _ = Raise _ |- _ => unfold require in X; destruct c
  | X : _ ≫= _ = Raise _ |- _ => apply result_bind_Raise in X as [X|(? & ? & X)]
  | X : (if ?c then _ else _) = Raise _ |- _ => destruct c
  | X : match ?x with _ => _ end = Raise _ |- _ => destruct x
  end; try reflexivity.

Lemma canonical_digest_raises j e : canonical_digest j = Raise e → exn_type e = "ValueError".
Proof using Type. unfold canonical_digest, dumps_strict. intros X. raises_validation. Qed.

Lemma validate_response_raises f e :
  IpcResponseFrame_validate f = Raise e → recursion_or_value e = true.
Proof using Type.
  unfold IpcResponseFrame_validate. intros X. raises_validation.
  apply canonical_digest_raises in X. destruct e as [cls msg]. simpl in X. by subst.
Qed.
Lemma response_of_raises kv e : response_of kv = Raise e → recursion_or_value e = true.
Proof using Type.
  unfold response_of. intros X.
  apply result_bind_Raise in X as [X|(? & _ & X)]; [unfold only_keys in X; raises_validation|].
  apply result_bind_Raise in X as [X|(? & _ & X)]; [unfold literal_of in X; raises_validation|].
  do 4 (apply result_bind_Raise in X as [X|(? & _ & X)]; [unfold str_of in X; raises_validation|]).
  apply result_bind_Raise in X as [X|(? & _ & X)]; [raises_validation|].
  apply result_bind_Raise in X as [X|(? & _ & X)]; [unfold dict_of_field in X; raises_validation|].
  apply result_bind_Raise in X as [X|(? & _ & X)]; [unfold str_of in X; raises_validation|].
  apply result_bind_Raise in X as [X|(? & _ & X)]; [raises_validation|].
  apply result_bind_Raise in X as [X|(? & _ & X)]; [unfold str_of in X; raises_validation|].
  apply result_bind_Raise in X as [X|(? & _ & X)]; [raises_validation|].
  by apply validate_response_raises in X.
Qed.

Lemma decode_frame_refuses raw e :
  decode_frame (F := IpcResponseFrame) raw = Raise e → exn_type e = "IpcProtocolError".
Proof using Type.
  unfold decode_frame. destruct (_ <? _)%Z; [by intros [= <-]|]. intros X.
  apply result_bind_Raise in X as [X|(parsed & _ & X)].
  { destruct (utf8_decode raw) as [text|]; [|by injection X as <-].
    destruct (loads dict_of_pairs text) as [v|e0] eqn:Hl; [done|].
    assert (Hv : recursion_or_value e0 = true).
    { by apply (loads_raises dict_of_pairs (λ e, recursion_or_value e = true)) in Hl. }
    rewrite Hv in X. by injection X as <-. }
  apply result_bind_Raise in X as [X|(kv & _ & X)]; [by destruct parsed; first [discriminate X|injection X as <-]|].
  apply result_bind_Raise in X as [X|(f & _ & X)].
  { destruct (frame_of kv) as [f|e0] eqn:Hf; [done|].
    rewrite (response_of_raises _ _ Hf) in X. by injection X as <-. }
  apply result_bind_Raise in X as [X|(again & _ & X)].
  { unfold encode_frame in X. destruct (dumps_strict _); [|by injection X as <-].
    destruct (_ <? _)%Z; [by injection X as <-|done]. }
  case_bool_decide; [done|]. by injection X as <-.
Qed.

Lemma accept_response_run consequential frame raw (s : ClientState) r s' :
  accept_response consequential frame raw s = (r, s') →
  match r with
  | Ok r => answers s.1.1 frame r ∧ decode_frame raw = Ok r
            ∧ s' = (set_counter (rs_response_counter r) s.1.1, s.1.2, s.2)
  | Raise e => failed_closed consequential s s' e
  end.
Proof using Type.
  destruct r as [r|e]; [apply accept_response_Ok|]. unfold accept_response.
  destruct (decode_frame raw) as [r0|e0] eqn:Hd.
  - destruct (first_refusal _) as [[u m]|]; [|done]. intros X.
    apply fail_with_run in X as (e' & [= <-] & X); [done|by right].
  - apply decode_frame_refuses in Hd. unfold isinstance_exn. rewrite bool_decide_eq_true_2 by done. simpl.
    intros X. apply fail_with_run in X as (e' & [= <-] & X); [done|by right].
Qed.

(** ** One request *)
Lemma create_Ok operation payload w f w' :
  IpcRequestFrame_create operation payload w = (Ok f, w') →
  rq_operation f = operation ∧ rq_payload f = payload ∧ rq_request_id f = uuid_at (w_uuid w)
  ∧ IpcRequestFrame_validate f = Ok f.
Proof using Type.
  unfold IpcRequestFrame_create. intros X. apply M_bind_Ok in X as (d & w1 & [Hd ->]%lift_Ok & X).
  apply M_bind_Ok in X as (i & w2 & [= <- <-] & [Hv ->]%lift_Ok).
  pose proof Hv as Hv'. unfold IpcRequestFrame_validate in Hv. inv_ok. by split_and!.
Qed.

(** A response the client returns is the answer to the request it sent: it
    names the request's identifier, operation and payload digest, comes from the
    expected boot epoch, has a later counter than every response before it, and
    passes the frame's own checks; the client was and stays open. *)
Theorem response_answers_request operation payload consequential (s : ClientState) r s' :
  client_request operation payload consequential s = (Ok r, s') →
  ∃ frame, rq_operation frame = operation ∧ rq_payload frame = payload
    ∧ rq_request_id frame = uuid_at (w_uuid s.2) ∧ answers s.1.1 frame r
    ∧ client_closed s.1.1 = false ∧ client_closed s'.1.1 = false
    ∧ last_response_counter s'.1.1 = rs_response_counter r
    ∧ expected_boot_epoch s'.1.1 = expected_boot_epoch s.1.1.
Proof using Type.
  unfold client_request. intros X. apply M_bind_Ok in X as (frame & s1 & Hf & X).
  apply zoom_run in Hf as (w & Hf & ->). apply create_Ok in Hf as (Hop & Hpay & Hid & _).
  apply M_bind_Ok in X as (raw & s2 & [_ ->]%lift_Ok & X). apply M_bind_Ok in X as (s0 & s3 & [= <- <-] & X).
  cbn [fst snd] in X. destruct (client_closed s.1.1) eqn:Hc; [done|].
  apply M_bind_Ok in X as (back & s4 & Hx & X). apply accept_response_Ok in X as (Ha & _ & ->).
  exists frame. unfold exchange, try_except in Hx.
  destruct ((_ ← on_pipe (pipe_send raw); _) _) as [[b|e] s5] eqn:Hbody; cycle 1.
  { destruct (isinstance_exn e _); [done|]. destruct (pipe_failure e); [|done].
    by apply fail_with_not_Ok in Hx. }
  injection Hx as -> ->. apply M_bind_Ok in Hbody as ([] & t1 & H1 & Hbody).
  apply zoom_run in H1 as (c1 & _ & ->). apply M_bind_Ok in Hbody as ([] & t2 & [= <-] & Hbody).
  apply M_bind_Ok in Hbody as (answered & t3 & H3 & Hbody). apply zoom_run in H3 as (c3 & _ & ->).
  destruct answered; simpl in Hbody; [|by apply fail_with_not_Ok in Hbody].
  apply zoom_run in Hbody as (c4 & _ & ->). destruct Ha as [? ? ? ?]. by split_and!.
Qed.

(** With a pipe that raises only what the pipe documents, an open client never
    guesses: when a request fails after it could have been sent, the client is
    closed for good, a consequential request reports exactly that its outcome is
    unknown and any other reports a transport or protocol error; and a closed
    client refuses every request without touching the pipe. *)
Theorem failed_request_closes {PL : PipeLaws} operation payload consequential (s : ClientState) e s' :
  client_request operation payload consequential s = (Raise e, s') →
  (client_closed s.1.1 = true → s'.1 = s.1)
  ∧ (client_closed s.1.1 = false → s'.1 = s.1 ∨ failed_closed consequential s s' e).
Proof using Type.
  unfold client_request. intros X.
  apply M_bind_case in X as [(e0 & [= <-] & X)|(frame & s1 & Hf & X)].
  { apply zoom_run in X as (w & _ & ->). split; [done|by left]. }
  apply zoom_run in Hf as (w & _ & ->).
  apply M_bind_case in X as [(e0 & [= <-] & X)|(raw & s2 & [_ ->]%lift_Ok & X)].
  { injection X as _ <-. split; [done|by left]. }
  apply M_bind_case in X as [(e0 & [= <-] & X)|(s0 & s3 & [= <- <-] & X)]; [done|]. cbn [fst snd] in X.
  destruct (client_closed s.1.1) eqn:Hc.
  { injection X as _ <-. by split. }
  split; [done|]. intros _. right.
  apply M_bind_case in X as [(e0 & [= <-] & X)|(back & s4 & Hx & X)].
  - apply exchange_run in X. exact X.
  - apply exchange_run in Hx. apply accept_response_run in X as (H1 & H2 & H3 & H4 & H5).
    rewrite Hx in H2, H3. by split_and!.
Qed.

(** ** Runs of requests *)
Inductive request_run : ClientState → list (result IpcResponseFrame) → ClientState → Prop :=
  | request_run_nil s : request_run s [] s
  | request_run_cons operation payload consequential s r s1 rs s' :
      client_request operation payload consequential s = (r, s1) →
      request_run s1 rs s' → request_run s (r :: rs) s'.

Definition responses (rs : list (result IpcResponseFrame)) : list IpcResponseFrame :=
  omap (λ r, match r with Ok f => Some f | Raise _ => None end) rs.

Lemma request_keeps {PL : PipeLaws} operation payload consequential (s : ClientState) r s1 :
  client_request operation payload consequential s = (r, s1) →
  expected_boot_epoch s1.1.1 = expected_boot_epoch s.1.1
  ∧ (client_closed s.1.1 = true → client_closed s1.1.1 = true ∧ is_Ok r = false)
  ∧ match r with
    | Ok f => rs_server_boot_epoch f = expected_boot_epoch s.1.1
              ∧ (last_response_counter s.1.1 < rs_response_counter f)%Z
              ∧ last_response_counter s1.1.1 = rs_response_counter f
    | Raise _ => last_response_counter s1.1.1 = last_response_counter s.1.1
    end.
Proof using Type.
  intros X. destruct r as [f|e].
  - unfold client_request in X. apply M_bind_Ok in X as (frame & s2 & Hf & X).
    apply zoom_run in Hf as (w & _ & ->). apply M_bind_Ok in X as (raw & s3 & [_ ->]%lift_Ok & X).
    apply M_bind_Ok in X as (s0 & s4 & [= <- <-] & X). cbn [fst snd] in X.
    destruct (client_closed s.1.1) eqn:Hc; [done|].
    apply M_bind_Ok in X as (back & s5 & Hx & X). apply exchange_run in Hx.
    apply accept_response_Ok in X as ([_ He Hlt _] & _ & ->). rewrite Hx in *. by split_and!.
  - apply M_bind_case in X as [(e0 & [= <-] & X)|(frame & s2 & Hf & X)].
    { apply zoom_run in X as (w & _ & ->). by split_and!. }
    apply zoom_run in Hf as (w & _ & ->).
    apply M_bind_case in X as [(e0 & [= <-] & X)|(raw & s3 & [_ ->]%lift_Ok & X)].
    { injection X as _ <-. by split_and!. }
    apply M_bind_case in X as [(e0 & [= <-] & X)|(s0 & s4 & [= <- <-] & X)]; [done|]. cbn [fst snd] in X.
    destruct (client_closed s.1.1) eqn:Hc.
    { injection X as _ <-. by split_and!. }
    apply M_bind_case in X as [(e0 & [= <-] & X)|(back & s5 & Hx & X)].
    + apply exchange_run in X as (_ & H2 & H3 & _). by split_and!.
    + apply exchange_run in Hx. apply accept_response_run in X as (_ & H2 & H3 & _).
      rewrite Hx in H2, H3. by split_and!.
Qed.

(** Over every sequence of requests the responses the client returns all come
    from the expected boot epoch with strictly increasing counters, above the
    counter it started with; so a recorded or reordered response is never
    believed. *)
Theorem response_counters_increase {PL : PipeLaws} s rs s' :
  request_run s rs s' →
  Forall (λ f, rs_server_boot_epoch f = expected_boot_epoch s.1.1
               ∧ (last_response_counter s.1.1 < rs_response_counter f)%Z) (responses rs)
  ∧ StronglySorted (λ a b, rs_response_counter a < rs_response_counter b)%Z (responses rs).
Proof using Type.
  induction 1 as [s|operation payload consequential s r s1 rs s' X _ (Hall & Hs)]; [by repeat constructor|].
  apply request_keeps in X as (He & _ & Hr). destruct r as [f|e]; cycle 1.
  { rewrite He, Hr in Hall. done. }
  destruct Hr as (Hep & Hlt & Hlast). rewrite He, Hlast in Hall.
  change (responses (Ok f :: rs)) with (f :: responses rs). split.
  - constructor; [done|]. eapply Forall_impl; [exact Hall|]. simpl. intros g [? ?]. split; [done|lia].
  - constructor; [done|]. eapply Forall_impl; [exact Hall|]. simpl. tauto.
Qed.
End client_facts.

(** ** A peer to talk to *)
Module IpcDemo.
#[export] Instance ipc_env : Env := {|
  clock_at n := utc 0; uuid_at n := "request-" +:+ dec_N (N.of_nat n);
|}.

(** What the peer does with the requests, in order: answer the request, send its
    last answer again, stay silent, or hang up. *)
Inductive Behaviour := Answers | Repeats | Silent | HangsUp.
Record Peer := mk_Peer { pr_request : string; pr_last : string; pr_counter : Z; pr_script : list Behaviour }.

Definition epoch : string := "boot-epoch-0000000001".
Definition reply_to (raw : string) (n : Z) : result string :=
  request ← decode_frame (F := IpcRequestFrame) raw;
  r ← IpcResponseFrame_create request IPC_OK [("status", JStr "APPLIED"); ("effect", JInt 1)] None epoch n;
  encode_frame r.

#[export] Instance demo_pipe : Pipe Peer := {|
  pipe_send raw p := (Ok tt, mk_Peer raw (pr_last p) (pr_counter p) (pr_script p));
  pipe_poll p := (Ok (negb (match pr_script p with Silent :: _ => true | _ => false end)), p);
  pipe_recv p :=
    match pr_script p with
    | Answers :: rest =>
        let n := (pr_counter p + 1)%Z in
        match reply_to (pr_request p) n with
        | Ok raw => (Ok raw, mk_Peer (pr_request p) raw n rest)
        | Raise _ => (raise_ "EOFError" "", p)
        end
    | Repeats :: rest => (Ok (pr_last p), mk_Peer (pr_request p) (pr_last p) (pr_counter p) rest)
    | _ => (raise_ "EOFError" "", p)
    end;
  pipe_close p := p;
|}.
#[export] Instance demo_pipe_laws : PipeLaws.
Proof.
  split.
  - intros raw c e H. discriminate H.
  - intros c e H. discriminate H.
  - intros c e H. simpl in H. destruct (pr_script c) as [|[] rest]; try (injection H as <-; reflexivity).
    + destruct (reply_to _ _); [discriminate H|injection H as <-; reflexivity].
    + discriminate H.
Qed.

Definition with_peer (script : list Behaviour) : JsonPipeClient * Peer * World :=
  (new_client epoch, mk_Peer "" "" 0 script, mk_World 0 0).
Definition start := with_peer [Answers; Answers; Repeats; Answers].
Definition payload : list (string * json) := [("device", JStr "breaker-7"); ("closed", JBool false)].
Definition step (s : JsonPipeClient * Peer * World) := client_request "execute" payload true s.
Definition first := step start.
Definition second := step first.2.
Definition third := step second.2.
Definition fourth := step third.2.

Definition request_frame : IpcRequestFrame :=
  match (IpcRequestFrame_create "execute" payload (mk_World 0 0)).1 with
  | Ok f => f | Raise _ => mk_IpcRequestFrame "" "" [] "" end.
Definition request_octets : string :=
  match encode_frame request_frame with Ok s => s | Raise _ => "" end.

Lemma frame_round_trip_witness :
  rq_payload request_frame = payload
  ∧ decode_frame request_octets = Ok (norm request_frame)
  ∧ rq_payload (norm request_frame) = [("closed", JBool false); ("device", JStr "breaker-7")].
Proof.
  destruct (frame_round_trip request_frame request_octets) as [H _].
  destruct H as (_ & _ & H); [split; vm_compute; reflexivity|vm_compute; reflexivity|].
  exact (conj eq_refl (conj H eq_refl)).
Defined.

(** The first answer is believed; its repetition as the third is not, and the
    client sends nothing afterwards. *)
Lemma response_answers_request_witness :
  ∃ r, first.1 = Ok r ∧ rs_request_id r = "request-0" ∧ rs_response_counter r = 1%Z.
Proof.
  assert (Hok : is_Ok first.1 = true) by (vm_compute; reflexivity).
  pose proof (surjective_pairing first) as Hrun. destruct first.1 as [r|e] eqn:Hr; [|discriminate Hok].
  unfold first at 1, step in Hrun.
  destruct (response_answers_request "execute" payload true start r first.2 Hrun)
    as (frame & _ & _ & Hid & [(Hi & _) _ _ _] & _ & _ & Hc & _).
  exists r. split; [reflexivity|]. split; [rewrite Hi, Hid; reflexivity|].
  rewrite <- Hc. vm_compute. reflexivity.
Defined.

Lemma failed_request_closes_witness :
  (∃ e, third.1 = Raise e ∧ exn_type e = "IpcOutcomeUnknownError" ∧ client_closed third.2.1.1 = true)
  ∧ fourth.2.1 = third.2.1 ∧ is_Ok fourth.1 = false.
Proof.
  assert (H3 : is_Ok third.1 = false) by (vm_compute; reflexivity).
  assert (H4 : is_Ok fourth.1 = false) by (vm_compute; reflexivity).
  assert (Hcl : client_closed third.2.1.1 = true) by (vm_compute; reflexivity).
  assert (Hop : client_closed second.2.1.1 = false) by (vm_compute; reflexivity).
  pose proof (surjective_pairing third) as R3. destruct third.1 as [a|e3] eqn:E3; [discriminate H3|].
  unfold third at 1, step in R3.
  destruct (failed_request_closes "execute" payload true second.2 e3 third.2 R3) as [_ F3].
  pose proof (surjective_pairing fourth) as R4. destruct fourth.1 as [a|e4] eqn:E4; [discriminate H4|].
  unfold fourth at 1, step in R4.
  destruct (failed_request_closes "execute" payload true third.2 e4 fourth.2 R4) as [F4 _].
  split; [|exact (conj (F4 Hcl) eq_refl)].
  exists e3. split; [reflexivity|].
  destruct (F3 Hop) as [Heq|(_ & _ & _ & Hu & _)]; [|exact (conj (Hu eq_refl) Hcl)].
  rewrite Heq in Hcl. rewrite Hop in Hcl. discriminate Hcl.
Defined.

Lemma demo_step x s rs s' : x = step s → request_run x.2 rs s' → request_run s (x.1 :: rs) s'.
Proof.
  intros Hx H. apply (request_run_cons "execute" payload true _ _ x.2); [|exact H].
  rewrite Hx. apply surjective_pairing.
Qed.
Lemma ipc_demo_run : request_run start [first.1; second.1; third.1; fourth.1] fourth.2.
Proof.
  apply (demo_step first); [reflexivity|]. apply (demo_step second); [reflexivity|].
  apply (demo_step third); [reflexivity|]. apply (demo_step fourth); [reflexivity|]. constructor.
Qed.

Lemma response_counters_increase_witness :
  map rs_response_counter (responses [first.1; second.1; third.1; fourth.1]) = [1%Z; 2%Z]
  ∧ StronglySorted (λ a b, rs_response_counter a < rs_response_counter b)%Z
      (responses [first.1; second.1; third.1; fourth.1]).
Proof.
  destruct (response_counters_increase start _ _ ipc_demo_run) as [_ Hs].
  split; [vm_compute; reflexivity|exact Hs].
Defined.
End IpcDemo.
