(* ===== verification/ModbusWire.v ===== *)
(** * Mailbox framing over Modbus registers ([src/src/aegis_ot/modbus_wire.py])

    A message is canonical JSON carried in 16-bit registers behind a fixed header.
    Registers are integers; the codecs check or establish their range.  The round
    trips are in both directions: a header encodes to exactly one list of
    registers, and every accepted list of registers is that of its header. *)
From S2P Require Import Prelude PyStr PyJson Sha256 Crypto Models PyModel.

Definition WIRE_VERSION : Z := 1.
Definition DEVICE_ID : Z := 1.
Definition REQUEST_HEADER_START : Z := 0.
Definition REQUEST_HEADER_REGISTERS : Z := 32.
Definition REQUEST_PAYLOAD_START : Z := 32.
Definition REQUEST_PAYLOAD_REGISTERS : Z := 4096.
Definition RESPONSE_HEADER_START : Z := REQUEST_PAYLOAD_START + REQUEST_PAYLOAD_REGISTERS.
Definition RESPONSE_HEADER_REGISTERS : Z := 40.
Definition RESPONSE_PAYLOAD_START : Z := RESPONSE_HEADER_START + RESPONSE_HEADER_REGISTERS.
Definition RESPONSE_PAYLOAD_REGISTERS : Z := 4096.
Definition REGISTER_COUNT : Z := RESPONSE_PAYLOAD_START + RESPONSE_PAYLOAD_REGISTERS.
Definition MAX_PAYLOAD_BYTES : Z := REQUEST_PAYLOAD_REGISTERS * 2.
Definition WRITE_CHUNK_REGISTERS : Z := 120.
Definition READ_CHUNK_REGISTERS : Z := 120.
Definition REQUEST_MAGIC : Z := 0xAE63.
Definition RESPONSE_MAGIC : Z := 0xAE64.

(** ** The wire's enumerations *)
Inductive ControlWord := BEGIN | COMMIT | RELEASE.
Inductive WireOperation := READ_STATE | SIMULATE_CANDIDATE | EXECUTE | HEALTH.
Inductive WireStatus := IDLE | STAGING | PROCESSING | COMPLETE | REJECTED_BEFORE_DISPATCH | WIRE_UNKNOWN_EFFECT.
Inductive WireResultCode :=
  | WIRE_OK | INVALID_HEADER | INVALID_PAYLOAD | INVALID_SCHEMA | APPLICATION_REJECTED
  | APPLICATION_UNKNOWN_EFFECT | INTERNAL_ERROR.
#[export] Instance ControlWord_eq_dec : EqDecision ControlWord.
Proof. solve_decision. Defined.
#[export] Instance WireOperation_eq_dec : EqDecision WireOperation.
Proof. solve_decision. Defined.
#[export] Instance WireStatus_eq_dec : EqDecision WireStatus.
Proof. solve_decision. Defined.
#[export] Instance WireResultCode_eq_dec : EqDecision WireResultCode.
Proof. solve_decision. Defined.

(** An [IntEnum]: its members with their values. *)
Class IntEnum (A : Type) := { enum_members : list A; enum_value : A → Z }.
#[export] Instance ControlWord_enum : IntEnum ControlWord := {|
  enum_members := [BEGIN; COMMIT; RELEASE];
  enum_value c := match c with BEGIN => 0xA500 | COMMIT => 0xA501 | RELEASE => 0xA502 end%Z;
|}.
#[export] Instance WireOperation_enum : IntEnum WireOperation := {|
  enum_members := [READ_STATE; SIMULATE_CANDIDATE; EXECUTE; HEALTH];
  enum_value o := match o with READ_STATE => 1 | SIMULATE_CANDIDATE => 2 | EXECUTE => 3 | HEALTH => 4 end%Z;
|}.
#[export] Instance WireStatus_enum : IntEnum WireStatus := {|
  enum_members := [IDLE; STAGING; PROCESSING; COMPLETE; REJECTED_BEFORE_DISPATCH; WIRE_UNKNOWN_EFFECT];
  enum_value s := match s with IDLE => 0 | STAGING => 1 | PROCESSING => 2 | COMPLETE => 3
                  | REJECTED_BEFORE_DISPATCH => 4 | WIRE_UNKNOWN_EFFECT => 5 end%Z;
|}.
#[export] Instance WireResultCode_enum : IntEnum WireResultCode := {|
  enum_members := [WIRE_OK; INVALID_HEADER; INVALID_PAYLOAD; INVALID_SCHEMA; APPLICATION_REJECTED;
                   APPLICATION_UNKNOWN_EFFECT; INTERNAL_ERROR];
  enum_value c := match c with WIRE_OK => 0 | INVALID_HEADER => 1 | INVALID_PAYLOAD => 2 | INVALID_SCHEMA => 3
                  | APPLICATION_REJECTED => 4 | APPLICATION_UNKNOWN_EFFECT => 5 | INTERNAL_ERROR => 6 end%Z;
|}.
(** [Enum(value)] *)
Definition enum_of {A} `{IntEnum A} (v : Z) : option A := find (λ a, enum_value a =? v)%Z enum_members.
Definition enum_or_error {A} `{IntEnum A} (v : Z) : result A :=
  match enum_of v with Some a => Ok a | None => raise_ "ValueError" "not a valid member" end.

Definition canonical_json_bytes (value : json) : result string := dumps_strict value.

(** ** Octets and registers *)
Definition value_error {A} (msg : string) : result A := raise_ "ValueError" msg.
(** [int.from_bytes(s, "big")] *)
Fixpoint be_value (acc : Z) (s : string) : Z :=
  match s with EmptyString => acc | String c s => be_value (acc * 256 + ord c) s end.
(** [n] consecutive slices of two octets. *)
Fixpoint be_registers (n : nat) (s : string) : list Z :=
  match n with O => [] | S n => be_value 0 (str_take 2 s) :: be_registers n (str_drop 2 s) end.
(** [value.to_bytes(2, "big")] *)
Definition to_bytes2 (v : Z) : result string :=
  if (0 <=? v)%Z && (v <? 65536)%Z
  then Ok (String (chr (v / 256)) (String (chr (v mod 256)) EmptyString))
  else raise_ "OverflowError" "int too big to convert".
Fixpoint registers_octets (l : list Z) : result string :=
  match l with
  | [] => Ok EmptyString
  | v :: l => b ← to_bytes2 v; rest ← registers_octets l; Ok (b +:+ rest)
  end.

Definition pad_even (s : string) : string :=
  s +:+ (if (str_len s mod 2 =? 0)%Z then EmptyString else String (chr 0) EmptyString).
Definition bytes_to_registers (payload : string) : result (list Z) :=
  if (MAX_PAYLOAD_BYTES <? str_len payload)%Z
  then value_error "wire payload exceeds the fixed mailbox capacity"
  else let padded := pad_even payload in Ok (be_registers (String.length padded / 2) padded).

Definition registers_to_bytes (registers : list Z) (byte_length : Z) : result string :=
  if (byte_length <? 0)%Z || (MAX_PAYLOAD_BYTES <? byte_length)%Z
  then value_error "wire byte length is outside the mailbox capacity"
  else if negb (Z.of_nat (length registers) =? (byte_length + 1) / 2)%Z
  then value_error "wire register count does not match the declared byte length"
  else payload ← registers_octets registers; Ok (str_take (Z.to_nat byte_length) payload).

(** ** Unsigned words *)
Definition u32_registers (value : Z) : result (list Z) :=
  if (0 <=? value)%Z && (value <? 2 ^ 32)%Z
  then Ok [Z.land (Z.shiftr value 16) 0xFFFF; Z.land value 0xFFFF]
  else value_error "value is outside unsigned 32-bit range".
Definition u64_registers (value : Z) : result (list Z) :=
  if (0 <=? value)%Z && (value <? 2 ^ 64)%Z
  then Ok (map (λ shift, Z.land (Z.shiftr value shift) 0xFFFF) [48; 32; 16; 0]%Z)
  else value_error "value is outside unsigned 64-bit range".
Definition registers_u32 (values : list Z) : result Z :=
  match values with
  | [a; b] => Ok (Z.lor (Z.shiftl a 16) b)
  | _ => value_error "unsigned 32-bit value requires two registers"
  end.
Definition registers_u64 (values : list Z) : result Z :=
  if (length values =? 4)%nat
  then Ok (fold_left (λ acc v, Z.lor (Z.shiftl acc 16) v) values 0%Z)
  else value_error "unsigned 64-bit value requires four registers".

(** ** Digests *)
Definition hex_value (c : Ascii.ascii) : option Z :=
  let n := ord c in
  if (48 <=? n)%Z && (n <=? 57)%Z then Some (n - 48)%Z
  else if (97 <=? n)%Z && (n <=? 102)%Z then Some (n - 87)%Z
  else if (65 <=? n)%Z && (n <=? 70)%Z then Some (n - 55)%Z else None.
Definition hex_chr (v : Z) : Ascii.ascii := chr (if (v <? 10)%Z then 48 + v else 87 + v).
(** [bytes.hex] and [bytes.fromhex], which skips white space between octets. *)
Fixpoint bytes_hex (s : string) : string :=
  match s with
  | EmptyString => EmptyString
  | String c s => String (hex_chr (ord c / 16)) (String (hex_chr (ord c mod 16)) (bytes_hex s))
  end.
Definition is_ascii_space (c : Ascii.ascii) : bool :=
  (ord c =? 32)%Z || ((9 <=? ord c)%Z && (ord c <=? 13)%Z).
Definition fromhex_error {A} : result A :=
  value_error "non-hexadecimal number found in fromhex() arg".
Fixpoint bytes_fromhex (s : string) : result string :=
  match s with
  | EmptyString => Ok EmptyString
  | String c s' =>
      if is_ascii_space c then bytes_fromhex s' else
      match hex_value c, s' with
      | Some h, String d rest =>
          match hex_value d with
          | Some l => r ← bytes_fromhex rest; Ok (String (chr (h * 16 + l)) r)
          | None => fromhex_error
          end
      | _, _ => fromhex_error
      end
  end.

Definition digest_registers (digest : string) : result (list Z) :=
  raw ← bytes_fromhex digest; Ok (be_registers 16 raw).
Definition registers_digest (values : list Z) : result string :=
  if (length values =? 16)%nat then raw ← registers_octets values; Ok (bytes_hex raw)
  else value_error "SHA-256 requires sixteen registers".

(** [l[i:j]] for indices within the list. *)
Definition slice (i j : nat) (l : list Z) : list Z := firstn (j - i) (skipn i l).
Definition reg (i : nat) (l : list Z) : Z := nth i l 0%Z.

(** ** Headers *)
Record RequestHeader := mk_RequestHeader {
  rh_control : ControlWord;
  rh_operation : WireOperation;
  rh_transaction_id : Z;
  rh_byte_length : Z;
  rh_register_count : Z;
  rh_payload_digest : string;
}.
#[export] Instance RequestHeader_eq_dec : EqDecision RequestHeader.
Proof. solve_decision. Defined.
Record ResponseHeader := mk_ResponseHeader {
  sh_status : WireStatus;
  sh_operation : WireOperation;
  sh_transaction_id : Z;
  sh_byte_length : Z;
  sh_register_count : Z;
  sh_result_code : WireResultCode;
  sh_payload_digest : string;
  sh_counter : Z;
  sh_state_version_hint : Z;
}.

Definition RequestHeader_to_registers (h : RequestHeader) : result (list Z) :=
  tid ← u64_registers (rh_transaction_id h);
  len ← u32_registers (rh_byte_length h);
  digest ← digest_registers (rh_payload_digest h);
  Ok ([enum_value (rh_control h); REQUEST_MAGIC; WIRE_VERSION; enum_value (rh_operation h)]
      ++ tid ++ len ++ [rh_register_count h; 0%Z] ++ digest ++ [0; 0; 0; 0]%Z).

(** The payload's dimensions are within the mailbox and agree. *)
Definition dimensions_ok (byte_length register_count : Z) : bool :=
  negb (MAX_PAYLOAD_BYTES <? byte_length)%Z && (register_count =? (byte_length + 1) / 2)%Z.
Definition all_zero (l : list Z) : bool := forallb (λ v, v =? 0)%Z l.

Definition RequestHeader_from_registers (values : list Z) : result RequestHeader :=
  if negb (Z.of_nat (length values) =? REQUEST_HEADER_REGISTERS)%Z
  then value_error "request header has the wrong register count"
  else if negb (reg 1 values =? REQUEST_MAGIC)%Z || negb (reg 2 values =? WIRE_VERSION)%Z
  then value_error "request header magic or version is invalid"
  else if negb (reg 11 values =? 0)%Z || negb (all_zero (slice 28 32 values))
  then value_error "request header reserved fields must be zero"
  else
    byte_length ← registers_u32 (slice 8 10 values);
    if negb (dimensions_ok byte_length (reg 10 values))
    then value_error "request payload dimensions are invalid"
    else
      control ← enum_or_error (reg 0 values);
      operation ← enum_or_error (reg 3 values);
      tid ← registers_u64 (slice 4 8 values);
      digest ← registers_digest (slice 12 28 values);
      Ok (mk_RequestHeader control operation tid byte_length (reg 10 values) digest).

Definition ResponseHeader_to_registers (h : ResponseHeader) : result (list Z) :=
  tid ← u64_registers (sh_transaction_id h);
  len ← u32_registers (sh_byte_length h);
  digest ← digest_registers (sh_payload_digest h);
  counter ← u64_registers (sh_counter h);
  hint ← u64_registers (sh_state_version_hint h);
  Ok ([RESPONSE_MAGIC; WIRE_VERSION; enum_value (sh_status h); enum_value (sh_operation h)]
      ++ tid ++ len ++ [sh_register_count h; enum_value (sh_result_code h)] ++ digest ++ counter ++ hint
      ++ [0; 0; 0; 0]%Z).

Definition ResponseHeader_from_registers (values : list Z) : result ResponseHeader :=
  if negb (Z.of_nat (length values) =? RESPONSE_HEADER_REGISTERS)%Z
  then value_error "response header has the wrong register count"
  else if negb (reg 0 values =? RESPONSE_MAGIC)%Z || negb (reg 1 values =? WIRE_VERSION)%Z
  then value_error "response header magic or version is invalid"
  else if negb (all_zero (slice 36 40 values))
  then value_error "response header reserved fields must be zero"
  else
    byte_length ← registers_u32 (slice 8 10 values);
    if negb (dimensions_ok byte_length (reg 10 values))
    then value_error "response payload dimensions are invalid"
    else
      status ← enum_or_error (reg 2 values);
      operation ← enum_or_error (reg 3 values);
      tid ← registers_u64 (slice 4 8 values);
      code ← enum_or_error (reg 11 values);
      digest ← registers_digest (slice 12 28 values);
      counter ← registers_u64 (slice 28 32 values);
      hint ← registers_u64 (slice 32 36 values);
      Ok (mk_ResponseHeader status operation tid byte_length (reg 10 values) code digest counter hint).

(** ** Range of a register *)
Definition u16 (v : Z) : Prop := (0 <= v < 65536)%Z.
#[export] Instance u16_dec v : base.Decision (u16 v).
Proof. unfold u16. apply _. Defined.

Lemma land_ffff x : Z.land x 0xFFFF = (x mod 65536)%Z.
Proof. apply (Z.land_ones x 16). lia. Qed.
Lemma lor_shift a v : u16 v → Z.lor (Z.shiftl a 16) v = (a * 65536 + v)%Z.
Proof.
  intros Hv. rewrite <- Z.add_nocarry_lor; [by rewrite Z.shiftl_mul_pow2 by lia|].
  apply Z.bits_inj'. intros n Hn. rewrite Z.land_spec, Z.bits_0.
  destruct (decide (n < 16)%Z) as [Hlt|Hge].
  - by rewrite Z.shiftl_spec_low by done.
  - rewrite (Z.bits_above_log2 v n); [apply andb_false_r|unfold u16 in Hv; lia|].
    destruct (decide (v = 0%Z)) as [->|Hnz]; [simpl; lia|].
    unfold u16 in Hv. apply Z.log2_lt_pow2; [lia|]. apply Z.lt_le_trans with (2 ^ 16)%Z; [lia|].
    apply Z.pow_le_mono_r; lia.
Qed.
Lemma shiftr_div x k : (0 <= k)%Z → Z.shiftr x k = (x / 2 ^ k)%Z.
Proof. intros. by apply Z.shiftr_div_pow2. Qed.

Ltac words :=
  unfold u16 in *; repeat rewrite ?land_ffff, ?shiftr_div in * by lia;
  Z.to_euclidean_division_equations; lia.

(** ** Words *)
Lemma u32_round v l :
  u32_registers v = Ok l ↔ Forall u16 l ∧ registers_u32 l = Ok v.
Proof.
  unfold u32_registers, registers_u32. split.
  - destruct (_ && _) eqn:Hv; [|done]. bool_split. intros [= <-]. rewrite !land_ffff, shiftr_div by lia.
    split; [repeat constructor; words|]. rewrite lor_shift by words. f_equal. words.
  - intros [Hl H]. destruct l as [|a [|b [|]]]; try discriminate H. injection H as <-.
    apply Forall_cons in Hl as [Ha Hl]. apply Forall_cons in Hl as [Hb _]. rewrite lor_shift by done.
    unfold u16 in *. replace (_ && _) with true by (symmetry; apply andb_true_iff; lia).
    rewrite !land_ffff, shiftr_div by lia. do 2 f_equal; [|f_equal]; words.
Qed.

Lemma u64_round v l :
  u64_registers v = Ok l ↔ Forall u16 l ∧ registers_u64 l = Ok v.
Proof.
  unfold u64_registers, registers_u64. split.
  - destruct (_ && _) eqn:Hv; [|done]. bool_split. intros [= <-]. cbn [map length Nat.eqb].
    rewrite !land_ffff, !shiftr_div by lia. split; [repeat constructor; words|].
    cbn [fold_left]. rewrite !lor_shift by words. f_equal. words.
  - intros [Hl H]. destruct l as [|a [|b [|c [|d [|]]]]]; try discriminate H.
    rewrite !Forall_cons in Hl. destruct Hl as (Ha & Hb & Hc & Hd & _).
    cbn [length Nat.eqb fold_left] in H. injection H as <-. rewrite !lor_shift by done.
    unfold u16 in *. replace (_ && _) with true by (symmetry; apply andb_true_iff; lia).
    cbn [map]. rewrite !land_ffff, !shiftr_div by lia. repeat f_equal; words.
Qed.

Lemma u32_length v l : u32_registers v = Ok l → length l = 2%nat.
Proof. unfold u32_registers. destruct (_ && _); [|done]. by intros [= <-]. Qed.
Lemma u64_length v l : u64_registers v = Ok l → length l = 4%nat.
Proof. unfold u64_registers. destruct (_ && _); [|done]. by intros [= <-]. Qed.

(** ** Octets *)
Lemma to_bytes2_Ok v s : to_bytes2 v = Ok s ↔ u16 v ∧ s = String (chr (v / 256)) (String (chr (v mod 256)) "").
Proof.
  unfold to_bytes2. split.
  - destruct (_ && _) eqn:Hv; [|done]. bool_split. intros [= <-]. split; [words|done].
  - intros [Hv ->]. unfold u16 in Hv. replace (_ && _) with true by (symmetry; apply andb_true_iff; lia). done.
Qed.

Lemma str_ind2 (P : string → Prop) :
  P EmptyString → (∀ a, P (String a EmptyString)) → (∀ a b t, P t → P (String a (String b t))) → ∀ s, P s.
Proof. intros H0 H1 H2. fix IH 1. intros [|a [|b t]]; [apply H0|apply H1|apply H2, IH]. Qed.

Lemma substring_full s : String.substring 0 (String.length s) s = s.
Proof. induction s as [|c s IH]; [done|]. cbn [String.length String.substring]. by rewrite IH. Qed.

Lemma be_registers_two n a b t :
  be_registers (S n) (String a (String b t)) = (ord a * 256 + ord b)%Z :: be_registers n t.
Proof.
  cbn [be_registers]. unfold str_take, str_drop. cbn [String.substring be_value].
  replace (String.length (String a (String b t)) - 2)%nat with (String.length t) by (simpl; lia).
  rewrite substring_full. f_equal. by destruct t.
Qed.

Lemma be_registers_spec n s :
  String.length s = (2 * n)%nat → registers_octets (be_registers n s) = Ok s ∧ Forall u16 (be_registers n s).
Proof.
  revert s. induction n as [|n IH]; intros s Hs.
  - destruct s; [|discriminate Hs]. by split; [|constructor].
  - destruct s as [|a [|b t]]; cbn [String.length] in Hs; [lia..|]. rewrite be_registers_two.
    destruct (IH t) as [H1 H2]; [lia|]. pose proof (ord_range a) as Ha. pose proof (ord_range b) as Hb.
    assert (Hu : u16 (ord a * 256 + ord b)) by (unfold u16; lia).
    split; [|by constructor]. cbn [registers_octets]. rewrite (proj2 (to_bytes2_Ok _ _) (conj Hu eq_refl)), H1.
    cbn [mbind result_bind]. rewrite (chr_is a), (chr_is b) by words. done.
Qed.

Lemma registers_octets_Ok l s :
  registers_octets l = Ok s ↔ Forall u16 l ∧ String.length s = (2 * length l)%nat ∧ be_registers (length l) s = l.
Proof.
  split.
  - revert s. induction l as [|v l IH]; intros s H; cbn [registers_octets] in H.
    { injection H as <-. done. }
    apply result_bind_Ok in H as (b & [Hv ->]%to_bytes2_Ok & H).
    apply result_bind_Ok in H as (r & Hr & H). injection H as <-.
    destruct (IH r Hr) as (H1 & H2 & H3). cbn [String.append]. split; [by constructor|].
    split; [cbn [String.length length]; lia|]. cbn [length]. rewrite be_registers_two, H3, !ord_chr by words.
    f_equal. words.
  - intros (_ & Hs & <-). apply be_registers_spec. rewrite Hs. done.
Qed.

Lemma be_registers_length n s : length (be_registers n s) = n.
Proof. revert s. induction n as [|n IH]; intros s; [done|]. simpl. by rewrite IH. Qed.

Lemma str_take_app s t : str_take (String.length s) (s +:+ t) = s.
Proof.
  induction s as [|c s IH]; [by destruct t|]. cbn [String.length String.append str_take String.substring].
  unfold str_take in *. cbn [String.substring]. by rewrite IH.
Qed.

Lemma pad_even_length s : String.length (pad_even s) = (2 * Z.to_nat ((str_len s + 1) / 2))%nat.
Proof.
  unfold pad_even. rewrite str_length_app. unfold str_len. destruct (_ =? 0)%Z eqn:E.
  - apply Z.eqb_eq in E. cbn [String.length]. Z.to_euclidean_division_equations. lia.
  - apply Z.eqb_neq in E. cbn [String.length]. Z.to_euclidean_division_equations. lia.
Qed.

(** A payload within the mailbox fills as many registers as the header declares,
    and reads back. *)
Lemma payload_round s l :
  bytes_to_registers s = Ok l →
  (str_len s <= MAX_PAYLOAD_BYTES)%Z ∧ Forall u16 l ∧ Z.of_nat (length l) = ((str_len s + 1) / 2)%Z
  ∧ registers_to_bytes l (str_len s) = Ok s.
Proof.
  unfold bytes_to_registers. destruct (_ <? _)%Z eqn:Hlen; [done|]. apply Z.ltb_ge in Hlen. intros El%Ok_inj. subst l.
  pose proof (pad_even_length s) as Hp. set (n := Z.to_nat ((str_len s + 1) / 2)) in *.
  replace (String.length (pad_even s) / 2)%nat with n by (rewrite Hp, Nat.mul_comm, Nat.div_mul; lia).
  destruct (be_registers_spec n (pad_even s) Hp) as [Ho Hu].
  assert (Hn : Z.of_nat n = ((str_len s + 1) / 2)%Z).
  { unfold n, str_len. Z.to_euclidean_division_equations. lia. }
  split; [exact Hlen|]. split; [exact Hu|]. rewrite be_registers_length. split; [exact Hn|].
  unfold registers_to_bytes. rewrite be_registers_length, Hn, Z.eqb_refl.
  replace (_ || _) with false by (symmetry; apply orb_false_iff; unfold str_len in *; lia).
  cbn [negb]. rewrite Ho. cbn [mbind result_bind]. unfold str_len, pad_even. rewrite Nat2Z.id.
  by rewrite str_take_app.
Qed.

(** ** Hexadecimal digests *)
Lemma hex_chr_lower v : (0 <= v < 16)%Z → is_hex_lower (hex_chr v) = true ∧ hex_value (hex_chr v) = Some v.
Proof.
  intros Hv. unfold hex_chr, is_hex_lower, is_digit, hex_value.
  destruct (v <? 10)%Z eqn:E; [apply Z.ltb_lt in E|apply Z.ltb_ge in E]; rewrite ord_chr by lia.
  - replace (48 <=? 48 + v)%Z with true by (symmetry; lia). replace (48 + v <=? 57)%Z with true by (symmetry; lia).
    split; [done|]. simpl. f_equal. lia.
  - replace (48 <=? 87 + v)%Z with true by (symmetry; lia). replace (87 + v <=? 57)%Z with false by (symmetry; lia).
    replace (97 <=? 87 + v)%Z with true by (symmetry; lia). replace (87 + v <=? 102)%Z with true by (symmetry; lia).
    split; [done|]. simpl. f_equal. lia.
Qed.
Lemma hex_lower_value c :
  is_hex_lower c = true → is_ascii_space c = false ∧ ∃ v, hex_value c = Some v ∧ (0 <= v < 16)%Z ∧ hex_chr v = c.
Proof.
  unfold is_hex_lower, is_digit, is_ascii_space, hex_value, hex_chr. intros H. pose proof (chr_ord c) as Hc.
  apply orb_true_iff in H as [H|H]; bool_split.
  - split; [apply orb_false_iff; split; [lia|apply andb_false_iff; right; lia]|].
    exists (ord c - 48)%Z. replace ((48 <=? ord c) && (ord c <=? 57))%Z with true by (symmetry; lia).
    split; [done|]. split; [lia|]. replace (ord c - 48 <? 10)%Z with true by (symmetry; lia). rewrite <- Hc at 2. f_equal. lia.
  - split; [apply orb_false_iff; split; [lia|apply andb_false_iff; right; lia]|].
    exists (ord c - 87)%Z. replace ((48 <=? ord c) && (ord c <=? 57))%Z with false by (symmetry; lia).
    replace ((97 <=? ord c) && (ord c <=? 102))%Z with true by (symmetry; lia).
    split; [done|]. split; [lia|]. replace (ord c - 87 <? 10)%Z with false by (symmetry; lia). rewrite <- Hc at 2. f_equal. lia.
Qed.

Lemma bytes_hex_shape s :
  str_forallb is_hex_lower (bytes_hex s) = true ∧ String.length (bytes_hex s) = (2 * String.length s)%nat
  ∧ bytes_fromhex (bytes_hex s) = Ok s.
Proof.
  induction s as [|c s (H1 & H2 & H3)]; [done|]. pose proof (ord_range c) as Hc.
  destruct (hex_chr_lower (ord c / 16)) as [Hh1 Hv1]; [words|].
  destruct (hex_chr_lower (ord c mod 16)) as [Hh2 Hv2]; [words|].
  cbn [bytes_hex str_forallb String.length bytes_fromhex]. rewrite Hh1, Hh2, H1, Hv1, Hv2, H3.
  split; [done|]. split; [lia|]. rewrite (proj1 (hex_lower_value _ Hh1)). cbn [mbind result_bind].
  rewrite (chr_is c) by words. done.
Qed.

Lemma fromhex_lower d :
  str_forallb is_hex_lower d = true → Nat.Even (String.length d) →
  ∃ raw, bytes_fromhex d = Ok raw ∧ bytes_hex raw = d ∧ (2 * String.length raw)%nat = String.length d.
Proof.
  induction d as [|a|a b t IH] using str_ind2; intros Hd He.
  - by exists EmptyString.
  - destruct He as [k Hk]. simpl in Hk. lia.
  - cbn [str_forallb] in Hd. bool_split. destruct IH as (raw & Hr & Hx & Hlen); [done| |].
    { destruct He as [k Hk]. exists (k - 1)%nat. simpl in Hk. lia. }
    destruct (hex_lower_value a) as (Hs & h & Hh & Hhr & Hha); [done|].
    destruct (hex_lower_value b) as (_ & l & Hl & Hlr & Hlb); [done|].
    exists (String (chr (h * 16 + l)) raw). cbn [bytes_fromhex bytes_hex String.length].
    rewrite Hs, Hh, Hl, Hr. cbn [mbind result_bind]. rewrite ord_chr by lia.
    replace ((h * 16 + l) / 16)%Z with h by words. replace ((h * 16 + l) mod 16)%Z with l by words.
    split; [done|]. split; [by rewrite Hha, Hlb, Hx|]. lia.
Qed.

Lemma digest_round d l :
  is_sha256 d = true → digest_registers d = Ok l ↔ Forall u16 l ∧ registers_digest l = Ok d.
Proof.
  intros Hd. unfold is_sha256 in Hd. bool_split.
  destruct (fromhex_lower d) as (raw & Hr & Hx & Hl); [done| |].
  { exists 32%nat. unfold str_len in *. lia. }
  unfold digest_registers, registers_digest. rewrite Hr. cbn [mbind result_bind].
  assert (Hraw : String.length raw = (2 * 16)%nat) by (unfold str_len in *; lia).
  destruct (be_registers_spec 16 raw Hraw) as [Ho Hu]. split.
  - intros E%Ok_inj. subst l. split; [done|]. rewrite be_registers_length. cbn [Nat.eqb].
    rewrite Ho. cbn [mbind result_bind]. by rewrite Hx.
  - intros [Hf Hdig]. destruct (length l =? 16)%nat eqn:Hlen; [|done]. apply Nat.eqb_eq in Hlen.
    apply result_bind_Ok in Hdig as (raw' & Ho' & Hx'%Ok_inj). apply registers_octets_Ok in Ho' as (_ & _ & Hb).
    rewrite <- Hb, Hlen. f_equal. f_equal. destruct (bytes_hex_shape raw') as (_ & _ & H').
    rewrite Hx', Hr in H'. by injection H'.
Qed.

Lemma registers_digest_shape l d : registers_digest l = Ok d → is_sha256 d = true.
Proof.
  unfold registers_digest. destruct (length l =? 16)%nat eqn:Hlen; [|done]. apply Nat.eqb_eq in Hlen.
  intros H. apply result_bind_Ok in H as (raw & H & [= <-]). apply registers_octets_Ok in H as (_ & Hr & _).
  destruct (bytes_hex_shape raw) as (H1 & H2 & _). unfold is_sha256, str_len. rewrite H1, H2, Hr, Hlen. done.
Qed.
Lemma digest_registers_length d l : digest_registers d = Ok l → length l = 16%nat.
Proof.
  unfold digest_registers. intros H. apply result_bind_Ok in H as (raw & _ & <-%Ok_inj). apply be_registers_length.
Qed.

(** ** Headers and their registers *)
Class IntEnumLaws (A : Type) `{IntEnum A} : Prop := {
  enum_of_value : ∀ a : A, enum_of (enum_value a) = Some a;
  enum_u16 : ∀ a : A, u16 (enum_value a);
}.
Ltac enum_laws := split; intros []; solve [reflexivity|unfold u16; cbn; lia].
#[export] Instance ControlWord_laws : IntEnumLaws ControlWord.
Proof. enum_laws. Qed.
#[export] Instance WireOperation_laws : IntEnumLaws WireOperation.
Proof. enum_laws. Qed.
#[export] Instance WireStatus_laws : IntEnumLaws WireStatus.
Proof. enum_laws. Qed.
#[export] Instance WireResultCode_laws : IntEnumLaws WireResultCode.
Proof. enum_laws. Qed.

Lemma enum_or_error_Ok {A} `{IntEnumLaws A} v (a : A) : enum_or_error v = Ok a ↔ v = enum_value a.
Proof.
  unfold enum_or_error. split.
  - destruct (enum_of v) as [b|] eqn:E; [|done]. intros [= <-]. unfold enum_of in E.
    apply find_some in E as [_ E]. by apply Z.eqb_eq in E.
  - intros ->. by rewrite enum_of_value.
Qed.

Lemma list_of_length {A} n (l : list A) : length l = S n → ∃ x l', l = x :: l' ∧ length l' = n.
Proof. destruct l as [|x l']; [done|]. intros [= H]. by exists x, l'. Qed.
(** Names the elements of a list of known length. *)
Ltac explode l H :=
  repeat (let x := fresh "r" in let l' := fresh "rest" in
          apply list_of_length in H as (x & l' & -> & H));
  apply nil_length_inv in H; subst.

Record header_fields (byte_length register_count : Z) (digest : string) : Prop := {
  hf_dimensions : dimensions_ok byte_length register_count = true;
  hf_digest : is_sha256 digest = true;
}.
Lemma register_count_u16 n c : (0 <= n)%Z → dimensions_ok n c = true → u16 c.
Proof.
  unfold dimensions_ok, u16. intros Hn H. bool_split. subst. unfold MAX_PAYLOAD_BYTES, REQUEST_PAYLOAD_REGISTERS in *.
  Z.to_euclidean_division_equations. lia.
Qed.
Lemma u32_nonneg v l : u32_registers v = Ok l → (0 <= v)%Z.
Proof. unfold u32_registers. destruct (_ && _) eqn:E; [|done]. bool_split. done. Qed.
Lemma all_zero_4 a b c d : all_zero [a; b; c; d] = true ↔ a = 0%Z ∧ b = 0%Z ∧ c = 0%Z ∧ d = 0%Z.
Proof. unfold all_zero. simpl. rewrite !andb_true_iff, !Z.eqb_eq. tauto. Qed.

Ltac registers_u16 :=
  repeat first [apply Forall_nil; exact I | apply Forall_cons; split];
  first [done | apply enum_u16 | unfold u16; cbn; lia].

Lemma request_header_round h l :
  Forall u16 l ∧ RequestHeader_from_registers l = Ok h
  ↔ header_fields (rh_byte_length h) (rh_register_count h) (rh_payload_digest h)
    ∧ RequestHeader_to_registers h = Ok l.
Proof.
  unfold RequestHeader_from_registers, RequestHeader_to_registers. split.
  - intros [Hu H]. destruct (Z.of_nat (length l) =? _)%Z eqn:Hlen; [|discriminate H]. cbn [negb] in H.
    apply Z.eqb_eq in Hlen. assert (Hl : length l = 32%nat) by (unfold REQUEST_HEADER_REGISTERS in Hlen; lia).
    clear Hlen. explode l Hl. cbn [reg nth slice firstn skipn Nat.sub] in H.
    destruct (_ || _) eqn:E1 in H; [discriminate H|]. destruct (_ || _) eqn:E2 in H; [discriminate H|].
    bool_split. subst. match goal with X : all_zero _ = true |- _ => apply all_zero_4 in X as (-> & -> & -> & ->) end.
    apply result_bind_Ok in H as (n & Hn & H). destruct (dimensions_ok n _) eqn:Hdim; [|discriminate H].
    cbn [negb] in H. apply result_bind_Ok in H as (c & ->%enum_or_error_Ok & H).
    apply result_bind_Ok in H as (o & ->%enum_or_error_Ok & H). apply result_bind_Ok in H as (t & Ht & H).
    apply result_bind_Ok in H as (d & Hd & <-%Ok_inj).
    cbn [rh_control rh_operation rh_transaction_id rh_byte_length rh_register_count rh_payload_digest].
    pose proof (registers_digest_shape _ _ Hd) as Hs. split; [by split|]. rewrite !Forall_cons in Hu.
    rewrite (λ U, proj2 (u64_round _ _) (conj U Ht)) by (rewrite !Forall_cons; tauto).
    rewrite (λ U, proj2 (u32_round _ _) (conj U Hn)) by (rewrite !Forall_cons; tauto).
    rewrite (λ U, proj2 (digest_round _ _ Hs) (conj U Hd)) by (rewrite !Forall_cons; tauto). reflexivity.
  - intros [[Hdim Hs] H]. apply result_bind_Ok in H as (t & Ht & H). apply result_bind_Ok in H as (n & Hn & H).
    apply result_bind_Ok in H as (d & Hd & <-%Ok_inj).
    pose proof (u64_length _ _ Ht) as Lt. pose proof (u32_length _ _ Hn) as Ln.
    pose proof (digest_registers_length _ _ Hd) as Ld. pose proof (u32_nonneg _ _ Hn) as Hnn.
    apply u64_round in Ht as [Ut Ht]. apply u32_round in Hn as [Un Hn]. apply digest_round in Hd as [Ud Hd]; [|done].
    pose proof (register_count_u16 _ _ Hnn Hdim) as Hc. split.
    + rewrite !Forall_app. split_and!; try done; registers_u16.
    + explode t Lt. explode n Ln. explode d Ld.
      cbn -[registers_u64 registers_u32 registers_digest enum_or_error dimensions_ok enum_value].
      rewrite Hn. cbn [mbind result_bind]. rewrite Hdim. cbn [negb].
      rewrite (proj2 (enum_or_error_Ok _ _) eq_refl). cbn [mbind result_bind].
      rewrite (proj2 (enum_or_error_Ok _ _) eq_refl). cbn [mbind result_bind].
      rewrite Ht. cbn [mbind result_bind]. rewrite Hd. by destruct h.
Qed.

Lemma response_header_round h l :
  Forall u16 l ∧ ResponseHeader_from_registers l = Ok h
  ↔ header_fields (sh_byte_length h) (sh_register_count h) (sh_payload_digest h)
    ∧ ResponseHeader_to_registers h = Ok l.
Proof.
  unfold ResponseHeader_from_registers, ResponseHeader_to_registers. split.
  - intros [Hu H]. destruct (Z.of_nat (length l) =? _)%Z eqn:Hlen; [|discriminate H]. cbn [negb] in H.
    apply Z.eqb_eq in Hlen. assert (Hl : length l = 40%nat) by (unfold RESPONSE_HEADER_REGISTERS in Hlen; lia).
    clear Hlen. explode l Hl. cbn [reg nth slice firstn skipn Nat.sub] in H.
    destruct (_ || _) eqn:E1 in H; [discriminate H|]. destruct (all_zero _) eqn:E2 in H; [|discriminate H].
    bool_split. subst. apply all_zero_4 in E2 as (-> & -> & -> & ->). cbn [negb] in H.
    apply result_bind_Ok in H as (n & Hn & H). destruct (dimensions_ok n _) eqn:Hdim; [|discriminate H].
    cbn [negb] in H. apply result_bind_Ok in H as (st & ->%enum_or_error_Ok & H).
    apply result_bind_Ok in H as (o & ->%enum_or_error_Ok & H). apply result_bind_Ok in H as (t & Ht & H).
    apply result_bind_Ok in H as (c & ->%enum_or_error_Ok & H). apply result_bind_Ok in H as (d & Hd & H).
    apply result_bind_Ok in H as (k & Hk & H). apply result_bind_Ok in H as (v & Hv & <-%Ok_inj).
    cbn [sh_status sh_operation sh_transaction_id sh_byte_length sh_register_count sh_result_code
         sh_payload_digest sh_counter sh_state_version_hint].
    pose proof (registers_digest_shape _ _ Hd) as Hs. split; [by split|]. rewrite !Forall_cons in Hu.
    rewrite (λ U, proj2 (u64_round _ _) (conj U Ht)) by (rewrite !Forall_cons; tauto).
    rewrite (λ U, proj2 (u32_round _ _) (conj U Hn)) by (rewrite !Forall_cons; tauto).
    rewrite (λ U, proj2 (digest_round _ _ Hs) (conj U Hd)) by (rewrite !Forall_cons; tauto).
    rewrite (λ U, proj2 (u64_round _ _) (conj U Hk)) by (rewrite !Forall_cons; tauto).
    rewrite (λ U, proj2 (u64_round _ _) (conj U Hv)) by (rewrite !Forall_cons; tauto). reflexivity.
  - intros [[Hdim Hs] H]. apply result_bind_Ok in H as (t & Ht & H). apply result_bind_Ok in H as (n & Hn & H).
    apply result_bind_Ok in H as (d & Hd & H). apply result_bind_Ok in H as (k & Hk & H).
    apply result_bind_Ok in H as (v & Hv & <-%Ok_inj).
    pose proof (u64_length _ _ Ht) as Lt. pose proof (u32_length _ _ Hn) as Ln.
    pose proof (u64_length _ _ Hk) as Lk. pose proof (u64_length _ _ Hv) as Lv.
    pose proof (digest_registers_length _ _ Hd) as Ld. pose proof (u32_nonneg _ _ Hn) as Hnn.
    apply u64_round in Ht as [Ut Ht], Hk as [Uk Hk], Hv as [Uv Hv]. apply u32_round in Hn as [Un Hn].
    apply digest_round in Hd as [Ud Hd]; [|done].
    pose proof (register_count_u16 _ _ Hnn Hdim) as Hc. split.
    + rewrite !Forall_app. split_and!; try done; registers_u16.
    + explode t Lt. explode n Ln. explode d Ld. explode k Lk. explode v Lv.
      cbn -[registers_u64 registers_u32 registers_digest enum_or_error dimensions_ok enum_value].
      rewrite Hn. cbn [mbind result_bind]. rewrite Hdim. cbn [negb].
      do 2 (rewrite (proj2 (enum_or_error_Ok _ _) eq_refl); cbn [mbind result_bind]).
      rewrite Ht. cbn [mbind result_bind]. rewrite (proj2 (enum_or_error_Ok _ _) eq_refl). cbn [mbind result_bind].
      rewrite Hd. cbn [mbind result_bind]. rewrite Hk. cbn [mbind result_bind]. rewrite Hv. by destruct h.
Qed.

(** The wire format is exact in both directions: the 16-bit register lists the
    two header parsers accept are exactly the encodings of headers with agreeing
    dimensions and a well-formed digest, one each; and every payload within the
    mailbox fills the declared number of 16-bit registers and reads back. *)
Theorem wire_round_trip (rq : RequestHeader) (rs : ResponseHeader) (payload : string) (l : list Z) :
  (Forall u16 l ∧ RequestHeader_from_registers l = Ok rq
   ↔ header_fields (rh_byte_length rq) (rh_register_count rq) (rh_payload_digest rq)
     ∧ RequestHeader_to_registers rq = Ok l)
  ∧ (Forall u16 l ∧ ResponseHeader_from_registers l = Ok rs
     ↔ header_fields (sh_byte_length rs) (sh_register_count rs) (sh_payload_digest rs)
       ∧ ResponseHeader_to_registers rs = Ok l)
  ∧ (bytes_to_registers payload = Ok l →
     (str_len payload <= MAX_PAYLOAD_BYTES)%Z ∧ Forall u16 l
     ∧ Z.of_nat (length l) = ((str_len payload + 1) / 2)%Z ∧ registers_to_bytes l (str_len payload) = Ok payload).
Proof. split_and!; [apply request_header_round|apply response_header_round|apply payload_round]. Qed.
