(* ===== verification/ModbusMessages.v ===== *)
(** * Messages in the mailbox ([src/src/aegis_ot/modbus_wire.py], [WireRequest],
    [SignedWireResponse])

    The two models, their JSON forms and the signature over a response without its
    signature.  A value the package would coerce to a field's type prints
    differently, so both ends refuse it as non-canonical. *)
From S2P Require Import Prelude PyStr PyJson Sha256 Crypto Models PyModel ModbusWire.
From stdpp Require Import sorting.

Record WireRequest := mk_WireRequest {
  wq_transaction_id : Z;
  wq_operation : WireOperation;
  wq_payload : list (string * json);
}.
Record SignedWireResponse := mk_SignedWireResponse {
  ws_transaction_id : Z;
  ws_operation : WireOperation;
  ws_request_digest : string;
  ws_status : WireStatus;
  ws_result_code : WireResultCode;
  ws_payload : list (string * json);
  ws_payload_digest : string;
  ws_device_id : string;
  ws_device_key_id : string;
  ws_boot_epoch : string;
  ws_counter : Z;
  ws_signature : string;
}.

Definition u64_field (v : Z) : bool := (0 <=? v)%Z && (v <? 2 ^ 64)%Z.
Definition WireRequest_validate (q : WireRequest) : result WireRequest :=
  _ ← require (u64_field (wq_transaction_id q)) "ValidationError" "field constraint";
  Ok q.
Definition SignedWireResponse_validate (r : SignedWireResponse) : result SignedWireResponse :=
  _ ← require (u64_field (ws_transaction_id r) && is_sha256 (ws_request_digest r)
               && is_sha256 (ws_payload_digest r) && min_length 1 (ws_device_id r)
               && min_length 1 (ws_device_key_id r) && min_length 16 (ws_boot_epoch r)
               && (1 <=? ws_counter r)%Z) "ValidationError" "field constraint";
  d ← canonical_digest (JObj (ws_payload r));
  _ ← require (bool_decide (ws_payload_digest r = d))
      "ValidationError" "wire response payload digest is inconsistent";
  Ok r.

(** ** JSON forms *)
Definition wire_request_fields (q : WireRequest) : list (string * json) :=
  [("schema_version", JStr "modbus-wire-request-v1"); ("transaction_id", JInt (wq_transaction_id q));
   ("operation", JInt (enum_value (wq_operation q))); ("payload", JObj (wq_payload q))].
Definition wire_response_fields (r : SignedWireResponse) : list (string * json) :=
  [("schema_version", JStr "modbus-wire-response-v1"); ("transaction_id", JInt (ws_transaction_id r));
   ("operation", JInt (enum_value (ws_operation r))); ("request_digest", JStr (ws_request_digest r));
   ("status", JInt (enum_value (ws_status r))); ("result_code", JInt (enum_value (ws_result_code r)));
   ("payload", JObj (ws_payload r)); ("payload_digest", JStr (ws_payload_digest r));
   ("device_id", JStr (ws_device_id r)); ("device_key_id", JStr (ws_device_key_id r));
   ("boot_epoch", JStr (ws_boot_epoch r)); ("device_transaction_counter", JInt (ws_counter r));
   ("signature", JStr (ws_signature r))].

Definition enum_field {A} `{IntEnum A} (kv : list (string * json)) (k : string) : result A :=
  n ← int_of kv k;
  match enum_of n with Some a => Ok a | None => invalid end.
Definition wire_request_of (kv : list (string * json)) : result WireRequest :=
  _ ← only_keys ["schema_version"; "transaction_id"; "operation"; "payload"] kv;
  _ ← literal_of kv "schema_version" "modbus-wire-request-v1";
  t ← int_of kv "transaction_id";
  o ← enum_field kv "operation";
  p ← dict_of_field kv "payload";
  WireRequest_validate (mk_WireRequest t o p).
Definition wire_response_of (kv : list (string * json)) : result SignedWireResponse :=
  _ ← only_keys ["schema_version"; "transaction_id"; "operation"; "request_digest"; "status"; "result_code";
                 "payload"; "payload_digest"; "device_id"; "device_key_id"; "boot_epoch";
                 "device_transaction_counter"; "signature"] kv;
  _ ← literal_of kv "schema_version" "modbus-wire-response-v1";
  t ← int_of kv "transaction_id";
  o ← enum_field kv "operation";
  q ← str_of kv "request_digest";
  s ← enum_field kv "status";
  c ← enum_field kv "result_code";
  p ← dict_of_field kv "payload";
  d ← str_of kv "payload_digest";
  i ← str_of kv "device_id";
  k ← str_of kv "device_key_id";
  b ← str_of kv "boot_epoch";
  n ← int_of kv "device_transaction_counter";
  g ← match dict_get "signature" kv with
      | None => Ok "" | Some (JStr g) => Ok g | Some _ => invalid end;
  SignedWireResponse_validate (mk_SignedWireResponse t o q s c p d i k b n g).

#[export] Instance wire_request_model : FrameModel WireRequest :=
  {| frame_dump q := JObj (wire_request_fields q); frame_of := wire_request_of |}.
#[export] Instance wire_response_model : FrameModel SignedWireResponse :=
  {| frame_dump r := JObj (wire_response_fields r); frame_of := wire_response_of |}.

(** ** Signatures *)
Section signatures.
Context {ED : Ed25519}.
Definition wire_signing_payload (r : SignedWireResponse) : result string :=
  canonical_json_bytes (json_exclude ["signature"] (frame_dump r)).
Definition with_wire_signature (r : SignedWireResponse) (g : string) : SignedWireResponse :=
  mk_SignedWireResponse (ws_transaction_id r) (ws_operation r) (ws_request_digest r) (ws_status r)
    (ws_result_code r) (ws_payload r) (ws_payload_digest r) (ws_device_id r) (ws_device_key_id r)
    (ws_boot_epoch r) (ws_counter r) g.
Definition wire_signed (r : SignedWireResponse) (k : private_key) : result SignedWireResponse :=
  b ← wire_signing_payload r; Ok (with_wire_signature r (sign_bytes k b)).
Definition wire_verify (r : SignedWireResponse) (k : public_key) : result bool :=
  signature_valid k (ws_signature r) (wire_signing_payload r).
End signatures.

(** ** Both read back *)
Definition norm_wire_request (q : WireRequest) : WireRequest :=
  mk_WireRequest (wq_transaction_id q) (wq_operation q) (canonical_payload (wq_payload q)).
Definition norm_wire_response (r : SignedWireResponse) : SignedWireResponse :=
  mk_SignedWireResponse (ws_transaction_id r) (ws_operation r) (ws_request_digest r) (ws_status r)
    (ws_result_code r) (canonical_payload (ws_payload r)) (ws_payload_digest r) (ws_device_id r)
    (ws_device_key_id r) (ws_boot_epoch r) (ws_counter r) (ws_signature r).

Definition wire_request_valid (q : WireRequest) : Prop :=
  WireRequest_validate q = Ok q ∧ json_ok (JObj (wq_payload q)) = true.
Definition wire_response_valid (r : SignedWireResponse) : Prop :=
  SignedWireResponse_validate r = Ok r ∧ json_ok (JObj (ws_payload r)) = true.

Lemma validate_norm_wire_response r :
  wire_response_valid r → SignedWireResponse_validate (norm_wire_response r) = Ok (norm_wire_response r).
Proof.
  intros [Hv Hp]. unfold SignedWireResponse_validate in *. simpl.
  apply require_bind in Hv as [-> Hv]. cbn [require mbind result_bind].
  rewrite canonical_payload_digest by done. destruct (canonical_digest _) as [d|]; [|done].
  cbn [mbind result_bind] in *. by apply require_bind in Hv as [-> _].
Qed.

Lemma enum_field_get {A} `{IntEnumLaws A} kv k (a : A) :
  dict_get k kv = Some (JInt (enum_value a)) → enum_field kv k = Ok a.
Proof. intros E. unfold enum_field, int_of. rewrite E. cbn [mbind result_bind]. by rewrite enum_of_value. Qed.

Lemma canon_payload_norm p : json_ok (JObj p) = true → canon (JObj (canonical_payload p)) = canon (JObj p).
Proof. intros Hp. by rewrite !canon_payload, canonical_payload_idem. Qed.

#[export] Program Instance wire_request_laws : FrameLaws WireRequest := {|
  frame_valid := wire_request_valid;
  norm := norm_wire_request;
|}.
Next Obligation.
  intros q [_ Hp]. simpl. unfold wire_request_fields. cbn [json_ok] in *. cbn [forallb]. by rewrite Hp.
Qed.
Next Obligation.
  intros q [_ Hp]. unfold frame_dump, wire_request_model, wire_request_fields, norm_wire_request.
  rewrite !(canon_payload (_ :: _)). f_equal. unfold canonical_payload at 1 3. cbn [map].
  cbn -[canon canonical_payload merge_sort]. by rewrite canon_payload_norm.
Qed.
Next Obligation.
  intros q Hq. exists (canonical_payload (wire_request_fields q)). split; [reflexivity|].
  unfold frame_of, wire_request_model, wire_request_of. rewrite only_keys_canon by reflexivity.
  assert (Hget : ∀ k, dict_get k (canonical_payload (wire_request_fields q)) = canon <$> dict_get k (wire_request_fields q)).
  { intros k. apply canonical_get. by apply (bool_decide_unpack _). }
  unfold literal_of, dict_of_field. rewrite (enum_field_get _ _ (wq_operation q)).
  - unfold int_of. rewrite !Hget. unfold wire_request_fields. fields. cbn [fmap option_fmap option_map canon].
    rewrite bool_decide_eq_true_2 by done. cbn [mbind result_bind].
    destruct Hq as [Hv _]. unfold WireRequest_validate in *. simpl in *. apply require_bind in Hv as [-> _].
    reflexivity.
  - rewrite Hget. unfold wire_request_fields. by fields.
Qed.
Next Obligation.
  intros q [Hv Hp]. split; [|by apply canonical_payload_ok]. unfold WireRequest_validate in *. simpl in *.
  by apply require_bind in Hv as [-> _].
Qed.

#[export] Program Instance wire_response_laws : FrameLaws SignedWireResponse := {|
  frame_valid := wire_response_valid;
  norm := norm_wire_response;
|}.
Next Obligation.
  intros r [_ Hp]. simpl. unfold wire_response_fields. cbn [json_ok] in *. cbn [forallb]. by rewrite Hp.
Qed.
Next Obligation.
  intros r [_ Hp]. unfold frame_dump, wire_response_model, wire_response_fields, norm_wire_response.
  rewrite !(canon_payload (_ :: _)). f_equal. unfold canonical_payload at 1 3. cbn [map].
  cbn -[canon canonical_payload merge_sort]. by rewrite canon_payload_norm.
Qed.
Next Obligation.
  intros r Hr. exists (canonical_payload (wire_response_fields r)). split; [reflexivity|].
  unfold frame_of, wire_response_model, wire_response_of. rewrite only_keys_canon by reflexivity.
  assert (Hget : ∀ k, dict_get k (canonical_payload (wire_response_fields r)) = canon <$> dict_get k (wire_response_fields r)).
  { intros k. apply canonical_get. by apply (bool_decide_unpack _). }
  rewrite (enum_field_get _ "operation" (ws_operation r)), (enum_field_get _ "status" (ws_status r)),
    (enum_field_get _ "result_code" (ws_result_code r))
    by (rewrite Hget; unfold wire_response_fields; by fields).
  unfold literal_of, dict_of_field, int_of, str_of. rewrite !Hget. unfold wire_response_fields. fields.
  cbn [fmap option_fmap option_map canon]. rewrite bool_decide_eq_true_2 by done. cbn [mbind result_bind].
  apply (validate_norm_wire_response r Hr).
Qed.
Next Obligation.
  intros r Hr. split; [by apply validate_norm_wire_response|apply canonical_payload_ok, Hr].
Qed.

(** ** What is signed does not depend on the payload's key order *)
Section signature_facts.
Context {ED : Ed25519}.
Lemma exclude_signature r : json_exclude ["signature"] (frame_dump r) = JObj (List.firstn 12 (wire_response_fields r)).
Proof using Type. reflexivity. Qed.

Lemma signing_payload_norm r :
  wire_response_valid r → wire_signing_payload (norm_wire_response r) = wire_signing_payload r.
Proof using Type.
  intros [_ Hp]. unfold wire_signing_payload, canonical_json_bytes. rewrite !exclude_signature.
  assert (Hok : ∀ p, json_ok (JObj p) = true → ∀ r', ws_payload r' = p → json_ok (JObj (firstn 12 (wire_response_fields r'))) = true).
  { intros p Hok r' <-. unfold wire_response_fields. cbn [firstn json_ok forallb] in *. by rewrite Hok. }
  rewrite <- (dumps_strict_canon (JObj (firstn 12 (wire_response_fields r)))) by by apply (Hok (ws_payload r)).
  rewrite <- (dumps_strict_canon (JObj (firstn 12 (wire_response_fields (norm_wire_response r)))))
    by (eapply Hok; [apply canonical_payload_ok, Hp|done]).
  f_equal. unfold wire_response_fields, norm_wire_response. cbn [firstn]. rewrite !(canon_payload (_ :: _)). f_equal.
  unfold canonical_payload at 1 3. cbn [map]. cbn -[canon canonical_payload merge_sort]. by rewrite canon_payload_norm.
Qed.

Lemma verify_norm r k : wire_response_valid r → wire_verify (norm_wire_response r) k = wire_verify r k.
Proof using Type. intros Hr. unfold wire_verify. by rewrite signing_payload_norm. Qed.

Lemma signing_payload_signature r g : wire_signing_payload (with_wire_signature r g) = wire_signing_payload r.
Proof using Type. reflexivity. Qed.

(** What the device signs verifies. *)
Lemma wire_signed_verifies `{!Ed25519Laws} r k r' :
  wire_signed r k = Ok r' → ws_signature r' ≠ "" → wire_verify r' (public_of k) = Ok true.
Proof using Type.
  unfold wire_signed. intros Hsig Hne. apply result_bind_Ok in Hsig as (b & Hb & <-%Ok_inj).
  unfold wire_verify. rewrite signing_payload_signature. by apply signature_valid_sign.
Qed.
End signature_facts.
