(* ===== verification/ModbusMailbox.v ===== *)
(** * The mailbox device ([src/src/aegis_ot/modbus_device.py], [_MailboxService])

    The server end of the Modbus mailbox: a transaction is staged by a BEGIN
    header and payload writes, processed by COMMIT, answered in the response
    registers with a signed message, and released.  The Modbus server itself is
    the [pymodbus] package's: it calls [action] with the device's registers and
    stores what a write accepted.  [mailbox_refines_protocol] relates the handler
    to the three-state protocol it implements. *)
From S2P Require Import Prelude PyFloat PyStr PyTime PyJson Sha256 Crypto Models PyModel.
From S2P Require Import PhysicalModels PhysicalControl ModbusWire ModbusMessages.

(** pydantic's [model_validate], code of the package. *)
Class ModelLoad (A : Type) := model_validate : json → result A.

(** The [pymodbus] exception codes the handler answers. *)
Inductive ExcCodes := ILLEGAL_VALUE | ILLEGAL_ADDRESS | DEVICE_BUSY.

(** [registers[i:i + len(vs)] = vs]; the device has [REGISTER_COUNT] registers. *)
Definition set_slice (i : nat) (vs l : list Z) : list Z := firstn i l ++ vs ++ skipn (i + length vs) l.
Definition clear_registers (registers : list Z) : list Z :=
  set_slice (Z.to_nat RESPONSE_HEADER_START)
    (repeat 0%Z (Z.to_nat (REGISTER_COUNT - RESPONSE_HEADER_START))) registers.

Section mailbox.
Context {ED : Ed25519}.
Context {D T : Type} {HPl : Plant T} {HD : ControlDevice D T}.
Context {DSt : ModelDump PhysicalStateSnapshot} {DAs : ModelDump CandidateAssessment}
  {DAc : ModelDump CommandAcknowledgment}.
Context {LCo : ModelLoad PhysicalControlCommand} {LPe : ModelLoad ExecutionPermit}
  {LPr : ModelLoad ActionProposal} {LDe : ModelLoad Decision} {LAs : ModelLoad CandidateAssessment}.

Record MailboxService := mk_MailboxService {
  response_private_key : private_key;
  ms_boot_epoch : string;
  transaction_counter : Z;
  active_transaction : option Z;
  active_header : option RequestHeader;
  terminal_transaction : option Z;
}.
Definition MailboxService_init (key : private_key) (boot_epoch : string) : MailboxService :=
  mk_MailboxService key boot_epoch 0 None None None.

(** The service, what it controls, and the registers the handler is called with. *)
Abbreviation Mail := (MailboxService * (D * T * World) * list Z)%type.
Definition count_transaction (m : MailboxService) : MailboxService :=
  mk_MailboxService (response_private_key m) (ms_boot_epoch m) (transaction_counter m + 1)
    (active_transaction m) (active_header m) (terminal_transaction m).
Definition set_transaction (a : option Z) (h : option RequestHeader) (t : option Z) (m : MailboxService) :
    MailboxService :=
  mk_MailboxService (response_private_key m) (ms_boot_epoch m) (transaction_counter m) a h t.

Definition modify_service (f : MailboxService → MailboxService) : M Mail unit :=
  modify (λ s, (f s.1.1, s.1.2, s.2)).
Definition modify_registers (f : list Z → list Z) : M Mail unit := modify (λ s, (s.1, f s.2)).
Definition mail_device {A} (m : M (D * T * World) A) : M Mail A :=
  zoom (λ s, s.1.2) (λ r s, (s.1.1, r, s.2)) m.
Definition mail_plant {A} (m : M T A) : M Mail A :=
  mail_device (zoom (λ r, r.1.2) (λ t r, (r.1.1, t, r.2)) m).
Definition mail_get {A} (f : Mail → A) : M Mail A := s ← get; mret (f s).

(** ** The response *)
Definition signed_response (transaction_id : Z) (operation : WireOperation) (request_digest : string)
    (status : WireStatus) (code : WireResultCode) (payload : list (string * json)) :
    M Mail SignedWireResponse :=
  _ ← modify_service count_transaction;
  m ← mail_get (λ s, s.1.1);
  d ← mail_get (λ s, s.1.2.1.1);
  pd ← lift (canonical_digest (JObj payload));
  r ← lift (SignedWireResponse_validate
        (mk_SignedWireResponse transaction_id operation request_digest status code payload pd
           (device_id_of d) (acknowledgment_key_id_of d) (ms_boot_epoch m) (transaction_counter m) ""));
  lift (wire_signed r (response_private_key m)).

Definition response_header (r : SignedWireResponse) (payload : string) (registers : list Z)
    (state_version_hint : Z) : ResponseHeader :=
  mk_ResponseHeader (ws_status r) (ws_operation r) (ws_transaction_id r) (str_len payload)
    (Z.of_nat (length registers)) (ws_result_code r) (sha256_hex payload) (ws_counter r)
    state_version_hint.

Definition write_response (r : SignedWireResponse) (state_version_hint : Z) : M Mail unit :=
  payload ← lift (canonical_json_bytes (frame_dump r));
  payload_registers ← lift (bytes_to_registers payload);
  _ ← modify_registers clear_registers;
  header ← lift (ResponseHeader_to_registers (response_header r payload payload_registers state_version_hint));
  _ ← modify_registers (set_slice (Z.to_nat RESPONSE_HEADER_START) header);
  modify_registers (set_slice (Z.to_nat RESPONSE_PAYLOAD_START) payload_registers).

(** ** The operations *)
(** Status, result code, payload and state version. *)
Definition Outcome : Type := WireStatus * WireResultCode * list (string * json) * Z.

Definition field (kv : list (string * json)) (k : string) : json := default JNull (dict_get k kv).

Definition execution_outcome (ack : CommandAcknowledgment) (post : PhysicalStateSnapshot) : Outcome :=
  let '(status, code) :=
    match ack_status ack with
    | APPLIED => (COMPLETE, WIRE_OK)
    | REJECTED => (REJECTED_BEFORE_DISPATCH, APPLICATION_REJECTED)
    | UNKNOWN_EFFECT => (WIRE_UNKNOWN_EFFECT, APPLICATION_UNKNOWN_EFFECT)
    end in
  (status, code, [("acknowledgment", model_dump ack); ("post_state", model_dump post)], ps_state_version post).

Definition handle_application (request : WireRequest) : M Mail Outcome :=
  match wq_operation request with
  | READ_STATE =>
      if negb (bool_decide (wq_payload request = [])) then throw "ValueError" "read-state payload must be empty"
      else
        state ← mail_plant capture_state;
        mret (COMPLETE, WIRE_OK, [("state", model_dump state)], ps_state_version state)
  | SIMULATE_CANDIDATE =>
      command ← lift (model_validate (field (wq_payload request) "command"));
      assessment ← mail_plant (simulate_candidate command);
      mret (COMPLETE, WIRE_OK, [("assessment", model_dump assessment)],
            ps_state_version (pre_state assessment))
  | EXECUTE =>
      permit ← lift (model_validate (A := ExecutionPermit) (field (wq_payload request) "permit"));
      proposal ← lift (model_validate (A := ActionProposal) (field (wq_payload request) "proposal"));
      decision ← lift (model_validate (A := Decision) (field (wq_payload request) "decision"));
      assessment ← lift (model_validate (A := CandidateAssessment) (field (wq_payload request) "assessment"));
      done_ ← attempt (ack ← mail_device (device_execute permit proposal decision assessment);
                       post ← mail_plant read_plant;
                       mret (ack, post));
      match done_ with
      | Raise _ => throw "_ApplicationUnknownEffect" ""
      | Ok (ack, post) => mret (execution_outcome ack post)
      end
  | HEALTH =>
      if negb (bool_decide (wq_payload request = [])) then throw "ValueError" "health payload must be empty"
      else
        state ← mail_plant read_plant;
        m ← mail_get (λ s, s.1.1);
        d ← mail_get (λ s, s.1.2.1.1);
        mret (COMPLETE, WIRE_OK,
              [("status", JStr "ready"); ("protocol_version", JInt 1); ("model_digest", JStr (ps_model_digest state));
               ("simulator_version", JStr (ps_simulator_version state)); ("device_id", JStr (device_id_of d));
               ("device_key_id", JStr (acknowledgment_key_id_of d)); ("boot_epoch", JStr (ms_boot_epoch m));
               ("state_version", JInt (ps_state_version state))], ps_state_version state)
  end.

(** ** COMMIT *)
(** The handler's variables that its [except] clauses read. *)
Record Staging := mk_Staging {
  sg_request_digest : string;
  sg_transaction_id : Z;
  sg_operation : WireOperation;
}.
Definition on_mail {A} (m : M Mail A) : M (Mail * Staging) A := zoom fst (λ m s, (m, s.2)) m.
Definition set_staging (f : Staging → Staging) : M (Mail * Staging) unit := modify (λ s, (s.1, f s.2)).
Definition reject_unless (c : bool) (msg : string) : M (Mail * Staging) unit :=
  lift (require c "ValueError" msg).

(** The request the octets hold. *)
Definition read_request (payload : string) : result WireRequest :=
  raw ← match utf8_decode payload with
        | Some text => loads dict_of_pairs text
        | None => raise_ "UnicodeDecodeError" "invalid start byte"
        end;
  request ← match raw with JObj kv => frame_of kv | _ => invalid end;
  again ← canonical_json_bytes (frame_dump request);
  _ ← require (bool_decide (again = payload)) "ValueError" "request is not canonical JSON";
  Ok request.

Definition commit_body : M (Mail * Staging) Outcome :=
  registers ← on_mail (mail_get snd);
  active ← on_mail (mail_get (λ s, active_transaction s.1.1));
  header ← lift (RequestHeader_from_registers (firstn (Z.to_nat REQUEST_HEADER_REGISTERS) registers));
  _ ← reject_unless (bool_decide (rh_control header = BEGIN)) "staged request does not contain BEGIN";
  _ ← set_staging (λ v, mk_Staging (sg_request_digest v) (rh_transaction_id header) (rh_operation header));
  _ ← reject_unless (bool_decide (Some (rh_transaction_id header) = active))
        "commit transaction does not match active staging";
  let start := Z.to_nat REQUEST_PAYLOAD_START in
  payload ← lift (registers_to_bytes (slice start (start + Z.to_nat (rh_register_count header)) registers)
                    (rh_byte_length header));
  let digest := sha256_hex payload in
  _ ← set_staging (λ v, mk_Staging digest (sg_transaction_id v) (sg_operation v));
  _ ← reject_unless (bool_decide (digest = rh_payload_digest header)) "request payload digest mismatch";
  request ← lift (read_request payload);
  _ ← reject_unless (bool_decide (wq_transaction_id request = rh_transaction_id header)
                     && bool_decide (wq_operation request = rh_operation header))
        "request payload does not match header";
  on_mail (handle_application request).

Definition error_payload (e : exn) (reason : string) : list (string * json) :=
  [("error", JStr (exn_type e)); ("reason", JStr reason)].

(** The [except] clauses: status, result code and payload. *)
Definition failure_outcome (e : exn) (operation : WireOperation) :
    option (WireStatus * WireResultCode * list (string * json)) :=
  let unclassified := error_payload e "unclassified_server_failure" in
  if bool_decide (exn_type e = "_ApplicationUnknownEffect")
  then Some (WIRE_UNKNOWN_EFFECT, APPLICATION_UNKNOWN_EFFECT, unclassified)
  else if isinstance_exn e "ValueError"
  then Some (REJECTED_BEFORE_DISPATCH, INVALID_SCHEMA, error_payload e (exn_str e))
  else if isinstance_exn e "Exception"
  then if bool_decide (operation = EXECUTE)
       then Some (WIRE_UNKNOWN_EFFECT, APPLICATION_UNKNOWN_EFFECT, unclassified)
       else Some (REJECTED_BEFORE_DISPATCH, INTERNAL_ERROR, unclassified)
  else None.

Definition process_commit : M Mail unit := λ s,
  let '(r, (s', v)) := commit_body (s, mk_Staging (zeros 64) (default 0%Z (active_transaction s.1.1)) HEALTH) in
  (outcome ← match r with
             | Ok o => mret o
             | Raise e =>
                 match failure_outcome e (sg_operation v) with
                 | None => lift (Raise e)
                 | Some (status, code, payload) =>
                     state ← mail_plant read_plant;
                     mret (status, code, payload, ps_state_version state)
                 end
             end;
   let '(status, code, payload, version) := outcome in
   response ← signed_response (sg_transaction_id v) (sg_operation v) (sg_request_digest v) status code payload;
   write_response response version) s'.

(** ** The register handler *)
Definition as_release (h : RequestHeader) : RequestHeader :=
  mk_RequestHeader RELEASE (rh_operation h) (rh_transaction_id h) (rh_byte_length h) (rh_register_count h)
    (rh_payload_digest h).

Definition header_action (h : RequestHeader) : M Mail (option ExcCodes) := λ s,
  let m := s.1.1 in
  match rh_control h with
  | RELEASE =>
      if bool_decide (active_header m = None)
         || negb (bool_decide (terminal_transaction m = active_transaction m))
         || negb (bool_decide (Some h = as_release <$> active_header m))
      then (Ok (Some ILLEGAL_VALUE), s)
      else (Ok None, (set_transaction None None None m, s.1.2, s.2))
  | BEGIN =>
      match active_header m with
      | Some h' =>
          (Ok (if bool_decide (h = h') && bool_decide (terminal_transaction m = None)
               then None else Some DEVICE_BUSY), s)
      | None =>
          (Ok None, (set_transaction (Some (rh_transaction_id h)) (Some h) (terminal_transaction m) m, s.1.2,
                     clear_registers s.2))
      end
  | COMMIT => (Ok (Some ILLEGAL_VALUE), s)
  end.

Definition commit_action : M Mail (option ExcCodes) :=
  m ← mail_get (λ s, s.1.1);
  if bool_decide (active_transaction m = None) then mret (Some ILLEGAL_VALUE)
  else if bool_decide (terminal_transaction m = None) then
    _ ← process_commit;
    _ ← modify_service (λ m, set_transaction (active_transaction m) (active_header m) (active_transaction m) m);
    mret None
  else mret None.

(** [values[0]] *)
Definition first_value (values : list Z) : M Mail Z :=
  match values with v :: _ => mret v | [] => throw "IndexError" "list index out of range" end.

Definition control_action (count : Z) (values : list Z) : M Mail (option ExcCodes) :=
  header_write ← (if (count =? REQUEST_HEADER_REGISTERS)%Z then
                    v ← first_value values;
                    mret ((v =? enum_value BEGIN)%Z || (v =? enum_value RELEASE)%Z)
                  else mret false);
  if (header_write : bool) then
    match RequestHeader_from_registers values with
    | Raise e => if isinstance_exn e "ValueError" then mret (Some ILLEGAL_VALUE) else lift (Raise e)
    | Ok h => header_action h
    end
  else if negb (count =? 1)%Z then mret (Some ILLEGAL_VALUE)
  else
    v ← first_value values;
    if (v =? enum_value COMMIT)%Z then commit_action else mret (Some ILLEGAL_VALUE).

Definition action (start_address address count : Z) (set_values : option (list Z)) :
    M Mail (option ExcCodes) :=
  match set_values with
  | None => mret None
  | Some values =>
      if negb (start_address =? 0)%Z then mret (Some ILLEGAL_VALUE)
      else if (RESPONSE_HEADER_START <=? address)%Z then mret (Some ILLEGAL_ADDRESS)
      else if (address =? 0)%Z then control_action count values
      else
        m ← mail_get (λ s, s.1.1);
        if bool_decide (active_transaction m = None) || negb (bool_decide (terminal_transaction m = None))
           || (address <? REQUEST_PAYLOAD_START)%Z || (REQUEST_PAYLOAD_START + 4096 <? address + count)%Z
        then mret (Some ILLEGAL_ADDRESS) else mret None
  end.

(** ** The protocol the handler implements *)
Inductive protocol := Idle | Staged (h : RequestHeader) | Answered (h : RequestHeader).
Definition phase (m : MailboxService) : protocol :=
  match active_header m with
  | None => Idle
  | Some h => if bool_decide (terminal_transaction m = None) then Staged h else Answered h
  end.

(** The three fields move together. *)
Record service_wf (m : MailboxService) : Prop := {
  wf_active : active_transaction m = rh_transaction_id <$> active_header m;
  wf_begin : ∀ h, active_header m = Some h → rh_control h = BEGIN;
  wf_terminal : terminal_transaction m = None ∨ terminal_transaction m = active_transaction m;
}.

(** One call of the handler, as it acts on the protocol. *)
Inductive protocol_step : Mail → result (option ExcCodes) → Mail → Prop :=
  | step_quiet s r : protocol_step s r s
  | step_begin s h s' :
      phase s.1.1 = Idle → phase s'.1.1 = Staged h → s'.1.2 = s.1.2 → s'.2 = clear_registers s.2 →
      protocol_step s (Ok None) s'
  | step_answer s h s' :
      phase s.1.1 = Staged h → phase s'.1.1 = Answered h → protocol_step s (Ok None) s'
  | step_unanswered s h e s' :
      phase s.1.1 = Staged h → phase s'.1.1 = Staged h → protocol_step s (Raise e) s'
  | step_release s h s' :
      phase s.1.1 = Answered h → phase s'.1.1 = Idle → s'.1.2 = s.1.2 → s'.2 = s.2 →
      protocol_step s (Ok None) s'.

(** Processing a COMMIT leaves the transaction's fields alone. *)
Definition same_transaction (s s' : Mail) : Prop :=
  active_transaction s'.1.1 = active_transaction s.1.1 ∧ active_header s'.1.1 = active_header s.1.1
  ∧ terminal_transaction s'.1.1 = terminal_transaction s.1.1.
#[local] Instance same_transaction_preorder : PreOrder same_transaction.
Proof using Type. split; [done|]. intros a b c (?&?&?) (?&?&?). split_and!; congruence. Qed.
Definition same_staged (s s' : Mail * Staging) : Prop := same_transaction s.1 s'.1.
#[local] Instance same_staged_preorder : PreOrder same_staged.
Proof using Type. split; [intros a; unfold same_staged; reflexivity|]. intros a b c. unfold same_staged. intros H1 H2. by etrans. Qed.

Lemma same_count : preserves same_transaction (modify_service count_transaction).
Proof using Type. done. Qed.
Lemma same_registers f : preserves same_transaction (modify_registers f).
Proof using Type. done. Qed.
Lemma same_device {A} (m : M (D * T * World) A) : preserves same_transaction (mail_device m).
Proof using Type. intros s. unfold mail_device, zoom. by destruct (m _). Qed.
Lemma same_plant {A} (m : M T A) : preserves same_transaction (mail_plant m).
Proof using Type. apply same_device. Qed.
Lemma same_mail_get {A} (f : Mail → A) : preserves same_transaction (mail_get f).
Proof using Type. done. Qed.
Lemma same_set_staging f : preserves same_staged (set_staging f).
Proof using Type. intros s. unfold set_staging, same_staged. simpl. reflexivity. Qed.
Lemma same_on_mail {A} (m : M Mail A) : preserves same_transaction m → preserves same_staged (on_mail m).
Proof using Type. intros Hm. eapply preserves_zoom; [exact Hm|]. done. Qed.
#[local] Hint Resolve same_count same_registers same_device same_plant same_mail_get same_set_staging
  same_on_mail : frames.

Lemma same_handle request : preserves same_transaction (handle_application request).
Proof using Type. unfold handle_application. frame. Qed.
#[local] Hint Resolve same_handle : frames.
Lemma same_body : preserves same_staged commit_body.
Proof using Type. unfold commit_body, reject_unless. frame. Qed.
Lemma same_commit : preserves same_transaction process_commit.
Proof using Type.
  intros s. unfold process_commit. pose proof (same_body (s, mk_Staging (zeros 64) (default 0%Z (active_transaction s.1.1)) HEALTH)) as Hb.
  destruct (commit_body _) as [r [s1 v]]. unfold same_staged in Hb. simpl in Hb. etrans; [exact Hb|].
  match goal with |- same_transaction _ (?m s1).2 => assert (Hm : preserves same_transaction m); [|apply Hm] end.
  unfold signed_response, write_response. frame.
Qed.

Lemma phase_same (m m' : MailboxService) :
  active_header m' = active_header m → terminal_transaction m' = terminal_transaction m → phase m' = phase m.
Proof using Type. intros H1 H2. unfold phase. by rewrite H1, H2. Qed.
Lemma same_transaction_wf s s' : same_transaction s s' → service_wf s.1.1 → service_wf s'.1.1.
Proof using Type. intros (H1 & H2 & H3) [? ? ?]. split; rewrite ?H1, ?H2, ?H3; done. Qed.

Lemma header_action_step h s r s' :
  service_wf s.1.1 → header_action h s = (r, s') → service_wf s'.1.1 ∧ protocol_step s r s'.
Proof using Type.
  intros Hwf. unfold header_action. destruct (rh_control h) eqn:Hc.
  - destruct (active_header s.1.1) as [h'|] eqn:Hh; intros [= <- <-]; [split; [done|apply step_quiet]|].
    destruct Hwf as [Ha _ Ht]. rewrite Hh in Ha. simpl in Ha. assert (terminal_transaction s.1.1 = None) as Hn by (destruct Ht; congruence).
    split; [split; simpl; [done|by intros ? [= <-]|by left]|].
    apply (step_begin _ h); unfold phase; simpl; rewrite ?Hh, ?Hn; done.
  - intros [= <- <-]. split; [done|apply step_quiet].
  - destruct (_ || _) eqn:E; intros [= <- <-]; [split; [done|apply step_quiet]|]. bool_split.
    split; [split; simpl; [done|done|by left]|].
    destruct (active_header s.1.1) as [h'|] eqn:Hh; [|done]. destruct Hwf as [Ha _ _]. rewrite Hh in Ha. simpl in Ha.
    apply (step_release _ h'); unfold phase; simpl; rewrite ?Hh; try done.
    rewrite bool_decide_eq_false_2; [done|congruence].
Qed.

Lemma commit_action_step s r s' :
  service_wf s.1.1 → commit_action s = (r, s') → service_wf s'.1.1 ∧ protocol_step s r s'.
Proof using Type.
  intros Hwf H. apply M_bind_case in H as [(e & -> & [=])|(m & s1 & [= <- <-] & H)].
  case_bool_decide as Ha; [injection H as <- <-; split; [done|apply step_quiet]|].
  case_bool_decide as Ht; [|injection H as <- <-; split; [done|apply step_quiet]].
  pose proof (same_commit s) as Hs. pose proof Hwf as [Hact Hbeg Hter].
  destruct (active_header s.1.1) as [h|] eqn:Hh; [|simpl in Hact; congruence].
  assert (Hph : phase s.1.1 = Staged h) by (unfold phase; by rewrite Hh, bool_decide_eq_true_2).
  apply M_bind_case in H as [(e & -> & H)|([] & s1 & Hp & H)].
  - rewrite H in Hs. split; [by apply (same_transaction_wf s)|]. destruct Hs as (_ & H2 & H3). simpl in H2, H3.
    apply (step_unanswered _ h); [done|]. rewrite <- Hph. apply phase_same; congruence.
  - rewrite Hp in Hs. destruct Hs as (H1 & H2 & H3). simpl in H1, H2, H3.
    injection H as <- <-. split.
    + split; simpl; [congruence|intros h'; rewrite H2, Hh; apply Hbeg|by right].
    + apply (step_answer _ h); [done|]. unfold phase; simpl. rewrite H2, Hh, bool_decide_eq_false_2; congruence.
Qed.

Lemma action_step start address count values s r s' :
  service_wf s.1.1 → action start address count values s = (r, s') →
  service_wf s'.1.1 ∧ protocol_step s r s'.
Proof using Type.
  intros Hwf. assert (Hq : ∀ r0 (s0 : Mail), (r0, s) = (r, s0) → service_wf s0.1.1 ∧ protocol_step s r s0)
    by (intros r0 s0 [= -> <-]; split; [done|apply step_quiet]).
  unfold action. destruct values as [values|]; [|apply Hq]. destruct (negb _); [apply Hq|]. destruct (_ <=? address)%Z; [apply Hq|].
  destruct (address =? 0)%Z.
  - intros H. unfold control_action in H.
    apply M_bind_case in H as [(e & -> & H)|(b & s1 & Hb & H)].
    { destruct (count =? _)%Z; [|done]. destruct values; [|done]. injection H as <- <-. split; [done|apply step_quiet]. }
    assert (s1 = s) as ->.
    { destruct (count =? _)%Z; [|by injection Hb]. destruct values; [done|]. by injection Hb. }
    destruct b.
    + destruct (RequestHeader_from_registers values) as [h|e]; [by apply header_action_step in H|].
      destruct (isinstance_exn e _); by apply (Hq _ _ H).
    + destruct (negb _); [by apply (Hq _ _ H)|].
      apply M_bind_case in H as [(e & -> & H)|(v & s1 & Hv & H)].
      { destruct values; [|done]. injection H as <- <-. split; [done|apply step_quiet]. }
      assert (s1 = s) as -> by (destruct values; [done|by injection Hv]).
      destruct (v =? _)%Z; [by apply commit_action_step|by apply (Hq _ _ H)].
  - intros H. apply M_bind_case in H as [(e & -> & [=])|(m & s1 & [= <- <-] & H)].
    destruct (_ || _); by apply (Hq _ _ H).
Qed.

(** C36 Every call of the register handler, in whatever state of its registers,
    device and plant, is a step of the protocol idle, staged, answered: BEGIN
    stages a transaction and clears the response, COMMIT answers it, RELEASE ends
    it, and every other call, a repeated COMMIT among them, changes nothing. *)
Theorem mailbox_refines_protocol start address count values s r s' :
  service_wf s.1.1 → action start address count values s = (r, s') →
  service_wf s'.1.1 ∧ protocol_step s r s'.
Proof using Type. apply action_step. Qed.

(** ** Runs of calls *)
Record mail_call := mk_call { before : Mail; answer : result (option ExcCodes); after : Mail }.
(** Between two calls the server stores registers and the plant may move. *)
Inductive mail_run : MailboxService → list mail_call → MailboxService → Prop :=
  | mail_run_nil m : mail_run m [] m
  | mail_run_cons start address count values s r s' cs m' :
      action start address count values s = (r, s') → mail_run s'.1.1 cs m' →
      mail_run s.1.1 (mk_call s r s' :: cs) m'.

(** The call changed the device, the plant or consumed clock or identifiers. *)
Definition reached (c : mail_call) : Prop := (after c).1.2 ≠ (before c).1.2.
Definition released (c : mail_call) : bool :=
  match phase (before c).1.1, phase (after c).1.1 with Answered _, Idle => true | _, _ => false end.

Lemma reached_staged s r s' :
  protocol_step s r s' → s'.1.2 ≠ s.1.2 → ∃ h, phase s.1.1 = Staged h ∧ (is_Ok r = true → phase s'.1.1 = Answered h).
Proof using Type. destruct 1 as [| |s h s' H1 H2|s h e s' H1 H2|]; try done; intros _; exists h; done. Qed.

Lemma mail_run_app m cs1 cs2 m' :
  mail_run m (cs1 ++ cs2) m' → ∃ m1, mail_run m cs1 m1 ∧ mail_run m1 cs2 m'.
Proof using Type.
  revert m. induction cs1 as [|c cs1 IH]; intros m H.
  - exists m. split; [constructor|done].
  - inversion H as [|? ? ? ? ? ? ? ? ? Ha Hr]; subst. apply IH in Hr as (m1 & H1 & H2).
    exists m1. split; [by econstructor|done].
Qed.

Lemma answered_until_released m cs m' h :
  mail_run m cs m' → service_wf m → phase m = Answered h → forallb (λ c, negb (released c)) cs = true →
  service_wf m' ∧ phase m' = Answered h.
Proof using Type.
  intros Hrun. revert h. induction Hrun as [m|st ad co va s r s' cs m' Ha _ IH]; intros h Hwf Hp Hf; [done|].
  simpl in Hf. apply andb_true_iff in Hf as [Hn Hf]. apply action_step in Ha as [Hwf' Hs]; [|done].
  apply IH; [done| |done]. unfold released in Hn. simpl in Hn. rewrite Hp in Hn.
  inversion Hs as [| | |? ? ? ? ? H2|? ? ? ? H2]; subst; try congruence. by rewrite H2 in Hn.
Qed.

(** A transaction is carried out at most once: over any run of calls, the
    device and the plant are reached only while a transaction is staged, and
    between a COMMIT that reached them and returned and the next call that
    reaches them the answered transaction was released. *)
Theorem answered_at_most_once m l1 c1 l2 c2 l3 m' :
  mail_run m (l1 ++ c1 :: l2 ++ c2 :: l3) m' → service_wf m →
  is_Ok (answer c1) = true → reached c1 → reached c2 →
  (∃ h, phase (before c1).1.1 = Staged h) ∧ existsb released l2 = true.
Proof using Type.
  intros Hrun Hwf Hok H1 H2. apply mail_run_app in Hrun as (m1 & Hr1 & Hrun).
  assert (Hwf1 : service_wf m1).
  { clear -Hr1 Hwf. induction Hr1 as [|? ? ? ? ? ? ? ? ? Ha _ IH]; [done|]. apply IH. by apply action_step in Ha as [? _]. }
  inversion Hrun as [|? ? ? ? s r s' ? ? Ha Hr]; subst. apply action_step in Ha as [Hwf' Hs]; [|done].
  destruct (reached_staged _ _ _ Hs H1) as (h & Hh & Hans). split; [by exists h|]. specialize (Hans Hok).
  destruct (existsb released l2) eqn:Hne; [done|]. exfalso.
  apply mail_run_app in Hr as (m2 & Hr2 & Hr). apply (answered_until_released _ _ _ h) in Hr2 as [Hwf2 Hp2]; [|done..|].
  - inversion Hr as [|? ? ? ? s2 r2 s2' ? ? Ha2 _]; subst. apply action_step in Ha2 as [_ Hs2]; [|done].
    destruct (reached_staged _ _ _ Hs2 H2) as (h2 & Hh2 & _). congruence.
  - clear -Hne. induction l2 as [|c l2 IH]; [done|]. simpl in *. apply orb_false_iff in Hne as [-> ?]. by apply IH.
Qed.
End mailbox.
