(* ===== verification/ModbusClient.v ===== *)
(** * The mailbox client ([src/src/aegis_ot/modbus_device.py],
    [ModbusPhysicalDeviceClient])

    One request stages, commits, reads the signed response, verifies it and
    releases.  The Modbus client is the [pymodbus] package's: its three calls are
    the class [ModbusTransport], whatever the other end does. *)
From S2P Require Import Prelude PyFloat PyStr PyTime PyJson Sha256 Crypto Models PyModel.
From S2P Require Import PhysicalModels PhysicalControl ModbusWire ModbusMessages ModbusMailbox.

(** What a call answers: nothing, an error response, or registers (a write's
    response carries none). *)
Inductive Reply := NoReply | ErrorReply | Registers (l : list Z).
Class ModbusTransport (C : Type) := {
  write_registers : Z → list Z → M C Reply;
  write_register : Z → Z → M C Reply;
  read_holding_registers : Z → Z → M C Reply;
}.

Record ModbusDeviceInfo := mk_ModbusDeviceInfo {
  mi_host : string;
  mi_port : Z;
  mi_pid : Z;
  mi_boot_epoch : string;
  mi_audience : string;
  mi_device_id : string;
  mi_device_key_id : string;
  mi_device_public_key_b64 : string;
  mi_model_digest : string;
  mi_simulator_version : string;
  mi_protocol_version : Z;
}.

Section client.
Context {ED : Ed25519}.
Context {C : Type} {MT : ModbusTransport C}.
Context {DCo : ModelDump PhysicalControlCommand} {DAs : ModelDump CandidateAssessment}
  {DPe : ModelDump ExecutionPermit} {DPr : ModelDump ActionProposal} {DDe : ModelDump Decision}.
Context {LSt : ModelLoad PhysicalStateSnapshot} {LAs : ModelLoad CandidateAssessment}
  {LAc : ModelLoad CommandAcknowledgment}.

Record ModbusClient := mk_ModbusClient {
  mc_info : ModbusDeviceInfo;
  mc_public_key : public_key;
  mc_transaction_id : Z;
  last_device_counter : Z;
}.
Abbreviation ClientState := (ModbusClient * C)%type.
Definition next_transaction (c : ModbusClient) : ModbusClient :=
  mk_ModbusClient (mc_info c) (mc_public_key c) (mc_transaction_id c + 1) (last_device_counter c).
Definition set_last_counter (n : Z) (c : ModbusClient) : ModbusClient :=
  mk_ModbusClient (mc_info c) (mc_public_key c) (mc_transaction_id c) n.

Definition on_wire {A} (m : M C A) : M ClientState A := zoom snd (λ c s, (s.1, c)) m.

Definition transport_error {S A} (msg : string) : M S A := throw "ModbusTransportError" msg.
Definition protocol_error {S A} (msg : string) : M S A := throw "ModbusProtocolError" msg.

Definition require_success (r : Reply) (operation : string) : result (list Z) :=
  match r with
  | Registers l => Ok l
  | _ => raise_ "ModbusTransportError" ("Modbus " +:+ operation +:+ " failed")
  end.
Definition write_all (address : Z) (values : list Z) : M ClientState unit :=
  r ← on_wire (write_registers address values);
  _ ← lift (require_success r "write-multiple-registers");
  mret tt.

(** [range(0, len(l), WRITE_CHUNK_REGISTERS)] with the slices; the fuel bounds the
    number of chunks. *)
Fixpoint write_chunks (fuel : nat) (offset : Z) (l : list Z) : M ClientState unit :=
  match fuel, l with
  | S fuel, _ :: _ =>
      _ ← write_all (REQUEST_PAYLOAD_START + offset) (firstn (Z.to_nat WRITE_CHUNK_REGISTERS) l);
      write_chunks fuel (offset + WRITE_CHUNK_REGISTERS) (skipn (Z.to_nat WRITE_CHUNK_REGISTERS) l)
  | _, _ => mret tt
  end.

(** [while offset < count]; the fuel bounds the number of chunks. *)
Fixpoint read_chunks (fuel : nat) (address offset count : Z) : M ClientState (list Z) :=
  match fuel with
  | S fuel =>
      if (offset <? count)%Z then
        let n := Z.min READ_CHUNK_REGISTERS (count - offset) in
        r ← on_wire (read_holding_registers (address + offset) n);
        values ← lift (require_success r "read-holding-registers");
        rest ← read_chunks fuel address (offset + n) count;
        mret (values ++ rest)
      else mret []
  | O => mret []
  end.
Definition read_registers (address count : Z) : M ClientState (list Z) :=
  read_chunks (Z.to_nat count) address 0 count.

Definition release (h : RequestHeader) : M ClientState unit :=
  _ ← attempt (registers ← lift (RequestHeader_to_registers (as_release h));
               on_wire (write_registers 0 registers));
  mret tt.

(** ** Checking a response *)
Definition attribute_error {A} : result A := raise_ "AttributeError" "object has no attribute 'get'".
(** [value.get(key, {})] and the final [.get("state_version")], [None] as [JNull]. *)
Definition get_or_empty (j : json) (k : string) : result json :=
  match j with JObj kv => Ok (default (JObj []) (dict_get k kv)) | _ => attribute_error end.
Definition get_version (j : json) : result json :=
  match j with JObj kv => Ok (field kv "state_version") | _ => attribute_error end.

Definition reported_version (operation : WireOperation) (payload : list (string * json)) : result json :=
  match operation with
  | HEALTH => get_version (JObj payload)
  | READ_STATE => s ← get_or_empty (JObj payload) "state"; get_version s
  | SIMULATE_CANDIDATE =>
      a ← get_or_empty (JObj payload) "assessment"; p ← get_or_empty a "pre_state"; get_version p
  | EXECUTE => s ← get_or_empty (JObj payload) "post_state"; get_version s
  end.

(** [version == hint] for an integer [hint]. *)
Definition same_version (version : json) (hint : Z) : bool :=
  match version with
  | JInt n => (n =? hint)%Z
  | JBool b => ((if b then 1 else 0) =? hint)%Z
  | JFloat f => feqb f (f_of_Z hint)
  | _ => false
  end.

Definition read_response (payload : string) : result SignedWireResponse :=
  raw ← match utf8_decode payload with
        | Some text => loads dict_of_pairs text
        | None => raise_ "UnicodeDecodeError" "invalid start byte"
        end;
  response ← match raw with JObj kv => frame_of kv | _ => invalid end;
  again ← canonical_json_bytes (frame_dump response);
  if bool_decide (again = payload) then Ok response
  else raise_ "ModbusProtocolError" "response is not canonical JSON".

Definition check_response (c : ModbusClient) (tid : Z) (operation : WireOperation) (request : string)
    (header : ResponseHeader) (r : SignedWireResponse) : result unit :=
  let matches :=
    (ws_transaction_id r =? tid)%Z && bool_decide (ws_operation r = operation)
    && bool_decide (ws_request_digest r = sha256_hex request)
    && bool_decide (ws_device_id r = mi_device_id (mc_info c))
    && bool_decide (ws_device_key_id r = mi_device_key_id (mc_info c))
    && bool_decide (ws_boot_epoch r = mi_boot_epoch (mc_info c)) in
  verified ← (if matches then wire_verify r (mc_public_key c) else Ok false);
  _ ← require verified "ModbusProtocolError" "signed response correlation or integrity failed";
  _ ← require (bool_decide (ws_status r = sh_status header)
               && bool_decide (ws_result_code r = sh_result_code header)
               && (ws_counter r =? sh_counter header)%Z)
      "ModbusProtocolError" "signed response does not match response header";
  _ ← require (last_device_counter c <? ws_counter r)%Z
      "ModbusProtocolError" "signed response transaction counter did not advance";
  version ← reported_version operation (ws_payload r);
  require (same_version version (sh_state_version_hint header))
    "ModbusProtocolError" "response state-version hint is inconsistent".

(** ** One request *)
(** The variables [commit_sent] and [response_verified]. *)
Abbreviation Attempt := (ClientState * (bool * bool))%type.
Definition on_client {A} (m : M ClientState A) : M Attempt A := zoom fst (λ s x, (s, x.2)) m.
Definition mark_commit_sent : M Attempt unit := modify (λ x, (x.1, (true, x.2.2))).
Definition mark_verified : M Attempt unit := modify (λ x, (x.1, (x.2.1, true))).
Definition modify_client (f : ModbusClient → ModbusClient) : M ClientState unit :=
  modify (λ s, (f s.1, s.2)).

Definition receive (tid : Z) (operation : WireOperation) (request : string) :
    M ClientState (ResponseHeader * SignedWireResponse) :=
  raw_header ← read_registers RESPONSE_HEADER_START RESPONSE_HEADER_REGISTERS;
  header ← lift (ResponseHeader_from_registers raw_header);
  _ ← lift (require ((sh_transaction_id header =? tid)%Z && bool_decide (sh_operation header = operation))
              "ModbusProtocolError" "response header transaction correlation failed");
  registers ← read_registers RESPONSE_PAYLOAD_START (sh_register_count header);
  octets ← lift (registers_to_bytes registers (sh_byte_length header));
  _ ← lift (require (bool_decide (sha256_hex octets = sh_payload_digest header))
              "ModbusProtocolError" "response mailbox digest mismatch");
  response ← lift (read_response octets);
  s ← get;
  _ ← lift (check_response s.1 tid operation request header response);
  mret (header, response).

Definition exchange (header : RequestHeader) (request : string) (registers : list Z) :
    M Attempt SignedWireResponse :=
  _ ← on_client (r ← lift (RequestHeader_to_registers header); write_all 0 r);
  _ ← on_client (write_chunks (length registers) 0 registers);
  commit ← on_client (on_wire (write_register 0 (enum_value COMMIT)));
  _ ← mark_commit_sent;
  _ ← lift (require_success commit "commit");
  '(_, response) ← on_client (receive (rh_transaction_id header) (rh_operation header) request);
  _ ← on_client (modify_client (set_last_counter (ws_counter response)));
  _ ← mark_verified;
  mret response.

(** The [except] clauses. *)
Definition failure (operation : WireOperation) (commit_sent : bool) (e : exn) : exn :=
  let unknown := mk_exn "ModbusUnknownEffectError" "execute failed after commit; automatic retry is prohibited" in
  let consequential := commit_sent && bool_decide (operation = EXECUTE) in
  if isinstance_exn e "ModbusTransportError" || isinstance_exn e "ModbusProtocolError"
  then if consequential then unknown else e
  else if isinstance_exn e "Exception"
  then if consequential then unknown else mk_exn "ModbusTransportError" "Modbus mailbox transaction failed"
  else e.

(** The [try] statement with its [finally]. *)
Definition guarded_exchange (header : RequestHeader) (octets : string) (registers : list Z) :
    M ClientState SignedWireResponse := λ s,
  let '(r, (s', (commit_sent, verified))) := exchange header octets registers (s, (false, false)) in
  let r' := match r with Ok v => Ok v | Raise e => Raise (failure (rh_operation header) commit_sent e) end in
  if verified || negb (commit_sent && bool_decide (rh_operation header = EXECUTE))
  then match release header s' with (Ok _, s'') => (r', s'') | (Raise e, s'') => (Raise e, s'') end
  else (r', s').

Definition request_header (q : WireRequest) (octets : string) (registers : list Z) : RequestHeader :=
  mk_RequestHeader BEGIN (wq_operation q) (wq_transaction_id q) (str_len octets)
    (Z.of_nat (length registers)) (sha256_hex octets).

Definition request (operation : WireOperation) (payload : list (string * json)) :
    M ClientState SignedWireResponse :=
  _ ← modify_client next_transaction;
  s ← get;
  q ← lift (WireRequest_validate (mk_WireRequest (mc_transaction_id s.1) operation payload));
  octets ← lift (canonical_json_bytes (frame_dump q));
  _ ← lift (require (str_len octets <=? MAX_PAYLOAD_BYTES)%Z
              "ModbusTransportError" "request exceeds the Modbus mailbox capacity");
  registers ← lift (bytes_to_registers octets);
  guarded_exchange (request_header q octets registers) octets registers.

(** ** The device's interfaces *)
Definition health : M ClientState (list (string * json)) :=
  r ← request HEALTH [];
  if bool_decide (ws_status r = COMPLETE) then mret (ws_payload r)
  else protocol_error "health request failed".
Definition client_read_state : M ClientState PhysicalStateSnapshot :=
  r ← request READ_STATE [];
  if bool_decide (ws_status r = COMPLETE) then lift (model_validate (field (ws_payload r) "state"))
  else protocol_error "state request failed".
Definition client_capture_state : M ClientState PhysicalStateSnapshot := client_read_state.
Definition client_simulate_candidate (command : PhysicalControlCommand) : M ClientState CandidateAssessment :=
  r ← request SIMULATE_CANDIDATE [("command", model_dump command)];
  if bool_decide (ws_status r = COMPLETE) then lift (model_validate (field (ws_payload r) "assessment"))
  else protocol_error "candidate request failed".
Definition client_execute (permit : ExecutionPermit) (proposal : ActionProposal) (decision : Decision)
    (assessment : CandidateAssessment) : M ClientState CommandAcknowledgment :=
  r ← request EXECUTE [("permit", model_dump permit); ("proposal", model_dump proposal);
                       ("decision", model_dump decision); ("assessment", model_dump assessment)];
  if negb (bool_decide (ws_status r ∈ [COMPLETE; REJECTED_BEFORE_DISPATCH; WIRE_UNKNOWN_EFFECT]))
  then protocol_error "execution response is incomplete"
  else if bool_decide (ws_status r = WIRE_UNKNOWN_EFFECT)
          && negb (bool_decide (is_Some (dict_get "acknowledgment" (ws_payload r))))
  then throw "ModbusUnknownEffectError" "device returned an unclassified execution outcome"
  else lift (model_validate (field (ws_payload r) "acknowledgment")).
End client.

(** ** A response that is believed *)
Section believed.
Context {ED : Ed25519}.
Context {C : Type} {MT : ModbusTransport C}.
Abbreviation ClientState := (ModbusClient * C)%type.

(** What the checks establish of a response. *)
Record believable (c : ModbusClient) (tid : Z) (operation : WireOperation) (octets : string)
    (r : SignedWireResponse) : Prop := {
  bl_transaction : ws_transaction_id r = tid;
  bl_operation : ws_operation r = operation;
  bl_request : ws_request_digest r = sha256_hex octets;
  bl_device : ws_device_id r = mi_device_id (mc_info c) ∧ ws_device_key_id r = mi_device_key_id (mc_info c)
              ∧ ws_boot_epoch r = mi_boot_epoch (mc_info c);
  bl_signed : wire_verify r (mc_public_key c) = Ok true;
  bl_counter : (last_device_counter c < ws_counter r)%Z;
  bl_valid : SignedWireResponse_validate r = Ok r;
}.

Lemma wire_response_of_valid kv r : wire_response_of kv = Ok r → SignedWireResponse_validate r = Ok r.
Proof using Type.
  unfold wire_response_of. intros H. do 14 (apply result_bind_Ok in H as (? & _ & H)).
  pose proof H as H'. unfold SignedWireResponse_validate in H. inv_ok. exact H'.
Qed.
Lemma read_response_valid octets r : read_response octets = Ok r → SignedWireResponse_validate r = Ok r.
Proof using Type.
  unfold read_response. intros H. apply result_bind_Ok in H as (raw & _ & H).
  apply result_bind_Ok in H as (r' & Hr & H). apply result_bind_Ok in H as (again & _ & H).
  case_bool_decide; [|done]. injection H as ->. destruct raw; try done. by apply (wire_response_of_valid kv).
Qed.

Lemma check_response_Ok c tid operation octets header r u :
  check_response c tid operation octets header r = Ok u → SignedWireResponse_validate r = Ok r →
  believable c tid operation octets r.
Proof using Type.
  unfold check_response. intros H Hv. apply result_bind_Ok in H as (v & Hm & H).
  apply require_bind in H as [-> H]. apply require_bind in H as [_ H]. apply require_bind in H as [Hc _].
  destruct (_ && _) eqn:E in Hm; [|discriminate Hm]. bool_split. by split.
Qed.

(** Reads and writes leave the client's own fields alone. *)
Definition same_client (s s' : ClientState) : Prop := s'.1 = s.1.
#[local] Instance same_client_preorder : PreOrder same_client.
Proof using Type. split; [done|]. intros a b c. unfold same_client. congruence. Qed.
Lemma same_client_wire {A} (m : M C A) : preserves same_client (on_wire m).
Proof using Type. intros s. unfold on_wire, zoom. by destruct (m _). Qed.
#[local] Hint Resolve same_client_wire : frames.
Lemma same_client_write_all a l : preserves same_client (write_all a l).
Proof using Type. unfold write_all. frame. Qed.
#[local] Hint Resolve same_client_write_all : frames.
Lemma same_client_chunks n o l : preserves same_client (write_chunks n o l).
Proof using Type. revert o l. induction n as [|n IH]; intros o [|v l]; cbn [write_chunks]; frame. Qed.
Lemma same_client_read_chunks n a o k : preserves same_client (read_chunks n a o k).
Proof using Type. revert o. induction n as [|n IH]; intros o; cbn [read_chunks]; frame. Qed.
#[local] Hint Resolve same_client_chunks same_client_read_chunks : frames.
Lemma same_client_receive tid operation octets : preserves same_client (receive tid operation octets).
Proof using Type. unfold receive, read_registers. frame. Qed.
Lemma same_client_release h : preserves same_client (release h).
Proof using Type. unfold release. frame. Qed.

Lemma receive_Ok tid operation octets s h r s' :
  receive tid operation octets s = (Ok (h, r), s') → believable s.1 tid operation octets r ∧ s'.1 = s.1.
Proof using Type.
  intros H. pose proof (same_client_receive tid operation octets s) as Hsame. rewrite H in Hsame.
  split; [|exact Hsame]. unfold same_client in Hsame. simpl in Hsame. rewrite <- Hsame.
  unfold receive in H. apply M_bind_Ok in H as (rh & s1 & _ & H). apply M_bind_Ok in H as (h0 & s2 & _ & H).
  apply M_bind_Ok in H as ([] & s3 & _ & H). apply M_bind_Ok in H as (rp & s4 & _ & H).
  apply M_bind_Ok in H as (o & s5 & _ & H). apply M_bind_Ok in H as ([] & s6 & _ & H).
  apply M_bind_Ok in H as (r0 & s7 & [Hr ->]%lift_Ok & H). apply M_bind_Ok in H as (s8 & s9 & [= <- <-] & H).
  apply M_bind_Ok in H as (u & s10 & [Hc ->]%lift_Ok & [= <- <- <-]).
  apply (check_response_Ok _ _ _ _ h0 _ u); [done|]. by apply (read_response_valid o).
Qed.

Lemma exchange_Ok header octets registers s r s' flags :
  exchange header octets registers (s, (false, false)) = (Ok r, (s', flags)) →
  flags = (true, true) ∧ believable s.1 (rh_transaction_id header) (rh_operation header) octets r
  ∧ s'.1 = set_last_counter (ws_counter r) s.1.
Proof using Type.
  unfold exchange. intros H.
  apply M_bind_Ok in H as ([] & x1 & H1 & H). apply zoom_run in H1 as (c1 & H1 & ->).
  assert (E1 : same_client s c1).
  { apply (preserves_run same_client _ _ _ _) in H1; [exact H1|]. frame. }
  apply M_bind_Ok in H as ([] & x2 & H2 & H). apply zoom_run in H2 as (c2 & H2 & ->).
  apply (preserves_run same_client _ _ _ _ (same_client_chunks _ _ _)) in H2.
  apply M_bind_Ok in H as (commit & x3 & H3 & H). apply zoom_run in H3 as (c3 & H3 & ->).
  apply (preserves_run same_client _ _ _ _ (same_client_wire _)) in H3.
  apply M_bind_Ok in H as ([] & x4 & [= <-] & H). apply M_bind_Ok in H as (l & x5 & [_ ->]%lift_Ok & H).
  apply M_bind_Ok in H as ([h0 r0] & x6 & H6 & H). apply zoom_run in H6 as (c6 & H6 & ->).
  apply receive_Ok in H6 as [Hb H6]. cbn in Hb, H6, H. injection H as <- <- <-. unfold same_client in *. simpl in *.
  split; [done|]. assert (E : c3.1 = s.1) by congruence. rewrite E in Hb. split; [done|]. by rewrite H6, E.
Qed.

(** A response the client returns is the device's answer to exactly the octets
    it sent: it is signed under the device's key, names the transaction, the
    operation, the digest of the request and the expected device, key and boot
    epoch, and its counter is later than every response believed before. *)
Theorem request_believable operation payload (s : ClientState) r s' :
  request operation payload s = (Ok r, s') →
  ∃ q octets, q = mk_WireRequest (mc_transaction_id s.1 + 1) operation payload
    ∧ canonical_json_bytes (frame_dump q) = Ok octets
    ∧ believable (next_transaction s.1) (wq_transaction_id q) operation octets r
    ∧ s'.1 = set_last_counter (ws_counter r) (next_transaction s.1).
Proof using Type.
  unfold request. intros H. apply M_bind_Ok in H as ([] & s1 & [= <-] & H).
  apply M_bind_Ok in H as (s2 & s3 & [= <- <-] & H). apply M_bind_Ok in H as (q & s4 & [Hq ->]%lift_Ok & H).
  apply M_bind_Ok in H as (octets & s5 & [Ho ->]%lift_Ok & H). apply M_bind_Ok in H as ([] & s6 & [_ ->]%lift_Ok & H).
  apply M_bind_Ok in H as (registers & s7 & [_ ->]%lift_Ok & H).
  unfold WireRequest_validate in Hq. apply require_bind in Hq as [_ Hq%Ok_inj]. subst q.
  eexists _, octets. split; [reflexivity|]. split; [exact Ho|]. unfold guarded_exchange in H.
  destruct (exchange _ _ _ _) as [[v|e] [s8 [sent verified]]] eqn:Hx; cycle 1.
  { destruct (_ || _); [destruct (release _ _) as [[]]|]; discriminate H. }
  apply exchange_Ok in Hx as ([= -> ->] & Hb & Hs). cbn [orb] in H.
  pose proof (same_client_release (request_header (mk_WireRequest (mc_transaction_id s.1 + 1) operation payload) octets registers) s8) as Hr.
  destruct (release _ s8) as [[u|e] s9]; [|discriminate H]. injection H as <- <-.
  unfold same_client in Hr. simpl in Hr. split; [exact Hb|]. rewrite Hr. exact Hs.
Qed.
End believed.

(** ** What a failed execution reports

    A transport that also logs what was written through it; of a single-register
    write, also whether the call returned or raised. *)
Inductive WireEvent := WroteRegisters (address : Z) (values : list Z) | WroteRegister (address value : Z) (returned : bool).
#[export] Instance logged_transport {C} `{ModbusTransport C} : ModbusTransport (C * list WireEvent) := {|
  write_registers a vs s :=
    let '(r, c) := write_registers a vs s.1 in (r, (c, s.2 ++ [WroteRegisters a vs]));
  write_register a v s :=
    let '(r, c) := write_register a v s.1 in
    (r, (c, s.2 ++ [WroteRegister a v (is_Ok r)]));
  read_holding_registers a n s := let '(r, c) := read_holding_registers a n s.1 in (r, (c, s.2));
|}.

Section failures.
Context {ED : Ed25519}.
Context {C : Type} {MT : ModbusTransport C}.
Abbreviation LState := (ModbusClient * (C * list WireEvent))%type.
Definition wire_log (s : LState) : list WireEvent := s.2.2.
Definition is_single (ev : WireEvent) : bool := match ev with WroteRegister _ _ _ => true | _ => false end.

(** Only multiple-register writes were added to the log; nothing was. *)
Definition staged_more (s s' : LState) : Prop :=
  ∃ es, wire_log s' = wire_log s ++ es ∧ existsb is_single es = false.
Definition silent (s s' : LState) : Prop := wire_log s' = wire_log s.
#[local] Instance staged_more_preorder : PreOrder staged_more.
Proof using Type.
  split; [intros s; exists []; by rewrite app_nil_r|]. intros a b c (e1 & H1 & H1') (e2 & H2 & H2').
  exists (e1 ++ e2). by rewrite H2, H1, <- app_assoc, existsb_app, H1', H2'.
Qed.
#[local] Instance silent_preorder : PreOrder silent.
Proof using Type. split; [done|]. intros a b c. unfold silent. congruence. Qed.

Lemma staged_write a l : preserves staged_more (on_wire (write_registers a l)).
Proof using Type.
  intros s. unfold on_wire, zoom. cbn [write_registers logged_transport].
  destruct (write_registers _ _ _) as [r c]. by exists [WroteRegisters a l].
Qed.
#[local] Hint Resolve staged_write : frames.
Lemma staged_chunks n o l : preserves staged_more (write_chunks n o l).
Proof using Type. revert o l. induction n as [|n IH]; intros o [|v l]; cbn [write_chunks]; frame. Qed.
Lemma silent_read a n : preserves silent (on_wire (read_holding_registers a n)).
Proof using Type.
  intros s. unfold on_wire, zoom. cbn [read_holding_registers logged_transport].
  by destruct (read_holding_registers _ _ _) as [r c].
Qed.
#[local] Hint Resolve silent_read : frames.
Lemma silent_chunks n a o k : preserves silent (read_chunks n a o k).
Proof using Type. revert o. induction n as [|n IH]; intros o; cbn [read_chunks]; frame. Qed.
#[local] Hint Resolve silent_chunks : frames.
Lemma silent_receive tid operation octets : preserves silent (receive tid operation octets).
Proof using Type. unfold receive, read_registers. frame. Qed.

Definition committed (returned : bool) : WireEvent := WroteRegister 0 (enum_value COMMIT) returned.
Definition no_commit (es : list WireEvent) : Prop := existsb is_single es = false.
Lemma no_commit_app e1 e2 : no_commit e1 → no_commit e2 → no_commit (e1 ++ e2).
Proof using Type. unfold no_commit. intros H1 H2. by rewrite existsb_app, H1, H2. Qed.

(** What an exchange wrote: [sent] says whether the COMMIT write returned, and it
    is then the last thing written; otherwise it may have been attempted, last. *)
Definition exchange_wrote (sent : bool) (es : list WireEvent) : Prop :=
  ∃ staged, no_commit staged
    ∧ if sent then es = staged ++ [committed true] else es = staged ∨ es = staged ++ [committed false].
Lemma exchange_log header octets registers (s : LState) r s' sent verified :
  exchange header octets registers (s, (false, false)) = (r, (s', (sent, verified))) →
  verified = is_Ok r ∧ (verified = true → sent = true)
  ∧ ∃ es, wire_log s' = wire_log s ++ es ∧ exchange_wrote sent es.
Proof using Type.
  unfold exchange. intros H.
  apply M_bind_case in H as [(e1 & -> & H)|([] & x1 & H1 & H)].
  { apply zoom_run in H as (c1 & H & Hx). injection Hx as -> -> ->. split; [done|]. split; [done|].
    apply (preserves_run staged_more _ _ _ _) in H as (es & Hl & Hes); [|frame].
    exists es. split; [done|]. exists es. by split; [|left]. }
  apply zoom_run in H1 as (c1 & H1 & ->). apply (preserves_run staged_more _ _ _ _) in H1; [|frame]. cbn [snd fst] in *.
  apply M_bind_case in H as [(e1 & -> & H)|([] & x2 & H2 & H)].
  { apply zoom_run in H as (c2 & H & Hx). injection Hx as -> -> ->. split; [done|]. split; [done|].
    apply (preserves_run staged_more _ _ _ _ (staged_chunks _ _ _)) in H. cbn [fst] in H.
    destruct (transitivity H1 H) as (es & Hl & Hes). exists es. split; [done|]. exists es. by split; [|left]. }
  apply zoom_run in H2 as (c2 & H2 & ->). apply (preserves_run staged_more _ _ _ _ (staged_chunks _ _ _)) in H2.
  cbn [fst snd] in *. destruct (transitivity H1 H2) as (es & Hl & Hes).
  assert (Hlog : ∀ ok c3, on_wire (write_register 0 (enum_value COMMIT)) c2 = (ok, c3) →
    wire_log c3 = wire_log s ++ es ++ [committed (is_Ok ok)]).
  { intros ok c3 H3. unfold on_wire, zoom in H3. cbn [write_register logged_transport fst snd] in H3.
    destruct (write_register _ _ _) as [ok0 c]. injection H3 as <- <-. unfold wire_log in *. cbn [snd].
    by rewrite Hl, app_assoc. }
  apply M_bind_case in H as [(e1 & -> & H)|(commit & x3 & H3 & H)].
  { apply zoom_run in H as (c3 & H & Hx). injection Hx as -> -> ->. split; [done|]. split; [done|].
    apply Hlog in H. eexists. split; [exact H|]. exists es. by split; [|right]. }
  apply zoom_run in H3 as (c3 & H3 & ->). apply Hlog in H3. cbn [is_Ok] in H3.
  assert (Hw : exchange_wrote true (es ++ [committed true])) by by exists es.
  apply M_bind_case in H as [(e1 & -> & [=])|([] & x4 & [= <-] & H)]. cbn [fst snd] in H.
  apply M_bind_case in H as [(e1 & -> & H)|(l & x5 & [_ ->]%lift_Ok & H)].
  { injection H as _ <- <- <-. split; [done|]. split; [done|]. by eexists. }
  apply M_bind_case in H as [(e1 & -> & H)|([h0 r0] & x6 & H6 & H)].
  { apply zoom_run in H as (c6 & H & Hx). injection Hx as -> -> ->. split; [done|]. split; [done|].
    apply (preserves_run silent _ _ _ _ (silent_receive _ _ _)) in H. unfold silent in H. cbn [fst] in H.
    eexists. split; [by rewrite H|done]. }
  apply zoom_run in H6 as (c6 & H6 & ->). apply (preserves_run silent _ _ _ _ (silent_receive _ _ _)) in H6.
  unfold silent in H6. cbn in H6, H. injection H as <- <- <- <-. split; [done|]. split; [done|].
  eexists. split; [|exact Hw]. unfold wire_log in *. cbn. by rewrite H6.
Qed.

Lemma release_staged h (s : LState) r s' :
  release h s = (r, s') → staged_more s s'.
Proof using Type.
  intros H. apply (preserves_run staged_more _ _ _ _) in H; [exact H|].
  unfold release. frame.
Qed.

Lemma failure_type sent e :
  isinstance_exn (failure EXECUTE sent e) "Exception" = true →
  exn_type (failure EXECUTE sent e) = "ModbusUnknownEffectError" ↔ sent = true.
Proof using Type.
  unfold failure. rewrite bool_decide_eq_true_2, andb_true_r by done.
  destruct (isinstance_exn e "ModbusTransportError" || isinstance_exn e "ModbusProtocolError") eqn:E.
  - destruct sent; [done|]. intros _. split; [|done]. intros Ht. destruct e as [cls msg]. simpl in Ht. subst cls.
    vm_compute in E. discriminate E.
  - destruct (isinstance_exn e "Exception") eqn:He; [|congruence]. destruct sent; done.
Qed.

Lemma release_raises h (s : LState) e s' :
  release h s = (Raise e, s') → isinstance_exn e "Exception" = false.
Proof using Type.
  unfold release. intros H. apply M_bind_case in H as [(e1 & [= <-] & H)|(a & s1 & _ & [=])].
  unfold attempt in H. match type of H with match ?m with _ => _ end = _ => destruct m as [[x|e0] s0] end; [discriminate H|].
  destruct (isinstance_exn e0 "Exception") eqn:E; [discriminate H|]. by injection H as <- _.
Qed.

(** How the writes [es] of a request that failed with [e] relate to its error. *)
Inductive unanswered (es : list WireEvent) (e : exn) : Prop :=
  | never_committed : no_commit es → exn_type e ≠ "ModbusUnknownEffectError" → unanswered es e
  | commit_raised staged released :
      es = staged ++ committed false :: released → no_commit staged → no_commit released →
      exn_type e ≠ "ModbusUnknownEffectError" → unanswered es e
  | committed_silently staged :
      es = staged ++ [committed true] → no_commit staged →
      exn_type e = "ModbusUnknownEffectError" → unanswered es e.
(** The writes of a request that was answered: COMMIT, then the release. *)
Definition answered_writes (es : list WireEvent) : Prop :=
  ∃ staged released, es = staged ++ committed true :: released ∧ no_commit staged ∧ no_commit released.
Definition request_outcome {A} (es : list WireEvent) (r : result A) : Prop :=
  match r with Ok _ => answered_writes es | Raise e => unanswered es e end.

Lemma guarded_outcome header octets registers (s : LState) r s' :
  rh_operation header = EXECUTE → guarded_exchange header octets registers s = (r, s') →
  (∀ e, r = Raise e → isinstance_exn e "Exception" = true) →
  ∃ es, wire_log s' = wire_log s ++ es ∧ request_outcome es r.
Proof using Type.
  intros Hop H He. unfold guarded_exchange in H. rewrite Hop in H.
  destruct (exchange _ _ _ _) as [x [s1 [sent verified]]] eqn:Hx.
  apply exchange_log in Hx as (Hv & Hvs & es & Hlog & staged & Hst & Hes).
  rewrite bool_decide_eq_true_2, andb_true_r in H by done.
  destruct (verified || negb sent) eqn:Hrel.
  - destruct (release header s1) as [[u|e1] s2] eqn:Hr; injection H as <- <-; cycle 1.
    { apply release_raises in Hr. by rewrite (He e1 eq_refl) in Hr. }
    apply release_staged in Hr as (es' & Hl & Hes'). exists (es ++ es'). split; [by rewrite Hl, Hlog, app_assoc|].
    destruct x as [v|e]; cbn [is_Ok] in Hv; subst verified; cbn [request_outcome].
    + rewrite (Hvs eq_refl) in Hes. subst es. exists staged, es'. by rewrite <- app_assoc.
    + destruct sent; [discriminate Hrel|]. pose proof (failure_type false e (He _ eq_refl)) as [Hty _].
      destruct Hes as [->| ->].
      * apply never_committed; [by apply no_commit_app|by intros ?%Hty].
      * apply (commit_raised _ _ staged es'); [by rewrite <- app_assoc|done|done|by intros ?%Hty].
  - injection H as <- <-. apply orb_false_iff in Hrel as [-> Hsent]. apply negb_false_iff in Hsent. subst sent.
    destruct x as [v|e]; [discriminate Hv|]. exists es. split; [done|].
    apply (committed_silently _ _ staged); [done|done|]. apply failure_type; [by apply He|done].
Qed.

Lemma request_log payload (s : LState) r s' :
  request EXECUTE payload s = (r, s') → (∀ e, r = Raise e → isinstance_exn e "Exception" = true) →
  ∃ es, wire_log s' = wire_log s ++ es ∧ request_outcome es r.
Proof using Type.
  unfold request. intros H He.
  assert (Hquiet : ∀ e, exn_type e ≠ "ModbusUnknownEffectError" →
    ∃ es, wire_log s = wire_log s ++ es ∧ unanswered es e).
  { intros e Hn. exists []. split; [by rewrite app_nil_r|by apply never_committed]. }
  apply M_bind_case in H as [(e1 & -> & [=])|([] & s1 & [= <-] & H)].
  apply M_bind_case in H as [(e1 & -> & [=])|(s2 & s3 & [= <- <-] & H)].
  apply M_bind_case in H as [(e1 & -> & H)|(q & s4 & [Hq ->]%lift_Ok & H)].
  { unfold lift, WireRequest_validate in H. injection H as H <-. apply Hquiet.
    apply result_bind_Raise in H as [H|(? & _ & [=])]. unfold require in H. destruct (u64_field _); [done|].
    by injection H as <-. }
  apply M_bind_case in H as [(e1 & -> & H)|(octets & s5 & [_ ->]%lift_Ok & H)].
  { unfold lift, canonical_json_bytes, dumps_strict in H. apply pair_equal_spec in H as [H <-]. apply Hquiet.
    destruct (has_nan _); [|done]. by injection H as <-. }
  apply M_bind_case in H as [(e1 & -> & H)|([] & s6 & [_ ->]%lift_Ok & H)].
  { unfold lift, require in H. injection H as H <-. apply Hquiet.
    destruct (_ <=? _)%Z; [done|]. by injection H as <-. }
  apply M_bind_case in H as [(e1 & -> & H)|(registers & s7 & [_ ->]%lift_Ok & H)].
  { unfold lift, bytes_to_registers in H. apply pair_equal_spec in H as [H <-]. apply Hquiet.
    destruct (_ <? _)%Z; [|done]. by injection H as <-. }
  apply guarded_outcome in H; [exact H| |exact He].
  unfold WireRequest_validate in Hq. apply require_bind in Hq as [_ Hq%Ok_inj]. by subst q.
Qed.

(** A verified response that is no acknowledgment, and the error it gives: an
    unknown effect exactly for that status without an acknowledgment. *)
Context {DCo : ModelDump PhysicalControlCommand} {DAs : ModelDump CandidateAssessment}
  {DPe : ModelDump ExecutionPermit} {DPr : ModelDump ActionProposal} {DDe : ModelDump Decision}.
Context {LAc : ModelLoad CommandAcknowledgment}.
Inductive refused_response (r : SignedWireResponse) (e : exn) : Prop :=
  | incomplete_response :
      ws_status r ∉ [COMPLETE; REJECTED_BEFORE_DISPATCH; WIRE_UNKNOWN_EFFECT] →
      e = mk_exn "ModbusProtocolError" "execution response is incomplete" → refused_response r e
  | unclassified_outcome :
      ws_status r = WIRE_UNKNOWN_EFFECT → dict_get "acknowledgment" (ws_payload r) = None →
      e = mk_exn "ModbusUnknownEffectError" "device returned an unclassified execution outcome" →
      refused_response r e
  | invalid_acknowledgment :
      model_validate (A := CommandAcknowledgment) (field (ws_payload r) "acknowledgment") = Raise e →
      refused_response r e.

End failures.
