(* ===== verification/ModbusLink.v ===== *)
(** * Client and mailbox together

    [ModbusServerLaws] is what a reliable [pymodbus] connection to a device with
    the handler [action] does, within the limits of one Modbus request: a write the
    handler accepts is stored, a read returns the registers.  Over it [remote_execution] shows that executing
    through the mailbox is executing on the device: the same acknowledgment, the
    same effect, and a mailbox free for the next request. *)
From S2P Require Import Prelude PyFloat PyStr PyTime PyJson Sha256 Crypto Models PyModel.
From S2P Require Import PhysicalModels PhysicalControl ModbusWire ModbusMessages ModbusMailbox ModbusClient.

(** The layout's constants, for arithmetic. *)
Ltac consts :=
  unfold REGISTER_COUNT, RESPONSE_PAYLOAD_START, RESPONSE_PAYLOAD_REGISTERS, RESPONSE_HEADER_START,
    RESPONSE_HEADER_REGISTERS, REQUEST_PAYLOAD_START, REQUEST_PAYLOAD_REGISTERS, REQUEST_HEADER_REGISTERS in *.

(** ** Slices of registers *)
Lemma set_slice_lookup i vs l j :
  i + length vs ≤ length l →
  set_slice i vs l !! j = if decide (i ≤ j < i + length vs) then vs !! (j - i) else l !! j.
Proof.
  intros Hl. unfold set_slice. destruct (decide (j < i)) as [H1|H1].
  - rewrite lookup_app_l by (rewrite length_take; lia). rewrite decide_False by lia. by apply lookup_take_lt.
  - rewrite lookup_app_r by (rewrite length_take; lia). rewrite length_take, Nat.min_l by lia.
    destruct (decide (j < i + length vs)) as [H2|H2].
    + rewrite decide_True by lia. by rewrite lookup_app_l by lia.
    + rewrite decide_False by lia. rewrite lookup_app_r by lia. rewrite lookup_drop. f_equal. lia.
Qed.
Lemma set_slice_length i vs l : i + length vs ≤ length l → length (set_slice i vs l) = length l.
Proof. intros H. unfold set_slice. rewrite !length_app, length_take, length_drop. lia. Qed.

Lemma slice_lookup i j l k : slice i j l !! k = if decide (k < j - i) then l !! (i + k) else None.
Proof.
  unfold slice. case_decide.
  - rewrite lookup_take_lt by done. apply lookup_drop.
  - by rewrite lookup_take_ge by lia.
Qed.
Lemma slice_same i vs l : i + length vs ≤ length l → slice i (i + length vs) (set_slice i vs l) = vs.
Proof.
  intros Hl. apply list_eq. intros k. rewrite slice_lookup, set_slice_lookup by done. case_decide.
  - rewrite decide_True by lia. f_equal. lia.
  - symmetry. apply lookup_ge_None. lia.
Qed.
Lemma slice_other a b i vs l :
  i + length vs ≤ length l → (b ≤ i ∨ i + length vs ≤ a) → slice a b (set_slice i vs l) = slice a b l.
Proof.
  intros Hl Hd. apply list_eq. intros k. rewrite !slice_lookup. case_decide; [|done].
  rewrite set_slice_lookup by done. by rewrite decide_False by lia.
Qed.
Lemma set_slice_app i v1 v2 l :
  i + length v1 + length v2 ≤ length l →
  set_slice (i + length v1) v2 (set_slice i v1 l) = set_slice i (v1 ++ v2) l.
Proof.
  intros Hl. apply list_eq. intros k.
  rewrite !set_slice_lookup by (rewrite ?set_slice_length, ?length_app; lia). rewrite length_app.
  destruct (decide (i + length v1 ≤ k < _)) as [H1|H1].
  - rewrite decide_True by lia. rewrite lookup_app_r by lia. f_equal. lia.
  - destruct (decide (i ≤ k < i + length v1)) as [H2|H2].
    + rewrite decide_True by lia. by rewrite lookup_app_l by lia.
    + by rewrite decide_False by lia.
Qed.
Lemma set_slice_nil i l : set_slice i [] l = l.
Proof. unfold set_slice. rewrite Nat.add_0_r. apply firstn_skipn. Qed.
Lemma slice_app i j k l : i ≤ j ≤ k → slice i j l ++ slice j k l = slice i k l.
Proof.
  intros H. unfold slice. replace (drop j l) with (drop (j - i) (drop i l)) by (rewrite drop_drop; f_equal; lia).
  replace (k - i) with ((j - i) + (k - j)) by lia. by rewrite take_take_drop.
Qed.
Lemma slice_length i j l : i ≤ j → j ≤ length l → length (slice i j l) = j - i.
Proof. intros. unfold slice. rewrite length_take, length_drop. lia. Qed.

(** ** Headers that encode *)
Lemma u64_total v : (0 <= v < 2 ^ 64)%Z → ∃ l, u64_registers v = Ok l.
Proof. intros H. unfold u64_registers. replace (_ && _) with true by (symmetry; lia). by eexists. Qed.
Lemma u32_total v : (0 <= v < 2 ^ 32)%Z → ∃ l, u32_registers v = Ok l.
Proof. intros H. unfold u32_registers. replace (_ && _) with true by (symmetry; lia). by eexists. Qed.
Lemma digest_total d : is_sha256 d = true → ∃ l, digest_registers d = Ok l.
Proof.
  intros Hd. unfold is_sha256 in Hd. bool_split. destruct (fromhex_lower d) as (raw & Hr & _); [done| |].
  - exists 32. unfold str_len in *. lia.
  - unfold digest_registers. rewrite Hr. by eexists.
Qed.

Lemma dimensions_of payload registers :
  bytes_to_registers payload = Ok registers →
  dimensions_ok (str_len payload) (Z.of_nat (length registers)) = true ∧ (0 <= str_len payload < 2 ^ 32)%Z
  ∧ length registers ≤ 4096 ∧ registers_to_bytes registers (str_len payload) = Ok payload.
Proof.
  intros (Hlen & _ & Hn & Hr)%payload_round. unfold dimensions_ok. rewrite Hn, Z.eqb_refl, andb_true_r.
  unfold MAX_PAYLOAD_BYTES, REQUEST_PAYLOAD_REGISTERS in *. assert (0 <= str_len payload)%Z by (unfold str_len; lia).
  split_and!; [apply negb_true_iff; lia|lia|lia| |done]. Z.to_euclidean_division_equations. lia.
Qed.

Lemma request_registers h :
  header_fields (rh_byte_length h) (rh_register_count h) (rh_payload_digest h) →
  (0 <= rh_transaction_id h < 2 ^ 64)%Z → (0 <= rh_byte_length h < 2 ^ 32)%Z →
  ∃ l, RequestHeader_to_registers h = Ok l ∧ RequestHeader_from_registers l = Ok h ∧ length l = 32
    ∧ nth 0 l 0%Z = enum_value (rh_control h) ∧ Forall u16 l.
Proof.
  intros Hf Ht Hn. destruct (u64_total _ Ht) as [t Et]. destruct (u32_total _ Hn) as [n En].
  destruct (digest_total _ (hf_digest _ _ _ Hf)) as [d Ed].
  destruct (RequestHeader_to_registers h) as [l|e] eqn:E; cycle 1.
  { unfold RequestHeader_to_registers in E. rewrite Et, En, Ed in E. discriminate E. }
  exists l. split; [done|]. destruct (proj2 (request_header_round h l) (conj Hf E)) as [Hu Hback].
  split; [exact Hback|]. clear Hback. unfold RequestHeader_to_registers in E. rewrite Et, En, Ed in E. cbn [mbind result_bind] in E.
  apply Ok_inj in E. subst l.
  rewrite !length_app, (u64_length _ _ Et), (u32_length _ _ En), (digest_registers_length _ _ Ed). done.
Qed.
(** The registers of a payload are words. *)
Lemma payload_words payload registers : bytes_to_registers payload = Ok registers → Forall u16 registers.
Proof. by intros (_ & ? & _)%payload_round. Qed.

Lemma response_registers h :
  header_fields (sh_byte_length h) (sh_register_count h) (sh_payload_digest h) →
  (0 <= sh_transaction_id h < 2 ^ 64)%Z → (0 <= sh_byte_length h < 2 ^ 32)%Z →
  (0 <= sh_counter h < 2 ^ 64)%Z → (0 <= sh_state_version_hint h < 2 ^ 64)%Z →
  ∃ l, ResponseHeader_to_registers h = Ok l ∧ ResponseHeader_from_registers l = Ok h ∧ length l = 40.
Proof.
  intros Hf Ht Hn Hc Hv. destruct (u64_total _ Ht) as [t Et]. destruct (u32_total _ Hn) as [n En].
  destruct (digest_total _ (hf_digest _ _ _ Hf)) as [d Ed].
  destruct (u64_total _ Hc) as [k Ek]. destruct (u64_total _ Hv) as [v Ev].
  destruct (ResponseHeader_to_registers h) as [l|e] eqn:E; cycle 1.
  { unfold ResponseHeader_to_registers in E. rewrite Et, En, Ed, Ek, Ev in E. discriminate E. }
  exists l. split; [done|]. split; [apply (proj2 (response_header_round h l) (conj Hf E))|].
  unfold ResponseHeader_to_registers in E. rewrite Et, En, Ed, Ek, Ev in E. cbn [mbind result_bind] in E.
  apply Ok_inj in E. subst l.
  rewrite !length_app, (u64_length _ _ Et), (u32_length _ _ En), (digest_registers_length _ _ Ed),
    (u64_length _ _ Ek), (u64_length _ _ Ev). done.
Qed.

(** ** A reliable connection *)
Section link.
Context {ED : Ed25519}.
Context {D T : Type} {HPl : Plant T} {HD : ControlDevice D T}.
Context {DSt : ModelDump PhysicalStateSnapshot} {DAs : ModelDump CandidateAssessment}
  {DAc : ModelDump CommandAcknowledgment} {DCo : ModelDump PhysicalControlCommand}
  {DPe : ModelDump ExecutionPermit} {DPr : ModelDump ActionProposal} {DDe : ModelDump Decision}.
Context {LCo : ModelLoad PhysicalControlCommand} {LPe : ModelLoad ExecutionPermit}
  {LPr : ModelLoad ActionProposal} {LDe : ModelLoad Decision} {LAs : ModelLoad CandidateAssessment}
  {LSt : ModelLoad PhysicalStateSnapshot} {LAc : ModelLoad CommandAcknowledgment}.
Abbreviation Mail := (MailboxService * (D * T * World) * list Z)%type.

(** One Modbus request carries 16-bit registers, at most 123 in a write and at
    most 125 in a read; only those are assumed to be served. *)
Class ModbusServerLaws {C : Type} {MT : ModbusTransport C} (view : C → Mail) : Prop := {
  many_served : ∀ a vs c m,
    0 < length vs ≤ 123 → Forall u16 vs →
    action 0 a (Z.of_nat (length vs)) (Some vs) (view c) = (Ok None, m) →
    ∃ c', write_registers a vs c = (Ok (Registers []), c') ∧ view c' = (m.1, set_slice (Z.to_nat a) vs m.2);
  one_served : ∀ a v c m,
    u16 v →
    action 0 a 1 (Some [v]) (view c) = (Ok None, m) →
    ∃ c', write_register a v c = (Ok (Registers []), c') ∧ view c' = (m.1, set_slice (Z.to_nat a) [v] m.2);
  read_served : ∀ a n c,
    (0 <= a)%Z → (0 < n <= 125)%Z → (a + n <= REGISTER_COUNT)%Z →
    ∃ c', read_holding_registers a n c = (Ok (Registers (slice (Z.to_nat a) (Z.to_nat (a + n)) (view c).2)), c')
          ∧ view c' = view c;
}.

Context {C : Type} {MT : ModbusTransport C} (view : C → Mail) {SL : ModbusServerLaws view}.

Lemma write_all_served a vs mc c m :
  0 < length vs ≤ 123 → Forall u16 vs →
  action 0 a (Z.of_nat (length vs)) (Some vs) (view c) = (Ok None, m) →
  ∃ c', write_all a vs (mc, c) = (Ok tt, (mc, c')) ∧ view c' = (m.1, set_slice (Z.to_nat a) vs m.2).
Proof using SL.
  intros Hn Hu H. apply many_served in H as (c' & Hw & Hv); [|done..]. exists c'. split; [|done].
  unfold write_all, on_wire, zoom, mbind, M_bind. cbn [snd]. by rewrite Hw.
Qed.

Lemma payload_write a vs svc run registers :
  active_transaction svc ≠ None → terminal_transaction svc = None →
  (32 <= a < 4128)%Z → (a + Z.of_nat (length vs) <= 4128)%Z →
  action 0 a (Z.of_nat (length vs)) (Some vs) (svc, run, registers) = (Ok None, (svc, run, registers)).
Proof using Type.
  intros Ha Ht H1 H2. unfold action. cbn [Z.eqb negb].
  destruct (RESPONSE_HEADER_START <=? a)%Z eqn:E1.
  { apply Z.leb_le in E1. unfold RESPONSE_HEADER_START, REQUEST_PAYLOAD_START, REQUEST_PAYLOAD_REGISTERS in E1.
    lia. }
  destruct (a =? 0)%Z eqn:E2; [lia|]. unfold mail_get, mbind, M_bind, mret, M_ret, get. cbn [fst snd].
  rewrite bool_decide_eq_false_2, bool_decide_eq_true_2 by done. cbn [negb orb].
  destruct (a <? REQUEST_PAYLOAD_START)%Z eqn:E3; [apply Z.ltb_lt in E3; unfold REQUEST_PAYLOAD_START in E3; lia|].
  destruct (REQUEST_PAYLOAD_START + 4096 <? _)%Z eqn:E4;
    [apply Z.ltb_lt in E4; unfold REQUEST_PAYLOAD_START in E4; lia|]. done.
Qed.

Lemma write_chunks_served fuel offset l mc c svc run registers :
  view c = (svc, run, registers) → active_transaction svc ≠ None → terminal_transaction svc = None →
  (0 <= offset)%Z → l = [] ∨ (offset + Z.of_nat (length l) <= 4096)%Z → length l ≤ fuel → Forall u16 l →
  Z.of_nat (length registers) = REGISTER_COUNT →
  ∃ c', write_chunks fuel offset l (mc, c) = (Ok tt, (mc, c'))
    ∧ view c' = (svc, run, set_slice (Z.to_nat (32 + offset)) l registers).
Proof using SL.
  intros Hv Ha Ht. revert offset l c registers Hv. induction fuel as [|fuel IH]; intros offset l c registers Hv Ho Hl Hf Hu Hr.
  { destruct l; [|simpl in Hf; lia]. exists c. by rewrite set_slice_nil. }
  destruct l as [|v l']; [exists c; by rewrite set_slice_nil|]. set (l := v :: l') in *.
  change (write_chunks (S fuel) offset l) with
    (write_all (REQUEST_PAYLOAD_START + offset) (firstn (Z.to_nat WRITE_CHUNK_REGISTERS) l) ≫= λ _,
     write_chunks fuel (offset + WRITE_CHUNK_REGISTERS) (skipn (Z.to_nat WRITE_CHUNK_REGISTERS) l)).
  set (v1 := firstn (Z.to_nat WRITE_CHUNK_REGISTERS) l). set (v2 := skipn (Z.to_nat WRITE_CHUNK_REGISTERS) l).
  assert (Hsplit : l = v1 ++ v2) by (symmetry; apply firstn_skipn).
  assert (H1 : length v1 = Nat.min 120 (length l)) by (unfold v1; rewrite length_take; reflexivity).
  assert (H2 : length v2 = length l - 120) by (unfold v2; rewrite length_drop; reflexivity).
  assert (Hu1 : Forall u16 v1) by by apply Forall_take.
  assert (Hu2 : Forall u16 v2) by by apply Forall_drop.
  assert (H0 : 0 < length l) by (simpl; lia). destruct Hl as [Hl|Hl]; [discriminate Hl|].
  clearbody v1 v2 l.
  assert (Hact : action 0 (REQUEST_PAYLOAD_START + offset) (Z.of_nat (length v1)) (Some v1) (view c)
                 = (Ok None, (svc, run, registers))).
  { rewrite Hv. apply payload_write; [done..|unfold REQUEST_PAYLOAD_START; lia|unfold REQUEST_PAYLOAD_START; lia]. }
  apply (write_all_served _ _ mc) in Hact as (c1 & Hw & Hv1); [|lia|done]. cbn [fst snd] in Hv1.
  consts.
  destruct (IH (offset + WRITE_CHUNK_REGISTERS)%Z v2 c1 _ Hv1) as (c' & Hw' & Hv').
  - unfold WRITE_CHUNK_REGISTERS. lia.
  - unfold WRITE_CHUNK_REGISTERS. destruct (decide (length l ≤ 120)); [left|right; lia].
    apply nil_length_inv. lia.
  - lia.
  - exact Hu2.
  - rewrite set_slice_length by lia. lia.
  - exists c'. split; [unfold mbind, M_bind; by rewrite Hw|]. rewrite Hv'. f_equal.
    replace (Z.to_nat (32 + (offset + WRITE_CHUNK_REGISTERS))) with (Z.to_nat (32 + offset) + 120)
      by (unfold WRITE_CHUNK_REGISTERS; lia).
    destruct (decide (length l ≤ 120)) as [Hs|Hs].
    + assert (v2 = []) as -> by (apply nil_length_inv; lia). by rewrite set_slice_nil, Hsplit, app_nil_r.
    + replace 120 with (length v1) by lia. rewrite set_slice_app by lia. by rewrite <- Hsplit.
Qed.

Lemma read_chunks_served fuel address offset count mc c :
  (0 <= address)%Z → (0 <= offset)%Z → (offset <= count)%Z → (address + count <= REGISTER_COUNT)%Z →
  (count - offset <= Z.of_nat fuel)%Z →
  ∃ c', read_chunks fuel address offset count (mc, c)
          = (Ok (slice (Z.to_nat (address + offset)) (Z.to_nat (address + count)) (view c).2), (mc, c'))
    ∧ view c' = view c.
Proof using SL.
  intros Ha. revert offset c. induction fuel as [|fuel IH]; intros offset c Ho Hoc Hr Hf.
  { assert (offset = count) as -> by lia. exists c. split; [|done]. cbn [read_chunks]. unfold slice.
    by rewrite Nat.sub_diag. }
  cbn [read_chunks]. destruct (offset <? count)%Z eqn:Hlt; cycle 1.
  { apply Z.ltb_ge in Hlt. assert (offset = count) as -> by lia. exists c. split; [|done]. unfold slice.
    by rewrite Nat.sub_diag. }
  apply Z.ltb_lt in Hlt. set (n := Z.min READ_CHUNK_REGISTERS (count - offset)).
  assert (Hn : (0 < n <= count - offset ∧ n <= 125)%Z) by (unfold n, READ_CHUNK_REGISTERS; lia).
  destruct (read_served (address + offset) n c) as (c1 & Hr1 & Hv1); [lia..|].
  destruct (IH (offset + n)%Z c1) as (c2 & Hr2 & Hv2); [lia..|].
  exists c2. split; [|congruence]. unfold mbind at 1, M_bind at 1, on_wire, zoom. cbn [snd fst]. rewrite Hr1.
  cbn [require_success lift mbind M_bind]. unfold mbind, M_bind, lift. rewrite Hr2. unfold mret, M_ret. rewrite Hv1.
  rewrite <- Z.add_assoc, slice_app by lia. done.
Qed.

(** ** Steps of a computation *)
Ltac run := erewrite M_bind_run by reflexivity; cbn [fst snd].
Ltac run_with H := erewrite M_bind_run by (unfold lift; rewrite H; reflexivity); cbn [fst snd].

(** ** What COMMIT does to a staged request *)
Lemma read_request_octets q octets :
  wire_request_valid q → canonical_json_bytes (frame_dump q) = Ok octets → read_request octets = Ok (norm_wire_request q).
Proof using Type.
  intros Hq Ho. assert (Hv : frame_valid q) by exact Hq.
  destruct (frame_reads q octets Hv Ho) as (kv & Hu & Hl & Hf). unfold read_request.
  rewrite Hu, Hl. cbn [mbind result_bind]. rewrite Hf. cbn [mbind result_bind].
  change (norm q) with (norm_wire_request q).
  assert (Hn : canonical_json_bytes (frame_dump (norm_wire_request q)) = Ok octets).
  { rewrite <- Ho. apply (frame_norm_octets q Hv). }
  rewrite Hn. cbn [mbind result_bind]. by rewrite bool_decide_eq_true_2.
Qed.

(** The registers hold a staged request. *)
Record holds_request (q : WireRequest) (octets : string) (registers R : list Z) : Prop := {
  hr_valid : wire_request_valid q;
  hr_octets : canonical_json_bytes (frame_dump q) = Ok octets;
  hr_registers : bytes_to_registers octets = Ok registers;
  hr_header : RequestHeader_from_registers (firstn 32 R) = Ok (request_header q octets registers);
  hr_payload : slice 32 (32 + length registers) R = registers;
}.

Lemma commit_body_run q octets registers R svc run v res m' :
  holds_request q octets registers R → active_transaction svc = Some (wq_transaction_id q) →
  handle_application (norm_wire_request q) (svc, run, R) = (res, m') →
  commit_body (svc, run, R, v)
  = (res, (m', mk_Staging (sha256_hex octets) (wq_transaction_id q) (wq_operation q))).
Proof using Type.
  intros [Hq Ho Hr Hh Hp] Ha Hrun. destruct (dimensions_of _ _ Hr) as (Hdim & Hlen & Hmax & Hback).
  unfold commit_body. run. run. change (Z.to_nat REQUEST_HEADER_REGISTERS) with 32. run_with Hh. run. run.
  cbn [request_header rh_transaction_id rh_operation rh_byte_length rh_register_count rh_payload_digest fst].
  rewrite Ha, (bool_decide_eq_true_2 (Some _ = Some _)) by done. run.
  change (Z.to_nat REQUEST_PAYLOAD_START) with 32. rewrite Nat2Z.id, Hp. run_with Hback. run.
  rewrite (bool_decide_eq_true_2 (sha256_hex _ = _)) by done. run.
  run_with (read_request_octets q octets Hq Ho). cbn [norm_wire_request wq_transaction_id wq_operation].
  rewrite !bool_decide_eq_true_2 by done. run.
  unfold on_mail, zoom. cbn [fst snd]. by rewrite Hrun.
Qed.

(** ** The signed response *)
Lemma validate_signature r g :
  SignedWireResponse_validate r = Ok r →
  SignedWireResponse_validate (with_wire_signature r g) = Ok (with_wire_signature r g).
Proof using Type.
  unfold SignedWireResponse_validate, with_wire_signature. cbn. intros H. apply require_bind in H as [-> H].
  cbn [require mbind result_bind]. apply result_bind_Ok in H as (d & -> & H). cbn [mbind result_bind].
  by apply require_bind in H as [-> _].
Qed.

Record answers_request (tid : Z) (op : WireOperation) (digest : string) (status : WireStatus) (code : WireResultCode)
    (payload : list (string * json)) (m : Mail) (r : SignedWireResponse) : Prop := {
  ar_transaction : ws_transaction_id r = tid;
  ar_operation : ws_operation r = op;
  ar_digest : ws_request_digest r = digest;
  ar_status : ws_status r = status;
  ar_code : ws_result_code r = code;
  ar_payload : ws_payload r = payload;
  ar_device : ws_device_id r = device_id_of m.1.2.1.1 ∧ ws_device_key_id r = acknowledgment_key_id_of m.1.2.1.1
              ∧ ws_boot_epoch r = ms_boot_epoch m.1.1;
  ar_counter : ws_counter r = (transaction_counter m.1.1 + 1)%Z;
  ar_valid : SignedWireResponse_validate r = Ok r;
  ar_signed : ∃ r0, wire_signed r0 (response_private_key m.1.1) = Ok r;
}.

Lemma signed_response_Ok tid op digest status code payload (m : Mail) r m' :
  signed_response tid op digest status code payload m = (Ok r, m') →
  answers_request tid op digest status code payload m r ∧ m' = (count_transaction m.1.1, m.1.2, m.2).
Proof using Type.
  unfold signed_response. intros H. apply M_bind_Ok in H as ([] & m1 & [= <-] & H).
  apply M_bind_Ok in H as (svc & m2 & [= <- <-] & H). apply M_bind_Ok in H as (d & m3 & [= <- <-] & H).
  apply M_bind_Ok in H as (pd & m4 & [Hpd ->]%lift_Ok & H). apply M_bind_Ok in H as (r0 & m5 & [Hv ->]%lift_Ok & H).
  apply lift_Ok in H as [Hs ->]. split; [|done]. cbn [fst snd] in *.
  assert (E : r0 = mk_SignedWireResponse tid op digest status code payload pd (device_id_of m.1.2.1.1)
      (acknowledgment_key_id_of m.1.2.1.1) (ms_boot_epoch m.1.1) (transaction_counter m.1.1 + 1) "").
  { unfold SignedWireResponse_validate in Hv. apply require_bind in Hv as [_ Hv].
    apply result_bind_Ok in Hv as (? & _ & Hv). by apply require_bind in Hv as [_ <-%Ok_inj]. }
  assert (Hv' : SignedWireResponse_validate r0 = Ok r0) by (rewrite E at 1; exact Hv). pose proof Hs as Hs'. unfold wire_signed in Hs'. apply result_bind_Ok in Hs' as (b & _ & <-%Ok_inj).
  split; try (by rewrite E). - by apply validate_signature. - by exists r0.
Qed.

(** The registers hold a response. *)
Record holds_response (r : SignedWireResponse) (version : Z) (octets : string) (registers R : list Z) : Prop := {
  hp_octets : canonical_json_bytes (frame_dump r) = Ok octets;
  hp_registers : bytes_to_registers octets = Ok registers;
  hp_header : ResponseHeader_from_registers (slice 4128 4168 R) = Ok (response_header r octets registers version);
  hp_payload : slice 4168 (4168 + length registers) R = registers;
}.

Lemma write_response_run r version octets registers (m : Mail) :
  SignedWireResponse_validate r = Ok r → canonical_json_bytes (frame_dump r) = Ok octets →
  bytes_to_registers octets = Ok registers → (ws_counter r < 2 ^ 64)%Z → (0 <= version < 2 ^ 64)%Z →
  Z.of_nat (length m.2) = REGISTER_COUNT →
  ∃ R, write_response r version m = (Ok tt, (m.1, R)) ∧ holds_response r version octets registers R
    ∧ Z.of_nat (length R) = REGISTER_COUNT.
Proof using Type.
  intros Hv Ho Hr Hc Hver HR. destruct (dimensions_of _ _ Hr) as (Hdim & Hlen & Hmax & _).
  unfold SignedWireResponse_validate in Hv. apply require_bind in Hv as [Hf _]. unfold u64_field in Hf. bool_split.
  destruct (response_registers (response_header r octets registers version)) as (hr & Hh & Hback & Hl).
  { split; [exact Hdim|apply sha256_hex_shape]. } { unfold response_header; cbn. lia. } { exact Hlen. }
  { unfold response_header; cbn. lia. } { exact Hver. }
  set (R0 := clear_registers m.2).
  assert (HR0 : length R0 = length m.2).
  { unfold R0, clear_registers. apply set_slice_length. rewrite repeat_length. consts. lia. }
  exists (set_slice 4168 registers (set_slice 4128 hr R0)). unfold write_response.
  split; [|split].
  - run_with Ho. run_with Hr. run. run_with Hh. run. reflexivity.
  - consts. split; [done|done| |].
    + rewrite slice_other by (rewrite ?set_slice_length; lia). replace 4168 with (4128 + length hr) by lia.
      rewrite slice_same by lia. exact Hback.
    + apply slice_same. rewrite set_slice_length by lia. lia.
  - consts. rewrite !set_slice_length by (rewrite ?set_slice_length; lia). lia.
Qed.


(** ** COMMIT, in full *)
Definition answered (svc : MailboxService) : MailboxService :=
  set_transaction (active_transaction svc) (active_header svc) (active_transaction svc) (count_transaction svc).

Lemma commit_served q octets registers R svc run run' status code payload version r octets' registers' :
  holds_request q octets registers R → active_transaction svc = Some (wq_transaction_id q) →
  terminal_transaction svc = None → Z.of_nat (length R) = REGISTER_COUNT →
  handle_application (norm_wire_request q) (svc, run, R) = (Ok (status, code, payload, version), (svc, run', R)) →
  (signed_response (wq_transaction_id q) (wq_operation q) (sha256_hex octets) status code payload (svc, run', R)).1 = Ok r →
  canonical_json_bytes (frame_dump r) = Ok octets' → bytes_to_registers octets' = Ok registers' →
  (transaction_counter svc + 1 < 2 ^ 64)%Z → (0 <= version < 2 ^ 64)%Z →
  ∃ R', action 0 0 1 (Some [enum_value COMMIT]) (svc, run, R) = (Ok None, (answered svc, run', R'))
    ∧ holds_response r version octets' registers' R' ∧ Z.of_nat (length R') = REGISTER_COUNT.
Proof using Type.
  intros Hq Ha Ht HR Happ Hsig Ho Hr Hcnt Hver.
  destruct (signed_response _ _ _ _ _ _ (svc, run', R)) as [sr m''] eqn:Es. cbn [fst] in Hsig. subst sr.
  pose proof (signed_response_Ok _ _ _ _ _ _ _ _ _ Es) as [Har ->]. cbn [fst snd] in *.
  destruct (write_response_run r version octets' registers' (count_transaction svc, run', R)) as (R' & Hw & Hh & HR'); try done.
  { apply Har. } { rewrite (ar_counter _ _ _ _ _ _ _ _ Har). exact Hcnt. }
  exists R'. split; [|done]. change (action 0 0 1 (Some [enum_value COMMIT])) with commit_action. unfold commit_action.
  run. rewrite (bool_decide_eq_false_2 (active_transaction svc = None)) by congruence.
  rewrite (bool_decide_eq_true_2 (terminal_transaction svc = None)) by done.
  assert (Hp : process_commit (svc, run, R) = (Ok tt, (count_transaction svc, run', R'))).
  { unfold process_commit. erewrite commit_body_run by done. run.
    cbn [sg_transaction_id sg_operation sg_request_digest].
    erewrite M_bind_run by exact Es. exact Hw. }
  erewrite M_bind_run by exact Hp. reflexivity.
Qed.

(** The response does not depend on the registers or on what is staged. *)
Lemma signed_response_staged tid op digest status code payload svc run R a h t R0 :
  (signed_response tid op digest status code payload (set_transaction a h t svc, run, R)).1
  = (signed_response tid op digest status code payload (svc, run, R0)).1.
Proof using Type.
  unfold signed_response, mail_get, modify_service, modify, get, lift, mbind, M_bind, mret, M_ret. cbn [fst snd].
  destruct (canonical_digest (JObj payload)) as [d|e]; [|done].
  unfold set_transaction, count_transaction. cbn. by destruct (SignedWireResponse_validate _).
Qed.

(** ** A client and a device that agree, with nothing in flight *)
Record linked (mc : ModbusClient) (c : C) (svc : MailboxService) (run : D * T * World) : Prop := {
  lk_view : ∃ R, view c = (svc, run, R) ∧ Z.of_nat (length R) = REGISTER_COUNT;
  lk_wf : service_wf svc;
  lk_idle : phase svc = Idle;
  lk_key : mc_public_key mc = public_of (response_private_key svc);
  lk_epoch : mi_boot_epoch (mc_info mc) = ms_boot_epoch svc;
  lk_counter : (last_device_counter mc <= transaction_counter svc)%Z;
}.

(** What the client asks and how the device answers it. *)
Record served (mc : ModbusClient) (svc : MailboxService) (run run' : D * T * World) (op : WireOperation)
    (payload : list (string * json)) (outcome : Outcome) (r : SignedWireResponse) : Prop := {
  sv_request : wire_request_valid (mk_WireRequest (mc_transaction_id mc + 1) op payload);
  sv_fits : ∃ octets registers,
    canonical_json_bytes (frame_dump (mk_WireRequest (mc_transaction_id mc + 1) op payload)) = Ok octets
    ∧ bytes_to_registers octets = Ok registers
    ∧ (signed_response (mc_transaction_id mc + 1) op (sha256_hex octets) outcome.1.1.1 outcome.1.1.2 outcome.1.2
         (svc, run', [])).1 = Ok r;
  sv_application : ∀ svc' R, ms_boot_epoch svc' = ms_boot_epoch svc →
    handle_application (mk_WireRequest (mc_transaction_id mc + 1) op (canonical_payload payload)) (svc', run, R)
    = (Ok outcome, (svc', run', R));
  sv_answer_fits : ∃ octets registers,
    canonical_json_bytes (frame_dump r) = Ok octets ∧ bytes_to_registers octets = Ok registers;
  sv_counter : (0 <= transaction_counter svc + 1 < 2 ^ 64)%Z;
  sv_version : (0 <= outcome.2 < 2 ^ 64)%Z;
  sv_payload : json_ok (JObj outcome.1.2) = true;
  sv_reported : reported_version op (canonical_payload outcome.1.2) = Ok (JInt outcome.2);
  sv_device : mi_device_id (mc_info mc) = device_id_of run'.1.1
              ∧ mi_device_key_id (mc_info mc) = acknowledgment_key_id_of run'.1.1;
  sv_signature : ws_signature r ≠ "";
}.

(** ** The header writes *)
Lemma header_write h l svc run R :
  RequestHeader_from_registers l = Ok h → length l = 32 → nth 0 l 0%Z = enum_value (rh_control h) →
  rh_control h ≠ COMMIT →
  action 0 0 (Z.of_nat (length l)) (Some l) (svc, run, R) = header_action h (svc, run, R).
Proof using Type.
  intros Hh Hl H0 Hc. rewrite Hl. unfold action. change (negb (0 =? 0)%Z) with false.
  change (RESPONSE_HEADER_START <=? 0)%Z with false. change (0 =? 0)%Z with true. cbv iota.
  unfold control_action. change (Z.of_nat 32 =? REQUEST_HEADER_REGISTERS)%Z with true. cbv iota.
  destruct l as [|v l]; [done|]. cbn [nth] in H0. unfold first_value. run.
  replace ((v =? enum_value BEGIN)%Z || (v =? enum_value RELEASE)%Z) with true
    by (rewrite H0; by destruct (rh_control h)). by rewrite Hh.
Qed.

Lemma begin_served h svc (run : D * T * World) R :
  service_wf svc → phase svc = Idle → rh_control h = BEGIN →
  header_action h (svc, run, R)
  = (Ok None, (set_transaction (Some (rh_transaction_id h)) (Some h) None svc, run, clear_registers R)).
Proof using Type.
  intros [Ha _ Ht] Hi Hc. unfold header_action. cbn [fst snd]. rewrite Hc.
  unfold phase in Hi. destruct (active_header svc) as [h'|]; [by case_bool_decide|]. simpl in Ha.
  by destruct Ht as [->| ->]; rewrite ?Ha.
Qed.

Lemma release_served h svc (run : D * T * World) R :
  active_header svc = Some h → terminal_transaction svc = active_transaction svc →
  header_action (as_release h) (svc, run, R) = (Ok None, (set_transaction None None None svc, run, R)).
Proof using Type.
  intros Hh Ht. unfold header_action. cbn [fst snd as_release rh_control]. rewrite Hh, Ht.
  rewrite (bool_decide_eq_false_2 (Some h = None)), !bool_decide_eq_true_2 by done. done.
Qed.

(** ** Reading the response *)
Lemma read_response_octets r octets :
  wire_response_valid r → canonical_json_bytes (frame_dump r) = Ok octets →
  read_response octets = Ok (norm_wire_response r).
Proof using Type.
  intros Hr Ho. assert (Hv : frame_valid r) by exact Hr.
  destruct (frame_reads r octets Hv Ho) as (kv & Hu & Hl & Hf). unfold read_response.
  rewrite Hu, Hl. cbn [mbind result_bind]. rewrite Hf. cbn [mbind result_bind].
  change (norm r) with (norm_wire_response r).
  assert (Hn : canonical_json_bytes (frame_dump (norm_wire_response r)) = Ok octets).
  { rewrite <- Ho. apply (frame_norm_octets r Hv). }
  rewrite Hn. cbn [mbind result_bind]. by rewrite bool_decide_eq_true_2.
Qed.

Lemma read_registers_served address count mc c :
  (0 <= address)%Z → (0 <= count)%Z → (address + count <= REGISTER_COUNT)%Z →
  ∃ c', read_registers address count (mc, c)
          = (Ok (slice (Z.to_nat address) (Z.to_nat (address + count)) (view c).2), (mc, c')) ∧ view c' = view c.
Proof using SL.
  intros Ha Hc Hr. destruct (read_chunks_served (Z.to_nat count) address 0 count mc c) as (c' & H & Hv); [lia..|].
  exists c'. split; [|done]. unfold read_registers. rewrite H. by rewrite Z.add_0_r.
Qed.

Lemma receive_served tid op request r version octets registers R svc run mc c :
  view c = (svc, run, R) → Z.of_nat (length R) = REGISTER_COUNT → holds_response r version octets registers R →
  wire_response_valid r → ws_transaction_id r = tid → ws_operation r = op →
  (∀ h, h = response_header r octets registers version →
     check_response mc tid op request h (norm_wire_response r) = Ok tt) →
  ∃ c', receive tid op request (mc, c)
        = (Ok (response_header r octets registers version, norm_wire_response r), (mc, c')) ∧ view c' = view c.
Proof using SL.
  intros Hv HR [Ho Hr Hh Hp] Hval Htid Hop Hcheck. destruct (dimensions_of _ _ Hr) as (_ & _ & Hmax & Hback).
  destruct (read_registers_served RESPONSE_HEADER_START RESPONSE_HEADER_REGISTERS mc c) as (c1 & H1 & Hv1); [consts; lia..|].
  destruct (read_registers_served RESPONSE_PAYLOAD_START (Z.of_nat (length registers)) mc c1) as (c2 & H2 & Hv2); [consts; lia..|].
  exists c2. split; [|congruence]. unfold receive. erewrite M_bind_run by exact H1.
  change (Z.to_nat RESPONSE_HEADER_START) with 4128. change (Z.to_nat (RESPONSE_HEADER_START + RESPONSE_HEADER_REGISTERS)) with 4168.
  rewrite Hv. cbn [snd]. run_with Hh.
  cbn [response_header sh_transaction_id sh_operation sh_register_count sh_byte_length sh_payload_digest].
  rewrite Htid, Hop, Z.eqb_refl, bool_decide_eq_true_2 by done. run. erewrite M_bind_run by exact H2.
  replace (slice (Z.to_nat RESPONSE_PAYLOAD_START) _ (view c1).2) with registers; cycle 1.
  { rewrite Hv1, Hv. cbn [snd]. rewrite <- Hp at 1. f_equal. consts. lia. }
  run_with Hback. rewrite bool_decide_eq_true_2 by done. run.
  run_with (read_response_octets r octets Hval Ho). run. run_with (Hcheck _ eq_refl). done.
Qed.

(** ** One request over the connection *)
Lemma check_response_served mc c svc run run' op payload outcome r octets request :
  linked mc c svc run → served mc svc run run' op payload outcome r →
  answers_request (mc_transaction_id mc + 1) op (sha256_hex request) outcome.1.1.1 outcome.1.1.2 outcome.1.2
    (svc, run', []) r →
  wire_verify r (mc_public_key mc) = Ok true → wire_response_valid r →
  ∀ registers h, h = response_header r octets registers outcome.2 →
  check_response (next_transaction mc) (mc_transaction_id mc + 1) op request h (norm_wire_response r) = Ok tt.
Proof using Type.
  intros Hl Hs [Ht Ho Hd Hst Hco Hp [Hd1 [Hd2 Hd3]] Hn _ _] Hver Hval registers h ->. cbn [fst snd] in *.
  destruct Hs as [_ _ _ _ _ _ _ Hrep [Hi1 Hi2] _]. unfold check_response.
  cbn [norm_wire_response response_header next_transaction ws_transaction_id ws_operation ws_request_digest ws_device_id
       ws_device_key_id ws_boot_epoch ws_status ws_result_code ws_counter ws_payload mc_info mc_public_key
       last_device_counter sh_status sh_result_code sh_counter sh_state_version_hint].
  rewrite Ht, Z.eqb_refl. rewrite !bool_decide_eq_true_2 by (rewrite ?Hd1, ?Hd2, ?Hd3, ?Hi1, ?Hi2, ?(lk_epoch _ _ _ _ Hl); done).
  cbn [andb]. change (mk_SignedWireResponse _ _ _ _ _ _ _ _ _ _ _ _) with (norm_wire_response r).
  rewrite verify_norm, Hver by done. cbn [mbind result_bind require].
  rewrite Z.eqb_refl. cbn [andb require mbind result_bind]. rewrite Hn.
  pose proof (lk_counter _ _ _ _ Hl). replace (_ <? _)%Z with true by (symmetry; apply Z.ltb_lt; lia).
  cbn [require mbind result_bind]. rewrite Hp, Hrep. cbn [mbind result_bind same_version require].
  by rewrite Z.eqb_refl.
Qed.

(** The device after an answered and released transaction. *)
Definition after_transaction (svc : MailboxService) : MailboxService :=
  set_transaction None None None (count_transaction svc).

(** BEGIN and the payload writes leave the mailbox holding the request. *)
Definition staged (q : WireRequest) (octets : string) (registers : list Z) (svc : MailboxService) : MailboxService :=
  set_transaction (Some (wq_transaction_id q)) (Some (request_header q octets registers)) None svc.
Lemma staging_served q octets registers mc c svc run R :
  wire_request_valid q → canonical_json_bytes (frame_dump q) = Ok octets → bytes_to_registers octets = Ok registers →
  view c = (svc, run, R) → Z.of_nat (length R) = REGISTER_COUNT → service_wf svc → phase svc = Idle →
  ∃ hr c1 c2 R2, RequestHeader_to_registers (request_header q octets registers) = Ok hr
    ∧ write_all 0 hr (mc, c) = (Ok tt, (mc, c1))
    ∧ write_chunks (length registers) 0 registers (mc, c1) = (Ok tt, (mc, c2))
    ∧ view c2 = (staged q octets registers svc, run, R2) ∧ holds_request q octets registers R2
    ∧ Z.of_nat (length R2) = REGISTER_COUNT.
Proof using SL.
  intros Hq Ho Hr Hv HR Hwf Hi. set (h := request_header q octets registers).
  destruct (dimensions_of _ _ Hr) as (Hdim & Hlen & Hmax & _).
  assert (Htid : (0 <= wq_transaction_id q < 2 ^ 64)%Z).
  { destruct Hq as [Hq _]. unfold WireRequest_validate in Hq. apply require_bind in Hq as [Hq _].
    unfold u64_field in Hq. bool_split. lia. }
  destruct (request_registers h) as (hr & Hhr & Hback & Hl32 & Hn0 & Hwords);
    [split; [exact Hdim|apply sha256_hex_shape]|exact Htid|exact Hlen|].
  set (svc1 := staged q octets registers svc).
  assert (Hbegin : action 0 0 (Z.of_nat (length hr)) (Some hr) (view c) = (Ok None, (svc1, run, clear_registers R))).
  { rewrite Hv, (header_write h) by done. by apply begin_served. }
  apply (write_all_served _ _ mc) in Hbegin as (c1 & Hw1 & Hv1); [|lia|done]. cbn [fst snd] in Hv1.
  set (R1 := set_slice (Z.to_nat 0) hr (clear_registers R)) in *.
  assert (HR1 : length R1 = length R).
  { unfold R1, clear_registers. rewrite set_slice_length; rewrite set_slice_length; rewrite ?repeat_length; consts; lia. }
  destruct (write_chunks_served (length registers) 0 registers mc c1 svc1 run R1) as (c2 & Hw2 & Hv2);
    [exact Hv1|done|done|lia|right; lia|lia|by eapply payload_words|consts; lia|].
  change (Z.to_nat (32 + 0)) with 32 in Hv2. set (R2 := set_slice 32 registers R1) in *.
  exists hr, c1, c2, R2. split_and!; [exact Hhr|exact Hw1|exact Hw2|exact Hv2| |].
  - split; [exact Hq|exact Ho|exact Hr| |].
    + change (firstn 32 R2) with (slice 0 32 R2). unfold R2. rewrite slice_other by (consts; lia).
      pose proof (slice_same 0 hr (clear_registers R)) as E. rewrite Hl32 in E. change (0 + 32) with 32 in E.
      unfold R1. change (Z.to_nat 0) with 0. rewrite E; [exact Hback|].
      unfold clear_registers. rewrite set_slice_length; rewrite ?repeat_length; consts; lia.
    + apply slice_same. consts. lia.
  - unfold R2. rewrite set_slice_length by (consts; lia). by rewrite HR1.
Qed.

(** The response survives the COMMIT word being stored over the header. *)
Lemma holds_response_stored r version octets registers R :
  Z.of_nat (length R) = REGISTER_COUNT → holds_response r version octets registers R →
  holds_response r version octets registers (set_slice 0 [enum_value COMMIT] R)
  ∧ Z.of_nat (length (set_slice 0 [enum_value COMMIT] R)) = REGISTER_COUNT.
Proof using Type.
  intros HR [? ? Hh Hp]. split; [|rewrite set_slice_length; [exact HR|cbn; consts; lia]].
  split; [done|done| |]; rewrite slice_other by (cbn; consts; lia); done.
Qed.

(** An exchange whose parts succeed. *)
Lemma link_exchange_run h hr octets registers mc c c1 c2 c3 c4 rh r :
  RequestHeader_to_registers h = Ok hr → write_all 0 hr (mc, c) = (Ok tt, (mc, c1)) →
  write_chunks (length registers) 0 registers (mc, c1) = (Ok tt, (mc, c2)) →
  write_register 0 (enum_value COMMIT) c2 = (Ok (Registers []), c3) →
  receive (rh_transaction_id h) (rh_operation h) octets (mc, c3) = (Ok (rh, r), (mc, c4)) →
  exchange h octets registers (mc, c, (false, false)) = (Ok r, (set_last_counter (ws_counter r) mc, c4, (true, true))).
Proof using Type.
  intros Hhr Hw1 Hw2 Hw3 Hrecv. unfold exchange. erewrite M_bind_run; cycle 1.
  { unfold on_client, zoom. cbn [fst snd]. unfold mbind, M_bind, lift. rewrite Hhr, Hw1. reflexivity. }
  cbn [fst snd]. erewrite M_bind_run; cycle 1.
  { unfold on_client, zoom. cbn [fst snd]. rewrite Hw2. reflexivity. }
  cbn [fst snd]. erewrite M_bind_run; cycle 1.
  { unfold on_client, on_wire, zoom. cbn [fst snd]. rewrite Hw3. reflexivity. }
  cbn [fst snd]. run. run. erewrite M_bind_run; cycle 1.
  { unfold on_client, zoom. cbn [fst snd]. rewrite Hrecv. reflexivity. }
  reflexivity.
Qed.

(** The device's response is well formed and verifies under the client's key. *)
Lemma answer_verifies `{!Ed25519Laws} mc c svc run run' op payload outcome digest r :
  linked mc c svc run → served mc svc run run' op payload outcome r →
  answers_request (mc_transaction_id mc + 1) op digest outcome.1.1.1 outcome.1.1.2 outcome.1.2 (svc, run', []) r →
  wire_response_valid r ∧ wire_verify r (mc_public_key mc) = Ok true.
Proof using Type.
  intros Hl Hs Har. split.
  - split; [apply Har|]. rewrite (ar_payload _ _ _ _ _ _ _ _ Har). apply (sv_payload _ _ _ _ _ _ _ _ Hs).
  - destruct (ar_signed _ _ _ _ _ _ _ _ Har) as [r0 Hr0]. cbn [fst] in Hr0. rewrite (lk_key _ _ _ _ Hl).
    apply (wire_signed_verifies r0); [done|apply (sv_signature _ _ _ _ _ _ _ _ Hs)].
Qed.

Lemma exchange_served `{!Ed25519Laws} mc c svc run run' op payload outcome r octets registers :
  linked mc c svc run → served mc svc run run' op payload outcome r →
  canonical_json_bytes (frame_dump (mk_WireRequest (mc_transaction_id mc + 1) op payload)) = Ok octets →
  bytes_to_registers octets = Ok registers →
  (signed_response (mc_transaction_id mc + 1) op (sha256_hex octets) outcome.1.1.1 outcome.1.1.2 outcome.1.2
     (svc, run', [])).1 = Ok r →
  let h := request_header (mk_WireRequest (mc_transaction_id mc + 1) op payload) octets registers in
  let mc' := set_last_counter (ws_counter r) (next_transaction mc) in
  ∃ c' svc' R, exchange h octets registers (next_transaction mc, c, (false, false))
      = (Ok (norm_wire_response r), (mc', c', (true, true)))
    ∧ view c' = (svc', run', R) ∧ Z.of_nat (length R) = REGISTER_COUNT
    ∧ active_header svc' = Some h ∧ terminal_transaction svc' = active_transaction svc'
    ∧ set_transaction None None None svc' = after_transaction svc.
Proof using SL.
  intros Hl Hs Ho Hr Hsig h mc'. pose proof Hl as [(R & Hv & HR) Hwf Hi Hk He Hc].
  pose proof (sv_request _ _ _ _ _ _ _ _ Hs) as Hq. set (q := mk_WireRequest _ op payload) in *.
  destruct (staging_served q octets registers (next_transaction mc) c svc run R Hq Ho Hr Hv HR Hwf Hi)
    as (hr & c1 & c2 & R2 & Hhr & Hw1 & Hw2 & Hv2 & Hholds & HR2).
  set (svc1 := staged q octets registers svc) in *.
  (* COMMIT *)
  destruct (sv_answer_fits _ _ _ _ _ _ _ _ Hs) as (octets' & registers' & Ho' & Hr').
  destruct outcome as [[[status code] pl] version]. cbn [fst snd] in *.
  destruct (commit_served q octets registers R2 svc1 run run' status code pl version r octets' registers')
    as (R3 & Hcommit & Hresp & HR3); [done|done|done|done| | |done|done| | |].
  { by apply (sv_application _ _ _ _ _ _ _ _ Hs). }
  { unfold svc1, staged. rewrite (signed_response_staged _ _ _ _ _ _ svc run' R2 _ _ _ []). exact Hsig. }
  { pose proof (sv_counter _ _ _ _ _ _ _ _ Hs). unfold svc1. cbn. lia. }
  { exact (sv_version _ _ _ _ _ _ _ _ Hs). }
  rewrite <- Hv2 in Hcommit. apply one_served in Hcommit as (c3 & Hw3 & Hv3); [|by unfold u16]. cbn [fst snd] in Hv3.
  change (Z.to_nat 0) with 0 in Hv3. set (R4 := set_slice 0 [enum_value COMMIT] R3) in *.
  destruct (holds_response_stored _ _ _ _ _ HR3 Hresp) as [Hresp4 HR4]. fold R4 in Hresp4, HR4.
  (* the response *)
  destruct (signed_response _ _ _ _ _ _ (svc, run', [])) as [sr m''] eqn:Es. cbn [fst] in Hsig. subst sr.
  apply signed_response_Ok in Es as [Har _].
  destruct (answer_verifies _ _ _ _ _ _ _ _ _ _ Hl Hs Har) as [Hval Hver].
  destruct (receive_served (rh_transaction_id h) (rh_operation h) octets r version octets' registers' R4
      (answered svc1) run' (next_transaction mc) c3) as (c4 & Hrecv & Hv4);
    [exact Hv3|exact HR4|exact Hresp4|exact Hval|apply Har|apply Har| |].
  { exact (check_response_served _ _ _ _ _ _ _ _ _ _ _ Hl Hs Har Hver Hval registers'). }
  exists c4, (answered svc1), R4. split.
  - by apply (link_exchange_run h hr octets registers _ c c1 c2 c3 c4 _ _ Hhr Hw1 Hw2 Hw3 Hrecv).
  - rewrite Hv4, Hv3. split_and!; [done|exact HR4|done|done|done].
Qed.

Lemma released_idle svc : service_wf (after_transaction svc) ∧ phase (after_transaction svc) = Idle.
Proof using Type. split; [split; [done|done|by left]|done]. Qed.

(** A served request returns the device's answer and leaves client and device
    ready for the next one. *)
Lemma request_served `{!Ed25519Laws} mc c svc run run' op payload outcome r :
  linked mc c svc run → served mc svc run run' op payload outcome r →
  ∃ mc' c', request op payload (mc, c) = (Ok (norm_wire_response r), (mc', c'))
    ∧ linked mc' c' (after_transaction svc) run'.
Proof using SL.
  intros Hl Hs. pose proof Hs as [Hq (octets & registers & Ho & Hr & Hsig) _ _ _ _ _ _ _ _].
  destruct (exchange_served mc c svc run run' op payload outcome r octets registers Hl Hs Ho Hr Hsig)
    as (c1 & svc1 & R1 & Hx & Hv1 & HR1 & Hh1 & Ht1 & Hafter).
  set (h := request_header _ octets registers) in *.
  destruct (dimensions_of _ _ Hr) as (Hdim & Hlen & Hmax & _).
  pose proof Hq as [Hq' _]. unfold WireRequest_validate in Hq'. apply require_bind in Hq' as [Htid _].
  unfold u64_field in Htid. bool_split.
  destruct (request_registers (as_release h)) as (hr & Hhr & Hback & Hl32 & Hn0 & Hwords);
    [split; [exact Hdim|apply sha256_hex_shape]|cbn in *; lia|exact Hlen|].
  assert (Hact : action 0 0 (Z.of_nat (length hr)) (Some hr) (view c1) = (Ok None, (after_transaction svc, run', R1))).
  { rewrite Hv1, (header_write (as_release h)) by done. rewrite <- Hafter. by apply release_served. }
  apply many_served in Hact as (c2 & Hw & Hv2); [|lia|done]. cbn [fst snd] in Hv2.
  exists (set_last_counter (ws_counter r) (next_transaction mc)), c2. split.
  - unfold request. run. run. cbn [next_transaction mc_transaction_id].
    erewrite M_bind_run by (unfold lift; rewrite (proj1 Hq); reflexivity).
    run_with Ho. pose proof (payload_round _ _ Hr) as (Hmaxb & _).
    replace (str_len octets <=? MAX_PAYLOAD_BYTES)%Z with true by (symmetry; by apply Z.leb_le). run.
    run_with Hr. unfold guarded_exchange. fold h.
    replace (exchange h octets registers (next_transaction mc, c, (false, false)))
      with (Ok (norm_wire_response r), (set_last_counter (ws_counter r) (next_transaction mc), c1, (true, true)))
      by (symmetry; exact Hx).
    cbv beta iota zeta. cbn [orb]. unfold release. erewrite M_bind_run; cycle 1.
    { unfold attempt, on_wire, zoom, mbind, M_bind, lift. rewrite Hhr. cbn [fst snd]. rewrite Hw. reflexivity. }
    reflexivity.
  - pose proof Hl as [_ _ _ Hk He Hc]. destruct (released_idle svc) as [Hwf Hph].
    split; [|exact Hwf|exact Hph|exact Hk|exact He|].
    + eexists. split; [exact Hv2|]. rewrite set_slice_length; [exact HR1|]. rewrite Hl32. change (Z.to_nat 0) with 0. consts. lia.
    + cbn. destruct (signed_response _ _ _ _ _ _ (svc, run', [])) as [sr m''] eqn:Es. cbn [fst] in Hsig. subst sr.
      apply signed_response_Ok in Es as [Har _]. rewrite (ar_counter _ _ _ _ _ _ _ _ Har). cbn. lia.
Qed.

(** ** The typed interface *)
(** Dumping and validating a model again gives the model, for the values that
    travel: valid ones whose dicts are in key order. *)
Class ModelLoadLaws (A : Type) `{ModelDump A} `{ModelLoad A} := {
  transportable : A → Prop;
  load_dump : ∀ a, transportable a → model_validate (canon (model_dump a)) = Ok a;
  dump_well_formed : ∀ a : A, transportable a → json_ok (model_dump a) = true;
}.
(** A dumped snapshot is an object with its version. *)
Class SnapshotDumpLaws : Prop := {
  snapshot_version : ∀ s : PhysicalStateSnapshot, json_ok (model_dump s) = true ∧ ∃ kv, model_dump s = JObj kv
    ∧ dict_get "state_version" kv = Some (JInt (ps_state_version s));
}.
Context {KPe : ModelLoadLaws ExecutionPermit} {KPr : ModelLoadLaws ActionProposal}
  {KDe : ModelLoadLaws Decision} {KAs : ModelLoadLaws CandidateAssessment}
  {KAc : ModelLoadLaws CommandAcknowledgment} {KSt : SnapshotDumpLaws}.

(** Both messages fit the mailbox, the numbers their fields, and the client was
    configured for this device. *)
Record fits (mc : ModbusClient) (svc : MailboxService) (run' : D * T * World) (op : WireOperation)
    (payload : list (string * json)) (outcome : Outcome) (r : SignedWireResponse) : Prop := {
  ft_transaction : (0 <= mc_transaction_id mc + 1 < 2 ^ 64)%Z;
  ft_request : ∃ octets registers,
    canonical_json_bytes (frame_dump (mk_WireRequest (mc_transaction_id mc + 1) op payload)) = Ok octets
    ∧ bytes_to_registers octets = Ok registers
    ∧ (signed_response (mc_transaction_id mc + 1) op (sha256_hex octets) outcome.1.1.1 outcome.1.1.2 outcome.1.2
         (svc, run', [])).1 = Ok r;
  ft_answer : ∃ octets registers,
    canonical_json_bytes (frame_dump r) = Ok octets ∧ bytes_to_registers octets = Ok registers;
  ft_counter : (0 <= transaction_counter svc + 1 < 2 ^ 64)%Z;
  ft_version : (0 <= outcome.2 < 2 ^ 64)%Z;
  ft_device : mi_device_id (mc_info mc) = device_id_of run'.1.1
              ∧ mi_device_key_id (mc_info mc) = acknowledgment_key_id_of run'.1.1;
  ft_signature : ws_signature r ≠ "";
}.

Lemma field_canonical kv k v : NoDup kv.*1 → dict_get k kv = Some v → field (canonical_payload kv) k = canon v.
Proof using Type. intros Hn Hg. unfold field. by rewrite canonical_get, Hg. Qed.

Lemma version_of_snapshot s : get_version (canon (model_dump s)) = Ok (JInt (ps_state_version s)).
Proof using KSt.
  destruct (snapshot_version s) as (Hok & kv & E & Hg). rewrite E in *. cbn [json_ok] in Hok. bool_split.
  rewrite canon_payload. unfold get_version. by rewrite (field_canonical kv _ (JInt (ps_state_version s))).
Qed.

Definition execute_payload (permit : ExecutionPermit) (proposal : ActionProposal) (decision : Decision)
    (assessment : CandidateAssessment) : list (string * json) :=
  [("permit", model_dump permit); ("proposal", model_dump proposal); ("decision", model_dump decision);
   ("assessment", model_dump assessment)].

Lemma execution_served mc svc (run run1 : D * T * World) permit proposal decision assessment ack post t2 r :
  transportable permit → transportable proposal → transportable decision → transportable assessment →
  transportable ack →
  device_execute permit proposal decision assessment run = (Ok ack, run1) →
  read_plant run1.1.2 = (Ok post, t2) →
  fits mc svc (run1.1.1, t2, run1.2) EXECUTE (execute_payload permit proposal decision assessment)
    (execution_outcome ack post) r →
  served mc svc run (run1.1.1, t2, run1.2) EXECUTE (execute_payload permit proposal decision assessment)
    (execution_outcome ack post) r.
Proof using Type*.
  intros Hp Hpr Hd Ha Hk Hex Hread [Ht Hrq Han Hc Hv Hdev Hsig].
  assert (Hnd : NoDup (execute_payload permit proposal decision assessment).*1) by by apply (bool_decide_unpack _).
  assert (Hout : execution_outcome ack post = ((execution_outcome ack post).1,  ps_state_version post)
    ∧ (execution_outcome ack post).1.2 = [("acknowledgment", model_dump ack); ("post_state", model_dump post)])
    by (unfold execution_outcome; by destruct (ack_status ack)).
  destruct Hout as [Hout1 Hout2]. split; [|exact Hrq| |exact Han|exact Hc|exact Hv| | |exact Hdev|exact Hsig].
  - split.
    + unfold WireRequest_validate, u64_field. cbn [wq_transaction_id].
      replace (_ && _) with true by (symmetry; apply andb_true_iff; lia). done.
    + cbn [wq_payload json_ok]. rewrite bool_decide_eq_true_2 by exact Hnd. cbn [execute_payload forallb].
      by rewrite !dump_well_formed.
  - intros svc' R Hepoch. unfold handle_application. cbn [wq_operation wq_payload].
    rewrite (field_canonical _ "permit" (model_dump permit) Hnd eq_refl),
      (field_canonical _ "proposal" (model_dump proposal) Hnd eq_refl),
      (field_canonical _ "decision" (model_dump decision) Hnd eq_refl),
      (field_canonical _ "assessment" (model_dump assessment) Hnd eq_refl), !load_dump by done. run. run. run. run.
    erewrite M_bind_run; cycle 1.
    { unfold attempt, mail_plant, mail_device, zoom, mbind, M_bind. cbn [fst snd]. rewrite Hex. cbn [fst snd]. rewrite Hread. reflexivity. }
    reflexivity.
  - rewrite Hout2. cbn [json_ok]. rewrite bool_decide_eq_true_2 by by apply (bool_decide_unpack _).
    cbn [forallb]. rewrite dump_well_formed by done. by rewrite (proj1 (snapshot_version post)).
  - rewrite Hout2, Hout1. cbn [snd]. unfold reported_version, get_or_empty.
    rewrite canonical_get by by apply (bool_decide_unpack _). cbn. apply version_of_snapshot.
Qed.

(** C35 Over a connection that serves every request of at most 123 written and 125
    read 16-bit registers, executing through the mailbox is executing on the
    device: whatever acknowledgment the device gives, applied, rejected or
    unknown, the client returns exactly it, the device and the plant end as after
    the direct call and a readback, and client and mailbox are left linked and
    idle, ready for the next request.  This is for a client and a mailbox that are
    linked and idle, artifacts that survive dump and load, and an exchange that
    [fits]: both messages within the mailbox's 8192 bytes, transaction number,
    device counter and state version within 64 bits, the device and key the client
    was configured for, and a signature that is not the empty text. *)
Theorem remote_execution `{!Ed25519Laws} mc c svc (run run1 : D * T * World) permit proposal decision assessment
    ack post t2 r :
  linked mc c svc run →
  transportable permit → transportable proposal → transportable decision → transportable assessment →
  transportable ack →
  device_execute permit proposal decision assessment run = (Ok ack, run1) →
  read_plant run1.1.2 = (Ok post, t2) →
  fits mc svc (run1.1.1, t2, run1.2) EXECUTE (execute_payload permit proposal decision assessment)
    (execution_outcome ack post) r →
  ∃ mc' c', client_execute permit proposal decision assessment (mc, c) = (Ok ack, (mc', c'))
    ∧ linked mc' c' (after_transaction svc) (run1.1.1, t2, run1.2).
Proof using SL KPe KPr KDe KAs KAc KSt.
  intros Hl Hp Hpr Hd Ha Hk Hex Hread Hfit.
  pose proof (execution_served _ _ _ _ _ _ _ _ _ _ _ _ Hp Hpr Hd Ha Hk Hex Hread Hfit) as Hs.
  destruct (request_served _ _ _ _ _ _ _ _ _ Hl Hs) as (mc' & c' & Hreq & Hl'). exists mc', c'. split; [|exact Hl'].
  destruct (sv_fits _ _ _ _ _ _ _ _ Hs) as (octets & registers & _ & _ & Hsr).
  destruct (signed_response _ _ _ _ _ _ _) as [sr m''] eqn:Es. cbn [fst] in Hsr. subst sr.
  apply signed_response_Ok in Es as [[_ _ _ Hst _ Hpl _ _ _ _] _].
  unfold client_execute. erewrite M_bind_run by exact Hreq. cbn [norm_wire_response ws_status ws_payload].
  assert (Hfield : ∀ k, dict_get k (canonical_payload (ws_payload r))
    = canon <$> dict_get k [("acknowledgment", model_dump ack); ("post_state", model_dump post)]).
  { intros k. rewrite Hpl. unfold execution_outcome. destruct (ack_status ack); cbn [fst snd];
      rewrite canonical_get by (by apply (bool_decide_unpack _)); reflexivity. }
  rewrite (bool_decide_eq_true_2 (ws_status r ∈ _)); cycle 1.
  { rewrite Hst. unfold execution_outcome. destruct (ack_status ack); cbn; set_solver. }
  unfold field. rewrite !Hfield. fields. cbn [fmap option_fmap option_map negb].
  rewrite (bool_decide_eq_true_2 (is_Some _)) by eauto. rewrite andb_false_r.
  change (default JNull (Some (canon (model_dump ack)))) with (canon (model_dump ack)).
  unfold lift. by rewrite load_dump.
Qed.
End link.
