(* ===== verification/ModbusDemo.v ===== *)
(** * The Modbus path at concrete inputs

    The physical demonstration's device and plant behind a mailbox, a connection
    that serves every call, and the permit of the physical path executed over it. *)
From S2P Require Import Prelude PyFloat PyStr PyTime PyJson Sha256 Crypto Models PyModel.
From S2P Require Import Delegation Replay Policy Safety Evidence Admission Gateway GatewayDemo.
From S2P Require Import PhysicalModels PhysicalControl PhysicalDevice PhysicalDemo.
From S2P Require Import ModbusWire ModbusMessages ModbusMailbox ModbusClient ModbusLink.
Import DemoEd25519 ModelsDemo DelegationDemo.
#[local] Existing Instance phys_env | 0.

(** ** What travels *)
Definition the_permit : ExecutionPermit := permit_of demo_permit_run.1.
Definition the_decision : Decision := demo_decision None.
Definition the_candidate : CandidateAssessment := demo_candidate (mk_DemoPlant 1 [] false).
Definition run_start : VirtualDevice * DemoPlant * World := (demo_device, mk_DemoPlant 1 [] false, mk_World 12 20).
Definition direct := device_execute the_permit proposal the_decision the_candidate run_start.
Definition the_ack : CommandAcknowledgment := ack_of direct.1.
Definition post_snapshot : PhysicalStateSnapshot := dp_read direct.2.1.2.

(** Validation of a form recognizes one known value. *)
Definition load_known {A} `{ModelDump A} (known : A) : json → result A :=
  λ j, if json_eqb j (canon (model_dump known)) then Ok known else invalid.
#[export] Instance load_permit : ModelLoad ExecutionPermit := load_known the_permit.
#[export] Instance load_proposal : ModelLoad ActionProposal := load_known proposal.
#[export] Instance load_decision : ModelLoad Decision := load_known the_decision.
#[export] Instance load_candidate : ModelLoad CandidateAssessment := load_known the_candidate.
#[export] Instance load_ack : ModelLoad CommandAcknowledgment := load_known the_ack.
#[export] Instance load_command : ModelLoad PhysicalControlCommand := load_known demo_command.
#[export] Instance load_snapshot : ModelLoad PhysicalStateSnapshot := load_known post_snapshot.

Lemma load_known_laws {A} `{ModelDump A} (known a : A) :
  a = known ∧ json_ok (model_dump known) = true → load_known known (canon (model_dump a)) = Ok a.
Proof. intros [-> _]. unfold load_known. by rewrite (proj2 (json_eqb_eq _ _) eq_refl). Qed.
Definition known_laws {A} `{DA : ModelDump A} (known : A) : ModelLoadLaws A (H0 := load_known known).
Proof.
  refine {| transportable := λ a, a = known ∧ json_ok (model_dump known) = true |}.
  - apply load_known_laws.
  - intros a [-> H]. exact H.
Defined.
#[export] Instance permit_laws : ModelLoadLaws ExecutionPermit := known_laws the_permit.
#[export] Instance proposal_laws : ModelLoadLaws ActionProposal := known_laws proposal.
#[export] Instance decision_laws : ModelLoadLaws Decision := known_laws the_decision.
#[export] Instance candidate_laws : ModelLoadLaws CandidateAssessment := known_laws the_candidate.
#[export] Instance ack_laws : ModelLoadLaws CommandAcknowledgment := known_laws the_ack.
#[export] Instance snapshot_laws : SnapshotDumpLaws.
Proof.
  split. intros s. split.
  - unfold model_dump, demo_snapshot_dump. cbn [json_ok forallb]. rewrite bool_decide_eq_true_2 by by apply (bool_decide_unpack _).
    cbn. rewrite andb_true_r. apply forallb_forall. intros x Hx. apply list_elem_of_In, list_elem_of_fmap in Hx as (y & -> & _). done.
  - eexists. split; [reflexivity|]. by fields.
Qed.

(** ** A connection that serves every call within the limits of one request

    Like the library, it refuses the others. *)
Abbreviation DemoMail := (MailboxService * (VirtualDevice * DemoPlant * World) * list Z)%type.
Definition serve (a : Z) (vs : list Z) (m : DemoMail) : result Reply * DemoMail :=
  if bool_decide (0 < length vs ≤ 123 ∧ Forall u16 vs) then
    match action 0 a (Z.of_nat (length vs)) (Some vs) m with
    | (Ok None, m') => (Ok (Registers []), (m'.1, set_slice (Z.to_nat a) vs m'.2))
    | (_, m') => (Ok ErrorReply, m')
    end
  else (Ok ErrorReply, m).
#[export] Instance direct_connection : ModbusTransport DemoMail := {|
  write_registers := serve;
  write_register a v := serve a [v];
  read_holding_registers a n m :=
    (Ok (if ((0 <? n) && (n <=? 125))%Z then Registers (slice (Z.to_nat a) (Z.to_nat (a + n)) m.2) else ErrorReply), m);
|}.
Lemma serve_accepted a vs (c m : DemoMail) :
  0 < length vs ≤ 123 → Forall u16 vs →
  action 0 a (Z.of_nat (length vs)) (Some vs) c = (Ok None, m) →
  serve a vs c = (Ok (Registers []), (m.1, set_slice (Z.to_nat a) vs m.2)).
Proof. intros Hn Hu H. unfold serve. rewrite bool_decide_eq_true_2 by done. by rewrite H. Qed.
#[export] Instance direct_laws : ModbusServerLaws (λ m : DemoMail, m).
Proof.
  split.
  - intros a vs c m Hn Hu H. eexists. split; [by apply serve_accepted|done].
  - intros a v c m Hu H. eexists. split; [apply (serve_accepted a [v] c m); [simpl; lia|by constructor|exact H]|done].
  - intros a n c _ Hn _. exists c. split; [|done]. unfold read_holding_registers, direct_connection.
    by replace ((0 <? n) && (n <=? 125))%Z with true by (symmetry; apply andb_true_iff; lia).
Qed.

Definition epoch : string := "boot-epoch-0000000001".
Definition mail_start : DemoMail :=
  (MailboxService_init "device-key" epoch, run_start, repeat 0%Z (Z.to_nat REGISTER_COUNT)).
Definition demo_info : ModbusDeviceInfo :=
  mk_ModbusDeviceInfo "127.0.0.1" 5020 1 epoch "device-1" "device-1" "device-key-1" "" (zeros 64) "demo-simulator" 1.
Definition demo_client : ModbusClient := mk_ModbusClient demo_info (public_of "device-key") 0 0.

Lemma demo_linked : linked (λ m : DemoMail, m) demo_client mail_start mail_start.1.1 run_start.
Proof.
  split; [|split; [done|done|by left]|done|done|done|done].
  exists (repeat 0%Z (Z.to_nat REGISTER_COUNT)). split; [done|]. rewrite repeat_length. done.
Qed.

(** ** The permit of the physical path, through the mailbox *)
Definition demo_payload : list (string * json) := execute_payload the_permit proposal the_decision the_candidate.
Definition demo_outcome : Outcome := execution_outcome the_ack post_snapshot.
Definition ok_or {A} (d : A) (r : result A) : A := match r with Ok a => a | Raise _ => d end.
Lemma ok_or_Ok {A} (d : A) r : is_Ok r = true → r = Ok (ok_or d r).
Proof. by destruct r. Qed.

Definition direct_end : VirtualDevice * DemoPlant * World := direct.2.
Definition request_octets : string :=
  ok_or "" (canonical_json_bytes (frame_dump (mk_WireRequest (mc_transaction_id demo_client + 1) EXECUTE demo_payload))).
Definition demo_answer : SignedWireResponse :=
  ok_or (mk_SignedWireResponse 0 EXECUTE "" COMPLETE WIRE_OK [] "" "" "" "" 0 "")
    (signed_response (mc_transaction_id demo_client + 1) EXECUTE (sha256_hex request_octets) demo_outcome.1.1.1
       demo_outcome.1.1.2 demo_outcome.1.2 (mail_start.1.1, direct_end, [])).1.

Lemma demo_fits : fits demo_client mail_start.1.1 direct_end EXECUTE demo_payload demo_outcome demo_answer.
Proof.
  split; [vm_compute; by split| | |vm_compute; by split..|by vm_compute].
  - eexists request_octets, _. split_and!; [apply ok_or_Ok|apply (ok_or_Ok [])|apply ok_or_Ok]; by vm_compute.
  - eexists _, _. split; [apply (ok_or_Ok "")|apply (ok_or_Ok [])]; by vm_compute.
Qed.

Lemma direct_run : direct = (Ok the_ack, direct_end).
Proof.
  pose proof (surjective_pairing direct) as E. assert (E1 : direct.1 = Ok the_ack) by by vm_compute.
  rewrite E1 in E. exact E.
Qed.
Lemma direct_fits :
  fits demo_client mail_start.1.1 (direct_end.1.1, direct_end.1.2, direct_end.2) EXECUTE demo_payload demo_outcome demo_answer.
Proof.
  pose proof demo_fits as H. rewrite (surjective_pairing direct_end), (surjective_pairing direct_end.1) in H. exact H.
Qed.

Lemma remote_execution_witness :
  ∃ mc' c', client_execute the_permit proposal the_decision the_candidate (demo_client, mail_start)
    = (Ok the_ack, (mc', c'))
  ∧ linked (λ m : DemoMail, m) mc' c' (after_transaction mail_start.1.1) (direct_end.1.1, direct_end.1.2, direct_end.2)
  ∧ ack_status the_ack = APPLIED.
Proof.
  destruct (remote_execution (λ m : DemoMail, m) demo_client mail_start mail_start.1.1 run_start direct_end
    the_permit proposal the_decision the_candidate the_ack post_snapshot direct_end.1.2 demo_answer)
    as (mc' & c' & H & Hl);
    [exact demo_linked|split; [reflexivity|by vm_compute]..|exact direct_run|reflexivity|exact direct_fits|].
  exists mc', c'. split; [exact H|]. split; [exact Hl|by vm_compute].
Defined.

Lemma request_believable_witness :
  ∃ s', request EXECUTE demo_payload (demo_client, mail_start) = (Ok (norm_wire_response demo_answer), s')
  ∧ last_device_counter s'.1 = 1%Z
  ∧ ∃ q octets, canonical_json_bytes (frame_dump q) = Ok octets ∧ wq_payload q = demo_payload
      ∧ believable (next_transaction demo_client) 1 EXECUTE octets (norm_wire_response demo_answer).
Proof.
  opose proof* (execution_served (λ m : DemoMail, m) demo_client mail_start.1.1 run_start direct_end
    the_permit proposal the_decision the_candidate the_ack post_snapshot direct_end.1.2 demo_answer) as Hs;
    [split; [reflexivity|by vm_compute]..|exact direct_run|reflexivity|exact direct_fits|].
  destruct (request_served (λ m : DemoMail, m) _ _ _ _ _ _ _ _ _ demo_linked Hs) as (mc' & c' & H & _).
  exists (mc', c'). split; [exact H|].
  destruct (request_believable _ _ _ _ _ H) as (q & octets & Hq & Ho & Hb & Hc).
  split; [rewrite Hc; by vm_compute|]. exists q, octets. split; [exact Ho|]. split; [by rewrite Hq|].
  rewrite Hq in Hb. exact Hb.
Defined.

(** ** A connection that accepts writes and answers nothing *)
Definition mute_connection : ModbusTransport unit := {|
  write_registers a vs := mret (Registers []);
  write_register a v := mret (Registers []);
  read_holding_registers a n := throw "ModbusIOException" "no response";
|}.
Definition mute_run :=
  client_execute (MT := logged_transport (H := mute_connection)) the_permit proposal the_decision the_candidate
    (demo_client, (tt, [])).
Definition exn_or {A} (r : result A) : exn := match r with Ok _ => mk_exn "" "" | Raise e => e end.
Lemma raised {A S} (x : result A * S) : is_Ok x.1 = false → x = (Raise (exn_or x.1), x.2).
Proof. by destruct x as [[] ?]. Qed.

(** ** A connection that loses the reply to COMMIT *)
Definition lossy_connection : ModbusTransport DemoMail := {|
  write_registers := serve;
  write_register a v m := (raise_ "ModbusIOException" "no response received", (serve a [v] m).2);
  read_holding_registers := read_holding_registers (ModbusTransport := direct_connection);
|}.
Definition lossy_run := request (MT := lossy_connection) EXECUTE demo_payload (demo_client, mail_start).
(** The device applied the permit; the client reports a plain transport error,
    as for a request that was never committed, and released the mailbox. *)
Lemma lost_commit_reply :
  lossy_run.1 = raise_ "ModbusTransportError" "Modbus mailbox transaction failed"
  ∧ dp_version lossy_run.2.2.1.2.1.2 = (dp_version run_start.1.2 + 1)%Z
  ∧ phase lossy_run.2.2.1.1 = Idle.
Proof. split_and!; by vm_compute. Qed.

(** ** A run of register writes: the permit is executed, the mailbox released, and
    the request sent once more *)
Definition do_call (a : Z) (vs : list Z) (s : DemoMail) : mail_call :=
  mk_call s (action 0 a (Z.of_nat (length vs)) (Some vs) s).1 (action 0 a (Z.of_nat (length vs)) (Some vs) s).2.
Lemma run_call a vs (s : DemoMail) m cs m' :
  m = s.1.1 → mail_run (after (do_call a vs s)).1.1 cs m' → mail_run m (do_call a vs s :: cs) m'.
Proof. intros -> H. eapply mail_run_cons; [apply surjective_pairing|exact H]. Qed.

Definition payload_registers : list Z := ok_or [] (bytes_to_registers request_octets).
Definition demo_header : RequestHeader :=
  request_header (mk_WireRequest 1 EXECUTE demo_payload) request_octets payload_registers.
Definition header_of (h : RequestHeader) : list Z := ok_or [] (RequestHeader_to_registers h).
(** The registers once header and payload were stored. *)
Definition staged_registers (s : DemoMail) : DemoMail :=
  (s.1, set_slice 32 payload_registers (set_slice 0 (header_of demo_header) s.2)).
Definition call_begin : mail_call := do_call 0 (header_of demo_header) mail_start.
Definition call_commit : mail_call := do_call 0 [enum_value COMMIT] (staged_registers (after call_begin)).
Definition call_release : mail_call := do_call 0 (header_of (as_release demo_header)) (after call_commit).
Definition call_again : mail_call := do_call 0 (header_of demo_header) (after call_release).
Definition call_repeat : mail_call := do_call 0 [enum_value COMMIT] (staged_registers (after call_again)).

Lemma mailbox_refines_protocol_witness :
  service_wf (after call_begin).1.1 ∧ protocol_step mail_start (answer call_begin) (after call_begin)
  ∧ phase (after call_begin).1.1 = Staged demo_header.
Proof.
  destruct (mailbox_refines_protocol 0 0 (Z.of_nat (length (header_of demo_header))) (Some (header_of demo_header)) mail_start _ _
    ltac:(split; [done|done|by left]) (surjective_pairing _)) as [Hw Hs].
  split; [exact Hw|]. split; [exact Hs|by vm_compute].
Defined.

Definition world_spent (c : mail_call (D := VirtualDevice) (T := DemoPlant)) : nat * nat :=
  (w_clock (before c).1.2.2, w_clock (after c).1.2.2).
Lemma spent_reached c : (world_spent c).1 ≠ (world_spent c).2 → reached c.
Proof. intros Hn He. apply Hn. unfold world_spent. cbn. by rewrite He. Qed.

Lemma staged_service (s : DemoMail) : (staged_registers s).1.1 = s.1.1.
Proof. done. Qed.
Lemma demo_calls :
  mail_run mail_start.1.1 ([call_begin] ++ call_commit :: [call_release; call_again] ++ [call_repeat])
    (after call_repeat).1.1.
Proof.
  refine (run_call 0 _ mail_start _ _ _ eq_refl _).
  refine (run_call 0 _ (staged_registers (after call_begin)) _ _ _ (eq_sym (staged_service _)) _).
  refine (run_call 0 _ (after call_commit) _ _ _ eq_refl _).
  refine (run_call 0 _ (after call_release) _ _ _ eq_refl _).
  refine (run_call 0 _ (staged_registers (after call_again)) _ _ _ (eq_sym (staged_service _)) _).
  exact (mail_run_nil _).
Qed.

Lemma answered_at_most_once_witness :
  (∃ h, phase (before call_commit).1.1 = Staged h) ∧ existsb released [call_release; call_again] = true
  ∧ world_spent call_commit = (12, 15).
Proof.
  destruct (answered_at_most_once mail_start.1.1 [call_begin] call_commit [call_release; call_again] call_repeat []
    (after call_repeat).1.1) as [Hs He].
  - exact demo_calls.
  - split; [done|done|by left].
  - by vm_compute.
  - apply spent_reached. by vm_compute.
  - apply spent_reached. by vm_compute.
  - split; [exact Hs|]. split; [exact He|]. vm_compute. reflexivity.
Defined.
