(* ===== verification/DegradedModels.v ===== *)
(** * Degraded-operation models ([src/src/aegis_ot/m5_degraded.py], up to the gate)

    The runtime snapshot, the signed degraded-mode lease and its reversal, the
    results and the monotonic operation state, each with its construction check.
    Role conditions are maps; a constructed snapshot covers every role. *)
From S2P Require Import Prelude PyFloat PyStr PyTime PyJson Sha256 Crypto Models Admission.

Inductive RoleCondition := HEALTHY | UNAVAILABLE | UNTRUSTED | UNKNOWN | CONFLICTING | COMPROMISED.
#[export] Instance RoleCondition_eq_dec : EqDecision RoleCondition.
Proof. solve_decision. Defined.
Definition RoleCondition_value (c : RoleCondition) : string :=
  match c with
  | HEALTHY => "healthy" | UNAVAILABLE => "unavailable" | UNTRUSTED => "untrusted"
  | UNKNOWN => "unknown" | CONFLICTING => "conflicting" | COMPROMISED => "compromised"
  end.

Inductive DegradedBehavior := BEHAVE_SAFE_STATE | BEHAVE_HOLD_STATE | MISSION_PRESERVING.
#[export] Instance DegradedBehavior_eq_dec : EqDecision DegradedBehavior.
Proof. solve_decision. Defined.

Record RoleLossPolicy := mk_RoleLossPolicy {
  behavior : DegradedBehavior;
  mission_preserving_eligible : bool;
}.
Definition RoleLossPolicy_validate (p : RoleLossPolicy) : result RoleLossPolicy :=
  _ ← require (Bool.eqb (mission_preserving_eligible p) (bool_decide (behavior p = MISSION_PRESERVING)))
      "ValidationError" "role-loss behavior and mission-preserving eligibility disagree";
  Ok p.

(** The behaviors and eligibility of [ROLE_LOSS_POLICIES]; the effect texts are prose. *)
Definition ROLE_LOSS_POLICIES (r : DegradedRole) : RoleLossPolicy :=
  match r with
  | IDENTITY | POLICY | GATEWAY => mk_RoleLossPolicy BEHAVE_SAFE_STATE false
  | EVIDENCE | OBSERVER | EVALUATOR | COORDINATION | OT_ADAPTER => mk_RoleLossPolicy BEHAVE_HOLD_STATE false
  | MANAGEMENT => mk_RoleLossPolicy MISSION_PRESERVING true
  end.

Definition timezone_aware (t : datetime) (label : string) : result datetime :=
  if dt_aware t then Ok (utc (dt_utc t)) else raise_ "ValueError" (label +:+ " must be timezone-aware").

(** ** Runtime snapshots *)
Record DegradedRuntimeSnapshot := mk_DegradedRuntimeSnapshot {
  snapshot_id : string;
  captured_at : datetime;
  role_conditions : list (DegradedRole * RoleCondition);
  communication_conditions : list (DegradedRole * RoleCondition);
  unresolved_effect : bool;
}.

Fixpoint condition (m : list (DegradedRole * RoleCondition)) (r : DegradedRole) : option RoleCondition :=
  match m with
  | [] => None
  | (r', c) :: m => if bool_decide (r = r') then Some c else condition m r
  end.

(** A dict with exactly the nine roles as keys. *)
Definition covers_roles (m : list (DegradedRole * RoleCondition)) : bool :=
  bool_decide (NoDup m.*1) && forallb (λ r, bool_decide (is_Some (condition m r))) all_roles.

Definition DegradedRuntimeSnapshot_validate (s : DegradedRuntimeSnapshot) :
    result DegradedRuntimeSnapshot :=
  _ ← require (min_length 16 (snapshot_id s) && (str_len (snapshot_id s) <=? 128)%Z)
      "ValidationError" "field constraint";
  at_ ← timezone_aware (captured_at s) "degraded runtime snapshot time";
  _ ← require (covers_roles (role_conditions s)) "ValidationError"
      "degraded snapshot must cover every runtime role exactly";
  _ ← require (covers_roles (communication_conditions s)) "ValidationError"
      "degraded snapshot must cover every runtime communication path exactly";
  Ok (mk_DegradedRuntimeSnapshot (snapshot_id s) at_ (role_conditions s)
        (communication_conditions s) (unresolved_effect s)).

Definition healthy (m : list (DegradedRole * RoleCondition)) (r : DegradedRole) : bool :=
  bool_decide (condition m r = Some HEALTHY).

(** The property [affected_roles], in the enumeration's order. *)
Definition affected_roles (s : DegradedRuntimeSnapshot) : list DegradedRole :=
  List.filter (λ r, negb (healthy (role_conditions s) r) || negb (healthy (communication_conditions s) r))
    all_roles.

Definition is_all_healthy (s : DegradedRuntimeSnapshot) : bool := bool_decide (affected_roles s = []).

(** ** The degraded-mode lease *)
Record DegradedModeAuthorization := mk_DegradedModeAuthorization {
  authorization_id : string;
  auth_sequence : Z;
  auth_authority_id : string;
  auth_mode_name : string;
  auth_behavior : DegradedBehavior;
  auth_affected_roles : list DegradedRole;
  allowed_actor_ids_ : gset string;
  allowed_mission_ids : gset string;
  allowed_resources : gset string;
  allowed_operations : gset Operation;
  maximum_risk_score : float;
  auth_snapshot_sha256 : string;
  auth_recovery_checkpoint_id : string;
  auth_nonce : string;
  auth_issued_at : datetime;
  auth_expires_at : datetime;
  auth_signature : string;
}.

Definition len_between (lo hi : Z) (s : string) : bool := (lo <=? str_len s)%Z && (str_len s <=? hi)%Z.
Definition set_between (hi : nat) (s : gset string) : bool := (1 <=? size s)%nat && (size s <=? hi)%nat.
Definition lower_or_digit (c : Ascii.ascii) : bool :=
  is_digit c || ((97 <=? ord c)%Z && (ord c <=? 122)%Z).
(** [^[a-z0-9][a-z0-9._:-]{2,127}$] *)
Definition mode_pattern (s : string) : bool :=
  len_between 3 128 s && starts_with_p lower_or_digit s
  && str_forallb (λ c, lower_or_digit c || bool_decide (c ∈ ["."; "_"; ":"; "-"]%char)) s.
(** Non-empty and without whitespace. *)
Definition canonical_text (s : string) : bool := negb (bool_decide (s = "")) && negb (has_space s).

Definition DegradedModeAuthorization_validate (a : DegradedModeAuthorization) :
    result DegradedModeAuthorization :=
  _ ← require (len_between 16 128 (authorization_id a) && (1 <=? auth_sequence a)%Z
               && len_between 1 256 (auth_authority_id a) && mode_pattern (auth_mode_name a)
               && negb (bool_decide (auth_affected_roles a = []))
               && set_between 128 (allowed_actor_ids_ a) && set_between 32 (allowed_mission_ids a)
               && set_between 128 (allowed_resources a) && negb (bool_decide (allowed_operations a = ∅))
               && f_between f0 f100 (maximum_risk_score a) && is_sha256 (auth_snapshot_sha256 a)
               && len_between 16 128 (auth_recovery_checkpoint_id a) && len_between 16 256 (auth_nonce a))
      "ValidationError" "field constraint";
  issued ← timezone_aware (auth_issued_at a) "degraded authorization time";
  expires ← timezone_aware (auth_expires_at a) "degraded authorization time";
  _ ← require (dt_ltb issued expires) "ValidationError"
      "degraded authorization expiry must follow issuance";
  _ ← require (forallb canonical_text
                 ([authorization_id a; auth_authority_id a; auth_mode_name a;
                   auth_recovery_checkpoint_id a; auth_nonce a]
                  ++ elements (allowed_actor_ids_ a) ++ elements (allowed_mission_ids a)
                  ++ elements (allowed_resources a)))
      "ValidationError" "degraded authorization scope contains noncanonical text";
  Ok (mk_DegradedModeAuthorization (authorization_id a) (auth_sequence a) (auth_authority_id a)
        (auth_mode_name a) (auth_behavior a) (auth_affected_roles a) (allowed_actor_ids_ a)
        (allowed_mission_ids a) (allowed_resources a) (allowed_operations a) (maximum_risk_score a)
        (auth_snapshot_sha256 a) (auth_recovery_checkpoint_id a) (auth_nonce a) issued expires
        (auth_signature a)).

(** ** Reversals *)
Record DegradedModeReversal := mk_DegradedModeReversal {
  reversal_id : string;
  rev_sequence : Z;
  rev_authority_id : string;
  rev_authorization_id : string;
  rev_authorization_sha256 : string;
  rev_recovery_checkpoint_id : string;
  reason_code : string;
  rev_nonce : string;
  rev_issued_at : datetime;
  rev_signature : string;
}.

Definition reason_code_pattern (s : string) : bool :=
  len_between 3 128 s && starts_with_p (λ c, (97 <=? ord c)%Z && (ord c <=? 122)%Z) s
  && str_forallb (λ c, lower_or_digit c || bool_decide (c = "_"%char)) s.

Definition DegradedModeReversal_validate (r : DegradedModeReversal) : result DegradedModeReversal :=
  _ ← require (len_between 16 128 (reversal_id r) && (1 <=? rev_sequence r)%Z
               && len_between 1 256 (rev_authority_id r) && len_between 16 128 (rev_authorization_id r)
               && is_sha256 (rev_authorization_sha256 r)
               && len_between 16 128 (rev_recovery_checkpoint_id r)
               && reason_code_pattern (reason_code r) && len_between 16 256 (rev_nonce r))
      "ValidationError" "field constraint";
  issued ← timezone_aware (rev_issued_at r) "degraded reversal time";
  _ ← require (negb (existsb has_space [reversal_id r; rev_authority_id r; rev_authorization_id r;
                                        rev_recovery_checkpoint_id r; reason_code r; rev_nonce r]))
      "ValidationError" "degraded reversal fields contain noncanonical text";
  Ok (mk_DegradedModeReversal (reversal_id r) (rev_sequence r) (rev_authority_id r)
        (rev_authorization_id r) (rev_authorization_sha256 r) (rev_recovery_checkpoint_id r)
        (reason_code r) (rev_nonce r) issued (rev_signature r)).

Record DegradedReversalResult := mk_DegradedReversalResult {
  applied : bool;
  reversal_reasons : list string;
  reversal_evaluated_at : datetime;
  result_authorization_sha256 : string;
  result_reversal_sha256 : string;
  reversal_event_sha256 : string;
}.
Definition DegradedReversalResult_validate (r : DegradedReversalResult) : result DegradedReversalResult :=
  _ ← require (negb (bool_decide (reversal_reasons r = [])) && is_sha256 (result_authorization_sha256 r)
               && is_sha256 (result_reversal_sha256 r) && is_sha256 (reversal_event_sha256 r))
      "ValidationError" "field constraint";
  _ ← timezone_aware (reversal_evaluated_at r) "degraded reversal result time";
  _ ← require (bool_decide (NoDup (reversal_reasons r))) "ValidationError"
      "degraded reversal reasons must be unique";
  Ok r.

(** ** Monotonic operation state *)
Definition MAX_DEGRADED_STATE_ENTRIES : nat := N.to_nat 10000.
#[global] Arguments MAX_DEGRADED_STATE_ENTRIES : simpl never.

Record DegradedOperationState := mk_DegradedOperationState {
  state_authority_id : string;
  highest_authorization_sequence : Z;
  active_authorization_sha256 : option string;
  highest_reversal_sequence : Z;
  accepted_reversal_nonce_sha256 : list string;
  revoked_authorization_sha256 : list string;
}.

(** [value == tuple(sorted(set(value)))]: strictly increasing *)
Fixpoint strictly_sorted (l : list string) : bool :=
  match l with
  | a :: (b :: _) as l' => str_ltb a b && strictly_sorted l'
  | _ => true
  end.
Definition digest_list_ok (l : list string) : bool :=
  (length l <=? MAX_DEGRADED_STATE_ENTRIES)%nat && forallb is_sha256 l && strictly_sorted l.

Definition DegradedOperationState_validate (s : DegradedOperationState) : result DegradedOperationState :=
  _ ← require (len_between 1 256 (state_authority_id s) && (0 <=? highest_authorization_sequence s)%Z
               && match active_authorization_sha256 s with Some d => is_sha256 d | None => true end
               && (0 <=? highest_reversal_sequence s)%Z)
      "ValidationError" "field constraint";
  _ ← require (digest_list_ok (accepted_reversal_nonce_sha256 s)
               && digest_list_ok (revoked_authorization_sha256 s))
      "ValidationError" "degraded operation state digests must be sorted and unique";
  _ ← require (Bool.eqb (highest_authorization_sequence s =? 0)%Z
                 (bool_decide (active_authorization_sha256 s = None)))
      "ValidationError" "degraded authorization sequence and active digest disagree";
  Ok s.

Definition DegradedOperationState_initial (authority : string) : result DegradedOperationState :=
  DegradedOperationState_validate (mk_DegradedOperationState authority 0 None 0 [] []).

(** ** Facts the gate relies on *)
Lemma RoleLossPolicies_valid r : RoleLossPolicy_validate (ROLE_LOSS_POLICIES r) = Ok (ROLE_LOSS_POLICIES r).
Proof. by destruct r. Qed.

Lemma all_roles_complete r : r ∈ all_roles.
Proof. destruct r; unfold all_roles; set_solver. Qed.

Lemma elem_of_affected s r :
  r ∈ affected_roles s
  ↔ condition (role_conditions s) r ≠ Some HEALTHY ∨ condition (communication_conditions s) r ≠ Some HEALTHY.
Proof.
  unfold affected_roles, healthy. rewrite list_elem_of_In, List.filter_In, <- list_elem_of_In.
  pose proof (all_roles_complete r). rewrite orb_true_iff, !negb_true_iff, !bool_decide_eq_false. tauto.
Qed.

Lemma timezone_aware_Ok t l u : timezone_aware t l = Ok u → u = utc (dt_utc t) ∧ dt_aware t = true.
Proof. unfold timezone_aware. by destruct (dt_aware t); intros [=]. Qed.

Lemma DegradedOperationState_validate_Ok s s' :
  DegradedOperationState_validate s = Ok s' → s' = s.
Proof. unfold DegradedOperationState_validate. intros H. by inv_ok. Qed.
