(* ===== verification/DegradedGate.v ===== *)
(** * The degraded-operation gate ([src/src/aegis_ot/m5_degraded.py], [DegradedOperationGate])

    [evaluate] decides only whether a proposal may enter primary assurance;
    [apply_reversal] revokes one lease.  The snapshot and lease sources are the
    class [Sources]; durable state is the class [StateStore], with the in-memory
    store here and the file store in DegradedStore.v. *)
From S2P Require Import Prelude PyFloat PyStr PyTime PyJson Sha256 Crypto Models Admission.
From S2P Require Import DegradedModels.
From stdpp Require Import sorting.

(** ** Sources and stores *)
(** What a source call gives: an instance of the expected model, [None], or an
    object of another type. *)
Inductive sourced (A : Type) := Instance_of (a : A) | NoneValue | OtherObject.
Arguments Instance_of {A} a.
Arguments NoneValue {A}.
Arguments OtherObject {A}.

Class Sources (S : Type) := {
  snapshot_source : M S (sourced DegradedRuntimeSnapshot);
  authorization_source : M S (sourced DegradedModeAuthorization);
}.

(** [update] runs the transition, a closure with its own mutable variables [X]. *)
Class StateStore (T : Type) := {
  store_read : M T DegradedOperationState;
  store_update : ∀ {X}, (DegradedOperationState → M X DegradedOperationState) →
                        M (T * X) DegradedOperationState;
}.

(** What the state may become through this or another process. *)
Record evolves (s s' : DegradedOperationState) : Prop := {
  ev_authority : state_authority_id s' = state_authority_id s;
  ev_sequence : (highest_authorization_sequence s <= highest_authorization_sequence s')%Z;
  ev_reversal : (highest_reversal_sequence s <= highest_reversal_sequence s')%Z;
  ev_nonces : accepted_reversal_nonce_sha256 s ⊆ accepted_reversal_nonce_sha256 s';
  ev_revoked : revoked_authorization_sha256 s ⊆ revoked_authorization_sha256 s';
}.

(** A transition that returns a constructed state when given one. *)
Definition constructs {X} (f : DegradedOperationState → M X DegradedOperationState) : Prop :=
  ∀ s x s' x', DegradedOperationState_validate s = Ok s → f s x = (Ok s', x') →
    DegradedOperationState_validate s' = Ok s'.

(** A store holds a durable state, [durable].  A call sees it, or a state it
    evolved to; an update that returns made the transition's state durable, one
    that raises left the seen state or, when only the last flush failed, the
    transition's. *)
Class StateStoreLaws (T : Type) `{StateStore T} := {
  durable : T → DegradedOperationState;
  read_seen : ∀ t res t', store_read t = (res, t') →
    evolves (durable t) (durable t') ∧ (∀ s, res = Ok s → s = durable t');
  update_seen : ∀ X f t (x : X) res t' x', constructs f → store_update f (t, x) = (res, (t', x')) →
    ∃ s, evolves (durable t) s ∧
      match res with
      | Ok s' => s' = durable t' ∧ f s x = (Ok s', x') ∧ state_authority_id s' = state_authority_id s
      | Raise _ => durable t' = s ∨ (∃ x1, f s x = (Ok (durable t'), x1))
                                    ∧ state_authority_id (durable t') = state_authority_id s
      end;
}.

(** [InMemoryDegradedOperationStateStore]: the typed transition always returns a
    [DegradedOperationState]. *)
Definition InMemory_read : M DegradedOperationState DegradedOperationState := get.
Definition InMemory_update {X} (f : DegradedOperationState → M X DegradedOperationState) :
    M (DegradedOperationState * X) DegradedOperationState := λ tx,
  let '(t, x) := tx in
  match f t x with
  | (Raise e, x) => (Raise e, (t, x))
  | (Ok updated, x) =>
      if bool_decide (state_authority_id updated = state_authority_id t) then (Ok updated, (updated, x))
      else (raise_ "ValueError" "degraded state transition changed the authority", (t, x))
  end.
#[export] Instance in_memory_store : StateStore DegradedOperationState :=
  {| store_read := InMemory_read; store_update := @InMemory_update |}.

#[export] Instance evolves_preorder : PreOrder evolves.
Proof.
  split; [by split|]. intros a b c [] []. split; [congruence|lia|lia|set_solver|set_solver].
Qed.

#[export] Instance in_memory_laws : StateStoreLaws DegradedOperationState.
Proof.
  refine {| durable := id |}.
  - intros t res t' [= <- <-]. split; [done|]. by intros s [= ->].
  - intros X f t x res t' x' _. unfold store_update; simpl. unfold InMemory_update.
    destruct (f t x) as [[s|e] x1] eqn:Hf; [case_bool_decide|]; intros [= <- <- <-];
      exists t; (split; [done|]); [done|by left..].
Defined.

(** [key=str] on roles: by value *)
Definition role_le (a b : DegradedRole) : Prop := str_le (DegradedRole_value a) (DegradedRole_value b).
#[export] Instance role_le_dec a b : base.Decision (role_le a b).
Proof. unfold role_le. apply _. Defined.

Section gate.
Context {ED : Ed25519} {E : Env}.
Context {S : Type} {HS : Sources S} {T : Type} {HT : StateStore T}.
Context {DSn : ModelDump DegradedRuntimeSnapshot} {DAu : ModelDump DegradedModeAuthorization}
  {DRe : ModelDump DegradedModeReversal}.

Definition DEGRADED_AUTHORIZATION_DOMAIN : string :=
  "aegis-ot:m5:degraded-mode-authorization:v1" +:+ String (chr 0) "".
Definition DEGRADED_REVERSAL_DOMAIN : string :=
  "aegis-ot:m5:degraded-mode-reversal:v1" +:+ String (chr 0) "".

Definition snapshot_digest (s : DegradedRuntimeSnapshot) : result string := canonical_digest (model_dump s).
Definition authorization_digest (a : DegradedModeAuthorization) : result string :=
  canonical_digest (model_dump a).
Definition reversal_digest (r : DegradedModeReversal) : result string := canonical_digest (model_dump r).
Definition authorization_signing_payload (a : DegradedModeAuthorization) : result string :=
  b ← dumps_strict (json_exclude ["signature"] (model_dump a));
  Ok (DEGRADED_AUTHORIZATION_DOMAIN +:+ b).
Definition reversal_signing_payload (r : DegradedModeReversal) : result string :=
  b ← dumps_strict (json_exclude ["signature"] (model_dump r));
  Ok (DEGRADED_REVERSAL_DOMAIN +:+ b).

Record DegradedOperationGate := mk_DegradedOperationGate {
  gate_authority_id : string;
  authority_public_key : public_key;
  maximum_snapshot_age : timedelta;
  maximum_authorization_lifetime : timedelta;
  gate_src : S;
  gate_store : T;
  gate_world : World;
}.

Definition DegradedOperationGate_init (authority : string) (key : public_key)
    (snapshot_age lifetime : timedelta) (src : S) (store : T) (w : World) :
    result DegradedOperationGate :=
  _ ← require (canonical_text authority) "ValueError" "degraded authority ID must contain no whitespace";
  _ ← require (0 <=? snapshot_age)%Z "ValueError" "maximum degraded snapshot age must not be negative";
  _ ← require (0 <? lifetime)%Z "ValueError" "maximum degraded authorization lifetime must be positive";
  Ok (mk_DegradedOperationGate authority key snapshot_age lifetime src store w).

Definition set_src (s : S) (g : DegradedOperationGate) : DegradedOperationGate :=
  mk_DegradedOperationGate (gate_authority_id g) (authority_public_key g) (maximum_snapshot_age g)
    (maximum_authorization_lifetime g) s (gate_store g) (gate_world g).
Definition set_store (t : T) (g : DegradedOperationGate) : DegradedOperationGate :=
  mk_DegradedOperationGate (gate_authority_id g) (authority_public_key g) (maximum_snapshot_age g)
    (maximum_authorization_lifetime g) (gate_src g) t (gate_world g).
Definition set_gate_world (w : World) (g : DegradedOperationGate) : DegradedOperationGate :=
  mk_DegradedOperationGate (gate_authority_id g) (authority_public_key g) (maximum_snapshot_age g)
    (maximum_authorization_lifetime g) (gate_src g) (gate_store g) w.

Definition on_src {A} (m : M S A) : M DegradedOperationGate A := zoom gate_src set_src m.
Definition read_state : M DegradedOperationGate DegradedOperationState := zoom gate_store set_store store_read.
(** Runs an update whose closure starts with the variables [x]; gives what the
    store returned or raised and the variables afterwards. *)
Definition update_state {X} (f : DegradedOperationState → M X DegradedOperationState) (x : X) :
    M DegradedOperationGate (result DegradedOperationState * X) := λ g,
  match store_update f (gate_store g, x) with
  | (Raise e, (t, x)) =>
      (if isinstance_exn e "Exception" then Ok (Raise e, x) else Raise e, set_store t g)
  | (Ok s, (t, x)) => (Ok (Ok s, x), set_store t g)
  end.

Definition evaluation_time (now : option datetime) (label : string) : M DegradedOperationGate datetime :=
  match now with
  | None => zoom gate_world set_gate_world now_utc
  | Some t => lift (timezone_aware t label)
  end.

(** *** Role conditions *)
Definition effective_behavior (affected : list DegradedRole) : DegradedBehavior :=
  let behaviors := (λ r, behavior (ROLE_LOSS_POLICIES r)) <$> affected in
  if bool_decide (BEHAVE_SAFE_STATE ∈ behaviors) then BEHAVE_SAFE_STATE
  else if bool_decide (BEHAVE_HOLD_STATE ∈ behaviors) then BEHAVE_HOLD_STATE
  else MISSION_PRESERVING.

Definition condition_reason (m : list (DegradedRole * RoleCondition)) (kind : string) (r : DegradedRole) :
    list string :=
  match condition m r with
  | Some HEALTHY => []
  | Some c => [DegradedRole_value r +:+ kind +:+ RoleCondition_value c]
  | None => []
  end.
Definition condition_reasons (s : DegradedRuntimeSnapshot) : list string :=
  all_roles ≫= λ r, condition_reason (role_conditions s) "_service_" r
                    ++ condition_reason (communication_conditions s) "_communication_" r.

(** *** Results *)
Definition admission_material (o : DegradedAdmissionOutcome) (rs : list string) (at_ : datetime)
    (snap : string) (auth mode : option string) (roles : list DegradedRole) (checkpoint : option string)
    (may : bool) : json :=
  let opt o := match o with Some s => JStr s | None => JNull end in
  JObj [("outcome", JStr match o with CONTINUE_PRIMARY_ASSURANCE => "continue_primary_assurance"
                         | SAFE_STATE => "safe_state" | HOLD_STATE => "hold_state" end);
        ("reasons", JArr (JStr <$> rs)); ("evaluated_at", JStr (isoformat at_));
        ("snapshot_sha256", JStr snap); ("authorization_sha256", opt auth); ("mode_name", opt mode);
        ("affected_roles", JArr ((λ r, JStr (DegradedRole_value r)) <$> roles));
        ("recovery_checkpoint_id", opt checkpoint); ("may_enter_primary_assurance", JBool may);
        ("execution_authorized", JBool false)].

Definition result_ (o : DegradedAdmissionOutcome) (rs : list string) (at_ : datetime)
    (snap : string) (authorization : option DegradedModeAuthorization) (affected : list DegradedRole)
    (may : bool) : result DegradedAdmissionResult :=
  auth ← match authorization with
         | Some a => d ← authorization_digest a; Ok (Some d)
         | None => Ok None
         end;
  let mode := auth_mode_name <$> authorization in
  let checkpoint := auth_recovery_checkpoint_id <$> authorization in
  let roles := merge_sort role_le affected in
  event ← canonical_digest (admission_material o rs at_ snap auth mode roles checkpoint may);
  DegradedAdmissionResult_validate
    (mk_DegradedAdmissionResult o rs at_ snap auth mode roles checkpoint may false event).

(** *** The checks of a lease against the snapshot *)
Definition roles_eqb (a b : list DegradedRole) : bool :=
  forallb (λ r, Bool.eqb (bool_decide (r ∈ a)) (bool_decide (r ∈ b))) all_roles.

Definition snapshot_freshness (g : DegradedOperationGate) (snapshot : DegradedRuntimeSnapshot)
    (at_ : datetime) : list string :=
  let age := dt_sub at_ (captured_at snapshot) in
  if (age <? 0)%Z then ["degraded_snapshot_from_future"]
  else if (maximum_snapshot_age g <? age)%Z then ["degraded_snapshot_stale"] else [].

Definition lease_flags (g : DegradedOperationGate) (a : DegradedModeAuthorization)
    (snapshot : DegradedRuntimeSnapshot) (affected : list DegradedRole) (at_ : datetime)
    (signed : bool) (snap : string) : list (bool * string) :=
  [(negb (bool_decide (auth_authority_id a = gate_authority_id g)), "degraded_authority_mismatch");
   (negb signed, "degraded_authority_signature_invalid");
   (negb (dt_leb (auth_issued_at a) at_ && dt_ltb at_ (auth_expires_at a)),
    "degraded_authorization_inactive");
   ((maximum_authorization_lifetime g <? dt_sub (auth_expires_at a) (auth_issued_at a))%Z,
    "degraded_authorization_lifetime_exceeded");
   (negb (bool_decide (auth_snapshot_sha256 a = snap)), "degraded_snapshot_evidence_mismatch");
   (negb (roles_eqb (auth_affected_roles a) affected), "degraded_role_scope_mismatch");
   (bool_decide (affected = []) || negb (bool_decide (auth_behavior a = effective_behavior affected)),
    "degraded_behavior_mismatch");
   (unresolved_effect snapshot, "degraded_unresolved_effect_blocks_new_work")].

Definition scope_flags (a : DegradedModeAuthorization) (p : ActionProposal) : list (bool * string) :=
  [(negb (bool_decide (actor_id p ∈ allowed_actor_ids_ a)), "degraded_actor_out_of_scope");
   (negb (bool_decide (mission_id p ∈ allowed_mission_ids a)), "degraded_mission_out_of_scope");
   (negb (bool_decide (resource p ∈ allowed_resources a)), "degraded_resource_out_of_scope");
   (negb (bool_decide (operation p ∈ allowed_operations a)), "degraded_operation_out_of_scope");
   (fltb (maximum_risk_score a) (risk_score p), "degraded_risk_out_of_scope")].

(** *** [evaluate] *)
(** The transition's only variable is the list of reasons. *)
Definition accept_authorization (g : DegradedOperationGate) (a : DegradedModeAuthorization) (digest : string)
    (state : DegradedOperationState) : M (list string) DegradedOperationState := λ reasons,
  if negb (bool_decide (state_authority_id state = gate_authority_id g)) then
    (raise_ "ValueError" "degraded state belongs to a different authority", reasons)
  else if bool_decide (digest ∈ revoked_authorization_sha256 state) then
    (Ok state, reasons ++ ["degraded_authorization_revoked"])
  else if bool_decide (Some digest = active_authorization_sha256 state) then (Ok state, reasons)
  else if (auth_sequence a <=? highest_authorization_sequence state)%Z then
    (Ok state, reasons ++ ["degraded_authorization_sequence_not_monotonic"])
  else
    (DegradedOperationState_validate
       (mk_DegradedOperationState (state_authority_id state) (auth_sequence a) (Some digest)
          (highest_reversal_sequence state) (accepted_reversal_nonce_sha256 state)
          (revoked_authorization_sha256 state)), reasons).

Definition store_refusals : list string :=
  ["degraded_authorization_sequence_not_monotonic"; "degraded_authorization_revoked";
   "degraded_operation_state_unavailable"].

(** The disposition of a lease that passed its checks and was recorded. *)
Definition dispose (p : ActionProposal) (a : DegradedModeAuthorization) (at_ : datetime) (snap : string)
    (affected : list DegradedRole) (reasons : list string) : result DegradedAdmissionResult :=
  let out o rs may := result_ o (fromkeys rs) at_ snap (Some a) affected may in
  match effective_behavior affected with
  | BEHAVE_SAFE_STATE => out SAFE_STATE (reasons ++ ["authorized_safe_state"]) false
  | BEHAVE_HOLD_STATE => out HOLD_STATE (reasons ++ ["authorized_hold_state"]) false
  | MISSION_PRESERVING =>
      let scope_reasons := collect (scope_flags a p) in
      if negb (bool_decide (scope_reasons = [])) then out HOLD_STATE (reasons ++ scope_reasons) false
      else out CONTINUE_PRIMARY_ASSURANCE
             (reasons ++ ["authorized_mission_preserving_entry_to_primary_assurance"]) true
  end.

(** Once a lease is present and unrevoked: its checks, its acceptance into the
    durable state, its disposition. *)
Definition evaluate_lease (p : ActionProposal) (at_ : datetime) (snapshot : DegradedRuntimeSnapshot)
    (a : DegradedModeAuthorization) (reasons freshness : list string) :
    M DegradedOperationGate DegradedAdmissionResult :=
  g ← get;
  let affected := affected_roles snapshot in
  digest ← lift (authorization_digest a);
  snap ← lift (snapshot_digest snapshot);
  signed ← lift (signature_valid (authority_public_key g) (auth_signature a)
                   (authorization_signing_payload a));
  let refuse rs := lift (result_ SAFE_STATE (fromkeys rs) at_ snap (Some a) affected false) in
  let validation_reasons := collect (lease_flags g a snapshot affected at_ signed snap) ++ freshness in
  if negb (bool_decide (validation_reasons = [])) then refuse (reasons ++ validation_reasons)
  else
    '(stored, reasons) ← update_state (accept_authorization g a digest) reasons;
    let reasons := match stored with
                   | Ok _ => reasons
                   | Raise _ => reasons ++ ["degraded_operation_state_unavailable"]
                   end in
    if existsb (λ r, bool_decide (r ∈ store_refusals)) reasons then refuse reasons
    else lift (dispose p a at_ snap affected reasons).

Definition evaluate_with (p : ActionProposal) (at_ : datetime) (snapshot : DegradedRuntimeSnapshot)
    (authorization : option DegradedModeAuthorization) (source_unavailable : bool) :
    M DegradedOperationGate DegradedAdmissionResult :=
  g ← get;
  let affected := affected_roles snapshot in
  let out o rs auth roles may :=
    lift (snap ← snapshot_digest snapshot; result_ o rs at_ snap auth roles may) in
  stored ← attempt read_state;
  match stored with
  | Raise _ => out SAFE_STATE ["degraded_operation_state_unavailable"] authorization affected false
  | Ok state =>
      if negb (bool_decide (state_authority_id state = gate_authority_id g)) then
        out SAFE_STATE ["degraded_operation_state_invalid"] authorization affected false
      else
        authorization_revoked ← lift
          match authorization with
          | Some a => d ← authorization_digest a; Ok (bool_decide (d ∈ revoked_authorization_sha256 state))
          | None => Ok false
          end;
        let active := active_authorization_sha256 state in
        let active_revoked :=
          match active with Some d => bool_decide (d ∈ revoked_authorization_sha256 state) | None => false end in
        let freshness := snapshot_freshness g snapshot at_ in
        if bool_decide (affected = []) && bool_decide (freshness = []) && negb (unresolved_effect snapshot)
        then
          if bool_decide (is_Some active) && negb active_revoked then
            out HOLD_STATE ["degraded_condition_cleared_reversal_required"] authorization [] false
          else
            out CONTINUE_PRIMARY_ASSURANCE
              [if active_revoked || authorization_revoked
               then "normal_runtime_dependencies_healthy_after_signed_reversal"
               else "normal_runtime_dependencies_healthy"] None [] true
        else
          let reasons :=
            condition_reasons snapshot ++ freshness
            ++ (if unresolved_effect snapshot then ["outcome_reconciliation_required"] else [])
            ++ (if source_unavailable then ["degraded_authorization_source_unavailable"] else []) in
          match authorization with
          | None =>
              out SAFE_STATE (fromkeys (reasons ++ ["degraded_mode_authorization_missing"])) None affected false
          | Some a =>
              if authorization_revoked then
                out SAFE_STATE (fromkeys (reasons ++ ["degraded_authorization_revoked"])) (Some a) affected false
              else evaluate_lease p at_ snapshot a reasons freshness
          end
  end.

Definition evaluate (p : ActionProposal) (now : option datetime) :
    M DegradedOperationGate DegradedAdmissionResult :=
  at_ ← evaluation_time now "degraded admission evaluation time";
  snapshot ← attempt (on_src snapshot_source);
  match snapshot with
  | Raise _ => lift (result_ SAFE_STATE ["degraded_snapshot_unavailable"] at_ (zeros 64) None [] false)
  | Ok (Instance_of snapshot) =>
      authorization ← attempt (on_src authorization_source);
      match authorization with
      | Ok (Instance_of a) => evaluate_with p at_ snapshot (Some a) false
      | Ok NoneValue => evaluate_with p at_ snapshot None false
      | Ok OtherObject | Raise _ => evaluate_with p at_ snapshot None true
      end
  | Ok _ => lift (result_ SAFE_STATE ["degraded_snapshot_invalid"] at_ (zeros 64) None [] false)
  end.

(** *** [apply_reversal] *)
Definition reversal_flags (g : DegradedOperationGate) (r : DegradedModeReversal)
    (a : DegradedModeAuthorization) (at_ : datetime) (digest : string) (rev_signed auth_signed : bool) :
    list (bool * string) :=
  let age := dt_sub at_ (rev_issued_at r) in
  [(negb (bool_decide (rev_authority_id r = gate_authority_id g)), "degraded_reversal_authority_mismatch");
   (negb rev_signed, "degraded_reversal_signature_invalid");
   (negb (bool_decide (auth_authority_id a = gate_authority_id g)) || negb auth_signed,
    "degraded_reversal_authorization_invalid");
   (negb (bool_decide (rev_authorization_id r = authorization_id a)),
    "degraded_reversal_authorization_id_mismatch");
   (negb (bool_decide (rev_authorization_sha256 r = digest)),
    "degraded_reversal_authorization_digest_mismatch");
   (negb (bool_decide (rev_recovery_checkpoint_id r = auth_recovery_checkpoint_id a)),
    "degraded_reversal_checkpoint_mismatch");
   ((age <? 0)%Z, "degraded_reversal_from_future");
   ((0 <=? age)%Z && (maximum_authorization_lifetime g <? age)%Z, "degraded_reversal_stale")].

(** The transition's variables are [applied] and the reasons. *)
Definition apply_to_state (g : DegradedOperationGate) (r : DegradedModeReversal) (nonce_sha digest : string)
    (state : DegradedOperationState) : M (bool * list string) DegradedOperationState := λ x,
  let '(applied, reasons) := x in
  if negb (bool_decide (state_authority_id state = gate_authority_id g)) then
    (raise_ "ValueError" "degraded state belongs to a different authority", (applied, reasons))
  else
    let reasons := reasons ++ collect
      [((rev_sequence r <=? highest_reversal_sequence state)%Z, "degraded_reversal_sequence_not_monotonic");
       (bool_decide (nonce_sha ∈ accepted_reversal_nonce_sha256 state), "degraded_reversal_replayed");
       (bool_decide (digest ∈ revoked_authorization_sha256 state), "degraded_authorization_already_revoked")] in
    if negb (bool_decide (reasons = [])) then (Ok state, (applied, reasons))
    else if (MAX_DEGRADED_STATE_ENTRIES <=? length (accepted_reversal_nonce_sha256 state))%nat
            || (MAX_DEGRADED_STATE_ENTRIES <=? length (revoked_authorization_sha256 state))%nat then
      (Ok state, (applied, reasons ++ ["degraded_reversal_state_capacity_exceeded"]))
    else
      (DegradedOperationState_validate
         (mk_DegradedOperationState (state_authority_id state) (highest_authorization_sequence state)
            (active_authorization_sha256 state) (rev_sequence r)
            (sorted_strs (accepted_reversal_nonce_sha256 state ++ [nonce_sha]))
            (sorted_strs (revoked_authorization_sha256 state ++ [digest]))), (true, reasons)).

Definition reversal_material (applied : bool) (rs : list string) (at_ : datetime) (digest rev_digest : string) :
    json :=
  JObj [("applied", JBool applied); ("reasons", JArr (JStr <$> rs));
        ("evaluated_at", JStr (isoformat at_)); ("authorization_sha256", JStr digest);
        ("reversal_sha256", JStr rev_digest)].

Definition apply_reversal (r : DegradedModeReversal) (a : DegradedModeAuthorization) (now : option datetime) :
    M DegradedOperationGate DegradedReversalResult :=
  at_ ← evaluation_time now "degraded reversal evaluation time";
  g ← get;
  rev_signed ← lift (signature_valid (authority_public_key g) (rev_signature r) (reversal_signing_payload r));
  auth_signed ← lift
    (if bool_decide (auth_authority_id a = gate_authority_id g)
     then signature_valid (authority_public_key g) (auth_signature a) (authorization_signing_payload a)
     else Ok false);
  digest ← lift (authorization_digest a);
  let reasons := collect (reversal_flags g r a at_ digest rev_signed auth_signed) in
  let nonce_sha := sha256_hex (utf8_encode (rev_nonce r)) in
  '(stored, (applied, reasons)) ← update_state (apply_to_state g r nonce_sha digest) (false, reasons);
  let '(applied, reasons) :=
    match stored with
    | Ok _ => (applied, reasons)
    | Raise _ => (false, reasons ++ ["degraded_reversal_state_unavailable"])
    end in
  let final := if applied then ["degraded_authorization_revoked"] else fromkeys reasons in
  rev_digest ← lift (reversal_digest r);
  event ← lift (canonical_digest (reversal_material applied final at_ digest rev_digest));
  lift (DegradedReversalResult_validate (mk_DegradedReversalResult applied final at_ digest rev_digest event)).
End gate.
