(* ===== verification/DegradedStore.v ===== *)
(** * The file store of the degraded-operation gate
    ([src/src/aegis_ot/m5_degraded.py], [FileDegradedOperationStateStore])

    One private state file in a private directory, with a sidecar lock that a call
    holds from before its reading to after its writing, so that the effect of a
    call is one step.  The entries of the directory and the failures of the
    operating system are explicit, and [file_store_laws] shows that the store is a
    [StateStore] of the gate.  One path is modelled; a file that nobody but the
    store writes, and a system without power loss between a replacement and its
    directory's sync, are assumed. *)
From S2P Require Import Prelude PyStr PyJson Sha256 Models PyModel DegradedModels DegradedGate.

(** The JSON form of a state: [None] is pydantic's [ValidationError]. *)
Class StateLoad := state_model_validate : json → option DegradedOperationState.
(** A constructed state is dumped as an object that validates as it again, and
    only constructed states come out of validation. *)
Class StateCodecLaws `{ModelDump DegradedOperationState, StateLoad} : Prop := {
  state_dump_reads : ∀ s, DegradedOperationState_validate s = Ok s →
    ∃ kv, model_dump s = JObj kv ∧ json_ok (JObj kv) = true
      ∧ state_model_validate (JObj (canonical_payload kv)) = Some s;
  state_load_constructs : ∀ j s, state_model_validate j = Some s → DegradedOperationState_validate s = Ok s;
}.

(** ** The directory *)
Record StoreNode := mk_StoreNode {
  sn_regular : bool;
  sn_links : Z;
  sn_owned : bool;
  sn_mode : Z;
  sn_bytes : string;
}.
Inductive StoreEntry := Missing | SymbolicLink | NodeAt (n : StoreNode).
(** What [lstat] says of the parent; a symbolic link is no directory. *)
Record ParentNode := mk_ParentNode { pn_directory : bool; pn_owned : bool; pn_mode : Z }.
Definition private_node (bytes : string) : StoreNode := mk_StoreNode true 1 true 384 bytes.
Definition trusted_node (n : StoreNode) : bool :=
  sn_regular n && (sn_links n =? 1)%Z && sn_owned n && (sn_mode n =? 384)%Z.

(** How the temporary file and its replacement end: in place and synced; not in
    place; or in place with the directory's sync failed. *)
Inductive WriteEnd := Replaced | NotReplaced | NotSynced.
(** The [n]-th operating-system call's outcome, and what a comparison made then
    finds. *)
Class StoreEnv := {
  call_fails : nat → bool;
  found_changed : nat → bool;
  write_end : nat → WriteEnd;
}.

(** The store object and the directory it lives in. *)
Record FileStore := mk_FileStore {
  fs_authority_id : string;
  fs_require_existing : bool;
  fs_parent : option ParentNode;
  fs_lock : StoreEntry;
  fs_state : StoreEntry;
  fs_step : nat;
}.
Definition set_fs_lock (e : StoreEntry) (t : FileStore) : FileStore :=
  mk_FileStore (fs_authority_id t) (fs_require_existing t) (fs_parent t) e (fs_state t) (fs_step t).
Definition set_fs_state (e : StoreEntry) (t : FileStore) : FileStore :=
  mk_FileStore (fs_authority_id t) (fs_require_existing t) (fs_parent t) (fs_lock t) e (fs_step t).
Definition fs_tick (t : FileStore) : FileStore :=
  mk_FileStore (fs_authority_id t) (fs_require_existing t) (fs_parent t) (fs_lock t) (fs_state t) (S (fs_step t)).

Definition MAX_DEGRADED_CONFIGURATION_BYTES : Z := 1024 * 1024.

Section store.
Context {FE : StoreEnv} {DSt : ModelDump DegradedOperationState} {LSt : StateLoad}.

Definition value_error_ (c : bool) (msg : string) : result unit := require c "ValueError" msg.
Definition store_call : M FileStore unit := λ t,
  (if call_fails (fs_step t) then raise_ "OSError" "" else Ok tt, fs_tick t).
Definition unchanged (msg : string) : M FileStore unit := λ t,
  (value_error_ (negb (found_changed (fs_step t))) msg, fs_tick t).

(** ** Octets *)
(** [_decode_strict_json]; a literal beyond the floats' range is refused here and
    not at the field it would be read into. *)
Definition decode_strict_json (raw : string) : result json :=
  match strict_loads "degraded configuration UTF-8 BOM is forbidden" "duplicate degraded configuration key" raw with
  | Ok j => _ ← value_error_ (negb (has_nan j)) "forbidden degraded configuration constant"; Ok j
  | Raise e => if isinstance_exn e "UnicodeDecodeError" || isinstance_exn e "JSONDecodeError"
               then raise_ "ValueError" "degraded configuration is not strict UTF-8 JSON" else Raise e
  end.
Definition stored_state (authority : string) (raw : string) : result DegradedOperationState :=
  j ← decode_strict_json raw;
  match state_model_validate j with
  | None => raise_ "ValidationError" "degraded operation state"
  | Some s =>
      _ ← value_error_ (bool_decide (state_authority_id s = authority))
            "degraded state belongs to a different authority";
      Ok s
  end.
Definition state_octets (s : DegradedOperationState) : result string :=
  b ← dumps_strict (model_dump s); Ok (b +:+ newline).

(** ** Opening, reading, writing *)
Definition open_parent : M FileStore unit :=
  _ ← store_call;
  t ← get;
  match fs_parent t with
  | None => throw "FileNotFoundError" ""
  | Some n =>
      _ ← lift (value_error_ (pn_directory n) "degraded state parent must be a non-symlink directory");
      _ ← lift (value_error_ (pn_owned n && (Z.land (pn_mode n) 63 =? 0)%Z)
                  "degraded state parent must be owned privately by the runtime");
      _ ← store_call;
      unchanged "degraded state parent changed during open"
  end.

Definition open_lock : M FileStore unit :=
  _ ← store_call;
  t ← get;
  match fs_lock t with
  | SymbolicLink => throw "OSError" ""
  | Missing => modify (set_fs_lock (NodeAt (private_node "")))
  | NodeAt n => lift (value_error_ (trusted_node n) "degraded state lock is not a trusted private file")
  end.

Definition read_locked : M FileStore DegradedOperationState :=
  _ ← store_call;
  t ← get;
  match fs_state t with
  | Missing =>
      if fs_require_existing t then throw "ValueError" "degraded state is unavailable"
      else lift (DegradedOperationState_initial (fs_authority_id t))
  | SymbolicLink => throw "OSError" ""
  | NodeAt n =>
      _ ← lift (value_error_ (trusted_node n) "degraded state is not a trusted private file");
      _ ← lift (value_error_ ((1 <=? str_len (sn_bytes n))%Z
                              && (str_len (sn_bytes n) <=? MAX_DEGRADED_CONFIGURATION_BYTES)%Z)
                  "degraded state is outside the size limit");
      _ ← store_call;
      _ ← unchanged "degraded state changed while it was read";
      lift (stored_state (fs_authority_id t) (sn_bytes n))
  end.

(** The temporary file, its [fsync], the replacement and the directory's [fsync]. *)
Definition replace_state (raw : string) : M FileStore unit := λ t,
  let written := fs_tick (set_fs_state (NodeAt (private_node raw)) t) in
  match write_end (fs_step t) with
  | Replaced => (Ok tt, written)
  | NotReplaced => (raise_ "OSError" "", fs_tick t)
  | NotSynced => (raise_ "OSError" "", written)
  end.
Definition write_locked (s : DegradedOperationState) : M FileStore unit :=
  raw ← lift (state_octets s);
  _ ← lift (value_error_ (str_len raw <=? MAX_DEGRADED_CONFIGURATION_BYTES)%Z
              "degraded state exceeds the size limit");
  replace_state raw.

(** ** [_locked] *)
(** [try: m finally: release]; what [release] raises replaces the outcome. *)
Definition finally_ {S A} (m : M S A) (release : M S unit) : M S A := λ s,
  let '(r, s) := m s in
  match release s with (Ok _, s) => (r, s) | (Raise e, s) => (Raise e, s) end.
Definition on_file {X A} (m : M FileStore A) : M (FileStore * X) A := zoom fst (λ t s, (t, s.2)) m.
Definition on_closure {X A} (m : M X A) : M (FileStore * X) A := zoom snd (λ x s, (s.1, x)) m.

Definition locked {X} (transition : option (DegradedOperationState → M X DegradedOperationState)) :
    M (FileStore * X) DegradedOperationState :=
  _ ← on_file open_parent;
  finally_
    (_ ← on_file open_lock;
     _ ← on_file store_call;
     current ← on_file read_locked;
     match transition with
     | None => mret current
     | Some f =>
         updated ← on_closure (f current);
         s ← get;
         _ ← lift (value_error_ (bool_decide (state_authority_id updated = fs_authority_id s.1))
                     "degraded state transition changed the authority");
         _ ← on_file (write_locked updated);
         mret updated
     end)
    (on_file store_call).

Definition file_read : M FileStore DegradedOperationState := λ t,
  let '(r, (t, _)) := locked (X := unit) None (t, tt) in (r, t).
#[export] Instance file_store : StateStore FileStore :=
  {| store_read := file_read; store_update X f := locked (Some f) |}.

(** ** What a call leaves of the state *)
Definition same_file (t t' : FileStore) : Prop :=
  fs_state t' = fs_state t ∧ fs_authority_id t' = fs_authority_id t.
Definition same_file_pair {X} (s s' : FileStore * X) : Prop := same_file s.1 s'.1.
#[local] Instance same_file_preorder : PreOrder same_file.
Proof using Type. unfold same_file. split; [done|]. intros a b c [? ?] [? ?]. split; congruence. Qed.
#[local] Instance same_file_pair_preorder X : PreOrder (@same_file_pair X).
Proof using Type. unfold same_file_pair. split; [done|]. intros a b c. apply transitivity. Qed.

Lemma same_call : preserves same_file store_call.
Proof using Type. by intros t. Qed.
Lemma same_unchanged msg : preserves same_file (unchanged msg).
Proof using Type. by intros t. Qed.
Lemma same_set_lock e : preserves same_file (modify (set_fs_lock e)).
Proof using Type. by intros t. Qed.
#[local] Hint Resolve same_call same_unchanged same_set_lock : frames.
Lemma same_parent : preserves same_file open_parent.
Proof using Type. unfold open_parent. frame. Qed.
Lemma same_store_lock : preserves same_file open_lock.
Proof using Type. unfold open_lock. frame. Qed.
Lemma same_read : preserves same_file read_locked.
Proof using Type. unfold read_locked. frame. Qed.
Lemma same_on_file {X A} (m : M FileStore A) : preserves same_file m → preserves same_file_pair (on_file (X := X) m).
Proof using Type. intros Hm. apply (preserves_zoom _ same_file); [done|]. by intros [t x] t'. Qed.
Lemma same_on_closure {X A} (m : M X A) : preserves same_file_pair (on_closure m).
Proof using Type. intros [t x]. unfold on_closure, zoom. by destruct (m _). Qed.
#[local] Hint Resolve same_on_closure : frames.

(** The state the octets in place hold, the initial one when they hold none. *)
Definition no_state (authority : string) : DegradedOperationState := mk_DegradedOperationState authority 0 None 0 [] [].
Definition file_durable (t : FileStore) : DegradedOperationState :=
  match fs_state t with
  | NodeAt n => match stored_state (fs_authority_id t) (sn_bytes n) with Ok s => s | Raise _ => no_state (fs_authority_id t) end
  | _ => no_state (fs_authority_id t)
  end.
Lemma durable_same t t' : same_file t t' → file_durable t' = file_durable t.
Proof using Type. intros [H1 H2]. unfold file_durable. by rewrite H1, H2. Qed.

Context {CL : StateCodecLaws}.

Lemma stored_state_Ok a raw s :
  stored_state a raw = Ok s → DegradedOperationState_validate s = Ok s ∧ state_authority_id s = a.
Proof using CL.
  unfold stored_state. intros H. apply result_bind_Ok in H as (j & _ & H).
  destruct (state_model_validate j) as [s0|] eqn:Hj; [|discriminate H].
  apply require_bind in H as [Ha H%Ok_inj]. bool_split. subst s0. split; [|done]. by eapply state_load_constructs.
Qed.
Lemma stored_octets s raw :
  DegradedOperationState_validate s = Ok s → state_octets s = Ok raw → stored_state (state_authority_id s) raw = Ok s.
Proof using CL.
  intros Hv H. destruct (state_dump_reads s Hv) as (kv & Hd & Hok & Hl). unfold state_octets in H. rewrite Hd in H.
  apply result_bind_Ok in H as (b & [Hn ->]%dumps_strict_Ok & <-%Ok_inj).
  unfold stored_state, decode_strict_json. rewrite strict_loads_line by done.
  rewrite <- canon_payload, has_nan_canon, Hn. cbn [negb value_error_ require mbind result_bind].
  rewrite canon_payload, Hl. unfold value_error_. by rewrite bool_decide_eq_true_2.
Qed.

Lemma read_locked_Ok t s t' :
  read_locked t = (Ok s, t') →
  s = file_durable t ∧ DegradedOperationState_validate s = Ok s ∧ state_authority_id s = fs_authority_id t.
Proof using CL.
  unfold read_locked. intros H. apply M_bind_Ok in H as ([] & t1 & H1 & H).
  pose proof (preserves_run _ _ _ _ _ same_call H1) as [E1 E2].
  apply M_bind_Ok in H as (t2 & t3 & [= <- <-] & H). unfold file_durable. rewrite <- E1, <- E2.
  destruct (fs_state t1) as [| |n]; [|discriminate H|].
  - destruct (fs_require_existing t1); [discriminate H|]. apply lift_Ok in H as [H _].
    unfold DegradedOperationState_initial in H. pose proof H as H'.
    apply DegradedOperationState_validate_Ok in H' as ->. done.
  - do 4 (apply M_bind_Ok in H as ([] & ? & _ & H)). apply lift_Ok in H as [H _]. rewrite H.
    split; [done|]. by apply stored_state_Ok in H.
Qed.

Lemma state_write_run s t r t' :
  DegradedOperationState_validate s = Ok s → state_authority_id s = fs_authority_id t →
  write_locked s t = (r, t') →
  r ≠ Ok tt ∧ same_file t t' ∨ file_durable t' = s ∧ fs_authority_id t' = fs_authority_id t.
Proof using CL.
  intros Hv Ha H. unfold write_locked in H.
  apply M_bind_case in H as [(e & -> & H)|(raw & t1 & [Hr ->]%lift_Ok & H)]; [left; by injection H as _ <-|].
  apply M_bind_case in H as [(e & -> & H)|([] & t1 & [_ ->]%lift_Ok & H)]; [left; by injection H as _ <-|].
  assert (Hw : file_durable (fs_tick (set_fs_state (NodeAt (private_node raw)) t)) = s).
  { unfold file_durable. cbn [fs_state set_fs_state fs_tick fs_authority_id private_node sn_bytes].
    rewrite <- Ha. by rewrite (stored_octets s raw Hv Hr). }
  unfold replace_state in H. destruct (write_end _); injection H as <- <-; [by right|by left|by right].
Qed.

(** A call of [_locked]: the state stays, unless the transition was written. *)
Lemma finally_run {S A} (m : M S A) release s r s' :
  finally_ m release s = (r, s') →
  ∃ r1 s1 r2, m s = (r1, s1) ∧ release s1 = (r2, s') ∧ (r = r1 ∨ is_Ok r = false).
Proof using Type.
  unfold finally_. destruct (m s) as [r1 s1]. destruct (release s1) as [[[]|e] s2] eqn:Hrel; intros [= <- <-].
  - exists r1, s1, (Ok tt). auto.
  - exists r1, s1, (Raise e). auto.
Qed.

(** What a call leaves: the file as it was, and what a reading call returns is the
    durable state; or the state the transition made of it. *)
Definition call_left {X} (tr : option (DegradedOperationState → M X DegradedOperationState)) (s : FileStore * X)
    (res : result DegradedOperationState) (s' : FileStore * X) : Prop :=
  same_file s.1 s'.1 ∧ (∀ c, res = Ok c → tr = None ∧ c = file_durable s.1)
  ∨ ∃ f made x1, tr = Some f ∧ f (file_durable s.1) s.2 = (Ok made, x1)
      ∧ state_authority_id made = state_authority_id (file_durable s.1)
      ∧ file_durable s'.1 = made ∧ (∀ c, res = Ok c → c = made ∧ s'.2 = x1).
Lemma call_left_ends {X} tr (s : FileStore * X) r s1 res s' :
  call_left tr s r s1 → same_file s1.1 s'.1 → s1.2 = s'.2 → res = r ∨ is_Ok res = false → call_left tr s res s'.
Proof using Type.
  intros [[Hs Hr]|(f & made & x1 & Hf & Hm & Ha & Hd & Hr)] Hsame Hx Hres; [left|right].
  - split; [by etrans|]. intros c ->. destruct Hres as [<-|]; [by apply Hr|done].
  - exists f, made, x1. rewrite (durable_same _ _ Hsame), <- Hx. split_and!; try done.
    intros c ->. destruct Hres as [<-|]; [by apply Hr|done].
Qed.

Lemma on_file_run {X A} (m : M FileStore A) (s : FileStore * X) r s' :
  on_file m s = (r, s') → ∃ t, m s.1 = (r, t) ∧ s' = (t, s.2).
Proof using Type. by intros H%zoom_run. Qed.

Lemma locked_run {X} (tr : option (DegradedOperationState → M X DegradedOperationState)) s res s' :
  (∀ f, tr = Some f → constructs f) → locked tr s = (res, s') → call_left tr s res s'.
Proof using CL.
  intros Hcon H. unfold locked in H. apply M_bind_case in H as [(e & -> & H)|([] & s1 & H1 & H)].
  { apply (preserves_run _ _ _ _ _ (same_on_file _ same_parent)) in H. left. split; [exact H|by intros]. }
  apply (preserves_run _ _ _ _ _ (same_on_file _ same_parent)) in H1 as Hq.
  apply on_file_run in H1 as (t1 & _ & ->).
  apply finally_run in H as (r1 & s2 & r2 & H & Hrel & Hres).
  apply on_file_run in Hrel as (t3 & Hrel & ->). apply (preserves_run _ _ _ _ _ same_call) in Hrel.
  apply (call_left_ends tr s r1 s2); [|exact Hrel|done|exact Hres]. clear Hrel Hres res t3 r2.
  assert (Hq0 : same_file s.1 t1) by exact Hq. clear Hq.
  apply M_bind_case in H as [(e & -> & H)|([] & s3 & H1 & H)].
  { apply on_file_run in H as (t & H & ->). apply (preserves_run _ _ _ _ _ same_store_lock) in H.
    left. split; [by etrans|by intros]. }
  apply on_file_run in H1 as (t2 & H1 & ->). apply (preserves_run _ _ _ _ _ same_store_lock) in H1.
  cbn [fst snd] in H, H1. assert (Hq2 : same_file s.1 t2) by by etrans. clear H1 Hq0 t1.
  apply M_bind_case in H as [(e & -> & H)|([] & s3 & H1 & H)].
  { apply on_file_run in H as (t & H & ->). apply (preserves_run _ _ _ _ _ same_call) in H.
    left. split; [by etrans|by intros]. }
  apply on_file_run in H1 as (t3 & H1 & ->). apply (preserves_run _ _ _ _ _ same_call) in H1.
  cbn [fst snd] in H, H1. assert (Hq3 : same_file s.1 t3) by by etrans. clear H1 Hq2 t2.
  apply M_bind_case in H as [(e & -> & H)|(current & s3 & H1 & H)].
  { apply on_file_run in H as (t & H & ->). apply (preserves_run _ _ _ _ _ same_read) in H.
    left. split; [by etrans|by intros]. }
  apply on_file_run in H1 as (t4 & H1 & ->). pose proof (preserves_run _ _ _ _ _ same_read H1) as H2.
  apply read_locked_Ok in H1 as (Hc & Hv & Ha). cbn [fst snd] in H, H2, Hc, Ha.
  assert (Hq4 : same_file s.1 t4) by by etrans. rewrite (durable_same _ _ Hq3) in Hc.
  rewrite (proj2 Hq3) in Ha. clear H2 Hq3 t3. subst current.
  destruct tr as [f|]; cycle 1.
  { injection H as <- <-. left. split; [exact Hq4|]. by intros c [= ->]. }
  apply M_bind_case in H as [(e & -> & H)|(made & s5 & H1 & H)].
  { apply zoom_run in H as (x & _ & ->). left. split; [exact Hq4|by intros]. }
  apply zoom_run in H1 as (x1 & Hf & ->). cbn [fst snd] in Hf, H.
  apply M_bind_case in H as [(e & -> & [=])|(g & s6 & [= <- <-] & H)].
  apply M_bind_case in H as [(e & -> & H)|([] & s6 & [Hma ->]%lift_Ok & H)].
  { unfold lift in H. injection H as _ <-. left. split; [exact Hq4|by intros]. }
  apply require_Ok in Hma. bool_split. cbn [fst] in Hma.
  assert (Hmv : DegradedOperationState_validate made = Ok made) by exact (Hcon f eq_refl _ _ _ _ Hv Hf).
  assert (Hend : ∀ r t, write_locked made t4 = (r, t) → r ≠ Ok tt ∧ same_file t4 t ∨ file_durable t = made)
    by (intros r t Hw; apply state_write_run in Hw as [?|[? _]]; auto).
  assert (Hmade : state_authority_id made = state_authority_id (file_durable s.1)) by (rewrite Hma, Ha; apply Hq4).
  apply M_bind_case in H as [(e & -> & H)|([] & s6 & H1 & H)].
  - apply on_file_run in H as (t & Hw & ->). apply Hend in Hw as [[_ Hw]|Hw].
    + left. split; [by etrans|by intros].
    + right. exists f, made, x1. by split_and!.
  - apply on_file_run in H1 as (t & Hw & ->). apply Hend in Hw as [[[] _]|Hw]; [done|].
    injection H as <- <-. right. exists f, made, x1. split_and!; try done. by intros c [= ->].
Qed.

(** The file store keeps its promise to the gate: a call works on the durable
    state, an update that returns made the transition's state durable, and one that
    raises left the state or, when only the sync of the directory or the release of
    the lock failed, the transition's. *)
#[export] Instance file_store_laws : StateStoreLaws FileStore.
Proof using CL.
  refine {| durable := file_durable |}.
  - intros t res t' H. cbn [store_read file_store] in H. unfold file_read in H.
    destruct (locked None (t, tt)) as [r [t1 []]] eqn:Hl. injection H as <- <-.
    apply locked_run in Hl as [[Hs Hr]|(f & ? & ? & [=] & _)]; [|done]. cbn [fst] in Hs, Hr.
    rewrite (durable_same _ _ Hs). split; [done|]. intros s ->. by apply Hr.
  - intros X f t x res t' x' Hcon H. cbn [store_update file_store] in H.
    apply locked_run in H as [[Hs Hr]|(f' & made & x1 & [= <-] & Hf & Ha & Hd & Hr)]; [| |by intros ? [= <-]];
      cbn [fst snd] in *; exists (file_durable t); (split; [done|]).
    + rewrite (durable_same _ _ Hs). destruct res as [c|e]; [by destruct (Hr c eq_refl)|by left].
    + destruct res as [c|e].
      * destruct (Hr c eq_refl) as [-> ->]. by rewrite Hd.
      * right. rewrite Hd. eauto.
Defined.
End store.
