(* ===== verification/DegradedContract.v ===== *)
(** * What the degraded-operation gate promises

    The gate as an [AdmissionGate] of the gateway: its results are constructed
    ones; an admission is either normal operation or one lease's exact scope
    ([lease_admits]); the durable state only evolves monotonically; a reversal is
    permanent; and evaluation always answers. *)
From S2P Require Import Prelude PyFloat PyStr PyTime PyJson Sha256 Crypto Models Admission.
From S2P Require Import DegradedModels DegradedGate.
From stdpp Require Import sorting.

Section contract.
Context {ED : Ed25519} {E : Env}.
Context {S : Type} {HS : Sources S} {T : Type} {HT : StateStore T}.
Context {DSn : ModelDump DegradedRuntimeSnapshot} {DAu : ModelDump DegradedModeAuthorization}
  {DRe : ModelDump DegradedModeReversal}.
Abbreviation Gate := (DegradedOperationGate (S := S) (T := T)).

#[export] Instance degraded_gate : AdmissionGate Gate := λ p t, evaluate p (Some t).

(** ** Results *)
Lemma result_fields o rs at_ snap auth roles may r :
  result_ o rs at_ snap auth roles may = Ok r →
  DegradedAdmissionResult_validate r = Ok r ∧ admission_outcome r = o ∧ admission_reasons r = rs
  ∧ may_enter_primary_assurance r = may ∧ snapshot_sha256 r = snap
  ∧ match auth with
    | Some a => ∃ d, authorization_digest a = Ok d ∧ authorization_sha256 r = Some d
    | None => authorization_sha256 r = None
    end.
Proof using Type.
  unfold result_. intros H. apply result_bind_Ok in H as (d & Hd & H).
  apply result_bind_Ok in H as (ev & _ & H).
  pose proof (DegradedAdmissionResult_validate_Ok _ _ H) as [-> _]. simpl.
  split_and!; try done. destruct auth as [a|]; inv_ok; eauto.
Qed.

(** Every result a computation returns was constructed. *)
Definition constructed (m : M Gate DegradedAdmissionResult) : Prop :=
  ∀ g r g', m g = (Ok r, g') → DegradedAdmissionResult_validate r = Ok r.

Lemma constructed_bind {A} (m : M Gate A) k : (∀ a, constructed (k a)) → constructed (m ≫= k).
Proof using Type.
  intros Hk g r g'. unfold mbind, M_bind. destruct (m g) as [[a|] g1]; [apply Hk|congruence].
Qed.

Lemma constructed_result o rs at_ snap auth roles may : constructed (lift (result_ o rs at_ snap auth roles may)).
Proof using Type. intros g r g'. unfold lift. intros [= H <-]. by destruct (result_fields _ _ _ _ _ _ _ _ H). Qed.

Lemma constructed_out (snap : result string) o rs at_ auth roles may :
  constructed (lift (s ← snap; result_ o rs at_ s auth roles may)).
Proof using Type.
  intros g r g'. unfold lift. intros [= H <-]. inv_ok. by destruct (result_fields _ _ _ _ _ _ _ _ H).
Qed.

Create HintDb constructed.
#[local] Hint Resolve constructed_result constructed_out : constructed.

Lemma evaluate_lease_constructed p at_ snap a rs fr : constructed (evaluate_lease p at_ snap a rs fr).
Proof using Type.
  unfold evaluate_lease, dispose. repeat (apply constructed_bind; intros ?).
  case_match; [auto with constructed|]. apply constructed_bind. intros [stored rs'].
  repeat case_match; auto with constructed.
Qed.

(** Walks down binds and case analyses to the results. *)
Ltac solve_constructed :=
  repeat first
    [ solve [eauto using evaluate_lease_constructed with constructed]
    | apply constructed_bind; intros ?
    | case_match ].

Lemma evaluate_with_constructed p at_ snap auth un : constructed (evaluate_with p at_ snap auth un).
Proof using Type.
  unfold evaluate_with. solve_constructed.
Qed.

#[export] Instance degraded_gate_laws : AdmissionGateLaws Gate.
Proof using Type.
  split. intros p now g r g'. unfold gate_evaluate, degraded_gate.
  assert (constructed (evaluate p (Some now))) as H; [|apply H].
  unfold evaluate. pose proof evaluate_with_constructed. solve_constructed.
Qed.

(** ** Durable state only evolves *)
Context {HL : StateStoreLaws T}.

Definition gate_durable (g : Gate) : DegradedOperationState := durable (gate_store g).

(** A call leaves the configuration and evolves the durable state. *)
Record gate_evolves (g g' : Gate) : Prop := {
  ge_authority : gate_authority_id g' = gate_authority_id g;
  ge_key : authority_public_key g' = authority_public_key g;
  ge_age : maximum_snapshot_age g' = maximum_snapshot_age g;
  ge_lifetime : maximum_authorization_lifetime g' = maximum_authorization_lifetime g;
  ge_durable : evolves (gate_durable g) (gate_durable g');
}.

#[export] Instance gate_evolves_preorder : PreOrder gate_evolves.
Proof using Type.
  split; [by split|]. intros a b c [] []. split; [congruence..|]. by etrans.
Qed.

Definition evolving {A} (m : M Gate A) : Prop := ∀ g res g', m g = (res, g') → gate_evolves g g'.

Lemma evolving_lift {A} (r : result A) : evolving (lift r).
Proof using Type. intros g res g' [= _ <-]. done. Qed.
Lemma evolving_get : evolving get.
Proof using Type. intros g res g' [= _ <-]. done. Qed.

Lemma evolving_bind {A B} (m : M Gate A) (k : A → M Gate B) :
  evolving m → (∀ a, evolving (k a)) → evolving (m ≫= k).
Proof using Type.
  intros Hm Hk g res g'. unfold mbind, M_bind. destruct (m g) as [[a|e] g1] eqn:Hg.
  - intros H. etrans; [by eapply Hm|by eapply Hk].
  - intros [= _ <-]. by eapply Hm.
Qed.

Lemma evolving_attempt {A} (m : M Gate A) : evolving m → evolving (attempt m).
Proof using Type.
  intros Hm g res g'. unfold attempt. destruct (m g) as [[a|e] g1] eqn:Hg; [|case_match];
    intros [= _ <-]; by eapply Hm.
Qed.

Lemma evolving_src {A} (m : M S A) : evolving (on_src m).
Proof using Type.
  intros g res g'. unfold on_src, zoom. destruct (m (gate_src g)). intros [= _ <-]. by split.
Qed.

Lemma evolving_time now l : evolving (evaluation_time now l).
Proof using Type.
  destruct now as [t|]; [apply evolving_lift|]. intros g res g' H. simpl in H.
  unfold zoom, now_utc in H. injection H as _ <-. by split.
Qed.

Lemma evolving_read : evolving read_state.
Proof using Type.
  intros g res g'. unfold read_state, zoom.
  destruct (store_read (gate_store g)) as [r t] eqn:Hr. intros [= _ <-].
  split; try done. by apply read_seen in Hr as [? _].
Qed.

(** A transition is monotone from its variables [x] when the states it returns
    evolve from the one it was given. *)
Definition monotone {X} (x : X) (f : DegradedOperationState → M X DegradedOperationState) : Prop :=
  ∀ s s' x', f s x = (Ok s', x') → evolves s s'.

Lemma evolving_update {X} (f : DegradedOperationState → M X DegradedOperationState) x :
  constructs f → monotone x f → evolving (update_state f x).
Proof using Type.
  intros Hcon Hf g res g'. unfold update_state.
  destruct (store_update f (gate_store g, x)) as [r [t x']] eqn:Hu.
  destruct (update_seen _ _ _ _ _ _ _ Hcon Hu) as (s & Hs & Hr).
  assert (evolves (gate_durable g) (durable t)).
  { etrans; [exact Hs|]. destruct r as [s'|e].
    - destruct Hr as (<- & Hr & _). by eapply Hf.
    - destruct Hr as [-> |[[x1 Hr] _]]; [done|by eapply Hf]. }
  destruct r; intros [= _ <-]; by split.
Qed.

Lemma accept_run g a d s rs s' rs' :
  accept_authorization (S := S) (T := T) g a d s rs = (Ok s', rs') →
  state_authority_id s = gate_authority_id g
  ∧ ((d ∈ revoked_authorization_sha256 s ∧ s' = s ∧ rs' = rs ++ ["degraded_authorization_revoked"])
     ∨ (d ∉ revoked_authorization_sha256 s ∧ active_authorization_sha256 s = Some d ∧ s' = s ∧ rs' = rs)
     ∨ (s' = s ∧ rs' = rs ++ ["degraded_authorization_sequence_not_monotonic"])
     ∨ (d ∉ revoked_authorization_sha256 s ∧ active_authorization_sha256 s ≠ Some d ∧ rs' = rs
        ∧ (highest_authorization_sequence s < auth_sequence a)%Z
        ∧ s' = mk_DegradedOperationState (state_authority_id s) (auth_sequence a) (Some d)
                 (highest_reversal_sequence s) (accepted_reversal_nonce_sha256 s)
                 (revoked_authorization_sha256 s))).
Proof using Type.
  unfold accept_authorization. repeat case_match; intros [= Hv <-]; bool_split; subst; try tauto.
  - split; [done|]. right; left. by split_and!.
  - apply DegradedOperationState_validate_Ok in Hv as ->. split; [done|]. right; right; right.
    by split_and!.
Qed.

Lemma accept_monotone g a d rs : monotone rs (accept_authorization (S := S) (T := T) g a d).
Proof using Type.
  intros s s' rs' H. apply accept_run in H as (_ & [(_&->&_)|[(_&_&->&_)|[[-> _]|(_&_&_&?&->)]]]); try done.
  split; simpl; auto with lia.
Qed.

Lemma accept_constructs g a d : constructs (accept_authorization (S := S) (T := T) g a d).
Proof using Type.
  intros s rs s' rs' Hs. unfold accept_authorization. repeat case_match; intros [= Hv <-]; try (by subst).
  by pose proof (DegradedOperationState_validate_Ok _ _ Hv) as ->.
Qed.

Lemma sorted_strs_elem l x : x ∈ sorted_strs l ↔ x ∈ l.
Proof using Type. unfold sorted_strs. by rewrite (merge_sort_Permutation str_le l). Qed.

(** What the reversal transition returns, starting unapplied. *)
Lemma reversal_run g r n d s rs s' ap rs' :
  apply_to_state (S := S) (T := T) g r n d s (false, rs) = (Ok s', (ap, rs')) →
  state_authority_id s = gate_authority_id g
  ∧ ((ap = false ∧ s' = s ∧ rs' ≠ [])
     ∨ (ap = true ∧ rs = [] ∧ rs' = [] ∧ (highest_reversal_sequence s < rev_sequence r)%Z
        ∧ n ∉ accepted_reversal_nonce_sha256 s ∧ d ∉ revoked_authorization_sha256 s
        ∧ s' = mk_DegradedOperationState (state_authority_id s) (highest_authorization_sequence s)
                 (active_authorization_sha256 s) (rev_sequence r)
                 (sorted_strs (accepted_reversal_nonce_sha256 s ++ [n]))
                 (sorted_strs (revoked_authorization_sha256 s ++ [d])))).
Proof using Type.
  unfold apply_to_state. case_match; [done|]. bool_split. case_match; bool_split.
  { intros [= <- <- <-]. auto. }
  case_match; [intros [= <- <- <-]|].
  { split; [done|]. left. split_and!; [done|done|]. by destruct (rs ++ _). }
  intros [= Hv <- <-]. split; [done|]. right. apply DegradedOperationState_validate_Ok in Hv as ->.
  match goal with H : rs ++ _ = [] |- _ => rename H into Hnil end.
  rewrite Hnil. apply app_nil in Hnil as [-> Hf]. apply collect_nil in Hf.
  rewrite !Forall_cons, Forall_nil in Hf. simpl in Hf. destruct Hf as (? & ? & ? & _). bool_split.
  by split_and!.
Qed.

Lemma reversal_constructs g r n d : constructs (apply_to_state (S := S) (T := T) g r n d).
Proof using Type.
  intros s x s' x' Hs. unfold apply_to_state. destruct x as [ap rs]. repeat case_match; intros [= Hv <-]; try (by subst).
  by pose proof (DegradedOperationState_validate_Ok _ _ Hv) as ->.
Qed.

Lemma reversal_evolves r n d s :
  (highest_reversal_sequence s < rev_sequence r)%Z →
  evolves s (mk_DegradedOperationState (state_authority_id s) (highest_authorization_sequence s)
               (active_authorization_sha256 s) (rev_sequence r)
               (sorted_strs (accepted_reversal_nonce_sha256 s ++ [n]))
               (sorted_strs (revoked_authorization_sha256 s ++ [d]))).
Proof using Type.
  intros ?. split; simpl; auto with lia; intros x Hx; apply sorted_strs_elem; set_solver.
Qed.

Lemma reversal_monotone g r n d rs :
  monotone (false, rs) (apply_to_state (S := S) (T := T) g r n d).
Proof using Type.
  intros s s' [ap rs'] H.
  apply reversal_run in H as (_ & [(_ & -> & _)|(_ & _ & _ & ? & _ & _ & ->)]); [done|].
  by apply reversal_evolves.
Qed.

Create HintDb evolving.
#[local] Hint Resolve evolving_lift evolving_get evolving_read evolving_src evolving_time
  evolving_attempt evolving_update accept_monotone reversal_monotone accept_constructs reversal_constructs : evolving.

Ltac solve_evolving :=
  repeat first
    [ solve [eauto with evolving]
    | apply evolving_bind; [|intros ?]
    | case_match ].

Lemma evaluate_lease_evolving p at_ snap a rs fr : evolving (evaluate_lease p at_ snap a rs fr).
Proof using Type. unfold evaluate_lease. solve_evolving. Qed.
#[local] Hint Resolve evaluate_lease_evolving : evolving.
Lemma evaluate_with_evolving p at_ snap auth un : evolving (evaluate_with p at_ snap auth un).
Proof using Type. unfold evaluate_with. solve_evolving. Qed.
#[local] Hint Resolve evaluate_with_evolving : evolving.
Lemma evaluate_evolving p now : evolving (evaluate p now).
Proof using Type. unfold evaluate. solve_evolving. Qed.
Lemma apply_reversal_evolving r a now : evolving (apply_reversal r a now).
Proof using Type. unfold apply_reversal. solve_evolving. Qed.

(** ** What an admission means *)
(** The snapshot and the lease the sources give to the call. *)
Definition seen_snapshot (g : Gate) (s : DegradedRuntimeSnapshot) : Prop :=
  (snapshot_source (gate_src g)).1 = Ok (Instance_of s).
Definition seen_lease (g : Gate) (a : DegradedModeAuthorization) : Prop :=
  (authorization_source (snapshot_source (gate_src g)).2).1 = Ok (Instance_of a).

Definition fresh_snapshot (g : Gate) (s : DegradedRuntimeSnapshot) (t : datetime) : Prop :=
  (0 <= dt_sub t (captured_at s) <= maximum_snapshot_age g)%Z.

(** Every dependency is healthy and no lease is outstanding. *)
Record normal_operation (g g' : Gate) (s : DegradedRuntimeSnapshot) (t : datetime) : Prop := {
  no_healthy : affected_roles s = [];
  no_fresh : fresh_snapshot g s t;
  no_resolved : unresolved_effect s = false;
  no_outstanding : ∀ d, active_authorization_sha256 (gate_durable g') = Some d →
                        d ∈ revoked_authorization_sha256 (gate_durable g');
}.

(** One lease, for exactly this snapshot, covers exactly this proposal. *)
Record lease_admits (g g' : Gate) (s : DegradedRuntimeSnapshot) (a : DegradedModeAuthorization)
    (d : string) (p : ActionProposal) (t : datetime) : Prop := {
  la_digest : authorization_digest a = Ok d;
  la_authority : auth_authority_id a = gate_authority_id g;
  la_signed : ∃ b, authorization_signing_payload a = Ok b
                   ∧ verify_bytes (authority_public_key g) b (auth_signature a) = true;
  la_active : dt_leb (auth_issued_at a) t = true ∧ dt_ltb t (auth_expires_at a) = true;
  la_lifetime : (dt_sub (auth_expires_at a) (auth_issued_at a) <= maximum_authorization_lifetime g)%Z;
  la_snapshot : snapshot_digest s = Ok (auth_snapshot_sha256 a);
  la_fresh : fresh_snapshot g s t;
  la_resolved : unresolved_effect s = false;
  la_roles : affected_roles s = [MANAGEMENT] ∧ (∀ r, r ∈ auth_affected_roles a ↔ r = MANAGEMENT);
  la_behavior : auth_behavior a = MISSION_PRESERVING;
  la_scope : actor_id p ∈ allowed_actor_ids_ a ∧ mission_id p ∈ allowed_mission_ids a
             ∧ resource p ∈ allowed_resources a ∧ operation p ∈ allowed_operations a
             ∧ fltb (maximum_risk_score a) (risk_score p) = false;
  la_not_revoked : d ∉ revoked_authorization_sha256 (gate_durable g');
  la_recorded : active_authorization_sha256 (gate_durable g') = Some d;
}.

Lemma update_state_run {X} (f : DegradedOperationState → M X DegradedOperationState) x (g : Gate) st x' g' :
  constructs f → update_state f x g = (Ok (Ok st, x'), g') →
  ∃ s, evolves (gate_durable g) s ∧ f s x = (Ok st, x') ∧ st = gate_durable g'.
Proof using Type.
  intros Hcon. unfold update_state. destruct (store_update f (gate_store g, x)) as [r [t x1]] eqn:Hu.
  destruct (update_seen _ _ _ _ _ _ _ Hcon Hu) as (s & Hs & Hr).
  destruct r as [s1|e]; [|destruct (isinstance_exn _ _); congruence].
  intros [= <- <- <-]. destruct Hr as (Heq & Hf & _). exists s. by split_and!.
Qed.

Lemma mission_preserving_roles s :
  affected_roles s ≠ [] → effective_behavior (affected_roles s) = MISSION_PRESERVING →
  affected_roles s = [MANAGEMENT].
Proof using Type.
  unfold affected_roles, all_roles. cbn [List.filter].
  repeat match goal with |- context [if ?b then _ :: _ else _] => destruct b end;
    intros Hne Heff; try reflexivity; try done; vm_compute in Heff; discriminate Heff.
Qed.

Lemma roles_eqb_true a b : roles_eqb a b = true → ∀ r, r ∈ a ↔ r ∈ b.
Proof using Type.
  unfold roles_eqb. rewrite forallb_forall. intros H r.
  specialize (H r ltac:(apply list_elem_of_In, all_roles_complete)). apply eqb_prop in H.
  split; intros Hin; [rewrite (bool_decide_eq_true_2 _ Hin) in H|rewrite (bool_decide_eq_true_2 (r ∈ b) Hin) in H];
    apply (bool_decide_eq_true_1 _); congruence.
Qed.

Lemma snapshot_freshness_nil (g : Gate) s t : snapshot_freshness g s t = [] → fresh_snapshot g s t.
Proof using Type. unfold snapshot_freshness, fresh_snapshot. repeat case_match; try done. lia. Qed.

Lemma refused_may o rs at_ snap auth roles r :
  result_ o rs at_ snap auth roles false = Ok r → may_enter_primary_assurance r = true → False.
Proof using Type. intros H Hm. apply result_fields in H as (_ & _ & _ & H & _). congruence. Qed.

Lemma lease_flags_nil (g : Gate) a s t signed snap :
  collect (lease_flags g a s (affected_roles s) t signed snap) = [] →
  auth_authority_id a = gate_authority_id g ∧ signed = true
  ∧ (dt_leb (auth_issued_at a) t = true ∧ dt_ltb t (auth_expires_at a) = true)
  ∧ (dt_sub (auth_expires_at a) (auth_issued_at a) <= maximum_authorization_lifetime g)%Z
  ∧ auth_snapshot_sha256 a = snap ∧ (∀ r, r ∈ auth_affected_roles a ↔ r ∈ affected_roles s)
  ∧ affected_roles s ≠ [] ∧ auth_behavior a = effective_behavior (affected_roles s)
  ∧ unresolved_effect s = false.
Proof using Type.
  rewrite collect_nil. unfold lease_flags. rewrite !Forall_cons, Forall_nil. simpl.
  intros (? & ? & ? & ? & ? & Hr & ? & ? & _). bool_split. split_and!; auto.
  by apply roles_eqb_true.
Qed.

Lemma scope_flags_nil a p :
  collect (scope_flags a p) = [] →
  actor_id p ∈ allowed_actor_ids_ a ∧ mission_id p ∈ allowed_mission_ids a
  ∧ resource p ∈ allowed_resources a ∧ operation p ∈ allowed_operations a
  ∧ fltb (maximum_risk_score a) (risk_score p) = false.
Proof using Type.
  rewrite collect_nil. unfold scope_flags. rewrite !Forall_cons, Forall_nil. simpl.
  intros (? & ? & ? & ? & ? & _). bool_split. by split_and!.
Qed.

(** Only the mission-preserving disposition, in scope, may enter. *)
Lemma dispose_may p a t snap affected rs r :
  dispose p a t snap affected rs = Ok r → may_enter_primary_assurance r = true →
  effective_behavior affected = MISSION_PRESERVING ∧ collect (scope_flags a p) = []
  ∧ snapshot_sha256 r = snap ∧ (∃ d, authorization_digest a = Ok d ∧ authorization_sha256 r = Some d).
Proof using Type.
  unfold dispose. intros H Hm. case_match; [by destruct (refused_may _ _ _ _ _ _ _ H)..|].
  case_match; [by destruct (refused_may _ _ _ _ _ _ _ H)|]. bool_split.
  apply result_fields in H as (_ & _ & _ & _ & Hs & Ha). by split_and!.
Qed.

(** An accepting run of the durable transition that left no refusal. *)
Lemma accepted_state (g : Gate) a d s rs s' rs' :
  accept_authorization (S := S) (T := T) g a d s rs = (Ok s', rs') →
  existsb (λ r, bool_decide (r ∈ store_refusals)) rs' = false →
  d ∉ revoked_authorization_sha256 s' ∧ active_authorization_sha256 s' = Some d.
Proof using Type.
  intros H Hex. apply accept_run in H as (_ & [(_ & _ & ->)|[(? & ? & -> & _)|[[_ ->]|(? & _ & _ & _ & ->)]]]);
    [|done| |done]; rewrite existsb_app in Hex; apply orb_false_iff in Hex as [_ Hex];
    by vm_compute in Hex.
Qed.

Lemma evaluate_lease_may p t s a rs g r g' :
  evaluate_lease p t s a rs (snapshot_freshness g s t) g = (Ok r, g') →
  may_enter_primary_assurance r = true →
  ∃ d, authorization_sha256 r = Some d ∧ lease_admits g g' s a d p t.
Proof using Type.
  unfold evaluate_lease. unfold mbind, M_bind, get, lift.
  destruct (authorization_digest a) as [d|] eqn:Hd; [|congruence].
  destruct (snapshot_digest s) as [snap|] eqn:Hsnap; [|congruence].
  destruct (signature_valid _ _ _) as [signed|] eqn:Hsig; [|congruence].
  case_match eqn:Hval; bool_split.
  { intros [= Hres <-] Hm. by destruct (refused_may _ _ _ _ _ _ _ Hres). }
  apply app_nil in Hval as [Hflags Hfresh].
  destruct (update_state _ _ _) as [[[stored rs']|] g1] eqn:Hup; [|congruence].
  case_match eqn:Href; intros [= Hres <-] Hm; [by destruct (refused_may _ _ _ _ _ _ _ Hres)|].
  destruct stored as [st|e]; cycle 1.
  { rewrite existsb_app in Href. apply orb_false_iff in Href as [_ Href]. by vm_compute in Href. }
  apply update_state_run in Hup as (s0 & _ & Hacc & ->); [|apply accept_constructs].
  destruct (accepted_state _ _ _ _ _ _ _ Hacc Href) as [Hnr Hact].
  destruct (dispose_may _ _ _ _ _ _ _ Hres Hm) as (Hbeh & Hscope & _ & (d' & Hd' & Ha)).
  apply lease_flags_nil in Hflags as (?&->&?&?&?&Hroles&Hne&Hb&?).
  pose proof (mission_preserving_roles s Hne Hbeh) as Hmgmt.
  assert (d' = d) as -> by congruence. subst snap.
  exists d. split; [done|]. split; try done.
  - by apply signature_valid_true.
  - by apply snapshot_freshness_nil.
  - split; [done|]. intros r0. rewrite Hroles, Hmgmt. set_solver.
  - congruence.
  - by apply scope_flags_nil.
Qed.

Lemma lease_admits_config g g1 g' s a d p t :
  gate_evolves g g1 → lease_admits g1 g' s a d p t → lease_admits g g' s a d p t.
Proof using Type.
  intros [Ha Hk Hg Hl _] []. rewrite Ha, Hk, Hl in *. unfold fresh_snapshot in *. rewrite Hg in *.
  by split.
Qed.

Lemma snapshot_freshness_config g g1 s t :
  gate_evolves g g1 → snapshot_freshness g s t = snapshot_freshness g1 s t.
Proof using Type. intros [_ _ Hg _ _]. unfold snapshot_freshness. by rewrite Hg. Qed.

Lemma refused_out (snap : result string) o rs at_ auth roles r :
  (s ← snap; result_ o rs at_ s auth roles false) = Ok r →
  may_enter_primary_assurance r = true → False.
Proof using Type. intros H. inv_ok. eauto using refused_may. Qed.

Lemma evaluate_with_may p t s auth un g r g' :
  evaluate_with p t s auth un g = (Ok r, g') → may_enter_primary_assurance r = true →
  (authorization_sha256 r = None ∧ normal_operation g g' s t)
  ∨ ∃ a d, auth = Some a ∧ authorization_sha256 r = Some d ∧ lease_admits g g' s a d p t.
Proof using Type.
  unfold evaluate_with, mbind, M_bind, get, lift, attempt.
  destruct (read_state g) as [[st|e] g1] eqn:Hread; cycle 1.
  { destruct (isinstance_exn e "Exception"); [|congruence].
    intros [= Hres <-] Hm. by destruct (refused_out _ _ _ _ _ _ _ Hres). }
  pose proof (evolving_read _ _ _ Hread) as Hev.
  assert (st = gate_durable g1) as ->.
  { revert Hread. unfold read_state, zoom. destruct (store_read _) as [res t1] eqn:Hr.
    intros [= -> <-]. apply read_seen in Hr as [_ Hr]. exact (Hr st eq_refl). }
  case_match; [intros [= Hres <-] Hm; by destruct (refused_out _ _ _ _ _ _ _ Hres)|].
  destruct (match auth with Some _ => _ | None => _ end) as [revoked|]; [|congruence].
  case_match eqn:Hnormal; bool_split.
  - case_match eqn:Hout; [intros [= Hres <-] Hm; by destruct (refused_out _ _ _ _ _ _ _ Hres)|].
    intros [= Hres <-] Hm. left. apply result_bind_Ok in Hres as (snap & _ & Hres).
    apply result_fields in Hres as (_ & _ & _ & _ & _ & Hnone). split; [done|].
    split; try done; [by apply snapshot_freshness_nil|]. intros d Hd. rewrite Hd in Hout.
    rewrite bool_decide_eq_true_2 in Hout by eauto. simpl in Hout. by bool_split.
  - destruct auth as [a|]; [|intros [= Hres <-] Hm; by destruct (refused_out _ _ _ _ _ _ _ Hres)].
    destruct revoked; [intros [= Hres <-] Hm; by destruct (refused_out _ _ _ _ _ _ _ Hres)|].
    rewrite (snapshot_freshness_config _ _ s t Hev). intros Hres Hm. right.
    destruct (evaluate_lease_may _ _ _ _ _ _ _ _ Hres Hm) as (d & Hd & Hl).
    exists a, d. eauto using lease_admits_config.
Qed.

(** A call's admission, with the snapshot and lease the sources gave it. *)
Lemma evaluate_may p t g r g' :
  evaluate p (Some t) g = (Ok r, g') → may_enter_primary_assurance r = true →
  dt_aware t = true ∧ ∃ s, seen_snapshot g s ∧
    ((authorization_sha256 r = None ∧ normal_operation g g' s t)
     ∨ ∃ a d, seen_lease g a ∧ authorization_sha256 r = Some d ∧ lease_admits g g' s a d p t).
Proof using Type.
  intros Hrun Hm. unfold evaluate, evaluation_time in Hrun.
  apply M_bind_Ok in Hrun as (u & g0 & Ht & Hrun). apply lift_Ok in Ht as [Ht ->].
  apply timezone_aware_Ok in Ht as [-> Haw]. split; [done|].
  apply M_bind_Ok in Hrun as (sn & g1 & Hsn & Hrun). apply attempt_Ok in Hsn as [Hsn _].
  unfold on_src, zoom in Hsn. destruct (snapshot_source (gate_src g)) as [sn0 s1] eqn:Hsrc.
  injection Hsn as -> <-. destruct sn as [[s| |]|e]; cycle 1; [apply lift_Ok in Hrun as [Hres ->];
    by destruct (refused_may _ _ _ _ _ _ _ Hres Hm)..|].
  exists s. split; [unfold seen_snapshot; by rewrite Hsrc|].
  apply M_bind_Ok in Hrun as (au & g2 & Hau & Hrun). apply attempt_Ok in Hau as [Hau _].
  unfold on_src, zoom in Hau. cbn [gate_src set_src] in Hau.
  destruct (authorization_source s1) as [au0 s2] eqn:Hasrc. injection Hau as -> <-.
  assert (∃ auth un, evaluate_with p (utc (dt_utc t)) s auth un (set_src s2 (set_src s1 g)) = (Ok r, g')
            ∧ (∀ a, auth = Some a → au = Ok (Instance_of a))) as (auth & un & Hwith & Hauth).
  { destruct au as [[a| |]|e]; [exists (Some a), false|exists None, false|exists None, true|exists None, true];
      (split; [exact Hrun|by intros ? [=]]) || (split; [exact Hrun|by intros ? [= ->]]). }
  assert (Hg2 : gate_evolves g (set_src s2 (set_src s1 g))) by by split.
  destruct (evaluate_with_may _ _ _ _ _ _ _ _ Hwith Hm) as [[Hnone Hn]|(a & d & -> & Hd & Hl)].
  - left. split; [done|]. destruct Hn. by split.
  - right. exists a, d. split.
    + unfold seen_lease. rewrite Hsrc. cbn [snd]. rewrite Hasrc. by apply Hauth.
    + split; [done|]. apply (lease_admits_config _ _ _ _ _ _ _ _ Hg2) in Hl. destruct Hl. by split.
Qed.

(** C7 The gate lets a proposal enter primary assurance in two cases only: every
    service and path of the current snapshot is healthy and no accepted lease is
    left unreversed; or management alone is affected and one signed, active,
    unrevoked lease for exactly this snapshot, recorded as the active one,
    covers the proposal's actor, mission, resource, operation and risk. *)
Theorem admission_contract p t g r g' :
  gate_evaluate p t g = (Ok r, g') → may_enter_primary_assurance r = true →
  dt_aware t = true ∧ ∃ s, seen_snapshot g s ∧
    ((authorization_sha256 r = None ∧ normal_operation g g' s t)
     ∨ ∃ a d, seen_lease g a ∧ authorization_sha256 r = Some d ∧ lease_admits g g' s a d p t).
Proof using Type. apply evaluate_may. Qed.

(** ** Reversal *)
(** The grounds on which a reversal is applied. *)
Record reversal_grounds (g : Gate) (r : DegradedModeReversal) (a : DegradedModeAuthorization) (d : string)
    (t : datetime) : Prop := {
  rg_authority : rev_authority_id r = gate_authority_id g ∧ auth_authority_id a = gate_authority_id g;
  rg_signed : ∃ b, reversal_signing_payload r = Ok b
                   ∧ verify_bytes (authority_public_key g) b (rev_signature r) = true;
  rg_lease_signed : ∃ b, authorization_signing_payload a = Ok b
                         ∧ verify_bytes (authority_public_key g) b (auth_signature a) = true;
  rg_names : rev_authorization_id r = authorization_id a ∧ rev_authorization_sha256 r = d
             ∧ rev_recovery_checkpoint_id r = auth_recovery_checkpoint_id a;
  rg_age : (0 <= dt_sub t (rev_issued_at r) <= maximum_authorization_lifetime g)%Z;
}.

Lemma reversal_flags_nil (g : Gate) r a t d (rs_ as_ : bool) :
  collect (reversal_flags g r a t d rs_ as_) = [] →
  rev_authority_id r = gate_authority_id g ∧ rs_ = true
  ∧ (auth_authority_id a = gate_authority_id g ∧ as_ = true)
  ∧ rev_authorization_id r = authorization_id a ∧ rev_authorization_sha256 r = d
  ∧ rev_recovery_checkpoint_id r = auth_recovery_checkpoint_id a
  ∧ (0 <= dt_sub t (rev_issued_at r) <= maximum_authorization_lifetime g)%Z.
Proof using Type.
  rewrite collect_nil. unfold reversal_flags. rewrite !Forall_cons, Forall_nil. simpl.
  intros (? & ? & ? & ? & ? & ? & Hage & Hst & _). bool_split.
  apply andb_false_iff in Hst as [Hst|Hst]; bool_split; split_and!; auto; lia.
Qed.

Lemma DegradedReversalResult_validate_Ok r r' : DegradedReversalResult_validate r = Ok r' → r' = r.
Proof using Type. unfold DegradedReversalResult_validate. intros H. by inv_ok. Qed.

(** What a call that applied a reversal did to the durable state. *)
Record reversal_recorded (g g' : Gate) (r : DegradedModeReversal) (d : string) : Prop := {
  rr_revoked : d ∈ revoked_authorization_sha256 (gate_durable g');
  rr_first : d ∉ revoked_authorization_sha256 (gate_durable g);
  rr_sequence : (highest_reversal_sequence (gate_durable g) < rev_sequence r)%Z
                ∧ highest_reversal_sequence (gate_durable g') = rev_sequence r;
  rr_nonce : sha256_hex (utf8_encode (rev_nonce r)) ∉ accepted_reversal_nonce_sha256 (gate_durable g)
             ∧ sha256_hex (utf8_encode (rev_nonce r)) ∈ accepted_reversal_nonce_sha256 (gate_durable g');
}.

Lemma apply_reversal_applied r a t g res g' :
  apply_reversal r a (Some t) g = (Ok res, g') → applied res = true →
  ∃ d, authorization_digest a = Ok d ∧ reversal_grounds g r a d t ∧ reversal_recorded g g' r d.
Proof using Type.
  intros Hrun Hap. unfold apply_reversal, evaluation_time in Hrun.
  apply M_bind_Ok in Hrun as (u & g0 & Ht & Hrun). apply lift_Ok in Ht as [Ht ->].
  apply timezone_aware_Ok in Ht as [-> _]. apply M_bind_Ok in Hrun as (? & ? & [= <- <-] & Hrun).
  apply M_bind_Ok in Hrun as (rsig & ? & [Hrsig ->]%lift_Ok & Hrun).
  apply M_bind_Ok in Hrun as (asig & ? & [Hasig ->]%lift_Ok & Hrun).
  apply M_bind_Ok in Hrun as (d & ? & [Hd ->]%lift_Ok & Hrun).
  apply M_bind_Ok in Hrun as ([stored [ap rs]] & g1 & Hup & Hrun).
  destruct stored as [st|e].
  - apply M_bind_Ok in Hrun as (rd & ? & [_ ->]%lift_Ok & Hrun).
    apply M_bind_Ok in Hrun as (ev & ? & [_ ->]%lift_Ok & Hrun).
    apply lift_Ok in Hrun as [Hres ->]. apply DegradedReversalResult_validate_Ok in Hres as ->.
    simpl in Hap. subst ap. exists d. split; [done|].
    apply update_state_run in Hup as (s & Hs & Hf & ->); [|apply reversal_constructs].
    apply reversal_run in Hf as (_ & [[? _]|(_ & Hnil & _ & Hseq & Hn & Hr & Hst)]); [done|].
    apply reversal_flags_nil in Hnil as (? & -> & [Ha ->] & ? & ? & ? & ?).
    rewrite bool_decide_eq_true_2 in Hasig by done. destruct Hs as [_ _ Hs1 Hs2 Hs3]. split.
    + split; auto using signature_valid_true.
    + split; rewrite ?Hst; simpl; rewrite ?sorted_strs_elem; try set_solver. lia.
  - exfalso. apply M_bind_Ok in Hrun as (rd & ? & [_ ->]%lift_Ok & Hrun).
    apply M_bind_Ok in Hrun as (ev & ? & [_ ->]%lift_Ok & Hrun).
    apply lift_Ok in Hrun as [Hres ->]. apply DegradedReversalResult_validate_Ok in Hres as ->. done.
Qed.

(** C9 A reversal is applied only on a reversal and a lease both signed by the
    pinned authority, that name each other exactly, within the allowed age; it
    then is durable: the lease's digest is newly revoked, the reversal sequence
    strictly advanced to the reversal's, and its nonce spent for the first
    time. *)
Theorem reversal_applies r a t g res g' :
  apply_reversal r a (Some t) g = (Ok res, g') → applied res = true →
  ∃ d, authorization_digest a = Ok d ∧ reversal_grounds g r a d t ∧ reversal_recorded g g' r d.
Proof using Type. apply apply_reversal_applied. Qed.

(** ** Runs of a gate *)
(** A call of either operation of a gate. *)
Inductive gate_call : Gate → Gate → Prop :=
  | gcall_evaluate p now g res g' : evaluate p now g = (res, g') → gate_call g g'
  | gcall_reversal r a now g res g' : apply_reversal r a now g = (res, g') → gate_call g g'.
(** A step of a gate [g]: a call of it; a change of what its sources will give; a
    call of another gate [h], of any configuration and with any sources, over the
    same store; or any other change of the store that keeps the durable state. *)
Inductive gate_step : Gate → Gate → Prop :=
  | gstep_call g g' : gate_call g g' → gate_step g g'
  | gstep_sources s g : gate_step g (set_src s g)
  | gstep_other h h' g : gate_store h = gate_store g → gate_call h h' → gate_step g (set_store (gate_store h') g)
  | gstep_store t g : durable t = gate_durable g → gate_step g (set_store t g).

Lemma gate_call_evolves g g' : gate_call g g' → gate_evolves g g'.
Proof using Type. intros []; [by eapply evaluate_evolving|by eapply apply_reversal_evolving]. Qed.
Lemma gate_run_evolves g g' : rtc gate_step g g' → gate_evolves g g'.
Proof using Type.
  induction 1 as [|g g1 g2 Hs _ IH]; [done|]. etrans; [|exact IH].
  destruct Hs as [g g' Hs|s g|h h' g Heq Hs|t g Heq]; [by apply gate_call_evolves|by split| |].
  - apply gate_call_evolves in Hs as [_ _ _ _ Hs]. split; try done. unfold gate_durable in *. by rewrite <- Heq.
  - split; try done. unfold gate_durable in *. cbn. by rewrite Heq.
Qed.

(** C8 Once a reversal of a lease has been applied, no later call of any run admits
    a proposal under that lease: whatever snapshots and leases the sources give,
    and whatever calls other gates, of any configuration and in any process, make
    on the same store in between.  This is for every store that keeps
    [StateStoreLaws], as the in-memory store ([in_memory_laws]) and the file store
    ([file_store_laws], whatever operating-system calls fail) do; the durable state
    is taken to be changed by gates only, so that nobody else rewrites or removes
    the state file, which a store that does not require it to exist would read as
    the initial state. *)
Theorem reversal_is_permanent r a t g res g1 g2 p t' adm g3 d :
  apply_reversal r a (Some t) g = (Ok res, g1) → applied res = true →
  rtc gate_step g1 g2 → gate_evaluate p t' g2 = (Ok adm, g3) →
  authorization_digest a = Ok d → authorization_sha256 adm = Some d →
  may_enter_primary_assurance adm = false.
Proof using HL.
  intros Hrev Hap Hrun Hev Hd Hsha. apply not_true_iff_false. intros Hm.
  destruct (apply_reversal_applied _ _ _ _ _ _ Hrev Hap) as (d' & Hd' & _ & [Hr _ _ _]).
  assert (d' = d) as -> by congruence.
  destruct (evaluate_may _ _ _ _ _ Hev Hm) as (_ & s & _ & [[Hn _]|(a' & d' & _ & Hd'' & Hl)]);
    [congruence|]. assert (d' = d) as -> by congruence.
  apply (la_not_revoked _ _ _ _ _ _ _ Hl). apply gate_run_evolves in Hrun as [_ _ _ _ Hrun].
  apply evaluate_evolving in Hev as [_ _ _ _ Hev].
  apply (ev_revoked _ _ Hev), (ev_revoked _ _ Hrun), Hr.
Qed.

(** ** The gate always answers *)
Lemma has_nan_strs l : existsb has_nan (JStr <$> l) = false.
Proof using Type. by induction l. Qed.

Lemma admission_material_Ok o rs at_ snap auth mode roles cp may :
  ∃ d, canonical_digest (admission_material o rs at_ snap auth mode roles cp may) = Ok d
       ∧ is_sha256 d = true.
Proof using Type.
  assert (Hn : has_nan (admission_material o rs at_ snap auth mode roles cp may) = false).
  { unfold admission_material. cbn [has_nan existsb]. rewrite has_nan_strs.
    replace (existsb has_nan ((λ r, JStr (DegradedRole_value r)) <$> roles)) with false
      by (by induction roles).
    by destruct auth, mode, cp. }
  unfold canonical_digest, dumps_strict. rewrite Hn. eexists. split; [done|apply sha256_hex_shape].
Qed.

Lemma sorted_roles l : sorted_by_value (merge_sort role_le l) = true.
Proof using Type.
  assert (Total role_le) by (intros a b; apply (total str_le)).
  pose proof (Sorted_merge_sort role_le l) as Hs.
  induction Hs as [|a l' Hs IH Hh]; [done|]. destruct l' as [|b l']; [done|].
  simpl in *. rewrite IH, andb_true_r. by inversion Hh.
Qed.

Lemma zeros64_sha256 : is_sha256 (zeros 64) = true.
Proof using Type. reflexivity. Qed.

(** A transition that fails only with exceptions. *)
Definition raises_exceptions {X} (f : DegradedOperationState → M X DegradedOperationState) : Prop :=
  ∀ s x e, (f s x).1 = Raise e → isinstance_exn e "Exception" = true.

Lemma accept_raises (g : Gate) a d : raises_exceptions (accept_authorization g a d).
Proof using Type.
  intros s rs e. unfold accept_authorization. repeat case_match; simpl; try done.
  - by intros [= <-].
  - unfold DegradedOperationState_validate, require. repeat case_match; simpl; by intros [= <-].
Qed.

Section answers.
(** No model's JSON holds a non-finite float: validation excluded them. *)
Hypothesis snapshot_dumps : ∀ s, ∃ d, snapshot_digest s = Ok d.
Hypothesis authorization_dumps : ∀ a, (∃ d, authorization_digest a = Ok d)
                                      ∧ ∃ b, authorization_signing_payload a = Ok b.
(** Sources and stores fail with exceptions, not with an interpreter exit. *)
Hypothesis sources_exceptions : ∀ s e,
  (snapshot_source s).1 = Raise e ∨ (authorization_source s).1 = Raise e →
  isinstance_exn e "Exception" = true.
Hypothesis store_exceptions : ∀ t e, (store_read (T := T) t).1 = Raise e →
  isinstance_exn e "Exception" = true.
Hypothesis update_exceptions : ∀ X (f : DegradedOperationState → M X DegradedOperationState) tx e,
  raises_exceptions f → (store_update (T := T) f tx).1 = Raise e → isinstance_exn e "Exception" = true.

Definition answers_constructed (m : M Gate DegradedAdmissionResult) (g : Gate) : Prop :=
  ∃ r g', m g = (Ok r, g') ∧ DegradedAdmissionResult_validate r = Ok r.
Definition answers {A} (m : M Gate A) : Prop := ∀ g, ∃ a g', m g = (Ok a, g').

Lemma answers_bind {A B} (m : M Gate A) (k : A → M Gate B) :
  answers m → (∀ a, answers (k a)) → answers (m ≫= k).
Proof using Type.
  intros Hm Hk g. destruct (Hm g) as (a & g1 & Hg). destruct (Hk a g1) as (b & g2 & Hg1).
  exists b, g2. unfold mbind, M_bind. by rewrite Hg.
Qed.
Lemma answers_lift {A} (r : result A) : (∃ a, r = Ok a) → answers (lift r).
Proof using Type. intros [a ->] g. by exists a, g. Qed.
Lemma answers_get : answers get.
Proof using Type. intros g. by exists g, g. Qed.

Lemma answers_read : answers (attempt read_state).
Proof using store_exceptions.
  intros g. unfold attempt, read_state, zoom. pose proof (store_exceptions (gate_store g)) as He.
  destruct (store_read (gate_store g)) as [[st|e] t]; [eauto|].
  rewrite (He e) by done. eauto.
Qed.

Lemma answers_src {A} (m : M S A) :
  (∀ s e, (m s).1 = Raise e → isinstance_exn e "Exception" = true) →
  answers (attempt (on_src m)).
Proof using Type.
  intros He g. unfold attempt, on_src, zoom. specialize (He (gate_src g)).
  destruct (m (gate_src g)) as [[st|e] t]; [eauto|]. rewrite (He e) by done. eauto.
Qed.

Lemma answers_update {X} f (x : X) : raises_exceptions f → answers (update_state f x).
Proof using update_exceptions.
  intros Hf g. unfold update_state. pose proof (update_exceptions X f (gate_store g, x)) as He.
  destruct (store_update f (gate_store g, x)) as [[st|e] [t x']]; [eauto|].
  rewrite (He e) by done. eauto.
Qed.

Lemma result_answers o rs at_ snap auth roles may :
  rs ≠ [] → NoDup rs → dt_aware at_ = true → is_sha256 snap = true →
  may = bool_decide (o = CONTINUE_PRIMARY_ASSURANCE) →
  ∃ r, result_ o rs at_ snap auth roles may = Ok r.
Proof using authorization_dumps.
  intros Hrs Hnd Haw Hsnap Hmay. unfold result_.
  assert (∃ d, match auth with Some a => d ← authorization_digest a; Ok (Some d) | None => Ok None end
               = Ok d ∧ match d with Some d => is_sha256 d = true | None => True end) as (d & -> & Hd).
  { destruct auth as [a|]; [|by exists None]. destruct (authorization_dumps a) as [[d Hd] _].
    rewrite Hd. exists (Some d). split; [done|]. by eapply canonical_digest_shape. }
  cbn [mbind result_bind].
  destruct (admission_material_Ok o rs at_ snap d (auth_mode_name <$> auth) (merge_sort role_le roles)
    (auth_recovery_checkpoint_id <$> auth) may) as (ev & -> & Hev). cbn [mbind result_bind].
  eexists. unfold DegradedAdmissionResult_validate, require. simpl.
  rewrite (bool_decide_eq_false_2 _ Hrs), Hsnap, Hev, Haw, Hmay, eqb_reflx. simpl.
  rewrite (bool_decide_eq_true_2 _ Hnd), sorted_roles.
  destruct d as [d|]; [rewrite Hd|]; reflexivity.
Qed.

Lemma answers_result o rs at_ snap auth roles may :
  rs ≠ [] → NoDup rs → dt_aware at_ = true → is_sha256 snap = true →
  may = bool_decide (o = CONTINUE_PRIMARY_ASSURANCE) →
  answers (lift (result_ o rs at_ snap auth roles may)).
Proof using authorization_dumps. intros. by apply answers_lift, result_answers. Qed.

Lemma answers_out s o rs at_ auth roles may :
  rs ≠ [] → NoDup rs → dt_aware at_ = true → may = bool_decide (o = CONTINUE_PRIMARY_ASSURANCE) →
  answers (lift (snap ← snapshot_digest s; result_ o rs at_ snap auth roles may)).
Proof using authorization_dumps snapshot_dumps.
  intros. apply answers_lift. destruct (snapshot_dumps s) as [d Hd]. rewrite Hd. simpl.
  apply result_answers; auto. by eapply canonical_digest_shape.
Qed.

Lemma fromkeys_app_one l x : fromkeys (l ++ [x]) ≠ [].
Proof using Type. rewrite fromkeys_nil. by destruct l. Qed.

Lemma answers_bind_lift {A B} (r : result A) (k : A → M Gate B) :
  (∃ a, r = Ok a) → (∀ a, r = Ok a → answers (k a)) → answers (lift r ≫= k).
Proof using Type. intros [a ->] Hk g. destruct (Hk a eq_refl g) as (b & g' & H). eauto. Qed.

Lemma dispose_answers p t s a rs snap :
  dt_aware t = true → is_sha256 snap = true →
  ∃ r, dispose p a t snap (affected_roles s) rs = Ok r.
Proof using authorization_dumps.
  intros Ht Hs. unfold dispose.
  repeat case_match; apply result_answers; auto using fromkeys_NoDup, fromkeys_app_one.
  bool_split. rewrite fromkeys_nil. by intros [_ ?]%app_nil.
Qed.

Lemma evaluate_lease_answers p t s a rs fr :
  dt_aware t = true → answers (evaluate_lease p t s a rs fr).
Proof using authorization_dumps snapshot_dumps update_exceptions.
  intros Ht. destruct (authorization_dumps a) as [Hd [b Hb]]. unfold evaluate_lease.
  apply answers_bind; [apply answers_get|]. intros g.
  apply answers_bind_lift; [done|]. intros d _.
  apply answers_bind_lift; [apply snapshot_dumps|]. intros sn Hsn%canonical_digest_shape.
  apply answers_bind_lift; [unfold signature_valid; rewrite Hb; case_bool_decide; simpl; eauto|].
  intros signed _. case_match; bool_split.
  { apply answers_result; auto using fromkeys_NoDup. rewrite fromkeys_nil. by intros [_ ?]%app_nil. }
  apply answers_bind; [apply answers_update, accept_raises|]. intros [stored rs']. case_match eqn:Hex.
  - apply answers_result; auto using fromkeys_NoDup. rewrite fromkeys_nil. intros Hnil.
    by rewrite Hnil in Hex.
  - by apply answers_lift, dispose_answers.
Qed.

Lemma evaluate_with_answers p t s auth un : dt_aware t = true → answers (evaluate_with p t s auth un).
Proof using authorization_dumps snapshot_dumps update_exceptions store_exceptions.
  intros Ht. assert (Hone : ∀ x : string, NoDup [x]) by (intros; apply NoDup_singleton).
  unfold evaluate_with. apply answers_bind; [apply answers_get|]. intros g.
  apply answers_bind; [apply answers_read|]. intros [st|e]; [|by apply answers_out].
  case_match; [by apply answers_out|]. apply answers_bind_lift.
  { destruct auth as [a|]; [|eauto]. destruct (authorization_dumps a) as [[d ->] _]. simpl. eauto. }
  intros revoked _. case_match; [case_match; by apply answers_out|].
  destruct auth as [a|]; [case_match|];
    auto using evaluate_lease_answers, answers_out, fromkeys_NoDup, fromkeys_app_one.
Qed.

(** C10 The gate always answers with a constructed result at a timezone-aware
    time, whatever its sources give (instances, other objects or exceptions)
    and whether or not its durable store works: it fails closed, never by
    raising into the gateway. *)
Theorem gate_always_answers p t g :
  dt_aware t = true →
  answers_constructed (gate_evaluate p t) g.
Proof using authorization_dumps snapshot_dumps update_exceptions store_exceptions sources_exceptions.
  intros Ht. assert (answers (evaluate p (Some t))) as Ha.
  { assert (Hone : ∀ x : string, NoDup [x]) by (intros; apply NoDup_singleton).
    unfold evaluate, evaluation_time. apply answers_bind_lift.
    { unfold timezone_aware. rewrite Ht. eauto. }
    intros u [-> _]%timezone_aware_Ok. apply answers_bind; [apply answers_src; eauto|].
    intros [[s| |]|e]; [|by apply answers_result..].
    apply answers_bind; [apply answers_src; eauto|].
    intros [[a| |]|e]; by apply evaluate_with_answers. }
  destruct (Ha g) as (r & g' & H). exists r, g'. split; [done|]. by eapply gate_result_valid.
Qed.
End answers.
End contract.
