(* ===== verification/DegradedDemo.v ===== *)
(** * A concrete degraded-operation gate

    JSON forms, sources, an in-memory and a file store for the gate, with a
    management outage, a lease that covers the demonstration proposal and its
    reversal. *)
From S2P Require Import Prelude PyFloat PyStr PyTime PyJson Sha256 Crypto Models PyModel Admission.
From S2P Require Import DegradedModels DegradedGate DegradedStore DegradedContract GatewayDemo.
Import DemoEd25519 ModelsDemo.

Definition jfloat (f : float) : json := if is_finite f then JFloat f else JNull.
Definition conditions_json (m : list (DegradedRole * RoleCondition)) : json :=
  JObj ((λ rc, (DegradedRole_value rc.1, JStr (RoleCondition_value rc.2))) <$> m).

#[export] Instance demo_snapshot_dump : ModelDump DegradedRuntimeSnapshot := λ s,
  JObj [("snapshot_id", JStr (snapshot_id s)); ("captured_at", JStr (isoformat (captured_at s)));
        ("role_conditions", conditions_json (role_conditions s));
        ("communication_conditions", conditions_json (communication_conditions s));
        ("unresolved_effect", JBool (unresolved_effect s))].

#[export] Instance demo_lease_dump : ModelDump DegradedModeAuthorization := λ a,
  JObj [("authorization_id", JStr (authorization_id a)); ("sequence", JInt (auth_sequence a));
        ("authority_id", JStr (auth_authority_id a)); ("mode_name", JStr (auth_mode_name a));
        ("affected_roles", JArr ((λ r, JStr (DegradedRole_value r)) <$> auth_affected_roles a));
        ("allowed_actor_ids", JArr (JStr <$> elements (allowed_actor_ids_ a)));
        ("allowed_resources", JArr (JStr <$> elements (allowed_resources a)));
        ("maximum_risk_score", jfloat (maximum_risk_score a));
        ("snapshot_sha256", JStr (auth_snapshot_sha256 a)); ("nonce", JStr (auth_nonce a));
        ("issued_at", JStr (isoformat (auth_issued_at a)));
        ("expires_at", JStr (isoformat (auth_expires_at a))); ("signature", JStr (auth_signature a))].

#[export] Instance demo_reversal_dump : ModelDump DegradedModeReversal := λ r,
  JObj [("reversal_id", JStr (reversal_id r)); ("sequence", JInt (rev_sequence r));
        ("authorization_sha256", JStr (rev_authorization_sha256 r)); ("nonce", JStr (rev_nonce r));
        ("issued_at", JStr (isoformat (rev_issued_at r))); ("signature", JStr (rev_signature r))].

(** Sources that give fixed values; an absent snapshot source raises. *)
Record DemoSources := mk_DemoSources {
  demo_snapshot : option DegradedRuntimeSnapshot;
  demo_lease : option DegradedModeAuthorization;
}.
#[export] Instance demo_sources : Sources DemoSources := {|
  snapshot_source s := (match demo_snapshot s with
                        | Some x => Ok (Instance_of x) | None => raise_ "FileNotFoundError" "snapshot" end, s);
  authorization_source s := (match demo_lease s with
                             | Some x => Ok (Instance_of x) | None => Ok NoneValue end, s);
|}.

Definition all_healthy : list (DegradedRole * RoleCondition) := (λ r, (r, HEALTHY)) <$> all_roles.
Definition management_lost : list (DegradedRole * RoleCondition) :=
  (λ r, (r, if bool_decide (r = MANAGEMENT) then UNAVAILABLE else HEALTHY)) <$> all_roles.
Definition outage : DegradedRuntimeSnapshot :=
  mk_DegradedRuntimeSnapshot "snapshot-0123456789" (utc t0) management_lost all_healthy false.
Definition unsigned_lease : DegradedModeAuthorization :=
  mk_DegradedModeAuthorization "lease-0123456789abc" 1 "authority:m5" "management-outage" MISSION_PRESERVING
    [MANAGEMENT] {["agent:operator-1"]} {["microgrid"]} {["feeder-1"]} {[ISOLATE_ASSET]} (flit 50 1)
    (match snapshot_digest outage with Ok d => d | Raise _ => "" end) "checkpoint-0123456789"
    "lease-nonce-0123456789" (utc t0) (utc (t0 + minutes 4)) "".
Definition lease : DegradedModeAuthorization :=
  mk_DegradedModeAuthorization (authorization_id unsigned_lease) 1 "authority:m5" "management-outage"
    MISSION_PRESERVING [MANAGEMENT] {["agent:operator-1"]} {["microgrid"]} {["feeder-1"]} {[ISOLATE_ASSET]}
    (flit 50 1) (auth_snapshot_sha256 unsigned_lease) "checkpoint-0123456789" "lease-nonce-0123456789"
    (utc t0) (utc (t0 + minutes 4))
    (match authorization_signing_payload unsigned_lease with
     | Ok b => sign_bytes "authority-key" b | Raise _ => "" end).
Definition lease_sha : string := match authorization_digest lease with Ok d => d | Raise _ => "" end.

Definition reversal_signed (sg : string) : DegradedModeReversal :=
  mk_DegradedModeReversal "reversal-0123456789" 1 "authority:m5" (authorization_id lease) lease_sha
    "checkpoint-0123456789" "operator_request" "reversal-nonce-012345" (utc (t0 + seconds 1)) sg.
Definition reversal : DegradedModeReversal := reversal_signed
  (match reversal_signing_payload (reversal_signed "") with
   | Ok b => sign_bytes "authority-key" b | Raise _ => "" end).

Definition demo_gate_at (src : DemoSources) : DegradedOperationGate (T := DegradedOperationState) :=
  mk_DegradedOperationGate "authority:m5" "authority-key" (seconds 5) (minutes 5) src
    (mk_DegradedOperationState "authority:m5" 0 None 0 [] []) (mk_World 0 0).
Definition g0 := demo_gate_at (mk_DemoSources (Some outage) (Some lease)).
Definition admission := gate_evaluate proposal now g0.
Definition reversed := apply_reversal reversal lease (Some now) g0.
Definition afterwards := gate_evaluate proposal now reversed.2.

Definition admission_of (r : result DegradedAdmissionResult) : DegradedAdmissionResult :=
  match r with Ok a => a | Raise _ => demo_result SAFE_STATE now end.
Definition reversal_of (r : result DegradedReversalResult) : DegradedReversalResult :=
  match r with Ok a => a | Raise _ => mk_DegradedReversalResult false [] now "" "" "" end.

Example lease_lifecycle :
  DegradedModeAuthorization_validate lease = Ok lease
  ∧ DegradedModeReversal_validate reversal = Ok reversal
  ∧ admission_reasons <$> admission.1
    = Ok ["management_service_unavailable"; "authorized_mission_preserving_entry_to_primary_assurance"]
  ∧ reversal_reasons <$> reversed.1 = Ok ["degraded_authorization_revoked"]
  ∧ admission_reasons <$> afterwards.1
    = Ok ["management_service_unavailable"; "degraded_authorization_revoked"].
Proof. vm_compute. split_and!; reflexivity. Qed.

Lemma admission_contract_witness :
  may_enter_primary_assurance (admission_of admission.1) = true
  ∧ ∃ s, seen_snapshot g0 s.
Proof.
  assert (Hd : gate_evaluate proposal now g0 = (Ok (admission_of admission.1), admission.2))
    by (vm_compute; reflexivity).
  assert (Hm : may_enter_primary_assurance (admission_of admission.1) = true) by (vm_compute; reflexivity).
  destruct (admission_contract proposal now g0 _ _ Hd Hm) as (_ & s & Hs & _).
  exact (conj Hm (ex_intro _ s Hs)).
Defined.

Lemma reversal_applies_witness :
  applied (reversal_of reversed.1) = true ∧ ∃ d, authorization_digest lease = Ok d.
Proof.
  assert (Hd : apply_reversal reversal lease (Some now) g0 = (Ok (reversal_of reversed.1), reversed.2))
    by (vm_compute; reflexivity).
  assert (Ha : applied (reversal_of reversed.1) = true) by (vm_compute; reflexivity).
  destruct (reversal_applies reversal lease now g0 _ _ Hd Ha) as (d & Hdig & _).
  exact (conj Ha (ex_intro _ d Hdig)).
Defined.

(** ** The file store

    An explicit JSON form of the state and a system on which every call
    succeeds. *)
Definition STATE_SCHEMA : string := "aegis-ot-m5-degraded-operation-state-v1".
Definition operation_state_fields (s : DegradedOperationState) : list (string * json) :=
  [("schema_version", JStr STATE_SCHEMA); ("authority_id", JStr (state_authority_id s));
   ("highest_authorization_sequence", JInt (highest_authorization_sequence s));
   ("active_authorization_sha256", opt_str (active_authorization_sha256 s));
   ("highest_reversal_sequence", JInt (highest_reversal_sequence s));
   ("accepted_reversal_nonce_sha256", JArr (JStr <$> accepted_reversal_nonce_sha256 s));
   ("revoked_authorization_sha256", JArr (JStr <$> revoked_authorization_sha256 s))].
#[export] Instance operation_state_dump : ModelDump DegradedOperationState := λ s, JObj (operation_state_fields s).
Fixpoint strings_in (l : list json) : result (list string) :=
  match l with
  | [] => Ok []
  | JStr s :: l => rest ← strings_in l; Ok (s :: rest)
  | _ => invalid
  end.
Definition strings_of (kv : list (string * json)) (k : string) : result (list string) :=
  match dict_get k kv with None => Ok [] | Some (JArr l) => strings_in l | Some _ => invalid end.
Definition opt_str_of (kv : list (string * json)) (k : string) : result (option string) :=
  match dict_get k kv with None | Some JNull => Ok None | Some (JStr s) => Ok (Some s) | Some _ => invalid end.
Definition operation_state_of (kv : list (string * json)) : result DegradedOperationState :=
  _ ← literal_of kv "schema_version" STATE_SCHEMA;
  authority ← str_of kv "authority_id";
  sequence ← int_of kv "highest_authorization_sequence";
  active ← opt_str_of kv "active_authorization_sha256";
  reversals ← int_of kv "highest_reversal_sequence";
  nonces ← strings_of kv "accepted_reversal_nonce_sha256";
  revoked ← strings_of kv "revoked_authorization_sha256";
  DegradedOperationState_validate (mk_DegradedOperationState authority sequence active reversals nonces revoked).
#[export] Instance operation_state_load : StateLoad := λ j,
  match j with
  | JObj kv => match operation_state_of kv with Ok s => Some s | Raise _ => None end
  | _ => None
  end.

Lemma strings_in_dump l : strings_in (map canon (JStr <$> l)) = Ok l.
Proof. induction l as [|x l IH]; [done|]. cbn. cbn in IH. by rewrite IH. Qed.
Lemma strings_json_ok (l : list string) : forallb json_ok (JStr <$> l) = true.
Proof. by induction l. Qed.
#[export] Instance operation_state_codec : StateCodecLaws.
Proof.
  split.
  - intros s Hs. exists (operation_state_fields s).
    assert (Hn : NoDup (operation_state_fields s).*1) by by apply (bool_decide_unpack _).
    split; [done|]. split.
    + cbn [json_ok]. rewrite bool_decide_eq_true_2 by done. unfold operation_state_fields. cbn [forallb json_ok snd].
      rewrite !strings_json_ok. by destruct (active_authorization_sha256 s).
    + unfold state_model_validate, operation_state_load, operation_state_of, literal_of, str_of, int_of, opt_str_of,
        strings_of. rewrite !canonical_get by done. unfold operation_state_fields. fields.
      cbn [fmap option_fmap option_map canon]. rewrite bool_decide_eq_true_2 by done. cbn [mbind result_bind].
      rewrite !strings_in_dump. cbn [mbind result_bind]. destruct s as [au hs ac hr ns rs]. cbn in *.
      destruct ac; cbn; by rewrite Hs.
  - intros j s. unfold state_model_validate, operation_state_load. destruct j as [| | | | | |kv]; try done.
    destruct (operation_state_of kv) as [s'|] eqn:H; [|done]. intros [= <-].
    unfold operation_state_of in H. do 7 (apply result_bind_Ok in H as (? & _ & H)).
    by pose proof (DegradedOperationState_validate_Ok _ _ H) as ->.
Qed.
#[export] Instance healthy_system : StoreEnv :=
  {| call_fails _ := false; found_changed _ := false; write_end _ := Replaced |}.
Definition empty_store : FileStore :=
  mk_FileStore "authority:m5" false (Some (mk_ParentNode true true 448)) Missing Missing 0.

(** The gate over the file store, and another gate with its own windows and no
    lease on the same file. *)
Definition file_gate_at (age : timedelta) (src : DemoSources) (t : FileStore) : DegradedOperationGate (T := FileStore) :=
  mk_DegradedOperationGate "authority:m5" "authority-key" age (minutes 5) src t (mk_World 0 0).
Definition f0 := file_gate_at (seconds 5) (mk_DemoSources (Some outage) (Some lease)) empty_store.
Definition f_admission := gate_evaluate proposal now f0.
Definition f_reversed := apply_reversal reversal lease (Some now) f_admission.2.
Definition other_gate := file_gate_at (seconds 9) (mk_DemoSources (Some outage) None) (gate_store f_reversed.2).
Definition other_call := evaluate proposal (Some now) other_gate.
Definition no_sources := set_src (mk_DemoSources None None) (set_store (gate_store other_call.2) f_reversed.2).
Definition f_later := set_src (mk_DemoSources (Some outage) (Some lease)) (evaluate proposal (Some now) no_sources).2.
Definition f_afterwards := gate_evaluate proposal now f_later.

(** The other gate's call, sources lost, a call without sources, and the sources
    back. *)
Lemma run_between (g : DegradedOperationGate (S := DemoSources) (T := FileStore)) age src1 src2 src3 :
  rtc gate_step g
    (set_src src3 (evaluate proposal (Some now)
      (set_src src2 (set_store (gate_store (evaluate proposal (Some now) (file_gate_at age src1 (gate_store g))).2) g))).2).
Proof.
  eapply rtc_l.
  { eapply (gstep_other (file_gate_at age src1 (gate_store g))); [done|]. eapply gcall_evaluate, surjective_pairing. }
  eapply rtc_l; [apply gstep_sources|]. eapply rtc_l; [apply gstep_call; eapply gcall_evaluate, surjective_pairing|].
  eapply rtc_l; [apply gstep_sources|]. apply rtc_refl.
Qed.
Lemma f_run : rtc gate_step f_reversed.2 f_later.
Proof. unfold f_later, no_sources, other_call, other_gate. apply run_between. Qed.

Lemma reversal_is_permanent_witness :
  may_enter_primary_assurance (admission_of f_admission.1) = true
  ∧ rtc gate_step f_reversed.2 f_later
  ∧ authorization_sha256 (admission_of f_afterwards.1) = Some lease_sha
  ∧ may_enter_primary_assurance (admission_of f_afterwards.1) = false.
Proof.
  assert (H0 : may_enter_primary_assurance (admission_of f_admission.1) = true) by (vm_compute; reflexivity).
  assert (Hd : apply_reversal reversal lease (Some now) f_admission.2 = (Ok (reversal_of f_reversed.1), f_reversed.2))
    by (vm_compute; reflexivity).
  assert (Ha : applied (reversal_of f_reversed.1) = true) by (vm_compute; reflexivity).
  assert (He : gate_evaluate proposal now f_later = (Ok (admission_of f_afterwards.1), f_afterwards.2))
    by (vm_compute; reflexivity).
  assert (Hs : authorization_sha256 (admission_of f_afterwards.1) = Some lease_sha) by (vm_compute; reflexivity).
  assert (Hl : authorization_digest lease = Ok lease_sha) by (vm_compute; reflexivity).
  split; [exact H0|]. split; [exact f_run|]. split; [exact Hs|].
  exact (reversal_is_permanent reversal lease now _ _ _ f_later proposal now _ _ _ Hd Ha f_run He Hl Hs).
Defined.

Lemma strs_have_no_nan (l : list string) : existsb has_nan (JStr <$> l) = false.
Proof. by induction l. Qed.
Lemma conditions_have_no_nan m : has_nan (conditions_json m) = false.
Proof. induction m as [|[r c] m IH]; [done|]. exact IH. Qed.

Lemma gate_always_answers_witness :
  answers_constructed (gate_evaluate proposal now) (demo_gate_at (mk_DemoSources None None)).
Proof.
  apply gate_always_answers.
  - intros s. unfold snapshot_digest, canonical_digest, dumps_strict, model_dump, demo_snapshot_dump.
    cbn [has_nan existsb]. rewrite !conditions_have_no_nan. simpl. eauto.
  - assert (Hf : ∀ f, has_nan (jfloat f) = false)
      by (intros f; unfold jfloat; destruct (is_finite f) eqn:Ef; simpl; rewrite ?Ef; done).
    assert (Hr : ∀ l : list DegradedRole, existsb has_nan ((λ r, JStr (DegradedRole_value r)) <$> l) = false)
      by (intros l; by induction l).
    intros a. unfold authorization_digest, authorization_signing_payload, canonical_digest, dumps_strict,
      model_dump, demo_lease_dump. cbn [json_exclude].
    simpl. rewrite !Hf, !strs_have_no_nan, !Hr. simpl. eauto.
  - intros [[?|] [?|]] e [H|H]; simpl in H; try discriminate H; injection H as <-; reflexivity.
  - intros t e H. simpl in H. discriminate H.
  - intros X f [t x] e Hf H. simpl in H. specialize (Hf t x). unfold InMemory_update in H.
    destruct (f t x) as [[s|e'] x']; [|by apply Hf].
    destruct (bool_decide _); simpl in H; [discriminate H|]. injection H as <-. reflexivity.
  - reflexivity.
Defined.
